(* ===== verification/_CoqProject ===== *)
-Q . S2P
Prelude.v
Mem.v
Bytes.v
Elf.v
Str.v
Ulib.v
Grep.v
Umalloc.v
UmallocSpec.v
Spinlock.v
Locks.v
Kalloc.v
Vm.v
VmInv.v
VmMap.v
VmUser.v
VmOut.v
VmSpec.v
Proc.v
Sched.v
ProcInv.v
ProcSpec.v
Syscall.v
Trap.v
Pipe.v
Bio.v
Ide.v
Log.v
Txn.v
Fs.v
FsBlocks.v
FsInode.v
FsFile.v
FsDir.v
FsSample.v
FsSpec.v
Mkfs.v
MkfsSpec.v
Uprogs.v
Console.v
ConsoleSpec.v
Kbd.v
File.v
Sysfile.v
Shell.v
ShellSpec.v
ShellGrammar.v
ShellRun.v
Init.v
Exec.v
Boot.v
Apic.v
Mp.v
Start.v
Seg.v
Usertests.v
System.v
FileRun.v
FileSpec.v
