(* ===== verification/Prelude.v ===== *)
(** * xv6 (Operating-System-Laboratory): verification development

    The program is the xv6 kernel for the i386 in [src/xv6-public-master] with the
    extensions of an operating systems course: a line editor with history, copy and
    paste and a calculator in the console, system calls that count and sort calls
    and move files, a scheduler with three queues and aging, and a reentrant lock.
    Around it are the boot loader, the program that builds the disk image, the shell
    and the other user programs.  This library models them in Rocq, component by
    component, as executable functions translated from the C, and proves what the
    components promise.

    ** The parts and how they fit

    Traps ([trap.c]) come from devices and from user programs.  A system call goes
    through the dispatcher ([syscall.c]) to the calls on processes ([sysproc.c]) and
    on files ([sysfile.c], [exec.c]).  Processes ([proc.c]) are created over the page
    tables ([vm.c]) and the page allocator ([kalloc.c]) and share open files
    ([file.c]), which are pipes ([pipe.c]), inodes of the file system ([fs.c]) or
    devices.  The file system runs in transactions of the log ([log.c]) over the
    buffer cache ([bio.c]), which reads and writes the disk ([ide.c], or [memide.c] in
    memory).  The console ([console.c]) is fed by the keyboard ([kbd.c]).  Spin locks,
    sleep locks and the reentrant lock ([spinlock.c], [sleeplock.c], [proc.c]) protect
    all of them.

    The boot loader ([bootmain.c]) reads the kernel from the disk; the kernel finds the
    processors ([mp.c]), programs the interrupt controllers ([lapic.c], [ioapic.c]) and
    the descriptor tables ([seginit], [tvinit]) and starts the other processors
    ([main.c]).  The file system it mounts is the image of [mkfs.c].  The first program
    ([init.c]) runs the shell ([sh.c]), which runs the others; they use the library of
    [ulib.c], [printf.c] and [umalloc.c] and reach the kernel by system calls only.

    ** How code becomes definitions

    A C integer of [w] bits is a [Z], and arithmetic that can overflow is written with
    the conversions [u8], [i16], [u16], [u32], [i32] of this file.  A pointer is the
    index of an element of its table or a kernel address; null is [None] or 0.
    Physical memory is words in pages ([Mem]).  Functions that only compute are Rocq
    functions.  Kernel code with state is in the thread monad [M S A] of this file: a
    routine on the component's state [S] that returns, goes to sleep on a channel, or
    panics, and that carries the spin locks its CPU holds ([acquire] of a held lock
    and [release] of a free one panic) and a trace of the events other parts see
    (wakeups, console output, disk writes).  A routine of a component runs on the
    state of the component above through [zoom].  What C leaves undefined (a null
    pointer, an index outside an array) stops the model like a panic.

    Programs that run in user mode are in the monad [U os A] of [Ulib]: over any
    operating system with the calls of the class [Posix] they return, exit, or reach
    what C leaves undefined.  What the calls promise is a class of its own ([WriteOk],
    [ReadOk] and so on), a hypothesis of the theorems with an instance that satisfies it;
    [System] is an instance made of the modelled kernel.  The processes that the shell
    makes are trees of system calls, run under a clock by any number of processes at a
    time ([ShellRun]).  [mkfs.c] is in a state monad over the image with [assert] as
    failure.  Devices are classes with the laws of their documentation: the disk
    controller ([Ide]), and the bus of registers and ports ([Apic]).

    A routine is one step from its start to the point where it sleeps or gives up the
    CPU.  Where the order of smaller steps matters, step relations interleave them: the
    instructions of [acquire] and [release] on several CPUs ([Spinlock]), processes on
    a sleep lock and the stores of the reentrant lock ([Locks]), the kernel's process
    operations with the scheduler on every CPU ([ProcInv]), readers, writers and
    closers of a pipe ([Pipe]), file system calls that share a log, and crashes at
    every disk write ([Log]), and disk requests with interrupts ([Ide]).

    Loops that are not structural take fuel and panic with "out of fuel" when it runs
    out; the total correctness theorems show that the fuel given is enough.  It is a
    bound the code has itself: the bytes or blocks left to copy, the pages of an
    address range, the entries of a table, the turns after which an index has left a
    buffer (130 for the console's 128 bytes), the bytes left of a line that is parsed
    ([parsecmd_total]), the sectors of a segment.  Loops that wait for the outside world
    ([cmostime], [wait_started], [init_loop]) take any fuel, and their theorems say how
    much is enough for what the outside does.

    ** The files

    - [Prelude]: integers, the thread monad and its program logics ([wp], the partial
      [wlp] and the total [totl]), tactics and hints.
    - [Mem], [Bytes], [Elf], [Str]: memory, integers in blocks, [elf.h], [string.c] and
      the string instructions of [x86.h].
    - [Spinlock], [Locks]: [spinlock.c], [sleeplock.c] and the reentrant lock.
    - [Kalloc]: [kalloc.c].  [Vm]: [vm.c]; [VmInv], [VmMap], [VmUser] and [VmOut] are
      its contracts on address spaces, [VmSpec] the theorems.
    - [Proc], [Sched]: [proc.c] over the interface [Lower] of the files below it;
      [ProcInv] the invariant of the process table, [ProcSpec] the theorems.
    - [Syscall]: [syscall.c] and [sysproc.c] over the interfaces [FileCalls] and
      [UserMem].  [Trap]: [trap.c].
    - [Pipe]: [pipe.c].
    - [Bio]: [bio.c] over [memide.c].  [Ide]: [ide.c] over a class of disk
      controllers.
    - [Log]: [log.c].  [Txn]: what a call sees of cache and log in a transaction.
    - [Fs]: [fs.c]; [FsBlocks], [FsInode], [FsFile] and [FsDir] are its contracts,
      [FsSample] a small disk, [FsSpec] the theorems.
    - [Console], [Kbd]: [console.c] and [kbd.c]; [ConsoleSpec] the theorems.
    - [File]: [file.c] and [pipealloc].  [Sysfile]: [sysfile.c].  [Exec]: [exec.c], and
      the instances of [Lower] and [FileCalls] that put the kernel together.
    - [FileRun]: a machine that runs system calls; [FileSpec] the theorems on files.
    - [Boot]: [bootmain.c].  [Mp]: [mp.c].  [Apic]: [lapic.c], [ioapic.c], [picirq.c] and
      [uart.c].  [Start]: [mycpu] and [startothers].  [Seg]: the descriptors of [mmu.h],
      [seginit] and [tvinit].
    - [Mkfs]: [mkfs.c]; [MkfsSpec] the theorems.
    - [Ulib]: [ulib.c] and [printf.c].  [Umalloc], [UmallocSpec]: [umalloc.c].  [Grep]:
      [grep.c].  [Uprogs]: [cat.c], [wc.c], [echo.c], [kill.c], [ln.c], [ls.c],
      [mkdir.c], [rm.c] and the labs' cipher programs.
    - [Shell], [ShellSpec], [ShellGrammar]: the parser of [sh.c]; [ShellRun] running its
      commands and the shell's loop; [Init]: [init.c].
    - [Usertests]: tests of [usertests.c]; [System]: the image, the kernel booted from it
      and the run of the tests.

    ** What the theorems show

    - Locks: on any number of CPUs at most one holds a spin lock ([mutual_exclusion]),
      and [acquire] and [release] of the thread monad are those of [spinlock.c]
      ([thread_lock_refines]); sleep locks and the reentrant lock exclude.
    - Memory: no page is lost, handed out twice or corrupted by its neighbours
      ([kalloc_conservation]); [copyuvm], [allocuvm], [freevm], [setupkvm] and
      [copyout] have their contracts on address spaces, on success and on failure.
    - Processes: every reachable process table is well formed
      ([process_table_invariant]); [fork], [exit], [wait] and aging do what they
      should; a scheduler pass runs a process if there is one to run
      ([scheduler_work_conserving], [scheduler_iter_spec]).
    - Calls and traps: a pointer argument lies inside the process
      ([argptr_in_bounds]); a killed process does not return to user mode.
    - Pipes: bytes come out once, in order ([pipe_fifo]), and no reader sleeps on
      available data ([pipe_no_lost_wakeup]).
    - Disk: the interrupt driver completes requests in order and refines the memory
      disk ([ide_refines_memide]).
    - Log: a crash at any disk write leaves a transaction whole or absent
      ([crash_atomic]), recovery can be interrupted and run again
      ([recovery_restartable]), and the space reserved is enough ([log_space]) for a
      log one block larger than the one [mkfs] makes ([log_space_one_short]).
    - Files: a write is read back ([file_write_read]), keeps the disk well formed
      ([writei_spec]) and survives a crash whole or not at all
      ([file_write_crash_safe]); a directory is a map from names to inodes
      ([dirlink_dirlookup]).
    - Open files: every count is the number of descriptors, across all calls on files,
      [fork] and [exit] ([file_refs_invariant], [fork_exit_refs]); calls run through
      the dispatcher give back what was written ([open_write_read_run]).
    - Console: the keyboard handler is a line editor with a cursor
      ([console_line_editor], [keyboard_line]), what is typed is read
      ([console_read]), and numbers print as they read ([printint_spec]).
    - Start-up: the boot loader puts every segment of the kernel where its header says
      ([bootmain_loads]); [mpinit] finds the processors of a well formed table
      ([mpinit_table]), and [startothers] starts each once with a stack of its own
      ([startothers_boots]); an interrupt enters the kernel at its vector and a process
      only by the system call's gate ([interrupt_entry]); the I/O APIC routes what was
      enabled ([ioapic_routes]) and the clock is read consistently
      ([cmostime_one_instant]).
    - The image: for any files that fit, [mkfs] gives a well formed file system that
      holds them ([mkfs_image]).
    - User programs: [malloc] hands out separate blocks and loses none
      ([umalloc_separates], [umalloc_conserves]); [printf] and [atoi] are inverse
      ([printf_atoi]); [grep]'s matcher decides its regular expressions
      ([re_match_spec]) and [grep] prints the lines that match ([grep_spec]); [wc] and
      [cat] count and copy ([wc_spec], [cat_spec]); decoding undoes encoding
      ([encode_decode]).
    - Shell: parsing ends for every line ([parsecmd_total]) and gives the tree of the
      grammar ([parsecmd_grammar]); a line runs its programs with their arguments,
      redirections and pipes, in order ([shell_runs_line]); a session runs its lines
      ([shell_session]); [init] starts one shell after the other ([init_serves]).
    - All together: on the image of [mkfs] and the kernel booted from it the tests of the
      file system pass ([usertests_pass]).
    - Defects of the code that the models show: [console_overflow],
      [calculator_keeps_sign], [move_file_leaks_reference],
      [move_file_same_directory_sleeps], [log_space_one_short], [copyout_unmapped],
      [round_robin_repicks], [quantum_ticks], [burst_call_strands_caller],
      [reentrant_release_race], [reentrantlock_test_runs_away],
      [pipe_killed_writer_loses_wakeup], [link_dot_sleeps], [malloc_wraps],
      [mkfs_root_hole], [mpinit_table] (an unknown entry makes [mpinit] spin) and
      [move_file_test_loses_block].

    ** Not modelled

    - Machine code: [bootasm.S], [entry.S], [entryother.S], [swtch.S], [trapasm.S],
      [vectors.pl], [usys.S] and [initcode.S].  [swtch] is the boundary between the steps
      of the scheduler and of a process, and a trap starts at [trap].
    - In the modelled files: the order of the initialisers in [main], names of locks
      ([initlock]), [procdump], the panic printer, and [kvmalloc] and [memcpy], which
      only call modelled functions.
    - The device switch is an argument of the file operations, so that they hold for
      any device; the console's own two operations are in [Console].
    - Code after a sleep inside a call of the file system: such a call is modelled up to
      the sleep, and the theorems on files are about calls that find the locks they
      need free, or (reference counts) also about the state in which they sleep.
    - The tests of [usertests.c] that fork, [stressfs.c], [forktest.c], [zombie.c] and the
      labs' own test programs: they are about processes at the same time, whose
      operations the step relations of [ProcInv], [Pipe] and [Log] interleave.  [System]
      runs one process; a [fork] there would build the 57344 entries of a kernel page
      table each time.
    - Scripts that build, print or debug the kernel. *)

From stdpp Require Export base numbers strings gmap list.
#[global] Open Scope Z_scope.

(** ** Machine integers

    C's [uint], [int], [ushort], [short], [uchar] as [Z] with the wrap-around
    of the i386 written out. *)

Definition u32 (z : Z) : Z := z mod 4294967296.
Definition i32 (z : Z) : Z := (z + 2147483648) mod 4294967296 - 2147483648.
Definition u16 (z : Z) : Z := z mod 65536.
Definition i16 (z : Z) : Z := (z + 32768) mod 65536 - 32768.
Definition u8 (z : Z) : Z := z mod 256.
Definition i8 (z : Z) : Z := (z + 128) mod 256 - 128.

Lemma u32_range z : 0 ≤ u32 z < 4294967296.
Proof. unfold u32. apply Z.mod_pos_bound. lia. Qed.

Lemma u32_small z : 0 ≤ z < 4294967296 → u32 z = z.
Proof. intros. unfold u32. by apply Z.mod_small. Qed.

Lemma u8_byte z : 0 ≤ z < 256 → u8 z = z.
Proof. intros. unfold u8. by apply Z.mod_small. Qed.

Lemma i32_small z : -2147483648 ≤ z < 2147483648 → i32 z = z.
Proof. intros. unfold i32. rewrite Z.mod_small; lia. Qed.

Lemma i32_range z : -2147483648 ≤ i32 z < 2147483648.
Proof. unfold i32. pose proof (Z.mod_pos_bound (z + 2147483648) 4294967296). lia. Qed.

(** Wrapping a summand changes nothing. *)
Lemma i32_i32_add a b : i32 (i32 a + b) = i32 (a + b).
Proof.
  unfold i32. f_equal.
  replace ((a + 2147483648) mod 4294967296 - 2147483648 + b + 2147483648)
    with ((a + 2147483648) mod 4294967296 + b) by lia.
  rewrite Zplus_mod_idemp_l. f_equal. lia.
Qed.
Lemma i32_add_i32 a b : i32 (a + i32 b) = i32 (a + b).
Proof. by rewrite Z.add_comm, i32_i32_add, Z.add_comm. Qed.
Lemma i32_u32 z : i32 (u32 z) = i32 z.
Proof. unfold i32, u32. f_equal. by rewrite Zplus_mod_idemp_l. Qed.
Lemma i32_i32 z : i32 (i32 z) = i32 z.
Proof. apply i32_small, i32_range. Qed.

Lemma u32_sub_self_add a b : u32 (u32 (a + b) - a) = u32 b.
Proof.
  unfold u32. rewrite Zminus_mod_idemp_l. f_equal. lia.
Qed.

(** ** Kernel threads

    [lock] names the spin locks, [chan] the sleep channels (in C both are
    addresses), [event] what a kernel thread does that other parts of the
    system observe. *)

Inductive sleepid :=
  | SLbuf (i : nat)      (* bcache.buf[i].lock *)
  | SLinode (i : nat).   (* icache.inode[i].lock *)

Inductive lock :=
  | Lptable | Ltickslock | Lsyscallslock | Lcons | Lkmem | Lbcache | Llog
  | Licache | Lftable | Lidelock | Lrlock
  | Lpipe (p : Z)
  | Lsleep (l : sleepid).

Inductive chan :=
  | ChProc (i : nat)     (* &ptable.proc[i] *)
  | ChTicks              (* &ticks *)
  | ChInput              (* &input.r *)
  | ChNread (p : Z)      (* &p->nread *)
  | ChNwrite (p : Z)     (* &p->nwrite *)
  | ChLog                (* &log *)
  | ChSleeplock (l : sleepid)
  | ChBuf (i : nat).     (* a struct buf waiting for the disk *)

#[global] Instance sleepid_eq_dec : EqDecision sleepid.
Proof. solve_decision. Defined.
#[global] Instance lock_eq_dec : EqDecision lock.
Proof. solve_decision. Defined.
#[global] Instance chan_eq_dec : EqDecision chan.
Proof. solve_decision. Defined.

(** A value printed by [cprintf]: [%d]/[%x]/[%p] arguments and [%s] strings. *)
Inductive parg := PInt (z : Z) | PStr (s : string).

Inductive event :=
  | EWakeup (c : chan)                       (* wakeup(c) *)
  | EPrint (fmt : string) (args : list parg) (* cprintf(fmt, args) *)
  | EDiskWrite (dev blockno : Z) (data : list Z). (* iderw of a dirty buffer *)

#[global] Instance parg_eq_dec : EqDecision parg.
Proof. solve_decision. Defined.
#[global] Instance event_eq_dec : EqDecision event.
Proof. solve_decision. Defined.

(** What a kernel thread carries besides the component's state: the spin locks
    this CPU holds, and the trace of its events, latest last. *)
Record ctx := Ctx { held : list lock; trace : list event }.

(** A kernel routine returns, goes to sleep on a channel (it is resumed by
    running its wait loop again), or panics. *)
Inductive outcome (S A : Type) :=
  | Ret (a : A) (c : ctx) (s : S)
  | Sleep (ch : chan) (c : ctx) (s : S)
  | Panic (msg : string).
Arguments Ret {S A} _ _ _.
Arguments Sleep {S A} _ _ _.
Arguments Panic {S A} _.

Definition M (S A : Type) : Type := ctx → S → outcome S A.

#[global] Instance M_ret S : MRet (M S) := λ A a c s, Ret a c s.
#[global] Instance M_bind S : MBind (M S) := λ A B f m c s,
  match m c s with
  | Ret a c' s' => f a c' s'
  | Sleep ch c' s' => Sleep ch c' s'
  | Panic msg => Panic msg
  end.

Definition get {S} : M S S := λ c s, Ret s c s.
Definition put {S} (s' : S) : M S unit := λ c _, Ret tt c s'.
Definition gets {S A} (f : S → A) : M S A := λ c s, Ret (f s) c s.
Definition modify {S} (f : S → S) : M S unit := λ c s, Ret tt c (f s).
Definition panic {S A} (msg : string) : M S A := λ _ _, Panic msg.
(** A store through a null pointer is undefined in C; the model stops there. *)
Definition null_dereference {S A} : M S A := panic "null dereference".
Definition emit {S} (e : event) : M S unit :=
  λ c s, Ret tt (Ctx (held c) (trace c ++ [e])) s.
Definition when {S} (b : bool) (m : M S unit) : M S unit :=
  if b then m else mret tt.

Definition holding (l : lock) (c : ctx) : bool := bool_decide (l ∈ held c).

(** [acquire] and [release] as this CPU sees them: acquiring a lock it already
    holds and releasing one it does not are panics. *)
Definition acquire {S} (l : lock) : M S unit := λ c s,
  if holding l c then Panic "acquire" else Ret tt (Ctx (l :: held c) (trace c)) s.
Definition release {S} (l : lock) : M S unit := λ c s,
  if holding l c
  then Ret tt (Ctx (filter (.≠ l) (held c)) (trace c)) s
  else Panic "release".

(** [sleep(ch, l)] gives up [l] and the CPU; the caller's loop runs again when
    the process is woken. *)
Definition sleep_on {S A} (ch : chan) (l : lock) : M S A := λ c s,
  if holding l c
  then Sleep ch (Ctx (filter (.≠ l) (held c)) (trace c)) s
  else Panic "release".

(** Stay suspended on [ch] after giving up the CPU. *)
Definition asleep {S A} (ch : chan) : M S A := λ c s, Sleep ch c s.

Arguments acquire : simpl never.
Arguments release : simpl never.
Arguments sleep_on : simpl never.

(** Run a routine of a smaller component on the part of the state it owns. *)
Definition zoom {S T A} (view : S → T) (upd : T → S → S) (m : M T A) : M S A :=
  λ c s, match m c (view s) with
         | Ret a c' t => Ret a c' (upd t s)
         | Sleep ch c' t => Sleep ch c' (upd t s)
         | Panic msg => Panic msg
         end.

(** ** Laws of the thread monad *)

Lemma bind_ret {S A B} (a : A) (f : A → M S B) c s : (mret a ≫= f) c s = f a c s.
Proof. done. Qed.

Lemma bind_assoc {S A B C} (m : M S A) (f : A → M S B) (g : B → M S C) c s :
  ((m ≫= f) ≫= g) c s = (m ≫= λ a, f a ≫= g) c s.
Proof. unfold mbind, M_bind. by destruct (m c s). Qed.

Lemma bind_Ret {S A B} (m : M S A) (f : A → M S B) c s a c' s' :
  m c s = Ret a c' s' → (m ≫= f) c s = f a c' s'.
Proof. intros H. unfold mbind, M_bind. by rewrite H. Qed.

Lemma bind_Panic {S A B} (m : M S A) (f : A → M S B) c s msg :
  m c s = Panic msg → (m ≫= f) c s = Panic msg.
Proof. intros H. unfold mbind, M_bind. by rewrite H. Qed.

Lemma holding_false l c : l ∉ held c → holding l c = false.
Proof. intros. unfold holding. by apply bool_decide_eq_false. Qed.

Lemma filter_ne_fresh (l : lock) (L : list lock) : l ∉ L → filter (.≠ l) L = L.
Proof.
  induction L as [|x L IH]; [done|]. intros H. rewrite filter_cons_True; [|set_solver].
  f_equal. apply IH. set_solver.
Qed.

Lemma filter_ne_head (l : lock) (L : list lock) : l ∉ L → filter (.≠ l) (l :: L) = L.
Proof.
  intros H. rewrite filter_cons_False; [by apply filter_ne_fresh | naive_solver].
Qed.

Lemma bind_acquire {S B} l (k : unit → M S B) c s :
  l ∉ held c → (acquire l ≫= k) c s = k tt (Ctx (l :: held c) (trace c)) s.
Proof. intros. apply bind_Ret. unfold acquire. by rewrite holding_false. Qed.

Lemma acquire_fresh {S} l c (s : S) :
  l ∉ held c → acquire l c s = Ret tt (Ctx (l :: held c) (trace c)) s.
Proof. intros. unfold acquire. by rewrite holding_false. Qed.

Lemma holding_head l (L : list lock) t : holding l (Ctx (l :: L) t) = true.
Proof. apply bool_decide_eq_true. simpl. set_solver. Qed.

Lemma release_head {S} l (L : list lock) t (s : S) :
  l ∉ L → release l (Ctx (l :: L) t) s = Ret tt (Ctx L t) s.
Proof.
  intros H. unfold release. rewrite holding_head. simpl held. by rewrite filter_ne_head.
Qed.

Lemma bind_release {S B} l (L : list lock) t (k : unit → M S B) s :
  l ∉ L → (release l ≫= k) (Ctx (l :: L) t) s = k tt (Ctx L t) s.
Proof. intros. apply bind_Ret. by apply release_head. Qed.

Lemma sleep_on_head {S A} ch l (L : list lock) t (s : S) :
  l ∉ L → @sleep_on S A ch l (Ctx (l :: L) t) s = Sleep ch (Ctx L t) s.
Proof.
  intros H. unfold sleep_on. rewrite holding_head. simpl held. by rewrite filter_ne_head.
Qed.

(** ** Weakest preconditions

    [wp m Q R c s]: run from [c] and [s], [m] does not panic; if it returns,
    [Q] holds of the result, and if it goes to sleep, [R] holds of the channel
    and the state it sleeps in.  [R := never] says that it does not sleep. *)
Definition never {S : Type} : chan → ctx → S → Prop := λ _ _ _, False.

Definition wp {S A} (m : M S A) (Q : A → ctx → S → Prop)
    (R : chan → ctx → S → Prop) (c : ctx) (s : S) : Prop :=
  match m c s with
  | Ret a c' s' => Q a c' s'
  | Sleep ch c' s' => R ch c' s'
  | Panic _ => False
  end.

Lemma wp_ret {S A} (a : A) (Q : A → ctx → S → Prop) R c s : Q a c s → wp (mret a) Q R c s.
Proof. done. Qed.

Lemma wp_bind {S A B} (m : M S A) (f : A → M S B) Q R c s :
  wp m (λ a, wp (f a) Q R) R c s → wp (m ≫= f) Q R c s.
Proof. unfold wp, mbind, M_bind. by destruct (m c s). Qed.

Lemma wp_mono {S A} (m : M S A) (Q Q' : A → ctx → S → Prop) (R R' : chan → ctx → S → Prop) c s :
  wp m Q R c s → (∀ a c' s', Q a c' s' → Q' a c' s') →
  (∀ ch c' s', R ch c' s' → R' ch c' s') → wp m Q' R' c s.
Proof. unfold wp. destruct (m c s); naive_solver. Qed.

Lemma wp_acquire {S} l (Q : unit → ctx → S → Prop) R c s :
  l ∉ held c → Q tt (Ctx (l :: held c) (trace c)) s → wp (acquire l) Q R c s.
Proof. intros. unfold wp. by rewrite acquire_fresh. Qed.

Lemma wp_release {S} l (Q : unit → ctx → S → Prop) R (L : list lock) t s :
  l ∉ L → Q tt (Ctx L t) s → wp (release l) Q R (Ctx (l :: L) t) s.
Proof. intros. unfold wp. by rewrite release_head. Qed.

Lemma wp_get {S} (Q : S → ctx → S → Prop) R c s : Q s c s → wp get Q R c s.
Proof. done. Qed.
Lemma wp_gets {S A} (f : S → A) (Q : A → ctx → S → Prop) R c s : Q (f s) c s → wp (gets f) Q R c s.
Proof. done. Qed.
Lemma wp_modify {S} f (Q : unit → ctx → S → Prop) R c s : Q tt c (f s) → wp (modify f) Q R c s.
Proof. done. Qed.

Lemma wp_Ret {S A} (m : M S A) Q c s :
  wp m Q never c s → ∃ a c' s', m c s = Ret a c' s' ∧ Q a c' s'.
Proof. unfold wp, never. destruct (m c s); naive_solver. Qed.

(** Partial correctness: as [wp], but a panic is allowed (the machine has
    stopped, and no state follows). *)
Definition wlp {S A} (m : M S A) (Q : A → ctx → S → Prop)
    (R : chan → ctx → S → Prop) (c : ctx) (s : S) : Prop :=
  match m c s with
  | Ret a c' s' => Q a c' s'
  | Sleep ch c' s' => R ch c' s'
  | Panic _ => True
  end.

Lemma wlp_ret {S A} (a : A) (Q : A → ctx → S → Prop) R c s : Q a c s → wlp (mret a) Q R c s.
Proof. done. Qed.

Lemma wlp_bind {S A B} (m : M S A) (f : A → M S B) Q R c s :
  wlp m (λ a, wlp (f a) Q R) R c s → wlp (m ≫= f) Q R c s.
Proof. unfold wlp, mbind, M_bind. by destruct (m c s). Qed.

Lemma wlp_mono {S A} (m : M S A) (Q Q' : A → ctx → S → Prop) (R R' : chan → ctx → S → Prop) c s :
  wlp m Q R c s → (∀ a c' s', Q a c' s' → Q' a c' s') →
  (∀ ch c' s', R ch c' s' → R' ch c' s') → wlp m Q' R' c s.
Proof. unfold wlp. destruct (m c s); naive_solver. Qed.

Lemma wlp_acquire {S} l (Q : unit → ctx → S → Prop) R c s :
  Q tt (Ctx (l :: held c) (trace c)) s → wlp (acquire l) Q R c s.
Proof. intros. unfold wlp, acquire. by destruct (holding l c). Qed.

Lemma wlp_release {S} l (Q : unit → ctx → S → Prop) R c s :
  (∀ c', Q tt c' s) → wlp (release l) Q R c s.
Proof. intros. unfold wlp, release. by destruct (holding l c). Qed.

Lemma wlp_get {S} (Q : S → ctx → S → Prop) R c s : Q s c s → wlp get Q R c s.
Proof. done. Qed.
Lemma wlp_gets {S A} (f : S → A) (Q : A → ctx → S → Prop) R c s : Q (f s) c s → wlp (gets f) Q R c s.
Proof. done. Qed.
Lemma wlp_modify {S} f (Q : unit → ctx → S → Prop) R c s : Q tt c (f s) → wlp (modify f) Q R c s.
Proof. done. Qed.
Lemma wlp_emit {S} e (Q : unit → ctx → S → Prop) R c s :
  (∀ c', Q tt c' s) → wlp (emit e) Q R c s.
Proof. intros HQ. apply HQ. Qed.
Lemma wlp_panic {S A} msg (Q : A → ctx → S → Prop) R c s : wlp (panic msg) Q R c s.
Proof. done. Qed.
Lemma wlp_asleep {S A} ch (Q : A → ctx → S → Prop) R c s : R ch c s → wlp (asleep ch) Q R c s.
Proof. done. Qed.

Lemma wlp_any {S A} (m : M S A) (Q : A → ctx → S → Prop) R c s :
  (∀ a c' s', Q a c' s') → (∀ ch c' s', R ch c' s') → wlp m Q R c s.
Proof. intros. unfold wlp. by destruct (m c s). Qed.

Lemma wlp_Ret {S A} (m : M S A) Q R c s a c' s' :
  wlp m Q R c s → m c s = Ret a c' s' → Q a c' s'.
Proof. unfold wlp. intros Hw Hm. by rewrite Hm in Hw. Qed.

Lemma wlp_Sleep {S A} (m : M S A) Q R c s ch c' s' :
  wlp m Q R c s → m c s = Sleep ch c' s' → R ch c' s'.
Proof. unfold wlp. intros Hw Hm. by rewrite Hm in Hw. Qed.

(** ** Total correctness

    [totl L m Q s]: from [s], with the spin locks [L] held, [m] returns, holds
    the same locks again, and [Q] holds of its result; [tot] is the case of no
    lock. *)
Definition totl {S A} (L : list lock) (m : M S A) (Q : A → S → Prop) (s : S) : Prop :=
  ∀ tr, ∃ a tr' s', m (Ctx L tr) s = Ret a (Ctx L tr') s' ∧ Q a s'.
Abbreviation tot := (totl []).

Lemma tot_ret {S A} L (a : A) (Q : A → S → Prop) s : Q a s → totl L (mret a) Q s.
Proof. intros H tr. by exists a, tr, s. Qed.
Lemma tot_bind {S A B} L (m : M S A) (f : A → M S B) Q s :
  totl L m (λ a, totl L (f a) Q) s → totl L (m ≫= f) Q s.
Proof.
  intros H tr. destruct (H tr) as (a & t1 & s1 & E1 & H1). destruct (H1 t1) as (b & t2 & s2 & E2 & H2).
  exists b, t2, s2. split; [|done]. by rewrite (bind_Ret _ _ _ _ _ _ _ E1).
Qed.
Lemma tot_mono {S A} L (m : M S A) (Q Q' : A → S → Prop) s :
  totl L m Q s → (∀ a s', Q a s' → Q' a s') → totl L m Q' s.
Proof. intros H HQ tr. destruct (H tr) as (a & t & s' & E & Ha). exists a, t, s'. split; [done|by apply HQ]. Qed.
Lemma tot_get {S} L (Q : S → S → Prop) s : Q s s → totl L get Q s.
Proof. intros H tr. by exists s, tr, s. Qed.
Lemma tot_gets {S A} L (f : S → A) (Q : A → S → Prop) s : Q (f s) s → totl L (gets f) Q s.
Proof. intros H tr. by exists (f s), tr, s. Qed.
Lemma tot_modify {S} L f (Q : unit → S → Prop) s : Q tt (f s) → totl L (modify f) Q s.
Proof. intros H tr. by exists tt, tr, (f s). Qed.
Lemma tot_emit {S} L e (Q : unit → S → Prop) s : Q tt s → totl L (emit e) Q s.
Proof. intros H tr. by exists tt, (tr ++ [e]), s. Qed.
Lemma tot_zoom {S T A} L (view : S → T) (upd : T → S → S) (m : M T A) Q s :
  totl L m (λ a t, Q a (upd t s)) (view s) → totl L (zoom view upd m) Q s.
Proof.
  intros H tr. destruct (H tr) as (a & t & s' & E & Ha). exists a, t, (upd s' s). split; [|done].
  unfold zoom. by rewrite E.
Qed.
(** The first steps of a sequence that only read or write the state. *)
Ltac tot_step :=
  lazymatch goal with
  | |- totl _ (get ≫= _) _ _ => apply tot_bind, tot_get
  | |- totl _ (gets _ ≫= _) _ _ => apply tot_bind, tot_gets
  | |- totl _ (modify _ ≫= _) _ _ => apply tot_bind, tot_modify
  | |- totl _ (emit _ ≫= _) _ _ => apply tot_bind, tot_emit
  | |- totl _ (mret _ ≫= _) _ _ => apply tot_bind, tot_ret
  | |- totl _ (mret _) _ _ => apply tot_ret
  end; cbv beta zeta.

Create HintDb kern.
Create Rewrite HintDb kern.
#[export] Hint Rewrite @bind_ret @bind_assoc : kern.
#[export] Hint Rewrite @bind_acquire @bind_release @acquire_fresh @release_head
  @sleep_on_head using (simpl; solve [auto | set_solver]) : kern.

(** Execute the first command of a sequence, whose result [tac] proves. *)
Tactic Notation "run" tactic3(tac) := erewrite bind_Ret by tac; cbv beta iota zeta.

(** Lock steps of a thread that does not hold the lock on entry. *)
Ltac locks :=
  repeat (first [ rewrite acquire_fresh by (simpl; auto)
                | rewrite release_head by (simpl; auto)
                | rewrite sleep_on_head by (simpl; auto)
                | rewrite filter_ne_head by (simpl; auto) ]; simpl).

(** Split the first [if], [match] or [decide] of the goal. *)
Ltac split_match :=
  match goal with
  | |- context [ match ?x with _ => _ end ] => destruct x eqn:?
  end.

(** Turn the boolean comparisons in the context into propositions. *)
Ltac bool_props :=
  repeat match goal with
  | H : (_ =? _) = true |- _ => apply Z.eqb_eq in H
  | H : (_ =? _) = false |- _ => apply Z.eqb_neq in H
  | H : (_ <? _) = true |- _ => apply Z.ltb_lt in H
  | H : (_ <? _) = false |- _ => apply Z.ltb_ge in H
  | H : (_ <=? _) = true |- _ => apply Z.leb_le in H
  | H : (_ <=? _) = false |- _ => apply Z.leb_gt in H
  | H : (_ && _)%bool = true |- _ => apply andb_prop in H as [??]
  | H : (_ || _)%bool = false |- _ => apply orb_false_elim in H as [??]
  | H : bool_decide _ = true |- _ => apply bool_decide_eq_true in H
  | H : bool_decide _ = false |- _ => apply bool_decide_eq_false in H
  end.
