(* ===== verification/Mem.v ===== *)
(** * Physical memory

    Memory as the kernel sees it through its direct map: pages of 1024 words,
    read and written a word or a byte at a time, filled with [memset] and copied
    a page at a time; and the constants of [memlayout.h] and [mmu.h]. *)

From S2P Require Import Prelude.

Definition PGSIZE : Z := 4096.
Definition EXTMEM : Z := 0x100000.
Definition PHYSTOP : Z := 0xE000000.
Definition DEVSPACE : Z := 0xFE000000.
Definition KERNBASE : Z := 0x80000000.
Definition KERNLINK : Z := KERNBASE + EXTMEM.
Definition V2P (a : Z) : Z := u32 (a - KERNBASE).
Definition P2V (a : Z) : Z := u32 (a + KERNBASE).

Definition PGROUNDUP (sz : Z) : Z := Z.land (u32 (sz + PGSIZE - 1)) (u32 (Z.lnot (PGSIZE - 1))).
Definition PGROUNDDOWN (a : Z) : Z := Z.land a (u32 (Z.lnot (PGSIZE - 1))).

Lemma land_page_mask a : 0 ≤ a < 4294967296 → Z.land a (u32 (Z.lnot (PGSIZE - 1))) = a - a mod 4096.
Proof.
  intros Ha. change (u32 (Z.lnot (PGSIZE - 1))) with (Z.shiftl (Z.ones 20) 12).
  transitivity (Z.shiftl (Z.shiftr a 12) 12).
  - apply Z.bits_inj'. intros n Hn. rewrite Z.land_spec.
    destruct (decide (n < 12)).
    + rewrite !Z.shiftl_spec_low by lia. apply andb_false_r.
    + rewrite !Z.shiftl_spec_high, Z.shiftr_spec by lia. replace (n - 12 + 12) with n by lia.
      destruct (decide (n < 32)).
      * rewrite Z.ones_spec_low by lia. apply andb_true_r.
      * rewrite Z.ones_spec_high by lia. rewrite andb_false_r. symmetry.
        rewrite <- (Z.mod_small a (2 ^ 32)) by (simpl; lia). apply Z.mod_pow2_bits_high. lia.
  - rewrite Z.shiftl_mul_pow2, Z.shiftr_div_pow2 by lia. change (2 ^ 12) with 4096.
    pose proof (Z.div_mod a 4096 ltac:(lia)). lia.
Qed.

(** Rounding up is exact division while the sum does not wrap. *)
Lemma PGROUNDUP_eq sz :
  0 ≤ sz ≤ 4294963200 → PGROUNDUP sz = ((sz + 4095) / 4096) * 4096.
Proof.
  intros. unfold PGROUNDUP. unfold PGSIZE at 1. rewrite u32_small by lia.
  rewrite land_page_mask by lia. replace (sz + 4096 - 1) with (sz + 4095) by lia.
  pose proof (Z.div_mod (sz + 4095) 4096 ltac:(lia)). lia.
Qed.

Lemma PGROUNDDOWN_eq a : 0 ≤ a < 4294967296 → PGROUNDDOWN a = (a / 4096) * 4096.
Proof.
  intros. unfold PGROUNDDOWN. rewrite land_page_mask by lia.
  pose proof (Z.div_mod a 4096 ltac:(lia)). lia.
Qed.

(** A page: the byte it was last filled with, and the words stored since. *)
Record page := Page { fill : Z; over : gmap Z Z }.
Definition mem := gmap Z page.

Definition fill_word (b : Z) : Z := b * 0x01010101.

Definition page_of (m : gmap Z page) (n : Z) : page := default (Page 0 ∅) (m !! n).

(** Word and byte accesses at a physical address (word accesses are 4-aligned). *)
Definition rd_word (m : gmap Z page) (pa : Z) : Z :=
  let p := page_of m (pa / 4096) in
  default (fill_word (fill p)) (over p !! (pa mod 4096 / 4)).

Definition wr_word (pa w : Z) (m : gmap Z page) : gmap Z page :=
  let p := page_of m (pa / 4096) in
  <[pa / 4096 := Page (fill p) (<[pa mod 4096 / 4 := u32 w]> (over p))]> m.

Definition rd_byte (m : gmap Z page) (pa : Z) : Z :=
  u8 (Z.shiftr (rd_word m (pa - pa mod 4)) (8 * (pa mod 4))).

Definition wr_byte (pa b : Z) (m : gmap Z page) : gmap Z page :=
  let w := rd_word m (pa - pa mod 4) in
  let s := 8 * (pa mod 4) in
  wr_word (pa - pa mod 4)
    (Z.lor (Z.land w (Z.lnot (Z.shiftl 255 s))) (Z.shiftl (u8 b) s)) m.

(** [memset(P2V(pa), c, PGSIZE)] and [memmove(P2V(dst), P2V(src), PGSIZE)] on
    whole pages. *)
Definition memset_page (pa c : Z) (m : gmap Z page) : gmap Z page :=
  <[pa / 4096 := Page (u8 c) ∅]> m.
Definition copy_page (dst src : Z) (m : gmap Z page) : gmap Z page :=
  <[dst / 4096 := page_of m (src / 4096)]> m.

Lemma word_index a b :
  a mod 4 = 0 → b mod 4 = 0 → a / 4096 = b / 4096 → a mod 4096 / 4 = b mod 4096 / 4 → a = b.
Proof. intros. Z.to_euclidean_division_equations. lia. Qed.

Lemma page_of_insert_eq m n p : page_of (<[n := p]> m) n = p.
Proof. unfold page_of. by rewrite lookup_insert_eq. Qed.

Lemma page_of_insert_ne m n k p : n ≠ k → page_of (<[n := p]> m) k = page_of m k.
Proof. intros. unfold page_of. by rewrite lookup_insert_ne. Qed.

Lemma rd_wr_word_eq m pa w : rd_word (wr_word pa w m) pa = u32 w.
Proof. unfold rd_word, wr_word. rewrite page_of_insert_eq. simpl. by rewrite lookup_insert_eq. Qed.

Lemma rd_wr_word_page m a b w : a / 4096 ≠ b / 4096 → rd_word (wr_word a w m) b = rd_word m b.
Proof. intros. unfold rd_word, wr_word. by rewrite page_of_insert_ne. Qed.

Lemma rd_wr_word_ne m a b w :
  a mod 4 = 0 → b mod 4 = 0 → a ≠ b → rd_word (wr_word a w m) b = rd_word m b.
Proof.
  intros. destruct (decide (a / 4096 = b / 4096)) as [He|He]; [|by apply rd_wr_word_page].
  unfold rd_word, wr_word. rewrite He, page_of_insert_eq. simpl.
  rewrite lookup_insert_ne; [done|]. intros ?. assert (a = b) by (by apply word_index). done.
Qed.

Lemma rd_memset_eq m pa c b : pa / 4096 = b / 4096 → rd_word (memset_page pa c m) b = fill_word (u8 c).
Proof. intros He. unfold rd_word, memset_page. by rewrite He, page_of_insert_eq. Qed.

Lemma rd_memset_ne m pa c b : pa / 4096 ≠ b / 4096 → rd_word (memset_page pa c m) b = rd_word m b.
Proof. intros He. unfold rd_word, memset_page. by rewrite page_of_insert_ne. Qed.

Lemma rd_copy_eq m dst src a b :
  dst / 4096 = a / 4096 → src / 4096 = b / 4096 → a mod 4096 = b mod 4096 →
  rd_word (copy_page dst src m) a = rd_word m b.
Proof.
  intros Ha Hb Hm. unfold rd_word, copy_page. by rewrite Ha, page_of_insert_eq, Hb, Hm.
Qed.

Lemma rd_copy_ne m dst src b : dst / 4096 ≠ b / 4096 → rd_word (copy_page dst src m) b = rd_word m b.
Proof. intros He. unfold rd_word, copy_page. by rewrite page_of_insert_ne. Qed.

(** ** Bytes *)

Lemma u8_bits z n : 0 ≤ n → Z.testbit (u8 z) n = (bool_decide (n < 8) && Z.testbit z n)%bool.
Proof.
  intros Hn. unfold u8. change 256 with (2 ^ 8). case_bool_decide.
  - by rewrite Z.mod_pow2_bits_low by lia.
  - by rewrite Z.mod_pow2_bits_high by lia.
Qed.
Lemma u32_bits z n : 0 ≤ n → Z.testbit (u32 z) n = (bool_decide (n < 32) && Z.testbit z n)%bool.
Proof.
  intros Hn. unfold u32. change 4294967296 with (2 ^ 32). case_bool_decide.
  - by rewrite Z.mod_pow2_bits_low by lia.
  - by rewrite Z.mod_pow2_bits_high by lia.
Qed.

(** Byte [j] of a word in which byte [i] has been replaced. *)
Lemma byte_of_word w b i j : 0 ≤ i < 4 → 0 ≤ j < 4 →
  u8 (Z.shiftr (u32 (Z.lor (Z.land w (Z.lnot (Z.shiftl 255 (8 * i)))) (Z.shiftl (u8 b) (8 * i)))) (8 * j)) =
  if decide (i = j) then u8 b else u8 (Z.shiftr w (8 * j)).
Proof.
  intros Hi Hj. apply Z.bits_inj'. intros n Hn. rewrite u8_bits by done.
  assert (Z.testbit (if decide (i = j) then u8 b else u8 (Z.shiftr w (8 * j))) n =
    (bool_decide (n < 8) && if decide (i = j) then Z.testbit b n else Z.testbit w (n + 8 * j))%bool) as ->.
  { case_decide; rewrite u8_bits by done; [done|]. by rewrite Z.shiftr_spec. }
  case_bool_decide; [|done]. cbn [andb].
  rewrite Z.shiftr_spec, u32_bits by lia. rewrite bool_decide_eq_true_2 by lia. cbn [andb].
  rewrite Z.lor_spec, Z.land_spec, Z.lnot_spec, !Z.shiftl_spec by lia.
  change 255 with (Z.ones 8). case_decide as E.
  - subst j. replace (n + 8 * i - 8 * i) with n by lia. rewrite Z.ones_spec_low by lia. rewrite u8_bits by done.
    rewrite bool_decide_eq_true_2 by lia. cbn [negb andb]. by rewrite andb_false_r.
  - destruct (decide (n + 8 * j - 8 * i < 0)) as [Hlt|Hge].
    + rewrite (Z.testbit_neg_r (Z.ones 8)), (Z.testbit_neg_r (u8 b)) by lia. cbn [negb]. by rewrite andb_true_r, orb_false_r.
    + rewrite Z.ones_spec_high by lia. rewrite u8_bits by lia. rewrite bool_decide_eq_false_2 by lia.
      cbn [negb andb]. by rewrite andb_true_r, orb_false_r.
Qed.

Lemma rd_wr_byte m a b x : rd_byte (wr_byte a x m) b = if decide (a = b) then u8 x else rd_byte m b.
Proof.
  unfold rd_byte, wr_byte. pose proof (Z.mod_pos_bound a 4). pose proof (Z.mod_pos_bound b 4).
  destruct (decide (a - a mod 4 = b - b mod 4)) as [E|E].
  - rewrite <- E, rd_wr_word_eq. rewrite byte_of_word by lia. repeat case_decide; try done; try lia.
  - rewrite rd_wr_word_ne; [|Z.to_euclidean_division_equations; lia|Z.to_euclidean_division_equations; lia|done].
    rewrite decide_False; [done|]. by intros ->.
Qed.
