(* ===== verification/Bytes.v ===== *)
(** * Integers in blocks

    The i386 keeps integers in memory with the low byte first.  Blocks of the
    disk hold the log header, inodes, directory entries and bitmaps this way. *)

From S2P Require Import Prelude.

(** The byte at offset [k]. *)
Definition get8 (l : list Z) (k : nat) : Z := nth k l 0.
Definition put8 (k : nat) (v : Z) (l : list Z) : list Z := <[k := v mod 256]> l.

Definition get16 (l : list Z) (k : nat) : Z := get8 l k + 256 * get8 l (k + 1).
Definition put16 (k : nat) (v : Z) (l : list Z) : list Z := put8 (k + 1) (v / 256) (put8 k v l).

Definition get32 (l : list Z) (k : nat) : Z := get16 l k + 65536 * get16 l (k + 2).
Definition put32 (k : nat) (v : Z) (l : list Z) : list Z := put16 (k + 2) (v / 65536) (put16 k v l).

(** A list of bytes. *)
Definition bytes (l : list Z) : Prop := Forall (λ b, 0 ≤ b < 256) l.

Lemma length_put8 k v l : length (put8 k v l) = length l.
Proof. apply length_insert. Qed.
Lemma length_put16 k v l : length (put16 k v l) = length l.
Proof. unfold put16. by rewrite !length_put8. Qed.
Lemma length_put32 k v l : length (put32 k v l) = length l.
Proof. unfold put32. by rewrite !length_put16. Qed.

Lemma get8_put8 k v l : (k < length l)%nat → get8 (put8 k v l) k = v mod 256.
Proof. intros Hk. unfold get8, put8. by rewrite nth_lookup, list_lookup_insert_eq. Qed.
Lemma get8_put8_ne j k v l : j ≠ k → get8 (put8 k v l) j = get8 l j.
Proof. intros Hj. unfold get8, put8. by rewrite !nth_lookup, list_lookup_insert_ne. Qed.

Lemma get8_put16_ne j k v l : j ≠ k → j ≠ (k + 1)%nat → get8 (put16 k v l) j = get8 l j.
Proof. intros. unfold put16. by rewrite !get8_put8_ne. Qed.
Lemma get16_put16 k v l : (k + 1 < length l)%nat → get16 (put16 k v l) k = v mod 65536.
Proof.
  intros Hk. unfold get16, put16.
  rewrite get8_put8_ne, get8_put8, get8_put8 by (rewrite ?length_put8; lia).
  change 65536 with (256 * 256). rewrite Z.rem_mul_r by lia. lia.
Qed.
Lemma get16_put16_ne j k v l :
  (j + 1 < k ∨ k + 1 < j)%nat → get16 (put16 k v l) j = get16 l j.
Proof. intros. unfold get16. by rewrite !get8_put16_ne by lia. Qed.

Lemma get32_put32 k v l : (k + 3 < length l)%nat → get32 (put32 k v l) k = u32 v.
Proof.
  intros Hk. unfold get32, put32, u32.
  rewrite get16_put16_ne, get16_put16, get16_put16 by (rewrite ?length_put16; lia).
  change 4294967296 with (65536 * 65536). rewrite Z.rem_mul_r by lia. lia.
Qed.
Lemma get32_put32_ne j k v l :
  (j + 3 < k ∨ k + 3 < j)%nat → get32 (put32 k v l) j = get32 l j.
Proof. intros. unfold get32, put32. by rewrite !get16_put16_ne by lia. Qed.

Lemma get8_range l k : bytes l → 0 ≤ get8 l k < 256.
Proof.
  intros Hl. unfold get8. rewrite nth_lookup. destruct (l !! k) as [b|] eqn:E; simpl; [|lia].
  unfold bytes in Hl. rewrite Forall_lookup in Hl. by apply (Hl k).
Qed.
Lemma get32_range l k : bytes l → 0 ≤ get32 l k < 4294967296.
Proof.
  intros Hl. unfold get32, get16. pose proof (get8_range l k Hl).
  pose proof (get8_range l (k + 1) Hl). pose proof (get8_range l (k + 2) Hl).
  pose proof (get8_range l (k + 2 + 1) Hl). lia.
Qed.

Lemma bytes_put8 k v l : bytes l → bytes (put8 k v l).
Proof. intros. apply Forall_insert; [done|]. apply Z.mod_pos_bound. lia. Qed.
Lemma bytes_put16 k v l : bytes l → bytes (put16 k v l).
Proof. intros. by apply bytes_put8, bytes_put8. Qed.
Lemma bytes_put32 k v l : bytes l → bytes (put32 k v l).
Proof. intros. by apply bytes_put16, bytes_put16. Qed.

(** Bytes of a memory that gives the byte at each address. *)
Definition pmem : Type := Z → Z.
Definition read_bytes (a : Z) (n : nat) (m : pmem) : list Z := map (λ j, m (a + Z.of_nat j)) (seq 0 n).

Lemma read_bytes_ext a b n m m' : (∀ j, 0 ≤ j < Z.of_nat n → m (a + j) = m' (b + j)) → read_bytes a n m = read_bytes b n m'.
Proof. intros E. apply map_ext_in. intros j Hj%in_seq. apply E. lia. Qed.

(** A number in the bits above [k]. *)
Lemma lor_shift a b k : 0 ≤ k → 0 ≤ a < 2 ^ k → Z.lor a (Z.shiftl b k) = a + b * 2 ^ k.
Proof.
  intros Hk Ha. rewrite <- Z.shiftl_mul_pow2 by done. symmetry. apply Z.add_nocarry_lor. apply Z.bits_inj'. intros n Hn.
  rewrite Z.land_spec, Z.bits_0. destruct (decide (n < k)).
  - rewrite Z.shiftl_spec_low by done. apply andb_false_r.
  - rewrite <- (Z.mod_small a (2 ^ k)) by done. rewrite Z.mod_pow2_bits_high by lia. done.
Qed.
