(* ===== verification/Str.v ===== *)
(** * Strings and memory blocks

    [string.c].  A string or block that is only read is the function giving the
    byte at each offset; a routine that fills a buffer returns the bytes it
    stores from its start on; [memmove] and [memset], whose operands may overlap
    or be unaligned, work on a byte memory. *)

From S2P Require Import Prelude Bytes.

(** The bytes from an address on. *)
Definition str := nat → Z.
Definition tail_of (s : str) : str := λ k, s (S k).
(** The bytes of a list, and 0 after them. *)
Definition str_of (l : list Z) : str := λ k, nth k l 0.

Fixpoint memcmp (n : nat) (s1 s2 : str) : Z :=
  match n with
  | O => 0
  | S n => if negb (s1 0%nat =? s2 0%nat) then s1 0%nat - s2 0%nat
           else memcmp n (tail_of s1) (tail_of s2)
  end.

Fixpoint strncmp (n : nat) (p q : str) : Z :=
  match n with
  | O => 0
  | S n =>
      if (negb (p 0%nat =? 0) && (p 0%nat =? q 0%nat))%bool then strncmp n (tail_of p) (tail_of q)
      else u8 (p 0%nat) - u8 (q 0%nat)
  end.

(** The bytes stored in [s]: the string and its nul, then nuls. *)
Fixpoint strncpy (n : nat) (t : str) : list Z :=
  match n with
  | O => []
  | S n => t 0%nat :: if t 0%nat =? 0 then replicate n 0 else strncpy n (tail_of t)
  end.

(** The loop of [safestrcpy] with [n] already decremented, and the final nul. *)
Fixpoint safestrcpy_loop (n : nat) (t : str) : list Z :=
  match n with
  | O => [0]
  | S n => t 0%nat :: if t 0%nat =? 0 then [0] else safestrcpy_loop n (tail_of t)
  end.
Definition safestrcpy (n : Z) (t : str) : list Z :=
  if n <=? 0 then [] else safestrcpy_loop (Z.to_nat (n - 1)) t.

(** [strlen] looks at at most [fuel] bytes. *)
Fixpoint strlen (fuel : nat) (s : str) : option Z :=
  match fuel with
  | O => None
  | S fuel => if s 0%nat =? 0 then Some 0 else Z.succ <$> strlen fuel (tail_of s)
  end.

(** ** Byte memory *)

Abbreviation bytemem := (gmap Z Z).
Definition ld (m : bytemem) (a : Z) : Z := default 0 (m !! a).
Definition st (a b : Z) (m : bytemem) : bytemem := <[a := u8 b]> m.

(** [stosb] and [stosl]. *)
Fixpoint stosb (a b : Z) (n : nat) (m : bytemem) : bytemem :=
  match n with O => m | S n => stosb (a + 1) b n (st a b m) end.
Fixpoint stosl (a w : Z) (n : nat) (m : bytemem) : bytemem :=
  match n with
  | O => m
  | S n => stosl (a + 4) w n
      (st (a + 3) (Z.shiftr w 24) (st (a + 2) (Z.shiftr w 16) (st (a + 1) (Z.shiftr w 8) (st a w m))))
  end.

Definition memset (dst c n : Z) (m : bytemem) : bytemem :=
  if ((Z.rem (i32 dst) 4 =? 0) && (n mod 4 =? 0))%bool then
    let c := Z.land c 0xFF in
    stosl dst (Z.lor (Z.shiftl c 24) (Z.lor (Z.shiftl c 16) (Z.lor (Z.shiftl c 8) c))) (Z.to_nat (n / 4)) m
  else stosb dst c (Z.to_nat n) m.

Fixpoint move_up (d s : Z) (n : nat) (m : bytemem) : bytemem :=
  match n with O => m | S n => move_up (d + 1) (s + 1) n (st d (ld m s) m) end.
Fixpoint move_down (d s : Z) (n : nat) (m : bytemem) : bytemem :=
  match n with O => m | S n => move_down (d - 1) (s - 1) n (st (d - 1) (ld m (s - 1)) m) end.

Definition memmove (dst src n : Z) (m : bytemem) : bytemem :=
  if ((src <? dst) && (dst <? src + n))%bool
  then move_down (dst + n) (src + n) (Z.to_nat n) m
  else move_up dst src (Z.to_nat n) m.

(** ** Properties *)

Lemma ld_st m a b x : ld (st a b m) x = if decide (x = a) then u8 b else ld m x.
Proof. unfold ld, st. case_decide; [subst; by rewrite lookup_insert_eq|by rewrite lookup_insert_ne]. Qed.

Lemma move_up_spec n d s m x :
  (d ≤ s ∨ s + Z.of_nat n ≤ d) → (∀ a, 0 ≤ ld m a < 256) →
  ld (move_up d s n m) x =
    if decide (d ≤ x < d + Z.of_nat n) then ld m (s + (x - d)) else ld m x.
Proof.
  revert d s m; induction n as [|n IH]; intros d s m Ho Hb; cbn [move_up].
  { by rewrite decide_False by lia. }
  assert (u8 (ld m s) = ld m s) as Hu by (unfold u8; rewrite Z.mod_small; [done|apply Hb]).
  rewrite IH; [|lia|intros a; rewrite ld_st; case_decide; [rewrite Hu; apply Hb|apply Hb]].
  rewrite !ld_st, Hu. repeat case_decide; try lia; f_equal; lia.
Qed.

Lemma move_down_spec n d s m x :
  s ≤ d → (∀ a, 0 ≤ ld m a < 256) →
  ld (move_down d s n m) x =
    if decide (d - Z.of_nat n ≤ x < d) then ld m (s + (x - d)) else ld m x.
Proof.
  revert d s m; induction n as [|n IH]; intros d s m Ho Hb; cbn [move_down].
  { by rewrite decide_False by lia. }
  assert (u8 (ld m (s - 1)) = ld m (s - 1)) as Hu by (unfold u8; rewrite Z.mod_small; [done|apply Hb]).
  rewrite IH; [|lia|intros a; rewrite ld_st; case_decide; [rewrite Hu; apply Hb|apply Hb]].
  rewrite !ld_st, Hu. repeat case_decide; try lia; f_equal; lia.
Qed.

(** [memmove] copies the block as it was before the call, whether or not the
    source and the destination overlap, and changes nothing else. *)
Theorem memmove_spec dst src n m x :
  0 ≤ n → (∀ a, 0 ≤ ld m a < 256) →
  ld (memmove dst src n m) x =
    if decide (dst ≤ x < dst + n) then ld m (src + (x - dst)) else ld m x.
Proof.
  intros Hn Hb. unfold memmove.
  destruct (Z.ltb_spec src dst), (Z.ltb_spec dst (src + n)); cbn [andb].
  all: rewrite ?move_up_spec, ?move_down_spec, Z2Nat.id by (done || lia).
  all: repeat case_decide; try lia; f_equal; lia.
Qed.

Lemma stosb_spec n a b m x :
  ld (stosb a b n m) x = if decide (a ≤ x < a + Z.of_nat n) then u8 b else ld m x.
Proof.
  revert a m; induction n as [|n IH]; intros a m; cbn [stosb]; [by rewrite decide_False by lia|].
  rewrite IH, ld_st. repeat case_decide; lia || done.
Qed.

Lemma stosl_spec n a b m x :
  0 ≤ b < 256 →
  ld (stosl a (Z.lor (Z.shiftl b 24) (Z.lor (Z.shiftl b 16) (Z.lor (Z.shiftl b 8) b))) n m) x =
    if decide (a ≤ x < a + 4 * Z.of_nat n) then b else ld m x.
Proof.
  intros Hb. set (w := Z.lor _ _).
  assert (w = b * 16843009) as Hw.
  { assert (forallb (λ b, Z.lor (Z.shiftl b 24) (Z.lor (Z.shiftl b 16) (Z.lor (Z.shiftl b 8) b)) =? b * 16843009)
      (map Z.of_nat (seq 0 256)) = true) as H by (vm_compute; reflexivity).
    rewrite forallb_forall in H. apply Z.eqb_eq, H, in_map_iff. exists (Z.to_nat b). split; [lia|].
    apply in_seq. lia. }
  clearbody w. subst w.
  assert (u8 (b * 16843009) = b ∧ u8 (Z.shiftr (b * 16843009) 8) = b ∧
          u8 (Z.shiftr (b * 16843009) 16) = b ∧ u8 (Z.shiftr (b * 16843009) 24) = b) as (H0 & H1 & H2 & H3).
  { unfold u8. rewrite !Z.shiftr_div_pow2 by lia. change (2 ^ 8) with 256. change (2 ^ 16) with 65536.
    change (2 ^ 24) with 16777216. Z.to_euclidean_division_equations. lia. }
  revert a m; induction n as [|n IH]; intros a m; cbn [stosl]; [by rewrite decide_False by lia|].
  rewrite IH, !ld_st, H0, H1, H2, H3. repeat case_decide; lia || done.
Qed.

(** [memset] stores the low byte of [c], word by word or byte by byte. *)
Lemma memset_spec dst c n m x :
  0 ≤ n → ld (memset dst c n m) x = if decide (dst ≤ x < dst + n) then u8 c else ld m x.
Proof.
  intros Hn. unfold memset. destruct (_ && _)%bool eqn:E.
  - apply andb_prop in E as [_ E%Z.eqb_eq]. pose proof (Z.mod_pos_bound c 256).
    change 255 with (Z.ones 8). rewrite Z.land_ones by lia. change (2 ^ 8) with 256. fold (u8 c).
    rewrite stosl_spec by (unfold u8; lia). rewrite Z2Nat.id by (apply Z.div_pos; lia).
    replace (4 * (n / 4)) with n by (Z.to_euclidean_division_equations; lia). done.
  - by rewrite stosb_spec, Z2Nat.id by done.
Qed.

(** ** Names

    [strncmp] and [strncpy] as directories use them: names of at most [n] bytes,
    ended by a nul when shorter. *)

(** The name in a field: the bytes before the first nul. *)
Fixpoint name_of (l : list Z) : list Z :=
  match l with
  | [] => []
  | c :: l => if c =? 0 then [] else c :: name_of l
  end.

Lemma tail_of_cons c l k : tail_of (str_of (c :: l)) k = str_of l k.
Proof. done. Qed.

Lemma strncmp_ext n p p' q q' :
  (∀ k, p k = p' k) → (∀ k, q k = q' k) → strncmp n p q = strncmp n p' q'.
Proof.
  revert p p' q q'; induction n as [|n IH]; intros p p' q q' Hp Hq; [done|]. simpl.
  rewrite Hp, Hq, (IH _ (tail_of p') _ (tail_of q')); [done|intros k; apply Hp|intros k; apply Hq].
Qed.

Lemma strncpy_ext n p p' : (∀ k, p k = p' k) → strncpy n p = strncpy n p'.
Proof.
  revert p p'; induction n as [|n IH]; intros p p' Hp; [done|]. simpl.
  rewrite Hp, (IH _ (tail_of p')); [done|intros k; apply Hp].
Qed.

(** Two names compare equal when their bytes before the first nul agree. *)
Lemma strncmp_zero n p q :
  bytes p → bytes q →
  strncmp n (str_of p) (str_of q) = 0 ↔ name_of (take n p) = name_of (take n q).
Proof.
  revert p q; induction n as [|n IH]; intros p q Hp Hq; [done|].
  assert (∀ l, bytes l → 0 ≤ str_of l 0%nat < 256) as Hb.
  { intros l Hl. by apply get8_range. }
  pose proof (Hb p Hp). pose proof (Hb q Hq). cbn [strncmp]. rewrite !u8_byte by done.
  destruct p as [|a p], q as [|b q]; cbn [str_of nth take name_of] in *; unfold str_of in *; simpl nth in *.
  - done.
  - simpl. destruct (Z.eqb_spec b 0); [by subst|]. split; [lia|done].
  - simpl. destruct (Z.eqb_spec a 0) as [->|]; [by simpl|]. cbn [negb andb].
    split; [|done]. destruct (a =? 0); lia.
  - apply Forall_cons in Hp as [_ Hp]. apply Forall_cons in Hq as [_ Hq].
    destruct (Z.eqb_spec a 0) as [->|Ha]; cbn [negb andb].
    { destruct (Z.eqb_spec b 0) as [->|]; [by simpl|]. split; [lia|done]. }
    destruct (Z.eqb_spec a b) as [->|Hab].
    + rewrite (strncmp_ext n _ (str_of p) _ (str_of q)) by done. unfold str_of. rewrite (IH p q) by done.
      rewrite (proj2 (Z.eqb_neq b 0)) by done. split; [by intros ->|by intros [= ->]].
    + split; [lia|]. destruct (b =? 0); [done|]. intros [= ->]. done.
Qed.

Lemma length_strncpy n t : length (strncpy n t) = n.
Proof.
  revert t; induction n as [|n IH]; intros t; simpl; [done|]. case_match; simpl; by rewrite ?length_replicate, ?IH.
Qed.

Lemma name_of_id l : 0 ∉ l → name_of l = l.
Proof.
  induction l as [|c l IH]; intros Hl; [done|]. apply not_elem_of_cons in Hl as [Hc Hl]. cbn [name_of].
  rewrite (proj2 (Z.eqb_neq c 0)) by done. by rewrite IH.
Qed.
Lemma name_of_zeros n : name_of (replicate n 0) = [].
Proof. by destruct n. Qed.

(** What [strncpy] stores is the name it was given, cut to [n] bytes. *)
Lemma strncpy_name n l : name_of (strncpy n (str_of l)) = name_of (take n l).
Proof.
  revert l; induction n as [|n IH]; intros l; [done|]. cbn [strncpy name_of].
  destruct l as [|a l]; unfold str_of; simpl nth; [done|]. cbn [take name_of].
  destruct (Z.eqb_spec a 0); [done|]. by rewrite (strncpy_ext n _ (str_of l)), IH.
Qed.

Lemma bytes_strncpy n l : bytes l → bytes (strncpy n (str_of l)).
Proof.
  revert l; induction n as [|n IH]; intros l Hl; [constructor|]. cbn [strncpy]. constructor.
  - by apply (get8_range l 0).
  - case_match; [by apply Forall_replicate|]. destruct l as [|a l].
    + rewrite (strncpy_ext n _ (str_of [])); [by apply IH|]. by intros [].
    + rewrite (strncpy_ext n _ (str_of l)) by done. apply IH. by apply Forall_cons in Hl as [_ ?].
Qed.

(** [safestrcpy] stores a string: at most [n] bytes, ended by a nul, whose
    characters are the source's, cut to [n - 1]. *)
Theorem safestrcpy_spec n l :
  0 < n →
  let r := safestrcpy n (str_of l) in
  Z.of_nat (length r) ≤ n ∧ last r = Some 0 ∧ name_of r = name_of (take (Z.to_nat (n - 1)) l).
Proof.
  intros Hn. unfold safestrcpy. rewrite (proj2 (Z.leb_gt n 0)) by lia. cbv zeta.
  assert (∀ k l, (length (safestrcpy_loop k (str_of l)) ≤ S k)%nat ∧ last (safestrcpy_loop k (str_of l)) = Some 0 ∧
    name_of (safestrcpy_loop k (str_of l)) = name_of (take k l)) as H.
  { intros k. induction k as [|k IH]; intros [|a t]; cbn [safestrcpy_loop].
    - done.
    - done.
    - split; [simpl; lia|done].
    - assert (safestrcpy_loop k (tail_of (str_of (a :: t))) = safestrcpy_loop k (str_of t)) as -> by done.
      destruct (IH t) as (H1 & H2 & H3). unfold str_of at 1 2 4 5 7 8. simpl nth. cbn [take name_of].
      destruct (Z.eqb_spec a 0) as [->|Ha]; [split_and!; [simpl; lia|done|done]|].
      split_and!; [simpl; lia| |].
      + rewrite last_cons. by rewrite H2.
      + by rewrite H3. }
  destruct (H (Z.to_nat (n - 1)) l) as (H1 & H2 & H3). split_and!; [lia|done|done].
Qed.

Lemma safestrcpy_spec_witness :
  let r := safestrcpy 4 (str_of [104; 101; 108; 108; 111]) in
  Z.of_nat (length r) ≤ 4 ∧ last r = Some 0 ∧ name_of r = [104; 101; 108].
Proof. apply (safestrcpy_spec 4 [104; 101; 108; 108; 111]). lia. Defined.

Lemma memmove_spec_witness :
  ld (memmove 12 10 4 {[ 10 := 1; 11 := 2; 12 := 3; 13 := 4 ]}) 14 = 3.
Proof.
  rewrite (memmove_spec 12 10 4 {[ 10 := 1; 11 := 2; 12 := 3; 13 := 4 ]} 14); [reflexivity|lia|].
  intros a. unfold ld. destruct (decide (a = 10)) as [->|]; [done|]. destruct (decide (a = 11)) as [->|]; [done|].
  destruct (decide (a = 12)) as [->|]; [done|]. destruct (decide (a = 13)) as [->|]; [done|].
  rewrite !lookup_insert_ne, lookup_singleton_ne by done. done.
Defined.
