(* ===== verification/Ulib.v ===== *)
(** * The library of user programs

    [ulib.c] and [printf.c].  User programs run over a class of operating systems
    that gives the system calls they make; a call to [exit] ends the program, and
    what C leaves undefined stops the model.  A string is the list of its bytes before the nul. *)

From S2P Require Import Prelude Bytes Str.

(** ** Programs *)

Inductive ures (os A : Type) :=
  | Returns (a : A) (o : os)
  | Exits (o : os)
  | Undefined.
Arguments Returns {os A}.
Arguments Exits {os A}.
Arguments Undefined {os A}.

Definition U (os A : Type) : Type := os → ures os A.
#[export] Instance U_ret os : MRet (U os) := λ A a o, Returns a o.
#[export] Instance U_bind os : MBind (U os) := λ A B f m o,
  match m o with Returns a o => f a o | Exits o => Exits o | Undefined => Undefined end.

Lemma ubind_returns {os A B} (m : U os A) (f : A → U os B) o a o' :
  m o = Returns a o' → (m ≫= f) o = f a o'.
Proof. intros E. unfold mbind, U_bind. by rewrite E. Qed.

(** The state a program leaves, by returning or by [exit]. *)
Definition final {os A} (r : ures os A) : option os := match r with Returns _ o | Exits o => Some o | Undefined => None end.

(** [struct stat] as a program sees it. *)
Record ustat := Ustat { ust_type : Z; ust_ino : Z; ust_size : Z }.

(** The system calls of [user.h] that the programs of this library use.  [read]
    gives its result and the bytes it stored. *)
Class Posix (os : Type) := {
  p_read : Z → Z → os → (Z * list Z) * os;
  p_write : Z → list Z → os → Z * os;
  p_open : list Z → Z → os → Z * os;
  p_close : Z → os → Z * os;
  p_unlink : list Z → os → Z * os;
  p_link : list Z → list Z → os → Z * os;
  p_mkdir : list Z → os → Z * os;
  p_kill : Z → os → Z * os;
  p_fstat : Z → os → (Z * ustat) * os }.

Section Calls.
Context {os : Type} `{Posix os}.
Definition call {A} (f : os → A * os) : U os A := λ o, let '(a, o') := f o in Returns a o'.
Definition read (fd n : Z) : U os (Z * list Z) := call (p_read fd n).
Definition write (fd : Z) (l : list Z) : U os Z := call (p_write fd l).
Definition open (path : list Z) (mode : Z) : U os Z := call (p_open path mode).
Definition close (fd : Z) : U os Z := call (p_close fd).
Definition unlink (path : list Z) : U os Z := call (p_unlink path).
Definition link (old new : list Z) : U os Z := call (p_link old new).
Definition mkdir (path : list Z) : U os Z := call (p_mkdir path).
Definition kill (pid : Z) : U os Z := call (p_kill pid).
Definition fstat (fd : Z) : U os (Z * ustat) := call (p_fstat fd).
Definition exit {A} : U os A := λ o, Exits o.
End Calls.

(** What the calls promise for files and the console: [input fd] is what can
    still be read from [fd], [output fd] what has been written to it. *)
Class Streams (os : Type) := { input : Z → os → list Z; output : Z → os → list Z }.

(** A write is complete, and changes nothing else. *)
Class WriteOk (os : Type) `{Posix os, Streams os} := {
  write_spec fd l o : ∃ o', p_write fd l o = (Z.of_nat (length l), o') ∧
    output fd o' = output fd o ++ l ∧ (∀ fd', fd' ≠ fd → output fd' o' = output fd' o) ∧
    ∀ fd', input fd' o' = input fd' o }.

(** A read takes some of the bytes that are left, none only at the end. *)
Class ReadOk (os : Type) `{Posix os, Streams os} := {
  read_spec fd n o : 0 < n → ∃ k o', p_read fd n o = ((Z.of_nat k, take k (input fd o)), o') ∧
    (k ≤ length (input fd o))%nat ∧ Z.of_nat k ≤ n ∧ (input fd o ≠ [] → 0 < k)%nat ∧
    input fd o' = drop k (input fd o) ∧ (∀ fd', fd' ≠ fd → input fd' o' = input fd' o) ∧
    ∀ fd', output fd' o' = output fd' o }.

(** A regular file gives all that is asked for. *)
Class FullReads (os : Type) `{Posix os, Streams os} := {
  full_reads fd n o : 0 < n → fst (fst (p_read fd n o)) = Z.min n (Z.of_nat (length (input fd o))) }.

(** ** Strings *)

(** The bytes of a literal. *)
Definition lit (s : string) : list Z := map (λ c, Z.of_nat (Ascii.nat_of_ascii c)) (String.list_ascii_of_string s).

(** [s[k]], the nul at the end included. *)
Definition char_at (s : list Z) (k : nat) : Z := nth k s 0.

Fixpoint strcmp (p q : list Z) : Z :=
  match p, q with
  | a :: p', b :: q' => if a =? b then strcmp p' q' else u8 a - u8 b
  | _, _ => u8 (char_at p 0) - u8 (char_at q 0)
  end.

Definition ustrlen (s : list Z) : Z := Z.of_nat (length s).

(** The index of the first [c], which is not the nul. *)
Fixpoint strchr (s : list Z) (c : Z) : option nat :=
  match s with
  | [] => None
  | b :: s => if b =? c then Some O else S <$> strchr s c
  end.

(** [strchr] finds the first [c]. *)
Lemma strchr_spec s c : match strchr s c with
  | Some q => ∃ u v, s = u ++ c :: v ∧ c ∉ u ∧ q = length u
  | None => c ∉ s
  end.
Proof.
  induction s as [|b s IH]; cbn [strchr]; [by apply not_elem_of_nil|]. destruct (Z.eqb_spec b c) as [->|Hne].
  - exists [], s. split; [done|]. split; [by apply not_elem_of_nil|done].
  - destruct (strchr s c) as [q|]; simpl; [|by apply not_elem_of_cons].
    destruct IH as (u & v & -> & Hu & ->). exists (b :: u), v. split; [done|]. split; [by apply not_elem_of_cons|done].
Qed.
Lemma strchr_in s c : match strchr s c with Some _ => c ∈ s | None => c ∉ s end.
Proof.
  induction s as [|b s IH]; cbn [strchr]; [by apply not_elem_of_nil|]. destruct (Z.eqb_spec b c) as [->|Hne]; [set_solver|].
  destruct (strchr s c); cbn; set_solver.
Qed.

Fixpoint atoi_loop (n : Z) (s : list Z) : Z :=
  match s with
  | c :: s => if ((48 <=? c) && (c <=? 57))%bool then atoi_loop (i32 (n * 10 + c - 48)) s else n
  | [] => n
  end.
Definition atoi (s : list Z) : Z := atoi_loop 0 s.

(** [strcpy], [memset] and [memmove] on the memory of the program. *)
Fixpoint strcpy (s : Z) (t : list Z) (m : bytemem) : bytemem :=
  match t with
  | [] => st s 0 m
  | c :: t => strcpy (s + 1) t (st s c m)
  end.
Definition umemset (dst c : Z) (n : Z) (m : bytemem) : bytemem := stosb dst c (Z.to_nat n) m.
Definition umemmove (dst src : Z) (n : Z) (m : bytemem) : bytemem := move_up dst src (Z.to_nat n) m.

Section Library.
Context {os : Type} `{Posix os}.

(** The loop of [gets] with room for [room] characters: what it has stored. *)
Fixpoint gets_loop (room : nat) (stored : list Z) : U os (list Z) :=
  match room with
  | O => mret stored
  | S room =>
      r ← read 0 1;
      if fst r <? 1 then mret stored
      else
        let c := char_at (snd r) 0 in
        let stored := stored ++ [c] in
        if ((c =? 10) || (c =? 13))%bool then mret stored else gets_loop room stored
  end.
Definition gets (max : Z) : U os (list Z) := gets_loop (Z.to_nat (max - 1)) [].

Definition stat (n : list Z) : U os (Z * ustat) :=
  fd ← open n 0;
  if fd <? 0 then mret (-1, Ustat 0 0 0)
  else
    r ← fstat fd;
    close fd;;
    mret r.

(** ** Formatted output *)

Definition putc (fd c : Z) : U os unit := write fd [u8 c];; mret tt.
Fixpoint puts (fd : Z) (s : list Z) : U os unit :=
  match s with
  | [] => mret tt
  | c :: s => putc fd c;; puts fd s
  end.

Definition udigits : list Z := lit "0123456789ABCDEF".
(** The [do] loop of [printint]. *)
Fixpoint uprint_digits (fuel : nat) (x base : Z) : list Z :=
  match fuel with
  | O => []
  | S fuel =>
      let d := char_at udigits (Z.to_nat (x mod base)) in
      if x / base =? 0 then [d] else d :: uprint_digits fuel (x / base) base
  end.
Definition uprintint_buf (xx base : Z) (sgn : bool) : list Z :=
  let neg := (sgn && (xx <? 0))%bool in
  uprint_digits 32 (u32 (if neg then - xx else xx)) base ++ (if neg then [45] else []).
Definition uprintint (fd xx base : Z) (sgn : bool) : U os unit := puts fd (reverse (uprintint_buf xx base sgn)).

(** An argument: a word, or a string with null for [None].  One that is missing or
    of the other kind is undefined. *)
Inductive uarg := AWord (z : Z) | AStr (s : option (list Z)).
Definition undefined {A} : U os A := λ _, Undefined.
Definition with_word (ap : list uarg) (k : Z → U os unit) : U os unit :=
  match ap with AWord z :: _ => k z | _ => undefined end.
Definition with_str (ap : list uarg) (k : list Z → U os unit) : U os unit :=
  match ap with AStr s :: _ => k (default (lit "(null)") s) | _ => undefined end.

(** The loop of [printf]; [pct] is [state == '%']. *)
Fixpoint printf_loop (fd : Z) (pct : bool) (fmt : list Z) (ap : list uarg) : U os unit :=
  match fmt with
  | [] => mret tt
  | c :: fmt =>
      if negb pct then
        if c =? 37 then printf_loop fd true fmt ap
        else putc fd c;; printf_loop fd false fmt ap
      else if c =? 100 then
        with_word ap (λ z, uprintint fd (i32 z) 10 true);; printf_loop fd false fmt (tail ap)
      else if ((c =? 120) || (c =? 112))%bool then
        with_word ap (λ z, uprintint fd (i32 z) 16 false);; printf_loop fd false fmt (tail ap)
      else if c =? 115 then
        with_str ap (puts fd);; printf_loop fd false fmt (tail ap)
      else if c =? 99 then
        with_word ap (putc fd);; printf_loop fd false fmt (tail ap)
      else if c =? 37 then putc fd c;; printf_loop fd false fmt ap
      else putc fd 37;; putc fd c;; printf_loop fd false fmt ap
  end.
Definition printf (fd : Z) (fmt : string) (args : list uarg) : U os unit := printf_loop fd false (lit fmt) args.
End Library.

(** ** What is written *)

Section Written.
Context {os : Type} `{Posix os, Streams os, !WriteOk os}.

(** Between [o] and [o'] the bytes [l] were written to [fd], and nothing else
    happened. *)
Definition wrote (fd : Z) (l : list Z) (o o' : os) : Prop :=
  output fd o' = output fd o ++ l ∧ (∀ fd', fd' ≠ fd → output fd' o' = output fd' o) ∧
  ∀ fd', input fd' o' = input fd' o.

Lemma wrote_nil fd o : wrote fd [] o o.
Proof. split; [by rewrite app_nil_r|done]. Qed.
Lemma wrote_app fd l1 l2 o o1 o2 : wrote fd l1 o o1 → wrote fd l2 o1 o2 → wrote fd (l1 ++ l2) o o2.
Proof.
  intros (A1 & B1 & C1) (A2 & B2 & C2). split; [by rewrite A2, A1, app_assoc|]. split.
  - intros fd' Hne. by rewrite B2, B1.
  - intros fd'. by rewrite C2, C1.
Qed.

Lemma write_wrote fd l o : ∃ o', write fd l o = Returns (Z.of_nat (length l)) o' ∧ wrote fd l o o'.
Proof.
  destruct (write_spec fd l o) as (o' & E & Hw). exists o'. split; [|done]. unfold write, call. by rewrite E.
Qed.

Lemma putc_wrote fd c o : ∃ o', putc fd c o = Returns tt o' ∧ wrote fd [u8 c] o o'.
Proof.
  destruct (write_wrote fd [u8 c] o) as (o' & E & Hw). exists o'. split; [|done]. unfold putc. by rewrite (ubind_returns _ _ _ _ _ E).
Qed.

Lemma puts_wrote fd s o : ∃ o', puts fd s o = Returns tt o' ∧ wrote fd (map u8 s) o o'.
Proof.
  revert o; induction s as [|c s IH]; intros o; cbn [puts map]; [exists o; split; [done|apply wrote_nil]|].
  destruct (putc_wrote fd c o) as (o1 & E1 & W1). destruct (IH o1) as (o2 & E2 & W2). exists o2.
  split; [by rewrite (ubind_returns _ _ _ _ _ E1)|]. by apply (wrote_app fd [u8 c] (map u8 s) o o1).
Qed.

(** The text [printf] writes. *)
Fixpoint format_loop (pct : bool) (fmt : list Z) (ap : list uarg) : option (list Z) :=
  match fmt with
  | [] => Some []
  | c :: fmt =>
      if negb pct then
        if c =? 37 then format_loop true fmt ap else cons (u8 c) <$> format_loop false fmt ap
      else if c =? 100 then
        match ap with AWord z :: ap => app (map u8 (reverse (uprintint_buf (i32 z) 10 true))) <$> format_loop false fmt ap | _ => None end
      else if ((c =? 120) || (c =? 112))%bool then
        match ap with AWord z :: ap => app (map u8 (reverse (uprintint_buf (i32 z) 16 false))) <$> format_loop false fmt ap | _ => None end
      else if c =? 115 then
        match ap with AStr s :: ap => app (map u8 (default (lit "(null)") s)) <$> format_loop false fmt ap | _ => None end
      else if c =? 99 then
        match ap with AWord z :: ap => cons (u8 z) <$> format_loop false fmt ap | _ => None end
      else if c =? 37 then cons (u8 c) <$> format_loop false fmt ap
      else app [37; u8 c] <$> format_loop false fmt ap
  end.
Definition format (fmt : string) (args : list uarg) : option (list Z) := format_loop false (lit fmt) args.

Lemma then_wrote fd (m k : U os unit) l l' o :
  (∃ o1, m o = Returns tt o1 ∧ wrote fd l o o1) → (∀ o1, ∃ o2, k o1 = Returns tt o2 ∧ wrote fd l' o1 o2) →
  ∃ o2, (m;; k) o = Returns tt o2 ∧ wrote fd (l ++ l') o o2.
Proof.
  intros (o1 & E1 & W1) Hk. destruct (Hk o1) as (o2 & E2 & W2). exists o2.
  split; [by rewrite (ubind_returns _ _ _ _ _ E1)|by eapply wrote_app].
Qed.

Lemma printf_wrote fd fmt args l o :
  format fmt args = Some l → ∃ o', printf fd fmt args o = Returns tt o' ∧ wrote fd l o o'.
Proof.
  unfold format, printf. generalize (lit fmt), false. intros f pct. revert pct args l o.
  induction f as [|c f IH]; intros pct ap l o Hf; cbn [format_loop printf_loop] in *; [simplify_eq; exists o; split; [done|apply wrote_nil]|].
  destruct pct; cbn [negb] in *; repeat case_match; try done; simplify_eq.
  all: try (apply fmap_Some in Hf as (l' & Hl' & ->)); cbn [with_word with_str tail]; try (by apply IH).
  all: try (eapply (then_wrote _ _ _ [_]); [apply putc_wrote|intros o1; by apply IH]).
  all: try (eapply then_wrote; [apply puts_wrote|intros o1; by apply IH]).
  eapply (then_wrote _ _ _ [37]); [apply putc_wrote|]. intros o1.
  eapply (then_wrote _ _ _ [_]); [apply putc_wrote|intros o2; by apply IH].
Qed.
End Written.

(** ** Numbers *)

Lemma atoi_app n l c :
  Forall (λ c, 48 ≤ c ≤ 57) l → 48 ≤ c ≤ 57 → atoi_loop n (l ++ [c]) = i32 (atoi_loop n l * 10 + c - 48).
Proof.
  revert n; induction l as [|b l IH]; intros n Hl Hc; cbn [app atoi_loop].
  - rewrite (proj2 (Z.leb_le 48 c)), (proj2 (Z.leb_le c 57)) by lia. done.
  - apply Forall_cons in Hl as [Hb Hl]. rewrite (proj2 (Z.leb_le 48 b)), (proj2 (Z.leb_le b 57)) by lia. by apply IH.
Qed.

Lemma udigit d : 0 ≤ d < 10 → char_at udigits (Z.to_nat d) = d + 48.
Proof.
  intros Hd. assert (d ∈ map Z.of_nat (seq 0 10)) as Hin.
  { apply list_elem_of_fmap. exists (Z.to_nat d). split; [lia|]. apply elem_of_seq. lia. }
  revert Hin. cbn. rewrite !elem_of_cons. intros Hin. destruct_or? Hin; subst; try done. by apply not_elem_of_nil in Hin.
Qed.

Lemma atoi_digits fuel x :
  0 ≤ x < 10 ^ Z.of_nat fuel → x < 2147483648 → (0 < fuel)%nat →
  Forall (λ c, 48 ≤ c ≤ 57) (uprint_digits fuel x 10) ∧ atoi (reverse (uprint_digits fuel x 10)) = x.
Proof.
  revert x; induction fuel as [|fuel IH]; intros x Hx Hb Hf; [lia|]. cbn [uprint_digits].
  pose proof (Z.mod_pos_bound x 10 ltac:(lia)) as Hm. pose proof (Z.div_mod x 10 ltac:(lia)) as Hd.
  rewrite udigit by done. destruct (Z.eqb_spec (x / 10) 0) as [E|E].
  { split; [apply Forall_singleton; lia|]. unfold atoi. change (reverse [?y]) with ([] ++ [y]). rewrite atoi_app by (done || lia).
    cbn [atoi_loop]. rewrite i32_small; lia. }
  rewrite Nat2Z.inj_succ, Z.pow_succ_r in Hx by lia. assert (x / 10 < 10 ^ Z.of_nat fuel) by (apply Z.div_lt_upper_bound; lia).
  destruct (IH (x / 10)) as [H1 H2]; [lia|lia|destruct fuel; [simpl in *; lia|lia]|].
  split; [constructor; [lia|done]|]. unfold atoi in *. rewrite reverse_cons, atoi_app, H2; [|by apply Forall_reverse|lia].
  rewrite i32_small; lia.
Qed.

(** a number that [printf] prints is the number that [atoi] reads: for a
    non-negative [int], printing it with "%d" writes a text that [atoi] turns
    back into it. *)
Theorem printf_atoi {os} `{Posix os, Streams os, !WriteOk os} fd n (o : os) :
  0 ≤ n < 2147483648 →
  ∃ l o', printf fd "%d" [AWord n] o = Returns tt o' ∧ wrote fd l o o' ∧ atoi l = n.
Proof.
  intros Hn. exists (map u8 (reverse (uprintint_buf n 10 true))).
  destruct (printf_wrote fd "%d" [AWord n] (map u8 (reverse (uprintint_buf n 10 true))) o) as (o' & E & W).
  { unfold format. cbn -[uprintint_buf i32]. rewrite i32_small by lia. by rewrite app_nil_r. }
  exists o'. split; [done|]. split; [done|]. unfold uprintint_buf.
  rewrite (proj2 (Z.ltb_ge n 0)), andb_false_r, app_nil_r, u32_small by lia.
  destruct (atoi_digits 32 n) as [H1 H2]; [change (10 ^ Z.of_nat 32) with (10 ^ 32); lia|lia|lia|].
  rewrite <- H2 at 2. f_equal. rewrite <- (map_id (reverse _)) at 2. apply map_ext_in. intros c Hc%list_elem_of_In.
  rewrite elem_of_reverse in Hc. rewrite Forall_forall in H1. specialize (H1 c Hc). apply u8_byte. lia.
Qed.

(** ** Two small systems

    One has files, that give all they have; the other has pipes, whose reader gets
    what one writer has put in. *)
Module SampleOs.

Record files := Files { fnames : gmap (list Z) (list Z); fins : gmap Z (list Z); fouts : gmap Z (list Z); fnext : nat }.

Definition fd_of (m : gmap Z (list Z)) (fd : Z) : list Z := default [] (m !! fd).

#[export] Instance files_posix : Posix files := {|
  p_read fd n o :=
    let l := fd_of (fins o) fd in
    let k := Z.to_nat (Z.min n (Z.of_nat (length l))) in
    ((Z.of_nat k, take k l), Files (fnames o) (<[fd := drop k l]> (fins o)) (fouts o) (fnext o));
  p_write fd l o :=
    (Z.of_nat (length l), Files (fnames o) (fins o) (<[fd := fd_of (fouts o) fd ++ l]> (fouts o)) (fnext o));
  p_open path mode o :=
    match fnames o !! path with
    | None => if mode =? 0 then (-1, o)
              else (Z.of_nat (fnext o), Files (<[path := []]> (fnames o)) (<[Z.of_nat (fnext o) := []]> (fins o))
                                       (<[Z.of_nat (fnext o) := []]> (fouts o)) (S (fnext o)))
    | Some l => (Z.of_nat (fnext o), Files (fnames o) (<[Z.of_nat (fnext o) := l]> (fins o))
                                       (<[Z.of_nat (fnext o) := []]> (fouts o)) (S (fnext o)))
    end;
  p_close _ o := (0, o);
  p_unlink path o := (0, Files (delete path (fnames o)) (fins o) (fouts o) (fnext o));
  p_link _ _ o := (-1, o);
  p_mkdir _ o := (-1, o);
  p_kill _ o := (-1, o);
  p_fstat _ o := ((-1, Ustat 0 0 0), o) |}.
#[export] Instance files_streams : Streams files := {| input fd o := fd_of (fins o) fd; output fd o := fd_of (fouts o) fd |}.

Lemma fd_of_insert m fd l : fd_of (<[fd := l]> m) fd = l.
Proof. unfold fd_of. by rewrite lookup_insert_eq. Qed.
Lemma fd_of_insert_ne m fd fd' l : fd' ≠ fd → fd_of (<[fd := l]> m) fd' = fd_of m fd'.
Proof. intros Hne. unfold fd_of. by rewrite lookup_insert_ne. Qed.

#[export] Instance files_write : WriteOk files.
Proof.
  split. intros fd l o. eexists. split; [reflexivity|]. cbn. split; [apply fd_of_insert|]. split; [|done].
  intros fd' Hne. by apply fd_of_insert_ne.
Qed.
#[export] Instance files_read : ReadOk files.
Proof.
  split. intros fd n o Hn. eexists _, _. split; [reflexivity|]. cbn. split; [lia|]. split; [lia|].
  split; [destruct (fd_of (fins o) fd); [done|cbn; lia]|]. split; [apply fd_of_insert|]. split; [|done].
  intros fd' Hne. by apply fd_of_insert_ne.
Qed.
#[export] Instance files_full : FullReads files.
Proof. split. intros fd n o Hn. cbn. lia. Qed.

(** A pipe holds what each write has left in it. *)
Record pipes := Pipes { pins : gmap Z (list (list Z)); pouts : gmap Z (list Z) }.
Definition chunks (o : pipes) (fd : Z) : list (list Z) := default [] (pins o !! fd).

#[export] Instance pipes_posix : Posix pipes := {|
  p_read fd n o :=
    match chunks o fd with
    | [] => ((0, []), o)
    | l :: ls =>
        let k := Z.to_nat (Z.min n (Z.of_nat (length l))) in
        ((Z.of_nat k, take k l),
         Pipes (<[fd := if decide (drop k l = []) then ls else drop k l :: ls]> (pins o)) (pouts o))
    end;
  p_write fd l o := (Z.of_nat (length l), Pipes (pins o) (<[fd := fd_of (pouts o) fd ++ l]> (pouts o)));
  p_open _ _ o := (-1, o);
  p_close _ o := (0, o);
  p_unlink _ o := (-1, o);
  p_link _ _ o := (-1, o);
  p_mkdir _ o := (-1, o);
  p_kill _ o := (-1, o);
  p_fstat _ o := ((-1, Ustat 0 0 0), o) |}.

Lemma printf_atoi_witness : ∃ l o', printf 1 "%d" [AWord 1234] (Files ∅ ∅ ∅ 3) = Returns tt o' ∧ fd_of (fouts o') 1 = l ∧ atoi l = 1234.
Proof.
  destruct (printf_atoi 1 1234 (Files ∅ ∅ ∅ 3)) as (l & o' & E & W & Ha); [lia|]. exists l, o'. split; [exact E|].
  split; [|exact Ha]. destruct W as (W & _). exact W.
Defined.
End SampleOs.
