(* ===== verification/Grep.v ===== *)
(** * grep

    [grep.c]: the matcher of regular expressions and the loop over the lines of a
    file.  A pattern and a line are the lists of their bytes before the nul. *)

From S2P Require Import Prelude Bytes Str Ulib.

(** ** The matcher *)

Definition STAR : Z := 42.
Definition DOT : Z := 46.
Definition DOLLAR : Z := 36.
Definition CARET : Z := 94.

(** [matchstar(c, re, text)], with [here] for [matchhere(re, .)]. *)
Fixpoint matchstar (here : list Z → bool) (c : Z) (text : list Z) : bool :=
  if here text then true
  else match text with
       | [] => false
       | t :: text => if ((t =? c) || (c =? DOT))%bool then matchstar here c text else false
       end.

Fixpoint matchhere (re text : list Z) {struct re} : bool :=
  match re with
  | [] => true
  | r0 :: re1 =>
      match re1 with
      | r1 :: re2 =>
          if r1 =? STAR then matchstar (matchhere re2) r0 text
          else match text with
               | t :: text => if ((r0 =? DOT) || (r0 =? t))%bool then matchhere re1 text else false
               | [] => false
               end
      | [] =>
          if r0 =? DOLLAR then bool_decide (text = [])
          else match text with
               | t :: text => if ((r0 =? DOT) || (r0 =? t))%bool then matchhere re1 text else false
               | [] => false
               end
      end
  end.

(** The loop of [match] over the suffixes of the text. *)
Fixpoint match_any (re text : list Z) : bool :=
  if matchhere re text then true
  else match text with [] => false | _ :: text => match_any re text end.
Definition re_match (re text : list Z) : bool :=
  match re with
  | r0 :: re1 => if r0 =? CARET then matchhere re1 text else match_any re text
  | [] => match_any re text
  end.

(** ** The loop over the input *)

Definition BUFSIZE : Z := 1024.
Definition newline : Z := 10.

Section Grep.
Context {os : Type} `{Posix os}.

(** The inner loop, from [p] = the bytes of [buf] that are left: the lines that
    match are written, and the rest after the last newline remains.  [strchr]
    stops at a nul. *)
Fixpoint grep_lines (fuel : nat) (pattern p : list Z) : U os (list Z) :=
  match strchr (name_of p) newline with
  | None => mret p
  | Some q =>
      (if re_match pattern (take q p) then write 1 (take (q + 1) p);; mret tt else mret tt);;
      match fuel with
      | O => undefined
      | S fuel => grep_lines fuel pattern (drop (q + 1) p)
      end
  end.

(** [buf] holds the bytes [m]. *)
Fixpoint grep_loop (fuel : nat) (pattern : list Z) (fd : Z) (m : list Z) : U os unit :=
  match fuel with
  | O => undefined
  | S fuel =>
      r ← read fd (u32 (BUFSIZE - Z.of_nat (length m) - 1));
      if fst r <=? 0 then mret tt
      else
        let buf := m ++ snd r in
        p ← grep_lines (length buf) pattern buf;
        grep_loop fuel pattern fd (if bool_decide (length p = length buf) then [] else p)
  end.
Definition grep (fuel : nat) (pattern : list Z) (fd : Z) : U os unit := grep_loop fuel pattern fd [].

(** [main] of the arguments after the program's name. *)
Fixpoint grep_files (fuel : nat) (pattern : list Z) (files : list (list Z)) : U os unit :=
  match files with
  | [] => exit
  | f :: files =>
      fd ← open f 0;
      if fd <? 0 then
        printf 1 "grep: cannot open %s
" [AStr (Some f)];;
        exit
      else
        grep fuel pattern fd;;
        close fd;;
        grep_files fuel pattern files
  end.
Definition grep_main (fuel : nat) (args : list (list Z)) : U os unit :=
  match args with
  | [] => printf 2 "usage: grep pattern [file ...]
" [];; exit
  | [pattern] => grep fuel pattern 0;; exit
  | pattern :: files => grep_files fuel pattern files
  end.
End Grep.

(** ** The language of a pattern

    A pattern is a sequence of pieces, a character or a character with a star,
    and says whether the match must end where the line ends; a dot stands for any
    character. *)
Inductive piece := One (c : Z) | Many (c : Z).

Fixpoint pieces (re : list Z) : list piece * bool :=
  match re with
  | [] => ([], false)
  | r0 :: re1 =>
      match re1 with
      | r1 :: re2 =>
          if r1 =? STAR then let '(ps, e) := pieces re2 in (Many r0 :: ps, e)
          else let '(ps, e) := pieces re1 in (One r0 :: ps, e)
      | [] => if r0 =? DOLLAR then ([], true) else ([One r0], false)
      end
  end.

Definition fits (c t : Z) : Prop := c = DOT ∨ c = t.
Fixpoint lang (ps : list piece) (w : list Z) : Prop :=
  match ps with
  | [] => w = []
  | One c :: ps => ∃ t w', w = t :: w' ∧ fits c t ∧ lang ps w'
  | Many c :: ps => ∃ u w', w = u ++ w' ∧ Forall (fits c) u ∧ lang ps w'
  end.

(** The text starts with a word of the pattern; [snd] of the pieces asks that
    nothing follows. *)
Definition starts (pe : list piece * bool) (text : list Z) : Prop :=
  ∃ u v, text = u ++ v ∧ lang (fst pe) u ∧ (snd pe = true → v = []).

Lemma starts_one c ps e text :
  starts (One c :: ps, e) text ↔ ∃ t text', text = t :: text' ∧ fits c t ∧ starts (ps, e) text'.
Proof.
  unfold starts. cbn [fst snd lang]. split.
  - intros (u & v & -> & (t & w & -> & Hf & Hl) & He). exists t, (w ++ v). eauto 10.
  - intros (t & text' & -> & Hf & u & v & -> & Hl & He). exists (t :: u), v. split; [done|]. eauto 10.
Qed.
Lemma starts_many c ps e text :
  starts (Many c :: ps, e) text ↔ ∃ u text', text = u ++ text' ∧ Forall (fits c) u ∧ starts (ps, e) text'.
Proof.
  unfold starts. cbn [fst snd lang]. split.
  - intros (x & v & -> & (u & w & -> & Hf & Hl) & He). exists u, (w ++ v). rewrite app_assoc. eauto 10.
  - intros (u & text' & -> & Hf & x & v & -> & Hl & He). exists (u ++ x), v. rewrite app_assoc. eauto 10.
Qed.

Lemma matchstar_spec here c text (P : list Z → Prop) :
  (∀ t, here t = true ↔ P t) →
  matchstar here c text = true ↔ ∃ u text', text = u ++ text' ∧ Forall (fits c) u ∧ P text'.
Proof.
  intros Hh. induction text as [|t text IH]; cbn [matchstar].
  - destruct (here []) eqn:E; split; try done.
    + intros _. exists [], []. split; [done|]. split; [constructor|by apply Hh].
    + intros (u & text' & Hu & _ & HP). symmetry in Hu. apply app_eq_nil in Hu as [-> ->]. apply Hh in HP. congruence.
  - destruct (here (t :: text)) eqn:E.
    { split; [|done]. intros _. exists [], (t :: text). split; [done|]. split; [constructor|by apply Hh]. }
    assert (((t =? c) || (c =? DOT))%bool = true ↔ fits c t) as Hf.
    { unfold fits. rewrite orb_true_iff, !Z.eqb_eq. naive_solver. }
    destruct ((t =? c) || (c =? DOT))%bool.
    + rewrite IH. split.
      * intros (u & text' & -> & Hu & HP). exists (t :: u), text'. split; [done|]. split; [|done]. constructor; [by apply Hf|done].
      * intros ([|x u] & text' & Hu & HF & HP); simplify_eq/=; [apply Hh in HP; congruence|].
        apply Forall_cons in HF as [_ HF]. eauto 10.
    + split; [done|]. intros ([|x u] & text' & Hu & HF & HP); simplify_eq/=; [apply Hh in HP; congruence|].
      apply Forall_cons in HF as [Hx _]. apply Hf in Hx. done.
Qed.

Lemma one_spec c ps e text (here : list Z → bool) :
  (∀ t, here t = true ↔ starts (ps, e) t) →
  (match text with t :: text => if ((c =? DOT) || (c =? t))%bool then here text else false | [] => false end) = true ↔
  starts (One c :: ps, e) text.
Proof.
  intros Hh. rewrite starts_one. destruct text as [|t text]; [naive_solver|].
  assert (((c =? DOT) || (c =? t))%bool = true ↔ fits c t) as Hf by (unfold fits; rewrite orb_true_iff, !Z.eqb_eq; done).
  destruct ((c =? DOT) || (c =? t))%bool.
  - rewrite Hh. naive_solver.
  - split; [done|]. intros (t' & text' & Ht & Hx & _). simplify_eq. apply Hf in Hx. done.
Qed.

Lemma matchhere_eq r0 r1 re text : matchhere (r0 :: r1 :: re) text =
  if r1 =? STAR then matchstar (matchhere re) r0 text
  else match text with
       | t :: text => if ((r0 =? DOT) || (r0 =? t))%bool then matchhere (r1 :: re) text else false
       | [] => false
       end.
Proof. done. Qed.
Lemma pieces_eq r0 r1 re : pieces (r0 :: r1 :: re) =
  if r1 =? STAR then let '(ps, e) := pieces re in (Many r0 :: ps, e)
  else let '(ps, e) := pieces (r1 :: re) in (One r0 :: ps, e).
Proof. done. Qed.

Lemma matchhere_spec re text : matchhere re text = true ↔ starts (pieces re) text.
Proof.
  remember (length re) as n eqn:En. revert re En text. induction n as [n IH] using lt_wf_ind.
  intros [|r0 [|r1 re]] -> text; [cbn [matchhere pieces]..|rewrite matchhere_eq, pieces_eq].
  - split; [|done]. intros _. exists [], text. done.
  - destruct (Z.eqb_spec r0 DOLLAR).
    + rewrite bool_decide_eq_true. split; [intros ->; by exists [], []|]. intros (u & v & -> & Hu & Hv). cbn in *. subst u. by apply Hv.
    + apply one_spec. intros t. split; [|done]. intros _. exists [], t. done.
  - destruct (Z.eqb_spec r1 STAR).
    + pose proof (λ t, IH (length re) ltac:(simpl; lia) re eq_refl t) as Hre. destruct (pieces re) as [ps e0].
      rewrite starts_many. by apply matchstar_spec.
    + pose proof (λ t, IH (length (r1 :: re)) ltac:(simpl; lia) (r1 :: re) eq_refl t) as Hre.
      destruct (pieces (r1 :: re)) as [ps e0]. apply one_spec, Hre.
Qed.

Lemma match_any_spec re text : match_any re text = true ↔ ∃ s t, text = s ++ t ∧ starts (pieces re) t.
Proof.
  induction text as [|c text IH]; cbn [match_any]; destruct (matchhere re _) eqn:E.
  - split; [|done]. intros _. exists [], []. split; [done|]. by apply matchhere_spec.
  - split; [done|]. intros (s & t & Hs & Ht). symmetry in Hs. apply app_eq_nil in Hs as [-> ->].
    apply matchhere_spec in Ht. congruence.
  - split; [|done]. intros _. exists [], (c :: text). split; [done|]. by apply matchhere_spec.
  - rewrite IH. split.
    + intros (s & t & -> & Ht). exists (c :: s), t. done.
    + intros ([|x s] & t & Hs & Ht); simplify_eq/=; [apply matchhere_spec in Ht; congruence|]. eauto.
Qed.

(** C30: the matcher decides the language of the pattern. [match] accepts a line
    exactly when some part of it is a word of the pattern: a piece is a character
    or any number of it, a dot fits every character, a leading "^" asks that the
    part starts the line and a final "$" that it ends it. *)
Theorem re_match_spec re text :
  let anchored := bool_decide (head re = Some CARET) in
  let pe := pieces (if anchored then tail re else re) in
  re_match re text = true ↔
  ∃ s u v, text = s ++ u ++ v ∧ lang (fst pe) u ∧ (anchored = true → s = []) ∧ (snd pe = true → v = []).
Proof.
  cbn zeta. assert (re_match re text = true ↔ ∃ s t, text = s ++ t ∧ starts (pieces (if bool_decide (head re = Some CARET) then tail re else re)) t ∧
    (bool_decide (head re = Some CARET) = true → s = [])) as ->.
  { destruct re as [|r0 re]; cbn [re_match head tail]; [rewrite match_any_spec; naive_solver|].
    destruct (Z.eqb_spec r0 CARET) as [->|Hne].
    - rewrite bool_decide_eq_true_2 by done. rewrite matchhere_spec. split; [intros Hs; by exists [], text|].
      intros (s & t & -> & Ht & Hs). by rewrite Hs.
    - rewrite bool_decide_eq_false_2 by congruence. rewrite match_any_spec. naive_solver. }
  unfold starts. naive_solver.
Qed.

(** ** The lines that are printed *)

(** The complete lines of a text, without their newlines, and what follows the
    last newline. *)
Fixpoint cut (p : list Z) : list (list Z) * list Z :=
  match p with
  | [] => ([], [])
  | c :: p =>
      let '(ls, r) := cut p in
      if c =? newline then ([] :: ls, r)
      else match ls with [] => ([], c :: r) | l :: ls => ((c :: l) :: ls, r) end
  end.
Definition selected (pattern : list Z) (ls : list (list Z)) : list Z :=
  concat (map (λ l, l ++ [newline]) (filter (λ l, re_match pattern l = true) ls)).

Lemma cut_plain l : newline ∉ l → cut l = ([], l).
Proof.
  induction l as [|c l IH]; intros Hl; [done|]. apply not_elem_of_cons in Hl as [Hc Hl]. cbn [cut].
  rewrite IH, (proj2 (Z.eqb_neq c newline)) by done. done.
Qed.
Lemma cut_line l p : newline ∉ l → cut (l ++ newline :: p) = (l :: fst (cut p), snd (cut p)).
Proof.
  induction l as [|c l IH]; intros Hl; cbn [app cut].
  - rewrite Z.eqb_refl. by destruct (cut p).
  - apply not_elem_of_cons in Hl as [Hc Hl]. rewrite IH, (proj2 (Z.eqb_neq c newline)) by done. done.
Qed.
Lemma cut_app p q : cut (p ++ q) = (fst (cut p) ++ fst (cut (snd (cut p) ++ q)), snd (cut (snd (cut p) ++ q))).
Proof.
  induction p as [|c p IH]; [simpl; by destruct (cut q)|]. cbn [app cut]. rewrite IH.
  destruct (cut p) as [ls r]. cbn [fst snd]. destruct (Z.eqb_spec c newline) as [->|Hne]; [done|].
  destruct ls as [|l ls]; [|done]. cbn [fst snd app cut]. destruct (cut (r ++ q)) as [ls' r']. cbn [fst snd].
  rewrite (proj2 (Z.eqb_neq c newline)) by done. by destruct ls'.
Qed.
Lemma cut_rest p : newline ∉ snd (cut p).
Proof.
  induction p as [|c p IH]; cbn [cut]; [by apply not_elem_of_nil|]. destruct (cut p) as [ls r]. cbn [snd] in *.
  destruct (Z.eqb_spec c newline); [done|]. destruct ls; cbn [snd]; [|done]. by apply not_elem_of_cons.
Qed.

Lemma length_cut_rest p : (length (snd (cut p)) ≤ length p)%nat.
Proof.
  induction p as [|c p IH]; cbn [cut]; [done|]. destruct (cut p) as [ls r]. cbn [snd] in *.
  destruct (c =? newline); [simpl; lia|]. destruct ls; simpl; lia.
Qed.
Lemma cut_rest_sub p c : c ∈ snd (cut p) → c ∈ p.
Proof.
  induction p as [|b p IH]; cbn [cut]; [done|]. destruct (cut p) as [ls r]. cbn [snd] in *.
  destruct (b =? newline); [set_solver|]. destruct ls; cbn [snd]; set_solver.
Qed.

Lemma selected_app pattern l1 l2 : selected pattern (l1 ++ l2) = selected pattern l1 ++ selected pattern l2.
Proof. unfold selected. by rewrite filter_app, map_app, concat_app. Qed.

Section Lines.
Context {os : Type} `{Posix os, Streams os, !WriteOk os}.

Lemma grep_lines_ok pattern fuel p (o : os) :
  0 ∉ p → (length p ≤ fuel)%nat →
  ∃ o', grep_lines fuel pattern p o = Returns (snd (cut p)) o' ∧ wrote 1 (selected pattern (fst (cut p))) o o'.
Proof.
  revert p o; induction fuel as [|fuel IH]; intros p o Hnul Hf.
  { destruct p; [|simpl in Hf; lia]. exists o. split; [done|apply wrote_nil]. }
  cbn [grep_lines]. rewrite name_of_id by done. pose proof (strchr_spec p newline) as Hs.
  destruct (strchr p newline) as [q|].
  - destruct Hs as (u & v & -> & Hu & ->). rewrite cut_line by done. cbn [fst snd].
    rewrite length_app in Hf. cbn [length] in Hf.
    assert (take (length u) (u ++ newline :: v) = u) as -> by apply take_app_length.
    assert (take (length u + 1) (u ++ newline :: v) = u ++ [newline]) as ->.
    { rewrite take_app_ge by lia. replace (length u + 1 - length u)%nat with 1%nat by lia. done. }
    assert (drop (length u + 1) (u ++ newline :: v) = v) as ->.
    { rewrite drop_app_ge by lia. replace (length u + 1 - length u)%nat with 1%nat by lia. done. }
    assert (∃ o1, (if re_match pattern u then write 1 (u ++ [newline]);; mret tt else mret tt) o = Returns tt o1 ∧
      wrote 1 (selected pattern [u]) o o1) as (o1 & E1 & W1).
    { unfold selected. destruct (re_match pattern u) eqn:Em.
      - rewrite filter_cons_True by done. destruct (write_wrote 1 (u ++ [newline]) o) as (o1 & E & W). exists o1.
        split; [by rewrite (ubind_returns _ _ _ _ _ E)|]. simpl. by rewrite app_nil_r.
      - rewrite filter_cons_False by congruence. exists o. split; [done|apply wrote_nil]. }
    destruct (IH v o1) as (o2 & E2 & W2); [set_solver|lia|]. exists o2.
    split; [by rewrite (ubind_returns _ _ _ _ _ E1)|]. change (u :: fst (cut v)) with ([u] ++ fst (cut v)). rewrite selected_app. by eapply wrote_app.
  - rewrite cut_plain by done. exists o. split; [done|apply wrote_nil].
Qed.

Context `{!ReadOk os, !FullReads os}.

(** Every line fits in the buffer. *)
Definition short_lines (d : list Z) : Prop :=
  Forall (λ l : list Z, Z.of_nat (length l) < BUFSIZE - 1) (snd (cut d) :: fst (cut d)).

Lemma short_rest d : short_lines d → Z.of_nat (length (snd (cut d))) < BUFSIZE - 1.
Proof. intros Hs. by apply Forall_cons in Hs as [? _]. Qed.
Lemma short_app p q : short_lines (p ++ q) → short_lines (snd (cut p) ++ q).
Proof.
  unfold short_lines. rewrite cut_app. cbn [fst snd]. rewrite !Forall_cons, Forall_app. tauto.
Qed.
(** A prefix without a newline is part of one line. *)
Lemma short_prefix p q : short_lines (p ++ q) → newline ∉ p → Z.of_nat (length p) < BUFSIZE - 1.
Proof.
  intros Hs Hp. unfold short_lines in Hs. pose proof (strchr_spec q newline) as Hq. destruct (strchr q newline).
  - destruct Hq as (u & v & -> & Hu & _). rewrite app_assoc, cut_line in Hs by set_solver. cbn [fst snd] in Hs.
    rewrite !Forall_cons, length_app in Hs. lia.
  - rewrite cut_plain in Hs by set_solver. cbn [fst snd] in Hs. rewrite Forall_cons, length_app in Hs. lia.
Qed.

Lemma grep_loop_ok pattern fd fuel m (o : os) :
  let d := input fd o in
  0 ∉ m ++ d → short_lines (m ++ d) → newline ∉ m → (length d < fuel)%nat →
  ∃ o', grep_loop fuel pattern fd m o = Returns tt o' ∧ output 1 o' = output 1 o ++ selected pattern (fst (cut (m ++ d))).
Proof.
  revert m o; induction fuel as [|fuel IH]; intros m o d Hnul Hs Hm Hf; [lia|]. cbn [grep_loop].
  pose proof (short_prefix m d Hs Hm) as Hlen. unfold BUFSIZE in *. rewrite u32_small by lia.
  set (n := 1024 - Z.of_nat (length m) - 1). destruct (read_spec fd n o) as (k & o1 & E & Hk & Hkn & Hpos & Hi & _ & Hout); [lia|].
  pose proof (full_reads fd n o ltac:(lia)) as Hfull. rewrite E in Hfull. cbn [fst] in Hfull. fold d in E, Hk, Hpos, Hi, Hfull.
  erewrite ubind_returns by (unfold read, call; rewrite E; reflexivity). cbn [fst snd].
  destruct (decide (d = [])) as [Hd|Hd].
  { assert (k = 0%nat) as -> by (rewrite Hd in Hk; simpl in Hk; lia). cbn. exists o1. split; [done|].
    rewrite Hout, Hd, app_nil_r, cut_plain by done. cbn [fst]. unfold selected. cbn. by rewrite app_nil_r. }
  specialize (Hpos Hd). rewrite (proj2 (Z.leb_gt (Z.of_nat k) 0)) by lia.
  set (buf := m ++ take k d). assert (m ++ d = buf ++ drop k d) as Hbuf by (unfold buf; by rewrite <- app_assoc, take_drop).
  rewrite Hbuf in Hnul, Hs |- *.
  destruct (grep_lines_ok pattern (length buf) buf o1) as (o2 & E2 & W2 & _ & I2); [set_solver|lia|].
  rewrite (ubind_returns _ _ _ _ _ E2). rewrite cut_app. cbn [fst].
  set (m' := if bool_decide _ then [] else _).
  assert (0 ∉ m' ++ drop k d ∧ short_lines (m' ++ drop k d) ∧ newline ∉ m' ∧
    fst (cut (snd (cut buf) ++ drop k d)) = fst (cut (m' ++ drop k d))) as (Hn' & Hs' & Hm' & Hcut).
  { unfold m'. case_bool_decide as Hb.
    - assert (newline ∉ buf) as Hnl.
      { pose proof (strchr_spec buf newline) as Hq. destruct (strchr buf newline); [|done].
        destruct Hq as (u & v & Ebuf & Hu & _). rewrite Ebuf, cut_line in Hb by done. cbn [snd] in Hb.
        pose proof (length_cut_rest v). rewrite length_app in Hb. simpl in Hb. lia. }
      pose proof (short_prefix _ _ Hs Hnl) as Hl. unfold buf, BUFSIZE in Hl. rewrite length_app, length_take in Hl.
      assert (drop k d = []) as -> by (apply drop_ge; unfold n in Hfull; lia).
      rewrite (app_nil_r (snd (cut buf))), (cut_plain (snd (cut buf))) by (apply cut_rest). split; [apply not_elem_of_nil|].
      split; [repeat constructor|]. split; [apply not_elem_of_nil|done].
    - split; [|split; [by apply short_app|split; [apply cut_rest|done]]].
      intros Hin. apply Hnul. apply elem_of_app. apply elem_of_app in Hin as [Hin|Hin]; [left; by apply cut_rest_sub|by right]. }
  destruct (IH m' o2) as (o3 & E3 & W3); rewrite ?I2, ?Hi; try done; [rewrite length_drop; lia|].
  exists o3. split; [done|]. rewrite W3, W2, Hout, I2, Hi, Hcut, selected_app. by rewrite app_assoc.
Qed.
End Lines.

(** C32: grep prints the lines that match. For a file without nul bytes whose lines
    are shorter than 1023 characters, [grep] returns, and what it has written is
    the lines of the file that match the pattern, in their order, each with its
    newline.  What follows the last newline is not a line. *)
Theorem grep_spec {os} `{Posix os, Streams os, !WriteOk os, !ReadOk os, !FullReads os} pattern fd fuel (o : os) :
  0 ∉ input fd o → short_lines (input fd o) → (length (input fd o) < fuel)%nat →
  ∃ o', grep fuel pattern fd o = Returns tt o' ∧
    output 1 o' = output 1 o ++ selected pattern (fst (cut (input fd o))).
Proof. intros Hnul Hs Hf. apply (grep_loop_ok pattern fd fuel []); try done. by apply not_elem_of_nil. Qed.

(** ** Samples *)

Module SampleGrep.
Import SampleOs.

Definition text : list Z := lit "hello
help
yellow
".
Definition file : files := Files ∅ {[0 := text]} ∅ 3.

(** [grep '^hel*o'] of the file. *)
Lemma grep_spec_witness :
  ∃ o', grep 100 (lit "^hel*o") 0 file = Returns tt o' ∧ output 1 o' = lit "hello
".
Proof.
  destruct (grep_spec (lit "^hel*o") 0 100 file) as (o' & E & Ho).
  - apply (bool_decide_unpack _). vm_compute. exact I.
  - apply (bool_decide_unpack _). vm_compute. exact I.
  - apply (bool_decide_unpack _). vm_compute. exact I.
  - exists o'. split; [exact E|]. rewrite Ho. vm_compute. reflexivity.
Defined.

(** A line that a pipe delivers in two parts: the first part has no newline and is
    thrown away. *)
Definition pipe : pipes := Pipes {[0 := [lit "he"; lit "llo
"]]} ∅.
Lemma grep_loses_line :
  re_match (lit "hello") (lit "hello") = true ∧ concat (chunks pipe 0) = lit "hello
" ∧
  ∃ o', grep 100 (lit "hello") 0 pipe = Returns tt o' ∧ fd_of (pouts o') 1 = [].
Proof. split; [reflexivity|]. split; [reflexivity|]. eexists. split; vm_compute; reflexivity. Qed.
End SampleGrep.
