(* ===== verification/Umalloc.v ===== *)
(** * The memory allocator of user programs

    [umalloc.c], Kernighan and Ritchie's allocator: a ring of free blocks in the
    order of their addresses, kept in headers in front of the blocks.  The heap is
    the headers by address; what a program stores in its own blocks is in no
    definition here, and [store_ok] shows that it does not matter. *)

From stdpp Require Import sorting.
From S2P Require Import Prelude Mem.

(** [union header]; addresses are in bytes, sizes in headers. *)
Record header := Header { hptr : Z; hsize : Z }.
Definition sizeof_header : Z := 8.
(** [p + n] on a pointer to headers. *)
Definition hplus (p n : Z) : Z := u32 (p + n * sizeof_header).

(** ** The system call

    [sbrk(n)] as the library uses it: the address of [n] fresh bytes, or -1. *)
Class Sbrk (os : Type) := { sbrk : Z → os → Z * os; brk : os → Z }.
Class SbrkOk (os : Type) `{Sbrk os} := {
  sbrk_spec n o : 0 ≤ n < 2147483648 →
    (fst (sbrk n o) = 4294967295 ∧ brk (snd (sbrk n o)) = brk o) ∨
    (fst (sbrk n o) = brk o ∧ brk (snd (sbrk n o)) = brk o + n ∧ brk o + n < KERNBASE) }.

Section Umalloc.
Context {os : Type} `{Sbrk os}.
(** The address of the variable [base]. *)
Context (base : Z).

Record heap := Heap { hmem : gmap Z header; freep : Z; osys : os }.

Definition hd_at (a : Z) (s : heap) : header := default (Header 0 0) (hmem s !! a).
Definition set_hdr (a : Z) (h : header) : M heap unit :=
  modify (λ s, Heap (<[a := h]> (hmem s)) (freep s) (osys s)).
Definition set_ptr (a p : Z) : M heap unit := h ← gets (hd_at a); set_hdr a (Header p (hsize h)).
Definition set_size (a n : Z) : M heap unit := h ← gets (hd_at a); set_hdr a (Header (hptr h) n).
Definition set_freep (p : Z) : M heap unit := modify (λ s, Heap (hmem s) p (osys s)).

(** The loop of [free] from [p] on. *)
Fixpoint find_place (fuel : nat) (bp p : Z) : M heap Z :=
  n ← gets (λ s, hptr (hd_at p s));
  if ((p <? bp) && (bp <? n))%bool then mret p
  else if ((n <=? p) && ((p <? bp) || (bp <? n)))%bool then mret p
  else match fuel with
       | O => panic "out of fuel"
       | S fuel => find_place fuel bp n
       end.

(** Each turn of the loops visits a header. *)
Definition turns (s : heap) : nat := size (hmem s).

(** The two tests of [free] that join the block to its neighbours. *)
Definition merge_up (bp p : Z) : M heap unit :=
  b ← gets (hd_at bp);
  n ← gets (λ s, hptr (hd_at p s));
  if hplus bp (hsize b) =? n then
    up ← gets (hd_at n);
    set_size bp (u32 (hsize b + hsize up));;
    up ← gets (hd_at n);
    set_ptr bp (hptr up)
  else set_ptr bp n.
Definition merge_down (bp p : Z) : M heap unit :=
  h ← gets (hd_at p);
  if hplus p (hsize h) =? bp then
    b ← gets (hd_at bp);
    set_size p (u32 (hsize h + hsize b));;
    b ← gets (hd_at bp);
    set_ptr p (hptr b)
  else set_ptr p bp.

Definition free (ap : Z) : M heap unit :=
  let bp := hplus ap (-1) in
  f ← gets turns;
  p0 ← gets freep;
  p ← find_place f bp p0;
  merge_up bp p;;
  merge_down bp p;;
  set_freep p.

Definition morecore (nu : Z) : M heap Z :=
  let nu := if nu <? 4096 then 4096 else nu in
  p ← gets (λ s, fst (sbrk (i32 (u32 (nu * sizeof_header))) (osys s)));
  modify (λ s, Heap (hmem s) (freep s) (snd (sbrk (i32 (u32 (nu * sizeof_header))) (osys s))));;
  if p =? u32 (-1) then mret 0
  else
    set_size p nu;;
    free (hplus p 1);;
    gets freep.

(** The branch of [malloc]'s loop that has found a block: the whole block leaves
    the ring, or its upper end becomes a block of its own. *)
Definition take_block (nunits prevp p : Z) : M heap Z :=
  h ← gets (hd_at p);
  r ← (if hsize h =? nunits then
         set_ptr prevp (hptr h);;
         mret p
       else
         let rest := u32 (hsize h - nunits) in
         set_size p rest;;
         set_size (hplus p rest) nunits;;
         mret (hplus p rest));
  set_freep prevp;;
  mret (hplus r 1).

(** The loop of [malloc]. *)
Fixpoint malloc_loop (fuel : nat) (nunits prevp p : Z) : M heap Z :=
  match fuel with
  | O => panic "out of fuel"
  | S fuel =>
      h ← gets (hd_at p);
      if nunits <=? hsize h then take_block nunits prevp p
      else
        f ← gets freep;
        if p =? f then
          p ← morecore nunits;
          if p =? 0 then mret 0
          else
            h ← gets (hd_at p);
            malloc_loop fuel nunits p (hptr h)
        else malloc_loop fuel nunits p (hptr h)
  end.

(** The first call sets up the ring of [base] alone. *)
Definition malloc_init : M heap Z :=
  f ← gets freep;
  if f =? 0 then
    set_freep base;;
    set_ptr base base;;
    set_size base 0;;
    mret base
  else mret f.

Definition nunits_of (nbytes : Z) : Z := u32 (u32 (nbytes + sizeof_header - 1) / sizeof_header + 1).

Definition malloc (nbytes : Z) : M heap Z :=
  let nunits := nunits_of nbytes in
  prevp ← malloc_init;
  p ← gets (λ s, hptr (hd_at prevp s));
  f ← gets turns;
  malloc_loop (2 * f + 2) nunits prevp p.

(** ** The ring of free blocks *)

(** A block is its address and its size.  [seg m l b e]: following the pointers
    from [b] one meets the blocks [l] and comes to [e]. *)
Fixpoint seg (m : gmap Z header) (l : list (Z * Z)) (b e : Z) : Prop :=
  match l with
  | [] => b = e
  | (a, n) :: l => b = a ∧ ∃ nx, m !! a = Some (Header nx n) ∧ seg m l nx e
  end.

Lemma seg_app m l1 l2 b e : seg m (l1 ++ l2) b e ↔ ∃ c, seg m l1 b c ∧ seg m l2 c e.
Proof.
  revert b; induction l1 as [|[a n] l1 IH]; intros b; cbn [app seg]; [naive_solver|].
  split; [|naive_solver]. intros (-> & nx & Hm & (c & H1 & H2)%IH). eauto 8.
Qed.

(** Headers outside the segment may change. *)
Lemma seg_insert m l b e a h : a ∉ l.*1 → seg m l b e → seg (<[a := h]> m) l b e.
Proof.
  revert b; induction l as [|[a' n] l IH]; intros b Ha; cbn [seg fmap list_fmap fst] in *; [done|].
  apply not_elem_of_cons in Ha as [Hne Ha]. intros (-> & nx & Hm & Hs). split; [done|]. exists nx.
  split; [by rewrite lookup_insert_ne|by apply IH].
Qed.

Lemma seg_mem m l b e a n : seg m l b e → (a, n) ∈ l → ∃ nx, m !! a = Some (Header nx n).
Proof.
  revert b; induction l as [|[a' n'] l IH]; intros b Hs Hin; [by apply not_elem_of_nil in Hin|].
  destruct Hs as (-> & nx & Hm & Hs). apply elem_of_cons in Hin as [[= -> ->]|Hin]; eauto.
Qed.

(** A ring can be entered anywhere. *)
Lemma seg_rotate m l1 l2 c : seg m (l1 ++ l2) c c → ∃ d, seg m (l2 ++ l1) d d.
Proof. intros (d & H1 & H2)%seg_app. exists d. apply seg_app. eauto. Qed.

(** Free blocks lie in the order of their addresses, and between two of them is
    something that is not free. *)
Definition below (x y : Z * Z) : Prop := fst x + 8 * snd x < fst y.
Definition disjoint_blocks (x y : Z * Z) : Prop := fst x + 8 * snd x ≤ fst y ∨ fst y + 8 * snd y ≤ fst x.

Definition units (l : list (Z * Z)) : Z := foldr (λ x z, snd x + z) 0 l.

(** A block of the heap that [sbrk] has given. *)
Definition in_heap (s : heap) (x : Z * Z) : Prop :=
  0 < snd x ∧ base + 8 ≤ fst x ∧ fst x + 8 * snd x ≤ brk (osys s).

(** The heap with the free blocks [L], [base] first, and the blocks [A] in use,
    each with its size. *)
Record heap_ok (L : list (Z * Z)) (A : gmap Z Z) (s : heap) : Prop := {
  h_ring : seg (hmem s) L base base;
  h_head : head L = Some (base, 0);
  h_sorted : StronglySorted below L;
  h_freep : freep s ∈ L.*1;
  h_free : Forall (λ x, x = (base, 0) ∨ in_heap s x) L;
  h_used : map_Forall (λ a n, in_heap s (a, n) ∧ hsize (hd_at a s) = n) A;
  h_apart : ∀ a n x, A !! a = Some n → x ∈ L → disjoint_blocks (a, n) x;
  h_disjoint : ∀ a n a' n', A !! a = Some n → A !! a' = Some n' → a ≠ a' → disjoint_blocks (a, n) (a', n');
  h_base : 0 < base ∧ base + 8 ≤ brk (osys s) ∧ brk (osys s) < KERNBASE }.

Lemma hd_at_lookup a s h : hmem s !! a = Some h → hd_at a s = h.
Proof. intros E. unfold hd_at. by rewrite E. Qed.

(** ** The place of a block in the ring *)

Section Place.
Context (s : heap) (bp : Z).
Hypothesis bp_base : base < bp.

Lemma place_next fuel (Q : Z → heap → Prop) w q n :
  hmem s !! q = Some (Header n w) →
  ((q < bp < n ∨ (n ≤ q ∧ (q < bp ∨ bp < n))) ∧ Q q s) ∨
  (¬ (q < bp < n) ∧ ¬ (n ≤ q ∧ (q < bp ∨ bp < n)) ∧ ∃ f, fuel = S f ∧ tot (find_place f bp n) Q s) →
  tot (find_place fuel bp q) Q s.
Proof.
  intros Hq Hc. destruct fuel; cbn [find_place]; tot_step; rewrite (hd_at_lookup _ _ _ Hq); cbn [hptr];
    destruct (Z.ltb_spec q bp), (Z.ltb_spec bp n), (Z.leb_spec n q); cbn [andb orb];
    (destruct Hc as [[? ?]|(? & ? & f & Hf & Hn)]; [|try (injection Hf as <-)]); try done; try lia; tot_step; done.
Qed.

(** From a block before the place the loop walks up to it. *)
Lemma place_up fuel (Q : Z → heap → Prop) w p k v q :
  seg (hmem s) (w ++ (p, k) :: v) q base → StronglySorted below (w ++ (p, k) :: v) →
  Forall (λ x, 0 ≤ snd x) w → base ≤ p < bp → (∀ y, y ∈ v → bp < fst y) → (length w ≤ fuel)%nat →
  Q p s → tot (find_place fuel bp q) Q s.
Proof.
  revert fuel q; induction w as [|[a m] w IH]; intros fuel q Hs Hso Hw Hp Hv Hf HQ; cbn [app seg] in Hs.
  - destruct Hs as (-> & n & Hn & Hs). eapply place_next; [exact Hn|]. left. split; [|done].
    destruct v as [|[a m] v]; cbn [seg] in Hs; [right; lia|]. destruct Hs as [-> _]. left.
    pose proof (Hv (a, m) ltac:(set_solver)) as Hb. cbn [fst] in Hb. lia.
  - destruct Hs as (-> & n & Hn & Hs). apply StronglySorted_cons in Hso as [Hlt Hso].
    apply Forall_cons in Hw as [Hm Hw]. cbn [snd] in Hm.
    assert (a < n ≤ p) as Hnp.
    { destruct w as [|[a' m'] w]; cbn [app seg] in Hs; destruct Hs as [-> _].
      - apply Forall_cons in Hlt as [Hb _]. unfold below in Hb. cbn in Hb. lia.
      - apply Forall_cons in Hlt as [Hb _]. unfold below in Hb. cbn in Hb.
        apply StronglySorted_cons in Hso as [Hlt' _]. rewrite Forall_app, Forall_cons in Hlt'.
        destruct Hlt' as [_ [Hb' _]]. unfold below in Hb'. cbn in Hb'. apply Forall_cons in Hw as [Hm' _]. cbn in Hm'. lia. }
    simpl in Hf. eapply place_next; [exact Hn|]. right. split; [lia|]. split; [lia|].
    exists (pred fuel). split; [lia|]. apply IH; try done. lia.
Qed.

(** From a block above the place it walks to the end of the ring. *)
Lemma place_down fuel (Q : Z → heap → Prop) w q g :
  seg (hmem s) w q base → StronglySorted below w → Forall (λ x, 0 ≤ snd x ∧ bp < fst x) w →
  (length w + g ≤ fuel)%nat → (∀ f, (g ≤ f)%nat → tot (find_place f bp base) Q s) →
  tot (find_place fuel bp q) Q s.
Proof.
  revert fuel q; induction w as [|[a m] w IH]; intros fuel q Hs Hso Hw Hf HQ; cbn [seg] in Hs.
  { subst q. apply HQ. simpl in Hf. lia. }
  destruct Hs as (-> & n & Hn & Hs). apply StronglySorted_cons in Hso as [Hlt Hso].
  apply Forall_cons in Hw as [[Hm Hb] Hw]. cbn [fst snd] in *. simpl in Hf.
  eapply place_next; [exact Hn|]. right. split; [lia|].
  assert (n = base ∨ a < n) as Hcase.
  { destruct w as [|[a' m'] w]; cbn [seg] in Hs; [by left|]. destruct Hs as [-> _]. right.
    apply Forall_cons in Hlt as [Hl _]. unfold below in Hl. cbn in Hl. lia. }
  split; [destruct Hcase; lia|]. exists (pred fuel). split; [lia|]. apply IH; try done. lia.
Qed.
End Place.

Lemma place_split bp L x :
  StronglySorted below (x :: L) → Forall (λ x, 0 ≤ snd x) (x :: L) → fst x < bp → bp ∉ L.*1 →
  ∃ u p k v, x :: L = u ++ (p, k) :: v ∧ fst x ≤ p < bp ∧ ∀ y, y ∈ v → bp < fst y.
Proof.
  revert x; induction L as [|y L IH]; intros x Hs Hz Hx Hn.
  { destruct x as [p k]. exists [], p, k, []. cbn [fst] in *. split; [done|]. split; [lia|]. set_solver. }
  apply StronglySorted_cons in Hs as [Hlt Hs]. apply Forall_cons in Hz as [Hx0 Hz].
  rewrite fmap_cons, not_elem_of_cons in Hn. destruct Hn as [Hne Hn].
  assert (fst x < fst y) as Hxy by (apply Forall_cons in Hlt as [Hb _]; unfold below in Hb; lia).
  destruct (decide (fst y < bp)) as [Hy|Hy].
  - destruct (IH y) as (u & p & k & v & E & Hp & Hv); try done. exists (x :: u), p, k, v.
    split; [by rewrite E|]. split; [lia|done].
  - destruct x as [p k]. exists [], p, k, (y :: L). cbn [fst] in *. split; [done|]. split; [lia|].
    apply StronglySorted_cons in Hs as [Hlt' _]. apply Forall_cons in Hz as [Hy0 _].
    intros z [->|Hz']%elem_of_cons; [lia|]. rewrite Forall_forall in Hlt'. specialize (Hlt' z Hz').
    unfold below in Hlt'. lia.
Qed.

Lemma sorted_nodup L : StronglySorted below L → Forall (λ x, 0 ≤ snd x) L → NoDup L.*1.
Proof.
  induction L as [|x L IH]; intros Hs Hz; [constructor|]. apply StronglySorted_cons in Hs as [Hlt Hs].
  apply Forall_cons in Hz as [Hx Hz]. rewrite fmap_cons. constructor; [|by apply IH].
  intros (y & Hy & Hin)%list_elem_of_fmap. rewrite Forall_forall in Hlt. specialize (Hlt y Hin).
  unfold below in Hlt. lia.
Qed.

Lemma seg_size m L b e : seg m L b e → NoDup L.*1 → (length L ≤ size m)%nat.
Proof.
  intros Hs Hn. rewrite <- (length_fmap fst L), <- (size_list_to_set (C := gset Z)) by done.
  rewrite <- size_dom. apply subseteq_size. intros a. rewrite elem_of_list_to_set, elem_of_dom.
  intros ([a' n] & -> & Hin)%list_elem_of_fmap. destruct (seg_mem _ _ _ _ _ _ Hs Hin) as [nx Hx]. by exists (Header nx n).
Qed.

Lemma ok_sizes L A s : heap_ok L A s → Forall (λ x, 0 ≤ snd x) L.
Proof. intros Hh. eapply Forall_impl; [apply (h_free _ _ _ Hh)|]. intros x [->|(? & _)]; [done|lia]. Qed.
Lemma ok_nodup L A s : heap_ok L A s → NoDup L.*1.
Proof. intros Hh. apply sorted_nodup; [apply Hh|by eapply ok_sizes]. Qed.
Lemma ok_turns L A s : heap_ok L A s → (length L ≤ turns s)%nat.
Proof. intros Hh. eapply seg_size; [apply Hh|by eapply ok_nodup]. Qed.
Lemma ok_cons L A s : heap_ok L A s → ∃ L', L = (base, 0) :: L'.
Proof. intros Hh. pose proof (h_head _ _ _ Hh). destruct L; naive_solver. Qed.

(** The loop of [free] ends at the last block below [bp]. *)
Lemma find_place_ok L A s bp :
  heap_ok L A s → base < bp → bp ∉ L.*1 →
  ∃ u p k v, L = u ++ (p, k) :: v ∧ base ≤ p < bp ∧ (∀ y, y ∈ v → bp < fst y) ∧
    ∀ (Q : Z → heap → Prop), Q p s → tot (find_place (turns s) bp (freep s)) Q s.
Proof.
  intros Hh Hb Hn. destruct (ok_cons _ _ _ Hh) as [L' ->].
  destruct (place_split bp L' (base, 0)) as (u & p & k & v & E & Hp & Hv);
    [apply Hh|by eapply ok_sizes|done|set_solver|].
  exists u, p, k, v. split; [done|]. split; [done|]. split; [done|]. intros Q HQ.
  pose proof (h_ring _ _ _ Hh) as Hr. pose proof (h_sorted _ _ _ Hh) as Hso. pose proof (ok_sizes _ _ _ Hh) as Hz.
  pose proof (ok_turns _ _ _ Hh) as Ht. pose proof (h_freep _ _ _ Hh) as Hf. rewrite E in *. cbn [fst] in *.
  apply list_elem_of_fmap in Hf as ([q j] & -> & Hin). cbn [fst].
  rewrite length_app in Ht. cbn [length] in Ht.
  assert (∀ f, (length u ≤ f)%nat → tot (find_place f bp base) Q s) as Hstart.
  { intros f Hf. eapply (place_up s bp Hb f Q u p k v base); try done. by apply Forall_app in Hz as [? _]. }
  apply elem_of_app in Hin as [Hin|Hin].
  - apply list_elem_of_split in Hin as (u1 & u2 & ->). rewrite <- app_assoc in *. cbn [app] in *.
    apply seg_app in Hr as (c & _ & Hr). assert (c = q) as -> by (cbn [seg] in Hr; tauto).
    apply StronglySorted_app_1_r in Hso. apply Forall_app in Hz as [_ Hz].
    eapply (place_up s bp Hb _ Q ((q, j) :: u2)); [exact Hr|exact Hso| |done|done| |done].
    + change ((q, j) :: u2 ++ (p, k) :: v) with (((q, j) :: u2) ++ (p, k) :: v) in Hz. by apply Forall_app in Hz as [? _].
    + rewrite length_app in Ht. simpl in *. lia.
  - apply elem_of_cons in Hin as [[= -> ->]|Hin].
    { apply seg_app in Hr as (c & _ & Hr). assert (c = p) as -> by (cbn [seg] in Hr; tauto).
      apply StronglySorted_app_1_r in Hso. eapply (place_up s bp Hb _ Q []); try done. simpl. lia. }
    apply list_elem_of_split in Hin as (v1 & v2 & ->).
    change (u ++ (p, k) :: v1 ++ (q, j) :: v2) with (u ++ ((p, k) :: v1) ++ (q, j) :: v2) in *.
    rewrite app_assoc in Hr, Hso, Hz. apply seg_app in Hr as (c & _ & Hr). assert (c = q) as -> by (cbn [seg] in Hr; tauto).
    apply StronglySorted_app_1_r in Hso. apply Forall_app in Hz as [_ Hz]. rewrite length_app in Ht. cbn [length] in Ht.
    eapply (place_down s bp Hb _ Q ((q, j) :: v2) q (length u)); [exact Hr|exact Hso| |cbn [length]; lia|done].
    rewrite Forall_forall in Hz |- *. intros y Hy. split; [by apply Hz|]. apply Hv. set_solver.
Qed.

(** ** Freeing a block *)

Definition with_hdr (a : Z) (h : header) (s : heap) : heap := Heap (<[a := h]> (hmem s)) (freep s) (osys s).

Lemma tot_set_ptr a p (Q : unit → heap → Prop) s :
  Q tt (with_hdr a (Header p (hsize (hd_at a s))) s) → tot (set_ptr a p) Q s.
Proof. intros HQ. unfold set_ptr, set_hdr. tot_step. by apply tot_modify. Qed.
Lemma tot_set_size a n (Q : unit → heap → Prop) s :
  Q tt (with_hdr a (Header (hptr (hd_at a s)) n) s) → tot (set_size a n) Q s.
Proof. intros HQ. unfold set_size, set_hdr. tot_step. by apply tot_modify. Qed.

Lemma hd_at_with a h s : hd_at a (with_hdr a h s) = h.
Proof. unfold hd_at, with_hdr. cbn [hmem]. by rewrite lookup_insert_eq. Qed.
Lemma hd_at_with_ne a b h s : a ≠ b → hd_at a (with_hdr b h s) = hd_at a s.
Proof. intros Hne. unfold hd_at, with_hdr. cbn [hmem]. by rewrite lookup_insert_ne. Qed.
Lemma with_hdr_twice a h h' s : with_hdr a h (with_hdr a h' s) = with_hdr a h s.
Proof. unfold with_hdr. cbn. by rewrite insert_insert_eq. Qed.

Lemma hplus_small p n : 0 ≤ p + 8 * n < 4294967296 → hplus p n = p + 8 * n.
Proof. intros Hp. unfold hplus, sizeof_header. rewrite u32_small; lia. Qed.

(** The header that [merge_up] gives the block, [q1] and [n1], and the blocks
    [v1] above it. *)
Lemma merge_up_ok bp p n k q v s :
  hd_at p s = Header q k → hsize (hd_at bp s) = n → seg (hmem s) v q base → bp ∉ v.*1 →
  base < bp → 0 < n → StronglySorted below v →
  Forall (λ x, 0 < snd x ∧ bp + 8 * n ≤ fst x ∧ fst x + 8 * snd x < KERNBASE) v → bp + 8 * n < KERNBASE → 0 < base →
  ∃ q1 n1 v1, seg (hmem s) v1 q1 base ∧ (∀ y, y ∈ v1 → bp + 8 * n1 < fst y) ∧
    ((v1 = v ∧ n1 = n) ∨ (∃ k', v = (bp + 8 * n, k') :: v1 ∧ n1 = n + k')) ∧
    ∀ Q : unit → heap → Prop, Q tt (with_hdr bp (Header q1 n1) s) → tot (merge_up bp p) Q s.
Proof.
  intros Hp Hn Hs Hbv Hb Hn0 Hso Hv Hk H0. unfold KERNBASE in *.
  assert (∀ Q, tot (if hplus bp n =? q
      then up ← gets (hd_at q); set_size bp (u32 (n + hsize up));; up ← gets (hd_at q); set_ptr bp (hptr up)
      else set_ptr bp q) Q s → tot (merge_up bp p) Q s) as Hgo.
  { intros Q HQ. unfold merge_up. do 2 tot_step. by rewrite Hp, Hn. }
  rewrite hplus_small in Hgo by lia. destruct (Z.eqb_spec (bp + 8 * n) q) as [<-|Hne].
  - destruct v as [|[a k'] v]; cbn [seg] in Hs; [lia|]. destruct Hs as (<- & q1 & Hq1 & Hs).
    apply Forall_cons in Hv as [(Hk0 & _ & Hk1) Hv]. cbn [fst snd] in *. apply StronglySorted_cons in Hso as [Hlt _].
    exists q1, (n + k'), v. split; [done|]. split.
    { intros y Hy. rewrite Forall_forall in Hlt. specialize (Hlt y Hy). unfold below in Hlt. cbn in Hlt. lia. }
    split; [right; by exists k'|]. intros Q HQ. apply Hgo. tot_step. rewrite (hd_at_lookup _ _ _ Hq1). cbn [hsize].
    apply tot_bind, tot_set_size. tot_step. rewrite hd_at_with_ne, (hd_at_lookup _ _ _ Hq1) by lia. cbn [hptr].
    apply tot_set_ptr. rewrite hd_at_with, with_hdr_twice. cbn [hsize]. by rewrite u32_small by lia.
  - exists q, n, v. split; [done|]. split.
    { intros y Hy. rewrite Forall_forall in Hv. pose proof (Hv y Hy) as (_ & Hge & _).
      destruct v as [|[a k'] v]; [set_solver|]. cbn [seg] in Hs. destruct Hs as [-> _].
      apply StronglySorted_cons in Hso as [Hlt _]. pose proof (Hv (a, k') ltac:(set_solver)) as (Hk0 & Ha & _). cbn in Ha, Hk0.
      apply elem_of_cons in Hy as [->|Hy]; [cbn; lia|]. rewrite Forall_forall in Hlt. specialize (Hlt y Hy).
      unfold below in Hlt. cbn in Hlt. lia. }
    split; [by left|]. intros Q HQ. apply Hgo. apply tot_set_ptr. by rewrite Hn.
Qed.

Lemma merge_down_ok bp p n k q q1 s (Q : unit → heap → Prop) :
  hd_at p s = Header q k → hd_at bp s = Header q1 n → p ≠ bp → 0 ≤ p → 0 ≤ k → 0 ≤ n →
  p + 8 * k ≤ bp → bp + 8 * n < KERNBASE →
  Q tt (with_hdr p (if p + 8 * k =? bp then Header q1 (k + n) else Header bp k) s) → tot (merge_down bp p) Q s.
Proof.
  intros Hp Hb Hne H0 Hk Hn Hle Hbk HQ. unfold merge_down, KERNBASE in *. tot_step. rewrite Hp. cbn [hsize].
  rewrite hplus_small by lia. destruct (Z.eqb_spec (p + 8 * k) bp) as [E|E].
  - tot_step. rewrite Hb. cbn [hsize]. rewrite u32_small by lia. apply tot_bind, tot_set_size. tot_step.
    rewrite hd_at_with_ne, Hb by done. cbn [hptr]. apply tot_set_ptr. by rewrite hd_at_with, with_hdr_twice.
  - apply tot_set_ptr. by rewrite Hp.
Qed.

Lemma used_not_free L A s a n k : heap_ok L A s → A !! a = Some n → (a, k) ∉ L.
Proof.
  intros Hh Ha Hin. pose proof (h_apart _ _ _ Hh _ _ _ Ha Hin) as Hd. unfold disjoint_blocks in Hd. cbn in Hd.
  destruct (h_used _ _ _ Hh _ _ Ha) as [(Hn & Hb & _) _]. cbn in Hn, Hb.
  pose proof (h_free _ _ _ Hh) as Hf. rewrite Forall_forall in Hf. destruct (Hf _ Hin) as [[= ->]|(Hk & _)]; cbn in *; lia.
Qed.
Lemma used_not_in_ring L A s a n : heap_ok L A s → A !! a = Some n → a ∉ L.*1.
Proof. intros Hh Ha ([a' k] & -> & Hin)%list_elem_of_fmap. by eapply used_not_free. Qed.

(** The situation of [free]: block [bp] of [n] headers goes between [p] and [v],
    and [n1], [v1] are its size and the blocks above it when it has been joined
    to the first of [v] if that is its neighbour. *)
Section Join.
Context (u : list (Z * Z)) (p k : Z) (v : list (Z * Z)) (A : gmap Z Z) (s : heap) (bp n n1 q1 : Z) (v1 : list (Z * Z)).
Hypothesis ok : heap_ok (u ++ (p, k) :: v) A s.
Hypothesis used : A !! bp = Some n.
Hypothesis place : base ≤ p < bp ∧ ∀ y, y ∈ v → bp < fst y.
Hypothesis ring1 : seg (hmem s) v1 q1 base.
Hypothesis above : ∀ y, y ∈ v1 → bp + 8 * n1 < fst y.
Hypothesis joined : (v1 = v ∧ n1 = n) ∨ (∃ k', v = (bp + 8 * n, k') :: v1 ∧ n1 = n + k').

Definition join : bool := p + 8 * k =? bp.
Definition joined_list : list (Z * Z) := u ++ (if join then (p, k + n1) :: v1 else (p, k) :: (bp, n1) :: v1).
Definition joined_heap : heap :=
  Heap (<[p := if join then Header q1 (k + n1) else Header bp k]> (<[bp := Header q1 n1]> (hmem s))) p (osys s).

Lemma joined_sub y : y ∈ v1 → y ∈ v.
Proof using joined. clear ok used place ring1 above. destruct joined as [[-> _]|(k' & -> & _)]; set_solver. Qed.
Lemma place_size : 0 ≤ k ∧ p + 8 * k ≤ bp ∧ 0 < n.
Proof using ok used place. clear ring1 above joined.
  destruct (h_used _ _ _ ok _ _ used) as [(Hn & _) _]. cbn in Hn.
  assert ((p, k) ∈ u ++ (p, k) :: v) as Hin by set_solver.
  pose proof (h_apart _ _ _ ok _ _ _ used Hin) as Hd. unfold disjoint_blocks in Hd. cbn in Hd.
  pose proof (ok_sizes _ _ _ ok) as Hz. rewrite Forall_forall in Hz. specialize (Hz _ Hin). cbn in Hz. lia.
Qed.

Lemma joined_sorted : StronglySorted below joined_list.
Proof using ok used place above joined. clear ring1.
  pose proof (h_sorted _ _ _ ok) as Hs. pose proof place_size as (Hk & Hpb & Hn).
  apply StronglySorted_app in Hs as (Hu & Hsu & Hpv). apply StronglySorted_cons in Hpv as [Hpv Hsv].
  rewrite Forall_forall in Hpv.
  assert (StronglySorted below v1) as Hsv1.
  { destruct joined as [[-> _]|(k' & -> & _)]; [done|]. by apply StronglySorted_cons in Hsv as [_ ?]. }
  assert (∀ x, x ∈ u → fst x + 8 * snd x < p) as Hup by (intros x Hx; apply (Hu x (p, k)); set_solver).
  unfold joined_list, join. apply StronglySorted_app. split; [|split; [done|]].
  - intros x y Hx Hy. specialize (Hup x Hx). unfold below.
    destruct (Z.eqb_spec (p + 8 * k) bp); rewrite !elem_of_cons in Hy;
      (destruct Hy as [->|Hy]; [done|]); [|destruct Hy as [->|Hy]; [cbn; lia|]];
      apply (Hu x y Hx); apply elem_of_cons; right; by apply joined_sub.
  - assert (Forall (below (bp, n1)) v1) as Hb1 by (apply Forall_forall; intros y Hy; by apply above).
    destruct (Z.eqb_spec (p + 8 * k) bp) as [E|E]; apply StronglySorted_cons.
    + split; [|done]. eapply Forall_impl; [exact Hb1|]. intros y. unfold below. cbn. lia.
    + split; [|by apply StronglySorted_cons]. apply Forall_cons. split; [unfold below; cbn; lia|].
      apply Forall_forall. intros y Hy. by apply Hpv, joined_sub.
Qed.

Lemma joined_ring : seg (hmem joined_heap) joined_list base base.
Proof using ok used place ring1 joined. clear above.
  pose proof (h_ring _ _ _ ok) as Hr. pose proof (ok_nodup _ _ _ ok) as Hnd. pose proof (used_not_in_ring _ _ _ _ _ ok used) as Hbp.
  rewrite fmap_app, fmap_cons in Hnd, Hbp. cbn [fst] in Hnd, Hbp. apply NoDup_app in Hnd as (_ & Hu & Hpv).
  apply NoDup_cons in Hpv as [Hpv _].
  assert (p ∉ v1.*1 ∧ bp ∉ v1.*1) as [Hp1 Hb1].
  { split; intros (y & Hy & Hin%joined_sub)%list_elem_of_fmap; [apply Hpv|apply Hbp; rewrite elem_of_app, elem_of_cons; right; right];
      rewrite Hy; by apply list_elem_of_fmap_2. }
  apply seg_app in Hr as (c & Hr1 & Hr2). cbn [seg] in Hr2. destruct Hr2 as (-> & q & Hq & _).
  unfold joined_list, joined_heap. cbn [hmem]. apply seg_app. exists p. split.
  { apply seg_insert; [set_solver|]. apply seg_insert; [set_solver|done]. }
  assert (∀ h, seg (<[p := h]> (<[bp := Header q1 n1]> (hmem s))) v1 q1 base) as Hv1.
  { intros h. by apply seg_insert, seg_insert. }
  destruct join; cbn [seg].
  - split; [done|]. exists q1. by rewrite lookup_insert_eq.
  - split; [done|]. exists bp. rewrite lookup_insert_eq. split; [done|]. split; [done|]. exists q1.
    rewrite lookup_insert_ne, lookup_insert_eq by (destruct place; lia). done.
Qed.

(** The block with what has been joined to it above. *)
Lemma joined_block : in_heap s (bp, n1) ∧ n ≤ n1 ∧
  ∀ a x, A !! a = Some x → a ≠ bp → disjoint_blocks (a, x) (bp, n1).
Proof using ok used joined. clear place ring1 above.
  destruct (h_used _ _ _ ok _ _ used) as [Hb _]. pose proof (h_free _ _ _ ok) as Hf.
  destruct joined as [[_ ->]|(k' & Hv & ->)].
  { split; [done|]. split; [lia|]. intros a x Ha Hne. by eapply (h_disjoint _ _ _ ok). }
  assert ((bp + 8 * n, k') ∈ u ++ (p, k) :: v) as Hin by (rewrite Hv; set_solver).
  rewrite Forall_forall in Hf. unfold in_heap in *. cbn in Hb. destruct (Hf _ Hin) as [[= ? _]|(Hk & _ & Hle)]; [lia|]. cbn in Hk, Hle.
  split; [cbn; lia|]. split; [lia|]. intros a x Ha Hne.
  destruct (h_used _ _ _ ok _ _ Ha) as [(Hx & _) _]. cbn in Hx.
  pose proof (h_disjoint _ _ _ ok _ _ _ _ Ha used Hne) as H1. pose proof (h_apart _ _ _ ok _ _ _ Ha Hin) as H2.
  unfold disjoint_blocks in *. cbn in *. lia.
Qed.

Lemma joined_elem y : y ∈ joined_list →
  (y ∈ u ++ (p, k) :: v) ∨ (y = (bp, n1) ∧ join = false) ∨ (y = (p, k + n1) ∧ join = true).
Proof using joined. clear ok used place ring1 above.
  unfold joined_list. rewrite elem_of_app. intros [Hy|Hy]; [left; set_solver|].
  destruct join; rewrite !elem_of_cons in Hy; destruct_or?; subst; auto; left; apply elem_of_app; right;
    apply elem_of_cons; auto using joined_sub.
Qed.

Lemma joined_ok : heap_ok joined_list (delete bp A) joined_heap.
Proof using ok used place ring1 above joined.
  pose proof joined_block as (Hbl & _ & Hdis). pose proof place_size as (Hk & Hpb & Hn).
  assert ((p, k) ∈ u ++ (p, k) :: v) as Hin by set_solver. pose proof (h_free _ _ _ ok) as Hf. rewrite Forall_forall in Hf.
  unfold in_heap in Hbl. cbn in Hbl. destruct Hbl as (Hn1 & Hb1 & He1).
  split.
  - apply joined_ring.
  - pose proof (h_head _ _ _ ok) as Hh. unfold joined_list. destruct u as [|x u']; [|done]. simpl in Hh.
    injection Hh as -> ->. unfold join. by rewrite (proj2 (Z.eqb_neq _ _)) by lia.
  - apply joined_sorted.
  - unfold joined_list. cbn [freep joined_heap]. rewrite fmap_app. apply elem_of_app. right. destruct join; set_solver.
  - apply Forall_forall. intros y [Hy|[[-> _]|[-> Hj]]]%joined_elem; [by apply Hf|right; done|].
    right. unfold join in Hj. apply Z.eqb_eq in Hj. unfold in_heap. cbn [fst snd osys joined_heap].
    destruct (Hf _ Hin) as [[= -> ->]|(? & ? & ?)]; cbn in *; lia.
  - intros a x [Hne Ha]%lookup_delete_Some. destruct (h_used _ _ _ ok _ _ Ha) as [Hx Hs]. split; [done|].
    unfold hd_at, joined_heap. cbn [hmem]. rewrite !lookup_insert_ne; [done|done|].
    intros <-. by apply (used_not_free _ _ _ _ _ k ok Ha).
  - intros a x y [Hne Ha]%lookup_delete_Some [Hy|[[-> _]|[-> Hj]]]%joined_elem; [by eapply (h_apart _ _ _ ok)|by apply Hdis|].
    pose proof (h_apart _ _ _ ok _ _ _ Ha Hin) as H1. pose proof (Hdis _ _ Ha ltac:(done)) as H2. unfold join in Hj. apply Z.eqb_eq in Hj.
    destruct (h_used _ _ _ ok _ _ Ha) as [(Hx & _) _]. unfold disjoint_blocks in *. cbn in *. lia.
  - intros a x a' x' [_ Ha]%lookup_delete_Some [_ Ha']%lookup_delete_Some. by apply (h_disjoint _ _ _ ok).
  - apply ok.
Qed.

Lemma units_app l1 l2 : units (l1 ++ l2) = units l1 + units l2.
Proof. unfold units. induction l1; simpl; lia. Qed.

Lemma joined_units : units joined_list = units (u ++ (p, k) :: v) + n.
Proof using joined. clear ok used place ring1 above.
  unfold joined_list. rewrite !units_app. destruct joined as [[-> ->]|(k' & -> & ->)]; destruct join; simpl; lia.
Qed.

Lemma joined_length : (length joined_list ≤ S (length (u ++ (p, k) :: v)))%nat.
Proof using joined. clear ok used place ring1 above.
  unfold joined_list. rewrite !length_app. destruct joined as [[-> _]|(k' & -> & _)]; destruct join; simpl; lia.
Qed.

Lemma joined_fits : ∃ x, x ∈ joined_list ∧ n ≤ snd x.
Proof using ok used place joined. clear ring1 above.
  pose proof joined_block as (_ & Hn & _). pose proof place_size as (Hk & _). unfold joined_list.
  destruct join; eexists; (split; [apply elem_of_app; right; apply elem_of_cons|]).
  - by left.
  - cbn. lia.
  - right. apply elem_of_cons. by left.
  - done.
Qed.
End Join.

(** [free] of a block in use: it becomes free, and the blocks in use are the
    others. *)
Lemma free_ok L A s bp n :
  heap_ok L A s → A !! bp = Some n →
  tot (free (bp + 8)) (λ _ s', ∃ L', heap_ok L' (delete bp A) s' ∧ units L' = units L + n ∧
    osys s' = osys s ∧ (length L' ≤ S (length L))%nat ∧ ∃ x, x ∈ L' ∧ n ≤ snd x) s.
Proof.
  intros Hh Ha. destruct (h_used _ _ _ Hh _ _ Ha) as [(Hn & Hb & He) Hsz]. cbn in Hn, Hb, He.
  pose proof (h_base _ _ _ Hh) as (H0 & _ & Hk).
  unfold free. rewrite hplus_small by (unfold KERNBASE in *; lia). replace (bp + 8 + 8 * -1) with bp by lia.
  destruct (find_place_ok L A s bp) as (u & p & k & v & -> & Hp & Hv & Hfind);
    [done|lia|by eapply used_not_in_ring|]. do 2 tot_step.
  apply tot_bind, Hfind. pose proof (place_size u p k v A s bp n Hh Ha (conj Hp Hv)) as (Hk0 & Hpb & _).
  pose proof (h_ring _ _ _ Hh) as Hr. apply seg_app in Hr as (c & _ & Hr). cbn [seg] in Hr. destruct Hr as (-> & q & Hq & Hr).
  pose proof (used_not_in_ring _ _ _ _ _ Hh Ha) as Hbr. pose proof (h_free _ _ _ Hh) as Hf.
  pose proof (h_sorted _ _ _ Hh) as Hso. apply StronglySorted_app_1_r, StronglySorted_cons in Hso as [_ Hso].
  destruct (merge_up_ok bp p n k q v s) as (q1 & n1 & v1 & Hr1 & Hab & Hj & Hup); try done.
  { by apply hd_at_lookup. } { rewrite fmap_app, fmap_cons in Hbr. set_solver. } { lia. }
  { apply Forall_forall. intros y Hy. assert (y ∈ u ++ (p, k) :: v) as Hin by set_solver.
    rewrite Forall_forall in Hf. pose proof (Hv y Hy). pose proof (h_apart _ _ _ Hh _ _ _ Ha Hin) as Hd.
    unfold disjoint_blocks in Hd. cbn in Hd. destruct (Hf y Hin) as [->|(? & ? & ?)]; cbn in *; lia. }
  { lia. }
  apply tot_bind, Hup. pose proof (joined_block u p k v A s bp n n1 v1 Hh Ha Hj) as ((? & ? & Hbk) & Hnn & _). cbn in Hbk.
  eapply tot_bind, (merge_down_ok bp p n1 k q q1); try lia.
  { rewrite hd_at_with_ne by lia. by apply hd_at_lookup. } { apply hd_at_with. }
  apply tot_modify. exists (joined_list u p k bp n1 v1).
  split; [by apply (joined_ok u p k v A s bp n n1 q1 v1)|]. split; [by apply (joined_units u p k v bp n)|]. split; [done|].
  split; [by apply (joined_length u p k v bp n)|].
  by apply (joined_fits u p k v A s bp n).
Qed.

(** ** Taking a block *)

(** What a successful [malloc] leaves. *)
Definition taken (L : list (Z * Z)) (A : gmap Z Z) (s : heap) (nunits r : Z) (s' : heap) : Prop :=
  ∃ a L', r = a + 8 ∧ A !! a = None ∧ heap_ok L' (<[a := nunits]> A) s' ∧ units L' = units L - nunits ∧
    osys s' = osys s.

Lemma seg_last m l x k b e : seg m (l ++ [(x, k)]) b e → m !! x = Some (Header e k).
Proof. intros (c & _ & Hs)%seg_app. cbn [seg] in Hs. destruct Hs as (-> & nx & Hx & ->). done. Qed.

Lemma seg_lookup m l b e i a n :
  seg m l b e → l !! i = Some (a, n) →
  m !! a = Some (Header (match l !! S i with Some y => fst y | None => e end) n).
Proof.
  revert b i; induction l as [|[a' n'] l IH]; intros b i Hs Hi; [done|]. destruct Hs as (-> & nx & Hm & Hs).
  destruct i as [|i]; cbn [lookup list_lookup] in Hi |- *; [|by eapply IH]. simplify_eq.
  destruct l as [|[a' n'] l]; cbn [seg] in Hs; [by subst|]. destruct Hs as [-> _]. done.
Qed.

(** In the ring a block has one predecessor. *)
Lemma ring_pred A s u q k p n v x :
  heap_ok (u ++ (q, k) :: (p, n) :: v) A s → x ∈ (u ++ (q, k) :: (p, n) :: v).*1 → hptr (hd_at x s) = p → x = q.
Proof.
  set (L := u ++ (q, k) :: (p, n) :: v). intros Hh Hx Hp. pose proof (ok_nodup _ _ _ Hh) as Hnd.
  assert (L.*1 !! length u = Some q ∧ L.*1 !! S (length u) = Some p) as [Hq Hpl].
  { unfold L. split; rewrite list_lookup_fmap, lookup_app_r by lia; [by rewrite Nat.sub_diag|].
    replace (S (length u) - length u)%nat with 1%nat by lia. done. }
  apply list_elem_of_lookup in Hx as [i Hi]. rewrite list_lookup_fmap in Hi. destruct (L !! i) as [[x' m]|] eqn:E; simplify_eq/=.
  pose proof (seg_lookup _ _ _ _ _ _ _ (h_ring _ _ _ Hh) E) as Hm. rewrite (hd_at_lookup _ _ _ Hm) in Hpl. cbn [hptr] in Hpl.
  destruct (L !! S i) as [y|] eqn:Ey.
  - assert (L.*1 !! S i = Some (fst y)) as Ei by (by rewrite list_lookup_fmap, Ey).
    pose proof (NoDup_lookup _ _ _ _ Hnd Ei Hpl) as Hij. injection Hij as ->.
    rewrite list_lookup_fmap, E in Hq. by injection Hq.
  - pose proof (h_head _ _ _ Hh) as Hhd. destruct L as [|z L0] eqn:EL; [done|]. simpl in Hhd. injection Hhd as ->.
    pose proof (NoDup_lookup _ 0%nat _ _ Hnd eq_refl Hpl). done.
Qed.

(** A block of the ring that is not [base] has one. *)
Lemma ring_split L A s p n : heap_ok L A s → (p, n) ∈ L → 0 < n → ∃ u q k v, L = u ++ (q, k) :: (p, n) :: v.
Proof.
  intros Hh (u & v & ->)%list_elem_of_split Hn. pose proof (h_head _ _ _ Hh) as Hhd.
  destruct u as [|x u _] using rev_ind; [simpl in Hhd; injection Hhd; lia|]. destruct x as [q k].
  exists u, q, k, v. by rewrite <- app_assoc.
Qed.

(** Carving the block [(a, n)] out of the free block [x0]: the free blocks are
    old ones and what is left of [x0], and none of them meets [(a, n)]. *)
Lemma carve_ok L A s x0 a n L' s' :
  heap_ok L A s → x0 ∈ L → fst x0 ≤ a → a + 8 * n ≤ fst x0 + 8 * snd x0 → 0 < n →
  (∀ y, y ∈ L' → disjoint_blocks (a, n) y ∧ (y ∈ L ∨ (0 < snd y ∧ fst y = fst x0 ∧ snd y ≤ snd x0))) →
  seg (hmem s') L' base base → head L' = Some (base, 0) → StronglySorted below L' → freep s' ∈ L'.*1 →
  osys s' = osys s → (∀ b m, A !! b = Some m → hsize (hd_at b s') = hsize (hd_at b s)) → hsize (hd_at a s') = n →
  A !! a = None ∧ heap_ok L' (<[a := n]> A) s'.
Proof.
  intros Hh Hx Ha Hn Hn0 HL Hr Hhd Hso Hfp Hos Hsz Hsa. pose proof (h_free _ _ _ Hh) as Hf. rewrite Forall_forall in Hf.
  destruct (Hf _ Hx) as [->|(H0 & Hb & He)]; [cbn in *; lia|].
  assert (∀ b m, A !! b = Some m → disjoint_blocks (b, m) (a, n)) as Hd.
  { intros b m Hbm. pose proof (h_apart _ _ _ Hh _ _ _ Hbm Hx) as Hd. unfold disjoint_blocks in *. cbn in *. lia. }
  assert (A !! a = None) as HA.
  { destruct (A !! a) as [m|] eqn:E; [|done]. destruct (h_used _ _ _ Hh _ _ E) as [(Hm & _) _].
    specialize (Hd _ _ E). unfold disjoint_blocks in Hd. cbn in *. lia. }
  split; [done|]. split; [done|done|done|done| | | | |].
  - apply Forall_forall. intros y Hy. unfold in_heap. rewrite Hos. destruct (HL y Hy) as [_ [Hin|(? & ? & ?)]]; [by apply Hf|right; lia].
  - unfold in_heap. rewrite Hos. apply map_Forall_insert_2; [cbn; split; [lia|done]|]. intros b m Hbm. rewrite (Hsz _ _ Hbm).
    apply (h_used _ _ _ Hh _ _ Hbm).
  - intros b m y Hbm Hy. destruct (HL y Hy) as [Hy1 Hy2]. apply lookup_insert_Some in Hbm as [[-> <-]|[_ Hbm]]; [done|].
    destruct Hy2 as [Hin|(? & ? & ?)]; [by apply (h_apart _ _ _ Hh)|].
    pose proof (h_apart _ _ _ Hh _ _ _ Hbm Hx) as Hd'. unfold disjoint_blocks in *. cbn in *. lia.
  - intros b m b' m' [[<- <-]|[Hne Hbm]]%lookup_insert_Some [[<- <-]|[Hne' Hbm']]%lookup_insert_Some Hbb; [done| | |].
    + specialize (Hd _ _ Hbm'). unfold disjoint_blocks in *. cbn in *. lia.
    + by apply Hd.
    + by apply (h_disjoint _ _ _ Hh).
  - rewrite Hos. apply Hh.
Qed.

Lemma take_exact L A s nunits prevp p :
  heap_ok L A s → (p, nunits) ∈ L → 0 < nunits → prevp ∈ L.*1 → hptr (hd_at prevp s) = p →
  tot (take_block nunits prevp p) (taken L A s nunits) s.
Proof.
  intros Hh Hin Hn Hpv Hpp. destruct (ring_split _ _ _ _ _ Hh Hin Hn) as (u & q & k & v & ->).
  pose proof (ring_pred _ _ _ _ _ _ _ _ _ Hh Hpv Hpp) as ->. pose proof (ok_nodup _ _ _ Hh) as Hnd.
  pose proof (h_free _ _ _ Hh) as Hf. rewrite Forall_forall in Hf.
  destruct (Hf _ Hin) as [[= -> Hx]|(_ & Hb & He)]; [lia|]. cbn in Hb, He. pose proof (h_base _ _ _ Hh) as (H0 & _ & Hk).
  pose proof (h_ring _ _ _ Hh) as (c & Hr1 & Hr2)%seg_app. cbn [seg] in Hr2.
  destruct Hr2 as (-> & p' & Hq & -> & nx & Hp & Hr). pose proof (h_sorted _ _ _ Hh) as Hso.
  apply StronglySorted_app in Hso as (H1 & H2 & H3). rewrite !StronglySorted_cons, Forall_cons, !Forall_forall in H3.
  destruct H3 as ((H3 & H4) & H5 & H6). rewrite fmap_app, !fmap_cons in Hnd. cbn [fst] in Hnd.
  apply NoDup_app in Hnd as (_ & Hu & Hnd). apply NoDup_cons in Hnd as [Hnq Hnd].
  unfold take_block. tot_step. rewrite (hd_at_lookup _ _ _ Hp). cbn [hsize hptr]. rewrite Z.eqb_refl.
  apply tot_bind, tot_bind, tot_set_ptr. tot_step. rewrite (hd_at_lookup _ _ _ Hq). cbn [hsize].
  apply tot_bind, tot_modify. tot_step. rewrite hplus_small by (unfold KERNBASE in *; lia).
  exists p, (u ++ (q, k) :: v). split; [lia|]. apply and_assoc. split; [|split; [rewrite !units_app; simpl; lia|done]].
  eapply (carve_ok _ _ s (p, nunits)); try done; cbn [fst snd hmem with_hdr freep osys].
  - intros y Hy. split; [|left; set_solver]. unfold below, disjoint_blocks in *.
    apply elem_of_app in Hy as [Hy|[->|Hy]%elem_of_cons]; [|cbn in *; lia|specialize (H5 y Hy); cbn in *; lia].
    specialize (H1 y (p, nunits) Hy ltac:(set_solver)). cbn in *. lia.
  - apply seg_app. exists q. split; [apply seg_insert; [set_solver|done]|]. cbn [seg].
    split; [done|]. exists nx. rewrite lookup_insert_eq. split; [done|]. apply seg_insert; [set_solver|done].
  - pose proof (h_head _ _ _ Hh) as Hhd. by destruct u.
  - apply StronglySorted_app. split; [intros; apply H1; set_solver|]. split; [done|].
    rewrite !StronglySorted_cons, !Forall_forall. done.
  - rewrite fmap_app, fmap_cons. set_solver.
  - intros a m Ha. change (Heap ?x _ ?y) with (Heap x q y). rewrite <- (hd_at_with_ne a q (Header nx k) s); [done|].
    intros ->. apply (used_not_free _ _ _ _ _ k Hh Ha). set_solver.
  - transitivity (hsize (hd_at p (with_hdr q (Header nx k) s))); [done|].
    rewrite hd_at_with_ne by set_solver. by rewrite (hd_at_lookup _ _ _ Hp).
Qed.

Lemma take_split L A s nunits n prevp p :
  heap_ok L A s → (p, n) ∈ L → 0 < nunits < n → prevp ∈ L.*1 →
  tot (take_block nunits prevp p) (taken L A s nunits) s.
Proof.
  intros Hh Hin Hn Hpv. pose proof (h_free _ _ _ Hh) as Hf. rewrite Forall_forall in Hf.
  destruct (Hf _ Hin) as [[= -> Hx]|(_ & Hb & He)]; [lia|]. cbn in Hb, He. pose proof (h_base _ _ _ Hh) as (H0 & _ & Hk).
  apply list_elem_of_split in Hin as (u & v & ->). pose proof (ok_nodup _ _ _ Hh) as Hnd.
  pose proof (h_ring _ _ _ Hh) as (c & Hr1 & Hr2)%seg_app. cbn [seg] in Hr2. destruct Hr2 as (-> & nx & Hp & Hr).
  pose proof (h_sorted _ _ _ Hh) as Hso. apply StronglySorted_app in Hso as (H1 & H2 & H3).
  rewrite StronglySorted_cons, Forall_forall in H3. destruct H3 as [H3 H4].
  rewrite fmap_app, fmap_cons in Hnd, Hpv. cbn [fst] in Hnd, Hpv. apply NoDup_app in Hnd as (_ & Hu & Hnd).
  apply NoDup_cons in Hnd as [Hnp Hnd]. set (a := p + 8 * (n - nunits)).
  assert (∀ y, y ∈ u ++ v → disjoint_blocks (a, nunits) y ∧ fst y ≠ a) as Hdis.
  { intros y Hy. unfold a, below, disjoint_blocks in *. pose proof (ok_sizes _ _ _ Hh) as Hz. rewrite Forall_forall in Hz.
    specialize (Hz y ltac:(set_solver)). apply elem_of_app in Hy as [Hy|Hy].
    - specialize (H1 y (p, n) Hy ltac:(set_solver)). cbn in *. lia.
    - specialize (H3 y Hy). cbn in *. lia. }
  unfold take_block. tot_step. rewrite (hd_at_lookup _ _ _ Hp). cbn [hsize hptr].
  rewrite (proj2 (Z.eqb_neq _ _)) by lia. rewrite u32_small by (unfold KERNBASE in *; lia).
  rewrite hplus_small by (unfold KERNBASE in *; lia). fold a.
  apply tot_bind, tot_bind, tot_set_size. rewrite (hd_at_lookup _ _ _ Hp). cbn [hptr]. apply tot_bind, tot_set_size. tot_step.
  apply tot_bind, tot_modify. tot_step. rewrite hplus_small by (unfold a, KERNBASE in *; lia).
  set (h' := Header _ nunits).
  exists a, (u ++ (p, n - nunits) :: v). split; [lia|]. apply and_assoc. split; [|split; [rewrite !units_app; simpl; lia|done]].
  assert (∀ l q e, (∀ y, y ∈ l → y ∈ u ++ v) → p ∉ l.*1 → seg (hmem s) l q e →
    seg (<[a := h']> (<[p := Header nx (n - nunits)]> (hmem s))) l q e) as Hseg.
  { intros l q e Hl Hpl Hs. apply seg_insert; [|by apply seg_insert].
    intros (y & -> & Hy)%list_elem_of_fmap. by destruct (Hdis y (Hl y Hy)). }
  eapply (carve_ok _ _ s (p, n)); try done; cbn [fst snd hmem with_hdr freep osys].
  - set_solver.
  - unfold a. lia.
  - unfold a. lia.
  - lia.
  - intros y [Hy|[->|Hy]%elem_of_cons]%elem_of_app.
    + split; [apply Hdis; set_solver|left; set_solver].
    + split; [unfold a, disjoint_blocks; cbn; lia|right; cbn; lia].
    + split; [apply Hdis; set_solver|left; set_solver].
  - apply seg_app. exists p. split; [apply Hseg; [set_solver|set_solver|done]|]. cbn [seg]. split; [done|]. exists nx.
    rewrite lookup_insert_ne, lookup_insert_eq by (unfold a; lia). split; [done|]. apply Hseg; [set_solver|done|done].
  - pose proof (h_head _ _ _ Hh) as Hhd. destruct u; [|done]. simpl in Hhd. injection Hhd. lia.
  - apply StronglySorted_app. split.
    + intros x y Hx [->|Hy]%elem_of_cons; [|apply H1; set_solver]. apply (H1 x (p, n) Hx). set_solver.
    + split; [done|]. apply StronglySorted_cons. split; [|done]. apply Forall_forall. intros y Hy. specialize (H3 y Hy).
      unfold below in *. cbn in *. lia.
  - by rewrite fmap_app, fmap_cons.
  - intros b m Hbm. unfold hd_at. cbn [hmem]. rewrite !lookup_insert_ne; [done| |].
    + intros <-. apply (used_not_free _ _ _ _ _ n Hh Hbm). set_solver.
    + intros <-. pose proof (h_apart _ _ _ Hh _ _ (p, n) Hbm ltac:(set_solver)) as Hd.
      destruct (h_used _ _ _ Hh _ _ Hbm) as [(Hm & _) _]. unfold a, disjoint_blocks in *. cbn in *. lia.
  - unfold hd_at. cbn [hmem]. by rewrite lookup_insert_eq.
Qed.

Lemma take_ok L A s nunits n prevp p :
  heap_ok L A s → (p, n) ∈ L → 0 < nunits ≤ n → prevp ∈ L.*1 → hptr (hd_at prevp s) = p →
  tot (take_block nunits prevp p) (taken L A s nunits) s.
Proof.
  intros Hh Hin Hn Hpv Hpp. destruct (decide (n = nunits)) as [->|Hne].
  - by apply take_exact; try lia.
  - eapply take_split; try done. lia.
Qed.

(** ** Growing the heap *)

Section Grow.
Context `{!SbrkOk os}.

(** The fresh bytes as a block in use. *)
Lemma grow_ok L A s o nu :
  heap_ok L A s → 0 < nu → brk o = brk (osys s) + 8 * nu → brk o < KERNBASE →
  let p := brk (osys s) in
  A !! p = None ∧ ∀ h, hsize h = nu → heap_ok L (<[p := nu]> A) (with_hdr p h (Heap (hmem s) (freep s) o)).
Proof.
  intros Hh Hnu Ho Hk p. pose proof (h_free _ _ _ Hh) as Hf. pose proof (h_base _ _ _ Hh) as (H0 & Hb & _).
  assert (∀ a n, A !! a = Some n → in_heap s (a, n)) as Hu by (intros a n Ha; apply (h_used _ _ _ Hh _ _ Ha)).
  assert (A !! p = None) as HA.
  { destruct (A !! p) as [n|] eqn:E; [|done]. destruct (Hu _ _ E) as (Hn & _ & He). unfold p in *. cbn in *. lia. }
  assert (∀ x, x ∈ L → disjoint_blocks (p, nu) x ∧ fst x ≠ p) as HL.
  { intros x Hx. rewrite Forall_forall in Hf. unfold disjoint_blocks.
    destruct (Hf x Hx) as [->|(? & ? & ?)]; unfold p; cbn in *; lia. }
  split; [done|]. intros h Hsz. split; cbn [hmem with_hdr freep osys]; [|apply Hh|apply Hh|apply Hh| | | | |].
  - apply seg_insert; [|apply Hh]. intros (x & -> & Hx)%list_elem_of_fmap. by destruct (HL x Hx).
  - eapply Forall_impl; [exact Hf|]. unfold in_heap. cbn. intros x [->|?]; [by left|right]. lia.
  - unfold in_heap in *. cbn [osys]. apply map_Forall_insert_2.
    + rewrite hd_at_with. cbn. split; [lia|done].
    + intros a n Ha. specialize (Hu _ _ Ha). cbn in *. split; [lia|]. rewrite hd_at_with_ne by congruence.
      apply (h_used _ _ _ Hh _ _ Ha).
  - intros a n x [[<- <-]|[_ Ha]]%lookup_insert_Some Hx; [by apply HL|by apply (h_apart _ _ _ Hh)].
  - intros a n a' n' [[<- <-]|[Hne Ha]]%lookup_insert_Some [[<- <-]|[Hne' Ha']]%lookup_insert_Some Haa; [done| | |].
    + destruct (Hu _ _ Ha') as (? & ? & ?). unfold disjoint_blocks, p. cbn in *. lia.
    + destruct (Hu _ _ Ha) as (? & ? & ?). unfold disjoint_blocks, p. cbn in *. lia.
    + by apply (h_disjoint _ _ _ Hh).
  - lia.
Qed.

(** [morecore] fails and changes nothing, or a free block is large enough. *)
Definition grown (L : list (Z * Z)) (A : gmap Z Z) (s : heap) (nu r : Z) (s' : heap) : Prop :=
  (r = 0 ∧ heap_ok L A s' ∧ brk (osys s') = brk (osys s)) ∨
  (r = freep s' ∧ 0 < r ∧ ∃ L', heap_ok L' A s' ∧ 8 * (units L' - units L) = brk (osys s') - brk (osys s) ∧
     (length L' ≤ S (length L))%nat ∧ ∃ x, x ∈ L' ∧ nu ≤ snd x).

Lemma morecore_ok L A s nu :
  heap_ok L A s → 0 < nu < 268435456 → tot (morecore nu) (grown L A s nu) s.
Proof.
  intros Hh Hnu. unfold morecore, sizeof_header. set (nu' := if nu <? 4096 then 4096 else nu).
  assert (nu ≤ nu' ∧ 0 < nu' < 268435456) as [Hle Hnu'] by (unfold nu'; destruct (Z.ltb_spec nu 4096); lia).
  rewrite (u32_small (nu' * 8)) by lia. rewrite i32_small by lia. do 2 tot_step.
  destruct (sbrk_spec (nu' * 8) (osys s)) as [[-> Ho]|(-> & Ho & Hk)]; [lia| |].
  { change (4294967295 =? u32 (-1)) with true. cbv iota. tot_step. left. split; [done|]. split; [|done].
    destruct Hh as [? ? ? ? Hf Hus Hap Hdi Hb]. unfold in_heap in *. split; cbn [hmem freep osys]; unfold in_heap; cbn [osys]; by rewrite ?Ho. }
  pose proof (h_base _ _ _ Hh) as (H0 & Hb & Hkb). unfold KERNBASE in Hkb.
  rewrite (proj2 (Z.eqb_neq _ _)) by (change (u32 (-1)) with 4294967295; lia).
  set (o := snd (sbrk _ _)) in *. destruct (grow_ok L A s o nu') as [HA Hg]; [done|lia|lia|unfold KERNBASE in *; lia|].
  apply tot_bind, tot_set_size. rewrite hplus_small by lia. replace (brk (osys s) + 8 * 1) with (brk (osys s) + 8) by lia.
  eapply tot_bind, tot_mono; [eapply free_ok; [by apply Hg|apply lookup_insert_eq]|].
  intros _ s2 (L' & Hh2 & Hu & Ho2 & Hlen & x & Hx & Hnx). rewrite delete_insert_eq in Hh2. rewrite delete_id in Hh2 by done.
  apply tot_gets. right. split; [done|].
  split. { pose proof (h_freep _ _ _ Hh2) as (y & -> & Hy)%list_elem_of_fmap. pose proof (h_free _ _ _ Hh2) as Hf.
    rewrite Forall_forall in Hf. destruct (Hf y Hy) as [->|(_ & ? & _)]; cbn in *; lia. }
  exists L'. split; [done|]. rewrite Ho2. cbn [osys with_hdr]. split; [lia|]. split; [done|].
  exists x. split; [done|lia].
Qed.
End Grow.

End Umalloc.
