(* ===== verification/UmallocSpec.v ===== *)
(** * Properties of the user memory allocator

    [malloc] over the lemmas of [Umalloc], programs that use the allocator as a
    step relation, and the theorems. *)

From stdpp Require Import sorting.
From S2P Require Import Prelude Mem Umalloc.

Section Spec.
Context {os : Type} `{Sbrk os} (base : Z).

(** ** The loop of [malloc] *)

Lemma malloc_scan L A (s : heap) nunits (Q : Z → heap → Prop) :
  heap_ok base L A s → 0 < nunits → (∀ r s', taken base L A s nunits r s' → Q r s') →
  ∀ todo fuel prevp p e,
  seg (hmem s) todo p e → (∀ x, x ∈ todo → x ∈ L) → NoDup todo.*1 → last todo.*1 = Some (freep s) →
  prevp ∈ L.*1 → hptr (hd_at prevp s) = p → (length todo ≤ fuel)%nat →
  (Forall (λ x, snd x < nunits) todo →
   tot (p ← morecore nunits;
        if p =? 0 then mret 0
        else h ← gets (hd_at p); malloc_loop (fuel - length todo) nunits p (hptr h)) Q s) →
  tot (malloc_loop fuel nunits prevp p) Q s.
Proof.
  intros Hh Hn HQ. induction todo as [|[a n] todo IH]; intros fuel prevp p e Hs Hin Hnd Hl Hpv Hpp Hf Hm; [done|].
  cbn [seg] in Hs. destruct Hs as (-> & nx & Ha & Hs). destruct fuel as [|fuel]; [simpl in Hf; lia|]. cbn [malloc_loop].
  assert ((a, n) ∈ L) as HaL by (apply Hin; set_solver).
  tot_step. rewrite (hd_at_lookup _ _ _ Ha). cbn [hsize hptr]. destruct (Z.leb_spec nunits n) as [Hle|Hlt].
  { eapply tot_mono; [by eapply (take_ok base L A s nunits n)|done]. }
  tot_step. rewrite fmap_cons in Hnd, Hl. cbn [fst] in Hnd, Hl. apply NoDup_cons in Hnd as [Hna Hnd].
  destruct todo as [|y todo].
  { injection Hl as <-. rewrite Z.eqb_refl. replace fuel with (S fuel - 1)%nat by lia. apply Hm. by constructor. }
  rewrite fmap_cons, last_cons_cons, <- fmap_cons in Hl.
  rewrite (proj2 (Z.eqb_neq _ _)) by (intros ->; apply Hna; by apply last_Some_elem_of in Hl).
  eapply IH; try done.
  - intros x Hx. apply Hin. set_solver.
  - by apply (list_elem_of_fmap_2 fst L (a, n)).
  - by rewrite (hd_at_lookup _ _ _ Ha).
  - simpl in *. lia.
  - intros HF. apply Hm. by constructor.
Qed.

(** The ring from the block after [freep] on. *)
Lemma ring_walk L A (s : heap) :
  heap_ok base L A s → ∃ todo e, seg (hmem s) todo (hptr (hd_at (freep s) s)) e ∧ todo ≡ₚ L ∧ last todo.*1 = Some (freep s).
Proof.
  intros Hh. pose proof (h_freep _ _ _ _ Hh) as ([f k] & Hf & (u & v & ->)%list_elem_of_split)%list_elem_of_fmap.
  cbn [fst] in Hf. rewrite Hf. pose proof (h_ring _ _ _ _ Hh) as Hr. rewrite cons_middle, app_assoc in Hr.
  apply seg_app in Hr as (c & Hu & Hv). pose proof (seg_last _ _ _ _ _ _ Hu) as Hc. exists (v ++ u ++ [(f, k)]), c.
  rewrite (hd_at_lookup _ _ _ Hc). cbn [hptr]. split; [apply seg_app; eauto|]. split.
  - by rewrite (Permutation_app_comm v), <- app_assoc.
  - rewrite app_assoc, fmap_app. cbn [fmap list_fmap fst]. by rewrite last_snoc.
Qed.

(** The memory determines the ring. *)
Lemma seg_unique (m : gmap Z header) l l' b e :
  seg m l b e → seg m l' b e → e ∉ l.*1 → e ∉ l'.*1 → l = l'.
Proof.
  revert l' b; induction l as [|[a n] l IH]; intros [|[a' n'] l'] b H1 H2 He He'; cbn [seg] in *; [done| | |].
  - destruct H2 as [-> _]. subst e. set_solver.
  - destruct H1 as [-> _]. subst e. set_solver.
  - destruct H1 as (-> & nx & Ha & H1), H2 as (-> & nx' & Ha' & H2). rewrite Ha in Ha'. simplify_eq. f_equal.
    eapply IH; [done|done|set_solver|set_solver].
Qed.

Lemma ring_unique L L' A (s : heap) : heap_ok base L A s → heap_ok base L' A s → L = L'.
Proof.
  intros H1 H2. pose proof (ok_nodup _ _ _ _ H1) as N1. pose proof (ok_nodup _ _ _ _ H2) as N2.
  destruct (ok_cons _ _ _ _ H1) as [l ->], (ok_cons _ _ _ _ H2) as [l' ->]. rewrite fmap_cons in N1, N2. cbn [fst] in *.
  apply NoDup_cons in N1 as [N1 _], N2 as [N2 _].
  pose proof (h_ring _ _ _ _ H1) as (_ & nx & E1 & R1). pose proof (h_ring _ _ _ _ H2) as (_ & nx' & E2 & R2).
  rewrite E1 in E2. injection E2 as ->. f_equal. by eapply seg_unique.
Qed.

Section Total.
Context `{!SbrkOk os}.

(** With a large enough block in the ring the loop finds one. *)
Lemma malloc_loop_fits L A (s : heap) nunits fuel :
  heap_ok base L A s → 0 < nunits → (∃ x, x ∈ L ∧ nunits ≤ snd x) → (length L ≤ fuel)%nat →
  tot (malloc_loop fuel nunits (freep s) (hptr (hd_at (freep s) s))) (taken base L A s nunits) s.
Proof.
  intros Hh Hn (x & Hx & Hxn) Hf. destruct (ring_walk _ _ _ Hh) as (todo & e & Hs & HP & Hl).
  eapply malloc_scan; try done.
  - intros y Hy. by rewrite <- HP.
  - rewrite HP. by eapply ok_nodup.
  - apply (h_freep _ _ _ _ Hh).
  - by rewrite HP.
  - intros HF. rewrite Forall_forall in HF. rewrite <- HP in Hx. specialize (HF x Hx). lia.
Qed.

(** How [malloc] ends: it fails when no free block is large enough and [sbrk]
    gives no more, or returns a block of its own. *)
Definition allocated (L : list (Z * Z)) (A : gmap Z Z) (s : heap) (nunits r : Z) (s' : heap) : Prop :=
  (r = 0 ∧ heap_ok base L A s' ∧ Forall (λ x, snd x < nunits) L ∧ brk (osys s') = brk (osys s)) ∨
  (∃ a L', r = a + 8 ∧ A !! a = None ∧ heap_ok base L' (<[a := nunits]> A) s' ∧
     8 * (units L' + nunits - units L) = brk (osys s') - brk (osys s)).

Lemma malloc_loop_ok L A (s : heap) nunits fuel :
  heap_ok base L A s → 0 < nunits < 268435456 → (2 * length L + 1 ≤ fuel)%nat →
  tot (malloc_loop fuel nunits (freep s) (hptr (hd_at (freep s) s))) (allocated L A s nunits) s.
Proof.
  intros Hh Hn Hf. destruct (ring_walk _ _ _ Hh) as (todo & e & Hs & HP & Hl).
  eapply malloc_scan; try done; [lia| | | | | |].
  - intros r s' (a & L' & -> & HA & Hh' & Hu & Ho). right. exists a, L'. rewrite Ho. split_and!; [done|done|done|lia].
  - intros y Hy. by rewrite <- HP.
  - rewrite HP. by eapply ok_nodup.
  - apply (h_freep _ _ _ _ Hh).
  - rewrite HP. lia.
  - intros HF. eapply tot_bind, tot_mono; [by apply (morecore_ok base L A s)|].
    intros r s1 [(-> & Hh1 & Hb)|(-> & Hr & L1 & Hh1 & Hu & Hlen & Hx)].
    { change (0 =? 0) with true. cbv iota. tot_step. left. split; [done|]. split; [done|]. split; [|done]. by rewrite <- HP. }
    rewrite (proj2 (Z.eqb_neq _ _)) by lia. tot_step. eapply tot_mono; [apply malloc_loop_fits; try done; [lia|rewrite HP; lia]|].
    intros r s2 (a & L2 & -> & HA & Hh2 & Hu2 & Ho). right. exists a, L2. rewrite Ho. split_and!; [done|done|done|lia].
Qed.

(** ** The heap of a program *)

(** No call of [malloc] has been made, or the ring is in order. *)
Definition heap_inv (A : gmap Z Z) (s : heap) : Prop :=
  (freep s = 0 ∧ A = ∅ ∧ 0 < base ∧ base + 8 ≤ brk (osys s) ∧ brk (osys s) < KERNBASE) ∨ ∃ L, heap_ok base L A s.

Lemma freep_pos L A (s : heap) : heap_ok base L A s → 0 < freep s.
Proof.
  intros Hh. pose proof (h_freep _ _ _ _ Hh) as (y & -> & Hin)%list_elem_of_fmap. pose proof (h_free _ _ _ _ Hh) as Hf.
  pose proof (h_base _ _ _ _ Hh) as (H0 & _). rewrite Forall_forall in Hf.
  destruct (Hf y Hin) as [->|(_ & ? & _)]; cbn in *; lia.
Qed.

(** The ring that [malloc] works on. *)
Lemma malloc_init_ok A (s : heap) :
  heap_inv A s →
  ∃ L, (∀ L', heap_ok base L' A s → L = L') ∧ tot (malloc_init base) (λ r s', r = freep s' ∧ heap_ok base L A s' ∧ osys s' = osys s) s.
Proof.
  intros [(Hf & -> & H0 & Hb & Hk)|[L Hh]]; [exists [(base, 0)]|exists L]; (split; [|unfold malloc_init; tot_step]).
  - intros L' Hh%freep_pos. lia.
  - rewrite Hf. change (0 =? 0) with true. cbv iota. apply tot_bind, tot_modify, tot_bind, tot_set_ptr, tot_bind, tot_set_size. tot_step.
    rewrite hd_at_with, with_hdr_twice. cbn [hptr]. split; [done|]. split; [|done]. split; cbn; try done.
    + split; [done|]. exists base. by rewrite lookup_insert_eq.
    + repeat constructor.
    + set_solver.
    + repeat constructor.
  - intros L' Hh'. eapply ring_unique; done.
  - pose proof (freep_pos _ _ _ Hh). rewrite (proj2 (Z.eqb_neq _ _)) by lia. by tot_step.
Qed.

Lemma nunits_range nbytes : 0 ≤ nbytes < 2147483000 →
  0 < nunits_of nbytes < 268435456 ∧ nbytes + 8 ≤ 8 * nunits_of nbytes < nbytes + 16.
Proof.
  intros Hn. unfold nunits_of, sizeof_header. rewrite (u32_small (nbytes + 8 - 1)) by lia.
  rewrite u32_small; Z.to_euclidean_division_equations; lia.
Qed.

Lemma malloc_ok A (s : heap) nbytes :
  heap_inv A s → 0 < nunits_of nbytes < 268435456 →
  ∃ L, (∀ L', heap_ok base L' A s → L = L') ∧ tot (malloc base nbytes) (allocated L A s (nunits_of nbytes)) s.
Proof.
  intros Hi Hn. destruct (malloc_init_ok _ _ Hi) as (L & Hu & HL). exists L. split; [done|].
  unfold malloc. eapply tot_bind, tot_mono; [exact HL|].
  intros r s1 (-> & Hh & Ho). do 2 tot_step. eapply tot_mono; [apply malloc_loop_ok; [exact Hh|done|]|].
  - pose proof (ok_turns _ _ _ _ Hh). lia.
  - unfold allocated. by rewrite Ho.
Qed.

(** What a program does with the allocator, [A] being the blocks it has: it calls
    [malloc], frees a block it has, stores into such a block behind the header,
    or calls [sbrk] itself. *)
Inductive client : gmap Z Z * heap → gmap Z Z * heap → Prop :=
  | c_malloc A s nbytes r c s' :
      0 ≤ nbytes < 2147483000 → malloc base nbytes (Ctx [] []) s = Ret r c s' →
      client (A, s) (if r =? 0 then A else <[r - 8 := nunits_of nbytes]> A, s')
  | c_free A s a n c s' :
      A !! a = Some n → free (a + 8) (Ctx [] []) s = Ret tt c s' → client (A, s) (delete a A, s')
  | c_store A s a n m :
      A !! a = Some n → (∀ x, x + 8 ≤ a + 8 ∨ a + 8 * n ≤ x → m !! x = hmem s !! x) →
      client (A, s) (A, Heap m (freep s) (osys s))
  | c_sbrk A s o :
      brk (osys s) ≤ brk o < KERNBASE → client (A, s) (A, Heap (hmem s) (freep s) o).

(** Stores into the program's own blocks, and a higher break, are harmless. *)
Lemma store_ok L A (s : heap) m o :
  heap_ok base L A s → brk (osys s) ≤ brk o < KERNBASE →
  (∀ x, x ∈ L.*1 ∨ is_Some (A !! x) → m !! x = hmem s !! x) → heap_ok base L A (Heap m (freep s) o).
Proof.
  intros Hh Ho Hm. destruct Hh as [Hr Hhd Hso Hfp Hf Hu Hap Hd Hb]. unfold in_heap in *. split; cbn [hmem freep osys]; try done.
  - assert (∀ l b e, (∀ x, x ∈ l → x ∈ L) → seg (hmem s) l b e → seg m l b e) as Hgen; [|by apply Hgen].
    induction l as [|[a n] l IH]; intros b e Hl; [done|]. cbn [seg]. intros (-> & nx & Ha & Hs). split; [done|]. exists nx.
    rewrite Hm by (left; apply (list_elem_of_fmap_2 fst L (a, n)), Hl; set_solver). split; [done|]. apply IH; [|done]. set_solver.
  - eapply Forall_impl; [exact Hf|]. cbn. intros x [->|?]; [by left|right; unfold in_heap; cbn; lia].
  - intros a n Ha. destruct (Hu a n Ha) as [Hin Hs]. cbn in *. split; [unfold in_heap; cbn; lia|].
    unfold hd_at in *. cbn [hmem]. by rewrite Hm by eauto.
  - lia.
Qed.

Lemma outside_block L A (s : heap) a n x :
  heap_ok base L A s → A !! a = Some n → x ∈ L.*1 ∨ is_Some (A !! x) → x + 8 ≤ a + 8 ∨ a + 8 * n ≤ x.
Proof.
  intros Hh Ha [([x' k] & -> & Hx)%list_elem_of_fmap|[k Hx]].
  - pose proof (h_apart _ _ _ _ Hh _ _ _ Ha Hx) as Hd. pose proof (ok_sizes _ _ _ _ Hh) as Hz. rewrite Forall_forall in Hz.
    specialize (Hz _ Hx). unfold disjoint_blocks in Hd. cbn in *. lia.
  - destruct (decide (x = a)) as [->|Hne]; [lia|]. pose proof (h_disjoint _ _ _ _ Hh _ _ _ _ Ha Hx ltac:(done)) as Hd.
    destruct (h_used _ _ _ _ Hh _ _ Hx) as [(Hk & _) _]. unfold disjoint_blocks in Hd. cbn in *. lia.
Qed.

Lemma client_inv A (s : heap) A' s' : client (A, s) (A', s') → heap_inv A s → heap_inv A' s'.
Proof.
  intros Hc Hi. inv Hc.
  - match goal with Hn : 0 ≤ ?nb < _ |- _ => destruct (malloc_ok _ _ nb Hi (proj1 (nunits_range _ Hn))) as (L & _ & Hm) end. destruct (Hm []) as (r' & tr & s2 & E & Hr).
    match goal with E' : _ = Ret _ c _ |- _ => rewrite E in E'; injection E' as <- <- <- end.
    destruct Hr as [(-> & Hh & _)|(a & L' & -> & HA & Hh & _)]; [by right; exists L|].
    right. exists L'. pose proof (h_used _ _ _ _ Hh a _ (lookup_insert_eq _ _ _)) as [(_ & Ha & _) _].
    pose proof (h_base _ _ _ _ Hh) as (H0 & _). cbn in Ha. rewrite (proj2 (Z.eqb_neq _ _)) by lia. by replace (a + 8 - 8) with a by lia.
  - destruct Hi as [(_ & -> & _)|[L Hh]]; [done|].
    match goal with E : A !! _ = Some _ |- _ => destruct (free_ok _ _ _ _ _ _ Hh E []) as (r' & tr & s2 & E2 & L' & Hh2 & _) end.
    match goal with E' : _ = Ret _ c _ |- _ => destruct r'; rewrite E2 in E'; injection E' as <- <- end. right. by exists L'.
  - destruct Hi as [(_ & -> & _)|[L Hh]]; [done|]. right. exists L. pose proof (h_base _ _ _ _ Hh).
    apply store_ok; [done|lia|]. match goal with Ha : A' !! _ = Some _ |- _ => rename Ha into HA end.
    intros x Hx. match goal with Hs : ∀ x, _ → m !! x = _ |- _ => apply Hs end. by eapply outside_block.
  - destruct Hi as [(Hf & -> & H0 & Hb & Hk)|[L Hh]]; [left; cbn; split_and!; try done; lia|]. right. exists L. by apply store_ok.
Qed.

Lemma clients_inv A0 (s0 : heap) A s : rtc client (A0, s0) (A, s) → heap_inv A0 s0 → heap_inv A s.
Proof.
  intros Hr. remember (A0, s0) as x eqn:Ex. remember (A, s) as y eqn:Ey. revert A0 s0 Ex A s Ey.
  induction Hr as [x|x y z Hxy _ IH]; intros A0 s0 -> A s Ey Hi; [by simplify_eq|].
  destruct y as [A1 s1]. eapply IH; [done|exact Ey|by eapply client_inv].
Qed.

(** The block [(a, n)] is inside the heap, behind its header, and meets none of
    the blocks [A]. *)
Definition separate (A : gmap Z Z) (s : heap) (a n : Z) : Prop :=
  base + 8 ≤ a ∧ 0 < n ∧ a + 8 * n ≤ brk (osys s) ∧
  ∀ b m, A !! b = Some m → b ≠ a → a + 8 * n ≤ b ∨ b + 8 * m ≤ a.

Lemma inv_separate A (s : heap) a n : heap_inv A s → A !! a = Some n → separate A s a n ∧ hsize (hd_at a s) = n.
Proof.
  intros [(_ & -> & _)|[L Hh]] Ha; [done|]. destruct (h_used _ _ _ _ Hh _ _ Ha) as [(Hn & Hb & He) Hs]. cbn in *.
  split; [|done]. split_and!; try done. intros b m Hb' Hne. apply (h_disjoint _ _ _ _ Hh a n b m); done.
Qed.


(** no memory is lost and none is left unused. [malloc] fails only when no free
    block is large enough and [sbrk] gives no more; otherwise it takes its headers
    from the free ones and the fresh ones, which grow by what the break grew.
    [free] gives all of them back, and in the ring that follows no two free blocks
    touch. *)
Theorem umalloc_conserves L A (s : heap) nbytes :
  heap_ok base L A s → 0 ≤ nbytes < 2147483000 →
  let n := nunits_of nbytes in
  tot (malloc base nbytes) (λ r s1,
    (r = 0 ∧ Forall (λ x, snd x < n) L ∧ brk (osys s1) = brk (osys s)) ∨
    ∃ L1, 8 * (units L1 + n - units L) = brk (osys s1) - brk (osys s) ∧
      tot (free r) (λ _ s2, ∃ L2, heap_ok base L2 A s2 ∧ units L2 = units L1 + n ∧ osys s2 = osys s1 ∧
        ∀ i x y, L2 !! i = Some x → L2 !! S i = Some y → fst x + 8 * snd x < fst y) s1) s.
Proof.
  intros Hh Hn n. destruct (malloc_ok A s nbytes) as (L' & HL & Hm); [by right; exists L|by apply nunits_range|].
  rewrite (HL L Hh) in Hm. clear HL.
  eapply tot_mono; [exact Hm|]. intros r s1 [(-> & _ & HF & Hb)|(a & L1 & -> & HA & Hh1 & Hu)]; [by left|].
  right. exists L1. split; [done|]. eapply tot_mono; [eapply free_ok; [exact Hh1|apply lookup_insert_eq]|].
  intros _ s2 (L2 & Hh2 & Hu2 & Ho & _). exists L2. rewrite delete_insert_eq, delete_id in Hh2 by done. split_and!; try done.
  intros i x y Hx Hy. pose proof (h_sorted _ _ _ _ Hh2) as Hs. rewrite <- (take_drop_middle _ _ _ Hx) in Hs.
  apply StronglySorted_app_1_r, StronglySorted_cons in Hs as [Hs _]. rewrite Forall_forall in Hs.
  apply Hs. rewrite list_elem_of_lookup. exists 0%nat. by rewrite lookup_drop, Nat.add_0_r.
Qed.

(** a request of nearly 4 GiB is not refused. The addition of [malloc] wraps
    around for the seven largest sizes, and what it returns is a block of one
    header, without a byte for the caller. *)
Theorem malloc_wraps A (s : heap) nbytes :
  heap_inv A s → 4294967289 ≤ nbytes < 4294967296 →
  tot (malloc base nbytes) (λ r s', r = 0 ∨ ∃ a, r = a + 8 ∧ A !! a = None ∧ heap_inv (<[a := 1]> A) s') s.
Proof.
  intros Hi Hn. assert (nunits_of nbytes = 1) as E.
  { unfold nunits_of, sizeof_header, u32. Z.to_euclidean_division_equations. lia. }
  destruct (malloc_ok A s nbytes Hi) as (L & _ & Hm); [lia|]. rewrite E in Hm. eapply tot_mono; [exact Hm|].
  intros r s' [(-> & _)|(a & L' & -> & HA & Hh & _)]; [by left|]. right. exists a. split; [done|]. split; [done|]. right. by exists L'.
Qed.
End Total.
End Spec.

(** ** A sample heap *)

Module SampleHeap.

(** A kernel that refuses nothing but addresses of its own; the state is the
    break. *)
#[export] Instance toy_sbrk : Sbrk Z := {
  sbrk n o := if o + n <? KERNBASE then (o, o + n) else (4294967295, o); brk o := o }.
#[export] Instance toy_sbrk_ok : SbrkOk Z.
Proof. split. intros n o Hn. unfold sbrk, brk, toy_sbrk. destruct (Z.ltb_spec (o + n) KERNBASE); cbn; [right|left]; lia. Qed.

Definition base : Z := 4096.
Definition start : heap := Heap ∅ 0 8192.
(** After [malloc(100)] and [malloc(20)]. *)
Definition after (nbytes : Z) (s : heap) : heap :=
  match malloc base nbytes (Ctx [] []) s with Ret _ _ s' => s' | _ => s end.
Definition one : heap := after 100 start.
Definition two : heap := after 20 one.
Definition blocks : gmap Z Z := <[40816 := 4]> (<[40848 := 14]> ∅).

Lemma malloc_step A s nbytes r s' A' :
  0 ≤ nbytes < 2147483000 → malloc base nbytes (Ctx [] []) s = Ret r (Ctx [] []) s' →
  A' = (if r =? 0 then A else <[r - 8 := nunits_of nbytes]> A) → client base (A, s) (A', s').
Proof. intros Hn Hm ->. by eapply c_malloc. Qed.

Lemma runs : rtc (client base) (∅, start) (blocks, two).
Proof.
  apply (rtc_l _ _ (<[40848 := 14]> ∅, one)).
  - apply (malloc_step _ _ 100 40856); [lia|vm_compute; reflexivity|vm_compute; reflexivity].
  - apply rtc_once, (malloc_step _ _ 20 40824); [lia|vm_compute; reflexivity|vm_compute; reflexivity].
Qed.


Lemma start_inv : heap_inv base ∅ start.
Proof. left. vm_compute. done. Qed.

Lemma malloc_wraps_witness :
  tot (malloc base 4294967295) (λ r s', r = 0 ∨ ∃ a, r = a + 8 ∧ (∅ : gmap Z Z) !! a = None ∧ heap_inv base (<[a := 1]> ∅) s') start.
Proof. apply (malloc_wraps base ∅ start 4294967295); [apply start_inv|lia]. Defined.

(** The ring of [base] alone. *)
Definition empty : heap := Heap {[base := Header base 0]} base 8192.
Lemma empty_ok : heap_ok base [(base, 0)] ∅ empty.
Proof.
  split; try done.
  - split; [done|]. by exists base.
  - repeat constructor.
  - cbn. set_solver.
  - repeat constructor.
Qed.

Lemma umalloc_conserves_witness :
  ∃ r c s', malloc base 100 (Ctx [] []) empty = Ret r c s' ∧ 0 < r.
Proof.
  destruct (umalloc_conserves base [(base, 0)] ∅ empty 100 empty_ok ltac:(lia) []) as (r & tr & s' & E & _).
  exists r, (Ctx [] tr), s'. split; [exact E|]. assert (r = 40856) as ->; [|lia].
  revert E. vm_compute. congruence.
Defined.
End SampleHeap.
