(* ===== verification/Spinlock.v ===== *)
(** * Spin locks, interrupt nesting and the machine that runs them

    [spinlock.c]: [pushcli]/[popcli], [acquire]/[release]/[holding] and
    [getcallerpcs] on the state of one CPU and one lock, then several CPUs
    interleaving the instructions of [acquire] and [release] on a shared lock. *)

From S2P Require Import Prelude Mem.

(** ** Per-CPU interrupt state *)

(** [eflags_if] is the FL_IF bit of the CPU's EFLAGS; [ncli] and [intena] are
    the fields of [struct cpu]. *)
Record cpu := Cpu { eflags_if : bool; ncli : Z; intena : bool }.

#[global] Instance cpu_eq_dec : EqDecision cpu.
Proof. solve_decision. Defined.

Definition pushcli (c : cpu) : cpu :=
  let eflags := eflags_if c in
  let c1 := Cpu false (ncli c) (intena c) in
  let c2 := if ncli c1 =? 0 then Cpu (eflags_if c1) (ncli c1) eflags else c1 in
  Cpu (eflags_if c2) (ncli c2 + 1) (intena c2).

Definition popcli (c : cpu) : string + cpu :=
  if eflags_if c then inl "popcli - interruptible"
  else
    let c1 := Cpu (eflags_if c) (ncli c - 1) (intena c) in
    if ncli c1 <? 0 then inl "popcli"
    else if (ncli c1 =? 0) && intena c1 then inr (Cpu true (ncli c1) (intena c1))
    else inr c1.

(** [pushcli] and [popcli] nested [n] deep around a body that leaves the
    interrupt state alone. *)
Fixpoint popcli_n (n : nat) (c : cpu) : string + cpu :=
  match n with
  | O => inr c
  | S n => match popcli c with inl e => inl e | inr c' => popcli_n n c' end
  end.

Definition cli_ok (c : cpu) : Prop := 0 ≤ ncli c ∧ (0 < ncli c → eflags_if c = false).

Lemma pushcli_ok c : cli_ok c → cli_ok (pushcli c).
Proof.
  unfold cli_ok, pushcli. destruct c as [f n i]; simpl. intros [??].
  destruct (n =? 0) eqn:?; simpl; split; lia || done.
Qed.

Lemma popcli_pushcli_pos c : 0 < ncli c → eflags_if c = false → popcli (pushcli c) = inr c.
Proof.
  destruct c as [f n i]; simpl; intros ? ->. unfold pushcli, popcli; simpl.
  destruct (Z.eqb_spec n 0); [lia|]; simpl.
  replace (n + 1 - 1) with n by lia.
  destruct (Z.ltb_spec n 0); [lia|]. destruct (Z.eqb_spec n 0); [lia|]. done.
Qed.

Lemma popcli_pushcli_zero c :
  ncli c = 0 → popcli (pushcli c) = inr (Cpu (eflags_if c) 0 (eflags_if c)).
Proof. destruct c as [f n i]; simpl; intros ->. unfold pushcli, popcli; simpl. by destruct f. Qed.

Lemma popcli_n_snoc n c c1 :
  popcli_n n c = inr c1 → popcli_n (S n) c = popcli c1.
Proof.
  revert c; induction n as [|n IH]; intros c; simpl.
  - intros [= ->]. by destruct (popcli c1).
  - destruct (popcli c) as [|c']; [done|]. intros H. apply IH in H. simpl in H. by rewrite H.
Qed.

Lemma iter_pushcli_ncli n c :
  ncli (Nat.iter n pushcli c) = ncli c + Z.of_nat n.
Proof.
  induction n as [|n IH]; simpl Nat.iter; [lia|].
  unfold pushcli at 1. simpl. destruct (_ =? 0); simpl; rewrite IH; lia.
Qed.

Lemma iter_pushcli_off n c :
  cli_ok c → 0 < ncli (Nat.iter (S n) pushcli c) ∧ eflags_if (Nat.iter (S n) pushcli c) = false.
Proof.
  intros [Hn _]. split; [rewrite iter_pushcli_ncli; lia|].
  simpl. unfold pushcli at 1. by destruct (_ =? 0).
Qed.

(** Undoing [S n] of [S n] [pushcli]s but the first. *)
Lemma popcli_iter n c :
  cli_ok c → popcli_n n (Nat.iter (S n) pushcli c) = inr (pushcli c).
Proof.
  intros Hok. induction n as [|n IH]; [done|].
  pose proof (iter_pushcli_off n c Hok) as [??].
  change (popcli_n (S n) (pushcli (Nat.iter (S n) pushcli c)) = inr (pushcli c)).
  cbn [popcli_n]. rewrite popcli_pushcli_pos by done. done.
Qed.

(** ** The lock *)

(** [struct spinlock]; [lcpu] is the holder's index in [cpus], [None] for a
    null pointer. *)
Record spinlock := Spinlock { locked : Z; lname : string; lcpu : option nat; pcs : list Z }.

Definition initlock (lk : spinlock) (name : string) : spinlock :=
  Spinlock 0 name None (pcs lk).

(** [getcallerpcs]: [mem] is the word at an address, the saved frames are
    followed from [v - 2] words; unfilled entries are zeroed. *)
Fixpoint getcallerpcs_loop (mem : Z → Z) (n : nat) (ebp : Z) : list Z :=
  match n with
  | O => []
  | S n' =>
      if (ebp =? 0) || (ebp <? KERNBASE) || (ebp =? 0xffffffff) then replicate n 0
      else mem (u32 (ebp + 4)) :: getcallerpcs_loop mem n' (mem ebp)
  end.
Definition getcallerpcs (mem : Z → Z) (v : Z) : list Z :=
  getcallerpcs_loop mem 10 (u32 (v - 8)).

(** The reads of [holding], between its [pushcli] and [popcli]. *)
Definition lock_held_by (i : nat) (lk : spinlock) : bool :=
  negb (locked lk =? 0) && bool_decide (lcpu lk = Some i).

Definition holding (i : nat) (c : cpu) (lk : spinlock) : string + (bool * cpu) :=
  let c1 := pushcli c in
  let r := lock_held_by i lk in
  match popcli c1 with inl e => inl e | inr c2 => inr (r, c2) end.

(** [acquire] up to its first [xchg]. *)
Definition acquire_begin (i : nat) (c : cpu) (lk : spinlock) : string + cpu :=
  let c1 := pushcli c in
  match holding i c1 lk with
  | inl e => inl e
  | inr (true, _) => inl "acquire"
  | inr (false, c2) => inr c2
  end.

(** One atomic [xchg(&lk->locked, 1)]: the old value and the new lock. *)
Definition xchg_locked (lk : spinlock) : Z * spinlock :=
  (locked lk, Spinlock 1 (lname lk) (lcpu lk) (pcs lk)).

(** The stores after the spin loop. *)
Definition acquire_end (i : nat) (trace_pcs : list Z) (lk : spinlock) : spinlock :=
  Spinlock (locked lk) (lname lk) (Some i) trace_pcs.

(** [release] up to the barrier. *)
Definition release_begin (i : nat) (c : cpu) (lk : spinlock) : string + (cpu * spinlock) :=
  match holding i c lk with
  | inl e => inl e
  | inr (false, _) => inl "release"
  | inr (true, c1) => inr (c1, Spinlock (locked lk) (lname lk) None (<[0%nat := 0]> (pcs lk)))
  end.

(** [movl $0, lk->locked]. *)
Definition release_store (lk : spinlock) : spinlock :=
  Spinlock 0 (lname lk) (lcpu lk) (pcs lk).

(** The whole routines, run by CPU [i] without interference.  [acquire] spins
    for ever ([None]) on a lock that another CPU holds. *)
Definition acquire (i : nat) (mem : Z → Z) (v : Z) (c : cpu) (lk : spinlock)
    : option (string + (cpu * spinlock)) :=
  match acquire_begin i c lk with
  | inl e => Some (inl e)
  | inr c1 =>
      let (old, lk1) := xchg_locked lk in
      if old =? 0 then Some (inr (c1, acquire_end i (getcallerpcs mem v) lk1)) else None
  end.

Definition release (i : nat) (c : cpu) (lk : spinlock) : string + (cpu * spinlock) :=
  match release_begin i c lk with
  | inl e => inl e
  | inr (c1, lk1) =>
      let lk2 := release_store lk1 in
      match popcli c1 with inl e => inl e | inr c2 => inr (c2, lk2) end
  end.

(** ** Several CPUs *)

(** Where a CPU is in [acquire(lk); critical section; release(lk)]. *)
Inductive pc :=
  | Idle      (* outside *)
  | Spin      (* before an xchg *)
  | Got       (* xchg returned 0, before lk->cpu = mycpu() *)
  | Crit      (* acquire returned *)
  | Rel       (* release stored lk->cpu = 0, before movl $0 *)
  | Pop.      (* lock free again, before popcli *)

#[global] Instance pc_eq_dec : EqDecision pc.
Proof. solve_decision. Defined.

Record sys := Sys { threads : list (cpu * pc); lk : spinlock }.

Definition set_thread (i : nat) (t : cpu * pc) (s : sys) : sys :=
  Sys (<[i := t]> (threads s)) (lk s).

(** One instruction of one CPU; [inl] is a panic. *)
Inductive step (s : sys) : string + sys → Prop :=
  | step_acquire_panic i c e :
      threads s !! i = Some (c, Idle) → acquire_begin i c (lk s) = inl e →
      step s (inl e)
  | step_acquire i c c' :
      threads s !! i = Some (c, Idle) → acquire_begin i c (lk s) = inr c' →
      step s (inr (set_thread i (c', Spin) s))
  | step_xchg_ok i c lk' :
      threads s !! i = Some (c, Spin) → xchg_locked (lk s) = (0, lk') →
      step s (inr (Sys (<[i := (c, Got)]> (threads s)) lk'))
  | step_xchg_busy i c old lk' :
      threads s !! i = Some (c, Spin) → xchg_locked (lk s) = (old, lk') → old ≠ 0 →
      step s (inr (Sys (threads s) lk'))
  | step_record i c trace_pcs :
      threads s !! i = Some (c, Got) →
      step s (inr (Sys (<[i := (c, Crit)]> (threads s)) (acquire_end i trace_pcs (lk s))))
  | step_release_panic i c e :
      threads s !! i = Some (c, Crit) → release_begin i c (lk s) = inl e →
      step s (inl e)
  | step_release i c c' lk' :
      threads s !! i = Some (c, Crit) → release_begin i c (lk s) = inr (c', lk') →
      step s (inr (Sys (<[i := (c', Rel)]> (threads s)) lk'))
  | step_store i c :
      threads s !! i = Some (c, Rel) →
      step s (inr (Sys (<[i := (c, Pop)]> (threads s)) (release_store (lk s))))
  | step_pop_panic i c e :
      threads s !! i = Some (c, Pop) → popcli c = inl e → step s (inl e)
  | step_pop i c c' :
      threads s !! i = Some (c, Pop) → popcli c = inr c' →
      step s (inr (set_thread i (c', Idle) s)).

Inductive reachable (s0 : sys) : sys → Prop :=
  | reach_init : reachable s0 s0
  | reach_step s s' : reachable s0 s → step s (inr s') → reachable s0 s'.

(** Initially the lock is as [initlock] leaves it and every CPU is outside,
    with balanced interrupt state. *)
Definition initial (s : sys) : Prop :=
  locked (lk s) = 0 ∧ lcpu (lk s) = None ∧
  ∀ i c p, threads s !! i = Some (c, p) → p = Idle ∧ cli_ok c.

(** ** The invariant behind mutual exclusion *)

Definition owns (p : pc) : Prop := p = Got ∨ p = Crit ∨ p = Rel.

Definition thread_ok (t : cpu * pc) : Prop :=
  cli_ok t.1 ∧ (t.2 ≠ Idle → 1 ≤ ncli t.1 ∧ eflags_if t.1 = false).

(** The lock word is clear exactly when no CPU is between its successful [xchg]
    and its [movl $0]; [lcpu] is the holder from [lk->cpu = mycpu()] on. *)
Inductive lock_ok (ts : list (cpu * pc)) (l : spinlock) : Prop :=
  | lock_free :
      locked l = 0 → lcpu l = None →
      (∀ i c p, ts !! i = Some (c, p) → ¬ owns p) → lock_ok ts l
  | lock_taken o c p :
      locked l = 1 → ts !! o = Some (c, p) → owns p →
      lcpu l = (if decide (p = Crit) then Some o else None) →
      (∀ i c' p', ts !! i = Some (c', p') → owns p' → i = o) → lock_ok ts l.

Definition inv (s : sys) : Prop :=
  (∀ i t, threads s !! i = Some t → thread_ok t) ∧ lock_ok (threads s) (lk s).

Lemma initial_inv s : initial s → inv s.
Proof.
  intros (Hl & Hc & Ht). split.
  - intros i [c p] Hi. destruct (Ht _ _ _ Hi) as [-> ?]. by split.
  - apply lock_free; [done..|]. intros i c p Hi. destruct (Ht _ _ _ Hi) as [-> _].
    by intros [?|[?|?]].
Qed.

Lemma holding_pos i c l :
  0 < ncli c → eflags_if c = false → holding i c l = inr (lock_held_by i l, c).
Proof. intros. unfold holding. by rewrite popcli_pushcli_pos. Qed.

Lemma acquire_begin_eq i c l :
  cli_ok c →
  acquire_begin i c l = if lock_held_by i l then inl "acquire" else inr (pushcli c).
Proof.
  intros Hok. unfold acquire_begin.
  pose proof (iter_pushcli_off 0 c Hok) as [??].
  rewrite holding_pos by done. by destruct (lock_held_by i l).
Qed.

Lemma release_begin_eq i c l :
  0 < ncli c → eflags_if c = false →
  release_begin i c l =
    if lock_held_by i l
    then inr (c, Spinlock (locked l) (lname l) None (<[0%nat := 0]> (pcs l)))
    else inl "release".
Proof.
  intros. unfold release_begin. rewrite holding_pos by done. by destruct (lock_held_by i l).
Qed.

Lemma popcli_ok c : 0 < ncli c → eflags_if c = false → ∃ c', popcli c = inr c' ∧ cli_ok c'.
Proof.
  destruct c as [f n i]; simpl; intros ? ->. unfold popcli, cli_ok; simpl.
  destruct (Z.ltb_spec (n - 1) 0); [lia|].
  destruct (Z.eqb_spec (n - 1) 0), i; simpl; eexists; (split; [done|]); simpl; split; lia || done.
Qed.

(** Only the CPU in its critical section sees itself as the holder. *)
Lemma lock_ok_held ts l i c p :
  lock_ok ts l → ts !! i = Some (c, p) → lock_held_by i l = bool_decide (p = Crit).
Proof.
  intros [Hl Hc Hno | o co po Hl Ho Hown Hc Huniq] Hi; unfold lock_held_by; rewrite Hl, Hc; simpl.
  - symmetry. apply bool_decide_eq_false. intros ->. apply (Hno _ _ _ Hi). unfold owns. tauto.
  - destruct (decide (i = o)) as [->|Hne].
    + simplify_eq. apply bool_decide_ext. case_decide; naive_solver.
    + rewrite !bool_decide_eq_false_2; [done| |].
      * intros ->. apply Hne, (Huniq _ _ _ Hi). unfold owns. tauto.
      * case_decide; naive_solver.
Qed.

(** Moving CPU [i] between points that do not own the lock changes nothing. *)
Lemma lock_ok_move ts l i c p c' p' :
  ts !! i = Some (c, p) → ¬ owns p → ¬ owns p' → lock_ok ts l →
  lock_ok (<[i := (c', p')]> ts) l.
Proof.
  intros Hi Hp Hp' [Hl Hc Hno | o co po Hl Ho Hown Hc Huniq].
  - apply lock_free; [done..|]. intros j cj pj Hj.
    apply list_lookup_insert_Some in Hj as [(-> & [=] & _)|[_ Hj]]; [by subst|eauto].
  - assert (i ≠ o) by (intros <-; by simplify_eq).
    apply (lock_taken _ _ o co po); [done| |done..|].
    + by rewrite list_lookup_insert_ne.
    + intros j cj pj Hj. apply list_lookup_insert_Some in Hj as [(-> & [=] & _)|[_ Hj]];
        [subst; by intros ?|eauto].
Qed.

(** Moving the owner [i] to another owning point. *)
Lemma lock_ok_owner ts l l' i c p p' :
  ts !! i = Some (c, p) → owns p → owns p' → lock_ok ts l →
  locked l' = locked l → lcpu l' = (if decide (p' = Crit) then Some i else None) →
  lock_ok (<[i := (c, p')]> ts) l'.
Proof.
  intros Hi Hp Hp' [Hl Hc Hno | o co po Hl Ho Hown Hc Huniq] Hl' Hc'.
  - by destruct (Hno _ _ _ Hi).
  - apply (lock_taken _ _ i c p'); [congruence| |done..|].
    + apply list_lookup_insert_eq. by eapply lookup_lt_Some.
    + intros j cj pj Hj Hown'. apply list_lookup_insert_Some in Hj as [(-> & _ & _)|[_ Hj]]; [done|].
      rewrite (Huniq _ _ _ Hi Hp). by apply (Huniq _ _ _ Hj).
Qed.

Lemma threads_insert (ts : list (cpu * pc)) i t (P : cpu * pc → Prop) :
  (∀ j u, ts !! j = Some u → P u) → P t → ∀ j u, <[i := t]> ts !! j = Some u → P u.
Proof.
  intros H Ht j u Hj. apply list_lookup_insert_Some in Hj as [(-> & -> & _)|[_ Hj]]; eauto.
Qed.

(** A CPU inside [acquire]..[release] has interrupts off, so taking the lock
    off its hands is up to it alone. *)
Lemma step_inv s s' : inv s → step s (inr s') → inv s'.
Proof.
  intros [Ht Hl] Hstep. inversion Hstep; subst; unfold inv, set_thread; simpl;
    try match goal with H : threads s !! _ = Some _ |- _ =>
      destruct (Ht _ _ H) as [Hok Hcli]; simpl in Hok, Hcli end.
  - (* acquire *)
    match goal with H : acquire_begin _ _ _ = _ |- _ =>
      rewrite acquire_begin_eq in H by done; destruct (lock_held_by i (lk s)); simplify_eq end.
    pose proof (iter_pushcli_off 0 c Hok) as [??]. split.
    + apply threads_insert; [done|]. split; [by apply pushcli_ok|]. simpl in *. split; [lia|done].
    + eapply lock_ok_move; [done|by intros [?|[?|?]]..|done].
  - (* xchg takes the lock *)
    split; [apply threads_insert; [done|]; split; [done|intros _; by apply Hcli]|].
    unfold xchg_locked in *. simplify_eq.
    destruct Hl as [Hl Hc Hno | o co po Hl]; [|congruence].
    apply (lock_taken _ _ i c Got); simpl; [done| |by left|by rewrite Hc|].
    + apply list_lookup_insert_eq. by eapply lookup_lt_Some.
    + intros j cj pj Hj Hown. apply list_lookup_insert_Some in Hj as [(-> & _ & _)|[_ Hj]]; [done|].
      by destruct (Hno _ _ _ Hj).
  - (* xchg finds it taken *)
    split; [done|]. unfold xchg_locked in *. simplify_eq.
    destruct Hl as [Hl Hc Hno | o co po Hl Ho Hown Hc Huniq]; [congruence|].
    by apply (lock_taken _ _ o co po).
  - (* lk->cpu = mycpu() *)
    split; [apply threads_insert; [done|]; split; [done|intros _; by apply Hcli]|].
    eapply lock_ok_owner; [done|by left|by right; left|done|done|done].
  - (* release *)
    destruct (Hcli ltac:(done)) as [? Hoff].
    match goal with H : release_begin _ _ _ = _ |- _ =>
      rewrite release_begin_eq in H by (done || lia);
      destruct (lock_held_by i (lk s)); simplify_eq end.
    split; [apply threads_insert; [done|]; split; [done|intros _; by apply Hcli]|].
    eapply lock_ok_owner; [done|by right; left|by right; right|done|done|done].
  - (* movl $0 *)
    split; [apply threads_insert; [done|]; split; [done|intros _; by apply Hcli]|].
    destruct Hl as [Hl Hc Hno | o co po Hl Ho Hown Hc Huniq].
    { destruct (Hno _ _ _ H0). by right; right. }
    assert (i = o) as <- by (eapply Huniq; [done|by right; right]). simplify_eq.
    apply lock_free; [done..|]. intros j cj pj Hj Hown'.
    apply list_lookup_insert_Some in Hj as [(-> & [=] & _)|[Hne Hj]]; [subst; by destruct Hown' as [?|[?|?]]|].
    apply Hne. by rewrite (Huniq _ _ _ Hj).
  - (* popcli *)
    destruct (Hcli ltac:(done)) as [? Hoff].
    destruct (popcli_ok c) as (c1 & Hpop & Hok1); [lia|done|].
    assert (c' = c1) as -> by congruence. split; [apply threads_insert; [done|by split]|].
    eapply lock_ok_move; [done|by intros [?|[?|?]]..|done].
Qed.

Lemma reachable_inv s0 s : initial s0 → reachable s0 s → inv s.
Proof. induction 2; eauto using initial_inv, step_inv. Qed.

(** ** Theorems *)

(** C12: mutual exclusion.  Whatever the interleaving of the CPUs' instructions,
    two CPUs are never both between the return of [acquire(lk)] and their
    [release(lk)], and a CPU that is there has its interrupts disabled. *)
Theorem mutual_exclusion s0 s i j ci cj :
  initial s0 → reachable s0 s →
  threads s !! i = Some (ci, Crit) → threads s !! j = Some (cj, Crit) →
  i = j ∧ eflags_if ci = false.
Proof.
  intros Hinit Hreach Hi Hj. destruct (reachable_inv s0 s Hinit Hreach) as [Ht Hl]. split.
  - destruct Hl as [_ _ Hno | o co po _ _ _ _ Huniq].
    + destruct (Hno _ _ _ Hi). by right; left.
    + rewrite (Huniq i ci Crit), (Huniq j cj Crit); [done|done|by right; left|done|by right; left].
  - by apply (Ht _ _ Hi).
Qed.

(** no reachable step of the protocol panics: [acquire] never finds the
    lock held by the acquiring CPU, [release] never finds it not held, and
    [popcli] is always balanced and called with interrupts off. *)
Theorem lock_protocol_never_panics s0 s e :
  initial s0 → reachable s0 s → ¬ step s (inl e).
Proof.
  intros Hinit Hreach. destruct (reachable_inv s0 s Hinit Hreach) as [Ht Hl].
  intros Hstep. inversion Hstep; subst;
    match goal with H : threads s !! _ = Some _ |- _ =>
      destruct (Ht _ _ H) as [Hok Hcli]; pose proof (lock_ok_held _ _ _ _ _ Hl H) as Hheld;
      simpl in Hok, Hcli end.
  - by rewrite acquire_begin_eq, Hheld in * by done.
  - destruct (Hcli ltac:(done)). by rewrite release_begin_eq, Hheld in * by (done || lia).
  - destruct (Hcli ltac:(done)). destruct (popcli_ok c) as (? & ? & _); [lia|done|congruence].
Qed.

(** [n] nested [pushcli]s are undone by [n] [popcli]s: none of them panics
    and interrupts come back exactly as they were before the first. *)
Theorem pushcli_popcli_nest n c :
  cli_ok c →
  ∃ c', popcli_n n (Nat.iter n pushcli c) = inr c' ∧
        eflags_if c' = eflags_if c ∧ ncli c' = ncli c.
Proof.
  intros Hok. destruct n as [|n]; [by exists c|].
  rewrite (popcli_n_snoc n _ (pushcli c)) by (by apply popcli_iter).
  destruct (decide (ncli c = 0)) as [Hz|Hnz].
  - rewrite popcli_pushcli_zero by done. eexists. split; [done|]. by rewrite Hz.
  - destruct Hok as [? Hoff]. exists c. split; [|done].
    apply popcli_pushcli_pos; [lia|apply Hoff; lia].
Qed.

(** [c] lists lock [l] as held exactly when the machine's [holding] says so. *)
Definition held_agrees (i : nat) (k : spinlock) (l : lock) (c : ctx) : Prop :=
  lock_held_by i k = Prelude.holding l c.

(** the per-thread [acquire] and [release] that the other components use
    are what the machine does with a lock no other CPU holds: they panic with
    the same message in the same cases, and otherwise both succeed and agree on
    who holds the lock afterwards. *)
Theorem thread_lock_refines i mem v cp k l c :
  cli_ok cp → (lock_held_by i k = true → 0 < ncli cp) → held_agrees i k l c →
  (locked k ≠ 0 → lock_held_by i k = true) →
  match acquire i mem v cp k, Prelude.acquire l c tt with
  | Some (inl e), Panic e' => e = e'
  | Some (inr (_, k')), Ret _ c' _ => held_agrees i k' l c'
  | _, _ => False
  end ∧
  (lock_held_by i k = true →
   match release i cp k, Prelude.release l c tt with
   | inr (_, k'), Ret _ c' _ => held_agrees i k' l c'
   | _, _ => False
   end).
Proof.
  intros Hok Hpos Hag Hfree. unfold held_agrees in *. split.
  - unfold acquire, Prelude.acquire. rewrite acquire_begin_eq, Hag by done.
    destruct (Prelude.holding l c) eqn:Hh; [done|]. unfold xchg_locked.
    destruct (Z.eqb_spec (locked k) 0) as [|n]; [|specialize (Hfree n); congruence].
    rewrite holding_head. unfold acquire_end, lock_held_by. simpl.
    by rewrite bool_decide_eq_true_2.
  - intros Hheld. destruct Hok as [? Hoff]. specialize (Hpos Hheld). specialize (Hoff Hpos).
    unfold release, Prelude.release. rewrite release_begin_eq by done. rewrite <- Hag, Hheld.
    destruct (popcli_ok cp) as (cp' & -> & _); [done..|].
    unfold release_store, lock_held_by, Prelude.holding. simpl. symmetry.
    apply bool_decide_eq_false. rewrite list_elem_of_filter. by intros [].
Qed.

(** *** Witnesses *)

Definition lock0 : spinlock := initlock (Spinlock 7 "" (Some 3%nat) (replicate 10 0)) "ptable".
Definition cpu_on : cpu := Cpu true 0 false.
Definition two_cpus : sys := Sys [(cpu_on, Idle); (cpu_on, Idle)] lock0.

Lemma two_cpus_initial : initial two_cpus.
Proof.
  split; [done|]. split; [done|]. intros [|[|i]] c p; simpl; intros [=]; subst; done || split; done.
Qed.

(** CPU 0 takes the lock. *)
Definition cpu0_in : sys :=
  Sys [(Cpu false 1 true, Crit); (cpu_on, Idle)] (Spinlock 1 "ptable" (Some 0%nat) (replicate 10 0)).

Definition cpu0_spin : sys := Sys [(Cpu false 1 true, Spin); (cpu_on, Idle)] lock0.
Definition cpu0_got : sys :=
  Sys [(Cpu false 1 true, Got); (cpu_on, Idle)] (Spinlock 1 "ptable" None (replicate 10 0)).

Lemma cpu0_in_reachable : reachable two_cpus cpu0_in.
Proof.
  apply (reach_step _ cpu0_got);
    [|exact (step_record cpu0_got 0 (Cpu false 1 true) (replicate 10 0) eq_refl)].
  apply (reach_step _ cpu0_spin);
    [|exact (step_xchg_ok cpu0_spin 0 (Cpu false 1 true) _ eq_refl eq_refl)].
  apply (reach_step _ two_cpus);
    [apply reach_init|exact (step_acquire two_cpus 0 cpu_on (Cpu false 1 true) eq_refl eq_refl)].
Qed.

Lemma mutual_exclusion_witness :
  initial two_cpus ∧ reachable two_cpus cpu0_in ∧ eflags_if (Cpu false 1 true) = false.
Proof.
  split; [apply two_cpus_initial|]. split; [apply cpu0_in_reachable|].
  apply (mutual_exclusion two_cpus cpu0_in 0 0 (Cpu false 1 true) (Cpu false 1 true));
    [apply two_cpus_initial|apply cpu0_in_reachable|reflexivity|reflexivity].
Defined.

Lemma lock_protocol_never_panics_witness : ¬ step cpu0_in (inl "release").
Proof.
  apply (lock_protocol_never_panics two_cpus cpu0_in);
    [apply two_cpus_initial|apply cpu0_in_reachable].
Defined.

Lemma pushcli_popcli_nest_witness :
  ∃ c', popcli_n 3 (Nat.iter 3 pushcli cpu_on) = inr c' ∧ eflags_if c' = true ∧ ncli c' = 0.
Proof. apply (pushcli_popcli_nest 3 cpu_on). split; [done|]. simpl. lia. Defined.

Lemma thread_lock_refines_witness :
  held_agrees 0 lock0 Lptable (Ctx [] []) ∧
  match acquire 0 (λ _, 0) 0 cpu_on lock0, Prelude.acquire Lptable (Ctx [] []) tt with
  | Some (inl e), Panic e' => e = e'
  | Some (inr (_, k')), Ret _ c' _ => held_agrees 0 k' Lptable c'
  | _, _ => False
  end.
Proof.
  split; [reflexivity|].
  apply (thread_lock_refines 0 (λ _, 0) 0 cpu_on lock0 Lptable (Ctx [] []));
    [split; [done|simpl; lia]|done|reflexivity|done].
Defined.
