(* ===== verification/Locks.v ===== *)
(** * Sleep locks and the reentrant lock

    [sleeplock.c], and from [proc.c] the lab's reentrant lock [rlock] with the
    system call that tests it.  The reentrant lock is also modelled one store at
    a time, with several processes interleaving, because [releasereentrantlock]
    clears the owner after it has given the spin lock away. *)

From S2P Require Import Prelude.

(** ** Sleep locks *)

Module Sleeplock.

(** [struct sleeplock] without its debugging name; its spin lock [lk] is
    [Lsleep id] of the thread's context. *)
Record sleeplock := SL { locked : Z; pid : Z }.

Definition initsleeplock : sleeplock := SL 0 0.

(** [mypid] is [myproc()->pid].  Going to sleep leaves the loop's state as it
    is: a woken process takes the spin lock and tests [locked] again. *)
Definition acquiresleep (id : sleepid) (mypid : Z) : M sleeplock unit :=
  acquire (Lsleep id);;
  l ← get;
  if negb (locked l =? 0) then sleep_on (ChSleeplock id) (Lsleep id)
  else
    put (SL 1 mypid);;
    release (Lsleep id).

Definition releasesleep (id : sleepid) : M sleeplock unit :=
  acquire (Lsleep id);;
  put (SL 0 0);;
  emit (EWakeup (ChSleeplock id));;
  release (Lsleep id).

Definition holdingsleep (id : sleepid) (mypid : Z) : M sleeplock bool :=
  acquire (Lsleep id);;
  l ← get;
  let r := negb (locked l =? 0) && (pid l =? mypid) in
  release (Lsleep id);;
  mret r.

(** Two processes on one sleep lock, each call atomic under the lock's spin
    lock: a process is outside, asleep in [acquiresleep], or inside. *)
Inductive spc := Out | Asleep | In.

Record world := World { procs : list (Z * spc); sl : sleeplock }.

#[global] Instance spc_eq_dec : EqDecision spc.
Proof. solve_decision. Defined.

(** [acquiresleep] by a process that is outside, or asleep and woken; then
    [releasesleep], whose [wakeup] makes every sleeper runnable again. *)
Inductive sstep (id : sleepid) (w : world) : world → Prop :=
  | s_acquire i p c' l' :
      procs w !! i = Some (p, Out) →
      acquiresleep id p (Ctx [] []) (sl w) = Ret tt c' l' →
      sstep id w (World (<[i := (p, In)]> (procs w)) l')
  | s_block i p ch c' l' :
      procs w !! i = Some (p, Out) →
      acquiresleep id p (Ctx [] []) (sl w) = Sleep ch c' l' →
      sstep id w (World (<[i := (p, Asleep)]> (procs w)) l')
  | s_release i p c' l' :
      procs w !! i = Some (p, In) →
      releasesleep id (Ctx [] []) (sl w) = Ret tt c' l' →
      sstep id w (World ((λ t : Z * spc, if bool_decide (EWakeup (ChSleeplock id) ∈ trace c')
                                             && bool_decide (t.2 = Asleep)
                                         then (t.1, Out) else t)
                          <$> <[i := (p, Out)]> (procs w)) l').

Lemma acquiresleep_free id p L t l :
  Lsleep id ∉ L → locked l = 0 →
  acquiresleep id p (Ctx L t) l = Ret tt (Ctx L t) (SL 1 p).
Proof.
  intros HL Hl. unfold acquiresleep. rewrite bind_acquire by done. simpl.
  unfold mbind, M_bind, get, put. simpl. rewrite Hl. simpl. by rewrite release_head.
Qed.

Lemma acquiresleep_busy id p L t l :
  Lsleep id ∉ L → locked l ≠ 0 →
  acquiresleep id p (Ctx L t) l = Sleep (ChSleeplock id) (Ctx L t) l.
Proof.
  intros HL Hl. unfold acquiresleep. rewrite bind_acquire by done. simpl.
  unfold mbind, M_bind, get. simpl. destruct (Z.eqb_spec (locked l) 0); [done|]. simpl.
  by rewrite sleep_on_head.
Qed.

Lemma releasesleep_eq id L t l :
  Lsleep id ∉ L →
  releasesleep id (Ctx L t) l = Ret tt (Ctx L (t ++ [EWakeup (ChSleeplock id)])) (SL 0 0).
Proof.
  intros HL. unfold releasesleep. rewrite bind_acquire by done. simpl.
  unfold mbind, M_bind, put, emit. simpl. by rewrite release_head.
Qed.

Lemma holdingsleep_eq id p L t l :
  Lsleep id ∉ L →
  holdingsleep id p (Ctx L t) l =
    Ret (negb (locked l =? 0) && (pid l =? p)) (Ctx L t) l.
Proof.
  intros HL. unfold holdingsleep. rewrite bind_acquire by done. simpl.
  unfold mbind, M_bind, get. simpl. by rewrite release_head.
Qed.

(** The lock word says whether somebody is inside, sleepers wait only for a
    holder, and the recorded pid is the holder's. *)
Record sinv (w : world) : Prop := {
  sinv_in i p : procs w !! i = Some (p, In) → locked (sl w) = 1 ∧ pid (sl w) = p;
  sinv_uniq i j p q : procs w !! i = Some (p, In) → procs w !! j = Some (q, In) → i = j;
  sinv_busy : locked (sl w) ≠ 0 → ∃ i p, procs w !! i = Some (p, In);
  sinv_asleep i p : procs w !! i = Some (p, Asleep) → locked (sl w) ≠ 0 }.

Inductive sreach (id : sleepid) (w0 : world) : world → Prop :=
  | sreach_init : sreach id w0 w0
  | sreach_step w w' : sreach id w0 w → sstep id w w' → sreach id w0 w'.

Definition sinitial (w : world) : Prop :=
  sl w = initsleeplock ∧ ∀ i p st, procs w !! i = Some (p, st) → st = Out.

Lemma sinitial_inv w : sinitial w → sinv w.
Proof.
  intros [Hl Hp]. split; rewrite ?Hl; simpl; intros; try done;
    match goal with H : procs w !! _ = Some _ |- _ => apply Hp in H; done end.
Qed.

Lemma sstep_inv id w w' : sinv w → sstep id w w' → sinv w'.
Proof.
  intros [Hin Huniq Hbusy Hsl] Hstep. destruct Hstep as [i p c' l' Hi Hr|i p ch c' l' Hi Hr|i p c' l' Hi Hr].
  - destruct (decide (locked (sl w) = 0)) as [Hz|Hz].
    2: { by rewrite acquiresleep_busy in Hr by (done || set_solver). }
    rewrite acquiresleep_free in Hr by (done || set_solver). injection Hr as <- <-.
    assert (∀ j q, procs w !! j = Some (q, In) → False) as Hno.
    { intros j q Hj. destruct (Hin _ _ Hj). lia. }
    split; simpl.
    + intros j q Hj. apply list_lookup_insert_Some in Hj as [(-> & [=] & _)|[_ Hj]]; [done|].
      by destruct (Hno _ _ Hj).
    + intros j k q r Hj Hk.
      apply list_lookup_insert_Some in Hj as [(-> & _)|[_ Hj]]; [|by destruct (Hno _ _ Hj)].
      apply list_lookup_insert_Some in Hk as [(-> & _)|[_ Hk]]; [done|by destruct (Hno _ _ Hk)].
    + intros _. exists i, p. apply list_lookup_insert_eq. by eapply lookup_lt_Some.
    + done.
  - destruct (decide (locked (sl w) = 0)) as [Hz|Hz].
    { by rewrite acquiresleep_free in Hr by (done || set_solver). }
    rewrite acquiresleep_busy in Hr by (done || set_solver). injection Hr as <- <- <-.
    split; simpl.
    + intros j q Hj. apply list_lookup_insert_Some in Hj as [(_ & [=] & _)|[_ Hj]]. eauto.
    + intros j k q r Hj Hk.
      apply list_lookup_insert_Some in Hj as [(_ & [=] & _)|[_ Hj]].
      apply list_lookup_insert_Some in Hk as [(_ & [=] & _)|[_ Hk]]. eauto.
    + intros _. destruct (Hbusy Hz) as (j & q & Hj). exists j, q.
      rewrite list_lookup_insert_ne; [done|]. intros ->. by simplify_eq.
    + done.
  - rewrite releasesleep_eq in Hr by set_solver. injection Hr as <- <-. simpl trace.
    rewrite (bool_decide_eq_true_2 (_ ∈ _)) by (by apply list_elem_of_singleton). simpl.
    assert (∀ j q st, ((λ t : Z * spc, if bool_decide (t.2 = Asleep) then (t.1, Out) else t)
              <$> <[i := (p, Out)]> (procs w)) !! j = Some (q, st) → st = Out) as Hout.
    { intros j q st Hj. apply list_lookup_fmap_Some in Hj as ([q' st'] & Heq & Hj). simpl in Heq.
      case_bool_decide; [by injection Heq|]. injection Heq as <- <-.
      apply list_lookup_insert_Some in Hj as [(_ & [=] & _)|[Hne Hj]]; [done|].
      destruct st; [done|done|]. destruct Hne. by eapply Huniq. }
    split; simpl; [| |done|]; intros; match goal with H : _ !! _ = Some (_, _) |- _ => apply Hout in H; done end.
Qed.

(** sleep locks exclude each other and lose no wakeup.  In every reachable
    state at most one process is inside; a process asleep in [acquiresleep] has
    a holder inside to wake it; and the holder's [releasesleep] issues a wakeup
    on exactly the channel the sleepers are blocked on. *)
Theorem sleeplock_exclusion id w0 w :
  sinitial w0 → sreach id w0 w →
  (∀ i j p q, procs w !! i = Some (p, In) → procs w !! j = Some (q, In) → i = j) ∧
  (∀ i p, procs w !! i = Some (p, Asleep) →
     ∃ j q, procs w !! j = Some (q, In) ∧
       ∃ c' l', releasesleep id (Ctx [] []) (sl w) = Ret tt c' l' ∧
                locked l' = 0 ∧ EWakeup (ChSleeplock id) ∈ trace c') ∧
  (∀ i p q, procs w !! i = Some (p, In) →
     holdingsleep id q (Ctx [] []) (sl w) = Ret (bool_decide (p = q)) (Ctx [] []) (sl w)).
Proof.
  intros Hi Hr. assert (sinv w) as [Hin Huniq Hbusy Hsl]
    by (induction Hr; eauto using sinitial_inv, sstep_inv).
  split; [done|]. split.
  - intros i p Hp. destruct (Hbusy (Hsl _ _ Hp)) as (j & q & Hj). exists j, q. split; [done|].
    rewrite releasesleep_eq by set_solver. eexists _, _. split; [done|]. split; [done|]. set_solver.
  - intros i p q Hp. destruct (Hin _ _ Hp) as [Hl Hpid].
    rewrite holdingsleep_eq by set_solver. rewrite Hl, Hpid. simpl. f_equal.
    by destruct (Z.eqb_spec p q), (bool_decide_reflect (p = q)).
Qed.

Definition sworld0 : world := World [(4, Out); (5, Out)] initsleeplock.

Lemma sleeplock_exclusion_witness :
  sreach (SLbuf 0) sworld0 (World [(4, In); (5, Out)] (SL 1 4)) ∧
  (∀ q, holdingsleep (SLbuf 0) q (Ctx [] []) (SL 1 4) = Ret (bool_decide (4 = q)) (Ctx [] []) (SL 1 4)).
Proof.
  assert (Hr : sreach (SLbuf 0) sworld0 (World [(4, In); (5, Out)] (SL 1 4))).
  { apply (sreach_step _ _ sworld0); [apply sreach_init|].
    exact (s_acquire (SLbuf 0) sworld0 0 4 (Ctx [] []) (SL 1 4) eq_refl eq_refl). }
  split; [exact Hr|]. intros q.
  apply (sleeplock_exclusion (SLbuf 0) sworld0 (World [(4, In); (5, Out)] (SL 1 4))) with (i := 0%nat);
    [|exact Hr|reflexivity].
  split; [done|]. intros [|[|i]] p st; simpl; intros [=]; done.
Defined.

End Sleeplock.

(** ** The reentrant lock *)

Module Reentrant.

(** [struct reentrantlock]: [owner] is the index of a process in the table,
    [None] for a null pointer; its spin lock is [Lrlock]. *)
Record rlock := RL { owner : option nat; recursion : Z }.

Definition initreentrantlock : rlock := RL None 0.

(** [rinit()]: called once at boot. *)
Definition rinit : rlock := initreentrantlock.

Definition acquirereentrantlock (me : nat) : M rlock unit :=
  r ← get;
  if bool_decide (owner r = Some me) then put (RL (owner r) (i32 (recursion r + 1)))
  else
    acquire Lrlock;;
    modify (λ r, RL (Some me) (recursion r));;
    modify (λ r, RL (owner r) 1).

Definition releasereentrantlock (me : nat) : M rlock unit :=
  r ← get;
  if negb (bool_decide (owner r = Some me)) then panic "reentrant release"
  else
    modify (λ r, RL (owner r) (i32 (recursion r - 1)));;
    r ← get;
    if recursion r =? 0 then
      emit (EPrint "ttt\n" []);;
      release Lrlock;;
      modify (λ r, RL None (recursion r));;
      emit (EPrint "qqqq\n" [])
    else mret tt.

(** [reentrantlock_test(count)] by process [me] with pid [pid].  The result is
    [None] when [fuel] calls are not enough, [Some None] for the bare [return;]
    of the [count == 5] case (the value of the call is not determined), and
    [Some (Some 0)] otherwise. *)
Fixpoint reentrantlock_test (fuel : nat) (me : nat) (pid count : Z) : M rlock (option (option Z)) :=
  match fuel with
  | O => mret None
  | S fuel =>
      emit (EPrint "pid %d\n" [PInt pid]);;
      if count =? 5 then
        emit (EPrint "A recursive function terminated without a deadlock!\n" []);;
        mret (Some None)
      else
        acquirereentrantlock me;;
        let count := i32 (count + 1) in
        emit (EPrint "%daaaa\n" [PInt count]);;
        v ← reentrantlock_test fuel me pid count;
        match v with
        | None => mret None
        | Some _ =>
            emit (EPrint "%dmmmmm\n" [PInt count]);;
            releasereentrantlock me;;
            emit (EPrint "done\n" []);;
            mret (Some (Some 0))
        end
  end.

(** Process [me] owns the lock [k] deep, the rest of its locks being [L]. *)
Lemma acquire_nested me k c :
  1 ≤ k < 2147483647 →
  acquirereentrantlock me c (RL (Some me) k) = Ret tt c (RL (Some me) (k + 1)).
Proof.
  intros. unfold acquirereentrantlock, mbind, M_bind, get, put; simpl.
  rewrite bool_decide_eq_true_2, i32_small by (done || lia). done.
Qed.

Lemma acquire_first me o k c :
  o ≠ Some me → Lrlock ∉ held c →
  acquirereentrantlock me c (RL o k) = Ret tt (Ctx (Lrlock :: held c) (trace c)) (RL (Some me) 1).
Proof.
  intros. unfold acquirereentrantlock, mbind, M_bind, get, modify; simpl.
  rewrite bool_decide_eq_false_2, acquire_fresh by done. done.
Qed.

Lemma release_nested me k c :
  1 < k ≤ 2147483647 →
  releasereentrantlock me c (RL (Some me) k) = Ret tt c (RL (Some me) (k - 1)).
Proof.
  intros. unfold releasereentrantlock, mbind, M_bind, get, modify; simpl.
  rewrite bool_decide_eq_true_2 by done. simpl. rewrite i32_small by lia.
  destruct (Z.eqb_spec (k - 1) 0); [lia|done].
Qed.

Lemma release_last me L t :
  Lrlock ∉ L →
  releasereentrantlock me (Ctx (Lrlock :: L) t) (RL (Some me) 1) =
    Ret tt (Ctx L (t ++ [EPrint "ttt\n" []; EPrint "qqqq\n" []])) (RL None 0).
Proof.
  intros. unfold releasereentrantlock, mbind, M_bind, get, modify, emit; simpl.
  rewrite bool_decide_eq_true_2 by done. simpl.
  rewrite filter_ne_head, <- app_assoc by done. done.
Qed.

(** Inside the lock, a call that has at most [fuel - 1] levels to go comes back
    with the nesting depth it started from. *)
Lemma test_nested fuel me pid count k L t :
  count ≤ 5 → 5 - count < Z.of_nat fuel → -2147483648 ≤ count →
  1 ≤ k → k + (5 - count) < 2147483647 →
  ∃ v t', reentrantlock_test fuel me pid count (Ctx L t) (RL (Some me) k)
          = Ret (Some v) (Ctx L t') (RL (Some me) k).
Proof.
  revert count k t. induction fuel as [|fuel IH]; [lia|]. intros count k t ? ? ? ? ?.
  cbn [reentrantlock_test]. destruct (Z.eqb_spec count 5).
  { do 2 eexists. done. }
  edestruct (IH (count + 1) (k + 1)) as (v & t' & Hrec); [lia..|].
  run done. run (apply acquire_nested; lia).
  rewrite i32_small by lia. run done.
  run (apply Hrec). run done.
  run (apply release_nested; lia).
  replace (k + 1 - 1) with k by lia. do 2 eexists. done.
Qed.

(** A call with [fuel] levels that has not reached [count == 5]. *)
Lemma test_diverges_nested fuel me pid count k L t :
  5 < count → count + Z.of_nat fuel < 2147483648 →
  1 ≤ k → k + Z.of_nat fuel < 2147483648 →
  ∃ c' r', reentrantlock_test fuel me pid count (Ctx L t) (RL (Some me) k) = Ret None c' r'.
Proof.
  revert count k t. induction fuel as [|fuel IH]; intros count k t ????.
  { do 2 eexists. done. }
  cbn [reentrantlock_test]. destruct (Z.eqb_spec count 5); [lia|].
  edestruct (IH (count + 1) (k + 1)) as (c' & r' & Hrec); [lia..|].
  run done. run (apply acquire_nested; lia).
  rewrite i32_small by lia. run done. run (apply Hrec).
  do 2 eexists. done.
Qed.

(** the reentrant lock nests.  [reentrantlock_test(count)] with
    [count < 5], called by a process that does not own the lock while it is
    free, takes the lock [5 - count] times without deadlock and returns 0 with
    the lock free, its owner cleared and the caller's other locks untouched. *)
Theorem reentrantlock_test_returns fuel me pid count L t :
  -2147483640 ≤ count < 5 → 5 - count < Z.of_nat fuel → Lrlock ∉ L →
  ∃ t', reentrantlock_test fuel me pid count (Ctx L t) rinit
        = Ret (Some (Some 0)) (Ctx L t') (RL None 0).
Proof.
  intros Hc Hf HL. destruct fuel as [|fuel]; [lia|].
  cbn [reentrantlock_test]. destruct (Z.eqb_spec count 5); [lia|].
  edestruct (test_nested fuel me pid (count + 1) 1 (Lrlock :: L)) as (v & t' & Hrec); [lia..|].
  run done. run (apply acquire_first; done).
  rewrite i32_small by lia. run done. run (apply Hrec).
  run done. run (by apply release_last).
  eexists. done.
Qed.

(** for [count > 5] the recursion has no base case below the overflow of
    [count]: no number of calls under [2^31 - count] is enough for
    [reentrantlock_test] to return. *)
Theorem reentrantlock_test_runs_away fuel me pid count L t :
  5 < count → count + Z.of_nat fuel < 2147483648 → Lrlock ∉ L →
  ∃ c' r', reentrantlock_test fuel me pid count (Ctx L t) rinit = Ret None c' r'.
Proof.
  intros ?? HL. destruct fuel as [|fuel]; [by do 2 eexists|].
  cbn [reentrantlock_test]. destruct (Z.eqb_spec count 5); [lia|].
  edestruct (test_diverges_nested fuel me pid (count + 1) 1 (Lrlock :: L)) as (c' & r' & Hrec); [lia..|].
  run done. run (apply acquire_first; done).
  rewrite i32_small by lia. run done. run (apply Hrec).
  do 2 eexists. done.
Qed.

Lemma reentrantlock_test_returns_witness :
  ∃ t', reentrantlock_test 10 3 7 0 (Ctx [] []) rinit = Ret (Some (Some 0)) (Ctx [] t') (RL None 0).
Proof. apply (reentrantlock_test_returns 10 3 7 0 [] []); [lia|lia|set_solver]. Defined.

Lemma reentrantlock_test_runs_away_witness :
  ∃ c' r', reentrantlock_test 1000 3 7 6 (Ctx [] []) rinit = Ret None c' r'.
Proof. apply (reentrantlock_test_runs_away 1000 3 7 6 [] []); [lia|lia|set_solver]. Defined.

(** *** One store at a time

    The same routines on a machine where processes interleave between the
    accesses to [rlock]: [holder] is who has the spin lock. *)
Inductive rpc :=
  | RIdle      (* outside *)
  | RSpin      (* in acquire(&rlock.lock) *)
  | RSet       (* spin lock taken, owner not yet stored *)
  | RIn (d : nat)  (* [S d] calls of acquirereentrantlock to undo *)
  | RUnlock    (* recursion reached 0, before release(&rlock.lock) *)
  | RClear.    (* spin lock released, before rlock.owner = 0 *)

Record rsys := RSys { rthreads : list rpc; holder : option nat; rl : rlock }.

Inductive rstep (s : rsys) : string + rsys → Prop :=
  | r_enter i :
      rthreads s !! i = Some RIdle → owner (rl s) ≠ Some i →
      rstep s (inr (RSys (<[i := RSpin]> (rthreads s)) (holder s) (rl s)))
  | r_again i d :
      rthreads s !! i = Some (RIn d) → owner (rl s) = Some i →
      rstep s (inr (RSys (<[i := RIn (S d)]> (rthreads s)) (holder s)
                         (RL (owner (rl s)) (recursion (rl s) + 1))))
  | r_xchg i :
      rthreads s !! i = Some RSpin → holder s = None →
      rstep s (inr (RSys (<[i := RSet]> (rthreads s)) (Some i) (rl s)))
  | r_set i :
      rthreads s !! i = Some RSet →
      rstep s (inr (RSys (<[i := RIn 0]> (rthreads s)) (holder s) (RL (Some i) 1)))
  | r_release_panic i d :
      rthreads s !! i = Some (RIn d) → owner (rl s) ≠ Some i →
      rstep s (inl "reentrant release")
  | r_release i d :
      rthreads s !! i = Some (RIn (S d)) → owner (rl s) = Some i → recursion (rl s) ≠ 1 →
      rstep s (inr (RSys (<[i := RIn d]> (rthreads s)) (holder s)
                         (RL (owner (rl s)) (recursion (rl s) - 1))))
  | r_release_last i d :
      rthreads s !! i = Some (RIn d) → owner (rl s) = Some i → recursion (rl s) = 1 →
      rstep s (inr (RSys (<[i := RUnlock]> (rthreads s)) (holder s) (RL (owner (rl s)) 0)))
  | r_unlock i :
      rthreads s !! i = Some RUnlock →
      rstep s (inr (RSys (<[i := RClear]> (rthreads s)) None (rl s)))
  | r_clear i :
      rthreads s !! i = Some RClear →
      rstep s (inr (RSys (<[i := RIdle]> (rthreads s)) (holder s)
                         (RL None (recursion (rl s))))).

Inductive rreach (s0 : rsys) : rsys → Prop :=
  | rreach_init : rreach s0 s0
  | rreach_step s s' : rreach s0 s → rstep s (inr s') → rreach s0 s'.

Definition rinitial (n : nat) : rsys := RSys (replicate n RIdle) None rinit.

(** The process is between taking and giving back the spin lock. *)
Definition holds (p : rpc) : bool :=
  match p with RSet | RIn _ | RUnlock => true | _ => false end.

Definition rinv (s : rsys) : Prop :=
  ∀ i p, rthreads s !! i = Some p → holds p = true → holder s = Some i.

Lemma rstep_inv s s' : rinv s → rstep s (inr s') → rinv s'.
Proof.
  intros Hinv Hstep. inversion Hstep; subst; intros j p Hj Hp; simpl in *;
    apply list_lookup_insert_Some in Hj as [(<- & <- & _)|[Hne Hj]]; simplify_eq/=; eauto.
  - (* r_xchg: nobody else holds the spin lock *)
    pose proof (Hinv _ _ Hj Hp). congruence.
  - (* r_unlock *)
    pose proof (Hinv _ _ Hj Hp). pose proof (Hinv _ _ H0 eq_refl). congruence.
Qed.

Lemma rreach_inv n s : rreach (rinitial n) s → rinv s.
Proof.
  induction 1; [|by eauto using rstep_inv].
  intros k p Hk. apply lookup_replicate in Hk as [-> _]. done.
Qed.

(** the reentrant lock excludes processes from each other at every
    interleaving of its loads and stores. *)
Theorem reentrant_exclusion n s i j d e :
  rreach (rinitial n) s →
  rthreads s !! i = Some (RIn d) → rthreads s !! j = Some (RIn e) → i = j.
Proof.
  intros Hr Hi Hj. pose proof (rreach_inv _ _ Hr) as Hinv.
  pose proof (Hinv _ _ Hi eq_refl). pose proof (Hinv _ _ Hj eq_refl). congruence.
Qed.

(** [releasereentrantlock] clears the owner after releasing the spin lock,
    so it can erase another process's ownership.  When process 1 takes the lock
    between process 0's [release(&rlock.lock)] and its [rlock.owner = 0], a state
    is reached in which the holder panics as it releases the lock. *)
Theorem reentrant_release_race :
  ∃ s, rreach (rinitial 2) s ∧ rthreads s !! 1%nat = Some (RIn 0) ∧ holder s = Some 1%nat ∧
       rstep s (inl "reentrant release").
Proof.
  exists (RSys [RIdle; RIn 0] (Some 1%nat) (RL None 1)).
  split; [|split; [done|split; [done|]]]; [|by apply (r_release_panic _ 1 0)].
  apply (rreach_step _ (RSys [RClear; RIn 0] (Some 1%nat) (RL (Some 1%nat) 1)));
    [|exact (r_clear (RSys [RClear; RIn 0] (Some 1%nat) (RL (Some 1%nat) 1)) 0 eq_refl)].
  apply (rreach_step _ (RSys [RClear; RSet] (Some 1%nat) (RL (Some 0%nat) 0)));
    [|exact (r_set (RSys [RClear; RSet] (Some 1%nat) (RL (Some 0%nat) 0)) 1 eq_refl)].
  apply (rreach_step _ (RSys [RClear; RSpin] None (RL (Some 0%nat) 0)));
    [|exact (r_xchg (RSys [RClear; RSpin] None (RL (Some 0%nat) 0)) 1 eq_refl eq_refl)].
  apply (rreach_step _ (RSys [RClear; RIdle] None (RL (Some 0%nat) 0)));
    [|by apply (r_enter (RSys [RClear; RIdle] None (RL (Some 0%nat) 0)) 1)].
  apply (rreach_step _ (RSys [RUnlock; RIdle] (Some 0%nat) (RL (Some 0%nat) 0)));
    [|exact (r_unlock (RSys [RUnlock; RIdle] (Some 0%nat) (RL (Some 0%nat) 0)) 0 eq_refl)].
  apply (rreach_step _ (RSys [RIn 0; RIdle] (Some 0%nat) (RL (Some 0%nat) 1)));
    [|by apply (r_release_last (RSys [RIn 0; RIdle] (Some 0%nat) (RL (Some 0%nat) 1)) 0 0)].
  apply (rreach_step _ (RSys [RSet; RIdle] (Some 0%nat) (RL None 0)));
    [|exact (r_set (RSys [RSet; RIdle] (Some 0%nat) (RL None 0)) 0 eq_refl)].
  apply (rreach_step _ (RSys [RSpin; RIdle] None (RL None 0)));
    [|exact (r_xchg (RSys [RSpin; RIdle] None (RL None 0)) 0 eq_refl eq_refl)].
  apply (rreach_step _ (rinitial 2)); [apply rreach_init|by apply (r_enter (rinitial 2) 0)].
Qed.

Lemma reentrant_exclusion_witness : (0 : nat) = 0%nat.
Proof.
  apply (reentrant_exclusion 1 (RSys [RIn 0] (Some 0%nat) (RL (Some 0%nat) 1)) 0 0 0 0);
    [|reflexivity|reflexivity].
  apply (rreach_step _ (RSys [RSet] (Some 0%nat) rinit)); [|exact (r_set (RSys [RSet] (Some 0%nat) rinit) 0 eq_refl)].
  apply (rreach_step _ (RSys [RSpin] None rinit)); [|exact (r_xchg (RSys [RSpin] None rinit) 0 eq_refl eq_refl)].
  apply (rreach_step _ (rinitial 1)); [apply rreach_init|by apply (r_enter (rinitial 1) 0)].
Defined.

End Reentrant.
