(* ===== verification/Kalloc.v ===== *)
(** * The physical page allocator

    [kalloc.c]: a free list threaded through the free pages themselves.  The
    abstract state is the list of free pages; the theorems say that the linked
    list in memory always represents one, whatever the owners of the allocated
    pages write into them. *)

From S2P Require Import Prelude Mem.

(** [kmem], with the memory its list runs through; [freelist] is a kernel
    address, 0 for null. *)
Record kmem := Kmem { use_lock : bool; freelist : Z; kmm : gmap Z page }.

Section Kalloc.
(** The linker's [end]: the first address after the kernel. *)
Context (kend : Z).

Definition kfree (v : Z) : M kmem unit :=
  if negb (v mod PGSIZE =? 0) || (v <? kend) || (PHYSTOP <=? V2P v) then panic "kfree"
  else
    modify (λ s, Kmem (use_lock s) (freelist s) (memset_page (V2P v) 1 (kmm s)));;
    s ← get;
    when (use_lock s) (acquire Lkmem);;
    modify (λ s, Kmem (use_lock s) (freelist s) (wr_word (V2P v) (freelist s) (kmm s)));;
    modify (λ s, Kmem (use_lock s) v (kmm s));;
    s ← get;
    when (use_lock s) (release Lkmem).

Definition kalloc : M kmem Z :=
  s ← get;
  when (use_lock s) (acquire Lkmem);;
  r ← gets freelist;
  when (negb (r =? 0))
    (modify (λ s, Kmem (use_lock s) (rd_word (kmm s) (V2P r)) (kmm s)));;
  s ← get;
  when (use_lock s) (release Lkmem);;
  mret r.

(** The loop of [freerange] from [p] on. *)
Fixpoint freerange_loop (fuel : nat) (p vend : Z) : M kmem unit :=
  match fuel with
  | O => mret tt
  | S fuel =>
      if u32 (p + PGSIZE) <=? vend
      then kfree p;; freerange_loop fuel (u32 (p + PGSIZE)) vend
      else mret tt
  end.

(** Each turn moves [p] a page up towards [vend], so [vend / PGSIZE] turns are
    enough. *)
Definition freerange (vstart vend : Z) : M kmem unit :=
  freerange_loop (Z.to_nat (vend / PGSIZE + 1)) (PGROUNDUP vstart) vend.

Definition kinit1 (vstart vend : Z) : M kmem unit :=
  modify (λ s, Kmem false (freelist s) (kmm s));;
  freerange vstart vend.

Definition kinit2 (vstart vend : Z) : M kmem unit :=
  freerange vstart vend;;
  modify (λ s, Kmem true (freelist s) (kmm s)).

(** ** Representation *)

(** A page [kfree] accepts. *)
Definition good (v : Z) : Prop :=
  v mod 4096 = 0 ∧ kend ≤ v ∧ KERNBASE ≤ v < KERNBASE + PHYSTOP.

(** The list of pages found by following [next] from [head]. *)
Inductive chain (m : gmap Z page) : Z → list Z → Prop :=
  | chain_nil : chain m 0 []
  | chain_cons v l : v ≠ 0 → chain m (rd_word m (V2P v)) l → chain m v (v :: l).

Record kinv (s : kmem) (l : list Z) : Prop := {
  kinv_chain : chain (kmm s) (freelist s) l;
  kinv_good : Forall good l;
  kinv_nodup : NoDup l }.

Hypothesis kend_kernel : KERNBASE ≤ kend.

Lemma good_V2P v : good v → V2P v = v - KERNBASE ∧ 0 < v.
Proof.
  unfold good, V2P, KERNBASE, PHYSTOP. intros (? & ? & ?). rewrite u32_small; lia.
Qed.

Lemma good_page_inj v w : good v → good w → V2P v / 4096 = V2P w / 4096 → v = w.
Proof.
  intros Hv Hw. destruct (good_V2P v Hv) as [-> _], (good_V2P w Hw) as [-> _].
  destruct Hv as (? & _ & _), Hw as (? & _ & _). unfold KERNBASE.
  intros. Z.to_euclidean_division_equations. lia.
Qed.

Lemma kfree_check v :
  0 ≤ v < 4294967296 →
  (negb (v mod PGSIZE =? 0) || (v <? kend) || (PHYSTOP <=? V2P v))%bool = false ↔ good v.
Proof.
  intros Hr. rewrite !orb_false_iff, negb_false_iff, Z.eqb_eq, Z.ltb_ge, Z.leb_gt.
  unfold good, PGSIZE, V2P, PHYSTOP, KERNBASE in *. split.
  - intros [[? ?] Hlt]. split; [done|]. split; [done|]. rewrite u32_small in Hlt; lia.
  - intros (? & ? & ?). rewrite u32_small; lia.
Qed.

(** Stores to other pages do not disturb the chain. *)
Lemma chain_frame m m' h l :
  chain m h l → (∀ v, v ∈ l → rd_word m' (V2P v) = rd_word m (V2P v)) → chain m' h l.
Proof.
  induction 1 as [|v l Hv Hc IH]; intros Hrd; constructor; [done|].
  rewrite Hrd by set_solver. apply IH. set_solver.
Qed.

Lemma kalloc_eq L t s :
  Lkmem ∉ L →
  kalloc (Ctx L t) s =
    Ret (freelist s) (Ctx L t)
      (if freelist s =? 0 then s
       else Kmem (use_lock s) (rd_word (kmm s) (V2P (freelist s))) (kmm s)).
Proof.
  intros HL. destruct s as [ul fl m]. unfold kalloc, when, get, gets, modify, mbind, M_bind; simpl.
  destruct ul; simpl; locks; destruct (fl =? 0); simpl; locks; done.
Qed.

Definition kfree_state (v : Z) (s : kmem) : kmem :=
  Kmem (use_lock s) v (wr_word (V2P v) (freelist s) (memset_page (V2P v) 1 (kmm s))).

Lemma kfree_eq L t s v :
  Lkmem ∉ L → good v → kfree v (Ctx L t) s = Ret tt (Ctx L t) (kfree_state v s).
Proof.
  intros HL Hg. unfold kfree. rewrite (proj2 (kfree_check v ltac:(unfold good, KERNBASE, PHYSTOP in Hg; lia))) by done.
  destruct s as [ul fl m]. unfold kfree_state, when, get, modify, mbind, M_bind; simpl.
  destruct ul; simpl; locks; done.
Qed.

Lemma kfree_panics L t s v :
  0 ≤ v < 4294967296 → ¬ good v → kfree v (Ctx L t) s = Panic "kfree".
Proof.
  intros Hr Hg. unfold kfree. destruct (_ || _)%bool eqn:Hc; [done|].
  by apply kfree_check in Hc.
Qed.

(** A chain of good pages has addresses that survive the 32-bit store. *)
Lemma chain_head_u32 m h l : chain m h l → Forall good l → u32 h = h.
Proof.
  destruct 1 as [|v l Hv Hc]; [done|]. intros Hg. apply Forall_cons_1 in Hg as [Hg _].
  unfold good, KERNBASE, PHYSTOP in Hg. apply u32_small. lia.
Qed.

Lemma kfree_inv s l v : kinv s l → good v → v ∉ l → kinv (kfree_state v s) (v :: l).
Proof.
  intros [Hc Hg Hnd] Hv Hni. split; simpl; [|by constructor|by constructor].
  destruct (good_V2P v Hv) as [_ ?]. constructor; [lia|].
  rewrite rd_wr_word_eq, (chain_head_u32 _ _ _ Hc Hg).
  eapply chain_frame; [done|]. intros w Hw.
  assert (V2P v / 4096 ≠ V2P w / 4096) as Hne.
  { intros He. rewrite Forall_forall in Hg.
    by rewrite (good_page_inj v w Hv (Hg _ Hw) He) in Hni. }
  by rewrite rd_wr_word_page, rd_memset_ne.
Qed.

Lemma kalloc_inv s v l :
  kinv s (v :: l) → freelist s = v ∧ v ≠ 0 ∧ kinv (Kmem (use_lock s) (rd_word (kmm s) (V2P v)) (kmm s)) l.
Proof.
  intros [Hc Hg Hnd]. inversion Hc as [|? ? Hv Hc' Hh]; subst.
  split; [done|]. split; [done|]. split; simpl; [congruence| |].
  - by inversion Hg.
  - by inversion Hnd.
Qed.

Lemma kalloc_nil L t s : Lkmem ∉ L → kinv s [] → kalloc (Ctx L t) s = Ret 0 (Ctx L t) s.
Proof.
  intros HL [Hc _ _]. rewrite kalloc_eq by done. by assert (freelist s = 0) as -> by (by inversion Hc).
Qed.

Lemma kalloc_cons L t s v l :
  Lkmem ∉ L → kinv s (v :: l) →
  ∃ s', kalloc (Ctx L t) s = Ret v (Ctx L t) s' ∧ kinv s' l ∧ v ≠ 0.
Proof.
  intros HL Hinv. rewrite kalloc_eq by done.
  destruct (kalloc_inv _ _ _ Hinv) as (-> & Hv & Hinv').
  eexists. split; [done|]. by destruct (Z.eqb_spec v 0).
Qed.

(** [kalloc] returns 0 exactly when no page is free; otherwise it returns
    the most recently freed page, which is page-aligned, inside the kernel's
    memory and no longer on the free list. *)
Theorem kalloc_spec L t s l :
  Lkmem ∉ L → kinv s l →
  match l with
  | [] => kalloc (Ctx L t) s = Ret 0 (Ctx L t) s
  | v :: l' =>
      (∃ s', kalloc (Ctx L t) s = Ret v (Ctx L t) s' ∧ kinv s' l') ∧ v ≠ 0 ∧ good v ∧ v ∉ l'
  end.
Proof.
  intros HL Hinv. destruct l as [|v l]; [by apply kalloc_nil|].
  destruct (kalloc_cons L t s v l) as (s' & Hr & Hi & Hv); [done..|].
  destruct Hinv as [_ Hg Hnd]. apply Forall_cons in Hg as [Hg _].
  apply NoDup_cons in Hnd as [Hni _]. split; [by exists s'|done].
Qed.

(** [kfree] panics on every address that is not an aligned page between
    [end] and [P2V(PHYSTOP)]; on such a page that is not already free it pushes
    the page on the free list, fills it with the junk byte 1 (the link word
    apart) and leaves every other page of memory alone. *)
Theorem kfree_spec L t s l v :
  Lkmem ∉ L → kinv s l → v ∉ l → 0 ≤ v < 4294967296 →
  (¬ good v → kfree v (Ctx L t) s = Panic "kfree") ∧
  (good v → ∃ s', kfree v (Ctx L t) s = Ret tt (Ctx L t) s' ∧ kinv s' (v :: l) ∧
     (∀ a, V2P v / 4096 = a / 4096 → a mod 4 = 0 → a ≠ V2P v → rd_word (kmm s') a = 0x01010101) ∧
     (∀ a, V2P v / 4096 ≠ a / 4096 → rd_word (kmm s') a = rd_word (kmm s) a)).
Proof.
  intros HL Hinv Hni Hr. split; [by apply kfree_panics|]. intros Hg.
  exists (kfree_state v s). split; [by apply kfree_eq|]. split; [by apply kfree_inv|].
  split; intros a Ha; simpl.
  - intros Ha4 Hne. rewrite rd_wr_word_ne; [by rewrite rd_memset_eq| |done|done].
    destruct (good_V2P v Hg) as [-> _]. destruct Hg as (? & _ & _). unfold KERNBASE.
    Z.to_euclidean_division_equations. lia.
  - by rewrite rd_wr_word_page, rd_memset_ne.
Qed.

(** ** Initialisation *)

(** The [n] pages from [p] on. *)
Fixpoint pages (p : Z) (n : nat) : list Z :=
  match n with O => [] | S n => p :: pages (p + PGSIZE) n end.

Lemma elem_of_pages p n v : v ∈ pages p n ↔ ∃ i, 0 ≤ i < Z.of_nat n ∧ v = p + 4096 * i.
Proof.
  revert p; induction n as [|n IH]; intros p; simpl.
  - split; [by intros ?%not_elem_of_nil|]. intros (i & ? & _). lia.
  - rewrite elem_of_cons, IH. unfold PGSIZE. split.
    + intros [->|(i & ? & ->)]; [exists 0|exists (i + 1)]; lia.
    + intros (i & ? & ->). destruct (decide (i = 0)) as [->|]; [left; lia|].
      right. exists (i - 1). lia.
Qed.

Lemma freerange_loop_spec fuel n p vend s l L t :
  Lkmem ∉ L → kinv s l → (n < fuel)%nat →
  p mod 4096 = 0 → kend ≤ p → vend ≤ KERNBASE + PHYSTOP → p ≤ KERNBASE + PHYSTOP →
  (if decide (p ≤ vend) then Z.of_nat n = (vend - p) / 4096 else n = O) →
  (∀ v, v ∈ pages p n → v ∉ l) →
  ∃ s', freerange_loop fuel p vend (Ctx L t) s = Ret tt (Ctx L t) s' ∧
        kinv s' (reverse (pages p n) ++ l) ∧ use_lock s' = use_lock s.
Proof.
  revert fuel p s l. induction n as [|n IH]; intros fuel p s l HL Hinv Hf Hp Hk Hve Hpt Hn Hni;
    (destruct fuel as [|fuel]; [lia|]); cbn [freerange_loop];
    unfold PGSIZE, KERNBASE, PHYSTOP in *; rewrite u32_small by lia.
  - destruct (Z.leb_spec (p + 4096) vend); [exfalso; case_decide; [|lia];
      Z.to_euclidean_division_equations; lia|]. by exists s.
  - case_decide; [|lia].
    destruct (Z.leb_spec (p + 4096) vend); [|exfalso; Z.to_euclidean_division_equations; lia].
    assert (good p) by (unfold good, KERNBASE, PHYSTOP; lia).
    run (by apply kfree_eq).
    destruct (IH fuel (p + 4096) (kfree_state p s) (p :: l)) as (s' & Hr & Hi' & Hu).
    all: unfold PGSIZE, KERNBASE, PHYSTOP in *.
    + done.
    + apply kfree_inv; [done..|]. apply Hni. simpl. set_solver.
    + lia.
    + Z.to_euclidean_division_equations; lia.
    + lia.
    + lia.
    + lia.
    + case_decide; Z.to_euclidean_division_equations; lia.
    + intros v Hv. apply not_elem_of_cons. split.
      * apply elem_of_pages in Hv as (i & ? & ->). lia.
      * apply Hni. simpl. unfold PGSIZE. set_solver.
    + exists s'. split; [done|]. split; [|done]. simpl. rewrite reverse_cons, <- app_assoc. done.
Qed.

(** [freerange(vstart, vend)] terminates and frees exactly the whole pages
    between [PGROUNDUP(vstart)] and [vend], each of them once. *)
Theorem freerange_spec vstart vend s l L t :
  Lkmem ∉ L → kinv s l → kend ≤ vstart → vstart ≤ vend → vend ≤ KERNBASE + PHYSTOP →
  (∀ v, v ∈ l → ¬ (vstart ≤ v < vend)) →
  ∃ s', freerange vstart vend (Ctx L t) s = Ret tt (Ctx L t) s' ∧
    ∃ n, kinv s' (reverse (pages (PGROUNDUP vstart) n) ++ l) ∧
      ∀ v, v ∈ pages (PGROUNDUP vstart) n ↔ v mod 4096 = 0 ∧ vstart ≤ v ∧ v + 4096 ≤ vend.
Proof.
  intros HL Hinv Hk Hse Hve Hni. unfold freerange.
  unfold KERNBASE, PHYSTOP in Hve, kend_kernel.
  rewrite PGROUNDUP_eq by lia. set (p := (vstart + 4095) / 4096 * 4096).
  assert (p mod 4096 = 0 ∧ vstart ≤ p < vstart + 4096) as (Hpm & Hp)
    by (unfold p; Z.to_euclidean_division_equations; lia).
  set (n := Z.to_nat ((vend - p) / 4096)).
  assert (∀ v, v ∈ pages p n ↔ v mod 4096 = 0 ∧ vstart ≤ v ∧ v + 4096 ≤ vend) as Hpages.
  { intros v. rewrite elem_of_pages. unfold n. split.
    - intros (i & Hi & ->). Z.to_euclidean_division_equations; lia.
    - intros (? & ? & ?). exists ((v - p) / 4096). Z.to_euclidean_division_equations; lia. }
  edestruct (freerange_loop_spec (Z.to_nat (vend / PGSIZE + 1)) n p vend s l L t)
    as (s' & Hr & Hi & _); [done|done| |done|lia|done|..].
  - unfold n, PGSIZE. Z.to_euclidean_division_equations; lia.
  - unfold KERNBASE, PHYSTOP, p. Z.to_euclidean_division_equations; lia.
  - unfold n. case_decide; Z.to_euclidean_division_equations; lia.
  - intros v Hv Hl. apply Hpages in Hv. apply (Hni v Hl). lia.
  - exists s'. split; [done|]. by exists n.
Qed.

(** ** Clients

    [owned] are the pages handed out and not given back.  Clients allocate,
    free a page they own, and store any word anywhere inside a page they own. *)
Record kworld := KWorld { kst : kmem; owned : list Z }.

Inductive kstep (w : kworld) : kworld → Prop :=
  | k_alloc v s' :
      kalloc (Ctx [] []) (kst w) = Ret v (Ctx [] []) s' → v ≠ 0 →
      kstep w (KWorld s' (v :: owned w))
  | k_alloc_fail s' :
      kalloc (Ctx [] []) (kst w) = Ret 0 (Ctx [] []) s' →
      kstep w (KWorld s' (owned w))
  | k_free l1 v l2 s' :
      owned w = l1 ++ v :: l2 → kfree v (Ctx [] []) (kst w) = Ret tt (Ctx [] []) s' →
      kstep w (KWorld s' (l1 ++ l2))
  | k_store v off x :
      v ∈ owned w → 0 ≤ off < 4096 →
      kstep w (KWorld (Kmem (use_lock (kst w)) (freelist (kst w))
                            (wr_word (V2P v + off) x (kmm (kst w)))) (owned w)).

(** Owned and free pages together are the pages the machine started with. *)
Definition kconserved (all : list Z) (w : kworld) : Prop :=
  ∃ free, kinv (kst w) free ∧ owned w ++ free ≡ₚ all.

Lemma kstep_conserved all w w' :
  Forall good all → NoDup all → kconserved all w → kstep w w' → kconserved all w'.
Proof.
  intros Hgood Hnd (free & Hinv & Hperm) Hstep. destruct Hstep as [v s' Hr Hv|s' Hr|l1 v l2 s' Ho Hr|v off x Hv Hoff].
  - destruct free as [|u free].
    { pose proof (kalloc_nil [] [] _ ltac:(set_solver) Hinv). congruence. }
    destruct (kalloc_cons [] [] _ _ _ ltac:(set_solver) Hinv) as (s'' & Hr' & Hi' & _).
    assert (v = u) as -> by congruence. assert (s' = s'') as -> by congruence.
    exists free. split; [done|]. simpl. rewrite <- Hperm. apply Permutation_middle.
  - destruct free as [|u free].
    { pose proof (kalloc_nil [] [] _ ltac:(set_solver) Hinv).
      assert (s' = kst w) as -> by congruence. by exists []. }
    destruct (kalloc_cons [] [] _ _ _ ltac:(set_solver) Hinv) as (s'' & Hr' & Hi' & ?). congruence.
  - rewrite Ho in Hperm. assert (good v) as Hgv.
    { rewrite Forall_forall in Hgood. apply Hgood. rewrite <- Hperm. set_solver. }
    assert (v ∉ free) as Hvf.
    { rewrite <- Hperm in Hnd. apply NoDup_app in Hnd as (_ & Hd & _). apply Hd. set_solver. }
    rewrite kfree_eq in Hr by (done || set_solver). injection Hr as <-.
    exists (v :: free). split; [by apply kfree_inv|]. simpl. rewrite <- Hperm.
    rewrite <- !app_assoc. apply Permutation_app_head. simpl. symmetry. apply Permutation_middle.
  - exists free. split; [|done]. destruct Hinv as [Hc Hg Hn]. split; [|done|done]. simpl.
    eapply chain_frame; [done|]. intros u Hu. apply rd_wr_word_page.
    assert (good u) as Hgu by (rewrite Forall_forall in Hg; by apply Hg).
    assert (good v) as Hgv.
    { rewrite Forall_forall in Hgood. apply Hgood. rewrite <- Hperm. set_solver. }
    intros He. assert (v = u) as ->.
    { apply good_page_inj; [done..|]. rewrite <- He. destruct (good_V2P v Hgv) as [-> _].
      destruct Hgv as (? & _ & _). unfold KERNBASE. Z.to_euclidean_division_equations. lia. }
    rewrite <- Hperm in Hnd. apply NoDup_app in Hnd as (_ & Hd & _). by apply (Hd u).
Qed.

Lemma kreach_conserved all w0 w :
  Forall good all → NoDup all → kconserved all w0 → rtc kstep w0 w → kconserved all w.
Proof. intros ?? H0 Hr. revert H0. induction Hr; eauto using kstep_conserved. Qed.

(** C19: no page is ever handed out twice, and none is lost.  Starting with the
    pages [all] free, after any sequence of allocations, frees and stores by
    the owners into their pages, the free list is intact and the owned and the
    free pages together are exactly [all], without repetition; in particular
    the next page [kalloc] returns is not owned by anyone. *)
Theorem kalloc_conservation all s0 w :
  kinv s0 all → rtc kstep (KWorld s0 []) w →
  ∃ free, kinv (kst w) free ∧ owned w ++ free ≡ₚ all ∧ NoDup (owned w ++ free) ∧
    ∀ v s', kalloc (Ctx [] []) (kst w) = Ret v (Ctx [] []) s' → v ≠ 0 → v ∉ owned w.
Proof.
  intros Hinv Hr. pose proof Hinv as [_ Hg Hnd].
  destruct (kreach_conserved all (KWorld s0 []) w) as (free & Hi & Hp); [done|done| |done|].
  { by exists all. }
  exists free. split; [done|]. split; [done|].
  assert (NoDup (owned w ++ free)) as Hnd' by (by rewrite Hp). split; [done|].
  intros v s' Hal Hv0 Hin. destruct free as [|u free].
  - pose proof (kalloc_nil [] [] _ ltac:(set_solver) Hi). congruence.
  - destruct (kalloc_cons [] [] _ _ _ ltac:(set_solver) Hi) as (s'' & Hr' & _).
    assert (u = v) as -> by congruence. apply NoDup_app in Hnd' as (_ & Hd & _). apply (Hd v); set_solver.
Qed.

End Kalloc.

(** *** Witnesses *)

Definition kend0 : Z := 0x80108000.
Definition kmem0 : kmem := Kmem false 0 ∅.

Lemma kend0_ok : KERNBASE ≤ kend0.
Proof. unfold KERNBASE, kend0. lia. Qed.

Lemma good0 v : v mod 4096 = 0 → 0x80108000 ≤ v < 0x8E000000 → good kend0 v.
Proof. unfold good, KERNBASE, PHYSTOP, kend0. lia. Qed.

Lemma kmem0_inv : kinv kend0 kmem0 [].
Proof. split; [constructor|constructor|constructor]. Qed.

(** Two pages freed at boot. *)
Definition kmem2 : kmem := kfree_state 0x80109000 (kfree_state 0x80108000 kmem0).

Lemma kmem2_inv : kinv kend0 kmem2 [0x80109000; 0x80108000].
Proof.
  unfold kmem2. apply kfree_inv; [apply kend0_ok| |by apply good0|by rewrite list_elem_of_singleton].
  apply kfree_inv; [apply kend0_ok|apply kmem0_inv|by apply good0|apply not_elem_of_nil].
Qed.

Lemma kalloc_spec_witness :
  (∃ s', kalloc (Ctx [] []) kmem2 = Ret 0x80109000 (Ctx [] []) s' ∧ kinv kend0 s' [0x80108000]).
Proof.
  apply (kalloc_spec kend0 [] [] kmem2 [0x80109000; 0x80108000]);
    [set_solver|apply kmem2_inv].
Defined.

Lemma kfree_spec_witness : kfree kend0 0x80108001 (Ctx [] []) kmem0 = Panic "kfree".
Proof.
  apply (kfree_spec kend0 kend0_ok [] [] kmem0 [] 0x80108001);
    [set_solver|apply kmem0_inv|set_solver|done|]. by intros [? _].
Defined.

Lemma freerange_spec_witness :
  ∃ s', freerange kend0 0x80108004 0x8010b000 (Ctx [] []) kmem0 = Ret tt (Ctx [] []) s' ∧
    ∃ n, kinv kend0 s' (reverse (pages (PGROUNDUP 0x80108004) n) ++ []) ∧
      ∀ v, v ∈ pages (PGROUNDUP 0x80108004) n ↔ v mod 4096 = 0 ∧ 0x80108004 ≤ v ∧ v + 4096 ≤ 0x8010b000.
Proof.
  apply (freerange_spec kend0 kend0_ok 0x80108004 0x8010b000 kmem0 [] [] []);
    [set_solver|apply kmem0_inv|done|done|done|set_solver].
Defined.

Lemma kalloc_conservation_witness :
  ∃ free, kinv kend0 kmem2 free ∧ [] ++ free ≡ₚ [0x80109000; 0x80108000] ∧ NoDup ([] ++ free) ∧
    ∀ v s', kalloc (Ctx [] []) kmem2 = Ret v (Ctx [] []) s' → v ≠ 0 → v ∉ [].
Proof.
  apply (kalloc_conservation kend0 kend0_ok [0x80109000; 0x80108000] kmem2 (KWorld kmem2 []));
    [apply kmem2_inv|apply rtc_refl].
Defined.
