(* ===== verification/Vm.v ===== *)
(** * Virtual memory

    [vm.c]: two-level page tables in the pages [kalloc] hands out.  A pointer to
    a page table entry is the kernel address of the entry, 0 for null; the kernel
    reaches physical memory through its direct map, so a load or store at a
    kernel address [a] is one at the physical address [V2P a]. *)

From S2P Require Import Prelude Mem Kalloc.

Definition PDX (va : Z) : Z := Z.land (Z.shiftr va 22) 0x3FF.
Definition PTX (va : Z) : Z := Z.land (Z.shiftr va 12) 0x3FF.
Definition PGADDR (d t o : Z) : Z := u32 (Z.lor (Z.lor (Z.shiftl d 22) (Z.shiftl t 12)) o).
Definition NPDENTRIES : nat := 1024.
Definition PTE_P : Z := 0x001.
Definition PTE_W : Z := 0x002.
Definition PTE_U : Z := 0x004.
Definition PTE_ADDR (pte : Z) : Z := Z.land pte (u32 (Z.lnot 0xFFF)).
Definition PTE_FLAGS (pte : Z) : Z := Z.land pte 0xFFF.
(** [*pte & PTE_P], as a truth value. *)
Definition present (pte : Z) : bool := negb (Z.land pte PTE_P =? 0).

Definition load (a : Z) : M kmem Z := gets (λ s, rd_word (kmm s) (V2P a)).
Definition on_mem (f : gmap Z page → gmap Z page) : M kmem unit :=
  modify (λ s, Kmem (use_lock s) (freelist s) (f (kmm s))).
Definition store (a w : Z) : M kmem unit := on_mem (wr_word (V2P a) w).
(** [memmove] of the bytes [l] to physical address [pa]. *)
Fixpoint wr_bytes (pa : Z) (l : list Z) (m : gmap Z page) : gmap Z page :=
  match l with
  | [] => m
  | b :: l => wr_bytes (pa + 1) l (wr_byte pa b m)
  end.

Section Vm.
(** The linker's [end] and [data]. *)
Context (kend data : Z).

Definition walkpgdir (pgdir va : Z) (alloc : bool) : M kmem Z :=
  let pde := pgdir + 4 * PDX va in
  e ← load pde;
  if present e then mret (P2V (PTE_ADDR e) + 4 * PTX va)
  else if negb alloc then mret 0
  else
    pgtab ← kalloc;
    if pgtab =? 0 then mret 0
    else
      on_mem (memset_page (V2P pgtab) 0);;
      store pde (Z.lor (Z.lor (Z.lor (V2P pgtab) PTE_P) PTE_W) PTE_U);;
      mret (pgtab + 4 * PTX va).

(** The loop of [mappages], from page [a] on.  It ends at [last], which [fuel]
    pages after [a] has been reached. *)
Fixpoint mappages_loop (fuel : nat) (pgdir a last pa perm : Z) : M kmem Z :=
  match fuel with
  | O => panic "out of fuel"
  | S fuel =>
      pte ← walkpgdir pgdir a true;
      if pte =? 0 then mret (-1)
      else
        e ← load pte;
        if present e then panic "remap"
        else
          store pte (Z.lor (Z.lor pa perm) PTE_P);;
          if a =? last then mret 0
          else mappages_loop fuel pgdir (u32 (a + PGSIZE)) last (u32 (pa + PGSIZE)) perm
  end.
Definition mappages (pgdir va size pa perm : Z) : M kmem Z :=
  let a := PGROUNDDOWN va in
  let last := PGROUNDDOWN (u32 (va + size - 1)) in
  mappages_loop (Z.to_nat (u32 (last - a) / PGSIZE + 1)) pgdir a last pa perm.

(** The loop of [deallocuvm] from page [a] on; [pgdir] has 1024 entries of 1024
    pages, which bounds the turns. *)
Fixpoint deallocuvm_loop (fuel : nat) (pgdir a oldsz : Z) : M kmem unit :=
  if a <? oldsz then
    match fuel with
    | O => panic "out of fuel"
    | S fuel =>
        pte ← walkpgdir pgdir a false;
        if pte =? 0 then
          deallocuvm_loop fuel pgdir (u32 (u32 (PGADDR (PDX a + 1) 0 0 - PGSIZE) + PGSIZE)) oldsz
        else
          e ← load pte;
          (if present e then
             let pa := PTE_ADDR e in
             if pa =? 0 then panic "kfree"
             else
               kfree kend (P2V pa);;
               store pte 0
           else mret tt);;
          deallocuvm_loop fuel pgdir (u32 (a + PGSIZE)) oldsz
    end
  else mret tt.
Definition deallocuvm (pgdir oldsz newsz : Z) : M kmem Z :=
  if oldsz <=? newsz then mret (i32 oldsz)
  else
    deallocuvm_loop (Z.to_nat (oldsz / PGSIZE + 1)) pgdir (PGROUNDUP newsz) oldsz;;
    mret (i32 newsz).

(** [for(i = 0; i < NPDENTRIES; i++)] of [freevm]. *)
Fixpoint freevm_loop (pgdir : Z) (l : list nat) : M kmem unit :=
  match l with
  | [] => mret tt
  | i :: l =>
      e ← load (pgdir + 4 * Z.of_nat i);
      (if present e then kfree kend (P2V (PTE_ADDR e)) else mret tt);;
      freevm_loop pgdir l
  end.
Definition freevm (pgdir : Z) : M kmem unit :=
  if pgdir =? 0 then panic "freevm: no pgdir"
  else
    deallocuvm pgdir KERNBASE 0;;
    freevm_loop pgdir (seq 0 NPDENTRIES);;
    kfree kend pgdir.

(** [kmap[]]: virtual start, physical start and end, permissions. *)
Definition kmap : list (Z * Z * Z * Z) :=
  [ (KERNBASE, 0, EXTMEM, PTE_W);
    (KERNLINK, V2P KERNLINK, V2P data, 0);
    (data, V2P data, PHYSTOP, PTE_W);
    (DEVSPACE, DEVSPACE, 0, PTE_W) ].
Fixpoint setupkvm_loop (pgdir : Z) (l : list (Z * Z * Z * Z)) : M kmem Z :=
  match l with
  | [] => mret pgdir
  | (virt, phys_start, phys_end, perm) :: l =>
      r ← mappages pgdir virt (u32 (phys_end - phys_start)) phys_start perm;
      if r <? 0 then freevm pgdir;; mret 0
      else setupkvm_loop pgdir l
  end.
Definition setupkvm : M kmem Z :=
  pgdir ← kalloc;
  if pgdir =? 0 then mret 0
  else
    on_mem (memset_page (V2P pgdir) 0);;
    if DEVSPACE <? P2V PHYSTOP then panic "PHYSTOP too high"
    else setupkvm_loop pgdir kmap.

Definition inituvm (pgdir : Z) (init : list Z) : M kmem unit :=
  if PGSIZE <=? Z.of_nat (length init) then panic "inituvm: more than a page"
  else
    mem ← kalloc;
    if mem =? 0 then null_dereference
    else
      on_mem (memset_page (V2P mem) 0);;
      mappages pgdir 0 PGSIZE (V2P mem) (Z.lor PTE_W PTE_U);;
      on_mem (wr_bytes (V2P mem) init).

(** The loop of [allocuvm] from page [a] on. *)
Fixpoint allocuvm_loop (fuel : nat) (pgdir a oldsz newsz : Z) : M kmem Z :=
  if a <? newsz then
    match fuel with
    | O => panic "out of fuel"
    | S fuel =>
        mem ← kalloc;
        if mem =? 0 then
          emit (EPrint "allocuvm out of memory\n" []);;
          deallocuvm pgdir newsz oldsz;;
          mret 0
        else
          on_mem (memset_page (V2P mem) 0);;
          r ← mappages pgdir a PGSIZE (V2P mem) (Z.lor PTE_W PTE_U);
          if r <? 0 then
            emit (EPrint "allocuvm out of memory (2)\n" []);;
            deallocuvm pgdir newsz oldsz;;
            kfree kend mem;;
            mret 0
          else allocuvm_loop fuel pgdir (u32 (a + PGSIZE)) oldsz newsz
    end
  else mret (i32 newsz).
Definition allocuvm (pgdir oldsz newsz : Z) : M kmem Z :=
  if KERNBASE <=? newsz then mret 0
  else if newsz <? oldsz then mret (i32 oldsz)
  else allocuvm_loop (Z.to_nat (newsz / PGSIZE + 1)) pgdir (PGROUNDUP oldsz) oldsz newsz.

Definition clearpteu (pgdir uva : Z) : M kmem unit :=
  pte ← walkpgdir pgdir uva false;
  if pte =? 0 then panic "clearpteu"
  else
    e ← load pte;
    store pte (Z.land e (u32 (Z.lnot PTE_U))).

(** The loop of [copyuvm] from page [i] on, with its label [bad]. *)
Fixpoint copyuvm_loop (fuel : nat) (pgdir d i sz : Z) : M kmem Z :=
  if i <? sz then
    match fuel with
    | O => panic "out of fuel"
    | S fuel =>
        pte ← walkpgdir pgdir i false;
        if pte =? 0 then panic "copyuvm: pte should exist"
        else
          e ← load pte;
          if negb (present e) then panic "copyuvm: page not present"
          else
            let pa := PTE_ADDR e in
            let flags := PTE_FLAGS e in
            mem ← kalloc;
            if mem =? 0 then freevm d;; mret 0
            else
              on_mem (copy_page (V2P mem) pa);;
              r ← mappages d i PGSIZE (V2P mem) flags;
              if r <? 0 then kfree kend mem;; freevm d;; mret 0
              else copyuvm_loop fuel pgdir d (u32 (i + PGSIZE)) sz
    end
  else mret d.
Definition copyuvm (pgdir sz : Z) : M kmem Z :=
  d ← setupkvm;
  if d =? 0 then mret 0
  else copyuvm_loop (Z.to_nat (sz / PGSIZE + 1)) pgdir d 0 sz.

(** The entry is read without a test of [pte]. *)
Definition uva2ka (pgdir uva : Z) : M kmem Z :=
  pte ← walkpgdir pgdir uva false;
  if pte =? 0 then null_dereference
  else
    e ← load pte;
    if Z.land e PTE_P =? 0 then mret 0
    else if Z.land e PTE_U =? 0 then mret 0
    else mret (P2V (PTE_ADDR e)).

(** The loop of [copyout]: each turn but the first starts at a page. *)
Fixpoint copyout_loop (fuel : nat) (pgdir va : Z) (buf : list Z) : M kmem Z :=
  match buf with
  | [] => mret 0
  | _ =>
    match fuel with
    | O => panic "out of fuel"
    | S fuel =>
        let va0 := PGROUNDDOWN va in
        pa0 ← uva2ka pgdir va0;
        if pa0 =? 0 then mret (-1)
        else
          let n := Z.to_nat (Z.min (PGSIZE - (va - va0)) (Z.of_nat (length buf))) in
          on_mem (wr_bytes (V2P (pa0 + (va - va0))) (take n buf));;
          copyout_loop fuel pgdir (u32 (va0 + PGSIZE)) (drop n buf)
    end
  end.
(** [p] holds the [len] bytes. *)
Definition copyout (pgdir va : Z) (p : list Z) : M kmem Z :=
  copyout_loop (Z.to_nat (Z.of_nat (length p) / PGSIZE + 2)) pgdir va p.

End Vm.
