(* ===== verification/VmInv.v ===== *)
(** * Address spaces

    A page directory as a function from virtual page numbers to entries; the
    invariant [aspace] of one address space (its directory, page tables and user
    pages are pages of the allocator, all different and none of them free); and
    the contracts of [walkpgdir] and of single stores under it. *)

From S2P Require Import Prelude Mem Kalloc Vm.

(** ** Words of a page *)

(** The page at kernel address [v], and its word [i]. *)
Definition pg (m : gmap Z page) (v : Z) : page := page_of m (V2P v / 4096).
Definition pword (p : page) (i : Z) : Z := default (fill_word (fill p)) (over p !! i).
Definition pset (i w : Z) (p : page) : page := Page (fill p) (<[i := u32 w]> (over p)).
Definition zero_page : page := Page 0 ∅.

Lemma pword_pset p i j w : pword (pset i w p) j = if decide (i = j) then u32 w else pword p j.
Proof.
  unfold pword, pset; simpl. case_decide; subst; [by rewrite lookup_insert_eq|by rewrite lookup_insert_ne].
Qed.
Lemma pword_zero i : pword zero_page i = 0.
Proof. done. Qed.

(** ** Entries *)

Lemma land_mask_low x : Z.land x 0xFFF = x mod 4096.
Proof. change 0xFFF with (Z.ones 12). rewrite Z.land_ones by lia. done. Qed.

Lemma PTE_ADDR_eq e : 0 ≤ e < 4294967296 → PTE_ADDR e = e - e mod 4096.
Proof. intros He. unfold PTE_ADDR. change 0xFFF with (PGSIZE - 1). by apply land_page_mask. Qed.
Lemma PTE_ADDR_range e : 0 ≤ PTE_ADDR e < 4294967296.
Proof.
  assert (PTE_ADDR e = PTE_ADDR (e mod 4294967296)) as ->.
  { unfold PTE_ADDR. change 4294967296 with (2 ^ 32). rewrite <- Z.land_ones, <- Z.land_assoc by lia. done. }
  pose proof (Z.mod_pos_bound e 4294967296). rewrite PTE_ADDR_eq by lia. Z.to_euclidean_division_equations. lia.
Qed.
Lemma V2P_P2V x : 0 ≤ x < 4294967296 → V2P (P2V x) = x.
Proof.
  intros Hx. unfold V2P, P2V, u32. rewrite Zminus_mod_idemp_l. rewrite Z.add_simpl_r. by apply Z.mod_small.
Qed.
Lemma PTE_FLAGS_eq e : PTE_FLAGS e = e mod 4096.
Proof. apply land_mask_low. Qed.

Lemma lor_aligned x f : x mod 4096 = 0 → 0 ≤ f < 4096 → Z.lor x f = x + f.
Proof.
  intros Hx Hf. symmetry. rewrite <- Z.lxor_lor, Z.add_nocarry_lxor; [done| |].
  all: apply Z.bits_inj'; intros n Hn; rewrite Z.land_spec, Z.bits_0; apply andb_false_iff.
  all: replace x with (Z.shiftl (x / 4096) 12) by
    (rewrite Z.shiftl_mul_pow2 by lia; Z.to_euclidean_division_equations; lia).
  all: destruct (decide (n < 12)); [left; by apply Z.shiftl_spec_low|right].
  all: rewrite <- (Z.mod_small f (2 ^ 12)) by (simpl; lia); apply Z.mod_pow2_bits_high; lia.
Qed.

(** An entry for the page at [pa] with the permissions [perm]. *)
Definition mk_pte (pa perm : Z) : Z := Z.lor (Z.lor pa perm) PTE_P.

Lemma lor_perm f : 0 ≤ f < 4096 → 0 ≤ Z.lor f PTE_P < 4096.
Proof.
  intros Hf. assert (0 ≤ Z.lor f PTE_P) by (apply Z.lor_nonneg; unfold PTE_P; lia). split; [done|].
  destruct (Z.eq_dec (Z.lor f PTE_P) 0) as [->|]; [lia|]. change 4096 with (2 ^ 12). apply Z.log2_lt_pow2; [lia|].
  rewrite Z.log2_lor by (unfold PTE_P; lia). apply Z.max_lub_lt; [|done].
  destruct (decide (f = 0)) as [->|]; [done|]. apply Z.log2_lt_pow2; simpl; lia.
Qed.

Lemma PTE_FLAGS_range e : 0 ≤ PTE_FLAGS e < 4096.
Proof. rewrite PTE_FLAGS_eq. apply Z.mod_pos_bound. lia. Qed.

Lemma mk_pte_eq pa perm : pa mod 4096 = 0 → 0 ≤ perm < 4096 → mk_pte pa perm = pa + Z.lor perm PTE_P.
Proof. intros. unfold mk_pte. rewrite <- Z.lor_assoc. apply lor_aligned; [done|by apply lor_perm]. Qed.

Lemma present_lor x : present (Z.lor x PTE_P) = true.
Proof.
  unfold present. apply negb_true_iff, Z.eqb_neq. intros H.
  assert (Z.testbit (Z.land (Z.lor x PTE_P) PTE_P) 0 = false) as Hb by (rewrite H; apply Z.bits_0).
  rewrite Z.land_spec, Z.lor_spec in Hb. unfold PTE_P in Hb. simpl in Hb.
  rewrite orb_true_r in Hb. done.
Qed.
Lemma present_mk_pte pa perm : present (mk_pte pa perm) = true.
Proof. apply present_lor. Qed.
Lemma present_zero : present 0 = false.
Proof. done. Qed.

Lemma mk_pte_range pa perm :
  pa mod 4096 = 0 → 0 ≤ pa < 4294967296 → 0 ≤ perm < 4096 → 0 ≤ mk_pte pa perm < 4294967296.
Proof.
  intros Ha Hr Hp. rewrite mk_pte_eq by done. pose proof (lor_perm perm Hp). Z.to_euclidean_division_equations. lia.
Qed.
Lemma mk_pte_addr pa perm :
  pa mod 4096 = 0 → 0 ≤ pa < 4294967296 → 0 ≤ perm < 4096 → PTE_ADDR (mk_pte pa perm) = pa.
Proof.
  intros Ha Hr Hp. rewrite PTE_ADDR_eq by (by apply mk_pte_range). rewrite mk_pte_eq by done.
  pose proof (lor_perm perm Hp). Z.to_euclidean_division_equations. lia.
Qed.
Lemma mk_pte_flags pa perm :
  pa mod 4096 = 0 → 0 ≤ perm < 4096 → PTE_FLAGS (mk_pte pa perm) = Z.lor perm PTE_P.
Proof.
  intros Ha Hp. rewrite PTE_FLAGS_eq, mk_pte_eq by done. pose proof (lor_perm perm Hp).
  rewrite Z.add_mod, Ha, Z.add_0_l, Z.mod_mod by lia. by apply Z.mod_small.
Qed.

Lemma PDX_eq va : 0 ≤ va < 4294967296 → PDX va = va / 4096 / 1024.
Proof.
  intros H. unfold PDX. change 0x3FF with (Z.ones 10). rewrite Z.land_ones, Z.shiftr_div_pow2 by lia.
  change (2 ^ 22) with (4096 * 1024). rewrite <- Z.div_div by lia. apply Z.mod_small.
  change (2 ^ 10) with 1024. Z.to_euclidean_division_equations. lia.
Qed.
Lemma PTX_eq va : PTX va = (va / 4096) mod 1024.
Proof. unfold PTX. change 0x3FF with (Z.ones 10). by rewrite Z.land_ones, Z.shiftr_div_pow2 by lia. Qed.

(** ** The tree *)

(** The page table behind entry [i] of the directory [d], the entry for page
    number [n], and the page it maps. *)
Definition tab (m : gmap Z page) (d i : Z) : option Z :=
  let e := pword (pg m d) i in
  if present e then Some (P2V (PTE_ADDR e)) else None.
Definition pte (m : gmap Z page) (d n : Z) : Z :=
  match tab m d (n / 1024) with
  | Some t => pword (pg m t) (n mod 1024)
  | None => 0
  end.
Definition upage (m : gmap Z page) (d n : Z) : option Z :=
  let e := pte m d n in
  if present e then Some (P2V (PTE_ADDR e)) else None.

(** The directory and page tables; and with the pages of user memory. *)
Definition ptpage (m : gmap Z page) (d v : Z) : Prop :=
  v = d ∨ ∃ i, 0 ≤ i < 1024 ∧ tab m d i = Some v.
Definition NUSER : Z := 524288.
Definition owned_by (m : gmap Z page) (d v : Z) : Prop :=
  ptpage m d v ∨ ∃ n, 0 ≤ n < NUSER ∧ upage m d n = Some v.

Lemma owned_same m m' d v : (∀ i, tab m' d i = tab m d i) →
  (∀ n, 0 ≤ n < 1048576 → pte m' d n = pte m d n) → owned_by m' d v ↔ owned_by m d v.
Proof.
  intros Ht Hp. unfold owned_by, ptpage. setoid_rewrite Ht. apply or_iff_compat_l.
  split; intros (n & Hn & E); exists n; (split; [done|]); unfold upage, NUSER in *;
    [rewrite <- Hp by lia|rewrite Hp by lia]; done.
Qed.

Section Space.
Context (kend : Z) (Hkend : KERNBASE ≤ kend).
Local Abbreviation good := (good kend).
Local Abbreviation kinv := (kinv kend).
Implicit Types (m : gmap Z page) (s : kmem) (l : list Z).

Lemma good_range v : good v → v mod 4096 = 0 ∧ V2P v = v - 2147483648 ∧ 0 ≤ V2P v < 234881024 ∧ 0 < v.
Proof.
  intros Hg. destruct (good_V2P kend v Hg) as [HV Hp]. destruct Hg as (? & ? & ?).
  rewrite HV. unfold KERNBASE, PHYSTOP in *. lia.
Qed.
Lemma V2P_aligned v : good v → V2P v mod 4096 = 0.
Proof. intros Hg. destruct (good_range v Hg) as (? & -> & _). Z.to_euclidean_division_equations. lia. Qed.
Lemma P2V_V2P v : good v → P2V (V2P v) = v.
Proof.
  intros Hg. destruct (good_range v Hg) as (_ & E & ? & _). unfold P2V, KERNBASE. rewrite u32_small by lia. lia.
Qed.

Lemma word_addr v i : good v → 0 ≤ i < 1024 →
  V2P (v + 4 * i) / 4096 = V2P v / 4096 ∧ V2P (v + 4 * i) mod 4096 / 4 = i.
Proof.
  intros Hg Hi. destruct (good_range v Hg) as (Hm & E & Hr & _). unfold V2P, KERNBASE in *.
  rewrite (u32_small (v + 4 * i - 2147483648)) by lia. rewrite E. Z.to_euclidean_division_equations. lia.
Qed.

Lemma rd_pword m v i : good v → 0 ≤ i < 1024 → rd_word m (V2P (v + 4 * i)) = pword (pg m v) i.
Proof. intros Hg Hi. unfold rd_word, pword, pg. by destruct (word_addr v i Hg Hi) as [-> ->]. Qed.

Lemma pg_insert m v n p : good v →
  pg (<[V2P v / 4096 := p]> m) n = if decide (V2P v / 4096 = V2P n / 4096) then p else pg m n.
Proof.
  intros Hg. unfold pg. case_decide as E; [by rewrite E, page_of_insert_eq|by rewrite page_of_insert_ne].
Qed.
Lemma pg_insert_good m v w p : good v → good w →
  pg (<[V2P v / 4096 := p]> m) w = if decide (w = v) then p else pg m w.
Proof.
  intros Hv Hw. rewrite pg_insert by done. repeat case_decide; try done; subst; try done.
  by destruct (good_page_inj kend v w).
Qed.
Lemma pg_wr_word m v i x w : good v → 0 ≤ i < 1024 → good w →
  pg (wr_word (V2P (v + 4 * i)) x m) w = if decide (w = v) then pset i x (pg m v) else pg m w.
Proof.
  intros Hv Hi Hw. unfold wr_word. destruct (word_addr v i Hv Hi) as [-> ->].
  rewrite pg_insert_good by done. by case_decide; subst.
Qed.
Lemma pg_memset m v c w : good v → good w →
  pg (memset_page (V2P v) c m) w = if decide (w = v) then Page (u8 c) ∅ else pg m w.
Proof. intros. by apply pg_insert_good. Qed.
Lemma pg_copy m v u w : good v → good w →
  pg (copy_page (V2P v) (V2P u) m) w = if decide (w = v) then pg m u else pg m w.
Proof. intros. by apply pg_insert_good. Qed.
Lemma pg_kfree s v w : good v → good w → w ≠ v → pg (kmm (kfree_state v s)) w = pg (kmm s) w.
Proof.
  intros Hv Hw Hne. cbn [kfree_state kmm]. replace (V2P v) with (V2P (v + 4 * 0)) at 1 by (f_equal; lia).
  rewrite pg_wr_word by (done || lia). rewrite decide_False by done. rewrite pg_memset by done.
  by rewrite decide_False by done.
Qed.

(** The pages of the free list are what [kinv] reads. *)
Lemma kinv_same s s' l :
  kinv s l → freelist s' = freelist s → (∀ v, v ∈ l → pg (kmm s') v = pg (kmm s) v) → kinv s' l.
Proof.
  intros [Hc Hg Hn] Hf Hs. split; [|done|done]. rewrite Hf. eapply chain_frame; [done|done|].
  intros v Hv. rewrite Forall_forall in Hg. replace (V2P v) with (V2P (v + 4 * 0)) by (f_equal; lia).
  rewrite !rd_pword by (by apply Hg || lia). by rewrite Hs.
Qed.
Lemma kinv_good s l v : kinv s l → v ∈ l → good v.
Proof. intros [_ Hg _] Hv. rewrite Forall_forall in Hg. by apply Hg. Qed.

(** ** Contracts of the allocator and of stores *)

Lemma kalloc_ok L s l : Lkmem ∉ L → kinv s l →
  totl L kalloc (λ r s', kmm s' = kmm s ∧
    match l with
    | [] => r = 0 ∧ kinv s' []
    | v :: l' => r = v ∧ v ≠ 0 ∧ good v ∧ v ∉ l' ∧ kinv s' l'
    end) s.
Proof.
  intros HL Hi tr. rewrite kalloc_eq by done. eexists _, tr, _. split; [done|]. destruct l as [|v l].
  - assert (freelist s = 0) as -> by (destruct Hi as [Hc _ _]; by inversion Hc). done.
  - destruct (kalloc_inv kend _ _ _ Hi) as (-> & Hv & Hi'). destruct (Z.eqb_spec v 0); [done|].
    destruct Hi as [_ Hg Hn]. apply Forall_cons in Hg as [Hg _]. apply NoDup_cons in Hn as [Hn _]. done.
Qed.
Lemma kfree_ok L s l v : Lkmem ∉ L → kinv s l → good v → v ∉ l →
  totl L (kfree kend v) (λ _ s', s' = kfree_state v s ∧ kinv s' (v :: l)) s.
Proof.
  intros HL Hi Hg Hv tr. exists tt, tr, (kfree_state v s). split; [by apply kfree_eq|].
  split; [done|]. by apply kfree_inv.
Qed.

(** ** Changes confined to some pages

    From [s], [l] to [s'], [l']: only pages of [P] change, and only they become
    free. *)
Record within (P : Z → Prop) (s : kmem) (l : list Z) (s' : kmem) (l' : list Z) : Prop := {
  in_same v : good v → ¬ P v → pg (kmm s') v = pg (kmm s) v;
  in_free v : v ∈ l' → v ∈ l ∨ P v }.

Lemma within_refl P s l : within P s l s l.
Proof. split; [done|]. tauto. Qed.
Lemma within_trans (P P1 P2 : Z → Prop) s l s1 l1 s2 l2 :
  within P1 s l s1 l1 → within P2 s1 l1 s2 l2 → (∀ v, P1 v → P v) → (∀ v, P2 v → P v) → within P s l s2 l2.
Proof.
  intros [A1 A2] [B1 B2] H1 H2. split.
  - intros v Hg Hv. rewrite B1, A1; [done|done| |done|]; intros ?; apply Hv; auto.
  - intros v Hv. destruct (B2 v Hv) as [Hv'|]; [|auto]. destruct (A2 v Hv'); auto.
Qed.
Lemma within_mono (P P' : Z → Prop) s l s' l' : within P s l s' l' → (∀ v, P v → P' v) → within P' s l s' l'.
Proof. intros H HP. eapply within_trans; [exact H|apply (within_refl P')|done|done]. Qed.

(** ** The invariant *)

Record aspace (s : kmem) (l : list Z) (d : Z) : Prop := {
  as_kinv : kinv s l;
  as_dir : good d ∧ d ∉ l;
  as_tab i t : 0 ≤ i < 1024 → tab (kmm s) d i = Some t → good t ∧ t ∉ l ∧ t ≠ d;
  as_tab_inj i j t : 0 ≤ i < 1024 → 0 ≤ j < 1024 → tab (kmm s) d i = Some t → tab (kmm s) d j = Some t → i = j;
  as_user n p : 0 ≤ n < NUSER → upage (kmm s) d n = Some p → good p ∧ p ∉ l ∧ ¬ ptpage (kmm s) d p;
  as_user_inj n n' p : 0 ≤ n < NUSER → 0 ≤ n' < NUSER →
    upage (kmm s) d n = Some p → upage (kmm s) d n' = Some p → n = n' }.

Lemma owned_good s l d v : aspace s l d → owned_by (kmm s) d v → good v ∧ v ∉ l.
Proof.
  intros A [[->|(i & Hi & Ht)]|(n & Hn & Hp)]; [apply A| |].
  - by destruct (as_tab _ _ _ A i v Hi Ht) as (? & ? & _).
  - by destruct (as_user _ _ _ A n v Hn Hp) as (? & ? & _).
Qed.

(** The tree depends on its own pages only. *)
Lemma tab_same m m' d i : pg m' d = pg m d → tab m' d i = tab m d i.
Proof. intros H. unfold tab. by rewrite H. Qed.
Lemma pte_same m m' d n : 0 ≤ n < 1048576 →
  (∀ v, ptpage m d v → pg m' v = pg m v) → pte m' d n = pte m d n.
Proof.
  intros Hn H. unfold pte. rewrite (tab_same m m') by (apply H; by left).
  destruct (tab m d (n / 1024)) as [t|] eqn:E; [|done]. rewrite H; [done|]. right. exists (n / 1024).
  split; [|done]. Z.to_euclidean_division_equations. lia.
Qed.
Lemma upage_pte m m' d n : pte m' d n = pte m d n → upage m' d n = upage m d n.
Proof. intros H. unfold upage. by rewrite H. Qed.

(** Changes off the directory and page tables keep the address space. *)
Lemma aspace_same s l s' l' d :
  aspace s l d → kinv s' l' → (∀ v, owned_by (kmm s) d v → v ∉ l') →
  (∀ v, ptpage (kmm s) d v → pg (kmm s') v = pg (kmm s) v) →
  aspace s' l' d ∧ ∀ n, 0 ≤ n < 1048576 → pte (kmm s') d n = pte (kmm s) d n.
Proof.
  intros A Hi Hl' Hpg.
  assert (∀ i, tab (kmm s') d i = tab (kmm s) d i) as Ht by (intros i; apply tab_same, Hpg; by left).
  assert (∀ n, 0 ≤ n < 1048576 → pte (kmm s') d n = pte (kmm s) d n) as Hp by (intros n Hn; by apply pte_same).
  assert (∀ n, 0 ≤ n < NUSER → upage (kmm s') d n = upage (kmm s) d n) as Hu.
  { intros n Hn. apply upage_pte, Hp. unfold NUSER in Hn. lia. }
  split; [|done]. split.
  - done.
  - split; [apply A|]. apply Hl'. left. by left.
  - intros i t Hi' Hti. rewrite Ht in Hti. destruct (as_tab _ _ _ A i t Hi' Hti) as (? & _ & ?).
    split; [done|]. split; [|done]. apply Hl'. left. right. by exists i.
  - intros i j t. rewrite !Ht. apply A.
  - intros n p Hn Hup. rewrite Hu in Hup by done. destruct (as_user _ _ _ A n p Hn Hup) as (? & _ & Hnp).
    split; [done|]. split; [apply Hl'; right; by exists n|]. intros [->|(i & Hi' & Hti)]; apply Hnp; [by left|].
    rewrite Ht in Hti. right. by exists i.
  - intros n n' p Hn Hn'. rewrite !Hu by done. by apply A.
Qed.

(** Another address space is kept by changes that stay off its pages. *)
Lemma aspace_other P s l s' l' d :
  aspace s l d → kinv s' l' → within P s l s' l' → (∀ v, owned_by (kmm s) d v → ¬ P v) →
  aspace s' l' d ∧ (∀ n, 0 ≤ n < 1048576 → pte (kmm s') d n = pte (kmm s) d n) ∧
  (∀ v, owned_by (kmm s) d v → pg (kmm s') v = pg (kmm s) v).
Proof.
  intros A Hi [Hs Hf] Hd.
  assert (∀ v, owned_by (kmm s) d v → pg (kmm s') v = pg (kmm s) v) as Hpg.
  { intros v Hv. apply Hs; [by eapply owned_good|by apply Hd]. }
  destruct (aspace_same s l s' l' d A Hi) as [A' Hp].
  - intros v Hv Hin. destruct (Hf v Hin) as [Hl|HP]; [|by apply (Hd v)]. by destruct (owned_good _ _ _ _ A Hv).
  - intros v Hv. apply Hpg. by left.
  - done.
Qed.

(** ** Storing an entry *)

(** What of the invariant concerns the directory and page tables. *)
Record tree (m : gmap Z page) (d : Z) : Prop := {
  tr_dir : good d;
  tr_tab i t : 0 ≤ i < 1024 → tab m d i = Some t → good t ∧ t ≠ d;
  tr_inj i j t : 0 ≤ i < 1024 → 0 ≤ j < 1024 → tab m d i = Some t → tab m d j = Some t → i = j }.
Lemma as_tree s l d : aspace s l d → tree (kmm s) d.
Proof.
  intros A. split; [apply A| |apply A]. intros i t Hi Ht. by destruct (as_tab _ _ _ A i t Hi Ht) as (? & _ & ?).
Qed.

(** The memory after a store of [w] into entry [n], whose page table is [t]. *)
Lemma set_pte m d n t w : tree m d → 0 ≤ n < 1048576 → tab m d (n / 1024) = Some t →
  let m' := wr_word (V2P (t + 4 * (n mod 1024))) w m in
  (∀ i, tab m' d i = tab m d i) ∧
  (∀ k, 0 ≤ k < 1048576 → pte m' d k = if decide (k = n) then u32 w else pte m d k) ∧
  (∀ v, good v → v ≠ t → pg m' v = pg m v).
Proof.
  intros A Hn Ht m'. assert (0 ≤ n / 1024 < 1024) as Hi by (Z.to_euclidean_division_equations; lia).
  assert (0 ≤ n mod 1024 < 1024) as Hm by (apply Z.mod_pos_bound; lia).
  destruct (tr_tab _ _ A _ _ Hi Ht) as (Hgt & Htd). pose proof (tr_dir _ _ A) as Hgd.
  assert (∀ v, good v → pg m' v = if decide (v = t) then pset (n mod 1024) w (pg m t) else pg m v) as Hpg.
  { intros v Hv. by apply pg_wr_word. }
  assert (∀ i, tab m' d i = tab m d i) as Htab.
  { intros i. apply tab_same. rewrite Hpg by done. by rewrite decide_False by done. }
  split; [done|]. split.
  - intros k Hk. unfold pte. rewrite Htab.
    assert (0 ≤ k / 1024 < 1024) as Hk' by (Z.to_euclidean_division_equations; lia).
    destruct (tab m d (k / 1024)) as [t'|] eqn:Et'.
    + destruct (tr_tab _ _ A _ _ Hk' Et') as (Hgt' & _). rewrite Hpg by done.
      case_decide as E1.
      * subst t'. assert (k / 1024 = n / 1024) as E by (by eapply (tr_inj _ _ A)).
        rewrite pword_pset. repeat case_decide; subst; try done.
        -- exfalso. Z.to_euclidean_division_equations. lia.
      * rewrite decide_False; [done|]. intros ->. congruence.
    + rewrite decide_False; [done|]. intros ->. congruence.
  - intros v Hv Hne. rewrite Hpg by done. by rewrite decide_False.
Qed.

(** Storing an entry for page [p], or for none, keeps the address space. *)
Lemma aspace_set_pte s l d n t w :
  aspace s l d → 0 ≤ n < 1048576 → tab (kmm s) d (n / 1024) = Some t → 0 ≤ w < 4294967296 →
  (n < NUSER → present w = true →
     good (P2V (PTE_ADDR w)) ∧ P2V (PTE_ADDR w) ∉ l ∧ ¬ owned_by (kmm s) d (P2V (PTE_ADDR w))) →
  aspace (Kmem (use_lock s) (freelist s) (wr_word (V2P (t + 4 * (n mod 1024))) w (kmm s))) l d.
Proof.
  intros A Hn Ht Hw Hp. destruct (set_pte (kmm s) d n t w (as_tree _ _ _ A) Hn Ht) as (Htab & Hpte & Hpg).
  rewrite (u32_small w) in Hpte by done. set (m' := wr_word _ _ _) in *.
  assert (0 ≤ n / 1024 < 1024) as Hi by (Z.to_euclidean_division_equations; lia).
  destruct (as_tab _ _ _ A _ _ Hi Ht) as (Hgt & Hlt & Htd).
  assert (∀ v, ptpage m' d v ↔ ptpage (kmm s) d v) as Hpp.
  { intros v. unfold ptpage. by setoid_rewrite Htab. }
  assert (∀ k, 0 ≤ k < NUSER → k ≠ n → upage m' d k = upage (kmm s) d k) as Hu.
  { intros k Hk Hne. apply upage_pte. unfold NUSER in Hk. rewrite Hpte by lia. by rewrite decide_False. }
  assert (0 ≤ n < NUSER → ∀ p, upage m' d n = Some p →
    good p ∧ p ∉ l ∧ ¬ owned_by (kmm s) d p) as Hun.
  { intros Hn' p. unfold upage. rewrite Hpte, decide_True by done. intros E.
    destruct (present w) eqn:Ep; simplify_eq. apply Hp; [lia|done]. }
  split; cbn [kmm].
  - eapply kinv_same; [apply A|done|]. intros v Hv. cbn [kmm]. apply Hpg; [by eapply kinv_good; [apply A|]|].
    by intros ->.
  - apply A.
  - intros i t'. rewrite Htab. apply A.
  - intros i j t'. rewrite !Htab. apply A.
  - intros k p Hk. destruct (decide (k = n)) as [->|Hne].
    + intros Hup. destruct (Hun Hk p Hup) as (? & ? & Hno). split; [done|]. split; [done|].
      rewrite Hpp. intros ?. apply Hno. by left.
    + rewrite Hu, Hpp by done. by apply A.
  - assert (∀ k p, 0 ≤ k < NUSER → k ≠ n → 0 ≤ n < NUSER → upage m' d n = Some p → upage m' d k ≠ Some p) as Hdis.
    { intros k p Hk Hne Hn' Hup. rewrite Hu by done. intros Hk'. destruct (Hun Hn' p Hup) as (_ & _ & Hno).
      apply Hno. right. by exists k. }
    intros k k' p Hk Hk' H1 H2. destruct (decide (k = n)) as [->|E1], (decide (k' = n)) as [->|E2]; try done.
    + by destruct (Hdis k' p Hk' E2 Hk H1).
    + by destruct (Hdis k p Hk E1 Hk' H2).
    + rewrite Hu in H1, H2 by done. by eapply (as_user_inj _ _ _ A).
Qed.

End Space.
