(* ===== verification/VmMap.v ===== *)
(** * Mapping and unmapping

    What [walkpgdir], [mappages], [deallocuvm] and [freevm] do to an address
    space: the entries they change, the pages they take from the free list and
    the pages they give back. *)

From S2P Require Import Prelude Mem Kalloc Vm VmInv.

Tactic Notation "call" uconstr(lem) := eapply tot_bind, tot_mono; [eapply lem|cbv beta].

Section Map.
(** The kernel does not end at its first page. *)
Context (kend : Z) (Hklt : KERNBASE < kend).
Let Hkend : KERNBASE ≤ kend := Z.lt_le_incl _ _ Hklt.
Local Abbreviation good := (good kend).
Local Abbreviation kinv := (kinv kend).
Local Abbreviation aspace := (aspace kend).
Local Abbreviation within := (within kend).
Implicit Types (m : gmap Z page) (s : kmem) (l : list Z).

(** Address space [d] takes pages from the free list, and the pages [X] that
    were nobody's. *)
Record grows (X : Z → Prop) (d : Z) (s : kmem) (l : list Z) (s' : kmem) (l' : list Z) : Prop := {
  g_space : aspace s' l' d;
  g_sub v : v ∈ l' → v ∈ l;
  g_same v : good v → v ∉ l → (¬ ptpage (kmm s) d v) → pg (kmm s') v = pg (kmm s) v;
  g_tab i t : 0 ≤ i < 1024 → tab (kmm s) d i = Some t → tab (kmm s') d i = Some t;
  g_pt v : ptpage (kmm s') d v → ptpage (kmm s) d v ∨ v ∈ l;
  g_pages v : v ∈ l' ∨ owned_by (kmm s') d v ↔ v ∈ l ∨ owned_by (kmm s) d v ∨ X v }.

(** It gives pages back, and keeps its page tables. *)
Record shrinks (d : Z) (s : kmem) (l : list Z) (s' : kmem) (l' : list Z) : Prop := {
  h_space : aspace s' l' d;
  h_sub v : v ∈ l → v ∈ l';
  h_same v : good v → v ∉ l' → (¬ ptpage (kmm s) d v) → pg (kmm s') v = pg (kmm s) v;
  h_tab i : tab (kmm s') d i = tab (kmm s) d i;
  h_pages v : v ∈ l' ∨ owned_by (kmm s') d v ↔ v ∈ l ∨ owned_by (kmm s) d v }.

Lemma grows_refl d s l : aspace s l d → grows (λ _, False) d s l s l.
Proof. intros A. split; try done; tauto. Qed.
Lemma grows_trans X Y d s l s1 l1 s2 l2 :
  grows X d s l s1 l1 → grows Y d s1 l1 s2 l2 → grows (λ v, X v ∨ Y v) d s l s2 l2.
Proof.
  intros G H. split.
  - apply H.
  - intros v Hv. by eapply g_sub, g_sub.
  - intros v Hg Hl Hp. rewrite (g_same _ _ _ _ _ _ H), (g_same _ _ _ _ _ _ G); try done.
    + intros Hl1. by apply Hl, (g_sub _ _ _ _ _ _ G).
    + intros Hp1. by destruct (g_pt _ _ _ _ _ _ G v Hp1).
  - intros i t Hi Ht. apply (g_tab _ _ _ _ _ _ H), (g_tab _ _ _ _ _ _ G); done.
  - intros v Hv. destruct (g_pt _ _ _ _ _ _ H v Hv) as [Hv1|Hl1]; [by apply (g_pt _ _ _ _ _ _ G)|].
    right. by apply (g_sub _ _ _ _ _ _ G).
  - intros v. rewrite (g_pages _ _ _ _ _ _ H v), (assoc (∨)), (g_pages _ _ _ _ _ _ G v).
    generalize (owned_by (kmm s) d v). tauto.
Qed.
Lemma grows_weaken X Y d s l s' l' : grows X d s l s' l' → (∀ v, X v ↔ Y v) → grows Y d s l s' l'.
Proof. intros [] HXY. split; try done. intros v. rewrite <- HXY. done. Qed.

Lemma shrinks_refl d s l : aspace s l d → shrinks d s l s l.
Proof. intros A. split; done. Qed.
Lemma shrinks_trans d s l s1 l1 s2 l2 : shrinks d s l s1 l1 → shrinks d s1 l1 s2 l2 → shrinks d s l s2 l2.
Proof.
  intros G H. split.
  - apply H.
  - intros v Hv. by eapply h_sub, h_sub.
  - intros v Hg Hl Hp. rewrite (h_same _ _ _ _ _ H), (h_same _ _ _ _ _ G); try done.
    + intros Hl1. by apply Hl, (h_sub _ _ _ _ _ H).
    + unfold ptpage. setoid_rewrite (h_tab _ _ _ _ _ G). done.
  - intros i. by rewrite (h_tab _ _ _ _ _ H), (h_tab _ _ _ _ _ G).
  - intros v. by rewrite (h_pages _ _ _ _ _ H v), (h_pages _ _ _ _ _ G v).
Qed.

(** Page number [n] at its place in the tree. *)
Lemma page_index va : 0 ≤ va < 4294967296 → 0 ≤ va / 4096 < 1048576 ∧ 0 ≤ va / 4096 / 1024 < 1024.
Proof. intros H. Z.to_euclidean_division_equations. lia. Qed.

Lemma load_dir L s l d i : aspace s l d → 0 ≤ i < 1024 →
  totl L (load (d + 4 * i)) (λ r s', s' = s ∧ r = pword (pg (kmm s) d) i) s.
Proof. intros A Hi. apply tot_gets. split; [done|]. apply (rd_pword kend); [apply A|done]. Qed.

(** [walkpgdir] without allocation: the address of the entry, or 0. *)
Definition pte_addr m (d va : Z) : Z :=
  match tab m d (va / 4096 / 1024) with
  | Some t => t + 4 * ((va / 4096) mod 1024)
  | None => 0
  end.
Lemma walk_ok L s l d va : aspace s l d → 0 ≤ va < 4294967296 →
  totl L (walkpgdir d va false) (λ r s', s' = s ∧ r = pte_addr (kmm s) d va) s.
Proof.
  intros A Hva. destruct (page_index va Hva) as [Hn Hi]. unfold walkpgdir. rewrite PDX_eq, PTX_eq by done.
  call load_dir; [done|done|]. intros e s1 [-> ->]. unfold pte_addr, tab.
  destruct (present _); cbn [negb]; by tot_step.
Qed.

Lemma pte_addr_nz s l d va t : aspace s l d → 0 ≤ va < 4294967296 →
  tab (kmm s) d (va / 4096 / 1024) = Some t → t + 4 * ((va / 4096) mod 1024) ≠ 0.
Proof.
  intros A Hva Ht. destruct (page_index va Hva) as [Hn Hi]. destruct (as_tab _ _ _ _ A _ _ Hi Ht) as (Hg & _).
  destruct (good_range kend t Hg) as (_ & _ & _ & ?). pose proof (Z.mod_pos_bound (va / 4096) 1024). lia.
Qed.

Lemma load_pte L s l d n t : aspace s l d → 0 ≤ n < 1048576 → tab (kmm s) d (n / 1024) = Some t →
  totl L (load (t + 4 * (n mod 1024))) (λ r s', s' = s ∧ r = pte (kmm s) d n) s.
Proof.
  intros A Hn Ht. apply tot_gets. split; [done|]. unfold pte. rewrite Ht.
  assert (0 ≤ n / 1024 < 1024) as Hi by (Z.to_euclidean_division_equations; lia).
  destruct (as_tab _ _ _ _ A _ _ Hi Ht) as (Hg & _). apply (rd_pword kend); [done|].
  apply Z.mod_pos_bound. lia.
Qed.

(** ** A new page table *)

(** Entry of a directory for page table [t], with all permissions. *)
Lemma pde_eq t : good t → Z.lor (Z.lor (Z.lor (V2P t) PTE_P) PTE_W) PTE_U = V2P t + 7.
Proof. intros Hg. rewrite <- !Z.lor_assoc. apply lor_aligned; [by eapply V2P_aligned|done]. Qed.
Lemma pde_tab t : good t → present (V2P t + 7) = true ∧ P2V (PTE_ADDR (V2P t + 7)) = t.
Proof.
  intros Hg. pose proof (V2P_aligned kend t Hg) as Ha. destruct (good_range kend t Hg) as (_ & _ & Hr & _).
  assert (V2P t + 7 = mk_pte (V2P t) 7) as -> by (symmetry; by apply mk_pte_eq).
  split; [apply present_mk_pte|]. rewrite mk_pte_addr by lia. by eapply P2V_V2P.
Qed.

Lemma new_table s l d i t : aspace s l d → 0 ≤ i < 1024 → tab (kmm s) d i = None →
  good t → t ∉ l → (¬ owned_by (kmm s) d t) →
  let m' := wr_word (V2P (d + 4 * i)) (V2P t + 7) (memset_page (V2P t) 0 (kmm s)) in
  (∀ j, tab m' d j = if decide (j = i) then Some t else tab (kmm s) d j) ∧
  (∀ n, 0 ≤ n < 1048576 → pte m' d n = pte (kmm s) d n) ∧
  (∀ v, good v → v ≠ t → v ≠ d → pg m' v = pg (kmm s) v).
Proof.
  intros A Hi Hnone Hg Hl Hno m'. destruct (as_dir _ _ _ _ A) as [Hgd _].
  assert (t ≠ d) as Htd. { intros ->. apply Hno. left. by left. }
  assert (∀ v, good v → pg m' v = if decide (v = d) then pset i (V2P t + 7) (pg (kmm s) d)
    else if decide (v = t) then zero_page else pg (kmm s) v) as Hpg.
  { intros v Hv. unfold m'. rewrite (pg_wr_word kend) by done. rewrite !(pg_memset kend) by done.
    repeat case_decide; subst; done. }
  assert (∀ j, tab m' d j = if decide (j = i) then Some t else tab (kmm s) d j) as Htab.
  { intros j. unfold tab. rewrite Hpg, decide_True by done. rewrite pword_pset.
    destruct (good_range kend t Hg) as (_ & _ & Hr & _). destruct (pde_tab t Hg) as [Hp He].
    repeat case_decide; subst; try done. rewrite u32_small by lia. by rewrite Hp, He. }
  split; [done|]. split.
  - intros n Hn. unfold pte. rewrite Htab. case_decide as E.
    + rewrite E, Hnone. rewrite Hpg by done. rewrite decide_False, decide_True by done. done.
    + destruct (tab (kmm s) d (n / 1024)) as [t'|] eqn:Et; [|done].
      assert (0 ≤ n / 1024 < 1024) as Hi' by (Z.to_euclidean_division_equations; lia).
      destruct (as_tab _ _ _ _ A _ _ Hi' Et) as (Hgt' & _ & Hne). rewrite Hpg by done.
      rewrite decide_False by done. rewrite decide_False; [done|]. intros ->. apply Hno. left. right. by exists (n / 1024).
  - intros v Hv Hvt Hvd. rewrite Hpg by done. by rewrite !decide_False.
Qed.

Lemma grows_table s l d i t : aspace s (t :: l) d → 0 ≤ i < 1024 → tab (kmm s) d i = None → ∀ s1,
  kinv s1 l → kmm s1 = kmm s →
  let s' := Kmem (use_lock s1) (freelist s1) (wr_word (V2P (d + 4 * i)) (V2P t + 7) (memset_page (V2P t) 0 (kmm s1))) in
  grows (λ _, False) d s (t :: l) s' l ∧ tab (kmm s') d i = Some t ∧
  (∀ n, 0 ≤ n < 1048576 → pte (kmm s') d n = pte (kmm s) d n).
Proof.
  intros A Hi Hnone s1 Hk1 Hm1 s'.
  destruct (kinv_good kend s _ t (as_kinv _ _ _ _ A)) as (Hga & Hgb & Hgc); [set_solver|].
  assert (good t) as Hg by done. clear Hga Hgb Hgc.
  assert (t ∉ l) as Htl. { pose proof (kinv_nodup _ _ _ (as_kinv _ _ _ _ A)) as Hn. by apply NoDup_cons in Hn as [? _]. }
  assert (∀ v, owned_by (kmm s) d v → v ≠ t ∧ v ∉ l) as Hown.
  { intros v Hv. destruct (owned_good _ _ _ _ _ A Hv) as [_ Hv']. set_solver. }
  assert (aspace s1 l d) as A1.
  { eapply (aspace_other kend (λ _, False) s (t :: l)); [done|done| |by auto].
    split; [by rewrite Hm1|]. set_solver. }
  rewrite <- Hm1 in Hown, Hnone |- *.
  destruct (new_table s1 l d i t A1 Hi Hnone Hg Htl) as (Htab & Hpte & Hpg).
  { intros Ho. by destruct (Hown t Ho). }
  cbv zeta in Htab, Hpte, Hpg. change (wr_word _ _ _) with (kmm s') in Htab, Hpte, Hpg. set (m' := kmm s') in *.
  assert (∀ v, ptpage m' d v ↔ ptpage (kmm s1) d v ∨ v = t) as Hpp.
  { intros v. unfold ptpage. setoid_rewrite Htab. split.
    - intros [->|(j & Hj & E)]; [by left; left|]. case_decide; simplify_eq; [by right|]. left. right. by exists j.
    - intros [[->|(j & Hj & E)]| ->]; [by left| |].
      + right. exists j. split; [done|]. rewrite decide_False; [done|]. intros ->. congruence.
      + right. exists i. by rewrite decide_True. }
  assert (∀ n, 0 ≤ n < NUSER → upage m' d n = upage (kmm s1) d n) as Hu.
  { intros n Hn. apply upage_pte, Hpte. unfold NUSER in Hn. lia. }
  assert (∀ v, owned_by m' d v ↔ owned_by (kmm s1) d v ∨ v = t) as Ho.
  { intros v. unfold owned_by. rewrite Hpp. assert ((∃ n, 0 ≤ n < NUSER ∧ upage m' d n = Some v) ↔
      (∃ n, 0 ≤ n < NUSER ∧ upage (kmm s1) d n = Some v)) as ->; [|tauto].
    split; intros (n & Hn & E); exists n; (split; [done|]); specialize (Hu n Hn); congruence. }
  assert (¬ owned_by (kmm s1) d t) as Hnt by (intros Hx; by destruct (Hown t Hx)).
  destruct (as_dir _ _ _ _ A1) as [Hgd Hdl].
  split; [|split; [by rewrite Htab, decide_True|done]].
  split.
  - split.
    + eapply (kinv_same kend Hkend s1); [done|done|]. intros v Hv. apply Hpg.
      * by eapply kinv_good.
      * by intros ->.
      * by intros ->.
    + done.
    + intros j t' Hj. rewrite Htab. case_decide; [intros ?; simplify_eq|by apply A1].
      split; [done|]. split; [done|]. intros ->. apply Hnt. left. by left.
    + intros j j' t' Hj Hj'. rewrite !Htab. repeat case_decide; subst; try done.
      * intros ? E; simplify_eq. destruct Hnt. left. right. by exists j'.
      * intros E ?; simplify_eq. destruct Hnt. left. right. by exists j.
      * by apply A1.
    + intros n p Hn. rewrite Hu by done. intros Hp. destruct (as_user _ _ _ _ A1 n p Hn Hp) as (? & ? & Hnp).
      split; [done|]. split; [done|]. intros [?| ->]%Hpp; [done|]. apply Hnt. right. by exists n.
    + intros n n' p Hn Hn'. rewrite !Hu by done. by apply A1.
  - set_solver.
  - intros v Hv Hvl Hvp. rewrite <- Hm1. apply Hpg; [done|set_solver|]. intros ->. apply Hvp. by left.
  - intros j t' Hj Ht'. rewrite <- Hm1 in Ht'. rewrite Htab. case_decide; subst; [congruence|done].
  - intros v [?| ->]%Hpp; rewrite <- Hm1; [by left|right; set_solver].
  - intros v. rewrite <- Hm1. change (kmm s') with m'. rewrite (Ho v). set_solver.
Qed.

(** [walkpgdir] with allocation: as before with the entries unchanged, and the
    entry's page table exists unless memory has run out. *)
Lemma walk_alloc_ok L s l d va : Lkmem ∉ L → aspace s l d → 0 ≤ va < 4294967296 →
  totl L (walkpgdir d va true) (λ r s', ∃ l', grows (λ _, False) d s l s' l' ∧
    (∀ n, 0 ≤ n < 1048576 → pte (kmm s') d n = pte (kmm s) d n) ∧
    ((r = 0 ∧ l' = []) ∨
     ∃ t, tab (kmm s') d (va / 4096 / 1024) = Some t ∧ r = t + 4 * ((va / 4096) mod 1024))) s.
Proof.
  intros HL A Hva. destruct (page_index va Hva) as [Hn Hi]. unfold walkpgdir. rewrite PDX_eq, PTX_eq by done.
  call load_dir; [done|done|]. intros e s1 [-> ->].
  destruct (tab (kmm s) d (va / 4096 / 1024)) as [t|] eqn:Et; unfold tab in Et; destruct (present _) eqn:Ep; simplify_eq.
  { tot_step. exists l. split; [by apply grows_refl|]. split; [done|]. right. eexists. split; [|done].
    unfold tab. by rewrite Ep. }
  cbn [negb]. call (kalloc_ok kend); [done|apply A|]. intros t s1 [Hm1 Hcase]. destruct l as [|v l].
  { destruct Hcase as [-> Hk1]. rewrite Z.eqb_refl. tot_step. exists [].
    destruct (aspace_other kend (λ _, False) s [] s1 [] d) as (A1 & Hp & _); [done|done| |by auto|].
    { split; [by rewrite Hm1|set_solver]. }
    split; [|split; [done|by left]]. split; rewrite ?Hm1; try done; tauto. }
  destruct Hcase as (-> & Hv0 & Hgv & Hvl & Hk1). destruct (Z.eqb_spec v 0); [done|]. unfold store, on_mem. do 2 tot_step.
  change (kmm (Kmem _ _ ?x)) with x. cbn [use_lock freelist]. rewrite pde_eq by done.
  destruct (grows_table s l d (va / 4096 / 1024) v A Hi) with (s1 := s1) as (G & Ht & Hp); [|done|done|].
  { unfold tab. by rewrite Ep. }
  tot_step. exists l. split; [done|]. split; [done|]. right. by exists v.
Qed.

(** Storing a present entry where there was none. *)
Lemma store_grows s l d n t w : aspace s l d → 0 ≤ n < 1048576 → tab (kmm s) d (n / 1024) = Some t →
  0 ≤ w < 4294967296 → present w = true → present (pte (kmm s) d n) = false →
  (n < NUSER → good (P2V (PTE_ADDR w)) ∧ P2V (PTE_ADDR w) ∉ l ∧ (¬ owned_by (kmm s) d (P2V (PTE_ADDR w)))) →
  let s' := Kmem (use_lock s) (freelist s) (wr_word (V2P (t + 4 * (n mod 1024))) w (kmm s)) in
  grows (λ v, n < NUSER ∧ v = P2V (PTE_ADDR w)) d s l s' l ∧
  (∀ k, 0 ≤ k < 1048576 → pte (kmm s') d k = if decide (k = n) then w else pte (kmm s) d k).
Proof.
  intros A Hn Ht Hw Hp Hno HX s'. destruct (set_pte kend (kmm s) d n t w (as_tree _ _ _ _ A) Hn Ht) as (Htab & Hpte & Hpg).
  rewrite (u32_small w) in Hpte by done.
  change (wr_word _ _ _) with (kmm s') in Htab, Hpte, Hpg.
  assert (∀ v, ptpage (kmm s') d v ↔ ptpage (kmm s) d v) as Hpp by (intros v; unfold ptpage; by setoid_rewrite Htab).
  assert (aspace s' l d) as A'. { apply aspace_set_pte; try done. intros Hu _. by apply HX. }
  split; [|done]. split.
  - done.
  - done.
  - intros v Hv Hvl Hvp. apply Hpg; [done|]. intros ->. apply Hvp. right. exists (n / 1024). split; [|done].
    Z.to_euclidean_division_equations. lia.
  - intros i t' _. by rewrite Htab.
  - intros v Hv. left. by apply Hpp.
  - intros v. unfold owned_by. rewrite Hpp.
    assert ((∃ k, 0 ≤ k < NUSER ∧ upage (kmm s') d k = Some v) ↔
      (∃ k, 0 ≤ k < NUSER ∧ upage (kmm s) d k = Some v) ∨ (n < NUSER ∧ v = P2V (PTE_ADDR w))) as Hu.
    { unfold upage. split.
      - intros (k & Hk & E). unfold NUSER in Hk. rewrite Hpte in E by lia. case_decide; subst.
        + rewrite Hp in E. simplify_eq. right. split; [unfold NUSER; lia|done].
        + left. exists k. unfold NUSER. done.
      - intros [(k & Hk & E)|[Hu ->]].
        + exists k. split; [done|]. unfold NUSER in Hk. rewrite Hpte by lia. rewrite decide_False; [done|].
          intros ->. by rewrite Hno in E.
        + exists n. split; [unfold NUSER in *; lia|]. rewrite Hpte by done. rewrite decide_True by done. by rewrite Hp. }
    rewrite Hu. clear. tauto.
Qed.

(** One round of [mappages]. *)
Lemma map_one L s l d a w (K : M kmem Z) Q :
  Lkmem ∉ L → aspace s l d → 0 ≤ a < 4294967296 → 0 ≤ w < 4294967296 → present w = true →
  present (pte (kmm s) d (a / 4096)) = false →
  (a / 4096 < NUSER → good (P2V (PTE_ADDR w)) ∧ P2V (PTE_ADDR w) ∉ l ∧ (¬ owned_by (kmm s) d (P2V (PTE_ADDR w)))) →
  (∀ s', grows (λ _, False) d s l s' [] →
     (∀ n, 0 ≤ n < 1048576 → pte (kmm s') d n = pte (kmm s) d n) → Q (-1) s') →
  (∀ s' l', grows (λ v, a / 4096 < NUSER ∧ v = P2V (PTE_ADDR w)) d s l s' l' →
     (∀ n, 0 ≤ n < 1048576 → pte (kmm s') d n = if decide (n = a / 4096) then w else pte (kmm s) d n) →
     totl L K Q s') →
  totl L (pte ← walkpgdir d a true;
          if pte =? 0 then mret (-1)
          else e ← load pte;
               if present e then panic "remap" else store pte w;; K) Q s.
Proof.
  intros HL A Ha Hw Hp Hno HX Hfail Hok. destruct (page_index a Ha) as [Hn Hi].
  call walk_alloc_ok; [done|done|done|]. intros r s1 (l1 & G1 & Hp1 & [[-> ->]|(t & Ht & ->)]).
  { rewrite Z.eqb_refl. tot_step. by apply Hfail. }
  pose proof (g_space _ _ _ _ _ _ G1) as A1.
  destruct (Z.eqb_spec (t + 4 * ((a / 4096) mod 1024)) 0) as [E|_]; [by destruct (pte_addr_nz _ _ _ _ _ A1 Ha Ht)|].
  call load_pte; [done|done|done|]. intros e s2 [-> ->]. rewrite Hp1, Hno by done. unfold store, on_mem. tot_step.
  destruct (store_grows s1 l1 d (a / 4096) t w) as [G2 Hp2]; try done.
  - by rewrite Hp1.
  - intros Hu. destruct (HX Hu) as (Hg & Hl & Ho). split; [done|].
    destruct (g_pages _ _ _ _ _ _ G1 (P2V (PTE_ADDR w))) as [Hback _]. tauto.
  - eapply Hok.
    + eapply grows_weaken; [by eapply grows_trans|]. intros v. tauto.
    + intros n Hn'. rewrite Hp2, Hp1 by done. done.
Qed.

(** [mappages] of one page of user memory. *)
Lemma mappages_page L s l d va p perm :
  Lkmem ∉ L → aspace s l d → va mod 4096 = 0 → 0 ≤ va → va / 4096 < NUSER → good p → p ∉ l →
  (¬ owned_by (kmm s) d p) → 0 ≤ perm < 4096 → present (pte (kmm s) d (va / 4096)) = false →
  totl L (mappages d va PGSIZE (V2P p) perm) (λ r s', ∃ l',
    (r = -1 ∧ l' = [] ∧ grows (λ _, False) d s l s' l' ∧
       ∀ n, 0 ≤ n < 1048576 → pte (kmm s') d n = pte (kmm s) d n) ∨
    (r = 0 ∧ grows (λ v, v = p) d s l s' l' ∧
       ∀ n, 0 ≤ n < 1048576 →
         pte (kmm s') d n = if decide (n = va / 4096) then mk_pte (V2P p) perm else pte (kmm s) d n)) s.
Proof.
  intros HL A Hm H0 Hu Hg Hl Ho Hperm Hno. assert (va < 2147483648) as Hlt.
  { unfold NUSER in Hu. Z.to_euclidean_division_equations. lia. }
  unfold mappages, PGSIZE. rewrite (u32_small (va + 4096 - 1)) by lia. rewrite !PGROUNDDOWN_eq by lia.
  replace ((va + 4096 - 1) / 4096 * 4096) with va by (Z.to_euclidean_division_equations; lia).
  replace (va / 4096 * 4096) with va by (Z.to_euclidean_division_equations; lia).
  rewrite Z.sub_diag. change (Z.to_nat (u32 0 / 4096 + 1)) with 1%nat. cbn [mappages_loop].
  pose proof (V2P_aligned kend p Hg) as Hal. destruct (good_range kend p Hg) as (_ & _ & Hr & _).
  fold (mk_pte (V2P p) perm). apply (map_one L s l); try done.
  - lia.
  - apply mk_pte_range; [done|lia|done].
  - apply present_mk_pte.
  - intros _. rewrite mk_pte_addr by (done || lia). by rewrite P2V_V2P with (kend := kend).
  - intros s' G Hp. exists []. by left.
  - intros s' l'. rewrite mk_pte_addr by (done || lia). rewrite P2V_V2P with (kend := kend) by done. intros G Hp.
    rewrite Z.eqb_refl. tot_step. exists l'. right. split; [done|]. split; [|done].
    eapply grows_weaken; [exact G|]. tauto.
Qed.

(** [mappages] of pages above the user's. *)
Lemma mappages_loop_kernel L d last perm k : Lkmem ∉ L → 0 ≤ perm < 4096 →
  ∀ fuel a pa s l, aspace s l d → NUSER ≤ a / 4096 → a mod 4096 = 0 → last = a + 4096 * Z.of_nat k →
  last < 4294967296 → pa mod 4096 = 0 → 0 ≤ pa → pa + 4096 * Z.of_nat k < 4294967296 → (k < fuel)%nat →
  (∀ n, a / 4096 ≤ n ≤ last / 4096 → present (pte (kmm s) d n) = false) →
  totl L (mappages_loop fuel d a last pa perm) (λ r s', ∃ l', grows (λ _, False) d s l s' l' ∧
    (∀ n, 0 ≤ n < NUSER → pte (kmm s') d n = pte (kmm s) d n) ∧
    (r = -1 ∨ r = 0 ∧ ∀ n, 0 ≤ n < 1048576 → pte (kmm s') d n =
       if decide (a / 4096 ≤ n ≤ last / 4096) then mk_pte (pa + 4096 * (n - a / 4096)) perm else pte (kmm s) d n)) s.
Proof.
  intros HL Hperm. induction k as [|k IH]; intros fuel a pa s l A Hu Hm Hlast Hlr Hpm Hp0 Hpr Hf Hno;
    (destruct fuel as [|fuel]; [lia|]); cbn [mappages_loop]; unfold NUSER in Hu.
  all: assert (0 ≤ a ∧ last / 4096 = a / 4096 + (last - a) / 4096) as [Ha0 Hld]
         by (subst last; Z.to_euclidean_division_equations; lia).
  all: fold (mk_pte pa perm); apply (map_one L s l); try done;
    [lia|apply mk_pte_range; [done|lia|done]|apply present_mk_pte
    |apply Hno; Z.to_euclidean_division_equations; lia|unfold NUSER; lia
    |intros s' G Hp; exists []; split; [done|]; split; [|by left]; intros n Hn; apply Hp; unfold NUSER in Hn; lia|].
  all: intros s' l' G Hp; eapply grows_weaken with (Y := λ _, False) in G; [|unfold NUSER; intros; lia].
  all: assert (∀ n, 0 ≤ n < NUSER → pte (kmm s') d n = pte (kmm s) d n) as Hlow
         by (unfold NUSER; intros n Hn; rewrite Hp by lia; by rewrite decide_False by lia).
  - assert (last = a) as -> by lia. rewrite Z.eqb_refl. tot_step. exists l'. split; [done|]. split; [done|]. right.
    split; [done|]. intros n Hn. rewrite Hp by done.
    destruct (decide (n = a / 4096)) as [->|]; [rewrite decide_True by lia; f_equal; lia|].
    by rewrite decide_False by lia.
  - destruct (Z.eqb_spec a last) as [|_]; [lia|]. unfold PGSIZE. rewrite !u32_small by lia.
    assert ((a + 4096) / 4096 = a / 4096 + 1) as Ha1 by (Z.to_euclidean_division_equations; lia).
    eapply tot_mono; [apply (IH fuel (a + 4096) (pa + 4096) s' l'); try lia|].
    + apply G.
    + unfold NUSER. lia.
    + Z.to_euclidean_division_equations. lia.
    + Z.to_euclidean_division_equations. lia.
    + intros n Hn. rewrite Hp by (Z.to_euclidean_division_equations; lia). rewrite decide_False by lia. apply Hno. lia.
    + intros r s2 (l2 & G2 & Hlow2 & Hr). exists l2. split.
      { eapply grows_weaken; [by eapply grows_trans|]. tauto. }
      split; [intros n Hn; by rewrite Hlow2, Hlow|]. destruct Hr as [->|[-> Hr]]; [by left|]. right. split; [done|].
      intros n Hn. rewrite Hr by done. rewrite Ha1. repeat case_decide; try lia.
      * f_equal. lia.
      * rewrite Hp by done. rewrite decide_True by lia. f_equal. lia.
      * rewrite Hp by done. pose proof (Z.div_le_mono a last 4096). by rewrite decide_False by lia.
Qed.

Lemma mappages_kernel L s l d va size pa perm :
  Lkmem ∉ L → 0 ≤ perm < 4096 → aspace s l d → va mod 4096 = 0 → NUSER ≤ va / 4096 →
  0 < size → size mod 4096 = 0 → va + size ≤ 4294967296 → pa mod 4096 = 0 → 0 ≤ pa → pa + size ≤ 4294967296 →
  (∀ n, va / 4096 ≤ n < (va + size) / 4096 → present (pte (kmm s) d n) = false) →
  totl L (mappages d va size pa perm) (λ r s', ∃ l', grows (λ _, False) d s l s' l' ∧
    (∀ n, 0 ≤ n < NUSER → pte (kmm s') d n = pte (kmm s) d n) ∧
    (r = -1 ∨ r = 0 ∧ ∀ n, 0 ≤ n < 1048576 → pte (kmm s') d n =
       if decide (va / 4096 ≤ n < (va + size) / 4096) then mk_pte (pa + 4096 * (n - va / 4096)) perm
       else pte (kmm s) d n)) s.
Proof.
  intros HL Hperm A Hm Hu Hs0 Hsm Hr Hpm Hp0 Hpr Hno. unfold NUSER in Hu. unfold mappages, PGSIZE.
  assert (2147483648 ≤ va) as Hva by (Z.to_euclidean_division_equations; lia).
  rewrite (u32_small (va + size - 1)) by lia. rewrite !PGROUNDDOWN_eq by lia.
  replace (va / 4096 * 4096) with va by (Z.to_euclidean_division_equations; lia).
  replace ((va + size - 1) / 4096 * 4096) with (va + size - 4096) by (Z.to_euclidean_division_equations; lia).
  rewrite u32_small by (Z.to_euclidean_division_equations; lia).
  assert (Z.of_nat (Z.to_nat (size / 4096 - 1)) = size / 4096 - 1) as Hk' by (Z.to_euclidean_division_equations; lia).
  assert ((va + size - 4096) / 4096 = (va + size) / 4096 - 1) as Hd by (Z.to_euclidean_division_equations; lia).
  eapply tot_mono; [eapply (mappages_loop_kernel L d _ perm (Z.to_nat (size / 4096 - 1))); try done|].
  - rewrite Hk'. Z.to_euclidean_division_equations. lia.
  - lia.
  - rewrite Hk'. Z.to_euclidean_division_equations. lia.
  - rewrite <- Nat2Z.id. Z.to_euclidean_division_equations. lia.
  - intros n Hn. apply Hno. lia.
  - intros r s' (l' & G & Hlow & Hc). exists l'. split; [done|]. split; [done|].
    destruct Hc as [->|[-> Hc]]; [by left|right]. split; [done|]. intros n Hn. rewrite Hc, Hd by done.
    repeat case_decide; done || lia.
Qed.

(** ** Unmapping *)

Lemma unmap_one L s l d n t p : Lkmem ∉ L → aspace s l d → 0 ≤ n < NUSER →
  tab (kmm s) d (n / 1024) = Some t → upage (kmm s) d n = Some p →
  totl L (kfree kend p;; store (t + 4 * (n mod 1024)) 0) (λ _ s', shrinks d s l s' (p :: l) ∧
    ∀ k, 0 ≤ k < 1048576 → pte (kmm s') d k = if decide (k = n) then 0 else pte (kmm s) d k) s.
Proof.
  intros HL A Hn Ht Hup. destruct (as_user _ _ _ _ A n p Hn Hup) as (Hg & Hl & Hnp).
  assert (0 ≤ n < 1048576) as Hn' by (unfold NUSER in Hn; lia).
  call (kfree_ok kend Hkend); [done|apply A|done|done|]. intros ? s1 [-> Hk1]. apply tot_modify.
  set (s1 := kfree_state p s) in *.
  assert (∀ v, good v → v ≠ p → pg (kmm s1) v = pg (kmm s) v) as Hpg1 by (intros; by apply (pg_kfree kend)).
  assert (∀ v, ptpage (kmm s) d v → pg (kmm s1) v = pg (kmm s) v) as Hpt1.
  { intros v Hv. apply Hpg1; [|by intros ->]. eapply owned_good; [done|by left]. }
  assert (∀ i, tab (kmm s1) d i = tab (kmm s) d i) as Ht1 by (intros i; apply tab_same, Hpt1; by left).
  assert (tree kend (kmm s1) d) as Tr.
  { destruct (as_tree _ _ _ _ A). split; [done| |]; by setoid_rewrite Ht1. }
  destruct (set_pte kend (kmm s1) d n t 0 Tr Hn') as (Htab & Hpte & Hpg); [by rewrite Ht1|].
  set (s' := Kmem _ _ _). change (wr_word _ _ _) with (kmm s') in Htab, Hpte, Hpg.
  assert (ptpage (kmm s) d t) as Hpt.
  { right. exists (n / 1024). split; [Z.to_euclidean_division_equations; lia|done]. }
  assert (t ≠ p) as Htp by (by intros ->).
  assert (∀ i, tab (kmm s') d i = tab (kmm s) d i) as Htab' by (intros i; by rewrite Htab).
  assert (∀ v, ptpage (kmm s') d v ↔ ptpage (kmm s) d v) as Hpp by (intros v; unfold ptpage; by setoid_rewrite Htab').
  assert (∀ k, 0 ≤ k < 1048576 → pte (kmm s') d k = if decide (k = n) then 0 else pte (kmm s) d k) as Hpte'.
  { intros k Hk0. rewrite Hpte by done. case_decide; [done|]. by apply pte_same. }
  assert (∀ k, 0 ≤ k < NUSER → upage (kmm s') d k = if decide (k = n) then None else upage (kmm s) d k) as Hu.
  { intros k Hk0. unfold upage. rewrite Hpte' by (unfold NUSER in Hk0; lia). by case_decide. }
  split; [|done]. destruct (as_dir _ _ _ _ A) as [Hgd Hdl]. split.
  - split.
    + eapply (kinv_same kend Hkend s1); [done|done|]. intros v Hv. apply Hpg; [by eapply kinv_good|].
      intros ->. apply elem_of_cons in Hv as [?|Hv]; [done|].
      destruct (owned_good _ _ _ _ _ A (or_introl Hpt)). done.
    + split; [done|]. intros [->|?]%elem_of_cons; [|done]. apply Hnp. by left.
    + intros i t' Hi. rewrite Htab'. intros Hti. destruct (as_tab _ _ _ _ A i t' Hi Hti) as (? & ? & ?).
      split; [done|]. split; [|done]. intros [->|?]%elem_of_cons; [|done]. apply Hnp. right. by exists i.
    + intros i j t'. rewrite !Htab'. apply A.
    + intros k q Hk0. rewrite Hu by done. case_decide; [done|]. intros Hq.
      destruct (as_user _ _ _ _ A k q Hk0 Hq) as (? & ? & Hq'). split; [done|]. split; [|by intros ?%Hpp].
      intros [->|?]%elem_of_cons; [|done]. assert (k = n) by (by eapply (as_user_inj _ _ _ _ A)). done.
    + intros k k' q Hk0 Hk0'. rewrite !Hu by done. repeat case_decide; try done. by apply A.
  - intros v Hv. apply elem_of_cons. by right.
  - intros v Hgv Hvl Hvp. rewrite Hpg, Hpg1; [done|done| |done|].
    + intros ->. apply Hvl, elem_of_cons. by left.
    + by intros ->.
  - done.
  - intros v. unfold owned_by. rewrite Hpp, elem_of_cons. split.
    + intros [[->|?]|[?|(k & Hk0 & E)]]; [right; right; by exists n|by left|by right; left|].
      rewrite Hu in E by done. case_decide; [done|]. right. right. by exists k.
    + intros [?|[?|(k & Hk0 & E)]]; [by left; right|by right; left|]. destruct (decide (k = n)) as [->|].
      * left. left. congruence.
      * right. right. exists k. rewrite Hu by done. by rewrite decide_False.
Qed.

End Map.
