(* ===== verification/VmUser.v ===== *)
(** * User memory

    The contracts of [deallocuvm], [freevm], [setupkvm], [allocuvm] and [copyuvm]
    on address spaces. *)

From S2P Require Import Prelude Mem Kalloc Vm VmInv VmMap.

Section User.
Context (kend : Z) (Hklt : KERNBASE < kend).
Let Hkend : KERNBASE ≤ kend := Z.lt_le_incl _ _ Hklt.
Local Abbreviation good := (good kend).
Local Abbreviation kinv := (kinv kend).
Local Abbreviation aspace := (aspace kend).
Local Abbreviation grows := (grows kend).
Local Abbreviation shrinks := (shrinks kend).
Implicit Types (m : gmap Z page) (s : kmem) (l : list Z).

(** ** [deallocuvm] *)

Lemma PGADDR_dir d : 0 ≤ d < 1024 → PGADDR d 0 0 = d * 4194304.
Proof.
  intros Hd. unfold PGADDR. rewrite Z.shiftl_0_l, !Z.lor_0_r, Z.shiftl_mul_pow2 by lia.
  change (2 ^ 22) with 4194304. apply u32_small. lia.
Qed.

(** The entry of a mapped page is the page's address and flags. *)
Lemma upage_addr s l d n p : aspace s l d → 0 ≤ n < NUSER → upage (kmm s) d n = Some p →
  present (pte (kmm s) d n) = true ∧ P2V (PTE_ADDR (pte (kmm s) d n)) = p ∧ PTE_ADDR (pte (kmm s) d n) ≠ 0.
Proof.
  intros A Hn. unfold upage. destruct (present _) eqn:Ep; [|done]. intros E; simplify_eq.
  split; [done|]. split; [done|]. intros H0. destruct (as_user _ _ _ _ A n (P2V 0) Hn) as ((_ & Hg & _) & _).
  { unfold upage. by rewrite Ep, H0. }
  unfold P2V, KERNBASE in *. rewrite u32_small in Hg by lia. lia.
Qed.

Lemma pte_no_table m d n : tab m d (n / 1024) = None → pte m d n = 0.
Proof. intros H. unfold pte. by rewrite H. Qed.

Lemma deallocuvm_loop_ok L d oldsz : Lkmem ∉ L → oldsz ≤ KERNBASE →
  ∀ fuel a s l, aspace s l d → a mod 4096 = 0 → 0 ≤ a → oldsz ≤ a + 4096 * Z.of_nat fuel →
  totl L (deallocuvm_loop kend fuel d a oldsz) (λ _ s', ∃ l', shrinks d s l s' l' ∧
    ∀ n, 0 ≤ n < 1048576 → if decide (a ≤ 4096 * n < oldsz) then present (pte (kmm s') d n) = false
                           else pte (kmm s') d n = pte (kmm s) d n) s.
Proof.
  intros HL Hold. unfold KERNBASE in Hold. induction fuel as [|fuel IH]; intros a s l A Hm Ha Hf; cbn [deallocuvm_loop].
  all: destruct (Z.ltb_spec a oldsz) as [Hlt|Hlt].
  all: try (tot_step; exists l; split; [by apply shrinks_refl|]; intros n Hn; by rewrite decide_False by lia).
  { lia. }
  assert (0 ≤ a < 4294967296) as Har by lia. destruct (page_index a Har) as [Hn Hi].
  assert (a / 4096 < NUSER) as Hu by (unfold NUSER; Z.to_euclidean_division_equations; lia).
  assert (a = 4096 * (a / 4096)) as Hdiv by (Z.to_euclidean_division_equations; lia).
  call walk_ok; [done|done|]. intros r s1 [-> ->]. unfold pte_addr.
  destruct (tab (kmm s) d (a / 4096 / 1024)) as [t|] eqn:Et.
  - destruct (Z.eqb_spec (t + 4 * ((a / 4096) mod 1024)) 0) as [E|_];
      [by destruct (pte_addr_nz kend s l d a t)|].
    unfold PGSIZE. rewrite (u32_small (a + 4096)) by lia.
    call load_pte; [done|done|done|]. intros e s1 [-> ->].
    apply tot_bind. eapply (tot_mono _ _ (λ _ s1, ∃ l1, shrinks d s l s1 l1 ∧
      present (pte (kmm s1) d (a / 4096)) = false ∧
      ∀ k, 0 ≤ k < 1048576 → k ≠ a / 4096 → pte (kmm s1) d k = pte (kmm s) d k)).
    + destruct (upage (kmm s) d (a / 4096)) as [p|] eqn:Eu.
      * destruct (upage_addr _ _ _ _ _ A (conj (proj1 Hn) Hu) Eu) as (-> & -> & Hnz).
        destruct (Z.eqb_spec (PTE_ADDR (pte (kmm s) d (a / 4096))) 0); [done|].
        eapply tot_mono; [apply (unmap_one kend Hklt L s l d (a / 4096) t p); [done|done|lia|done|done]|].
        intros ? s1 [G Hp]. exists (p :: l). split; [done|]. split.
        -- rewrite Hp by done. by rewrite decide_True.
        -- intros k Hk Hne. rewrite Hp by done. by rewrite decide_False.
      * unfold upage in Eu. destruct (present _) eqn:Ep; [done|]. tot_step. exists l. split; [by apply shrinks_refl|]. done.
    + intros ? s1 (l1 & G1 & Hz & Hp1). eapply tot_mono; [apply (IH (a + 4096) s1 l1)|].
      * apply G1.
      * Z.to_euclidean_division_equations. lia.
      * lia.
      * lia.
      * intros ? s2 (l2 & G2 & Hp2). exists l2. split; [by eapply shrinks_trans|]. intros n Hn'. specialize (Hp2 n Hn').
        destruct (decide (n = a / 4096)) as [->|Hne].
        -- rewrite decide_True by lia. rewrite decide_False in Hp2 by lia. by rewrite Hp2.
        -- rewrite Hp1 in Hp2 by done. repeat case_decide; done || lia.
  - rewrite Z.eqb_refl. rewrite PDX_eq by done.
    assert (a / 4096 / 1024 < 512) as Hi' by (Z.to_euclidean_division_equations; lia).
    rewrite PGADDR_dir by lia. unfold PGSIZE. rewrite (u32_small (_ - 4096)), u32_small by lia.
    replace ((a / 4096 / 1024 + 1) * 4194304 - 4096 + 4096) with (4096 * ((a / 4096 / 1024 + 1) * 1024)) by lia.
    set (b := 4096 * ((a / 4096 / 1024 + 1) * 1024)).
    assert (a < b) as Hab by (unfold b; Z.to_euclidean_division_equations; lia).
    eapply tot_mono; [apply (IH b s l)|].
    + done.
    + unfold b. rewrite Z.mul_comm. apply Z_mod_mult.
    + lia.
    + unfold b in *. Z.to_euclidean_division_equations. lia.
    + intros ? s2 (l2 & G2 & Hp2). exists l2. split; [done|]. intros n Hn'. specialize (Hp2 n Hn').
      destruct (decide (a ≤ 4096 * n < oldsz)) as [Hin|]; [|rewrite decide_False in Hp2 by lia; done].
      case_decide; [done|]. rewrite Hp2. rewrite pte_no_table; [done|].
      assert (n / 1024 = a / 4096 / 1024) as -> by (unfold b in *; Z.to_euclidean_division_equations; lia). done.
Qed.

Lemma PGROUNDUP_page sz : 0 ≤ sz ≤ KERNBASE → ∃ k, PGROUNDUP sz = 4096 * k ∧ 0 ≤ k ∧ sz ≤ 4096 * k < sz + 4096.
Proof.
  unfold KERNBASE. intros H. rewrite PGROUNDUP_eq by lia. exists ((sz + 4095) / 4096).
  Z.to_euclidean_division_equations. lia.
Qed.

(** [deallocuvm]: the pages from [newsz] (rounded up) to [oldsz] are freed. *)
Lemma deallocuvm_ok L s l d oldsz newsz : Lkmem ∉ L → aspace s l d → 0 ≤ newsz ≤ KERNBASE → oldsz ≤ KERNBASE →
  totl L (deallocuvm kend d oldsz newsz) (λ r s', r = i32 (Z.min oldsz newsz) ∧ ∃ l', shrinks d s l s' l' ∧
    ∀ n, 0 ≤ n < 1048576 → if decide (newsz ≤ 4096 * n < oldsz) then present (pte (kmm s') d n) = false
                           else pte (kmm s') d n = pte (kmm s) d n) s.
Proof.
  intros HL A Hn Ho. unfold deallocuvm. destruct (Z.leb_spec oldsz newsz).
  { tot_step. split; [by rewrite Z.min_l by lia|]. exists l. split; [by apply shrinks_refl|].
    intros n Hn'. by rewrite decide_False by lia. }
  destruct (PGROUNDUP_page newsz Hn) as (k & -> & Hk0 & Hk).
  call (deallocuvm_loop_ok L d oldsz HL Ho); [exact A| |lia| |].
  - rewrite Z.mul_comm. apply Z_mod_mult.
  - unfold PGSIZE. rewrite Z2Nat.id by (Z.to_euclidean_division_equations; lia). Z.to_euclidean_division_equations. lia.
  - intros ? s' (l' & G & Hp). tot_step. split; [by rewrite Z.min_r by lia|]. exists l'. split; [done|].
    intros n Hn'. specialize (Hp n Hn'). repeat case_decide; done || lia.
Qed.

(** ** [freevm] *)

(** The loop frees the page tables; the directory is still read. *)
Lemma freevm_loop_ok L d m0 : Lkmem ∉ L → tree kend m0 d →
  ∀ idx s l, NoDup idx → Forall (λ i, (i < 1024)%nat) idx → kinv s l → d ∉ l → pg (kmm s) d = pg m0 d →
  (∀ i t, i ∈ idx → tab m0 d (Z.of_nat i) = Some t → t ∉ l) →
  totl L (freevm_loop kend d idx) (λ _ s', ∃ l', kinv s' l' ∧ d ∉ l' ∧
    (∀ v, v ∈ l' ↔ v ∈ l ∨ ∃ i, i ∈ idx ∧ tab m0 d (Z.of_nat i) = Some v) ∧
    (∀ v, good v → v ∉ l' → pg (kmm s') v = pg (kmm s) v)) s.
Proof.
  intros HL T. induction idx as [|i idx IH]; intros s l Hnd Hr Hk Hd Hpg Hno; cbn [freevm_loop].
  { tot_step. exists l. split; [done|]. split; [done|]. split; [|done]. intros v. split; [by left|].
    intros [?|(i & Hi & _)]; [done|]. by apply not_elem_of_nil in Hi. }
  apply NoDup_cons in Hnd as [Hni Hnd]. apply Forall_cons in Hr as [Hi Hr].
  pose proof (tr_dir _ _ _ T) as Hgd. apply tot_bind, tot_gets. rewrite (rd_pword kend) by (done || lia). rewrite Hpg.
  destruct (tab m0 d (Z.of_nat i)) as [t|] eqn:Et; pose proof Et as Et'; unfold tab in Et'; destruct (present _) eqn:Ep; simplify_eq.
  - set (t := P2V (PTE_ADDR (pword (pg m0 d) (Z.of_nat i)))) in *. clearbody t.
    destruct (tr_tab _ _ _ T (Z.of_nat i) t) as [Hgt Htd]; [lia|done|].
    call (kfree_ok kend Hkend); [done|exact Hk|done|apply (Hno i); [apply elem_of_cons; by left|done]|].
    intros ? s1 [-> Hk1]. eapply tot_mono; [apply (IH _ (t :: l)); try done|].
    + intros [->|?]%elem_of_cons; done.
    + rewrite (pg_kfree kend) by done. done.
    + intros j t' Hj Ht' [->|Hin]%elem_of_cons.
      * assert (Z.of_nat i = Z.of_nat j) as Hij.
        { rewrite Forall_forall in Hr. specialize (Hr j Hj). eapply (tr_inj _ _ _ T); [lia|lia|done|done]. }
        apply Nat2Z.inj in Hij. by subst.
      * by apply (Hno j t'); [apply elem_of_cons; right|done|].
    + intros ? s' (l' & Hk' & Hd' & Hl' & Hs'). exists l'. split; [done|]. split; [done|]. split.
      * intros v. rewrite Hl', elem_of_cons. setoid_rewrite elem_of_cons. split.
        -- intros [[->|?]|(j & ? & ?)]; [right; exists i; auto|by left|right; exists j; auto].
        -- intros [?|(j & [->|?] & ?)]; [auto|left; left; congruence|right; by exists j].
      * intros v Hv Hvl. rewrite Hs' by done. apply (pg_kfree kend); [done|done|].
        intros ->. apply Hvl, Hl'. left. apply elem_of_cons. by left.
  - tot_step. eapply tot_mono; [apply (IH s l); try done|].
    + intros j t' Hj. apply Hno. apply elem_of_cons. by right.
    + intros ? s' (l' & Hk' & Hd' & Hl' & Hs'). exists l'. split; [done|]. split; [done|]. split; [|done].
      intros v. rewrite Hl'. setoid_rewrite elem_of_cons. split.
      * intros [?|(j & ? & ?)]; [by left|right; exists j; auto].
      * intros [?|(j & [->|?] & ?)]; [by left|congruence|right; by exists j].
Qed.

(** [freevm] gives back every page of the address space, and changes no other. *)
Lemma freevm_ok L s l d : Lkmem ∉ L → aspace s l d →
  totl L (freevm kend d) (λ _ s', ∃ l', kinv s' l' ∧ (∀ v, v ∈ l' ↔ v ∈ l ∨ owned_by (kmm s) d v) ∧
    (∀ v, good v → v ∉ l' → pg (kmm s') v = pg (kmm s) v)) s.
Proof.
  intros HL A. unfold freevm. destruct (as_dir _ _ _ _ A) as [Hgd Hdl].
  destruct (good_range kend d Hgd) as (_ & _ & _ & Hpos). destruct (Z.eqb_spec d 0); [lia|].
  call deallocuvm_ok; [done|done|unfold KERNBASE; lia|lia|]. intros ? s1 (_ & l1 & G & Hp).
  pose proof (h_space _ _ _ _ _ _ G) as A1. destruct (as_dir _ _ _ _ A1) as [_ Hdl1].
  call (freevm_loop_ok L d (kmm s1) HL (as_tree _ _ _ _ A1)); [apply NoDup_seq| |apply A1|done|done| |].
  { apply Forall_seq. unfold NPDENTRIES. lia. }
  { intros i t Hi Ht. apply elem_of_seq in Hi. unfold NPDENTRIES in Hi. eapply (as_tab _ _ _ _ A1); [|done]. lia. }
  intros ? s2 (l2 & Hk2 & Hd2 & Hl2 & Hs2).
  eapply tot_mono; [apply (kfree_ok kend Hkend L s2 l2 d); done|].
  intros ? s3 [-> Hk3]. exists (d :: l2). split; [done|].
  assert (∀ v, v ∈ l2 ↔ v ∈ l1 ∨ ∃ i, 0 ≤ i < 1024 ∧ tab (kmm s1) d i = Some v) as Hl2'.
  { intros v. rewrite Hl2. apply or_iff_compat_l. split.
    - intros (i & Hi%elem_of_seq & E). exists (Z.of_nat i). unfold NPDENTRIES in Hi. split; [lia|done].
    - intros (i & Hi & E). exists (Z.to_nat i). rewrite elem_of_seq, Z2Nat.id by lia. unfold NPDENTRIES. split; [lia|done]. }
  assert (∀ v, v ∈ d :: l2 ↔ v ∈ l1 ∨ owned_by (kmm s1) d v) as Hfin.
  { intros v. rewrite elem_of_cons, Hl2'. unfold owned_by, ptpage. split; [tauto|].
    intros [?|[[?|?]|(k & Hk & E)]]; auto. exfalso. unfold NUSER in Hk. specialize (Hp k ltac:(lia)).
    rewrite decide_True in Hp by (unfold KERNBASE; lia). unfold upage in E. by rewrite Hp in E. }
  split.
  - intros v. rewrite Hfin. apply (h_pages _ _ _ _ _ _ G).
  - intros v Hv Hvl. rewrite (pg_kfree kend); [|done|done|by intros ->; apply Hvl, elem_of_cons; left].
    assert (v ∉ l2) by (intros ?; apply Hvl, elem_of_cons; by right). rewrite Hs2 by done. apply (h_same _ _ _ _ _ _ G).
    + done.
    + intros ?. apply Hvl, Hfin. by left.
    + intros Hpt. apply Hvl, Hfin. right. left. unfold ptpage in *. setoid_rewrite (h_tab _ _ _ _ _ _ G). done.
Qed.

(** ** [setupkvm] *)

(** A zeroed directory is an empty address space. *)
Lemma new_space s l d s1 : kinv s (d :: l) → kinv s1 l → kmm s1 = kmm s →
  let s' := Kmem (use_lock s1) (freelist s1) (memset_page (V2P d) 0 (kmm s1)) in
  aspace s' l d ∧ (∀ n, pte (kmm s') d n = 0) ∧ (∀ v, owned_by (kmm s') d v ↔ v = d) ∧
  (∀ v, good v → v ≠ d → pg (kmm s') v = pg (kmm s) v).
Proof.
  intros Hk Hk1 Hm s'. assert (good d) as Hg by (eapply kinv_good; [exact Hk|apply elem_of_cons; by left]).
  assert (d ∉ l) as Hdl by (pose proof (kinv_nodup _ _ _ Hk) as Hn; by apply NoDup_cons in Hn as [? _]).
  assert (∀ v, good v → pg (kmm s') v = if decide (v = d) then zero_page else pg (kmm s) v) as Hpg.
  { intros v Hv. cbn [kmm s']. rewrite (pg_memset kend), Hm by done. done. }
  assert (∀ i, tab (kmm s') d i = None) as Ht by (intros i; unfold tab; by rewrite Hpg, decide_True).
  assert (∀ n, pte (kmm s') d n = 0) as Hp by (intros n; apply pte_no_table, Ht).
  assert (∀ n, upage (kmm s') d n = None) as Hu by (intros n; unfold upage; by rewrite Hp).
  split; [split|split; [done|split]].
  - eapply (kinv_same kend Hkend s1); [done|done|]. intros v Hv. rewrite Hpg by (by eapply kinv_good).
    rewrite decide_False; [by rewrite Hm|]. by intros ->.
  - done.
  - intros i t _. by rewrite Ht.
  - intros i j t _ _. by rewrite Ht.
  - intros n p _. by rewrite Hu.
  - intros n n' p _ _. by rewrite Hu.
  - intros v. split; [|intros ->; left; by left]. intros [[?|(i & _ & E)]|(n & _ & E)]; [done| |].
    + by rewrite Ht in E.
    + by rewrite Hu in E.
  - intros v Hv Hne. rewrite Hpg by done. by rewrite decide_False.
Qed.

(** The page tables of the kernel's part under construction: from the empty
    space [s1], with the entries [f]. *)
Definition building (d : Z) (s1 : kmem) (l1 : list Z) (f : Z → Z) (s : kmem) (l : list Z) : Prop :=
  grows (λ _, False) d s1 l1 s l ∧ (∀ n, 0 ≤ n < NUSER → pte (kmm s) d n = 0) ∧
  (∀ n, NUSER ≤ n < 1048576 → pte (kmm s) d n = f n).

Lemma kmap_step L d s1 l1 f s l virt ps size perm pe rest Q :
  Lkmem ∉ L → building d s1 l1 f s l → u32 (pe - ps) = size → 0 ≤ perm < 4096 →
  virt mod 4096 = 0 → NUSER ≤ virt / 4096 → 0 < size → size mod 4096 = 0 → virt + size ≤ 4294967296 →
  ps mod 4096 = 0 → 0 ≤ ps → ps + size ≤ 4294967296 →
  (∀ n, virt / 4096 ≤ n < (virt + size) / 4096 → f n = 0) →
  (∀ s' l', grows (λ _, False) d s1 l1 s' l' → totl L (freevm kend d;; mret 0) Q s') →
  (∀ s' l', building d s1 l1 (λ n, if decide (virt / 4096 ≤ n < (virt + size) / 4096)
      then mk_pte (ps + 4096 * (n - virt / 4096)) perm else f n) s' l' →
    totl L (setupkvm_loop kend d rest) Q s') →
  totl L (setupkvm_loop kend d ((virt, ps, pe, perm) :: rest)) Q s.
Proof.
  intros HL (G & Hlow & Hf) Hsz Hperm Hvm Hvu Hs0 Hsm Hvs Hpm Hp0 Hps Hfree Hfail Hok. cbn [setupkvm_loop].
  rewrite Hsz. pose proof (g_space _ _ _ _ _ _ _ G) as A. call mappages_kernel; try done.
  { intros n Hn. rewrite Hf by (unfold NUSER in *; Z.to_euclidean_division_equations; lia). by rewrite Hfree. }
  intros r s' (l' & G' & Hlow' & Hc).
  assert (grows (λ _, False) d s1 l1 s' l') as G2 by (eapply grows_weaken; [by eapply grows_trans|tauto]).
  destruct Hc as [->|[-> Hc]]; cbn [Z.ltb]; simpl; [by eapply Hfail|].
  eapply Hok. split; [done|]. split; [intros n Hn; rewrite Hlow', Hlow by done; done|].
  intros n Hn. unfold NUSER in Hn. rewrite Hc by lia. case_decide; [done|]. rewrite Hf by (unfold NUSER; lia). done.
Qed.

(** The kernel's entries: the direct map of physical memory, with the kernel's
    text read-only, and the devices. *)
Definition kernel_pte (data n : Z) : Z :=
  if decide (0x80000 ≤ n < 0x8E000)
  then mk_pte (4096 * (n - 0x80000)) (if decide (0x80100 ≤ n < data / 4096) then 0 else PTE_W)
  else if decide (0xFE000 ≤ n < 0x100000) then mk_pte (4096 * n) PTE_W
  else 0.

(** What [setupkvm] leaves: nothing, or a directory with the kernel's entries
    and no user page. *)
Definition kernel_space (data : Z) (s : kmem) (l : list Z) (r : Z) (s' : kmem) (l' : list Z) : Prop :=
  (∀ v, good v → v ∉ l → pg (kmm s') v = pg (kmm s) v) ∧
  if decide (r = 0) then kinv s' l' ∧ ∀ v, v ∈ l' ↔ v ∈ l
  else aspace s' l' r ∧ (∀ n, 0 ≤ n < NUSER → pte (kmm s') r n = 0) ∧
       (∀ n, NUSER ≤ n < 1048576 → pte (kmm s') r n = kernel_pte data n) ∧
       (∀ v, v ∈ l' ∨ owned_by (kmm s') r v ↔ v ∈ l).

Lemma setupkvm_ok data L s l : Lkmem ∉ L → data mod 4096 = 0 → KERNLINK < data < KERNBASE + PHYSTOP →
  kinv s l → totl L (setupkvm kend data) (λ r s', ∃ l', kernel_space data s l r s' l') s.
Proof.
  intros HL Hdm Hdr Hk. unfold KERNLINK, KERNBASE, EXTMEM, PHYSTOP in Hdr. unfold setupkvm.
  call (kalloc_ok kend); [done|done|]. intros d s1 [Hm1 Hc]. destruct l as [|v l].
  { destruct Hc as [-> Hk1]. rewrite Z.eqb_refl. tot_step. exists []. split; [by rewrite Hm1|].
    rewrite decide_True by done. done. }
  destruct Hc as (-> & Hv0 & Hg & Hvl & Hk1). destruct (Z.eqb_spec v 0); [done|]. unfold on_mem. tot_step.
  change (DEVSPACE <? P2V PHYSTOP) with false. cbv iota.
  destruct (new_space s l v s1 Hk Hk1 Hm1) as (A0 & Hp0 & Ho0 & Hs0). set (s0 := Kmem _ _ _) in *.
  assert (V2P data = data - 2147483648) as HV by (unfold V2P, KERNBASE; rewrite u32_small; lia).
  assert (∀ s' l', grows (λ _, False) v s0 l s' l' →
    (∀ u, good u → u ∉ v :: l → pg (kmm s') u = pg (kmm s) u) ∧
    (∀ u, u ∈ l' ∨ owned_by (kmm s') v u ↔ u ∈ v :: l)) as Hgen.
  { intros s' l' G. split.
    - intros u Hu [Hne Hul]%not_elem_of_cons. rewrite (g_same _ _ _ _ _ _ _ G), Hs0; try done.
      intros Hpt. apply Hne, Ho0. by left.
    - intros u. rewrite (g_pages _ _ _ _ _ _ _ G), Ho0, elem_of_cons. tauto. }
  assert (∀ s' l', grows (λ _, False) v s0 l s' l' →
    totl L (freevm kend v;; mret 0) (λ r s'', ∃ l'', kernel_space data s (v :: l) r s'' l'') s') as Hfail.
  { intros s' l' G. destruct (Hgen s' l' G) as [Hsame Hpages]. call freevm_ok; [done|apply G|].
    intros ? s2 (l2 & Hk2 & Hl2 & Hs2). tot_step. exists l2. unfold kernel_space. rewrite decide_True by done.
    assert (∀ u, u ∈ l2 ↔ u ∈ v :: l) as Hl2' by (intros u; by rewrite Hl2, Hpages).
    split; [|done]. intros u Hu Hul. rewrite Hs2, Hsame by (done || by rewrite Hl2'). done. }
  assert (building v s0 l (λ _, 0) s0 l) as B0.
  { split; [by apply grows_refl|]. by split. }
  assert ((data + (234881024 - V2P data)) / 4096 = 0x8E000) as E3.
  { replace (data + (234881024 - V2P data)) with 2382364672 by lia. done. }
  assert ((2148532224 + (V2P data - 1048576)) / 4096 = data / 4096) as E2.
  { replace (2148532224 + (V2P data - 1048576)) with data by lia. done. }
  assert (524544 < data / 4096 < 581632) as Hd by (Z.to_euclidean_division_equations; lia).
  unfold kmap. apply (kmap_step L v s0 l _ _ _ _ _ 1048576 _ _ _ _ HL B0); try done.
  clear B0. intros sa la B1. change (KERNLINK) with 2148532224. change (V2P 2148532224) with 1048576.
  apply (kmap_step L v s0 l _ _ _ _ _ (V2P data - 1048576) _ _ _ _ HL B1); try done; clear B1.
  { rewrite u32_small; [done|]. lia. }
  { lia. } { rewrite HV. Z.to_euclidean_division_equations. lia. } { lia. } { lia. }
  { intros n' Hn'. rewrite E2 in Hn'. change (2148532224 / 4096) with 524544 in Hn'.
    rewrite decide_False; [done|]. change ((KERNBASE + 1048576) / 4096) with 524544. lia. }
  intros sb lb B2. rewrite E2 in B2.
  apply (kmap_step L v s0 l _ _ _ _ _ (234881024 - V2P data) _ _ _ _ HL B2); try done; clear B2.
  { unfold PHYSTOP. rewrite u32_small; [done|]. lia. }
  { unfold NUSER. lia. } { lia. } { rewrite HV. Z.to_euclidean_division_equations. lia. } { lia. }
  { rewrite HV. Z.to_euclidean_division_equations. lia. } { lia. } { lia. }
  { intros n' Hn'. rewrite E3 in Hn'. rewrite !decide_False; [done| |].
    - change ((KERNBASE + 1048576) / 4096) with 524544. lia.
    - lia. }
  intros sc lc B3. rewrite E3 in B3.
  apply (kmap_step L v s0 l _ _ _ _ _ 33554432 _ _ _ _ HL B3); try done; clear B3.
  { intros n' Hn'. change ((DEVSPACE + 33554432) / 4096) with 1048576 in Hn'. change (DEVSPACE / 4096) with 1040384 in Hn'.
    change ((KERNBASE + 1048576) / 4096) with 524544. rewrite !decide_False by lia. done. }
  intros se le (G & Hlow & Hf). cbn [setupkvm_loop]. tot_step. exists le. destruct (Hgen se le G) as [Hsame Hpages].
  split; [done|]. rewrite decide_False by done. split; [apply G|]. split; [done|]. split; [|done].
  intros n' Hn'. rewrite Hf by done. unfold kernel_pte. change (DEVSPACE / 4096) with 1040384.
  change ((DEVSPACE + 33554432) / 4096) with 1048576. change (KERNBASE / 4096) with 524288.
  change ((KERNBASE + 1048576) / 4096) with 524544. change (2148532224 / 4096) with 524544.
  assert (data = 4096 * (data / 4096)) as Hd4 by (Z.to_euclidean_division_equations; lia).
  unfold NUSER, DEVSPACE in *. repeat case_decide; try lia; f_equal; lia.
Qed.

(** ** Taking a page *)

(** A page leaves the free list and is written, before it is mapped. *)
Lemma take_page s l d p s0 m1 : aspace s (p :: l) d → kinv s0 l → kmm s0 = kmm s →
  (∀ v, good v → v ≠ p → pg m1 v = pg (kmm s) v) →
  let s1 := Kmem (use_lock s0) (freelist s0) m1 in
  aspace s1 l d ∧ (∀ n, 0 ≤ n < 1048576 → pte (kmm s1) d n = pte (kmm s) d n) ∧
  (∀ v, ptpage (kmm s1) d v ↔ ptpage (kmm s) d v) ∧ (∀ v, owned_by (kmm s1) d v ↔ owned_by (kmm s) d v) ∧
  good p ∧ p ∉ l ∧ (¬ owned_by (kmm s) d p).
Proof.
  intros A Hk0 Hm0 Hm1 s1. assert (good p) as Hg by (eapply kinv_good; [apply A|apply elem_of_cons; by left]).
  assert (p ∉ l) as Hpl by (pose proof (kinv_nodup _ _ _ (as_kinv _ _ _ _ A)) as Hn; by apply NoDup_cons in Hn as [? _]).
  assert (¬ owned_by (kmm s) d p) as Hno.
  { intros Ho. destruct (owned_good _ _ _ _ _ A Ho) as [_ Hx]. apply Hx, elem_of_cons. by left. }
  destruct (aspace_other kend (λ v, v = p) s (p :: l) s1 l d) as (A1 & Hp & _); [done| | | |].
  - eapply (kinv_same kend Hkend s0); [done|done|]. intros v Hv. cbn [kmm s1]. rewrite Hm0. apply Hm1; [by eapply kinv_good|].
    by intros ->.
  - split; [intros v Hv Hne; by apply Hm1|]. intros v Hv. left. apply elem_of_cons. by right.
  - by intros v Hv ->.
  - assert (∀ i, tab (kmm s1) d i = tab (kmm s) d i) as Ht.
    { intros i. apply tab_same, Hm1; [apply A|]. intros ->. apply Hno. left. by left. }
    assert (∀ v, ptpage (kmm s1) d v ↔ ptpage (kmm s) d v) as Hpp by (intros v; unfold ptpage; by setoid_rewrite Ht).
    split; [done|]. split; [done|]. split; [done|]. split; [|done]. intros v. by apply owned_same.
Qed.

(** Mapping the page taken. *)
Lemma grows_taken X s l d p s1 s2 l2 :
  aspace s (p :: l) d → (∀ v, good v → v ≠ p → pg (kmm s1) v = pg (kmm s) v) →
  (∀ v, ptpage (kmm s1) d v ↔ ptpage (kmm s) d v) → (∀ v, owned_by (kmm s1) d v ↔ owned_by (kmm s) d v) →
  (∀ i, tab (kmm s1) d i = tab (kmm s) d i) →
  grows (λ v, v = p ∨ X v) d s1 l s2 l2 → grows X d s (p :: l) s2 l2.
Proof.
  intros A Hs Hpp Ho Ht G. split.
  - apply G.
  - intros v Hv. apply elem_of_cons. right. by apply (g_sub _ _ _ _ _ _ _ G).
  - intros v Hv [Hne Hvl]%not_elem_of_cons Hnp. rewrite (g_same _ _ _ _ _ _ _ G), Hs; try done. by rewrite Hpp.
  - intros i t Hi E. apply (g_tab _ _ _ _ _ _ _ G); [done|]. by rewrite Ht.
  - intros v Hv. destruct (g_pt _ _ _ _ _ _ _ G v Hv) as [?%Hpp|?]; [by left|]. right. apply elem_of_cons. by right.
  - intros v. rewrite (g_pages _ _ _ _ _ _ _ G), Ho, elem_of_cons. generalize (owned_by (kmm s) d v). tauto.
Qed.

Lemma grows_kmm X d s l s' l' s2 : grows X d s l s' l' → kmm s2 = kmm s' → kinv s2 l' → grows X d s l s2 l'.
Proof.
  intros G Hm Hk. destruct (aspace_other kend (λ _, False) s' l' s2 l' d) as (A & _ & _).
  - apply G.
  - done.
  - split; [by rewrite Hm|by left].
  - by auto.
  - destruct G. split; rewrite ?Hm; done.
Qed.

(** ** [allocuvm] *)

(** An operation that fails: pages may have become page tables, but memory is
    otherwise as before. *)
Record kept (d : Z) (s : kmem) (l : list Z) (s' : kmem) (l' : list Z) : Prop := {
  k_space : aspace s' l' d;
  k_same v : good v → v ∉ l → v ∉ l' → (¬ ptpage (kmm s) d v) → pg (kmm s') v = pg (kmm s) v;
  k_pages v : v ∈ l' ∨ owned_by (kmm s') d v ↔ v ∈ l ∨ owned_by (kmm s) d v }.

Lemma grows_shrinks d s l s1 l1 s2 l2 :
  grows (λ _, False) d s l s1 l1 → shrinks d s1 l1 s2 l2 → kept d s l s2 l2.
Proof.
  intros G H. split.
  - apply H.
  - intros v Hv Hl Hl2 Hnp. rewrite (h_same _ _ _ _ _ _ H), (g_same _ _ _ _ _ _ _ G); try done.
    intros Hp. by destruct (g_pt _ _ _ _ _ _ _ G v Hp).
  - intros v. rewrite (h_pages _ _ _ _ _ _ H), (g_pages _ _ _ _ _ _ _ G). generalize (owned_by (kmm s) d v). tauto.
Qed.

(** The page in hand goes back. *)
Lemma kept_kfree L d s l p s1 s2 l2 :
  Lkmem ∉ L → aspace s (p :: l) d → good p → p ∉ l → (¬ owned_by (kmm s) d p) →
  (∀ v, good v → v ≠ p → pg (kmm s1) v = pg (kmm s) v) →
  (∀ v, ptpage (kmm s1) d v ↔ ptpage (kmm s) d v) → (∀ v, owned_by (kmm s1) d v ↔ owned_by (kmm s) d v) →
  kept d s1 l s2 l2 →
  totl L (kfree kend p) (λ _ s3, kept d s (p :: l) s3 (p :: l2) ∧
    ∀ n, 0 ≤ n < 1048576 → pte (kmm s3) d n = pte (kmm s2) d n) s2.
Proof.
  intros HL A Hg Hpl Hno Hs Hpp Ho K.
  assert (¬ (p ∈ l2 ∨ owned_by (kmm s2) d p)) as Hp2 by (rewrite (k_pages _ _ _ _ _ K), Ho; tauto).
  eapply tot_mono; [apply (kfree_ok kend Hkend L s2 l2 p); [done|apply K|done|tauto]|].
  intros ? s3 [-> Hk3].
  destruct (aspace_other kend (λ v, v = p) s2 l2 (kfree_state p s2) (p :: l2) d) as (A3 & Hp3 & _).
  - apply K.
  - done.
  - split; [intros v Hv Hne; by apply (pg_kfree kend)|]. intros v [->|?]%elem_of_cons; auto.
  - intros v Hv ->. tauto.
  - split; [|done]. split.
    + done.
    + intros v Hv [Hne Hl]%not_elem_of_cons [_ Hl2]%not_elem_of_cons Hnp. rewrite (pg_kfree kend) by done.
      rewrite (k_same _ _ _ _ _ K), Hs; try done. by rewrite Hpp.
    + intros v. assert (owned_by (kmm (kfree_state p s2)) d v ↔ owned_by (kmm s2) d v) as ->.
      { assert (pg (kmm (kfree_state p s2)) d = pg (kmm s2) d) as Hd.
        { apply (pg_kfree kend); [done|apply K|]. intros ->. apply Hp2. right. left. by left. }
        apply owned_same; [|done]. intros i. by apply tab_same. }
      pose proof (k_pages _ _ _ _ _ K v) as Hv. rewrite Ho in Hv. rewrite !elem_of_cons.
      revert Hv. generalize (owned_by (kmm s) d v) (owned_by (kmm s2) d v). tauto.
Qed.

(** Entries below [a] from [oldsz] on map zeroed pages that were free; the other
    entries are the old ones. *)
Definition filled (d : Z) (s : kmem) (l : list Z) (oldsz a : Z) (s' : kmem) : Prop :=
  ∀ n, 0 ≤ n < 1048576 →
    if decide (oldsz ≤ 4096 * n < a)
    then ∃ p, p ∈ l ∧ pte (kmm s') d n = mk_pte (V2P p) (Z.lor PTE_W PTE_U) ∧ pg (kmm s') p = zero_page
    else pte (kmm s') d n = pte (kmm s) d n.

Definition unfilled (d : Z) (s : kmem) (oldsz newsz : Z) (s' : kmem) : Prop :=
  ∀ n, 0 ≤ n < 1048576 →
    if decide (oldsz ≤ 4096 * n < newsz) then present (pte (kmm s') d n) = false
    else pte (kmm s') d n = pte (kmm s) d n.

Lemma mapped_page m d n p perm : 0 ≤ perm < 4096 → good p → pte m d n = mk_pte (V2P p) perm → upage m d n = Some p.
Proof.
  intros Hp Hg E. destruct (good_range kend p Hg) as (_ & _ & Hr & _). unfold upage. rewrite E, present_mk_pte.
  rewrite mk_pte_addr by (done || lia || by apply (V2P_aligned kend)). by rewrite (P2V_V2P kend).
Qed.

(** Mapping a page leaves the pages mapped before, and the page itself, alone. *)
Lemma page_kept s l d p s1 s2 l2 :
  aspace s (p :: l) d → (∀ v, ptpage (kmm s1) d v ↔ ptpage (kmm s) d v) →
  (∀ v, good v → v ≠ p → pg (kmm s1) v = pg (kmm s) v) → (¬ owned_by (kmm s) d p) → p ∉ l →
  grows (λ v, v = p) d s1 l s2 l2 →
  pg (kmm s2) p = pg (kmm s1) p ∧
  ∀ n q, 0 ≤ n < NUSER → upage (kmm s) d n = Some q → pg (kmm s2) q = pg (kmm s) q.
Proof.
  intros A Hpp Hs1 Hno Hp G. split.
  - apply (g_same _ _ _ _ _ _ _ G); [|done|].
    + eapply kinv_good; [apply A|]. apply elem_of_cons. by left.
    + rewrite Hpp. intros ?. apply Hno. by left.
  - intros n q Hn Hq. destruct (as_user _ _ _ _ A n q Hn Hq) as (Hgq & [Hqp Hql]%not_elem_of_cons & Hnp).
    rewrite (g_same _ _ _ _ _ _ _ G), Hs1; try done. by rewrite Hpp.
Qed.

(** A round that maps page [p] at [a] extends what is filled. *)
Lemma filled_next d s0 l0 oldsz newsz a s l s1 p s2 l2 :
  kinv s0 l0 → a mod 4096 = 0 → 0 ≤ oldsz ≤ a → a < newsz < KERNBASE → p ∈ l0 →
  aspace s (p :: l) d → aspace s1 l d → (∀ v, ptpage (kmm s1) d v ↔ ptpage (kmm s) d v) →
  (∀ v, good v → v ≠ p → pg (kmm s1) v = pg (kmm s) v) → pg (kmm s1) p = zero_page →
  (∀ n, 0 ≤ n < 1048576 → pte (kmm s1) d n = pte (kmm s) d n) → (¬ owned_by (kmm s) d p) → p ∉ l →
  filled d s0 l0 oldsz a s → grows (λ v, v = p) d s1 l s2 l2 →
  (∀ n, 0 ≤ n < 1048576 → pte (kmm s2) d n =
     if decide (n = a / 4096) then mk_pte (V2P p) (Z.lor PTE_W PTE_U) else pte (kmm s1) d n) →
  filled d s0 l0 oldsz (a + 4096) s2.
Proof.
  intros Hk0 Hm Ha Hnew Hpl A A1 Hpp Hs1 Hz Hp1 Hno Hp F G Hp2 n Hn. specialize (F n Hn). unfold KERNBASE in Hnew.
  destruct (page_kept s l d p s1 s2 l2) as [Hnew' Hold]; try done.
  rewrite Hp2 by done. destruct (decide (n = a / 4096)) as [->|Hne].
  - rewrite decide_True by (Z.to_euclidean_division_equations; lia). exists p. by rewrite Hnew'.
  - rewrite Hp1 by done. destruct (decide (oldsz ≤ 4096 * n < a)) as [Hin|Hin].
    + rewrite decide_True by lia. destruct F as (q & Hq & E & Hz'). exists q. split; [done|]. split; [done|].
      rewrite (Hold n q); [done|unfold NUSER; lia|].
      apply (mapped_page _ _ _ _ (Z.lor PTE_W PTE_U)); [done|by eapply kinv_good|done].
    + rewrite decide_False; [done|]. Z.to_euclidean_division_equations. lia.
Qed.

Lemma allocuvm_loop_ok L d oldsz newsz s0 l0 :
  Lkmem ∉ L → 0 ≤ oldsz → newsz < KERNBASE → oldsz ≤ newsz → aspace s0 l0 d →
  (∀ n, 0 ≤ n < 1048576 → oldsz ≤ 4096 * n < newsz → present (pte (kmm s0) d n) = false) →
  ∀ fuel a s l, a mod 4096 = 0 → oldsz ≤ a → newsz ≤ a + 4096 * Z.of_nat fuel →
  (∀ n, oldsz ≤ 4096 * n < a → 4096 * n < newsz) →
  grows (λ _, False) d s0 l0 s l → filled d s0 l0 oldsz a s →
  totl L (allocuvm_loop kend fuel d a oldsz newsz) (λ r s', ∃ l',
    (r = newsz ∧ grows (λ _, False) d s0 l0 s' l' ∧ filled d s0 l0 oldsz newsz s') ∨
    (r = 0 ∧ kept d s0 l0 s' l' ∧ unfilled d s0 oldsz newsz s')) s.
Proof.
  intros HL Ho Hn Hon A0 Hfree. induction fuel as [|fuel IH]; intros a s l Hm Ha Hf Hrange G F; cbn [allocuvm_loop].
  all: destruct (Z.ltb_spec a newsz) as [Hlt|Hlt]; [|tot_step; exists l; left; rewrite i32_small by (unfold KERNBASE in *; lia);
    split; [done|]; split; [done|]; intros n Hn'; specialize (F n Hn');
    pose proof (Hrange n); repeat case_decide; done || lia].
  { lia. }
  assert (∀ s1 l1 s2 l2, grows (λ _, False) d s0 l0 s1 l1 →
    (∀ n, 0 ≤ n < 1048576 → pte (kmm s1) d n = pte (kmm s) d n) →
    (∀ n, 0 ≤ n < 1048576 → if decide (oldsz ≤ 4096 * n < newsz) then present (pte (kmm s2) d n) = false
                            else pte (kmm s2) d n = pte (kmm s1) d n) → unfilled d s0 oldsz newsz s2) as Hund.
  { intros s1 l1 s2 l2 _ Hp1 Hp2 n Hn'. specialize (Hp2 n Hn'). specialize (F n Hn'). pose proof (Hrange n) as Hr.
    case_decide; [done|]. rewrite Hp2, Hp1 by done. by rewrite decide_False in F by lia. }
  pose proof (g_space _ _ _ _ _ _ _ G) as A. unfold KERNBASE in Hn.
  call (kalloc_ok kend); [done|apply A|]. intros p s1 [Hm1 Hc]. destruct l as [|v l].
  - destruct Hc as [-> Hk1]. rewrite Z.eqb_refl. tot_step.
    assert (grows (λ _, False) d s0 l0 s1 []) as G1 by (by eapply grows_kmm).
    call deallocuvm_ok; [done|apply G1|unfold KERNBASE; lia|unfold KERNBASE; lia|]. intros ? s2 (_ & l2 & H2 & Hp2). tot_step.
    exists l2. right. split; [done|]. split; [by eapply grows_shrinks|].
    eapply (Hund s1 [] s2 l2); [done|by rewrite Hm1|done].
  - destruct Hc as (-> & Hv0 & Hg & Hvl & Hk1). destruct (Z.eqb_spec v 0); [done|]. unfold on_mem. tot_step.
    set (s2 := Kmem _ _ _).
    assert (∀ u, good u → u ≠ v → pg (kmm s2) u = pg (kmm s) u) as Hs2.
    { intros u Hu Hne. cbn [kmm s2]. rewrite (pg_memset kend), Hm1 by done. by rewrite decide_False. }
    destruct (take_page s l d v s1 (kmm s2) A Hk1 Hm1 Hs2) as (A2 & Hp2 & Hpp & Hown & _ & _ & Hno). fold s2 in A2, Hp2, Hpp, Hown.
    assert (∀ i, tab (kmm s2) d i = tab (kmm s) d i) as Ht2.
    { intros i. apply tab_same, Hs2; [apply A|]. intros ->. apply Hno. left. by left. }
    assert (pg (kmm s2) v = zero_page) as Hz. { cbn [kmm s2]. rewrite (pg_memset kend) by done. by rewrite decide_True. }
    call (mappages_page kend Hklt); [done|exact A2|done|lia|unfold NUSER; Z.to_euclidean_division_equations; lia|done|done|by rewrite Hown|done| |].
    { rewrite Hp2 by (Z.to_euclidean_division_equations; lia). specialize (F (a / 4096)).
      rewrite decide_False in F by (Z.to_euclidean_division_equations; lia).
      rewrite F by (Z.to_euclidean_division_equations; lia). apply Hfree; Z.to_euclidean_division_equations; lia. }
    intros r s3 (l3 & [(-> & -> & G3 & Hp3)|(-> & G3 & Hp3)]); simpl.
    + tot_step. call deallocuvm_ok; [done|apply G3|unfold KERNBASE; lia|unfold KERNBASE; lia|].
      intros ? s4 (_ & l4 & H4 & Hp4). pose proof (grows_shrinks _ _ _ _ _ _ _ G3 H4) as K4.
      call kept_kfree; [done|exact A|done|done|done|done|done|done|exact K4|]. intros ? s5 [K5 Hp5]. tot_step.
      exists (v :: l4). right. split; [done|]. split.
      * destruct K5 as [Ka Kb Kc]. split; [done| |].
        -- intros u Hu Hl0 Hl4 Hnp. rewrite Kb, (g_same _ _ _ _ _ _ _ G); try done.
           ++ intros Hin. by apply Hl0, (g_sub _ _ _ _ _ _ _ G).
           ++ intros Hp. by destruct (g_pt _ _ _ _ _ _ _ G u Hp).
        -- intros u. rewrite Kc, (g_pages _ _ _ _ _ _ _ G). generalize (owned_by (kmm s0) d u). tauto.
      * intros k Hk. specialize (Hp4 k Hk). specialize (F k Hk). pose proof (Hrange k). rewrite Hp5 by done.
        case_decide; [done|]. rewrite Hp4, Hp3, Hp2 by done. by rewrite decide_False in F by lia.
    + unfold PGSIZE. rewrite (u32_small (a + 4096)) by lia. apply (IH (a + 4096) s3 l3).
      * Z.to_euclidean_division_equations. lia.
      * lia.
      * lia.
      * intros k Hk. Z.to_euclidean_division_equations. lia.
      * eapply grows_weaken; [eapply grows_trans; [exact G|]|]; [|instantiate (1 := λ _, False); tauto].
        eapply (grows_taken (λ _, False)); [exact A|exact Hs2|done|done|done|]. eapply grows_weaken; [exact G3|]. tauto.
      * eapply (filled_next d s0 l0 oldsz newsz a s l s2 v); try done.
        -- apply A0.
        -- apply (g_sub _ _ _ _ _ _ _ G). apply elem_of_cons. by left.
Qed.

(** ** [allocuvm] and [copyuvm] *)

Lemma allocuvm_ok L d s l oldsz newsz :
  Lkmem ∉ L → 0 ≤ oldsz ≤ newsz → newsz < KERNBASE → aspace s l d →
  (∀ n, 0 ≤ n < 1048576 → oldsz ≤ 4096 * n < newsz → present (pte (kmm s) d n) = false) →
  totl L (allocuvm kend d oldsz newsz) (λ r s', ∃ l',
    (r = newsz ∧ grows (λ _, False) d s l s' l' ∧ filled d s l oldsz newsz s') ∨
    (r = 0 ∧ kept d s l s' l' ∧ unfilled d s oldsz newsz s')) s.
Proof.
  intros HL Ho Hn A Hfree. unfold allocuvm. destruct (Z.leb_spec KERNBASE newsz); [lia|].
  destruct (Z.ltb_spec newsz oldsz); [lia|].
  destruct (PGROUNDUP_page oldsz) as (k & -> & Hk0 & Hk); [lia|].
  eapply (allocuvm_loop_ok L d oldsz newsz s l); try done; try lia.
  - rewrite Z.mul_comm. apply Z_mod_mult.
  - unfold PGSIZE. rewrite Z2Nat.id by (Z.to_euclidean_division_equations; lia). Z.to_euclidean_division_equations. lia.
  - by apply grows_refl.
  - intros n Hn'. by rewrite decide_False by lia.
Qed.

Section Copy.
(** The linker's [data]. *)
Context (data : Z) (Hdata : data mod 4096 = 0) (Hdr : KERNLINK < data < KERNBASE + PHYSTOP).
(** The parent's directory and the state [copyuvm] starts in. *)
Context (d0 : Z) (s : kmem) (l : list Z) (A0 : aspace s l d0).

(** The child [d] has copies of the parent's pages below [i]. *)
Record copying (d i : Z) (s' : kmem) (l' : list Z) : Prop := {
  c_space : aspace s' l' d;
  c_same v : good v → v ∉ l → pg (kmm s') v = pg (kmm s) v;
  c_pages v : v ∈ l' ∨ owned_by (kmm s') d v ↔ v ∈ l;
  c_kernel n : NUSER ≤ n < 1048576 → pte (kmm s') d n = kernel_pte data n;
  c_user n : 0 ≤ n < NUSER →
    if decide (4096 * n < i) then
      ∃ p p', upage (kmm s) d0 n = Some p ∧ p' ∈ l ∧
        pte (kmm s') d n = mk_pte (V2P p') (PTE_FLAGS (pte (kmm s) d0 n)) ∧ pg (kmm s') p' = pg (kmm s) p
    else pte (kmm s') d n = 0 }.

(** The parent is untouched while the free pages and the child change. *)
Lemma parent_kept s' l' : kinv s' l' → (∀ v, good v → v ∉ l → pg (kmm s') v = pg (kmm s) v) →
  (∀ v, v ∈ l' → v ∈ l) →
  aspace s' l' d0 ∧ (∀ n, 0 ≤ n < 1048576 → pte (kmm s') d0 n = pte (kmm s) d0 n) ∧
  (∀ v, owned_by (kmm s) d0 v → pg (kmm s') v = pg (kmm s) v).
Proof.
  intros Hk Hs Hl. apply (aspace_other kend (λ v, v ∈ l) s l s' l' d0); [done|done| |].
  - split; [done|]. intros v Hv. left. by apply Hl.
  - intros v Hv. by destruct (owned_good _ _ _ _ _ A0 Hv).
Qed.

(** How [copyuvm] ends. *)
Definition copied (sz r : Z) (s' : kmem) (l' : list Z) : Prop :=
  if decide (r = 0) then kinv s' l' ∧ (∀ v, v ∈ l' ↔ v ∈ l) ∧ (∀ v, good v → v ∉ l → pg (kmm s') v = pg (kmm s) v)
  else copying r sz s' l'.

Lemma copy_bail L d sz s1 l1 : Lkmem ∉ L → aspace s1 l1 d →
  (∀ v, good v → v ∉ l → pg (kmm s1) v = pg (kmm s) v) → (∀ v, v ∈ l1 ∨ owned_by (kmm s1) d v ↔ v ∈ l) →
  totl L (freevm kend d;; mret 0) (λ r s', ∃ l', copied sz r s' l') s1.
Proof.
  intros HL A1 Hs1 Hpg1. call freevm_ok; [done|exact A1|]. intros ? s2 (l2 & Hk2 & Hl2 & Hs2). tot_step.
  assert (∀ v, v ∈ l2 ↔ v ∈ l) as Hl by (intros v; by rewrite Hl2, Hpg1).
  exists l2. unfold copied. rewrite decide_True by done. split; [done|]. split; [done|].
  intros v Hv Hvl. rewrite Hs2, Hs1 by (done || by rewrite Hl). done.
Qed.

(** The child's page [p] is free before the round and a copy after it. *)
Lemma copying_next d i s1 l1 p s2 s3 l3 q :
  copying d i s1 (p :: l1) → i mod 4096 = 0 → 0 ≤ i < KERNBASE → upage (kmm s) d0 (i / 4096) = Some q →
  (∀ v, ptpage (kmm s2) d v ↔ ptpage (kmm s1) d v) → (∀ v, owned_by (kmm s2) d v ↔ owned_by (kmm s1) d v) →
  (∀ n, 0 ≤ n < 1048576 → pte (kmm s2) d n = pte (kmm s1) d n) → (∀ j, tab (kmm s2) d j = tab (kmm s1) d j) →
  (∀ v, good v → v ≠ p → pg (kmm s2) v = pg (kmm s1) v) → pg (kmm s2) p = pg (kmm s) q →
  (¬ owned_by (kmm s1) d p) → p ∉ l1 → grows (λ v, v = p) d s2 l1 s3 l3 →
  (∀ n, 0 ≤ n < 1048576 → pte (kmm s3) d n =
     if decide (n = i / 4096) then mk_pte (V2P p) (PTE_FLAGS (pte (kmm s) d0 (i / 4096))) else pte (kmm s2) d n) →
  copying d (i + 4096) s3 l3.
Proof.
  intros C Hm Hi Hq Hpp Ho Hp2 Ht2 Hs2 Hcopy Hno Hpl G Hp3. pose proof (c_space _ _ _ _ C) as A1.
  destruct (page_kept s1 l1 d p s2 s3 l3) as [Hnew Hold]; try done.
  assert (p ∈ l) as Hpl0 by (apply (c_pages _ _ _ _ C); left; apply elem_of_cons; by left).
  assert (grows (λ _, False) d s1 (p :: l1) s3 l3) as G1.
  { eapply (grows_taken (λ _, False)); [exact A1|exact Hs2|done|done|done|]. eapply grows_weaken; [exact G|]. tauto. }
  unfold KERNBASE in Hi. split.
  - apply G.
  - intros v Hv Hvl. rewrite (g_same _ _ _ _ _ _ _ G1), (c_same _ _ _ _ C); try done.
    + intros Hin. apply Hvl, (c_pages _ _ _ _ C). by left.
    + intros Hpt. apply Hvl, (c_pages _ _ _ _ C). right. by left.
  - intros v. rewrite (g_pages _ _ _ _ _ _ _ G1), <- (c_pages _ _ _ _ C). generalize (owned_by (kmm s1) d v). tauto.
  - intros n Hn. unfold NUSER in Hn. rewrite Hp3, decide_False, Hp2, (c_kernel _ _ _ _ C); try done; unfold NUSER;
      try (Z.to_euclidean_division_equations; lia).
  - intros n Hn. pose proof (c_user _ _ _ _ C n Hn) as U. unfold NUSER in Hn. rewrite Hp3 by lia.
    destruct (decide (n = i / 4096)) as [->|Hne].
    + rewrite decide_True by (Z.to_euclidean_division_equations; lia). exists q, p. by rewrite Hnew.
    + rewrite Hp2 by lia. destruct (decide (4096 * n < i)) as [Hlt|Hlt].
      * rewrite decide_True by lia. destruct U as (u & u' & Hu & Hul & E & Hc). exists u, u'.
        split; [done|]. split; [done|]. split; [done|]. rewrite (Hold n u'); [done|unfold NUSER; lia|].
        eapply mapped_page; [apply PTE_FLAGS_range|eapply kinv_good; [apply A0|done]|done].
      * rewrite decide_False; [done|]. Z.to_euclidean_division_equations. lia.
Qed.

Lemma copyuvm_loop_ok L sz : Lkmem ∉ L → 0 ≤ sz ≤ KERNBASE →
  (∀ n, 0 ≤ n < NUSER → 4096 * n < sz → upage (kmm s) d0 n ≠ None) → ∀ d fuel i s1 l1,
  copying d i s1 l1 → d ≠ 0 → i mod 4096 = 0 → 0 ≤ i → sz ≤ i + 4096 * Z.of_nat fuel →
  (∀ n, 4096 * n < i → 4096 * n < sz) →
  totl L (copyuvm_loop kend fuel d0 d i sz) (λ r s', ∃ l', copied sz r s' l') s1.
Proof.
  intros HL Hsz Hmap d. induction fuel as [|fuel IH]; intros i s1 l1 C Hd Hm Hi0 Hf Hrange; cbn [copyuvm_loop].
  all: destruct (Z.ltb_spec i sz) as [Hlt|Hlt]; [|tot_step; exists l1; unfold copied; rewrite decide_False by done;
    destruct C as [C1 C2 C3 C4 C5]; split; try done; intros n Hn; specialize (C5 n Hn); pose proof (Hrange n);
    repeat case_decide; done || lia].
  { lia. }
  unfold KERNBASE in Hsz. assert (0 ≤ i / 4096 < NUSER) as Hn by (unfold NUSER; Z.to_euclidean_division_equations; lia).
  assert (0 ≤ i / 4096 < 1048576) as Hn' by (unfold NUSER in Hn; lia).
  destruct (parent_kept s1 l1) as (Ap & Hpp & Hpc).
  { apply C. } { apply (c_same _ _ _ _ C). } { intros v Hv. apply (c_pages _ _ _ _ C). by left. }
  call walk_ok; [exact Ap|lia|]. intros r s2 [-> ->].
  destruct (upage (kmm s) d0 (i / 4096)) as [q|] eqn:Hq; [|destruct (Hmap (i / 4096)); [done|Z.to_euclidean_division_equations; lia|done]].
  assert (upage (kmm s1) d0 (i / 4096) = Some q) as Hq1 by (rewrite <- Hq; by apply upage_pte, Hpp).
  destruct (upage_addr _ _ _ _ _ Ap Hn Hq1) as (Hpr & Hpa & _). unfold pte_addr.
  destruct (tab (kmm s1) d0 (i / 4096 / 1024)) as [t|] eqn:Et.
  2:{ rewrite pte_no_table in Hpr by done. done. }
  destruct (Z.eqb_spec (t + 4 * ((i / 4096) mod 1024)) 0);
    [exfalso; eapply (pte_addr_nz kend s1 l1 d0 i t); [done|lia|done|done]|].
  call load_pte; [exact Ap|done|exact Et|]. intros e s2 [-> ->]. rewrite Hpr. cbn [negb]. rewrite Hpp by done.
  pose proof (c_space _ _ _ _ C) as A1. call (kalloc_ok kend); [done|apply A1|]. intros p s2 [Hm2 Hc].
  destruct l1 as [|v l1].
  { destruct Hc as [-> Hk2]. rewrite Z.eqb_refl. destruct C as [C1 C2 C3 _ _].
    destruct (aspace_other kend (λ _, False) s1 [] s2 [] d) as (A2 & _ & _); [done|done| |by auto|].
    { split; [by rewrite Hm2|by left]. }
    apply (copy_bail L d sz s2 []); rewrite ?Hm2; done. }
  destruct Hc as (-> & Hv0 & Hg & Hvl & Hk2). destruct (Z.eqb_spec v 0); [done|]. unfold on_mem. tot_step.
  assert (PTE_ADDR (pte (kmm s) d0 (i / 4096)) = V2P q) as ->.
  { rewrite Hpp in Hpa by done. by rewrite <- Hpa, V2P_P2V by apply PTE_ADDR_range. }
  set (s3 := Kmem _ _ _).
  assert (∀ u, good u → u ≠ v → pg (kmm s3) u = pg (kmm s1) u) as Hs3.
  { intros u Hu Hne. cbn [kmm s3]. unfold copy_page. rewrite (pg_insert_good kend), Hm2 by done. by rewrite decide_False. }
  assert (pg (kmm s3) v = pg (kmm s) q) as Hcopy.
  { cbn [kmm s3]. rewrite (pg_copy kend), Hm2 by done. rewrite decide_True by done. apply Hpc. right. by exists (i / 4096). }
  destruct (take_page s1 l1 d v s2 (kmm s3) A1 Hk2 Hm2 Hs3) as (A3 & Hp3 & Hpt3 & Hown3 & _ & _ & Hno). fold s3 in A3, Hp3, Hpt3, Hown3.
  assert (∀ j, tab (kmm s3) d j = tab (kmm s1) d j) as Ht3.
  { intros j. apply tab_same, Hs3; [apply A1|]. intros ->. apply Hno. left. by left. }
  call (mappages_page kend Hklt); [done|exact A3|done|lia|lia|done|done|by rewrite Hown3|apply PTE_FLAGS_range| |].
  { pose proof (c_user _ _ _ _ C _ Hn) as U. rewrite decide_False in U by (Z.to_euclidean_division_equations; lia).
    by rewrite Hp3, U by done. }
  intros r s4 (l4 & [(-> & -> & G4 & Hp4)|(-> & G4 & Hp4)]); simpl.
  - pose proof (grows_shrinks _ _ _ _ _ _ _ G4 (shrinks_refl _ _ _ _ (g_space _ _ _ _ _ _ _ G4))) as K4.
    call (kept_kfree L d s1 l1 v s3); [done|exact A1|done|done|done|exact Hs3|done|done|exact K4|].
    intros ? s5 [K5 _]. destruct C as [C1 C2 C3 _ _]. apply (copy_bail L d sz s5 [v]); [done|apply K5| |].
    + intros u Hu Hul. rewrite (k_same _ _ _ _ _ K5), C2; try done.
      * intros Hin. apply Hul, C3. by left.
      * intros ->%list_elem_of_singleton. apply Hul, C3. left. apply elem_of_cons. by left.
      * intros Hpt. apply Hul, C3. right. by left.
    + intros u. rewrite (k_pages _ _ _ _ _ K5). apply C3.
  - unfold PGSIZE. rewrite (u32_small (i + 4096)) by lia. apply (IH (i + 4096) s4 l4); try done.
    + eapply (copying_next d i s1 l1 v s3 s4 l4 q); try done. unfold KERNBASE. lia.
    + Z.to_euclidean_division_equations. lia.
    + lia.
    + lia.
    + intros k Hk. Z.to_euclidean_division_equations. lia.
Qed.

Lemma copyuvm_ok L sz : Lkmem ∉ L → 0 ≤ sz ≤ KERNBASE →
  (∀ n, 0 ≤ n < NUSER → 4096 * n < sz → upage (kmm s) d0 n ≠ None) →
  totl L (copyuvm kend data d0 sz) (λ r s', ∃ l', copied sz r s' l') s.
Proof.
  intros HL Hsz Hmap. unfold copyuvm. call (setupkvm_ok data L s l); [done|done|done|apply A0|].
  intros d s1 (l1 & Hs1 & Hc). destruct (Z.eqb_spec d 0) as [->|Hd].
  - rewrite decide_True in Hc by done. destruct Hc as [Hk1 Hl1]. tot_step. exists l1. unfold copied.
    by rewrite decide_True by done.
  - rewrite decide_False in Hc by done. destruct Hc as (A1 & Hu1 & Hk1 & Hp1).
    apply (copyuvm_loop_ok L sz HL Hsz Hmap d _ 0 s1 l1); try done.
    + split; try done. intros n Hn. rewrite decide_False by lia. by apply Hu1.
    + unfold PGSIZE. rewrite Z2Nat.id by (Z.to_euclidean_division_equations; lia). Z.to_euclidean_division_equations. lia.
    + intros n Hn. lia.
Qed.

End Copy.
End User.
