(* ===== verification/VmOut.v ===== *)
(** * Copying out to user memory

    The bytes a process sees through its page table, and the contracts of
    [uva2ka] and [copyout]. *)

From S2P Require Import Prelude Mem Kalloc Vm VmInv VmMap VmUser.

(** The byte at user address [va]. *)
Definition ubyte (m : gmap Z page) (d va : Z) : Z := rd_byte m (PTE_ADDR (pte m d (va / 4096)) + va mod 4096).
(** The page is mapped for the user. *)
Definition user_ok (e : Z) : bool := (present e && negb (Z.land e PTE_U =? 0))%bool.

Lemma rd_wr_bytes l : ∀ m pa b, rd_byte (wr_bytes pa l m) b =
  if decide (pa ≤ b < pa + Z.of_nat (length l)) then u8 (nth (Z.to_nat (b - pa)) l 0) else rd_byte m b.
Proof.
  induction l as [|x l IH]; intros m pa b; cbn [wr_bytes length].
  { by rewrite decide_False by (simpl; lia). }
  rewrite IH, rd_wr_byte. destruct (decide (pa = b)) as [->|Hne].
  - rewrite decide_False, decide_True by lia. replace (Z.to_nat (b - b)) with 0%nat by lia. done.
  - destruct (decide (pa + 1 ≤ b < pa + 1 + Z.of_nat (length l))).
    + rewrite decide_True by lia. replace (Z.to_nat (b - pa)) with (S (Z.to_nat (b - (pa + 1)))) by lia. done.
    + by rewrite decide_False by lia.
Qed.

Lemma page_wr_byte a x m n : a / 4096 ≠ n → page_of (wr_byte a x m) n = page_of m n.
Proof.
  intros Hn. unfold wr_byte, wr_word. apply page_of_insert_ne. intros E. apply Hn. rewrite <- E.
  Z.to_euclidean_division_equations. lia.
Qed.
Lemma page_wr_bytes l : ∀ m pa n, (∀ k, 0 ≤ k < Z.of_nat (length l) → (pa + k) / 4096 ≠ n) →
  page_of (wr_bytes pa l m) n = page_of m n.
Proof.
  induction l as [|x l IH]; intros m pa n H; cbn [wr_bytes length] in *; [done|]. rewrite IH.
  - apply page_wr_byte. rewrite <- (Z.add_0_r pa) at 1. apply H. lia.
  - intros k Hk. replace (pa + 1 + k) with (pa + (k + 1)) by lia. apply H. lia.
Qed.

Section Out.
Context (kend : Z) (Hklt : KERNBASE < kend).
Let Hkend : KERNBASE ≤ kend := Z.lt_le_incl _ _ Hklt.
Local Abbreviation good := (good kend).
Local Abbreviation aspace := (aspace kend).

(** [uva2ka] on an address whose page table exists. *)
Lemma uva2ka_ok L s l d va : aspace s l d → 0 ≤ va < KERNBASE → tab (kmm s) d (va / 4096 / 1024) ≠ None →
  totl L (uva2ka d va) (λ r s', s' = s ∧
    r = if user_ok (pte (kmm s) d (va / 4096)) then P2V (PTE_ADDR (pte (kmm s) d (va / 4096))) else 0) s.
Proof.
  intros A Hva Ht. unfold KERNBASE in Hva. assert (0 ≤ va < 4294967296) as Hr by lia. destruct (page_index va Hr) as [Hn Hi].
  unfold uva2ka. call walk_ok; [exact A|done|]. intros r s1 [-> ->]. unfold pte_addr.
  destruct (tab (kmm s) d (va / 4096 / 1024)) as [t|] eqn:Et; [|done].
  destruct (Z.eqb_spec (t + 4 * ((va / 4096) mod 1024)) 0); [by destruct (pte_addr_nz kend s l d va t)|].
  call load_pte; [exact A|done|exact Et|]. intros e s1 [-> ->]. unfold user_ok, present.
  destruct (Z.land (pte (kmm s) d (va / 4096)) PTE_P =? 0); cbn [negb andb]; [by tot_step|].
  destruct (Z.land (pte (kmm s) d (va / 4096)) PTE_U =? 0); by tot_step.
Qed.

(** On an address without a page table it reads through a null pointer. *)
Lemma uva2ka_null L tr s l d va : aspace s l d → 0 ≤ va < KERNBASE → tab (kmm s) d (va / 4096 / 1024) = None →
  uva2ka d va (Ctx L tr) s = Panic "null dereference".
Proof.
  intros A Hva Ht. unfold KERNBASE in Hva. destruct (walk_ok kend L s l d va A ltac:(lia) tr) as (r & tr' & s' & E & -> & ->).
  unfold uva2ka. rewrite (bind_Ret _ _ _ _ _ _ _ E). unfold pte_addr. by rewrite Ht.
Qed.

(** Bytes written inside user page [n]. *)
Lemma write_user_page s l d n p off bs :
  aspace s l d → 0 ≤ n < NUSER → upage (kmm s) d n = Some p → 0 ≤ off → off + Z.of_nat (length bs) ≤ 4096 →
  let s' := Kmem (use_lock s) (freelist s) (wr_bytes (V2P (p + off)) bs (kmm s)) in
  aspace s' l d ∧ (∀ k, 0 ≤ k < 1048576 → pte (kmm s') d k = pte (kmm s) d k) ∧
  ∀ va, 0 ≤ va < KERNBASE → upage (kmm s) d (va / 4096) ≠ None →
    ubyte (kmm s') d va =
      if decide (4096 * n + off ≤ va < 4096 * n + off + Z.of_nat (length bs))
      then u8 (nth (Z.to_nat (va - (4096 * n + off))) bs 0) else ubyte (kmm s) d va.
Proof.
  intros A Hn Hp Ho Hl s'. destruct (as_user _ _ _ _ A n p Hn Hp) as (Hg & Hpl & Hnp).
  destruct (good_range kend p Hg) as (Hpm & HV & HVr & _).
  destruct (decide (bs = [])) as [->|Hne].
  { cbn [s' wr_bytes length kmm]. destruct s as [ul fl m]. split; [done|]. split; [done|].
    intros va _ _. by rewrite decide_False by (simpl; lia). }
  assert (0 < Z.of_nat (length bs)) as Hpos by (destruct bs; [done|simpl; lia]).
  assert (V2P (p + off) = V2P p + off) as HVo.
  { rewrite HV. unfold V2P, KERNBASE. rewrite u32_small; lia. }
  assert (∀ v, good v → v ≠ p → pg (kmm s') v = pg (kmm s) v) as Hs.
  { intros v Hv Hvp. cbn [kmm s']. unfold pg. apply page_wr_bytes. intros k Hk E. apply Hvp.
    apply (good_page_inj kend); [done|done|]. rewrite <- E, HVo, HV. Z.to_euclidean_division_equations. lia. }
  destruct (aspace_same kend s l s' l d A) as [A' Hpte].
  { eapply (kinv_same kend Hkend s); [apply A|done|]. intros v Hv. apply Hs; [by eapply kinv_good; [apply A|]|]. by intros ->. }
  { intros v Hv. by destruct (owned_good _ _ _ _ _ A Hv). }
  { intros v Hv. apply Hs; [|by intros ->]. eapply owned_good; [exact A|by left]. }
  split; [done|]. split; [done|]. intros va Hva Hup. unfold KERNBASE in Hva.
  assert (0 ≤ va / 4096 < NUSER) as Hvn by (unfold NUSER; Z.to_euclidean_division_equations; lia).
  destruct (upage (kmm s) d (va / 4096)) as [q|] eqn:Hq; [|done]. clear Hup.
  destruct (upage_addr kend Hklt _ _ _ _ _ A Hvn Hq) as (_ & Hqa & _).
  destruct (as_user _ _ _ _ A _ q Hvn Hq) as (Hgq & _). destruct (good_range kend q Hgq) as (_ & HVq & HVqr & _).
  assert (PTE_ADDR (pte (kmm s) d (va / 4096)) = V2P q) as Ea by (by rewrite <- Hqa, V2P_P2V by apply PTE_ADDR_range).
  unfold ubyte. rewrite Hpte by (unfold NUSER in Hvn; lia). rewrite Ea. cbn [kmm s']. rewrite rd_wr_bytes, HVo.
  pose proof (V2P_aligned kend p Hg). pose proof (V2P_aligned kend q Hgq).
  destruct (decide (va / 4096 = n)) as [<-|Hvn'].
  - assert (q = p) as -> by congruence. repeat case_decide; try (Z.to_euclidean_division_equations; lia).
    do 2 f_equal. Z.to_euclidean_division_equations. lia.
  - assert (V2P q / 4096 ≠ V2P p / 4096) as Hne'.
    { intros E. apply Hvn'. assert (q = p) as -> by (by apply (good_page_inj kend)).
      by apply (as_user_inj _ _ _ _ A _ _ p). }
    rewrite !decide_False; [done| |]; Z.to_euclidean_division_equations; lia.
Qed.

(** [copyout] to mapped user pages. *)
Lemma copyout_loop_ok L d : ∀ fuel bs va s l,
  aspace s l d → 0 ≤ va → va + Z.of_nat (length bs) ≤ KERNBASE →
  (∀ n, va / 4096 ≤ n → 4096 * n < va + Z.of_nat (length bs) → user_ok (pte (kmm s) d n) = true) →
  (bs ≠ [] → va mod 4096 + Z.of_nat (length bs) ≤ 4096 * Z.of_nat fuel) →
  totl L (copyout_loop fuel d va bs) (λ r s', r = 0 ∧ aspace s' l d ∧
    (∀ k, 0 ≤ k < 1048576 → pte (kmm s') d k = pte (kmm s) d k) ∧
    ∀ a, 0 ≤ a < KERNBASE → upage (kmm s) d (a / 4096) ≠ None →
      ubyte (kmm s') d a = if decide (va ≤ a < va + Z.of_nat (length bs)) then u8 (nth (Z.to_nat (a - va)) bs 0)
                           else ubyte (kmm s) d a) s.
Proof.
  unfold KERNBASE. induction fuel as [|fuel IH]; intros bs va s l A Hva Hend Hok Hf;
    (destruct bs as [|b bs]; cbn [copyout_loop];
     [tot_step; split_and!; try done; intros a Ha Hup; by rewrite decide_False by (simpl; lia)|]).
  { specialize (Hf ltac:(done)). pose proof (Z.mod_pos_bound va 4096). simpl in Hf. lia. }
  specialize (Hf ltac:(done)). set (buf := b :: bs) in *. assert (0 < Z.of_nat (length buf)) as Hpos by (simpl; lia).
  set (n := va / 4096) in *. rewrite PGROUNDDOWN_eq by lia. fold n.
  assert (0 ≤ n < NUSER) as Hn by (unfold NUSER, n; Z.to_euclidean_division_equations; lia).
  assert (n * 4096 / 4096 = n) as Hnn by (apply Z.div_mul; lia).
  assert (va - n * 4096 = va mod 4096) as Hoff by (unfold n; Z.to_euclidean_division_equations; lia).
  pose proof (Z.mod_pos_bound va 4096 ltac:(lia)) as Hmod.
  assert (user_ok (pte (kmm s) d n) = true) as Hun by (apply Hok; [done|]; lia).
  assert (∃ p, upage (kmm s) d n = Some p) as [p Hp].
  { unfold upage. unfold user_ok in Hun. apply andb_prop in Hun as [-> _]. by eexists. }
  destruct (upage_addr kend Hklt _ _ _ _ _ A Hn Hp) as (Hpr & Hpa & _).
  destruct (as_user _ _ _ _ A n p Hn Hp) as (Hg & _). destruct (good_range kend p Hg) as (_ & _ & _ & Hp0).
  call uva2ka_ok; [exact A|unfold KERNBASE, n; lia| |].
  { rewrite Hnn. intros Et. by rewrite (pte_no_table _ _ _ Et) in Hpr. }
  intros r s1 [-> ->]. rewrite Hnn, Hun, Hpa. destruct (Z.eqb_spec p 0); [lia|]. unfold on_mem. tot_step. rewrite Hoff.
  set (k := Z.to_nat (Z.min (PGSIZE - va mod 4096) (Z.of_nat (length buf)))).
  assert (Z.of_nat k = Z.min (4096 - va mod 4096) (Z.of_nat (length buf))) as Hk by (unfold k, PGSIZE; lia).
  assert (length (take k buf) = k) as Hlk by (rewrite length_take; lia).
  assert (Z.of_nat (length (drop k buf)) = Z.of_nat (length buf) - Z.of_nat k) as Hld by (rewrite length_drop; lia).
  destruct (write_user_page s l d n p (va mod 4096) (take k buf)) as (A1 & Hp1 & Hb1); [done|done|done|lia|lia|].
  set (s1 := Kmem _ _ _) in *. unfold PGSIZE. rewrite (u32_small (n * 4096 + 4096)) by lia.
  assert ((n * 4096 + 4096) / 4096 = n + 1 ∧ (n * 4096 + 4096) mod 4096 = 0) as [En Em]
    by (Z.to_euclidean_division_equations; lia).
  assert (drop k buf = [] ∨ Z.of_nat k = 4096 - va mod 4096) as Hcase.
  { destruct (decide (Z.of_nat k = 4096 - va mod 4096)); [by right|]. left. apply length_zero_iff_nil. lia. }
  eapply tot_mono; [apply (IH (drop k buf) (n * 4096 + 4096) s1 l); [done|lia| | |]|].
  - destruct Hcase as [->|]; [simpl; lia|]. lia.
  - intros j Hj1 Hj2. rewrite En in Hj1. destruct Hcase as [E|Hc]; [rewrite E in Hj2; simpl in Hj2; lia|].
    rewrite Hp1 by lia. apply Hok; lia.
  - intros Hne. destruct Hcase as [?|Hc]; [done|]. lia.
  - intros r s2 (-> & A2 & Hp2 & Hb2). split; [done|]. split; [done|].
    split; [intros j Hj; by rewrite Hp2, Hp1|]. intros a Ha Hup.
    assert (0 ≤ a / 4096 < 1048576) as Han by (unfold KERNBASE in Ha; Z.to_euclidean_division_equations; lia).
    rewrite Hb2; [|done|by rewrite (upage_pte (kmm s)) by (by apply Hp1)]. rewrite Hb1 by done. rewrite Hlk.
    assert (4096 * n + va mod 4096 = va) as -> by lia. clear Hb1 Hb2 IH.
    destruct Hcase as [E|Hc].
    + rewrite E. rewrite (decide_False (P := _ ≤ _ < _ + Z.of_nat (length []))) by (simpl; lia).
      assert (Z.of_nat k = Z.of_nat (length buf)) as Hkl by (rewrite E in Hld; change (length []) with 0%nat in Hld; lia).
      rewrite Hkl, take_ge by lia. done.
    + rewrite Hld. repeat case_decide; try lia.
      * f_equal. rewrite !nth_lookup, lookup_drop. do 2 f_equal. lia.
      * f_equal. rewrite !nth_lookup, lookup_take_lt by lia. done.
Qed.

Lemma copyout_ok L s l d va bs :
  aspace s l d → 0 ≤ va → va + Z.of_nat (length bs) ≤ KERNBASE →
  (∀ n, va / 4096 ≤ n → 4096 * n < va + Z.of_nat (length bs) → user_ok (pte (kmm s) d n) = true) →
  totl L (copyout d va bs) (λ r s', r = 0 ∧ aspace s' l d ∧
    (∀ k, 0 ≤ k < 1048576 → pte (kmm s') d k = pte (kmm s) d k) ∧
    ∀ a, 0 ≤ a < KERNBASE → upage (kmm s) d (a / 4096) ≠ None →
      ubyte (kmm s') d a = if decide (va ≤ a < va + Z.of_nat (length bs)) then u8 (nth (Z.to_nat (a - va)) bs 0)
                           else ubyte (kmm s) d a) s.
Proof.
  intros A Hva Hend Hok. apply copyout_loop_ok; try done. intros _. pose proof (Z.mod_pos_bound va 4096).
  unfold PGSIZE. rewrite Z2Nat.id by (Z.to_euclidean_division_equations; lia). Z.to_euclidean_division_equations. lia.
Qed.

End Out.
