(* ===== verification/VmSpec.v ===== *)
(** * Theorems on virtual memory

    What [vm.c] promises [fork], [exec], [sbrk] and [wait]; each is applied to a
    small machine with a process of one page. *)

From S2P Require Import Prelude Mem Kalloc Vm VmInv VmMap VmUser VmOut.

(** C10: [copyuvm] gives the child a copy of the parent's memory. When it returns
    a directory, every page of the parent below [sz] has a page of its own in the
    child, taken from the free list, with the same flags and the same contents;
    the child has no other user page and the kernel's entries; when it fails,
    every page it took is free again. Either way the parent's page table and the
    contents of its pages are unchanged. *)
Theorem copyuvm_spec kend data L d s l sz :
  KERNBASE < kend → data mod 4096 = 0 → KERNLINK < data < KERNBASE + PHYSTOP →
  Lkmem ∉ L → aspace kend s l d → 0 ≤ sz ≤ KERNBASE →
  (∀ n, 0 ≤ n < NUSER → 4096 * n < sz → upage (kmm s) d n ≠ None) →
  totl L (copyuvm kend data d sz) (λ r s', ∃ l',
    aspace kend s' l' d ∧
    (∀ n, 0 ≤ n < 1048576 → pte (kmm s') d n = pte (kmm s) d n) ∧
    (∀ v, owned_by (kmm s) d v → pg (kmm s') v = pg (kmm s) v) ∧
    if decide (r = 0) then ∀ v, v ∈ l' ↔ v ∈ l
    else aspace kend s' l' r ∧ (∀ v, v ∈ l' ∨ owned_by (kmm s') r v ↔ v ∈ l) ∧
      (∀ n, NUSER ≤ n < 1048576 → pte (kmm s') r n = kernel_pte data n) ∧
      (∀ n, 0 ≤ n < NUSER →
         if decide (4096 * n < sz) then
           ∃ p p', upage (kmm s) d n = Some p ∧ p' ∈ l ∧
             pte (kmm s') r n = mk_pte (V2P p') (PTE_FLAGS (pte (kmm s) d n)) ∧ pg (kmm s') p' = pg (kmm s) p
         else pte (kmm s') r n = 0)) s.
Proof.
  intros Hk Hdm Hdr HL A Hsz Hmap. eapply tot_mono; [by apply (copyuvm_ok kend Hk data Hdm Hdr d s l A)|].
  intros r s' (l' & C). exists l'. unfold copied in C. destruct (decide (r = 0)) as [->|Hr].
  - destruct C as (Hk' & Hl & Hs). destruct (parent_kept kend d s l A s' l') as (? & ? & ?); try done.
    intros v. apply Hl.
  - destruct C as [C1 C2 C3 C4 C5]. destruct (parent_kept kend d s l A s' l') as (? & ? & ?); try done.
    + apply C1.
    + intros v Hv. apply C3. by left.
Qed.

(** C21: [allocuvm] grows a process with fresh zeroed pages, or not at all. On
    success every page from the old size to the new one is a page that was free,
    zeroed, writable and open to the user; on failure none of them is mapped and
    no page is lost. In both cases the entries outside the new area and the
    contents of every page that is neither free nor a page table are unchanged. *)
Theorem allocuvm_spec kend L d s l oldsz newsz :
  KERNBASE < kend → Lkmem ∉ L → 0 ≤ oldsz ≤ newsz → newsz < KERNBASE → aspace kend s l d →
  (∀ n, 0 ≤ n < 1048576 → oldsz ≤ 4096 * n < newsz → present (pte (kmm s) d n) = false) →
  totl L (allocuvm kend d oldsz newsz) (λ r s', ∃ l', aspace kend s' l' d ∧
    (∀ v, v ∈ l' ∨ owned_by (kmm s') d v ↔ v ∈ l ∨ owned_by (kmm s) d v) ∧
    (∀ v, good kend v → v ∉ l → v ∉ l' → (¬ ptpage (kmm s) d v) → pg (kmm s') v = pg (kmm s) v) ∧
    (r = newsz ∨ r = 0) ∧
    ∀ n, 0 ≤ n < 1048576 →
      if decide (oldsz ≤ 4096 * n < newsz) then
        if decide (r = newsz) then
          ∃ p, p ∈ l ∧ pte (kmm s') d n = mk_pte (V2P p) (Z.lor PTE_W PTE_U) ∧ pg (kmm s') p = zero_page
        else present (pte (kmm s') d n) = false
      else pte (kmm s') d n = pte (kmm s) d n) s.
Proof.
  intros Hk HL Ho Hn A Hfree. eapply tot_mono; [by apply (allocuvm_ok kend Hk L d s l)|].
  intros r s' (l' & [(-> & G & F)|(-> & K & U)]); exists l'.
  - split; [apply G|]. split.
    { intros v. rewrite (g_pages _ _ _ _ _ _ _ G). generalize (owned_by (kmm s) d v). tauto. }
    split; [intros v Hv Hl _; by apply (g_same _ _ _ _ _ _ _ G)|]. split; [by left|].
    intros n Hn'. specialize (F n Hn'). case_decide; [|done]. by rewrite decide_True.
  - split; [apply K|]. split; [apply K|]. split; [apply K|]. split; [by right|].
    intros n Hn'. specialize (U n Hn'). case_decide; [|done]. rewrite decide_False; [done|]. lia.
Qed.

(** C20: [freevm] returns every page of an address space to the allocator, its
    directory, its page tables and its user pages, each exactly once, and touches
    no other page. *)
Theorem freevm_spec kend L d s l :
  KERNBASE < kend → Lkmem ∉ L → aspace kend s l d →
  totl L (freevm kend d) (λ _ s', ∃ l', kinv kend s' l' ∧
    (∀ v, v ∈ l' ↔ v ∈ l ∨ owned_by (kmm s) d v) ∧
    (∀ v, good kend v → v ∉ l' → pg (kmm s') v = pg (kmm s) v)) s.
Proof. intros Hk HL A. by apply freevm_ok. Qed.

(** The kernel's entries are closed to the user. *)
Lemma kernel_pte_closed data n : 0 ≤ n < 1048576 → user_ok (kernel_pte data n) = false.
Proof.
  intros Hn. unfold user_ok, kernel_pte.
  assert (∀ pa perm, pa mod 4096 = 0 → perm = 0 ∨ perm = PTE_W → Z.land (mk_pte pa perm) PTE_U = 0) as H.
  { intros pa perm Hpa Hp. rewrite mk_pte_eq; [|done|destruct Hp as [->| ->]; done].
    assert (Z.lor perm PTE_P = 1 ∨ Z.lor perm PTE_P = 3) as Hv by (destruct Hp as [->| ->]; [left|right]; done).
    rewrite <- lor_aligned by (done || lia). rewrite Z.land_lor_distr_l.
    replace pa with (Z.shiftl (pa / 4096) 12) by (rewrite Z.shiftl_mul_pow2 by lia; Z.to_euclidean_division_equations; lia).
    assert (Z.land (Z.shiftl (pa / 4096) 12) PTE_U = 0) as ->.
    { apply Z.bits_inj'. intros i Hi. rewrite Z.land_spec, Z.bits_0. destruct (decide (i < 12)).
      - by rewrite Z.shiftl_spec_low.
      - unfold PTE_U. change 4 with (2 ^ 2). rewrite Z.pow2_bits_false by lia. apply andb_false_r. }
    destruct Hv as [->| ->]; done. }
  assert (∀ k, (4096 * k) mod 4096 = 0) as Hal by (intros k; rewrite Z.mul_comm; apply Z_mod_mult).
  repeat case_decide; rewrite ?H by auto; by rewrite ?andb_false_r.
Qed.

(** C22: [setupkvm] builds the kernel's part of a page table, or returns 0 with
    every page back on the free list. The kernel's entries map all of physical
    memory below [PHYSTOP] at [KERNBASE], the text read-only, and the devices; no
    entry is open to user code, and there is no user page. *)
Theorem setupkvm_spec kend data L s l :
  KERNBASE < kend → data mod 4096 = 0 → KERNLINK < data < KERNBASE + PHYSTOP →
  Lkmem ∉ L → kinv kend s l →
  totl L (setupkvm kend data) (λ r s', ∃ l',
    (∀ v, good kend v → v ∉ l → pg (kmm s') v = pg (kmm s) v) ∧
    if decide (r = 0) then kinv kend s' l' ∧ ∀ v, v ∈ l' ↔ v ∈ l
    else aspace kend s' l' r ∧ (∀ v, v ∈ l' ∨ owned_by (kmm s') r v ↔ v ∈ l) ∧
      (∀ n, 0 ≤ n < 1048576 → pte (kmm s') r n = kernel_pte data n ∧ user_ok (pte (kmm s') r n) = false)) s.
Proof.
  intros Hk Hdm Hdr HL Hi. eapply tot_mono; [by apply (setupkvm_ok kend Hk data)|].
  intros r s' (l' & Hs & C). exists l'. split; [done|]. case_decide; [done|].
  destruct C as (A & Hu & Hkn & Hp). split; [done|]. split; [done|]. intros n Hn.
  assert (pte (kmm s') r n = kernel_pte data n) as ->; [|by split; [|apply kernel_pte_closed]].
  destruct (decide (n < NUSER)) as [Hlt|]; [|apply Hkn; lia]. rewrite Hu by lia. unfold kernel_pte, NUSER in *.
  by rewrite !decide_False by lia.
Qed.

(** C23: [copyout] stores its bytes where the process sees them: after copying to
    a range whose pages are all open to the user, the process reads the new bytes
    there and every other byte of its memory as before, through the same page
    table. *)
Theorem copyout_spec kend L s l d va bs :
  KERNBASE < kend → aspace kend s l d → 0 ≤ va → va + Z.of_nat (length bs) ≤ KERNBASE →
  (∀ n, va / 4096 ≤ n → 4096 * n < va + Z.of_nat (length bs) → user_ok (pte (kmm s) d n) = true) →
  totl L (copyout d va bs) (λ r s', r = 0 ∧ aspace kend s' l d ∧
    (∀ k, 0 ≤ k < 1048576 → pte (kmm s') d k = pte (kmm s) d k) ∧
    ∀ a, 0 ≤ a < KERNBASE → upage (kmm s) d (a / 4096) ≠ None →
      ubyte (kmm s') d a = if decide (va ≤ a < va + Z.of_nat (length bs)) then u8 (nth (Z.to_nat (a - va)) bs 0)
                           else ubyte (kmm s) d a) s.
Proof. intros Hk A. by apply copyout_ok. Qed.

(** [copyout] to an address below [KERNBASE] whose page table does not exist
    stops the kernel: [uva2ka] reads the entry through the null pointer that
    [walkpgdir] returned. *)
Theorem copyout_unmapped kend L tr s l d va b bs :
  aspace kend s l d → 0 ≤ va < KERNBASE → tab (kmm s) d (va / 4096 / 1024) = None →
  copyout d va (b :: bs) (Ctx L tr) s = Panic "null dereference".
Proof.
  intros A Hva Ht. unfold KERNBASE in Hva. unfold copyout.
  destruct (Z.to_nat (Z.of_nat (length (b :: bs)) / PGSIZE + 2)) as [|fuel] eqn:E.
  { unfold PGSIZE in E. pose proof (Z.div_pos (Z.of_nat (length (b :: bs))) 4096). lia. }
  cbn [copyout_loop]. apply bind_Panic. rewrite PGROUNDDOWN_eq by lia.
  apply (uva2ka_null kend L tr s l); [done|unfold KERNBASE; Z.to_euclidean_division_equations; lia|].
  by rewrite Z.div_mul by lia.
Qed.

(** ** A process of one page *)

Module SampleVm.

Definition data0 : Z := 0x80107000.
(** The pages from [a] on, freed at boot. *)
Fixpoint boot_mem (k : nat) : kmem :=
  match k with
  | O => kmem0
  | S k => kfree_state (kend0 + 4096 * Z.of_nat k) (boot_mem k)
  end.
Fixpoint boot_free (k : nat) : list Z :=
  match k with O => [] | S k => (kend0 + 4096 * Z.of_nat k) :: boot_free k end.

Lemma kend0_lt : KERNBASE < kend0.
Proof. done. Qed.

Lemma boot_free_lt k v : v ∈ boot_free k → v < kend0 + 4096 * Z.of_nat k.
Proof.
  induction k as [|k IH]; cbn [boot_free]; [by intros ?%not_elem_of_nil|]. intros [->|Hv]%elem_of_cons; [lia|].
  apply IH in Hv. lia.
Qed.
Lemma boot_inv k : (k ≤ 1000)%nat → kinv kend0 (boot_mem k) (boot_free k).
Proof.
  induction k as [|k IH]; intros Hk; [apply kmem0_inv|]. cbn [boot_mem boot_free]. apply kfree_inv.
  - apply kend0_ok.
  - apply IH. lia.
  - apply good0; unfold kend0; [Z.to_euclidean_division_equations; lia|lia].
  - intros Hv. apply boot_free_lt in Hv. lia.
Qed.

(** An empty directory over three free pages. *)
Definition dir : Z := kend0 + 4096 * 3.
Definition empty_dir : kmem :=
  let s := boot_mem 4 in
  Kmem (use_lock s) (rd_word (kmm s) (V2P dir)) (memset_page (V2P dir) 0 (kmm s)).
Lemma empty_dir_ok : aspace kend0 empty_dir (boot_free 3) dir ∧ ∀ n, pte (kmm empty_dir) dir n = 0.
Proof.
  destruct (kalloc_inv kend0 (boot_mem 4) dir (boot_free 3)) as (_ & _ & Hk); [apply boot_inv; lia|].
  destruct (new_space kend0 kend0_lt (boot_mem 4) (boot_free 3) dir _ (boot_inv 4 ltac:(lia)) Hk eq_refl) as (A & Hp & _).
  by split.
Qed.

(** A process of one page. *)
Definition one_page : kmem :=
  match allocuvm kend0 dir 0 4096 (Ctx [] []) empty_dir with Ret _ _ s => s | _ => empty_dir end.
Lemma one_page_runs : allocuvm kend0 dir 0 4096 (Ctx [] []) empty_dir = Ret 4096 (Ctx [] []) one_page.
Proof. vm_compute. reflexivity. Qed.

Lemma grown_space s l s1 : aspace kend0 s l dir → (∀ n, pte (kmm s) dir n = 0) →
  allocuvm kend0 dir 0 4096 (Ctx [] []) s = Ret 4096 (Ctx [] []) s1 → ∃ l1, aspace kend0 s1 l1 dir.
Proof.
  intros A Hp E1. destruct (allocuvm_ok kend0 kend0_lt [] dir s l 0 4096) with (tr := @nil event)
    as (r & tr & s' & E & l' & Hc); [by apply not_elem_of_nil|lia|done|done|intros n _ _; by rewrite Hp|].
  rewrite E1 in E. simplify_eq. destruct Hc as [(_ & G & _)|(? & _)]; [|done]. exists l'. apply G.
Qed.

Lemma one_page_ok : ∃ l, aspace kend0 one_page l dir ∧ upage (kmm one_page) dir 0 ≠ None ∧
  user_ok (pte (kmm one_page) dir 0) = true.
Proof.
  destruct empty_dir_ok as [A Hp]. destruct (grown_space _ _ one_page A Hp one_page_runs) as [l A1].
  exists l. split; [done|]. split; vm_compute; done.
Qed.

Lemma copyuvm_spec_witness :
  ∃ l : list Z, tot (copyuvm kend0 data0 dir 4096) (λ r s', ∃ l', aspace kend0 s' l' dir ∧
    (r = 0 → ∀ v, v ∈ l' ↔ v ∈ l)) one_page.
Proof.
  destruct one_page_ok as (l & A & Hu & _). exists l. eapply tot_mono.
  - apply (copyuvm_spec kend0 data0 [] dir one_page l 4096);
      [done|done|done|by apply not_elem_of_nil|exact A|done|].
    intros n Hn Hlt. assert (n = 0) as -> by lia. exact Hu.
  - intros r s' (l' & A' & _ & _ & Hr). exists l'. split; [done|]. intros ->. by rewrite decide_True in Hr.
Defined.

Lemma allocuvm_spec_witness :
  tot (allocuvm kend0 dir 0 4096) (λ r s', r = 4096 ∨ r = 0) empty_dir.
Proof.
  destruct empty_dir_ok as [A Hp]. eapply tot_mono.
  - apply (allocuvm_spec kend0 [] dir empty_dir (boot_free 3) 0 4096);
      [done|by apply not_elem_of_nil|lia|done|exact A|intros n _ _; by rewrite Hp].
  - intros r s' (l' & _ & _ & _ & Hr & _). done.
Defined.

Lemma freevm_spec_witness :
  ∃ l : list Z, tot (freevm kend0 dir) (λ _ s', ∃ l', kinv kend0 s' l' ∧
    (∀ v, v ∈ l' ↔ v ∈ l ∨ owned_by (kmm one_page) dir v)) one_page.
Proof.
  destruct one_page_ok as (l & A & _ & _). exists l. eapply tot_mono.
  - apply (freevm_spec kend0 [] dir one_page l); [done|by apply not_elem_of_nil|exact A].
  - intros r s' (l' & Hk & Hl & _). by exists l'.
Defined.

Lemma setupkvm_spec_witness :
  tot (setupkvm kend0 data0) (λ r s', ∃ l', r = 0 → kinv kend0 s' l' ∧ ∀ v, v ∈ l' ↔ v ∈ boot_free 70) (boot_mem 70).
Proof.
  eapply tot_mono.
  - apply (setupkvm_spec kend0 data0 [] (boot_mem 70) (boot_free 70));
      [done|done|done|by apply not_elem_of_nil|apply boot_inv; lia].
  - intros r s' (l' & _ & Hr). exists l'. intros ->. by rewrite decide_True in Hr.
Defined.

Lemma copyout_spec_witness :
  tot (copyout dir 100 [7; 8]) (λ r s', r = 0 ∧ ubyte (kmm s') dir 101 = 8) one_page.
Proof.
  destruct one_page_ok as (l & A & Hu & Hk). eapply tot_mono.
  - apply (copyout_spec kend0 [] one_page l dir 100 [7; 8]); [done|exact A|done|done|].
    intros n H0 H1. change (100 / 4096) with 0 in H0. simpl in H1. assert (n = 0) as -> by lia. exact Hk.
  - intros r s' (-> & _ & _ & Hb). split; [done|]. rewrite Hb; [|unfold KERNBASE; lia|exact Hu].
    rewrite decide_True by (simpl; lia). reflexivity.
Defined.

Lemma copyout_unmapped_witness : copyout dir 100 [7; 8] (Ctx [] []) empty_dir = Panic "null dereference".
Proof.
  apply (copyout_unmapped kend0 [] [] empty_dir (boot_free 3)); [apply empty_dir_ok|done|vm_compute; reflexivity].
Defined.
End SampleVm.
