(* ===== verification/Proc.v ===== *)
(** * Processes

    [proc.h] and [proc.c]: the process table, process creation and exit,
    sleeping and waking, and the lab's queries on the table.  The routines of
    other files that these call (the page allocator, user memory, files, inodes
    and the log) are an interface, [Lower], over whatever state [W] they keep,
    which [Exec.v] implements with the models of those files; the scheduler is in
    [Sched.v]. *)

From S2P Require Import Prelude Locks.

Definition NPROC : nat := 64.
Definition NCPU : nat := 8.
Definition NOFILE : nat := 16.
Definition KSTACKSIZE : Z := 4096.
Definition MAX_SYSCALLS : nat := 26.
Definition DEFAULT_BURST_TIME : Z := 2.
Definition DEFAULT_CONFIDENCE : Z := 50.

(** ** Data *)

Inductive procstate := UNUSED | EMBRYO | SLEEPING | RUNNABLE | RUNNING | ZOMBIE.

#[global] Instance procstate_eq_dec : EqDecision procstate.
Proof. solve_decision. Defined.

(** [enum levels] is an [int] that nothing keeps in range. *)
Definition RR : Z := 0.
Definition SJF : Z := 1.
Definition FCFS : Z := 2.

Record timeInfo := TI {
  queue : Z; ticks_used : Z; burst_time : Z; creation_time : Z;
  enter_queue_time : Z; last_run_time : Z; confidence : Z }.

(** [struct trapframe] without its padding. *)
Record trapframe := TF {
  edi : Z; esi : Z; ebp : Z; oesp : Z; ebx : Z; edx : Z; ecx : Z; eax : Z;
  gs : Z; fs : Z; es : Z; ds : Z; trapno : Z;
  err : Z; eip : Z; cs : Z; eflags : Z; esp : Z; ss : Z }.

(** Where [swtch] resumes a process: a fresh one starts in [forkret], the
    others return into [sched]. *)
Inductive kcontext := Cforkret | Csched.

(** [parent] and [cwd]/[ofile] entries are table indices, [None] for null;
    addresses are [Z], 0 for null. *)
Record proc := Proc {
  sz : Z; pgdir : Z; kstack : Z; state : procstate; pid : Z; parent : option nat;
  tf : trapframe; context : kcontext; pchan : option chan; killed : Z;
  ofile : list (option nat); cwd : option nat; name : string;
  used_syscalls : list Z; ti : timeInfo }.

Definition set_state (x : procstate) (p : proc) : proc :=
  Proc (sz p) (pgdir p) (kstack p) x (pid p) (parent p) (tf p) (context p) (pchan p)
       (killed p) (ofile p) (cwd p) (name p) (used_syscalls p) (ti p).
Definition set_pid (x : Z) (p : proc) : proc :=
  Proc (sz p) (pgdir p) (kstack p) (state p) x (parent p) (tf p) (context p) (pchan p)
       (killed p) (ofile p) (cwd p) (name p) (used_syscalls p) (ti p).
Definition set_kstack (x : Z) (p : proc) : proc :=
  Proc (sz p) (pgdir p) x (state p) (pid p) (parent p) (tf p) (context p) (pchan p)
       (killed p) (ofile p) (cwd p) (name p) (used_syscalls p) (ti p).
Definition set_pgdir (x : Z) (p : proc) : proc :=
  Proc (sz p) x (kstack p) (state p) (pid p) (parent p) (tf p) (context p) (pchan p)
       (killed p) (ofile p) (cwd p) (name p) (used_syscalls p) (ti p).
Definition set_sz (x : Z) (p : proc) : proc :=
  Proc x (pgdir p) (kstack p) (state p) (pid p) (parent p) (tf p) (context p) (pchan p)
       (killed p) (ofile p) (cwd p) (name p) (used_syscalls p) (ti p).
Definition set_parent (x : option nat) (p : proc) : proc :=
  Proc (sz p) (pgdir p) (kstack p) (state p) (pid p) x (tf p) (context p) (pchan p)
       (killed p) (ofile p) (cwd p) (name p) (used_syscalls p) (ti p).
Definition set_tf (x : trapframe) (p : proc) : proc :=
  Proc (sz p) (pgdir p) (kstack p) (state p) (pid p) (parent p) x (context p) (pchan p)
       (killed p) (ofile p) (cwd p) (name p) (used_syscalls p) (ti p).
Definition set_context (x : kcontext) (p : proc) : proc :=
  Proc (sz p) (pgdir p) (kstack p) (state p) (pid p) (parent p) (tf p) x (pchan p)
       (killed p) (ofile p) (cwd p) (name p) (used_syscalls p) (ti p).
Definition set_chan (x : option chan) (p : proc) : proc :=
  Proc (sz p) (pgdir p) (kstack p) (state p) (pid p) (parent p) (tf p) (context p) x
       (killed p) (ofile p) (cwd p) (name p) (used_syscalls p) (ti p).
Definition set_killed (x : Z) (p : proc) : proc :=
  Proc (sz p) (pgdir p) (kstack p) (state p) (pid p) (parent p) (tf p) (context p) (pchan p)
       x (ofile p) (cwd p) (name p) (used_syscalls p) (ti p).
Definition set_ofile (x : list (option nat)) (p : proc) : proc :=
  Proc (sz p) (pgdir p) (kstack p) (state p) (pid p) (parent p) (tf p) (context p) (pchan p)
       (killed p) x (cwd p) (name p) (used_syscalls p) (ti p).
Definition set_cwd (x : option nat) (p : proc) : proc :=
  Proc (sz p) (pgdir p) (kstack p) (state p) (pid p) (parent p) (tf p) (context p) (pchan p)
       (killed p) (ofile p) x (name p) (used_syscalls p) (ti p).
Definition set_name (x : string) (p : proc) : proc :=
  Proc (sz p) (pgdir p) (kstack p) (state p) (pid p) (parent p) (tf p) (context p) (pchan p)
       (killed p) (ofile p) (cwd p) x (used_syscalls p) (ti p).
Definition set_used (x : list Z) (p : proc) : proc :=
  Proc (sz p) (pgdir p) (kstack p) (state p) (pid p) (parent p) (tf p) (context p) (pchan p)
       (killed p) (ofile p) (cwd p) (name p) x (ti p).
Definition set_ti (x : timeInfo) (p : proc) : proc :=
  Proc (sz p) (pgdir p) (kstack p) (state p) (pid p) (parent p) (tf p) (context p) (pchan p)
       (killed p) (ofile p) (cwd p) (name p) (used_syscalls p) x.

Definition set_queue (q t : Z) (x : timeInfo) : timeInfo :=
  TI q (ticks_used x) (burst_time x) (creation_time x) t (last_run_time x) (confidence x).
Definition set_eax (x : Z) (f : trapframe) : trapframe :=
  TF (edi f) (esi f) (ebp f) (oesp f) (ebx f) (edx f) (ecx f) x (gs f) (fs f) (es f) (ds f)
     (trapno f) (err f) (eip f) (cs f) (eflags f) (esp f) (ss f).

(** [struct cpu]: the process it runs, the time its three queues have left, its
    system call count, and the two hardware words [switchuvm] sets, the kernel
    stack of the TSS and the page table register. *)
Record cpu := Cpu {
  c_proc : option nat; RR_remain_time : Z; SJF_remain_time : Z; FCFS_remain_time : Z;
  number_of_syscalls : Z; ts_esp0 : Z; cr3 : Z }.

Definition set_c_proc (x : option nat) (c : cpu) : cpu :=
  Cpu x (RR_remain_time c) (SJF_remain_time c) (FCFS_remain_time c)
      (number_of_syscalls c) (ts_esp0 c) (cr3 c).
Definition set_remain (r j f : Z) (c : cpu) : cpu :=
  Cpu (c_proc c) r j f (number_of_syscalls c) (ts_esp0 c) (cr3 c).
Definition set_nsyscalls (x : Z) (c : cpu) : cpu :=
  Cpu (c_proc c) (RR_remain_time c) (SJF_remain_time c) (FCFS_remain_time c) x (ts_esp0 c) (cr3 c).
Definition set_hw (e r : Z) (c : cpu) : cpu :=
  Cpu (c_proc c) (RR_remain_time c) (SJF_remain_time c) (FCFS_remain_time c)
      (number_of_syscalls c) e r.
Definition cpu0 : cpu := Cpu None 0 0 0 0 0 0.

(** A zeroed slot of the table. *)
Definition tf0 : trapframe := TF 0 0 0 0 0 0 0 0 0 0 0 0 0 0 0 0 0 0 0.
Definition ti0 : timeInfo := TI 0 0 0 0 0 0 0.
Definition proc0 : proc :=
  Proc 0 0 0 UNUSED 0 None tf0 Csched None 0 (replicate NOFILE None) None ""
       (replicate MAX_SYSCALLS 0) ti0.

(** The state: [ptable], [nextpid], [initproc], [ticks], the CPUs, the static
    [first] of [forkret], the kernel page table, the global system call count,
    the reentrant lock, and the state [low] of the components below. *)
Record kstate (W : Type) := KS {
  ptable : list proc; nextpid : Z; initproc : option nat; ticks : Z;
  cpus : list cpu; first : bool; kpgdir : Z; total_number_of_syscalls : Z;
  rlock : Reentrant.rlock; low : W }.
Arguments KS {W} _ _ _ _ _ _ _ _ _ _.
Arguments ptable {W} _. Arguments nextpid {W} _. Arguments initproc {W} _.
Arguments ticks {W} _. Arguments cpus {W} _. Arguments first {W} _.
Arguments kpgdir {W} _. Arguments total_number_of_syscalls {W} _.
Arguments rlock {W} _. Arguments low {W} _.

(** What the process code needs from the files below it, with C's conventions:
    an address or 0, a table index for a [struct file*] or [struct inode*]. *)
Class Lower (W : Type) := {
  l_kalloc : M W Z;                       (* kalloc() *)
  l_kfree : Z → M W unit;                 (* kfree(v) *)
  l_setupkvm : M W Z;                     (* setupkvm() *)
  l_inituvm : Z → M W unit;               (* inituvm(pgdir, initcode, size) *)
  l_copyuvm : Z → Z → M W Z;              (* copyuvm(pgdir, sz) *)
  l_freevm : Z → M W unit;                (* freevm(pgdir) *)
  l_allocuvm : Z → Z → Z → M W Z;         (* allocuvm(pgdir, oldsz, newsz) *)
  l_deallocuvm : Z → Z → Z → M W Z;       (* deallocuvm(pgdir, oldsz, newsz) *)
  l_filedup : nat → M W unit;             (* filedup(f) *)
  l_fileclose : nat → M W unit;           (* fileclose(f) *)
  l_idup : option nat → M W unit;         (* idup(ip) *)
  l_iput : option nat → M W unit;         (* iput(ip) *)
  l_namei : string → M W (option nat);    (* namei(path) *)
  l_begin_op : M W unit;                  (* begin_op() *)
  l_end_op : M W unit;                    (* end_op() *)
  l_iinit : M W unit;                     (* iinit(ROOTDEV) *)
  l_initlog : M W unit }.                 (* initlog(ROOTDEV) *)

(** ** Access to the state *)

Section Access.
Context {W : Type}.

Definition with_ptable (l : list proc) (s : kstate W) : kstate W :=
  KS l (nextpid s) (initproc s) (ticks s) (cpus s) (first s) (kpgdir s)
     (total_number_of_syscalls s) (rlock s) (low s).
Definition with_nextpid (x : Z) (s : kstate W) : kstate W :=
  KS (ptable s) x (initproc s) (ticks s) (cpus s) (first s) (kpgdir s)
     (total_number_of_syscalls s) (rlock s) (low s).
Definition with_initproc (x : option nat) (s : kstate W) : kstate W :=
  KS (ptable s) (nextpid s) x (ticks s) (cpus s) (first s) (kpgdir s)
     (total_number_of_syscalls s) (rlock s) (low s).
Definition with_ticks (x : Z) (s : kstate W) : kstate W :=
  KS (ptable s) (nextpid s) (initproc s) x (cpus s) (first s) (kpgdir s)
     (total_number_of_syscalls s) (rlock s) (low s).
Definition with_cpus (x : list cpu) (s : kstate W) : kstate W :=
  KS (ptable s) (nextpid s) (initproc s) (ticks s) x (first s) (kpgdir s)
     (total_number_of_syscalls s) (rlock s) (low s).
Definition with_first (x : bool) (s : kstate W) : kstate W :=
  KS (ptable s) (nextpid s) (initproc s) (ticks s) (cpus s) x (kpgdir s)
     (total_number_of_syscalls s) (rlock s) (low s).
Definition with_total (x : Z) (s : kstate W) : kstate W :=
  KS (ptable s) (nextpid s) (initproc s) (ticks s) (cpus s) (first s) (kpgdir s) x (rlock s) (low s).
Definition with_rlock (x : Reentrant.rlock) (s : kstate W) : kstate W :=
  KS (ptable s) (nextpid s) (initproc s) (ticks s) (cpus s) (first s) (kpgdir s)
     (total_number_of_syscalls s) x (low s).
Definition with_low (x : W) (s : kstate W) : kstate W :=
  KS (ptable s) (nextpid s) (initproc s) (ticks s) (cpus s) (first s) (kpgdir s)
     (total_number_of_syscalls s) (rlock s) x.

Definition proc_at (i : nat) (s : kstate W) : proc := default proc0 (ptable s !! i).
Definition cpu_at (i : nat) (s : kstate W) : cpu := default cpu0 (cpus s !! i).

(** [p->... = ...] for the process in slot [i]. *)
Definition upd (i : nat) (f : proc → proc) : M (kstate W) unit :=
  modify (λ s, with_ptable (alter f i (ptable s)) s).
Definition upd_cpu (i : nat) (f : cpu → cpu) : M (kstate W) unit :=
  modify (λ s, with_cpus (alter f i (cpus s)) s).
Definition lift {A} (m : M W A) : M (kstate W) A := zoom low with_low m.

End Access.

(** Slot of the first process satisfying [P], as the table scans find it. *)
Fixpoint find_from (P : proc → bool) (i : nat) (l : list proc) : option nat :=
  match l with
  | [] => None
  | p :: l => if P p then Some i else find_from P (S i) l
  end.
Definition find_proc (P : proc → bool) (l : list proc) : option nat := find_from P 0 l.

(** ** Operations *)

Section Ops.
Context {W : Type} `{Lower W}.
(** What a fresh kernel stack page holds where [allocproc] places the trap
    frame; [userinit] and [fork] overwrite it. *)
Context (junk_tf : trapframe).

Definition get_proc_by_pid (n : Z) : M (kstate W) (option nat) :=
  acquire Lptable;;
  s ← get;
  match find_proc (λ p, pid p =? n) (ptable s) with
  | Some i => release Lptable;; mret (Some i)
  | None => release Lptable;; mret None
  end.

Definition change_queue (n target_queue : Z) : M (kstate W) Z :=
  p ← get_proc_by_pid n;
  acquire Lptable;;
  match p with
  | None => null_dereference
  | Some i =>
      t ← gets ticks;
      upd i (λ p, set_ti (set_queue target_queue (i32 t) (ti p)) p);;
      release Lptable;;
      mret 0
  end.

Definition set_initial_burst_confidence (n burst conf : Z) : M (kstate W) Z :=
  p ← get_proc_by_pid n;
  match p with
  | None => null_dereference
  | Some i =>
      upd i (λ p, let x := ti p in
        set_ti (TI (queue x) (ticks_used x) burst (creation_time x) (enter_queue_time x)
                   (last_run_time x) conf) p);;
      emit (EPrint "pid: %d new_burst: %d new_confidence: %d\n" [PInt n; PInt burst; PInt conf]);;
      mret 0
  end.

Definition allocproc : M (kstate W) (option nat) :=
  acquire Lptable;;
  s ← get;
  match find_proc (λ p, bool_decide (state p = UNUSED)) (ptable s) with
  | None => release Lptable;; mret None
  | Some i =>
      upd i (set_state EMBRYO);;
      upd i (set_pid (nextpid s));;
      modify (with_nextpid (i32 (nextpid s + 1)));;
      upd i (set_used (replicate MAX_SYSCALLS 0));;
      release Lptable;;
      k ← lift l_kalloc;
      upd i (set_kstack k);;
      if k =? 0 then upd i (set_state UNUSED);; mret None
      else
        upd i (set_tf junk_tf);;
        upd i (set_context Cforkret);;
        t ← gets ticks;
        upd i (set_ti (TI FCFS 0 DEFAULT_BURST_TIME (i32 t) (i32 t) 0 DEFAULT_CONFIDENCE));;
        mret (Some i)
  end.

(** [safestrcpy] into the 16 bytes of [p->name]. *)
Definition name15 (x : string) : string := String.substring 0 15 x.

(** The user segment selectors of [mmu.h]. *)
Definition UCODE_SEL : Z := 27.  (* (SEG_UCODE << 3) | DPL_USER *)
Definition UDATA_SEL : Z := 35.  (* (SEG_UDATA << 3) | DPL_USER *)
Definition FL_IF : Z := 0x200.

Definition userinit : M (kstate W) unit :=
  r ← allocproc;
  modify (with_initproc r);;
  match r with
  | None => null_dereference
  | Some i =>
      d ← lift l_setupkvm;
      upd i (set_pgdir d);;
      if d =? 0 then panic "userinit: out of memory?"
      else
        lift (l_inituvm d);;
        upd i (set_sz 4096);;
        upd i (set_tf (TF 0 0 0 0 0 0 0 0 0 0 UDATA_SEL UDATA_SEL 0 0 0 UCODE_SEL FL_IF 4096 UDATA_SEL));;
        upd i (set_name "initcode");;
        w ← lift (l_namei "/");
        upd i (set_cwd w);;
        acquire Lptable;;
        upd i (set_state RUNNABLE);;
        s ← get;
        let n := pid (proc_at i s) in
        release Lptable;;
        change_queue n RR;;
        mret tt
  end.

(** [switchuvm(p)] by CPU [me]. *)
Definition switchuvm (me i : nat) : M (kstate W) unit :=
  s ← get;
  let p := proc_at i s in
  if kstack p =? 0 then panic "switchuvm: no kstack"
  else if pgdir p =? 0 then panic "switchuvm: no pgdir"
  else upd_cpu me (set_hw (u32 (kstack p + KSTACKSIZE)) (u32 (pgdir p - 0x80000000))).

Definition switchkvm (me : nat) : M (kstate W) unit :=
  s ← get;
  upd_cpu me (λ c, set_hw (ts_esp0 c) (u32 (kpgdir s - 0x80000000)) c).

(** [growproc(n)] by process [i] running on CPU [me]. *)
Definition growproc (me i : nat) (n : Z) : M (kstate W) Z :=
  s ← get;
  let p := proc_at i s in
  r ← (if 0 <? n then lift (l_allocuvm (pgdir p) (sz p) (u32 (sz p + n)))
       else if n <? 0 then lift (l_deallocuvm (pgdir p) (sz p) (u32 (sz p + n)))
       else mret (sz p));
  if (negb (n =? 0) && (r =? 0))%bool then mret (-1)
  else
    upd i (set_sz r);;
    switchuvm me i;;
    mret 0.

(** [for(i = 0; i < NOFILE; i++) if(curproc->ofile[i]) np->ofile[i] = filedup(...)]. *)
Fixpoint dup_files (i : nat) (fd : nat) (fs : list (option nat)) : M (kstate W) unit :=
  match fs with
  | [] => mret tt
  | None :: fs => dup_files i (S fd) fs
  | Some f :: fs =>
      lift (l_filedup f);;
      upd i (λ p, set_ofile (<[fd := Some f]> (ofile p)) p);;
      dup_files i (S fd) fs
  end.

(** [fork]'s copying of the parent [cur], process [me], into slot [np]. *)
Definition fork_fill (me np : nat) (cur : proc) : M (kstate W) unit :=
  upd np (set_sz (sz cur));;
  upd np (set_parent (Some me));;
  upd np (set_tf (tf cur));;
  upd np (λ p, set_tf (set_eax 0 (tf p)) p);;
  dup_files np 0 (ofile cur);;
  lift (l_idup (cwd cur));;
  upd np (set_cwd (cwd cur));;
  upd np (set_name (name15 (name cur))).

(** The end of [fork]: the child becomes runnable, and the shell (pid 2) joins
    the round robin queue. *)
Definition fork_publish (np : nat) : M (kstate W) Z :=
  s ← get;
  let n := pid (proc_at np s) in
  acquire Lptable;;
  upd np (set_state RUNNABLE);;
  release Lptable;;
  (if n =? 2 then change_queue n RR;; mret tt else mret tt);;
  mret n.

Definition fork (me : nat) : M (kstate W) Z :=
  r ← allocproc;
  match r with
  | None => mret (-1)
  | Some np =>
      s ← get;
      let cur := proc_at me s in
      d ← lift (l_copyuvm (pgdir cur) (sz cur));
      upd np (set_pgdir d);;
      if d =? 0 then
        s ← get;
        lift (l_kfree (kstack (proc_at np s)));;
        upd np (set_kstack 0);;
        upd np (set_state UNUSED);;
        mret (-1)
      else
        fork_fill me np cur;;
        fork_publish np
  end.

(** [sched()] by process [i], up to its [swtch]: control passes to the
    scheduler, which inherits the lock.  (Interrupts are off because the CPU
    holds a lock.) *)
Definition sched (i : nat) : M (kstate W) unit := λ c s,
  if negb (holding Lptable c) then Panic "sched ptable.lock"
  else if negb (Nat.eqb (length (held c)) 1) then Panic "sched locks"
  else if bool_decide (state (proc_at i s) = RUNNING) then Panic "sched running"
  else upd i (set_context Csched) c s.

(** [yield()] up to its [swtch]; when the process runs again it releases
    [ptable.lock]. *)
Definition yield (i : nat) : M (kstate W) unit :=
  acquire Lptable;;
  upd i (set_state RUNNABLE);;
  sched i.
Definition yield_return : M (kstate W) unit := release Lptable.

Definition forkret : M (kstate W) unit :=
  release Lptable;;
  s ← get;
  when (first s) (modify (with_first false);; lift l_iinit;; lift l_initlog).

(** [sleep(ch, lk)] by process [i], up to its [swtch]. *)
Definition sleep (i : nat) (ch : chan) (lk : lock) : M (kstate W) unit :=
  (if bool_decide (lk ≠ Lptable) then acquire Lptable;; release lk else mret tt);;
  upd i (set_chan (Some ch));;
  upd i (set_state SLEEPING);;
  sched i.

(** The rest of [sleep], when the process is scheduled again. *)
Definition sleep_return (i : nat) (lk : lock) : M (kstate W) unit :=
  upd i (set_chan None);;
  if bool_decide (lk ≠ Lptable) then release Lptable;; acquire lk else mret tt.

(** [wakeup1(ch)]: the loop's effect on the table. *)
Definition wake (ch : option chan) (p : proc) : proc :=
  if bool_decide (state p = SLEEPING) && bool_decide (pchan p = ch)
  then set_state RUNNABLE p else p.
Definition wakeup1 (ch : option chan) : M (kstate W) unit :=
  modify (λ s, with_ptable (wake ch <$> ptable s) s).

Definition wakeup (ch : chan) : M (kstate W) unit :=
  acquire Lptable;;
  wakeup1 (Some ch);;
  release Lptable.

(** [for(fd = 0; fd < NOFILE; fd++) if(curproc->ofile[fd]) ...] of [exit]. *)
Fixpoint close_files (i : nat) (fd : nat) (fs : list (option nat)) : M (kstate W) unit :=
  match fs with
  | [] => mret tt
  | None :: fs => close_files i (S fd) fs
  | Some f :: fs =>
      lift (l_fileclose f);;
      upd i (λ p, set_ofile (<[fd := None]> (ofile p)) p);;
      close_files i (S fd) fs
  end.

(** [exit]'s loop that passes the children of [i] to init, from slot [k] on. *)
Fixpoint reparent (i : nat) (ini : option nat) (k fuel : nat) : M (kstate W) unit :=
  match fuel with
  | O => mret tt
  | S fuel =>
      s ← get;
      (if bool_decide (parent (proc_at k s) = Some i) then
         upd k (set_parent ini);;
         s ← get;
         when (bool_decide (state (proc_at k s) = ZOMBIE)) (wakeup1 (ChProc <$> ini))
       else mret tt);;
      reparent i ini (S k) fuel
  end.

(** [exit()] by process [i], up to its last [swtch]. *)
Definition exit (i : nat) : M (kstate W) unit :=
  s ← get;
  if bool_decide (initproc s = Some i) then panic "init exiting"
  else
    close_files i 0 (ofile (proc_at i s));;
    lift l_begin_op;;
    s ← get;
    lift (l_iput (cwd (proc_at i s)));;
    lift l_end_op;;
    upd i (set_cwd None);;
    acquire Lptable;;
    s ← get;
    wakeup1 (ChProc <$> parent (proc_at i s));;
    reparent i (initproc s) 0 NPROC;;
    upd i (set_state ZOMBIE);;
    sched i.

(** [wait]'s scan: the first zombie child, and whether there is any child. *)
Definition is_child (i : nat) (p : proc) : bool := bool_decide (parent p = Some i).

Definition wait (i : nat) : M (kstate W) Z :=
  acquire Lptable;;
  s ← get;
  match find_proc (λ p, is_child i p && bool_decide (state p = ZOMBIE))%bool (ptable s) with
  | Some k =>
      let n := pid (proc_at k s) in
      lift (l_kfree (kstack (proc_at k s)));;
      upd k (set_kstack 0);;
      lift (l_freevm (pgdir (proc_at k s)));;
      upd k (set_pid 0);;
      upd k (set_parent None);;
      upd k (set_name "");;
      upd k (set_killed 0);;
      upd k (set_state UNUSED);;
      release Lptable;;
      mret n
  | None =>
      let havekids := existsb (is_child i) (ptable s) in
      if (negb havekids || negb (killed (proc_at i s) =? 0))%bool
      then release Lptable;; mret (-1)
      else sleep i (ChProc i) Lptable;; asleep (ChProc i)
  end.

Definition kill (n : Z) : M (kstate W) Z :=
  acquire Lptable;;
  s ← get;
  match find_proc (λ p, pid p =? n) (ptable s) with
  | Some i =>
      upd i (set_killed 1);;
      s ← get;
      (if bool_decide (state (proc_at i s) = SLEEPING) then upd i (set_state RUNNABLE) else mret tt);;
      release Lptable;;
      mret 0
  | None => release Lptable;; mret (-1)
  end.

(** ** Queries added by the labs *)

Definition sumZ (l : list Z) : Z := foldr Z.add 0 l.

Definition get_total_syscalls (n : Z) : M (kstate W) Z :=
  p ← get_proc_by_pid n;
  match p with
  | None => mret (-1)
  | Some i => s ← get; mret (i32 (sumZ (used_syscalls (proc_at i s))))
  end.

Fixpoint sort_syscalls_loop (i : nat) (l : list Z) : M (kstate W) unit :=
  match l with
  | [] => mret tt
  | x :: l =>
      emit (EPrint "\tSystem call number %d: %d usage\n" [PInt (Z.of_nat i + 1); PInt x]);;
      sort_syscalls_loop (S i) l
  end.
Definition sort_syscalls (n : Z) : M (kstate W) Z :=
  p ← get_proc_by_pid n;
  match p with
  | None => mret (-1)
  | Some i => s ← get; sort_syscalls_loop 0 (used_syscalls (proc_at i s));; mret 0
  end.

(** The loop of [get_most_invoked_syscall]: index and count of the maximum. *)
Fixpoint most_invoked (i : nat) (l : list Z) (max_count : Z) (index_max : nat) : Z * nat :=
  match l with
  | [] => (max_count, index_max)
  | x :: l => if max_count <? x then most_invoked (S i) l x i
              else most_invoked (S i) l max_count index_max
  end.
Definition get_most_invoked_syscall (n : Z) : M (kstate W) Z :=
  p ← get_proc_by_pid n;
  match p with
  | None => mret (-1)
  | Some i =>
      s ← get;
      let '(max_count, index_max) := most_invoked 0 (used_syscalls (proc_at i s)) 0 0 in
      emit (EPrint "The most invoked system call is system call number %d with %d usage\n"
              [PInt (Z.of_nat index_max + 1); PInt max_count]);;
      mret 0
  end.

Fixpoint list_all_loop (l : list proc) (flag : bool) : M (kstate W) bool :=
  match l with
  | [] => mret flag
  | p :: l =>
      if bool_decide (state p ≠ UNUSED) then
        n ← get_total_syscalls (pid p);
        emit (EPrint "Process with id %d and name %s has totally %d system calls\n"
                [PInt (pid p); PStr (name p); PInt n]);;
        list_all_loop l true
      else list_all_loop l flag
  end.
Definition list_all_processes : M (kstate W) Z :=
  s ← get;
  flag ← list_all_loop (ptable s) false;
  mret (if flag : bool then 0 else -1).

Definition state_name (x : procstate) : string :=
  match x with
  | UNUSED => "unused" | EMBRYO => "embryo" | SLEEPING => "sleeping"
  | RUNNABLE => "runnable" | RUNNING => "running" | ZOMBIE => "zombie"
  end.

Fixpoint print_process_loop (now : Z) (l : list proc) : M (kstate W) unit :=
  match l with
  | [] => mret tt
  | p :: l =>
      (if bool_decide (state p = UNUSED) then mret tt
       else
         emit (EPrint "%s / " [PStr (name p)]);;
         emit (EPrint "%d / " [PInt (pid p)]);;
         emit (EPrint "%s / " [PStr (state_name (state p))]);;
         emit (EPrint "%d / " [PInt (queue (ti p))]);;
         emit (EPrint "%d / " [PInt (burst_time (ti p))]);;
         emit (EPrint "%d / " [PInt (i32 (now - last_run_time (ti p)))]);;
         emit (EPrint "%d / " [PInt (enter_queue_time (ti p))]);;
         emit (EPrint "%d / " [PInt (last_run_time (ti p))]);;
         emit (EPrint "%d" [PInt (confidence (ti p))]);;
         emit (EPrint "\n" []));;
      print_process_loop now l
  end.
Definition print_process_information : M (kstate W) Z :=
  emit (EPrint "process_name / PID / state / queue / burst_time / waiting_time / arrival / consecutive run / confidence\n\n" []);;
  s ← get;
  print_process_loop (ticks s) (ptable s);;
  mret 0.

Fixpoint total_syscalls_loop (i : nat) (l : list cpu) (count : Z) : M (kstate W) Z :=
  match l with
  | [] => mret count
  | c :: l =>
      if number_of_syscalls c =? 0 then total_syscalls_loop (S i) l count
      else
        emit (EPrint "number of syscalls for cpu {%d} is : %d\n"
                [PInt (Z.of_nat i); PInt (number_of_syscalls c)]);;
        total_syscalls_loop (S i) l (i32 (count + number_of_syscalls c))
  end.
Definition get_number_of_total_syscalls : M (kstate W) Z :=
  s ← get;
  count ← total_syscalls_loop 0 (cpus s) 0;
  emit (EPrint "number of total syscalls for all cpus is (sum of cpus): %d\n" [PInt count]);;
  emit (EPrint "number of total syscalls for all cpus is (global) : %d\n"
          [PInt (i32 (total_number_of_syscalls s))]);;
  mret 0.

End Ops.
