(* ===== verification/Sched.v ===== *)
(** * The scheduler

    The lab's scheduler of [proc.c]: three queues (round robin, shortest job
    first with confidence, first come first served), each with a share of the
    CPU's time, and the aging that promotes starved processes.  An iteration of
    [scheduler] is modelled up to its [swtch] ([scheduler_iter]) and after it
    ([run_process_return]). *)

From S2P Require Import Prelude Locks Proc.

Definition SYS_TICK : Z := 10.
Definition QUANTUM : Z := 50.
Definition STARVATION_BOUNDRY : Z := 800.
Definition TIME_SLICE_UNIT : Z := 100.
Definition RR_WEIGHT : Z := 3.
Definition SJF_WEIGHT : Z := 2.
Definition FCFS_WEIGHT : Z := 1.

(** [sizeof(struct proc)] on the i386: ten words, [ofile], [cwd], [name],
    [used_syscalls] and the seven words of [ti]. *)
Definition sizeof_proc : nat := 10 * 4 + NOFILE * 4 + 4 + 16 + MAX_SYSCALLS * 4 + 7 * 4.

(** ** Choosing a process *)

(** [create_random_number(seed)], for a positive seed. *)
Definition create_random_number (t seed : Z) : Z := t mod seed.

Definition runnable_in (q : Z) (p : proc) : bool :=
  bool_decide (state p = RUNNABLE) && (queue (ti p) =? q).

(** The loop of [round_robin] at slot [i], with [fuel] rounds to go. *)
Fixpoint rr_scan (l : list proc) (i fuel : nat) : option nat :=
  match fuel with
  | O => None
  | S fuel =>
      let i := if (NPROC <=? i)%nat then 0%nat else i in
      if runnable_in RR (default proc0 (l !! i)) then Some i else rr_scan l (S i) fuel
  end.
(** The bound on the rounds is [sizeof(ptable.proc)], in bytes. *)
Definition round_robin (l : list proc) (last_executed_proc : nat) : option nat :=
  rr_scan l last_executed_proc (NPROC * sizeof_proc).

(** The scan that [shortest_job_first] and [first_come_first_service] share,
    over slots [i] and on: skip the processes that are not [ok], start from the
    first that is, and move to [p] when it is [better].  The process chosen so
    far is kept with its slot. *)
Fixpoint scan_best (ok : proc → bool) (better : proc → proc → bool) (i : nat) (l : list proc)
    (best : option (nat * proc)) : option (nat * proc) :=
  match l with
  | [] => best
  | p :: l =>
      if negb (ok p) then scan_best ok better (S i) l best
      else
        let '(j, b) := default (i, p) best in
        scan_best ok better (S i) l (Some (if better p b then (i, p) else (j, b)))
  end.

(** [t] is [ticks], read once for the scan. *)
Definition shortest_job_first (t : Z) (l : list proc) : option nat :=
  fst <$> scan_best (runnable_in SJF)
    (λ p b, if burst_time (ti p) <? burst_time (ti b)
            then create_random_number t 100 <? confidence (ti p) else false) 0 l None.

Definition first_come_first_service (l : list proc) : option nat :=
  fst <$> scan_best (runnable_in FCFS)
    (λ p b, enter_queue_time (ti p) <? enter_queue_time (ti b)) 0 l None.

Section Scheduler.
Context {W : Type} `{Lower W}.

(** ** Running it *)

(** [run_process_on_cpu] up to its [swtch]. *)
Definition run_process_on_cpu (me i : nat) : M (kstate W) unit :=
  upd_cpu me (set_c_proc (Some i));;
  switchuvm me i;;
  upd i (set_state RUNNING).

(** What it does when the process switches back. *)
Definition run_process_return (me : nat) : M (kstate W) unit :=
  switchkvm me;;
  upd_cpu me (set_c_proc None);;
  release Lptable.

(** What an iteration of [scheduler] did: switched to a process, or refilled
    the time of the three queues. *)
Inductive turn := Ran (i : nat) | Refilled.

(** One iteration by CPU [me], whose local [last_executed_proc] is [last]; the
    result has the new value of that variable. *)
Definition scheduler_iter (me last : nat) : M (kstate W) (turn * nat) :=
  acquire Lptable;;
  s ← get;
  let c := cpu_at me s in
  match (if 0 <? RR_remain_time c then round_robin (ptable s) last else None) with
  | Some i => run_process_on_cpu me i;; mret (Ran i, i)
  | None =>
  match (if 0 <? SJF_remain_time c then shortest_job_first (ticks s) (ptable s) else None) with
  | Some i => run_process_on_cpu me i;; mret (Ran i, last)
  | None =>
  match (if 0 <? FCFS_remain_time c then first_come_first_service (ptable s) else None) with
  | Some i => run_process_on_cpu me i;; mret (Ran i, last)
  | None =>
      upd_cpu me (set_remain (RR_WEIGHT * TIME_SLICE_UNIT / SYS_TICK)
                             (SJF_WEIGHT * TIME_SLICE_UNIT / SYS_TICK)
                             (FCFS_WEIGHT * TIME_SLICE_UNIT / SYS_TICK));;
      release Lptable;;
      mret (Refilled, last)
  end end end.

(** ** Aging *)

(** The two unsigned comparisons of [aging]. *)
Definition starved (t : Z) (p : proc) : bool :=
  (STARVATION_BOUNDRY <? u32 (t - last_run_time (ti p))) &&
  (STARVATION_BOUNDRY <? u32 (t - enter_queue_time (ti p))).

Fixpoint aging_loop (k fuel : nat) : M (kstate W) unit :=
  match fuel with
  | O => mret tt
  | S fuel =>
      s ← get;
      let p := proc_at k s in
      (if (negb (bool_decide (state p = RUNNABLE)) || (queue (ti p) =? RR))%bool then mret tt
       else if starved (ticks s) p then
         release Lptable;;
         (if queue (ti p) =? SJF then change_queue (pid p) RR;; mret tt
          else if queue (ti p) =? FCFS then change_queue (pid p) SJF;; mret tt
          else mret tt);;
         acquire Lptable
       else mret tt);;
      aging_loop (S k) fuel
  end.
Definition aging : M (kstate W) unit :=
  acquire Lptable;;
  aging_loop 0 NPROC;;
  release Lptable.

End Scheduler.

(** ** Round robin *)

Definition slot (l : list proc) (i : nat) : proc := default proc0 (l !! i).

Lemma rr_scan_step l i fuel :
  (i < NPROC)%nat →
  rr_scan l i (S fuel) = if runnable_in RR (slot l i) then Some i else rr_scan l (S i) fuel.
Proof. intros Hi. cbn [rr_scan]. by rewrite (proj2 (Nat.leb_gt _ _) Hi). Qed.

Lemma rr_scan_wrap l fuel : rr_scan l NPROC fuel = rr_scan l 0 fuel.
Proof. by destruct fuel. Qed.

(** The scan up to the end of the table. *)
Lemma rr_scan_seq l n i fuel :
  (i + n ≤ NPROC)%nat →
  rr_scan l i (n + fuel) =
    match List.find (λ j, runnable_in RR (slot l j)) (seq i n) with
    | Some j => Some j
    | None => rr_scan l (i + n) fuel
    end.
Proof.
  revert i; induction n as [|n IH]; intros i Hi; cbn [Nat.add seq List.find].
  { by rewrite Nat.add_0_r. }
  rewrite rr_scan_step by lia. destruct (runnable_in RR (slot l i)); [done|].
  rewrite IH by lia. by rewrite Nat.add_succ_comm.
Qed.

Lemma rr_scan_none l fuel i :
  (∀ j, (j < NPROC)%nat → runnable_in RR (slot l j) = false) → (i ≤ NPROC)%nat →
  rr_scan l i fuel = None.
Proof.
  intros Hn. revert i. induction fuel as [|fuel IH]; intros i Hi; [done|].
  destruct (decide (i = NPROC)) as [->|Hne].
  - rewrite rr_scan_wrap, rr_scan_step, Hn by (unfold NPROC; lia). apply IH. unfold NPROC. lia.
  - rewrite rr_scan_step, Hn by lia. apply IH. lia.
Qed.

(** The slots in the order the scan visits them: from [last] to the end, then
    from the start. *)
Definition rr_order (last : nat) : list nat := seq last (NPROC - last) ++ seq 0 last.

Lemma find_app {A} (P : A → bool) l1 l2 :
  List.find P (l1 ++ l2) = match List.find P l1 with Some x => Some x | None => List.find P l2 end.
Proof. induction l1 as [|x l1 IH]; simpl; [done|]. by destruct (P x). Qed.

Lemma find_split {A} (P : A → bool) l x :
  List.find P l = Some x →
  ∃ before after, l = before ++ x :: after ∧ P x = true ∧ ∀ y, y ∈ before → P y = false.
Proof.
  induction l as [|z l IH]; simpl; [done|]. destruct (P z) eqn:Hz.
  - intros [= ->]. exists [], l. split; [done|]. split; [done|]. intros y Hy. set_solver.
  - intros (before & after & -> & Hx & Hb)%IH. exists (z :: before), after.
    split; [done|]. split; [done|]. intros y Hy. apply elem_of_cons in Hy as [->|]; auto.
Qed.

Lemma round_robin_order l last :
  (last < NPROC)%nat →
  round_robin l last = List.find (λ i, runnable_in RR (slot l i)) (rr_order last).
Proof.
  intros Hlast. unfold round_robin, rr_order.
  set (fuel := (NPROC * sizeof_proc)%nat).
  assert (NPROC ≤ fuel)%nat as Hfuel by (apply Nat.leb_le; vm_compute; reflexivity).
  replace fuel with ((NPROC - last) + (last + (fuel - NPROC)))%nat by lia.
  rewrite rr_scan_seq, find_app by lia.
  destruct (List.find _ (seq last _)) as [i|] eqn:Hf1; [done|].
  replace (last + (NPROC - last))%nat with NPROC by lia.
  rewrite rr_scan_wrap, rr_scan_seq by lia.
  destruct (List.find _ (seq 0 last)) as [i|] eqn:Hf2; [done|].
  apply rr_scan_none; [|lia]. intros j Hj.
  destruct (decide (last ≤ j)%nat).
  - apply (List.find_none _ _ Hf1), in_seq. lia.
  - apply (List.find_none _ _ Hf2), in_seq. lia.
Qed.

(** [round_robin(last)] is the first runnable process of the round robin
    queue in the cyclic order that starts at [last], and null only when the
    queue has no runnable process. *)
Theorem round_robin_spec l last :
  (last < NPROC)%nat →
  match round_robin l last with
  | Some i => ∃ before after, rr_order last = before ++ i :: after ∧
      runnable_in RR (slot l i) = true ∧
      ∀ j, j ∈ before → runnable_in RR (slot l j) = false
  | None => ∀ j, (j < NPROC)%nat → runnable_in RR (slot l j) = false
  end.
Proof.
  intros Hlast. rewrite round_robin_order by done.
  destruct (List.find _ _) as [i|] eqn:Hf.
  - by apply find_split in Hf.
  - intros j Hj. apply (List.find_none _ _ Hf). unfold rr_order. apply in_app_iff.
    rewrite !in_seq. lia.
Qed.

(** The scan starts at the process that ran last, not after it: as long as
    that process is runnable in the round robin queue it is chosen again, and
    the other processes of the queue do not get their turn. *)
Theorem round_robin_repicks l last :
  (last < NPROC)%nat → state (slot l last) = RUNNABLE → queue (ti (slot l last)) = RR →
  round_robin l last = Some last.
Proof.
  intros Hlast Hs Hq. rewrite round_robin_order by done. unfold rr_order.
  replace (NPROC - last)%nat with (S (NPROC - S last)) by lia. simpl.
  unfold runnable_in. by rewrite bool_decide_eq_true_2, (proj2 (Z.eqb_eq _ _) Hq).
Qed.

(** ** The other two queues *)

Lemma scan_best_app ok better l1 l2 i best :
  scan_best ok better i (l1 ++ l2) best =
  scan_best ok better (i + length l1) l2 (scan_best ok better i l1 best).
Proof.
  revert i best; induction l1 as [|p l1 IH]; intros i best; simpl; [by rewrite Nat.add_0_r|].
  rewrite <- Nat.add_succ_comm. destruct (ok p); simpl; [|apply IH].
  destruct (default _ best). apply IH.
Qed.

Section Scan.
Context (ok : proc → bool) (better : proc → proc → bool) (f : proc → Z) (g : proc → bool).
Context (Hbetter : ∀ p b, better p b = ((f p <? f b) && g p)%bool).

(** [b] of slot [k] is the best of [l]: no process that counts ([g]) has a
    smaller [f]; it is the first candidate, or counts and beats all before. *)
Definition best_of (l : list proc) (k : nat) (b : proc) : Prop :=
  l !! k = Some b ∧ ok b = true ∧
  (∀ j q, l !! j = Some q → ok q = true → g q = true → f b ≤ f q) ∧
  ((∀ j q, (j < k)%nat → l !! j = Some q → ok q = false) ∨
   (g b = true ∧ ∀ j q, (j < k)%nat → l !! j = Some q → ok q = true → g q = true → f b < f q)).

Lemma lookup_snoc {A} (l : list A) x j y :
  (l ++ [x]) !! j = Some y ↔ l !! j = Some y ∨ j = length l ∧ y = x.
Proof.
  rewrite lookup_app_Some. split.
  - intros [?|[? H]]; [by left|]. destruct (j - length l)%nat eqn:Hd; simplify_eq/=.
    right. split; [lia|done].
  - intros [?|[-> ->]]; [by left|]. right. by rewrite Nat.sub_diag.
Qed.

Lemma scan_best_spec l :
  match scan_best ok better 0 l None with
  | None => ∀ j q, l !! j = Some q → ok q = false
  | Some (k, b) => best_of l k b
  end.
Proof.
  induction l as [|p l IH] using rev_ind; [done|].
  rewrite scan_best_app. cbn [scan_best]. rewrite Nat.add_0_l.
  destruct (ok p) eqn:Hok; cbn [negb].
  - destruct (scan_best ok better 0 l None) as [[k b]|]; cbn.
    + destruct IH as (Hk & Hokb & Hmin & Hfirst). pose proof (lookup_lt_Some _ _ _ Hk).
      rewrite Hbetter. destruct (f p <? f b) eqn:Hlt, (g p) eqn:Hg; cbn [andb]; bool_props.
      1: { split; [apply lookup_snoc; by right|]. split; [done|]. split.
           - intros j q [Hj|[_ ->]]%lookup_snoc ??; [|lia]. specialize (Hmin j q Hj ltac:(done) ltac:(done)). lia.
           - right. split; [done|]. intros j q Hjl [Hj|[-> _]]%lookup_snoc ??; [|lia].
             specialize (Hmin j q Hj ltac:(done) ltac:(done)). lia. }
      all: split; [apply lookup_snoc; by left|]; split; [done|]; split;
        [intros j q [Hj|[-> ->]]%lookup_snoc ??; [by eapply Hmin|congruence || lia]
        |destruct Hfirst as [Hf|[Hgb Hf]]; [left|right; split; [done|]];
         intros j q Hjk [Hj|[-> _]]%lookup_snoc; [by eapply Hf|lia|by eapply Hf|lia]].
    + rewrite Hbetter, Z.ltb_irrefl. simpl.
      split; [apply lookup_snoc; by right|]. split; [done|]. split.
      * intros j q [Hj|[_ ->]]%lookup_snoc Hq _; [|lia]. rewrite (IH j q Hj) in Hq. done.
      * left. intros j q Hjk [Hj|[-> _]]%lookup_snoc; [by eapply IH|lia].
  - destruct (scan_best ok better 0 l None) as [[k b]|].
    + destruct IH as (Hk & Hokb & Hmin & Hfirst). pose proof (lookup_lt_Some _ _ _ Hk).
      split; [apply lookup_snoc; by left|]. split; [done|]. split.
      * intros j q [Hj|[_ ->]]%lookup_snoc ??; [by eapply Hmin|congruence].
      * destruct Hfirst as [Hf|[Hgb Hf]]; [left|right; split; [done|]];
          intros j q Hjk [Hj|[-> _]]%lookup_snoc; [by eapply Hf|lia|by eapply Hf|lia].
    + intros j q [Hj|[_ ->]]%lookup_snoc; [by eapply IH|done].
Qed.

End Scan.

Lemma sjf_best t l :
  match shortest_job_first t l with
  | Some i => ∃ b, best_of (runnable_in SJF) (λ p, burst_time (ti p))
                     (λ p, t mod 100 <? confidence (ti p)) l i b
  | None => ∀ j q, l !! j = Some q → runnable_in SJF q = false
  end.
Proof.
  unfold shortest_job_first.
  match goal with |- context [scan_best ?ok ?better _ _ _] =>
    pose proof (scan_best_spec ok better (λ p, burst_time (ti p))
      (λ p, t mod 100 <? confidence (ti p)) ltac:(intros p b; simpl; by destruct (_ <? _)) l) as Hs
  end.
  destruct (scan_best _ _ 0 l None) as [[k b]|]; [by exists b|exact Hs].
Qed.

Lemma fcfs_best l :
  match first_come_first_service l with
  | Some i => ∃ b, best_of (runnable_in FCFS) (λ p, enter_queue_time (ti p)) (λ _, true) l i b
  | None => ∀ j q, l !! j = Some q → runnable_in FCFS q = false
  end.
Proof.
  unfold first_come_first_service.
  match goal with |- context [scan_best ?ok ?better _ _ _] =>
    pose proof (scan_best_spec ok better (λ p, enter_queue_time (ti p)) (λ _, true)
      ltac:(intros p b; simpl; by rewrite andb_true_r) l) as Hs
  end.
  destruct (scan_best _ _ 0 l None) as [[k b]|]; [by exists b|exact Hs].
Qed.

(** [shortest_job_first] returns null exactly when its queue has no runnable
    process; the process it returns is runnable in that queue, and no process of
    the queue whose confidence exceeds the draw [ticks % 100] has a shorter burst
    time. *)
Theorem shortest_job_first_spec t l :
  match shortest_job_first t l with
  | Some i => ∃ b, l !! i = Some b ∧ state b = RUNNABLE ∧ queue (ti b) = SJF ∧
      ∀ j q, l !! j = Some q → state q = RUNNABLE → queue (ti q) = SJF →
        t mod 100 < confidence (ti q) → burst_time (ti b) ≤ burst_time (ti q)
  | None => ∀ j q, l !! j = Some q → ¬ (state q = RUNNABLE ∧ queue (ti q) = SJF)
  end.
Proof.
  pose proof (sjf_best t l) as Hs. destruct (shortest_job_first t l) as [i|].
  - destruct Hs as (b & Hi & Hok & Hmin & _). apply andb_prop in Hok as [Hr Hq]. bool_props.
    exists b. split_and!; [done..|]. intros j q Hj Hs Hqq Hc.
    apply (Hmin j); [done| |by apply Z.ltb_lt].
    unfold runnable_in. by rewrite bool_decide_eq_true_2, (proj2 (Z.eqb_eq _ _) Hqq).
  - intros j q Hj [Hr Hq]. specialize (Hs j q Hj). unfold runnable_in in Hs.
    by rewrite bool_decide_eq_true_2, (proj2 (Z.eqb_eq _ _) Hq) in Hs.
Qed.

(** [first_come_first_service] returns null exactly when its queue has no
    runnable process; the process it returns is runnable in that queue, entered
    the queue no later than any other, and has the lowest slot among those that
    entered at the same time. *)
Theorem first_come_first_service_spec l :
  match first_come_first_service l with
  | Some i => ∃ b, l !! i = Some b ∧ state b = RUNNABLE ∧ queue (ti b) = FCFS ∧
      ∀ j q, l !! j = Some q → state q = RUNNABLE → queue (ti q) = FCFS →
        enter_queue_time (ti b) ≤ enter_queue_time (ti q) ∧
        ((j < i)%nat → enter_queue_time (ti b) < enter_queue_time (ti q))
  | None => ∀ j q, l !! j = Some q → ¬ (state q = RUNNABLE ∧ queue (ti q) = FCFS)
  end.
Proof.
  pose proof (fcfs_best l) as Hs. destruct (first_come_first_service l) as [i|].
  - destruct Hs as (b & Hi & Hok & Hmin & Hfirst). apply andb_prop in Hok as [Hr Hq]. bool_props.
    exists b. split_and!; [done..|]. intros j q Hj Hs Hqq.
    assert (runnable_in FCFS q = true) as Hokq.
    { unfold runnable_in. by rewrite bool_decide_eq_true_2, (proj2 (Z.eqb_eq _ _) Hqq). }
    split; [by apply (Hmin j)|]. intros Hji.
    destruct Hfirst as [Hf|[_ Hf]]; [|by apply (Hf j)].
    rewrite (Hf j q Hji Hj) in Hokq. done.
  - intros j q Hj [Hr Hq]. specialize (Hs j q Hj). unfold runnable_in in Hs.
    by rewrite bool_decide_eq_true_2, (proj2 (Z.eqb_eq _ _) Hq) in Hs.
Qed.

(** ** An iteration of the scheduler *)

Section Iter.
Context {W : Type} `{Lower W}.
Implicit Types s : kstate W.

(** The pick of a queue: a runnable process of it, if there is one. *)
Definition pick_ok (q : Z) (l : list proc) (r : option nat) : Prop :=
  match r with
  | Some i => ∃ p, l !! i = Some p ∧ runnable_in q p = true
  | None => ∀ j p, l !! j = Some p → runnable_in q p = false
  end.

Lemma rr_pick l last :
  length l = NPROC → (last < NPROC)%nat → pick_ok RR l (round_robin l last).
Proof.
  intros Hlen Hlast. rewrite round_robin_order by done.
  destruct (List.find _ _) as [i|] eqn:Hf.
  - apply List.find_some in Hf as [Hin Hr]. unfold rr_order in Hin.
    rewrite in_app_iff, !in_seq in Hin. destruct (lookup_lt_is_Some_2 l i) as [p Hp]; [lia|].
    exists p. unfold slot in Hr. by rewrite Hp in Hr.
  - intros j p Hj. assert (runnable_in RR (slot l j) = false) as Hr.
    { apply (List.find_none _ _ Hf). unfold rr_order. apply in_app_iff. rewrite !in_seq.
      pose proof (lookup_lt_Some _ _ _ Hj). lia. }
    unfold slot in Hr. by rewrite Hj in Hr.
Qed.

Lemma sjf_pick t l : pick_ok SJF l (shortest_job_first t l).
Proof.
  pose proof (sjf_best t l) as Hs. destruct (shortest_job_first t l); [|exact Hs].
  destruct Hs as (b & ? & ? & _). by exists b.
Qed.

Lemma fcfs_pick l : pick_ok FCFS l (first_come_first_service l).
Proof.
  pose proof (fcfs_best l) as Hs. destruct (first_come_first_service l); [|exact Hs].
  destruct Hs as (b & ? & ? & _). by exists b.
Qed.

(** The time a CPU has left for queue [q]. *)
Definition remain (q : Z) (c : cpu) : Z :=
  if q =? RR then RR_remain_time c else if q =? SJF then SJF_remain_time c
  else if q =? FCFS then FCFS_remain_time c else 0.

(** Some process is runnable in queue [q]. *)
Definition candidate (q : Z) s : Prop :=
  ∃ j p, ptable s !! j = Some p ∧ state p = RUNNABLE ∧ queue (ti p) = q.

(** Runnable processes have what [switchuvm] insists on. *)
Definition ready s : Prop :=
  ∀ j p, ptable s !! j = Some p → state p = RUNNABLE → kstack p ≠ 0 ∧ pgdir p ≠ 0.

Lemma runnable_in_true q p : runnable_in q p = true ↔ state p = RUNNABLE ∧ queue (ti p) = q.
Proof. unfold runnable_in. by rewrite andb_true_iff, bool_decide_eq_true, Z.eqb_eq. Qed.

Lemma pick_none q s b (r : option nat) :
  pick_ok q (ptable s) r → (if b : bool then r else None) = None → b = true → ¬ candidate q s.
Proof.
  intros Hp Hr -> (j & p & Hj & Hc). subst r. specialize (Hp j p Hj).
  apply runnable_in_true in Hc. congruence.
Qed.

Lemma pick_some q s b (r : option nat) i :
  pick_ok q (ptable s) r → (if b : bool then r else None) = Some i →
  b = true ∧ ∃ p, ptable s !! i = Some p ∧ state p = RUNNABLE ∧ queue (ti p) = q.
Proof.
  intros Hp Hr. destruct b; [|done]. subst r. destruct Hp as (p & Hi & Hc).
  apply runnable_in_true in Hc. eauto.
Qed.

(** CPU [me] switched from [s] to process [i]: it is [RUNNING] and current, and
    nothing else of the table has changed. *)
Definition dispatched (me i : nat) s s' : Prop :=
  ∃ p, ptable s !! i = Some p ∧ ptable s' = <[i := set_state RUNNING p]> (ptable s) ∧
  c_proc (cpu_at me s') = Some i ∧ ts_esp0 (cpu_at me s') = u32 (kstack p + KSTACKSIZE) ∧
  nextpid s' = nextpid s ∧ initproc s' = initproc s ∧ ticks s' = ticks s ∧ low s' = low s.

Lemma run_process_on_cpu_ok me i p c s :
  (me < length (cpus s))%nat → ptable s !! i = Some p → kstack p ≠ 0 → pgdir p ≠ 0 →
  ∃ s', run_process_on_cpu me i c s = Ret tt c s' ∧ dispatched me i s s'.
Proof.
  intros Hme Hi Hk Hd. destruct (lookup_lt_is_Some_2 (cpus s) me Hme) as [cp Hcp].
  unfold run_process_on_cpu, switchuvm, mbind, M_bind, upd_cpu, upd, modify, get, proc_at. simpl.
  rewrite Hi. simpl. rewrite (proj2 (Z.eqb_neq _ _) Hk), (proj2 (Z.eqb_neq _ _) Hd). simpl.
  eexists. split; [done|]. exists p. simpl. unfold cpu_at. simpl.
  rewrite !list_lookup_alter_eq, Hcp. split_and!; try done.
  apply list_eq. intros j. destruct (decide (i = j)) as [<-|].
  - rewrite list_lookup_alter_eq, Hi, list_lookup_insert_eq by (by eapply lookup_lt_Some). done.
  - by rewrite list_lookup_alter_ne, list_lookup_insert_ne.
Qed.

(** The post-condition of an iteration. *)
Definition iter_post (me last : nat) (c : ctx) s (r : turn * nat) (c' : ctx) s' : Prop :=
  match r with
  | (Ran i, last') =>
      held c' = Lptable :: held c ∧ dispatched me i s s' ∧
      ∃ p, ptable s !! i = Some p ∧ state p = RUNNABLE ∧
        queue (ti p) ∈ [RR; SJF; FCFS] ∧ 0 < remain (queue (ti p)) (cpu_at me s) ∧
        (∀ q, 0 ≤ q < queue (ti p) → 0 < remain q (cpu_at me s) → ¬ candidate q s) ∧
        last' = if queue (ti p) =? RR then i else last
  | (Refilled, last') =>
      c' = c ∧ last' = last ∧ ptable s' = ptable s ∧ length (cpus s') = length (cpus s) ∧
      (∀ q, 0 < remain q (cpu_at me s) → ¬ candidate q s) ∧
      RR_remain_time (cpu_at me s') = 30 ∧ SJF_remain_time (cpu_at me s') = 20 ∧
      FCFS_remain_time (cpu_at me s') = 10
  end.

Lemma wp_run me last i lst c s (b : bool) q r :
  ready s → (me < length (cpus s))%nat → Lptable ∉ held c →
  pick_ok q (ptable s) r → (if b then r else None) = Some i →
  q ∈ [RR; SJF; FCFS] → (b = true → 0 < remain q (cpu_at me s)) →
  (∀ q', 0 ≤ q' < q → 0 < remain q' (cpu_at me s) → ¬ candidate q' s) →
  lst = (if q =? RR then i else last) →
  wp (run_process_on_cpu me i;; mret (Ran i, lst)) (iter_post me last c s) never
     (Ctx (Lptable :: held c) (trace c)) s.
Proof.
  intros Hready Hme Hheld Hpick Hr Hq Hrem Hhigh ->.
  destruct (pick_some _ _ _ _ _ Hpick Hr) as (Hb & p & Hi & Hrun & Hpq).
  destruct (Hready i p Hi Hrun) as [Hk Hd].
  destruct (run_process_on_cpu_ok me i p (Ctx (Lptable :: held c) (trace c)) s Hme Hi Hk Hd)
    as (s' & Hs' & Hd').
  apply wp_bind. unfold wp. rewrite Hs'. simpl. split; [done|]. split; [done|].
  exists p. rewrite Hpq. split_and!; auto.
Qed.

Lemma scheduler_iter_ok me last c s :
  ready s → length (ptable s) = NPROC → (last < NPROC)%nat → (me < length (cpus s))%nat →
  Lptable ∉ held c → wp (scheduler_iter me last) (iter_post me last c s) never c s.
Proof.
  intros Hready Hlen Hlast Hme Hheld. unfold scheduler_iter.
  apply wp_bind, wp_acquire; [done|]. apply wp_bind. unfold wp at 1. simpl.
  pose proof (rr_pick (ptable s) last Hlen Hlast) as HR.
  pose proof (sjf_pick (ticks s) (ptable s)) as HS. pose proof (fcfs_pick (ptable s)) as HF.
  destruct (if 0 <? RR_remain_time _ then _ else None) as [i|] eqn:H1.
  { apply (wp_run me last i _ c s _ RR _ Hready Hme Hheld HR H1);
      [set_solver|by intros ?%Z.ltb_lt|unfold RR; lia|done]. }
  destruct (if 0 <? SJF_remain_time _ then _ else None) as [i|] eqn:H2.
  { apply (wp_run me last i _ c s _ SJF _ Hready Hme Hheld HS H2);
      [set_solver|by intros ?%Z.ltb_lt| |done].
    intros q' Hq'. assert (q' = RR) as -> by (unfold SJF, RR in *; lia).
    intros Hrem%Z.ltb_lt. by apply (pick_none RR s _ _ HR H1). }
  destruct (if 0 <? FCFS_remain_time _ then _ else None) as [i|] eqn:H3.
  { apply (wp_run me last i _ c s _ FCFS _ Hready Hme Hheld HF H3);
      [set_solver|by intros ?%Z.ltb_lt| |done].
    intros q' Hq'. assert (q' = RR ∨ q' = SJF) as [-> | ->] by (unfold SJF, RR, FCFS in *; lia);
    intros Hrem%Z.ltb_lt; [by apply (pick_none RR s _ _ HR H1)|by apply (pick_none SJF s _ _ HS H2)]. }
  apply wp_bind. unfold wp at 1. simpl. apply wp_bind, wp_release; [done|]. apply wp_ret. simpl.
  destruct (lookup_lt_is_Some_2 (cpus s) me Hme) as [cp Hcp].
  split_and!; [by destruct c|done|done|by rewrite length_alter| |
    unfold cpu_at; simpl; by rewrite list_lookup_alter_eq, Hcp ..].
  intros q. unfold remain. destruct (Z.eqb_spec q RR) as [->|].
  { intros Hrem%Z.ltb_lt. by apply (pick_none RR s _ _ HR H1). }
  destruct (Z.eqb_spec q SJF) as [->|].
  { intros Hrem%Z.ltb_lt. by apply (pick_none SJF s _ _ HS H2). }
  destruct (Z.eqb_spec q FCFS) as [->|]; [|done].
  intros Hrem%Z.ltb_lt. by apply (pick_none FCFS s _ _ HF H3).
Qed.

(** An iteration of [scheduler] never panics when runnable processes have
    their kernel stack and page table.  It either runs a runnable process whose
    queue has time left, with no runnable process in a higher queue that has
    time left, or, when no queue with time left has a runnable process, refills
    the time of the three queues to 30, 20 and 10 ticks and releases
    [ptable.lock]. *)
Theorem scheduler_iter_spec me last c s :
  ready s → length (ptable s) = NPROC → (last < NPROC)%nat → (me < length (cpus s))%nat →
  Lptable ∉ held c →
  ∃ r c' s', scheduler_iter me last c s = Ret r c' s' ∧ iter_post me last c s r c' s'.
Proof. intros. by apply wp_Ret, scheduler_iter_ok. Qed.

(** C25: The scheduler is work-conserving: if some process is runnable in one of
    the three queues, then within two iterations (the first refilling the
    queues' time) a process runs. *)
Theorem scheduler_work_conserving me last c s :
  ready s → length (ptable s) = NPROC → (last < NPROC)%nat → (me < length (cpus s))%nat →
  Lptable ∉ held c → (candidate RR s ∨ candidate SJF s ∨ candidate FCFS s) →
  (∃ i l' c' s', scheduler_iter me last c s = Ret (Ran i, l') c' s') ∨
  (∃ s1 i l' c' s', scheduler_iter me last c s = Ret (Refilled, last) c s1 ∧
     scheduler_iter me last c s1 = Ret (Ran i, l') c' s').
Proof.
  intros Hr Hlen Hlast Hme Hheld Hc.
  destruct (wp_Ret _ _ _ _ (scheduler_iter_ok me last c s Hr Hlen Hlast Hme Hheld))
    as ([[i|] l'] & c1 & s1 & E1 & P1); [left; by eauto|right].
  destruct P1 as (-> & -> & Hpt & Hcp & _ & H1 & H2 & H3).
  assert (ready s1) as Hr1 by (unfold ready; by rewrite Hpt).
  assert (length (ptable s1) = NPROC) as Hlen1 by congruence.
  assert (me < length (cpus s1))%nat as Hme1 by lia.
  destruct (wp_Ret _ _ _ _ (scheduler_iter_ok me last c s1 Hr1 Hlen1 Hlast Hme1 Hheld))
    as ([[i|] l'] & c2 & s2 & E2 & P2); [by eauto 10|].
  destruct P2 as (_ & _ & _ & _ & Hn & _). exfalso.
  assert (∀ q, candidate q s → candidate q s1) as Hcand by (unfold candidate; by rewrite Hpt).
  destruct Hc as [Hc|[Hc|Hc]]; eapply Hn; try apply Hcand, Hc; unfold remain; simpl; lia.
Qed.

End Iter.

(** ** Sample states *)

(** A machine with two CPUs, a runnable process in slot 5 (first come first
    served) and one in slot 9 (shortest job first), and time left only for
    queues without a candidate. *)
Definition sample_proc (n q burst : Z) : proc :=
  Proc 4096 0x80100000 0x80200000 RUNNABLE n (Some 0%nat) tf0 Csched None 0
       (replicate NOFILE None) None "sample" (replicate MAX_SYSCALLS 0) (TI q 0 burst 7 7 0 50).
Definition sample_table : list proc :=
  <[5%nat := sample_proc 3 FCFS 2]> (<[9%nat := sample_proc 4 SJF 1]> (replicate NPROC proc0)).
Definition sample_state : kstate unit :=
  KS sample_table 5 None 1000 [set_remain 3 0 0 cpu0; cpu0] false 0x80300000 0 Reentrant.rinit tt.

Lemma sample_ready : ready sample_state.
Proof.
  intros j p [(_ & <- & _)|[_ Hj]]%list_lookup_insert_Some Hs; [done|].
  apply list_lookup_insert_Some in Hj as [(_ & <- & _)|[_ Hj]]; [done|].
  apply lookup_replicate in Hj as [-> _]. done.
Qed.

Lemma round_robin_spec_witness :
  (3 < NPROC)%nat ∧
  match round_robin sample_table 3 with
  | Some i => ∃ before after, rr_order 3 = before ++ i :: after ∧
      runnable_in RR (slot sample_table i) = true ∧
      ∀ j, j ∈ before → runnable_in RR (slot sample_table j) = false
  | None => ∀ j, (j < NPROC)%nat → runnable_in RR (slot sample_table j) = false
  end.
Proof. split; [unfold NPROC; lia|]. apply (round_robin_spec sample_table 3). unfold NPROC. lia. Defined.

(** Two processes of the round robin queue: the one in slot 2 ran last. *)
Lemma round_robin_repicks_witness :
  let l := <[2%nat := sample_proc 3 RR 2]> (<[9%nat := sample_proc 4 RR 1]> (replicate NPROC proc0)) in
  runnable_in RR (slot l 9) = true ∧ round_robin l 2 = Some 2%nat.
Proof.
  split; [done|]. apply round_robin_repicks; [unfold NPROC; lia|done|done].
Defined.

Lemma scheduler_iter_spec_witness :
  ∃ r c' s', scheduler_iter 0 63 (Ctx [] []) sample_state = Ret r c' s' ∧
    iter_post 0 63 (Ctx [] []) sample_state r c' s'.
Proof.
  apply scheduler_iter_spec; [apply sample_ready|done|unfold NPROC; lia|simpl; lia|simpl; set_solver].
Defined.

Lemma scheduler_work_conserving_witness :
  (∃ i l' c' s', scheduler_iter 0 63 (Ctx [] []) sample_state = Ret (Ran i, l') c' s') ∨
  (∃ s1 i l' c' s', scheduler_iter 0 63 (Ctx [] []) sample_state = Ret (Refilled, 63%nat) (Ctx [] []) s1 ∧
     scheduler_iter 0 63 (Ctx [] []) s1 = Ret (Ran i, l') c' s').
Proof.
  apply scheduler_work_conserving;
    [apply sample_ready|done|unfold NPROC; lia|simpl; lia|simpl; set_solver|].
  right. left. exists 9%nat, (sample_proc 4 SJF 1). done.
Defined.
