(* ===== verification/ProcInv.v ===== *)
(** * Invariants of the process table

    Process operations as steps of a transition system, and what every
    reachable table satisfies: process ids are unique, every child has a live
    parent, and a parent asleep in [wait] has no zombie child. *)

From S2P Require Import Prelude Proc Sched.

(** ** Table facts *)

Lemma find_from_Some P k l i :
  find_from P k l = Some i →
  ∃ j p, i = (k + j)%nat ∧ l !! j = Some p ∧ P p = true ∧
         ∀ j' p', (j' < j)%nat → l !! j' = Some p' → P p' = false.
Proof.
  revert k; induction l as [|p l IH]; intros k; simpl; [done|].
  destruct (P p) eqn:HP.
  - intros [= <-]. exists 0%nat, p. split; [lia|]. split; [done|]. split; [done|]. lia.
  - intros (j & q & -> & Hj & Hq & Hmin)%IH. exists (S j), q.
    split; [lia|]. split; [done|]. split; [done|].
    intros [|j'] p' Hlt Hp'; simpl in Hp'; [by simplify_eq|]. eapply (Hmin j'); [lia|done].
Qed.

Lemma find_proc_Some P l i :
  find_proc P l = Some i →
  ∃ p, l !! i = Some p ∧ P p = true ∧ ∀ j q, (j < i)%nat → l !! j = Some q → P q = false.
Proof. intros (j & p & -> & ? & ? & ?)%find_from_Some. exists p. simpl. eauto. Qed.

Lemma find_from_None P k l : find_from P k l = None → ∀ i p, l !! i = Some p → P p = false.
Proof.
  revert k; induction l as [|q l IH]; intros k; simpl; [done|].
  destruct (P q) eqn:HP; [done|]. intros Hn [|i] p Hi; simpl in Hi; [by simplify_eq|eauto].
Qed.

Lemma find_proc_None P l : find_proc P l = None → ∀ i p, l !! i = Some p → P p = false.
Proof. apply find_from_None. Qed.

(** The first match is the match when there is only one. *)
Lemma find_proc_unique P l i p :
  l !! i = Some p → P p = true → (∀ j q, l !! j = Some q → P q = true → j = i) →
  find_proc P l = Some i.
Proof.
  intros Hi HP Huniq. destruct (find_proc P l) as [j|] eqn:Hf.
  - apply find_proc_Some in Hf as (q & Hj & HPq & _). by rewrite (Huniq j q).
  - pose proof (find_proc_None P l Hf i p Hi). congruence.
Qed.

(** Step through an operation up to its next branch. *)
Ltac wstep :=
  match goal with
  | |- wlp (mbind _ _) _ _ _ _ => apply wlp_bind
  | |- wlp (mret _) _ _ _ _ => apply wlp_ret
  | |- wlp (acquire _) _ _ _ _ => apply wlp_acquire
  | |- wlp (release _) _ _ _ _ => apply wlp_release; intros ?
  | |- wlp get _ _ _ _ => apply wlp_get
  | |- wlp (gets _) _ _ _ _ => apply wlp_gets
  | |- wlp (modify _) _ _ _ _ => apply wlp_modify
  | |- wlp (emit _) _ _ _ _ => apply wlp_emit; intros ?
  | |- wlp (panic _) _ _ _ _ => apply wlp_panic
  | |- wlp null_dereference _ _ _ _ => apply wlp_panic
  | |- wlp (asleep _) _ _ _ _ => apply wlp_asleep
  end; cbv beta zeta.
Ltac wsteps := repeat wstep.

Section Inv.
Context {W : Type} `{Lower W} (junk_tf : trapframe).
Implicit Types s : kstate W.

(** ** Stepping through the operations *)

Lemma wlp_upd i f (Q : unit → ctx → kstate W → Prop) R c s :
  Q tt c (with_ptable (alter f i (ptable s)) s) → wlp (upd i f) Q R c s.
Proof. done. Qed.

(** A call into the components below changes only [low]. *)
Lemma wlp_lift {A} (m : M W A) (Q : A → ctx → kstate W → Prop) R c s :
  (∀ a c' w, Q a c' (with_low w s)) →
  (∀ ch c' w, m c (low s) = Sleep ch c' w → R ch c' (with_low w s)) →
  wlp (lift m) Q R c s.
Proof. intros HQ HR. unfold wlp, lift, zoom. destruct (m c (low s)) eqn:?; eauto. Qed.

Lemma ptable_with_ptable l s : ptable (with_ptable l s) = l.
Proof. done. Qed.

Lemma proc_at_alter_eq i f l s p :
  l !! i = Some p → proc_at i (with_ptable (alter f i l) s) = f p.
Proof. intros Hi. unfold proc_at. simpl. by rewrite list_lookup_alter_eq, Hi. Qed.

Lemma alter_lookup i j f (l : list proc) p :
  alter f i l !! j = Some p ↔ ∃ q, l !! j = Some q ∧ p = (if decide (i = j) then f q else q).
Proof.
  destruct (decide (i = j)) as [->|Hne].
  - rewrite list_lookup_alter_eq, fmap_Some. done.
  - rewrite list_lookup_alter_ne by done. naive_solver.
Qed.

(** ** The invariant *)

Definition alive (x : procstate) : Prop := x = SLEEPING ∨ x = RUNNABLE ∨ x = RUNNING.

Record tinv (l : list proc) (np : Z) (ini : option nat) : Prop := {
  t_len : length l = NPROC;
  t_np : 0 < np;
  t_pid i p : l !! i = Some p → pid p ≠ 0 → 0 < pid p < np;
  t_uniq i j p q : l !! i = Some p → l !! j = Some q → pid p = pid q → pid p ≠ 0 → i = j;
  t_live i p : l !! i = Some p → state p ≠ UNUSED → pid p ≠ 0;
  t_unused i p : l !! i = Some p → state p = UNUSED → parent p = None;
  t_parent i p j : l !! i = Some p → parent p = Some j → ∃ q, l !! j = Some q ∧ alive (state q);
  t_wait i p j q : l !! i = Some p → parent p = Some j → l !! j = Some q →
    state p = ZOMBIE → ¬ (state q = SLEEPING ∧ pchan q = Some (ChProc j));
  t_self i p : l !! i = Some p → parent p ≠ Some i;
  t_init j : ini = Some j → ∃ q, l !! j = Some q ∧ alive (state q) ∧ parent q = None }.

Definition pinv s : Prop := tinv (ptable s) (nextpid s) (initproc s).

(** Slot by slot relation between two tables. *)
Definition tmap (R : nat → proc → proc → Prop) (l l' : list proc) : Prop :=
  length l' = length l ∧
  ∀ i p p', l !! i = Some p → l' !! i = Some p' → R i p p'.

Lemma tmap_back R l l' i p' :
  tmap R l l' → l' !! i = Some p' → ∃ p, l !! i = Some p ∧ R i p p'.
Proof.
  intros [Hlen HR] Hi. destruct (lookup_lt_is_Some_2 l i) as [p Hp].
  { rewrite <- Hlen. by eapply lookup_lt_Some. }
  eauto.
Qed.

Lemma tmap_forth R l l' i p :
  tmap R l l' → l !! i = Some p → ∃ p', l' !! i = Some p' ∧ R i p p'.
Proof.
  intros [Hlen HR] Hi. destruct (lookup_lt_is_Some_2 l' i) as [p' Hp'].
  { rewrite Hlen. by eapply lookup_lt_Some. }
  eauto.
Qed.

Lemma tmap_alter (R : nat → proc → proc → Prop) k f l :
  (∀ i p, i ≠ k → l !! i = Some p → R i p p) → (∀ p, l !! k = Some p → R k p (f p)) →
  tmap R l (alter f k l).
Proof.
  intros Hid Hf. split; [by rewrite length_alter|].
  intros i p p' Hi Hi'. apply alter_lookup in Hi' as (q & Hq & ->). simplify_eq.
  destruct (decide (k = i)) as [->|]; eauto.
Qed.

Lemma tmap_fmap (R : nat → proc → proc → Prop) f l :
  (∀ i p, l !! i = Some p → R i p (f p)) → tmap R l (f <$> l).
Proof.
  intros Hf. split; [by rewrite length_fmap|].
  intros i p p' Hi Hi'. apply list_lookup_fmap_Some in Hi' as (q & -> & Hq). simplify_eq. eauto.
Qed.

(** A change that is neither birth, death nor falling asleep in [wait]. *)
Record quiet (i : nat) (p p' : proc) : Prop := {
  q_pid : pid p' = pid p;
  q_parent : parent p' = parent p;
  q_unused : state p' = UNUSED ↔ state p = UNUSED;
  q_zombie : state p' = ZOMBIE ↔ state p = ZOMBIE;
  q_alive : alive (state p) → alive (state p');
  q_sleep : state p' = SLEEPING ∧ pchan p' = Some (ChProc i) →
            state p = SLEEPING ∧ pchan p = Some (ChProc i) }.

Lemma quiet_refl i p : quiet i p p.
Proof. by split. Qed.

Lemma tinv_quiet l l' np ini : tinv l np ini → tmap quiet l l' → tinv l' np ini.
Proof.
  intros [Hlen Hnp0 Hpid Huniq Hlive Hun Hpar Hwait Hself Hini] Hm. split.
  - by rewrite (proj1 Hm).
  - done.
  - intros i p' Hi Hne. destruct (tmap_back _ _ _ _ _ Hm Hi) as (p & Hp & Hq).
    rewrite (q_pid _ _ _ Hq) in *. eauto.
  - intros i j p' q' Hi Hj Heq Hne.
    destruct (tmap_back _ _ _ _ _ Hm Hi) as (p & Hp & Hqp).
    destruct (tmap_back _ _ _ _ _ Hm Hj) as (q & Hq & Hqq).
    rewrite (q_pid _ _ _ Hqp), (q_pid _ _ _ Hqq) in *. eauto.
  - intros i p' Hi Hst. destruct (tmap_back _ _ _ _ _ Hm Hi) as (p & Hp & Hq).
    rewrite (q_pid _ _ _ Hq). apply (Hlive i p Hp). by rewrite <- (q_unused _ _ _ Hq).
  - intros i p' Hi Hst. destruct (tmap_back _ _ _ _ _ Hm Hi) as (p & Hp & Hq).
    rewrite (q_parent _ _ _ Hq). apply (Hun i p Hp). by apply (q_unused _ _ _ Hq).
  - intros i p' j Hi Hj. destruct (tmap_back _ _ _ _ _ Hm Hi) as (p & Hp & Hq).
    rewrite (q_parent _ _ _ Hq) in Hj. destruct (Hpar i p j Hp Hj) as (r & Hr & Ha).
    destruct (tmap_forth _ _ _ _ _ Hm Hr) as (r' & Hr' & Hqr). exists r'. split; [done|].
    by apply (q_alive _ _ _ Hqr).
  - intros i p' j r' Hi Hj Hr' Hz Hs.
    destruct (tmap_back _ _ _ _ _ Hm Hi) as (p & Hp & Hq).
    destruct (tmap_back _ _ _ _ _ Hm Hr') as (r & Hr & Hqr).
    rewrite (q_parent _ _ _ Hq) in Hj. apply (q_zombie _ _ _ Hq) in Hz.
    by apply (Hwait i p j r Hp Hj Hr Hz), (q_sleep _ _ _ Hqr).
  - intros i p' Hi. destruct (tmap_back _ _ _ _ _ Hm Hi) as (p & Hp & Hq).
    rewrite (q_parent _ _ _ Hq). eauto.
  - intros j Hj. destruct (Hini j Hj) as (r & Hr & Ha & Hn).
    destruct (tmap_forth _ _ _ _ _ Hm Hr) as (r' & Hr' & Hqr). exists r'.
    split; [done|]. split; [by apply (q_alive _ _ _ Hqr)|]. by rewrite (q_parent _ _ _ Hqr).
Qed.

Lemma tinv_alter_quiet l np ini k f :
  tinv l np ini → (∀ p, l !! k = Some p → quiet k p (f p)) → tinv (alter f k l) np ini.
Proof. intros ? Hf. eapply tinv_quiet; [done|]. apply tmap_alter; eauto using quiet_refl. Qed.

Lemma wake_quiet ch i p : quiet i p (wake ch p).
Proof.
  unfold wake. destruct (bool_decide_reflect (state p = SLEEPING)) as [Hs|]; simpl; [|apply quiet_refl].
  destruct (bool_decide _); [|apply quiet_refl].
  split; simpl; try done; rewrite ?Hs; try done; [|naive_solver]. intros _. right. by left.
Qed.

Lemma tinv_wake l np ini ch : tinv l np ini → tinv (wake ch <$> l) np ini.
Proof. intros. eapply tinv_quiet; [done|]. apply tmap_fmap. intros. apply wake_quiet. Qed.

(** ** Births *)

Lemma alter_insert_same (l : list proc) i p f :
  (i < length l)%nat → alter f i (<[i := p]> l) = <[i := f p]> l.
Proof.
  intros Hi. apply list_eq. intros j. destruct (decide (i = j)) as [->|Hne].
  - rewrite list_lookup_alter_eq, !list_lookup_insert_eq by done. done.
  - by rewrite list_lookup_alter_ne, !list_lookup_insert_ne.
Qed.

Lemma alter_insert (l : list proc) i p f : l !! i = Some p → alter f i l = <[i := f p]> l.
Proof.
  intros Hi. rewrite <- (list_insert_id l i p Hi) at 1.
  apply alter_insert_same. by eapply lookup_lt_Some.
Qed.

(** A free slot [i] becomes a process with the next pid. *)
Lemma tinv_birth l np ini i p p' :
  tinv l np ini → 0 < np → l !! i = Some p → state p = UNUSED →
  pid p' = np → state p' ≠ ZOMBIE →
  (∀ j, parent p' = Some j → state p' ≠ UNUSED ∧ ∃ q, l !! j = Some q ∧ alive (state q)) →
  tinv (<[i := p']> l) (np + 1) ini.
Proof.
  intros [Hlen Hnp0 Hpid Huniq Hlive Hun Hpar Hwait Hself Hini] Hnp Hi Hfree Hpid' Hnz Hp'.
  assert (∀ j q, l !! j = Some q → alive (state q) → j ≠ i) as Hnei.
  { intros j q Hj Ha ->. simplify_eq. rewrite Hfree in Ha. by destruct Ha as [?|[?|?]]. }
  split.
  - by rewrite length_insert.
  - lia.
  - intros j q Hj Hne. apply list_lookup_insert_Some in Hj as [(_ & -> & _)|[_ Hj]]; [lia|].
    pose proof (Hpid _ _ Hj Hne). lia.
  - intros j k q r Hj Hk Heq Hne.
    apply list_lookup_insert_Some in Hj as [(-> & <- & _)|[Hji Hj]];
      apply list_lookup_insert_Some in Hk as [(-> & <- & _)|[Hki Hk]]; [done|..|by eauto].
    + assert (pid r ≠ 0) by congruence. pose proof (Hpid _ _ Hk ltac:(done)). lia.
    + pose proof (Hpid _ _ Hj Hne). lia.
  - intros j q Hj Hst. apply list_lookup_insert_Some in Hj as [(_ & <- & _)|[_ Hj]]; [lia|eauto].
  - intros j q Hj Hst. apply list_lookup_insert_Some in Hj as [(_ & <- & _)|[_ Hj]]; [|eauto].
    destruct (parent p') as [k|] eqn:Hk; [|done]. by destruct (Hp' k) as [? _].
  - intros j q k Hj Hk. assert (∃ r, l !! k = Some r ∧ alive (state r)) as (r & Hr & Ha).
    { apply list_lookup_insert_Some in Hj as [(_ & <- & _)|[_ Hj]]; [by apply Hp'|eauto]. }
    exists r. by rewrite list_lookup_insert_ne by (apply not_eq_sym; eauto).
  - intros j q k r Hj Hk Hr Hz.
    apply list_lookup_insert_Some in Hj as [(_ & <- & _)|[_ Hj]]; [done|].
    destruct (Hpar _ _ _ Hj Hk) as (r0 & Hr0 & Ha).
    rewrite list_lookup_insert_ne in Hr by (apply not_eq_sym; eauto). eauto.
  - intros j q Hj. apply list_lookup_insert_Some in Hj as [(<- & <- & _)|[_ Hj]]; [|eauto].
    intros Hk. destruct (Hp' i Hk) as (_ & r & Hr & Ha). by apply (Hnei i r).
  - intros j Hj. destruct (Hini j Hj) as (r & Hr & Ha & Hn). exists r.
    by rewrite list_lookup_insert_ne by (apply not_eq_sym; eauto).
Qed.

(** [s'] is [s] with slot [i], free in [s], turned into a process that has the
    next pid and satisfies [P]. *)
Definition born (i : nat) (P : proc → Prop) s s' : Prop :=
  nextpid s' = nextpid s + 1 ∧ initproc s' = initproc s ∧
  ∃ p p', ptable s !! i = Some p ∧ state p = UNUSED ∧ ptable s' = <[i := p']> (ptable s) ∧
    pid p' = nextpid s ∧ P p'.

(** In the making, with parent [par]; [par] is only recorded in a slot in use. *)
Definition embryo (par : option nat) (p : proc) : Prop :=
  state p ≠ ZOMBIE ∧ parent p = par ∧ (par = None ∨ state p ≠ UNUSED).

Lemma born_pinv i par s s' :
  pinv s → 0 < nextpid s → (∀ j, par = Some j → ∃ q, ptable s !! j = Some q ∧ alive (state q)) →
  born i (embryo par) s s' → pinv s'.
Proof.
  intros Hinv Hnp Hpar (Hn & Hini & p & p' & Hi & Hfree & Hpt & Hpid & Hnz & Hp & Hst).
  unfold pinv. rewrite Hn, Hini, Hpt. eapply tinv_birth; try done.
  intros j Hj. destruct Hst as [Hst|Hst]; [congruence|]. split; [done|]. apply Hpar. congruence.
Qed.

Lemma born_upd i (P P' : proc → Prop) s s' f :
  born i P s s' → (∀ p, P p → pid (f p) = pid p ∧ P' (f p)) →
  born i P' s (with_ptable (alter f i (ptable s')) s').
Proof.
  intros (Hn & Hini & p & p' & Hi & Hfree & Hpt & Hpid & HP) Hf.
  destruct (Hf p' HP) as [Hfp HP'].
  assert (i < length (ptable s))%nat by (by eapply lookup_lt_Some).
  split; [done|]. split; [done|]. exists p, (f p'). simpl.
  rewrite Hpt, alter_insert_same by done. split_and!; congruence || done.
Qed.

Lemma born_low i P s s' w : born i P s s' → born i P s (with_low w s').
Proof. done. Qed.

Lemma born_mono i (P P' : proc → Prop) s s' :
  born i P s s' → (∀ p, pid p = nextpid s → P p → P' p) → born i P' s s'.
Proof. intros (?&?&p&p'&?&?&?&?&?) HP. split_and!; [done..|]. exists p, p'. eauto 10. Qed.

(** What [allocproc] leaves in the slot it returns. *)
Definition fresh_proc (k t : Z) (p : proc) : Prop :=
  state p = EMBRYO ∧ parent p = None ∧ kstack p = k ∧ k ≠ 0 ∧ tf p = junk_tf ∧
  context p = Cforkret ∧ used_syscalls p = replicate MAX_SYSCALLS 0 ∧
  ti p = TI FCFS 0 DEFAULT_BURST_TIME (i32 t) (i32 t) 0 DEFAULT_CONFIDENCE.

Lemma wlp_allocproc (Q : option nat → ctx → kstate W → Prop) R c s :
  pinv s → 0 < nextpid s < 2147483647 →
  (∀ c' s', pinv s' → Q None c' s') →
  (∀ i k c' s', born i (fresh_proc k (ticks s)) s s' → ticks s' = ticks s → Q (Some i) c' s') →
  (∀ ch c' s', pinv s' → R ch c' s') →
  wlp (allocproc junk_tf) Q R c s.
Proof.
  intros Hinv Hnp HQ1 HQ2 HR. unfold allocproc. wsteps.
  destruct (find_proc _ _) as [i|] eqn:Hf; [|wsteps; auto].
  apply find_proc_Some in Hf as (p & Hi & Hfree & _). apply bool_decide_eq_true in Hfree.
  assert (parent p = None) as Hpar by (eapply t_unused; eauto).
  assert (i < length (ptable s))%nat as Hlt by (by eapply lookup_lt_Some).
  wstep. apply wlp_upd. wstep. apply wlp_upd. wsteps. apply wlp_upd. wsteps.
  apply wlp_lift.
  2: { intros ch c1 w _. apply HR. apply (born_pinv i None s); [done|lia|done|].
       split; [simpl; rewrite i32_small by lia; done|]. split; [done|].
       eexists p, _. split; [done|]. split; [done|]. simpl.
       rewrite (alter_insert (ptable s) i p _ Hi), !alter_insert_same by done. split; [done|].
       split; [done|]. split; [done|]. split; [done|]. by left. }
  intros k c1 w. wstep. apply wlp_upd.
  destruct (Z.eqb_spec k 0) as [->|Hk].
  - wstep. apply wlp_upd. wsteps. apply HQ1. apply (born_pinv i None s); [done|lia|done|].
    split; [simpl; rewrite i32_small by lia; done|]. split; [done|].
    eexists p, _. split; [done|]. split; [done|]. simpl.
    rewrite (alter_insert (ptable s) i p _ Hi), !alter_insert_same by done. split; [done|].
    split; [done|]. split; [done|]. split; [done|]. by left.
  - wstep. apply wlp_upd. wstep. apply wlp_upd. wsteps. apply wlp_upd. wsteps.
    apply (HQ2 i k); [|done].
    split; [simpl; rewrite i32_small by lia; done|]. split; [done|].
    eexists p, _. split; [done|]. split; [done|]. simpl.
    rewrite (alter_insert (ptable s) i p _ Hi), !alter_insert_same by done. split; [done|].
    unfold fresh_proc. simpl. done.
Qed.

(** ** The other operations *)

Lemma wlp_get_proc_by_pid n (Q : option nat → ctx → kstate W → Prop) R c s :
  (∀ c', Q (find_proc (λ p, pid p =? n) (ptable s)) c' s) → wlp (get_proc_by_pid n) Q R c s.
Proof. intros HQ. unfold get_proc_by_pid. wsteps. destruct (find_proc _ _); wsteps; auto. Qed.

Lemma wlp_change_queue n q (Q : Z → ctx → kstate W → Prop) R c s :
  (∀ i c', find_proc (λ p, pid p =? n) (ptable s) = Some i →
     Q 0 c' (with_ptable (alter (λ p, set_ti (set_queue q (i32 (ticks s)) (ti p)) p) i (ptable s)) s)) →
  wlp (change_queue n q) Q R c s.
Proof.
  intros HQ. unfold change_queue. wstep. apply wlp_get_proc_by_pid. intros c'. wsteps.
  destruct (find_proc _ _) as [i|]; wsteps. apply wlp_upd. wsteps. by apply HQ.
Qed.

Lemma wlp_dup_files i (P : proc → Prop) s fs fd c s' (Q : unit → ctx → kstate W → Prop) R :
  born i P s s' → (∀ p o, P p → P (set_ofile o p)) →
  (∀ c' s'', born i P s s'' → ticks s'' = ticks s' → Q tt c' s'') →
  (∀ ch c' s'', born i P s s'' → R ch c' s'') →
  wlp (dup_files i fd fs) Q R c s'.
Proof.
  intros Hb HP. revert fd c s' Hb. induction fs as [|[f|] fs IH]; intros fd c s' Hb HQ HR; simpl.
  - wsteps. by apply HQ.
  - wstep. apply wlp_lift; [|intros; apply HR; by apply born_low].
    intros _ c1 w. wstep. apply wlp_upd. apply IH; [|auto|auto].
    eapply born_upd; [by apply born_low|]. intros p HPp. split; [done|auto].
  - by apply IH.
Qed.

(** The child [p] that [fork] by process [me] (with record [cur]) makes. *)
Definition child (me : nat) (cur : proc) (d t : Z) (p : proc) : Prop :=
  state p = RUNNABLE ∧ parent p = Some me ∧ sz p = sz cur ∧ pgdir p = d ∧ d ≠ 0 ∧
  kstack p ≠ 0 ∧ tf p = set_eax 0 (tf cur) ∧ context p = Cforkret ∧ cwd p = cwd cur ∧
  name p = name15 (name cur) ∧ used_syscalls p = replicate MAX_SYSCALLS 0 ∧
  ti p = TI (if pid p =? 2 then RR else FCFS) 0 DEFAULT_BURST_TIME (i32 t) (i32 t) 0
            DEFAULT_CONFIDENCE.

(** The same while it is being filled in, before [state] and the queue. *)
Definition filling (me : nat) (cur : proc) (d t : Z) (p : proc) : Prop :=
  state p = EMBRYO ∧ parent p = Some me ∧ sz p = sz cur ∧ pgdir p = d ∧
  kstack p ≠ 0 ∧ tf p = set_eax 0 (tf cur) ∧ context p = Cforkret ∧
  used_syscalls p = replicate MAX_SYSCALLS 0 ∧
  ti p = TI FCFS 0 DEFAULT_BURST_TIME (i32 t) (i32 t) 0 DEFAULT_CONFIDENCE.

Definition filled (me : nat) (cur : proc) (d t : Z) (p : proc) : Prop :=
  filling me cur d t p ∧ cwd p = cwd cur ∧ name p = name15 (name cur).

Lemma child_embryo me cur d t p : child me cur d t p → embryo (Some me) p.
Proof. unfold embryo. intros (-> & -> & _). split; [done|]. split; [done|by right]. Qed.
Lemma filling_embryo me cur d t p : filling me cur d t p → embryo (Some me) p.
Proof. unfold embryo. intros (-> & -> & _). split; [done|]. split; [done|by right]. Qed.
Lemma fresh_embryo k t p : fresh_proc k t p → embryo None p.
Proof. unfold embryo. intros (-> & -> & _). split; [done|]. split; [done|by left]. Qed.

Lemma proc_at_born i P s s' : born i P s s' → pid (proc_at i s') = nextpid s ∧ P (proc_at i s').
Proof.
  intros (_ & _ & p & p' & Hi & _ & Hpt & Hpid & HP). unfold proc_at.
  rewrite Hpt, list_lookup_insert_eq by (by eapply lookup_lt_Some). done.
Qed.

Lemma proc_at_born_ne i P s s' j :
  born i P s s' → j ≠ i → proc_at j s' = proc_at j s.
Proof.
  intros (_ & _ & p & p' & Hi & _ & Hpt & _) Hne. unfold proc_at.
  by rewrite Hpt, list_lookup_insert_ne.
Qed.

Lemma born_step i P s s' f :
  born i P s s' → (∀ p, pid (f p) = pid p) →
  born i (λ p, ∃ p0, P p0 ∧ p = f p0) s (with_ptable (alter f i (ptable s')) s').
Proof. intros Hb Hf. eapply born_upd; [done|]. eauto. Qed.

(** Update the slot being born, and the record of what it holds. *)
Ltac fill Hb :=
  apply wlp_bind, wlp_upd;
  match goal with |- context [with_ptable (alter ?f _ _) _] =>
    apply (born_step _ _ _ _ f) in Hb; [|done] end.

Lemma wlp_fork_fill me cur i k d s c s1 (Q : unit → ctx → kstate W → Prop) R :
  born i (λ p, ∃ p0, fresh_proc k (ticks s) p0 ∧ p = set_pgdir d p0) s s1 →
  (∀ c' s', born i (filled me cur d (ticks s)) s s' → ticks s' = ticks s1 → Q tt c' s') →
  (∀ ch c' s', born i (filling me cur d (ticks s)) s s' → R ch c' s') →
  wlp (fork_fill me i cur) Q R c s1.
Proof.
  intros Hb HQ HR. unfold fork_fill. fill Hb. fill Hb. fill Hb. fill Hb.
  apply (born_mono _ _ (filling me cur d (ticks s))) in Hb.
  2: { intros p _ (p4 & (p3 & (p2 & (p1 & (p0 & Hp & ->) & ->) & ->) & ->) & ->).
       destruct Hp as (? & ? & ? & ? & ? & ? & ? & ?). unfold filling. simpl. subst k. done. }
  wstep. eapply (wlp_dup_files i (filling me cur d (ticks s)) s); [exact Hb|done| |auto].
  clear Hb. intros c3 s3 Hb Ht3. wstep. apply wlp_lift; [|intros; apply HR; by apply born_low].
  intros _ c4 w4. apply (born_low _ _ _ _ w4) in Hb. fill Hb. apply wlp_upd.
  apply (born_step _ _ _ _ (set_name (name15 (name cur)))) in Hb; [|done].
  apply HQ; [|done]. eapply born_mono; [exact Hb|].
  intros p _ (p1 & (p0 & Hp & ->) & ->). split; [exact Hp|done].
Qed.

(** The pid just given out is nobody else's. *)
Lemma born_find i par P s s' :
  pinv s → 0 < nextpid s → (∀ j, par = Some j → ∃ q, ptable s !! j = Some q ∧ alive (state q)) →
  (∀ p, P p → embryo par p) → born i P s s' →
  find_proc (λ p, pid p =? nextpid s) (ptable s') = Some i.
Proof.
  intros Hinv Hnp Hpar HP Hb.
  assert (pinv s') as Hinv' by (eapply born_pinv; [done|lia|done|]; eapply born_mono; eauto).
  destruct Hb as (_ & _ & p & p' & Hi & _ & Hpt & Hpid & _).
  assert (ptable s' !! i = Some p') as Hi'
    by (rewrite Hpt; apply list_lookup_insert_eq; by eapply lookup_lt_Some).
  apply (find_proc_unique _ _ i p'); [done|by apply Z.eqb_eq|].
  intros j q Hj Hq%Z.eqb_eq. eapply (t_uniq _ _ _ Hinv' j i); [done|done|congruence|lia].
Qed.

Lemma wlp_fork_publish me cur i d s c s1 (Q : Z → ctx → kstate W → Prop) R :
  pinv s → 0 < nextpid s → (∃ q, ptable s !! me = Some q ∧ alive (state q)) → d ≠ 0 →
  ticks s1 = ticks s → born i (filled me cur d (ticks s)) s s1 →
  (∀ c' s', born i (child me cur d (ticks s)) s s' → Q (nextpid s) c' s') →
  wlp (fork_publish i) Q R c s1.
Proof.
  intros Hinv Hnp Hpar Hd Ht Hb HQ. unfold fork_publish. wsteps.
  destruct (proc_at_born _ _ _ _ Hb) as [-> _].
  apply wlp_upd. apply (born_step _ _ _ _ (set_state RUNNABLE)) in Hb; [|done]. wsteps.
  destruct (Z.eqb_spec (nextpid s) 2) as [H2|H2].
  - wstep. apply wlp_change_queue. intros j c6 Hf.
    erewrite (born_find i (Some me)) in Hf; [|done|done|naive_solver| |exact Hb].
    2: { intros p (p0 & (Hp & _) & ->). destruct Hp as (_ & Hp & _). split; [done|]. split; [done|by right]. }
    injection Hf as <-. wsteps. apply HQ.
    eapply born_mono; [eapply born_step; [exact Hb|done]|].
    intros p Hpid (p1 & (p0 & (Hp & Hcwd & Hname) & ->) & ->).
    destruct Hp as (? & ? & ? & ? & ? & ? & ? & ? & Hti).
    unfold child. simpl in *. rewrite Hpid, H2, Hti, Ht. done.
  - wsteps. apply HQ. eapply born_mono; [exact Hb|].
    intros p Hpid (p0 & (Hp & Hcwd & Hname) & ->).
    destruct Hp as (? & ? & ? & ? & ? & ? & ? & ? & Hti).
    unfold child. simpl in *. rewrite Hpid, (proj2 (Z.eqb_neq _ _) H2). done.
Qed.

Lemma wlp_fork me (Q : Z → ctx → kstate W → Prop) R c s :
  pinv s → 0 < nextpid s < 2147483647 →
  (∃ q, ptable s !! me = Some q ∧ alive (state q)) →
  (∀ c' s', pinv s' → Q (-1) c' s') →
  (∀ i d c' s', born i (child me (proc_at me s) d (ticks s)) s s' → Q (nextpid s) c' s') →
  (∀ ch c' s', pinv s' → R ch c' s') →
  wlp (fork junk_tf me) Q R c s.
Proof.
  intros Hinv Hnp Hme HQ1 HQ2 HR. unfold fork. wstep.
  apply wlp_allocproc; [done|done|intros; wsteps; auto| |done].
  intros i k c1 s1 Hb Ht. wsteps.
  assert (∀ P par s', par = None ∨ par = Some me → (∀ p, P p → embryo par p) → born i P s s' → pinv s') as Hp.
  { intros P par s' Hpar HP Hb'. eapply (born_pinv i par); [done|lia| |].
    - intros j ->. destruct Hpar; naive_solver.
    - eapply born_mono; [exact Hb'|]. auto. }
  assert (me ≠ i) as Hne.
  { destruct Hb as (_ & _ & p & p' & Hi & Hf & _). intros ->. destruct Hme as (q & Hq & Ha).
    simplify_eq. rewrite Hf in Ha. by destruct Ha as [|[|]]. }
  rewrite (proc_at_born_ne _ _ _ _ _ Hb Hne).
  apply wlp_lift; [|intros; apply HR; eapply (Hp _ None); [by left|apply fresh_embryo|by apply born_low]].
  intros d c2 w. apply (born_low _ _ _ _ w) in Hb. fill Hb.
  destruct (Z.eqb_spec d 0) as [->|Hd].
  - wsteps. apply wlp_lift.
    2: { intros. apply HR. eapply (Hp _ None); [by left| |by apply born_low].
         intros p (p0 & ?%fresh_embryo & ->). done. }
    intros _ c3 w3. apply (born_low _ _ _ _ w3) in Hb. fill Hb. fill Hb. wsteps.
    apply HQ1. eapply (Hp _ None); [by left| |exact Hb].
    intros p (p2 & (p1 & (p0 & Hp0%fresh_embryo & ->) & ->) & ->).
    destruct Hp0 as (_ & Hp0 & _). split; [done|]. split; [done|by left].
  - wstep. eapply wlp_fork_fill; [exact Hb| |].
    + intros c3 s3 Hb3 Ht3. eapply (wlp_fork_publish me (proc_at me s)); eauto; [lia|].
      by rewrite Ht3.
    + intros. apply HR. eapply (Hp _ (Some me)); [by right| |done]. apply filling_embryo.
Qed.

(** ** Exit *)

Definition asleep_in_wait (i : nat) (p : proc) : Prop :=
  state p = SLEEPING ∧ pchan p = Some (ChProc i).

(** The table is the same up to fields the invariant does not mention. *)
Definition still (i : nat) (p p' : proc) : Prop :=
  pid p' = pid p ∧ parent p' = parent p ∧ state p' = state p ∧ pchan p' = pchan p.
Definition hush s s' : Prop :=
  tmap still (ptable s) (ptable s') ∧ nextpid s' = nextpid s ∧ initproc s' = initproc s.

Lemma still_quiet i p p' : still i p p' → quiet i p p'.
Proof. intros (? & ? & Hs & Hc). split; rewrite ?Hs, ?Hc; done. Qed.

Lemma tmap_mono (R R' : nat → proc → proc → Prop) l l' :
  (∀ i p q, R i p q → R' i p q) → tmap R l l' → tmap R' l l'.
Proof. intros HR [? ?]. split; eauto. Qed.

Lemma tmap_trans (R : nat → proc → proc → Prop) l l' l'' :
  (∀ i p q r, R i p q → R i q r → R i p r) → tmap R l l' → tmap R l' l'' → tmap R l l''.
Proof.
  intros HR H1 H2. split; [by rewrite (proj1 H2), (proj1 H1)|].
  intros i p r Hp Hr. destruct (tmap_forth _ _ _ _ _ H1 Hp) as (q & Hq & Hpq).
  eapply HR; [done|]. by apply (proj2 H2 i q r).
Qed.

Lemma hush_refl s : hush s s.
Proof. split; [|done]. split; [done|]. intros. by simplify_eq. Qed.
Lemma hush_trans s s' s'' : hush s s' → hush s' s'' → hush s s''.
Proof.
  intros (H1 & H2 & H3) (G1 & G2 & G3). split; [|split; congruence].
  eapply tmap_trans; [|done..]. unfold still. intros. naive_solver congruence.
Qed.
Lemma hush_low s s' w : hush s s' → hush s (with_low w s').
Proof. done. Qed.
Lemma hush_alter s s' k f :
  hush s s' → (∀ p, still k p (f p)) → hush s (with_ptable (alter f k (ptable s')) s').
Proof.
  intros Hh Hf. eapply hush_trans; [exact Hh|]. split; [|done]. apply tmap_alter; eauto. by split.
Qed.
Lemma hush_pinv s s' : pinv s → hush s s' → pinv s'.
Proof.
  intros Hi (Hm & Hn & Hini). unfold pinv. rewrite Hn, Hini.
  eapply tinv_quiet; [done|]. eapply tmap_mono; [apply still_quiet|done].
Qed.

Lemma wlp_close_files i fs fd c s s' (Q : unit → ctx → kstate W → Prop) R :
  hush s s' →
  (∀ c' s'', hush s s'' → Q tt c' s'') → (∀ ch c' s'', hush s s'' → R ch c' s'') →
  wlp (close_files i fd fs) Q R c s'.
Proof.
  intros Hh. revert fd c s' Hh. induction fs as [|[f|] fs IH]; intros fd c s' Hh HQ HR; simpl.
  - wsteps. by apply HQ.
  - wstep. apply wlp_lift; [|intros; apply HR; by apply hush_low].
    intros _ c1 w. wstep. apply wlp_upd. apply IH; [|auto|auto].
    by apply hush_alter; [by apply hush_low|].
  - by apply IH.
Qed.

(** A child [k] goes to init, which is not asleep in [wait] if [k] is a zombie. *)
Lemma tinv_adopt l np ini k p :
  tinv l np ini → l !! k = Some p → state p ≠ UNUSED → ini ≠ Some k →
  (∀ j q, ini = Some j → l !! j = Some q → state p = ZOMBIE → ¬ asleep_in_wait j q) →
  tinv (alter (set_parent ini) k l) np ini.
Proof.
  intros [Hlen Hnp0 Hpid Huniq Hlive Hun Hpar Hwait Hself Hini] Hk Hst Hne Hz.
  assert (∀ i q', alter (set_parent ini) k l !! i = Some q' →
    ∃ q, l !! i = Some q ∧ pid q' = pid q ∧ state q' = state q ∧ pchan q' = pchan q ∧
         parent q' = if decide (k = i) then ini else parent q) as Hb.
  { intros i q' (q & Hq & ->)%alter_lookup. exists q. by destruct (decide (k = i)). }
  assert (∀ i q, l !! i = Some q → ∃ q', alter (set_parent ini) k l !! i = Some q' ∧
    state q' = state q ∧ parent q' = if decide (k = i) then ini else parent q) as Hf.
  { intros i q Hq. eexists. rewrite alter_lookup. split; [by exists q|]. by destruct (decide _). }
  split.
  - by rewrite length_alter.
  - done.
  - intros i q' (q & Hq & -> & _)%Hb. eauto.
  - intros i j p' q' (q & Hq & -> & _)%Hb (r & Hr & -> & _)%Hb. eauto.
  - intros i q' (q & Hq & -> & -> & _)%Hb. eauto.
  - intros i q' (q & Hq & _ & -> & _ & ->)%Hb Hu. destruct (decide (k = i)); [|eauto].
    by simplify_eq.
  - intros i q' j (q & Hq & _ & _ & _ & ->)%Hb Hj.
    assert (∃ r, l !! j = Some r ∧ alive (state r)) as (r & Hr & Ha).
    { destruct (decide (k = i)); [|by eauto]. destruct (Hini j Hj) as (r & ? & ? & _). eauto. }
    destruct (Hf _ _ Hr) as (r' & ? & Hs & _). exists r'. by rewrite Hs.
  - intros i q' j r' (q & Hq & _ & -> & _ & ->)%Hb Hj (r & Hr & _ & -> & -> & _)%Hb Hzz.
    destruct (decide (k = i)); simplify_eq; unfold asleep_in_wait in *; eauto.
  - intros i q' (q & Hq & _ & _ & _ & ->)%Hb. destruct (decide (k = i)); [congruence|eauto].
  - intros j Hj. destruct (Hini j Hj) as (r & Hr & Ha & Hn).
    destruct (Hf _ _ Hr) as (r' & ? & Hs & Hp). exists r'. rewrite Hs, Hp.
    rewrite decide_False by congruence. done.
Qed.

Lemma wake_set_parent ch x p : wake ch (set_parent x p) = set_parent x (wake ch p).
Proof. unfold wake. simpl. by destruct (_ && _)%bool. Qed.

Lemma wake_awake j p : ¬ asleep_in_wait j (wake (Some (ChProc j)) p).
Proof.
  unfold wake, asleep_in_wait.
  destruct (bool_decide_reflect (state p = SLEEPING)), (bool_decide_reflect (pchan p = Some (ChProc j)));
    simpl; naive_solver.
Qed.

Lemma wake_id ch p : state p ≠ SLEEPING → wake ch p = p.
Proof. intros. unfold wake. by rewrite bool_decide_eq_false_2. Qed.

Lemma wake_fields ch p : parent (wake ch p) = parent p ∧ pid (wake ch p) = pid p.
Proof. unfold wake. by destruct (_ && _)%bool. Qed.

(** The state of [exit] by [me], whose slot holds [pm], before slot [k] of the
    table is looked at. *)
Record exiting (me : nat) (pm : proc) (k : nat) (l : list proc) np ini : Prop := {
  x_inv : tinv l np ini;
  x_me : l !! me = Some pm;
  x_ini : ini ≠ Some me;
  x_run : state pm = RUNNING;
  x_done i p : (i < k)%nat → l !! i = Some p → parent p ≠ Some me;
  x_awake j q : parent pm = Some j → l !! j = Some q → ¬ asleep_in_wait j q }.

Lemma exiting_adopt me pm k l np ini p :
  exiting me pm k l np ini → l !! k = Some p → parent p = Some me →
  exiting me pm (S k)
    (if decide (state p = ZOMBIE) then wake (ChProc <$> ini) <$> alter (set_parent ini) k l
     else alter (set_parent ini) k l) np ini.
Proof.
  intros [Hinv Hme Hini Hrun Hdone Haw] Hk Hp.
  assert (k ≠ me) as Hkm by (intros ->; by eapply t_self in Hinv).
  assert (ini ≠ Some k) as Hik.
  { intros ->. destruct (t_init _ _ _ Hinv k eq_refl) as (q & Hq & _ & Hn). congruence. }
  assert (state p ≠ UNUSED) as Hst.
  { intros Hu. apply (t_unused _ _ _ Hinv k p Hk) in Hu. congruence. }
  destruct (decide (state p = ZOMBIE)) as [Hz|Hz].
  - assert (wake (ChProc <$> ini) <$> alter (set_parent ini) k l
            = alter (set_parent ini) k (wake (ChProc <$> ini) <$> l)) as ->.
    { apply list_fmap_alter, Forall_forall. intros. apply wake_set_parent. }
    assert ((wake (ChProc <$> ini) <$> l) !! k = Some p) as Hk'
      by (rewrite list_lookup_fmap, Hk; simpl; by rewrite wake_id by congruence).
    split; try done.
    + eapply tinv_adopt; [by apply tinv_wake|exact Hk'|done|done|].
      intros j q -> (q0 & -> & _)%list_lookup_fmap_Some _. apply wake_awake.
    + rewrite list_lookup_alter_ne, list_lookup_fmap, Hme by done. simpl.
      by rewrite wake_id by congruence.
    + intros i q Hi (q0 & (q1 & -> & Hq)%list_lookup_fmap_Some & ->)%alter_lookup.
      destruct (decide (k = i)); [done|]. rewrite (proj1 (wake_fields _ _)).
      apply (Hdone i); [lia|done].
    + intros j q Hj (q0 & (q1 & -> & Hq)%list_lookup_fmap_Some & ->)%alter_lookup Hs.
      apply (Haw j q1 Hj Hq). apply (q_sleep _ _ _ (wake_quiet (ChProc <$> ini) j q1)).
      unfold asleep_in_wait in Hs. by destruct (decide (k = j)).
  - split; try done.
    + eapply tinv_adopt; eauto.
    + by rewrite list_lookup_alter_ne.
    + intros i q Hi (q0 & Hq & ->)%alter_lookup.
      destruct (decide (k = i)); [done|]. apply (Hdone i); [lia|done].
    + intros j q Hj (q0 & Hq & ->)%alter_lookup Hs. apply (Haw j q0 Hj Hq).
      unfold asleep_in_wait in Hs. by destruct (decide (k = j)).
Qed.

Lemma wlp_reparent me pm ini fuel k c s (Q : unit → ctx → kstate W → Prop) R :
  initproc s = ini → exiting me pm k (ptable s) (nextpid s) ini → (k + fuel)%nat = NPROC →
  (∀ c' s', exiting me pm NPROC (ptable s') (nextpid s') ini → initproc s' = ini → Q tt c' s') →
  wlp (reparent me ini k fuel) Q R c s.
Proof.
  revert k c s. induction fuel as [|fuel IH]; intros k c s Hini Hx Hk HQ; simpl.
  { wsteps. apply HQ; [|done]. by replace NPROC with k by lia. }
  destruct (lookup_lt_is_Some_2 (ptable s) k) as [p Hp].
  { rewrite (t_len _ _ _ (x_inv _ _ _ _ _ _ Hx)). lia. }
  wsteps. assert (proc_at k s = p) as Hat by (unfold proc_at; by rewrite Hp). rewrite Hat.
  destruct (bool_decide_reflect (parent p = Some me)) as [Hpar|Hpar].
  - pose proof (exiting_adopt _ _ _ _ _ _ _ Hx Hp Hpar) as Hx'.
    wstep. apply wlp_upd. wsteps. rewrite (proc_at_alter_eq _ _ _ _ _ Hp). simpl.
    destruct (bool_decide_reflect (state p = ZOMBIE)) as [Hz|Hz]; simpl;
      [rewrite decide_True in Hx' by done | rewrite decide_False in Hx' by done].
    + apply wlp_modify. eapply IH; [done|exact Hx'|lia|done].
    + wsteps. eapply IH; [done|exact Hx'|lia|done].
  - wsteps. eapply IH; [done| |lia|done]. destruct Hx as [H1 H2 H3 H4 H5 H6]. split; try done.
    intros i q Hi Hq. destruct (decide (i = k)) as [->|]; [by simplify_eq|].
    apply (H5 i); [lia|done].
Qed.

(** With its children gone and its parent awake, [me] becomes a zombie. *)
Lemma tinv_zombie me pm l np ini :
  exiting me pm NPROC l np ini → tinv (alter (set_state ZOMBIE) me l) np ini.
Proof.
  intros [[Hlen Hnp0 Hpid Huniq Hlive Hun Hpar Hwait Hself Hini] Hme Hi Hrun Hdone Haw].
  assert (∀ i q, l !! i = Some q → parent q ≠ Some me) as Hnone.
  { intros i q Hq. apply (Hdone i); [|done]. rewrite <- Hlen. by eapply lookup_lt_Some. }
  assert (∀ i q', alter (set_state ZOMBIE) me l !! i = Some q' →
    ∃ q, l !! i = Some q ∧ pid q' = pid q ∧ parent q' = parent q ∧ pchan q' = pchan q ∧
         state q' = if decide (me = i) then ZOMBIE else state q) as Hb.
  { intros i q' (q & Hq & ->)%alter_lookup. exists q. by destruct (decide (me = i)). }
  assert (∀ i q, i ≠ me → l !! i = Some q → alter (set_state ZOMBIE) me l !! i = Some q) as Hf
    by (intros; by rewrite list_lookup_alter_ne).
  split.
  - by rewrite length_alter.
  - done.
  - intros i q' (q & Hq & -> & _)%Hb. eauto.
  - intros i j p' q' (q & Hq & -> & _)%Hb (r & Hr & -> & _)%Hb. eauto.
  - intros i q' (q & Hq & -> & _ & _ & ->)%Hb. destruct (decide (me = i)); [|eauto].
    simplify_eq. intros _. apply (Hlive _ _ Hme). by rewrite Hrun.
  - intros i q' (q & Hq & _ & -> & _ & ->)%Hb. destruct (decide (me = i)); [done|eauto].
  - intros i q' j (q & Hq & _ & -> & _)%Hb Hj. destruct (Hpar _ _ _ Hq Hj) as (r & Hr & Ha).
    exists r. split; [|done]. apply Hf; [|done]. intros ->. by apply (Hnone i q).
  - intros i q' j r' (q & Hq & _ & -> & _ & ->)%Hb Hj (r & Hr & _ & _ & -> & ->)%Hb Hz.
    destruct (decide (me = j)); [naive_solver|].
    destruct (decide (me = i)); [|by eauto]. simplify_eq. by apply (Haw j).
  - intros i q' (q & Hq & _ & -> & _)%Hb. eauto.
  - intros j Hj. destruct (Hini j Hj) as (r & Hr & Ha). exists r. split; [|done].
    apply Hf; [congruence|done].
Qed.

(** [sched] only records where the process resumes. *)
Lemma wlp_sched i c s (Q : unit → ctx → kstate W → Prop) R :
  (∀ c', Q tt c' (with_ptable (alter (set_context Csched) i (ptable s)) s)) →
  wlp (sched i) Q R c s.
Proof. intros HQ. unfold wlp, sched. do 3 (destruct (_ : bool); [done|]). apply HQ. Qed.

Lemma exiting_start s s' me p :
  pinv s → ptable s !! me = Some p → state p = RUNNING → initproc s ≠ Some me → hush s s' →
  ∃ pm, pid pm = pid p ∧ parent pm = parent p ∧ parent (proc_at me s') = parent p ∧
    exiting me pm 0 (wake (ChProc <$> parent p) <$> ptable s') (nextpid s') (initproc s').
Proof.
  intros Hinv Hme Hrun Hini Hh. pose proof (hush_pinv _ _ Hinv Hh) as Hinv'.
  destruct Hh as (Hm & _ & Hi).
  destruct (tmap_forth _ _ _ _ _ Hm Hme) as (pm & Hpm & Hid & Hpar & Hst & _).
  exists pm. split; [done|]. split; [done|]. split; [unfold proc_at; by rewrite Hpm|].
  split; [by apply tinv_wake| |congruence|congruence|lia|].
  - rewrite list_lookup_fmap, Hpm. simpl. by rewrite wake_id by congruence.
  - intros j q Hj (q0 & -> & _)%list_lookup_fmap_Some. rewrite <- Hpar, Hj. apply wake_awake.
Qed.

(** [p] is dead in slot [me]: a zombie without children whose parent is not
    left asleep in [wait]. *)
Definition dead (me : nat) (p : proc) s' : Prop :=
  (∃ q, ptable s' !! me = Some q ∧ state q = ZOMBIE ∧ pid q = pid p ∧ parent q = parent p) ∧
  (∀ i q, ptable s' !! i = Some q → parent q ≠ Some me) ∧
  (∀ j q, parent p = Some j → ptable s' !! j = Some q → ¬ asleep_in_wait j q).

Lemma exiting_dead me pm p l s :
  exiting me pm NPROC l (nextpid s) (initproc s) → pid pm = pid p → parent pm = parent p →
  pinv (with_ptable (alter (set_context Csched) me (alter (set_state ZOMBIE) me l)) s) ∧
  dead me p (with_ptable (alter (set_context Csched) me (alter (set_state ZOMBIE) me l)) s).
Proof.
  intros Hx Hid Hpar. pose proof (tinv_zombie _ _ _ _ _ Hx) as Hz. split.
  { apply tinv_alter_quiet; [done|]. intros. by apply still_quiet. }
  assert (∀ i q', alter (set_context Csched) me (alter (set_state ZOMBIE) me l) !! i = Some q' →
    ∃ q, l !! i = Some q ∧ parent q' = parent q ∧ (i ≠ me → q' = q)) as Hb.
  { intros i q' (q1 & (q & Hq & ->)%alter_lookup & ->)%alter_lookup. exists q.
    destruct (decide (me = i)); simplify_eq; split_and!; done. }
  destruct Hx as [Hinv Hme _ _ Hdone Haw]. split_and!; simpl.
  - rewrite !list_lookup_alter_eq, Hme. simpl. eexists. split; [done|]. done.
  - intros i q (q0 & Hq & -> & _)%Hb. apply (Hdone i); [|done].
    rewrite <- (t_len _ _ _ Hinv). by eapply lookup_lt_Some.
  - intros j q Hj (q0 & Hq & _ & He)%Hb. rewrite He; [eapply Haw; eauto; congruence|].
    intros ->. eapply (t_self _ _ _ Hinv); [exact Hme|]. congruence.
Qed.

Lemma wlp_exit me p c s (Q : unit → ctx → kstate W → Prop) R :
  pinv s → ptable s !! me = Some p → state p = RUNNING →
  (∀ c' s', pinv s' → dead me p s' → Q tt c' s') → (∀ ch c' s', pinv s' → R ch c' s') →
  wlp (exit me) Q R c s.
Proof.
  intros Hinv Hme Hrun HQ HR. unfold exit. wsteps.
  destruct (bool_decide_reflect (initproc s = Some me)) as [|Hini]; wsteps.
  assert (∀ ch c' s' w, hush s s' → R ch c' (with_low w s')) as HR'
    by (intros; eapply HR, hush_pinv; [|apply hush_low]; done).
  eapply (wlp_close_files _ _ _ _ s); [apply hush_refl| |intros; by eapply HR, hush_pinv].
  intros c1 s1 H1. wstep. apply wlp_lift; [|auto]. intros _ c2 w2. wsteps.
  apply wlp_lift; [|intros; apply (HR' _ _ (with_low w2 s1)), H1]. intros _ c3 w3. wstep.
  apply wlp_lift; [|intros; apply (HR' _ _ (with_low w3 s1)), H1]. intros _ c4 w4. wstep.
  apply wlp_upd. wsteps. set (s5 := with_ptable _ _).
  assert (hush s s5) as H5 by (by apply hush_alter).
  destruct (exiting_start _ _ _ _ Hinv Hme Hrun Hini H5) as (pm & Hid & Hpar & -> & Hx).
  apply wlp_modify. wstep. eapply (wlp_reparent me pm); [done|exact Hx|done|].
  intros c6 s6 Hx6 Hi6. wstep. apply wlp_upd. apply wlp_sched. intros c7.
  destruct (exiting_dead me pm p (ptable s6) s6) as [? ?]; [by rewrite Hi6|done|done|].
  by apply HQ.
Qed.

(** ** Wait *)

(** A zombie's slot is freed. *)
Lemma tinv_reap l np ini k p p' :
  tinv l np ini → l !! k = Some p → state p = ZOMBIE →
  state p' = UNUSED → pid p' = 0 → parent p' = None → tinv (<[k := p']> l) np ini.
Proof.
  intros [Hlen Hnp0 Hpid Huniq Hlive Hun Hpar Hwait Hself Hini] Hk Hz Hu Hid Hnone.
  assert (∀ j q, l !! j = Some q → alive (state q) → j ≠ k) as Hne.
  { intros j q Hj Ha ->. simplify_eq. rewrite Hz in Ha. by destruct Ha as [?|[?|?]]. }
  assert (∀ j, (∃ q, l !! j = Some q ∧ alive (state q)) →
    ∃ q, l !! j = Some q ∧ <[k := p']> l !! j = Some q ∧ alive (state q)) as Hal.
  { intros j (q & Hq & Ha). exists q.
    by rewrite list_lookup_insert_ne by (apply not_eq_sym; eauto). }
  split.
  - by rewrite length_insert.
  - done.
  - intros i q [(_ & <- & _)|[_ Hi]]%list_lookup_insert_Some; [done|eauto].
  - intros i j q r [(-> & <- & _)|[? Hi]]%list_lookup_insert_Some
      [(-> & <- & _)|[? Hj]]%list_lookup_insert_Some ??; [done|congruence..|eauto].
  - intros i q [(_ & <- & _)|[_ Hi]]%list_lookup_insert_Some; [done|eauto].
  - intros i q [(_ & <- & _)|[_ Hi]]%list_lookup_insert_Some; [done|eauto].
  - intros i q j [(_ & <- & _)|[_ Hi]]%list_lookup_insert_Some Hj; [congruence|].
    destruct (Hal j) as (r & _ & ? & ?); eauto.
  - intros i q j r [(_ & <- & _)|[_ Hi]]%list_lookup_insert_Some Hj Hr Hzq; [congruence|].
    destruct (Hal j) as (r0 & ? & ? & _); [eauto|]. simplify_eq. eauto.
  - intros i q [(_ & <- & _)|[_ Hi]]%list_lookup_insert_Some; [congruence|eauto].
  - intros j Hj. destruct (Hini j Hj) as (r & Hr & Ha & Hn).
    destruct (Hal j) as (r0 & ? & ? & ?); [eauto|]. simplify_eq. eauto.
Qed.

(** Falling asleep in [wait], with no zombie child. *)
Lemma tinv_wait_sleep l np ini me p p' :
  tinv l np ini → l !! me = Some p → state p = RUNNING →
  (∀ i q, l !! i = Some q → parent q = Some me → state q ≠ ZOMBIE) →
  pid p' = pid p → parent p' = parent p → state p' = SLEEPING →
  tinv (<[me := p']> l) np ini.
Proof.
  intros [Hlen Hnp0 Hpid Huniq Hlive Hun Hpar Hwait Hself Hini] Hme Hrun Hnoz Hid Hp Hs.
  assert (me < length l)%nat by (by eapply lookup_lt_Some).
  assert (∀ i q', <[me := p']> l !! i = Some q' → ∃ q, l !! i = Some q ∧ pid q' = pid q ∧
    parent q' = parent q ∧ (i ≠ me → q' = q) ∧ (i = me → state q' = SLEEPING ∧ q = p)) as Hb.
  { intros i q' [(<- & <- & _)|[? Hi]]%list_lookup_insert_Some; [exists p|exists q']; naive_solver. }
  assert (∀ j q, l !! j = Some q → alive (state q) →
    ∃ q', <[me := p']> l !! j = Some q' ∧ alive (state q') ∧ parent q' = parent q) as Hf.
  { intros j q Hj Ha. destruct (decide (me = j)) as [<-|].
    - exists p'. rewrite list_lookup_insert_eq by done. simplify_eq. split; [done|].
      split; [by left|done].
    - exists q. by rewrite list_lookup_insert_ne. }
  split.
  - by rewrite length_insert.
  - done.
  - intros i q' (q & Hq & -> & _)%Hb. eauto.
  - intros i j q' r' (q & Hq & -> & _)%Hb (r & Hr & -> & _)%Hb. eauto.
  - intros i q' (q & Hq & -> & _ & Hne & He)%Hb Hu. apply (Hlive i q Hq).
    destruct (decide (i = me)) as [Hi|Hi]; [|by rewrite <- (Hne Hi)].
    destruct (He Hi) as [_ ->]. by rewrite Hrun.
  - intros i q' (q & Hq & _ & -> & Hne & He)%Hb Hu.
    destruct (decide (i = me)) as [Hi|Hi]; [destruct (He Hi); congruence|].
    rewrite (Hne Hi) in Hu. eauto.
  - intros i q' j (q & Hq & _ & -> & _)%Hb Hj. destruct (Hpar _ _ _ Hq Hj) as (r & Hr & Ha).
    destruct (Hf _ _ Hr Ha) as (r' & ? & ? & _). eauto.
  - intros i q' j r' (q & Hq & _ & -> & Hne & He)%Hb Hj (r & Hr & _ & _ & Hner & _)%Hb Hz.
    destruct (decide (i = me)) as [Hi|Hi]; [destruct (He Hi); congruence|].
    rewrite (Hne Hi) in Hz. destruct (decide (j = me)) as [->|Hj']; [naive_solver|].
    rewrite (Hner Hj'). eauto.
  - intros i q' (q & Hq & _ & -> & _)%Hb. eauto.
  - intros j Hj. destruct (Hini j Hj) as (r & Hr & Ha & Hn).
    destruct (Hf _ _ Hr Ha) as (r' & ? & ? & Hr'). exists r'. by rewrite Hr'.
Qed.

Definition zombie_child (me : nat) (p : proc) : Prop := parent p = Some me ∧ state p = ZOMBIE.

(** [wait] by [me] reaped child [p] of slot [k]: its slot is free and the rest
    of the table is as it was. *)
Definition reaped (me k : nat) (p : proc) s s' : Prop :=
  ptable s !! k = Some p ∧ zombie_child me p ∧
  ∃ q, ptable s' = <[k := q]> (ptable s) ∧ state q = UNUSED ∧ pid q = 0 ∧ parent q = None ∧
       kstack q = 0 ∧ killed q = 0.

(** [kfree] or [freevm] goes to sleep (they do not). *)
Definition low_sleeps : Prop :=
  ∃ (v : Z) (c c' : ctx) (w w' : W) ch, l_kfree v c w = Sleep ch c' w' ∨ l_freevm v c w = Sleep ch c' w'.

Lemma wlp_wait me p c s (Q : Z → ctx → kstate W → Prop) R :
  pinv s → ptable s !! me = Some p → state p = RUNNING →
  (∀ k q c' s', pinv s' → reaped me k q s s' → Q (pid q) c' s') →
  ((∀ i q, ptable s !! i = Some q → ¬ zombie_child me q) →
   (∀ i q, ptable s !! i = Some q → parent q ≠ Some me) ∨ killed p ≠ 0 → ∀ c', Q (-1) c' s) →
  (∀ ch c' s', pinv s' → low_sleeps → R ch c' s') →
  ((∀ i q, ptable s !! i = Some q → ¬ zombie_child me q) → killed p = 0 →
   (∃ i q, ptable s !! i = Some q ∧ parent q = Some me) →
   ∀ c' s', pinv s' → (∃ q, ptable s' = <[me := q]> (ptable s) ∧ asleep_in_wait me q) →
     R (ChProc me) c' s') →
  wlp (wait me) Q R c s.
Proof.
  intros Hinv Hme Hrun HQ1 HQ2 HR1 HR2. unfold wait. wsteps.
  assert (proc_at me s = p) as Hat by (unfold proc_at; by rewrite Hme).
  destruct (find_proc _ _) as [k|] eqn:Hf.
  - apply find_proc_Some in Hf as (q & Hk & Hz & _). bool_props.
    unfold is_child in *. bool_props.
    assert (proc_at k s = q) as -> by (unfold proc_at; by rewrite Hk).
    assert (∀ ch c' s', hush s s' → low_sleeps → R ch c' s') as HR
      by (intros; eapply HR1; eauto using hush_pinv).
    assert (k < length (ptable s))%nat by (by eapply lookup_lt_Some).
    wstep. apply wlp_lift.
    2: { intros ch c' w E. apply HR; [by apply hush_low, hush_refl|]. do 6 eexists. left. exact E. } intros _ c1 w1. wstep. apply wlp_upd.
    wstep. apply wlp_lift.
    2: { intros ch c' w E. apply HR; [by apply hush_low, hush_alter; [apply hush_low, hush_refl|]|].
         do 6 eexists. right. exact E. }
    intros _ c2 w2. do 5 (wstep; apply wlp_upd). wsteps. simpl ptable.
    rewrite (alter_insert (ptable s) k q _ Hk), !alter_insert_same by done.
    apply (HQ1 k); [|split; [done|]; split; [done|]; by eexists].
    by eapply tinv_reap.
  - assert (∀ i q, ptable s !! i = Some q → ¬ zombie_child me q) as Hnoz.
    { intros i q Hq [Hp Hz]. pose proof (find_proc_None _ _ Hf i q Hq) as Hn. simpl in Hn.
      unfold is_child in Hn. by rewrite !bool_decide_eq_true_2 in Hn. }
    rewrite Hat. destruct (existsb _ _) eqn:He; simpl.
    + apply existsb_exists in He as (q & (i & Hq)%list_elem_of_In%list_elem_of_lookup & Hc).
      unfold is_child in Hc. apply bool_decide_eq_true in Hc.
      destruct (Z.eqb_spec (killed p) 0) as [Hk|Hk]; simpl; [|wsteps; by apply HQ2; auto].
      wstep. unfold sleep. rewrite bool_decide_eq_false_2 by tauto. wsteps. apply wlp_upd.
      wstep. apply wlp_upd. apply wlp_sched. intros c1. wsteps.
      simpl ptable. rewrite (alter_insert _ me p _ Hme), !alter_insert_same
        by (by eapply lookup_lt_Some).
      apply HR2; [done|done|by eauto| |by eexists].
      eapply tinv_wait_sleep; try done. intros j r Hr Hp Hz. by apply (Hnoz j r).
    + wsteps. apply HQ2; [done|]. left. intros i q Hq Hp.
      assert (existsb (is_child me) (ptable s) = true); [|congruence].
      apply existsb_exists. exists q. split; [|by apply bool_decide_eq_true].
      apply list_elem_of_In, list_elem_of_lookup. eauto.
Qed.

(** ** Aging *)

(** What [aging] at time [t] does to a process. *)
Definition age (t : Z) (p : proc) : proc :=
  if (negb (bool_decide (state p = RUNNABLE)) || (queue (ti p) =? RR))%bool then p
  else if starved t p then
    if queue (ti p) =? SJF then set_ti (set_queue RR (i32 t) (ti p)) p
    else if queue (ti p) =? FCFS then set_ti (set_queue SJF (i32 t) (ti p)) p
    else p
  else p.

(** The table when the loop has reached slot [k]. *)
Definition aged (t : Z) (k : nat) (l : list proc) : list proc :=
  imap (λ i p, if (i <? k)%nat then age t p else p) l.

Lemma age_still t i p : still i p (age t p).
Proof. unfold age. by repeat case_match. Qed.

Lemma lookup_aged t k l i :
  aged t k l !! i = (λ p, if (i <? k)%nat then age t p else p) <$> l !! i.
Proof. unfold aged. by rewrite list_lookup_imap. Qed.

Lemma aged_step t k l p f :
  l !! k = Some p → age t p = f p → alter f k (aged t k l) = aged t (S k) l.
Proof.
  intros Hk Hf. apply list_eq. intros i. destruct (decide (i = k)) as [->|Hne].
  - rewrite list_lookup_alter_eq, !lookup_aged, Hk. simpl.
    by rewrite Nat.ltb_irrefl, (proj2 (Nat.ltb_lt _ _) (Nat.lt_succ_diag_r k)), Hf.
  - rewrite list_lookup_alter_ne, !lookup_aged by done. destruct (l !! i); simpl; [|done].
    destruct (Nat.ltb_spec i k), (Nat.ltb_spec i (S k)); (done || lia).
Qed.

Lemma aged_skip t k l p : l !! k = Some p → age t p = p → aged t (S k) l = aged t k l.
Proof.
  intros Hk Hp. rewrite <- (aged_step t k l p id Hk Hp).
  apply list_eq. intros i. rewrite list_lookup_alter.
  case_decide; [|done]. subst i. by destruct (aged t k l !! k).
Qed.

Lemma aged_all t l n : (length l ≤ n)%nat → aged t n l = age t <$> l.
Proof.
  intros Hn. apply list_eq. intros i. rewrite lookup_aged, list_lookup_fmap.
  destruct (l !! i) eqn:Hi; simpl; [|done]. apply lookup_lt_Some in Hi.
  by rewrite (proj2 (Nat.ltb_lt _ _)) by lia.
Qed.

Lemma find_pid_aged l np ini t k i p :
  tinv l np ini → l !! i = Some p → pid p ≠ 0 →
  find_proc (λ q, pid q =? pid p) (aged t k l) = Some i.
Proof.
  intros Hinv Hi Hid.
  assert (∀ j q', aged t k l !! j = Some q' → ∃ q, l !! j = Some q ∧ pid q' = pid q) as Hb.
  { intros j q'. rewrite lookup_aged. intros (q & Hq & ->)%fmap_Some. exists q. split; [done|].
    destruct (_ <? _)%nat; [|done]. apply (age_still t j q). }
  destruct (lookup_lt_is_Some_2 (aged t k l) i) as [p' Hp'].
  { unfold aged. rewrite length_imap. by eapply lookup_lt_Some. }
  destruct (Hb _ _ Hp') as (p0 & Hp0 & Hid'). simplify_eq.
  apply (find_proc_unique _ _ i p' Hp'); [by apply Z.eqb_eq|].
  intros j q' (q & Hq & Hqid)%Hb Heq%Z.eqb_eq.
  eapply (t_uniq _ _ _ Hinv j i q p); [done|done|congruence|congruence].
Qed.

Lemma change_queue_ok n q i c s :
  Lptable ∉ held c → find_proc (λ p, pid p =? n) (ptable s) = Some i →
  change_queue n q c s =
  Ret 0 c (with_ptable (alter (λ p, set_ti (set_queue q (i32 (ticks s)) (ti p)) p) i (ptable s)) s).
Proof.
  intros Hc Hf. destruct c as [L tr]. simpl in Hc.
  unfold change_queue, get_proc_by_pid, mbind, M_bind, get, gets, upd, modify.
  locks. rewrite Hf. locks. done.
Qed.

Lemma aging_loop_ok L tr l s fuel k :
  tinv l (nextpid s) (initproc s) → Lptable ∉ L → (k + fuel)%nat = NPROC →
  aging_loop k fuel (Ctx (Lptable :: L) tr) (with_ptable (aged (ticks s) k l) s) =
  Ret tt (Ctx (Lptable :: L) tr) (with_ptable (aged (ticks s) NPROC l) s).
Proof.
  intros Hinv HL. revert k. induction fuel as [|fuel IH]; intros k Hk.
  { by replace k with NPROC by lia. }
  destruct (lookup_lt_is_Some_2 l k) as [p Hp]; [rewrite (t_len _ _ _ Hinv); lia|].
  cbn [aging_loop]. erewrite bind_Ret by done. cbv beta zeta.
  assert (proc_at k (with_ptable (aged (ticks s) k l) s) = p) as ->.
  { unfold proc_at. cbn [ptable with_ptable]. rewrite lookup_aged, Hp. simpl.
    by rewrite Nat.ltb_irrefl. }
  cbn [ticks with_ptable]. specialize (IH (S k) ltac:(lia)).
  assert (age (ticks s) p = p → (mret tt ≫= λ _ : unit, aging_loop (S k) fuel)
    (Ctx (Lptable :: L) tr) (with_ptable (aged (ticks s) k l) s) =
    Ret tt (Ctx (Lptable :: L) tr) (with_ptable (aged (ticks s) NPROC l) s)) as Hskip.
  { intros Ha. rewrite bind_ret. by rewrite <- (aged_skip _ _ _ _ Hp Ha). }
  destruct (negb _ || _)%bool eqn:Hr; [apply Hskip; unfold age; by rewrite Hr|].
  destruct (starved _ _) eqn:Hst; [|apply Hskip; unfold age; by rewrite Hr, Hst].
  assert (pid p ≠ 0) as Hid.
  { apply (t_live _ _ _ Hinv k p Hp). bool_props. destruct (state p); by simpl in *. }
  rewrite bind_assoc, bind_release, bind_assoc by done.
  assert (∀ q, age (ticks s) p = set_ti (set_queue q (i32 (ticks s)) (ti p)) p →
    ((change_queue (pid p) q;; mret tt) ≫= λ _ : unit, acquire Lptable ≫= λ _ : unit,
       aging_loop (S k) fuel) (Ctx L tr) (with_ptable (aged (ticks s) k l) s) =
    Ret tt (Ctx (Lptable :: L) tr) (with_ptable (aged (ticks s) NPROC l) s)) as Hmove.
  { intros q Ha. rewrite bind_assoc. erewrite bind_Ret.
    2: { apply change_queue_ok; [done|]. by eapply find_pid_aged. }
    rewrite bind_ret, bind_acquire by done. simpl ptable. simpl ticks. simpl held. simpl trace.
    by rewrite (aged_step _ _ _ p). }
  destruct (queue (ti p) =? SJF) eqn:Hsjf;
    [apply Hmove; unfold age; by rewrite Hr, Hst, Hsjf|].
  destruct (queue (ti p) =? FCFS) eqn:Hf;
    [apply Hmove; unfold age; by rewrite Hr, Hst, Hsjf, Hf|].
  rewrite bind_ret, bind_acquire by done. simpl.
  rewrite <- (aged_skip _ _ _ _ Hp); [done|]. unfold age. by rewrite Hr, Hst, Hsjf, Hf.
Qed.

Lemma aging_ok c s :
  pinv s → Lptable ∉ held c →
  aging c s = Ret tt c (with_ptable (age (ticks s) <$> ptable s) s).
Proof.
  intros Hinv Hc. destruct c as [L tr]. unfold aging. rewrite bind_acquire by done.
  cbn [held trace]. assert (s = with_ptable (aged (ticks s) 0 (ptable s)) s) as E.
  { destruct s as [l ????????]. unfold with_ptable. simpl. f_equal.
    apply list_eq. intros i. rewrite lookup_aged. by destruct (l !! i). }
  pose proof (aging_loop_ok L tr (ptable s) s NPROC 0 Hinv Hc eq_refl) as Hl.
  rewrite <- E in Hl. rewrite (bind_Ret _ _ _ _ _ _ _ Hl).
  rewrite release_head by done. do 2 f_equal. apply aged_all. by rewrite (t_len _ _ _ Hinv).
Qed.

(** ** Boot *)

(** The kernel's data when [main] calls [userinit]: a zeroed table. *)
Definition zeroed s : Prop :=
  ptable s = replicate NPROC proc0 ∧ nextpid s = 1 ∧ initproc s = None.

Lemma zeroed_pinv s : zeroed s → pinv s.
Proof.
  intros (Hl & Hn & Hi). unfold pinv. rewrite Hl, Hn, Hi.
  split; [done|lia|try (intros *; rewrite !lookup_replicate); naive_solver..].
Qed.

Lemma tinv_set_init l np ini j q :
  tinv l np ini → l !! j = Some q → alive (state q) → parent q = None → tinv l np (Some j).
Proof. intros [] Hj Ha Hn. split; try done. intros ? [= <-]. eauto. Qed.

(** The first process, as [userinit] leaves it. *)
Definition first_process (p : proc) : Prop :=
  state p = RUNNABLE ∧ parent p = None.

Lemma born_first i s s' :
  zeroed s → born i first_process (with_initproc (Some i) s) s' → pinv s' ∧ 0 < nextpid s'.
Proof.
  intros Hz (Hn & Hi & p & p' & Hp & Hu & Hpt & Hpid & Hst & Hpar).
  pose proof (zeroed_pinv s Hz) as Hinv. destruct Hz as (Hl & H1 & H0). simpl in *.
  split; [|lia]. unfold pinv. rewrite Hn, Hi, Hpt.
  assert (tinv (<[i := p']> (ptable s)) (nextpid s + 1) (initproc s)) as Ht.
  { eapply tinv_birth; try done; [lia|congruence|]. intros j. congruence. }
  eapply (tinv_set_init _ _ _ _ p' Ht);
    [|rewrite Hst; right; by left|done].
  apply list_lookup_insert_eq. by eapply lookup_lt_Some.
Qed.

Lemma wlp_userinit c s (Q : unit → ctx → kstate W → Prop) :
  zeroed s → (∀ c' s', pinv s' → 0 < nextpid s' → Q tt c' s') →
  wlp (userinit junk_tf) Q (λ _ _ _, True) c s.
Proof.
  intros Hz HQ. unfold userinit. wstep.
  apply wlp_allocproc; [by apply zeroed_pinv|destruct Hz as (_ & -> & _); lia|by intros; wsteps| |done].
  intros i k c1 s1 Hb Ht. wstep. apply wlp_modify.
  assert (born i (fresh_proc k (ticks s)) (with_initproc (Some i) s) (with_initproc (Some i) s1)) as Hb'
    by (by destruct Hb as (? & ? & ?)).
  clear Hb. revert Hb'. generalize (with_initproc (Some i) s1). clear s1 Ht. intros s1 Hb.
  wstep. apply wlp_lift; [|done]. intros d c2 w2. apply (born_low _ _ _ _ w2) in Hb. fill Hb.
  destruct (d =? 0); [wsteps|]. wstep. apply wlp_lift; [|done]. intros _ c3 w3.
  apply (born_low _ _ _ _ w3) in Hb. fill Hb. fill Hb. fill Hb.
  wstep. apply wlp_lift; [|done]. intros cw c4 w4. apply (born_low _ _ _ _ w4) in Hb. fill Hb.
  wsteps. apply wlp_upd. apply (born_step _ _ _ _ (set_state RUNNABLE)) in Hb; [|done].
  wsteps. apply wlp_change_queue. intros j c5 _. wsteps.
  apply (born_mono _ _ first_process) in Hb.
  2: { intros p _ Hp. repeat destruct Hp as (? & Hp & ->). by destruct Hp as (_ & ? & _). }
  destruct (born_first _ _ _ Hz Hb) as [Hinv Hn]. apply HQ; [|done].
  eapply hush_pinv; [exact Hinv|]. by apply hush_alter; [apply hush_refl|].
Qed.

(** ** The system *)

(** The state [s'] in which [m], run from [s], returns or goes to sleep. *)
Definition ends {A} (m : M (kstate W) A) (c : ctx) s s' : Prop :=
  (∃ a c', m c s = Ret a c' s') ∨ (∃ ch c', m c s = Sleep ch c' s').

Definition running (i : nat) s : Prop := ∃ p, ptable s !! i = Some p ∧ state p = RUNNING.

(** A step of the system: one process operation, by a running process where
    the code has one, or the work of a CPU outside any process.  [ps_other] is
    the rest of the kernel, which does not touch the process table.  A process
    id is given out only while the counter has not wrapped. *)
Inductive pstep : kstate W → kstate W → Prop :=
  | ps_fork me c s s' : running me s → nextpid s < 2147483647 → ends (fork junk_tf me) c s s' → pstep s s'
  | ps_exit me c s s' : running me s → ends (exit me) c s s' → pstep s s'
  | ps_wait me c s s' : running me s → ends (wait me) c s s' → pstep s s'
  | ps_kill n c s s' : ends (kill n) c s s' → pstep s s'
  | ps_sleep me ch lk c s s' : running me s → (∀ j, ch ≠ ChProc j) → ends (sleep me ch lk) c s s' → pstep s s'
  | ps_sleep_return me lk c s s' : running me s → ends (sleep_return me lk) c s s' → pstep s s'
  | ps_wakeup ch c s s' : ends (wakeup ch) c s s' → pstep s s'
  | ps_yield me c s s' : running me s → ends (yield me) c s s' → pstep s s'
  | ps_growproc cpu me n c s s' : running me s → ends (growproc cpu me n) c s s' → pstep s s'
  | ps_change_queue n q c s s' : ends (change_queue n q) c s s' → pstep s s'
  | ps_burst n b cf c s s' : ends (set_initial_burst_confidence n b cf) c s s' → pstep s s'
  | ps_scheduler cpu last c s s' : (last < NPROC)%nat → ends (scheduler_iter cpu last) c s s' → pstep s s'
  | ps_aging c s s' : Lptable ∉ held c → ends aging c s s' → pstep s s'
  | ps_other s s' : ptable s' = ptable s → nextpid s' = nextpid s → initproc s' = initproc s → pstep s s'.

Inductive reachable : kstate W → Prop :=
  | reach_boot c a c' s s' : zeroed s → userinit junk_tf c s = Ret a c' s' → reachable s'
  | reach_step s s' : reachable s → pstep s s' → reachable s'.

Lemma ends_wlp {A} (m : M (kstate W) A) c s s' (P : kstate W → Prop) :
  ends m c s s' → wlp m (λ _ _, P) (λ _ _, P) c s → P s'.
Proof. unfold wlp. intros [(a & c' & E)|(ch & c' & E)]; by rewrite E. Qed.

Lemma running_alive me s : running me s → ∃ q, ptable s !! me = Some q ∧ alive (state q).
Proof. intros (p & Hp & Hs). exists p. rewrite Hs. split; [done|]. right. by right. Qed.

(** Changes that leave the table's invariant alone, one slot at a time. *)
Lemma pinv_alter s k f :
  pinv s → (∀ p, ptable s !! k = Some p → quiet k p (f p)) →
  pinv (with_ptable (alter f k (ptable s)) s).
Proof. intros. by apply tinv_alter_quiet. Qed.

Lemma quiet_run i p x :
  state p = RUNNING ∨ state p = RUNNABLE ∨ state p = SLEEPING →
  x = RUNNING ∨ x = RUNNABLE → quiet i p (set_state x p).
Proof.
  intros Hs Hx. destruct Hs as [Hs|[Hs|Hs]], Hx as [-> | ->];
    split; simpl; rewrite ?Hs; unfold alive; naive_solver.
Qed.

Lemma kill_pinv n c s s' : pinv s → ends (kill n) c s s' → pinv s'.
Proof.
  intros Hinv He. apply (ends_wlp _ _ _ _ pinv He). unfold kill. wsteps.
  destruct (find_proc _ _) as [i|]; wsteps; [|done]. apply wlp_upd. wsteps.
  set (s1 := with_ptable _ _).
  assert (pinv s1) as H1 by (apply pinv_alter; [done|]; intros; by apply still_quiet).
  destruct (bool_decide_reflect (state (proc_at i s1) = SLEEPING)) as [Hs|]; wsteps; [|done].
  apply wlp_upd. wsteps. apply pinv_alter; [done|]. intros p Hp.
  unfold proc_at in Hs. rewrite Hp in Hs. apply quiet_run; [|by right]. right. by right.
Qed.

Lemma sleep_pinv me ch lk c s s' :
  pinv s → running me s → (∀ j, ch ≠ ChProc j) → ends (sleep me ch lk) c s s' → pinv s'.
Proof.
  intros Hinv (p & Hp & Hrun) Hch He. apply (ends_wlp _ _ _ _ pinv He). unfold sleep.
  assert (∀ c, wlp (upd me (set_chan (Some ch));; upd me (set_state SLEEPING);; sched me)
    (λ _ _, pinv) (λ _ _, pinv) c s) as Htail.
  { intros c0. wstep. apply wlp_upd. wstep. apply wlp_upd. apply wlp_sched. intros c1.
    simpl ptable. rewrite (alter_insert _ me p _ Hp), !alter_insert_same by (by eapply lookup_lt_Some).
    rewrite <- (alter_insert (ptable s) me p (λ p, set_context Csched (set_state SLEEPING
      (set_chan (Some ch) p))) Hp).
    apply (tinv_alter_quiet (ptable s)); [exact Hinv|]. intros q Hq. simplify_eq.
    split; simpl; try done; try (rewrite Hrun; done); [intros _; by left|].
    intros [_ [= ->]]. by destruct (Hch me). }
  wstep. case_match; wsteps; apply Htail.
Qed.

Lemma wakeup_pinv ch c s s' : pinv s → ends (wakeup ch) c s s' → pinv s'.
Proof.
  intros Hinv He. apply (ends_wlp _ _ _ _ pinv He). unfold wakeup. wsteps. apply wlp_modify.
  wsteps. by apply tinv_wake.
Qed.

Lemma yield_pinv me c s s' : pinv s → running me s → ends (yield me) c s s' → pinv s'.
Proof.
  intros Hinv (p & Hp & Hrun) He. apply (ends_wlp _ _ _ _ pinv He). unfold yield. wsteps.
  apply wlp_upd. apply wlp_sched. intros c1. apply pinv_alter; [|intros; by apply still_quiet].
  apply pinv_alter; [done|]. intros q Hq. simplify_eq. apply quiet_run; [by left|by right].
Qed.

(** Changes of fields the invariant does not mention. *)
Lemma still_pinv s k f :
  pinv s → (∀ p, still k p (f p)) → pinv (with_ptable (alter f k (ptable s)) s).
Proof. intros ? Hf. apply pinv_alter; [done|]. intros. by apply still_quiet. Qed.

Lemma sleep_return_pinv me lk c s s' :
  pinv s → running me s → ends (sleep_return me lk) c s s' → pinv s'.
Proof.
  intros Hinv (p & Hp & Hrun) He. apply (ends_wlp _ _ _ _ pinv He). unfold sleep_return.
  assert (pinv (with_ptable (alter (set_chan None) me (ptable s)) s)).
  { apply pinv_alter; [done|]. intros q Hq. split; simpl; try done. naive_solver. }
  wstep. apply wlp_upd. case_match; wsteps; done.
Qed.

Lemma growproc_pinv cpu me n c s s' : pinv s → ends (growproc cpu me n) c s s' → pinv s'.
Proof.
  intros Hinv He. apply (ends_wlp _ _ _ _ pinv He). unfold growproc. wsteps.
  assert (∀ r c w, wlp (if (negb (n =? 0) && (r =? 0))%bool then mret (-1)
    else upd me (set_sz r);; switchuvm cpu me;; mret 0)
    (λ _ _, pinv) (λ _ _, pinv) c (with_low w s)) as Htail.
  { intros r c0 w. case_match; wsteps; [done|]. apply wlp_upd. wstep. unfold switchuvm. wsteps.
    case_match; wsteps. case_match; wsteps. apply wlp_modify. wsteps. by apply (still_pinv s). }
  destruct (0 <? n); [apply wlp_lift; [auto|done]|].
  destruct (n <? 0); [apply wlp_lift; [auto|done]|]. wsteps.
  destruct s as [? ? ? ? ? ? ? ? ? w]. apply (Htail _ _ w).
Qed.

Lemma wlp_run_process cpu i p (r : turn * nat) c s :
  pinv s → ptable s !! i = Some p → state p = RUNNABLE →
  wlp (run_process_on_cpu cpu i;; mret r) (λ _ _, pinv) (λ _ _, pinv) c s.
Proof.
  intros Hinv Hi Hr. unfold run_process_on_cpu, switchuvm. wsteps. apply wlp_modify. wsteps.
  case_match; wsteps. case_match; wsteps. apply wlp_modify. wsteps. apply wlp_upd. wsteps.
  apply (pinv_alter s); [done|]. intros q Hq. simplify_eq.
  apply quiet_run; [right; by left|by left].
Qed.

Lemma scheduler_pinv cpu last c s s' :
  pinv s → (last < NPROC)%nat → ends (scheduler_iter cpu last) c s s' → pinv s'.
Proof.
  intros Hinv Hlast He. apply (ends_wlp _ _ _ _ pinv He). unfold scheduler_iter. wsteps.
  pose proof (rr_pick (ptable s) last (t_len _ _ _ Hinv) Hlast) as HR.
  pose proof (sjf_pick (ticks s) (ptable s)) as HS. pose proof (fcfs_pick (ptable s)) as HF.
  destruct (if 0 <? RR_remain_time _ then _ else None) as [i|] eqn:H1.
  { destruct (pick_some RR s _ _ _ HR H1) as (_ & p & ? & ? & _). by eapply wlp_run_process. }
  destruct (if 0 <? SJF_remain_time _ then _ else None) as [i|] eqn:H2.
  { destruct (pick_some SJF s _ _ _ HS H2) as (_ & p & ? & ? & _). by eapply wlp_run_process. }
  destruct (if 0 <? FCFS_remain_time _ then _ else None) as [i|] eqn:H3.
  { destruct (pick_some FCFS s _ _ _ HF H3) as (_ & p & ? & ? & _). by eapply wlp_run_process. }
  wstep. apply wlp_modify. wsteps. done.
Qed.

Lemma pstep_pinv s s' : pinv s → pstep s s' → pinv s'.
Proof.
  intros Hinv Hs. pose proof (t_np _ _ _ Hinv) as Hnp.
  inversion Hs as [me c ? ? Hr Hn He|me c ? ? [p [Hp Hst]] He|me c ? ? [p [Hp Hst]] He|n c ? ? He
    |me ch lk c ? ? Hr Hch He|me lk c ? ? Hr He|ch c ? ? He|me c ? ? Hr He|cpu me n c ? ? Hr He
    |n q c ? ? He|n b cf c ? ? He|cpu last c ? ? Hl He|c ? ? Hl He|? ? Hpt Hn Hi]; subst.
  - apply (ends_wlp _ _ _ _ pinv He). apply wlp_fork; try done; [by apply running_alive|].
    intros i d c' s1 Hb. eapply (born_pinv i (Some me)); [done|done| |].
    + intros j [= <-]. by apply running_alive.
    + eapply born_mono; [exact Hb|]. intros q _. apply child_embryo.
  - apply (ends_wlp _ _ _ _ pinv He). by eapply wlp_exit.
  - apply (ends_wlp _ _ _ _ pinv He). by eapply wlp_wait.
  - by eapply kill_pinv.
  - by eapply sleep_pinv.
  - by eapply sleep_return_pinv.
  - by eapply wakeup_pinv.
  - by eapply yield_pinv.
  - by eapply growproc_pinv.
  - apply (ends_wlp _ _ _ _ pinv He). apply wlp_change_queue. intros i c' _. by apply still_pinv.
  - apply (ends_wlp _ _ _ _ pinv He). unfold set_initial_burst_confidence. wstep.
    apply wlp_get_proc_by_pid. intros c'. case_match; wsteps. apply wlp_upd. wsteps.
    by apply still_pinv.
  - by eapply scheduler_pinv.
  - apply (ends_wlp _ _ _ _ pinv He). unfold wlp. rewrite aging_ok by done.
    apply (tinv_quiet (ptable s)); [done|]. apply tmap_fmap. intros. apply still_quiet, age_still.
  - unfold pinv. by rewrite Hpt, Hn, Hi.
Qed.

Lemma reachable_pinv s : reachable s → pinv s.
Proof.
  induction 1 as [c a c' s s' Hz He|s s' _ IH Hs]; [|by eapply pstep_pinv].
  eapply (wlp_Ret _ (λ _ _, pinv)); [|exact He]. by apply wlp_userinit.
Qed.

End Inv.
