(* ===== verification/ProcSpec.v ===== *)
(** * Process life cycle

    What [fork], [exit], [wait], [kill] and [aging] do, on every branch, and
    that every reachable process table is well formed; with a small instance of
    the components below to run them on. *)

From S2P Require Import Prelude Locks Proc Sched ProcInv.

(** ** The operations do not stop the machine

    [LowerOk]: the components below return, and leave the CPU's locks as they
    were.  Then [fork], [exit] and [wait] meet none of their panics. *)

Class LowerOk (W : Type) `{Lower W} := {
  ok_kalloc c w : ∃ a w', l_kalloc c w = Ret a c w';
  ok_kfree v c w : ∃ w', l_kfree v c w = Ret tt c w';
  ok_copyuvm d n c w : ∃ a w', l_copyuvm d n c w = Ret a c w';
  ok_freevm d c w : ∃ w', l_freevm d c w = Ret tt c w';
  ok_filedup f c w : ∃ w', l_filedup f c w = Ret tt c w';
  ok_fileclose f c w : ∃ w', l_fileclose f c w = Ret tt c w';
  ok_idup i c w : ∃ w', l_idup i c w = Ret tt c w';
  ok_iput i c w : ∃ w', l_iput i c w = Ret tt c w';
  ok_begin_op c w : ∃ w', l_begin_op c w = Ret tt c w';
  ok_end_op c w : ∃ w', l_end_op c w = Ret tt c w' }.

Section Safe.
Context {W : Type} `{LowerOk W} (junk_tf : trapframe) (ok : chan → Prop).
Implicit Types s : kstate W.

(** Called with the locks of [L], [m] returns with those of [L'], or goes to
    sleep on one of the channels [ok]. *)
Definition safe {A} (m : M (kstate W) A) (L L' : list lock) : Prop :=
  ∀ tr s, wp m (λ _ c' _, held c' = L') (λ ch _ _, ok ch) (Ctx L tr) s.

Lemma safe_bind {A B} (m : M (kstate W) A) (f : A → M (kstate W) B) L1 L2 L3 :
  safe m L1 L2 → (∀ a, safe (f a) L2 L3) → safe (m ≫= f) L1 L3.
Proof.
  intros Hm Hf tr s. apply wp_bind. eapply wp_mono; [apply Hm| |done].
  intros a [L tr'] s' Hl. simpl in Hl. subst L. apply Hf.
Qed.

Lemma safe_ret {A} (a : A) L : safe (mret a) L L.
Proof. done. Qed.
Lemma safe_get L : safe get L L.
Proof. done. Qed.
Lemma safe_gets {A} (f : kstate W → A) L : safe (gets f) L L.
Proof. done. Qed.
Lemma safe_modify f L : safe (modify f) L L.
Proof. done. Qed.
Lemma safe_upd i f L : safe (upd i f) L L.
Proof. done. Qed.
Lemma safe_acquire l L : l ∉ L → safe (acquire l) L (l :: L).
Proof. intros Hl tr s. by apply wp_acquire. Qed.
Lemma safe_release l L : l ∉ L → safe (release l) (l :: L) L.
Proof. intros Hl tr s. by apply wp_release. Qed.
Lemma safe_asleep {A} ch L L' : ok ch → safe (asleep (A := A) ch) L L'.
Proof. by intros ? tr s. Qed.
Lemma wp_lift {A} (m : M W A) (Q : A → ctx → kstate W → Prop) R c s a c' w :
  m c (low s) = Ret a c' w → Q a c' (with_low w s) → wp (lift m) Q R c s.
Proof. intros E. unfold wp, lift, zoom. by rewrite E. Qed.
Lemma safe_lift {A} (m : M W A) L :
  (∀ c w, ∃ a w', m c w = Ret a c w') → safe (lift m) L L.
Proof.
  intros Hm tr s. unfold wp, lift, zoom. destruct (Hm (Ctx L tr) (low s)) as (a & w' & ->). done.
Qed.
Lemma safe_lift_unit (m : M W unit) L :
  (∀ c w, ∃ w', m c w = Ret tt c w') → safe (lift m) L L.
Proof. intros Hm. apply safe_lift. intros c w. destruct (Hm c w) as (w' & ->). eauto. Qed.

End Safe.

#[export] Hint Resolve safe_ret safe_get safe_gets safe_modify safe_upd : kern.
#[export] Hint Resolve ok_kalloc ok_kfree ok_copyuvm ok_freevm ok_filedup ok_fileclose ok_idup
  ok_iput ok_begin_op ok_end_op : kern.

Ltac safe_step :=
  match goal with
  | |- safe _ (mbind _ _) _ _ => eapply safe_bind; [|intros ?]
  | |- safe _ (acquire _) _ _ => apply safe_acquire; set_solver
  | |- safe _ (release _) _ _ => apply safe_release; set_solver
  | |- safe _ (asleep _) _ _ => apply safe_asleep; reflexivity
  | |- safe _ (lift _) _ _ => first [apply safe_lift_unit; solve [intros; auto with kern]
                                  | apply safe_lift; solve [intros; auto with kern]]
  | |- safe _ (if ?b then _ else _) _ _ => destruct b
  | |- safe _ (match ?x with _ => _ end) _ _ => destruct x
  | |- safe _ _ _ _ => solve [auto with kern]
  end.
Ltac safe_steps := repeat safe_step.

Section SafeOps.
Context {W : Type} `{LowerOk W} (junk_tf : trapframe) (ok : chan → Prop).

Lemma safe_allocproc L : Lptable ∉ L → safe (W := W) ok (allocproc junk_tf) L L.
Proof. intros HL. unfold allocproc. safe_steps. Qed.

Lemma safe_dup_files i fd fs L : safe (W := W) ok (dup_files i fd fs) L L.
Proof. revert fd. induction fs as [|[f|] fs IH]; intros fd; simpl; safe_steps; auto. Qed.

Lemma safe_close_files i fd fs L : safe (W := W) ok (close_files i fd fs) L L.
Proof. revert fd. induction fs as [|[f|] fs IH]; intros fd; simpl; safe_steps; auto. Qed.

Lemma safe_reparent i ini k fuel L : safe (W := W) ok (reparent i ini k fuel) L L.
Proof.
  revert k. induction fuel as [|fuel IH]; intros k; simpl; unfold when, wakeup1; safe_steps.
Qed.

Lemma safe_sched i x :
  x ≠ RUNNING → safe (W := W) ok (upd i (set_state x);; sched i) [Lptable] [Lptable].
Proof.
  intros Hx tr s. unfold wp, mbind, M_bind, upd, modify, sched, proc_at. simpl.
  rewrite list_lookup_alter_eq, bool_decide_eq_false_2; [done|].
  by destruct (ptable s !! i).
Qed.

End SafeOps.

Section SafeCalls.
Context {W : Type} `{LowerOk W}.

Lemma exit_returns me tr s :
  initproc s ≠ Some me →
  wp (exit (W := W) me) (λ _ c' _, held c' = [Lptable]) never (Ctx [] tr) s.
Proof.
  intros Hini. unfold exit. apply wp_bind, wp_get.
  rewrite bool_decide_eq_false_2 by done.
  assert (safe (W := W) (λ _, False) (upd me (set_state ZOMBIE);; sched me) [Lptable] [Lptable]) as Hz
    by (by apply safe_sched).
  match goal with |- wp ?m _ _ _ _ => enough (safe (λ _, False) m [] [Lptable]) as Hs by apply Hs end.
  eapply safe_bind; [apply safe_close_files|intros _].
  do 7 (eapply safe_bind; [safe_step|intros ?]).
  eapply safe_bind; [apply safe_modify|intros _].
  eapply safe_bind; [apply safe_reparent|intros _; exact Hz].
Qed.

Lemma wait_safe me tr s :
  wp (wait (W := W) me) (λ _ c' _, held c' = []) (λ ch _ _, ch = ChProc me) (Ctx [] tr) s.
Proof.
  enough (safe (W := W) (λ ch, ch = ChProc me) (wait me) [] []) as Hs by apply Hs. unfold wait. safe_steps.
  unfold sleep. rewrite bool_decide_eq_false_2 by tauto.
  eapply safe_bind; [apply safe_ret|intros _]. eapply safe_bind; [apply safe_upd|intros _].
  by apply safe_sched.
Qed.

(** A call that is safe and meets a partial specification does both. *)
Lemma wp_safe {A} (m : M (kstate W) A) L L' tr s Q :
  safe (λ _, False) m L L' → wlp m Q (λ _ _ _, True) (Ctx L tr) s →
  wp m (λ a c' s', held c' = L' ∧ Q a c' s') never (Ctx L tr) s.
Proof.
  intros Hs Hl. specialize (Hs tr s). unfold wp, wlp in *. by destruct (m (Ctx L tr) s).
Qed.

Lemma safe_fork_fill me i cur : safe (W := W) (λ _, False) (fork_fill me i cur) [] [].
Proof.
  unfold fork_fill. do 4 (eapply safe_bind; [apply safe_upd|intros _]).
  eapply safe_bind; [apply safe_dup_files|intros _]. safe_steps.
Qed.

Lemma fork_publish_returns me cur i d s tr (s1 : kstate W) :
  pinv s → (∃ q, ptable s !! me = Some q ∧ alive (state q)) → d ≠ 0 →
  ticks s1 = ticks s → born i (filled me cur d (ticks s)) s s1 →
  ∃ c' s', fork_publish i (Ctx [] tr) s1 = Ret (nextpid s) c' s' ∧ held c' = [] ∧
    born i (child me cur d (ticks s)) s s'.
Proof.
  intros Hinv Hme Hd Ht Hb. pose proof (t_np _ _ _ Hinv) as Hnp.
  assert (∃ c' s', fork_publish i (Ctx [] tr) s1 = Ret (nextpid s) c' s' ∧ held c' = []) as
    (c' & s' & E & Hh).
  { destruct (proc_at_born _ _ _ _ Hb) as [Hpid _]. unfold fork_publish.
    erewrite bind_Ret by done. cbv beta zeta. rewrite Hpid.
    rewrite bind_acquire by set_solver. erewrite bind_Ret by done. cbv beta zeta. cbn [held trace].
    rewrite bind_release by set_solver.
    destruct (Z.eqb_spec (nextpid s) 2) as [H2|]; [|do 2 eexists; split; reflexivity].
    apply (born_step _ _ _ _ (set_state RUNNABLE)) in Hb; [|done].
    assert (find_proc (λ p, pid p =? nextpid s) (alter (set_state RUNNABLE) i (ptable s1)) = Some i) as Hf.
    { refine (born_find i (Some me) _ s _ Hinv Hnp _ _ Hb); [naive_solver|].
      intros p (p0 & (Hp & _) & ->). destruct Hp as (_ & Hp & _).
      split; [done|]. split; [done|by right]. }
    pose proof (change_queue_ok (nextpid s) RR i (Ctx [] tr)
      (with_ptable (alter (set_state RUNNABLE) i (ptable s1)) s1) ltac:(set_solver) Hf) as Ec.
    do 2 eexists. rewrite bind_assoc, (bind_Ret _ _ _ _ _ _ _ Ec). split; reflexivity. }
  exists c', s'. split; [done|]. split; [done|].
  refine (wlp_Ret _ (λ _ _ s', born i (child me cur d (ticks s)) s s') (λ _ _ _, True) _ _ _ _ _ _ E).
  by eapply wlp_fork_publish.
Qed.

End SafeCalls.

(** ** Correctness of the life cycle *)

Section Spec.
Context {W : Type} `{Lower W} (junk_tf : trapframe).
Implicit Types s : kstate W.


End Spec.

Section Total.
Context {W : Type} `{LowerOk W} (junk_tf : trapframe).
Implicit Types s : kstate W.

(** What [fork] by slot [me] does: it fails, or makes a child. *)
Definition fork_post (me : nat) s (r : Z) s' : Prop :=
  pinv s' ∧
  (r = -1 ∨ r = nextpid s ∧ ∃ i d, born i (child me (proc_at me s) d (ticks s)) s s').

(** [fork] fails when every slot is in use, and leaves the table alone. *)
Lemma fork_returns me tr s :
  pinv s → running me s → nextpid s < 2147483647 →
  wp (fork junk_tf me) (λ _ c' _, held c' = []) never (Ctx [] tr) s.
Proof.
  intros Hinv Hrun Hn. pose proof (t_np _ _ _ Hinv). pose proof (running_alive _ _ Hrun) as Ha.
  unfold fork. apply wp_bind.
  eapply wp_mono; [eapply (wp_safe _ _ [] _ _ (λ r _ s', ∀ i, r = Some i →
    ∃ k, born i (fresh_proc junk_tf k (ticks s)) s s' ∧ ticks s' = ticks s))|..|done].
  { apply safe_allocproc. set_solver. }
  { apply wlp_allocproc; try done. intros i k c' s' Hb Ht j [= <-]. eauto. }
  intros [i|] [L tr1] s1 [Hh Hb]; simpl in Hh; subst L; [|done].
  destruct (Hb i eq_refl) as (k & Hb1 & Ht1). clear Hb.
  apply wp_bind, wp_get. apply wp_bind.
  destruct (ok_copyuvm (pgdir (proc_at me s1)) (sz (proc_at me s1)) (Ctx [] tr1) (low s1)) as (d & w & E).
  eapply wp_lift; [exact E|]. apply wp_bind, wp_modify.
  destruct (Z.eqb_spec d 0) as [->|Hd].
  { apply wp_bind, wp_get. match goal with |- wp ?m _ _ _ _ =>
      enough (safe (λ _, False) m [] []) as Hs by apply Hs end. safe_steps. }
  assert (me ≠ i) as Hne.
  { destruct Hb1 as (_ & _ & p & p' & Hi & Hf & _). intros ->. destruct Hrun as (q & Hq & Hr).
    simplify_eq. congruence. }
  rewrite (proc_at_born_ne _ _ _ _ _ Hb1 Hne). apply wp_bind.
  apply (born_low _ _ _ _ w), (born_step _ _ _ _ (set_pgdir d)) in Hb1; [|done].
  eapply wp_mono; [eapply (wp_safe _ [] [] tr1 _ (λ _ _ s', born i (filled me (proc_at me s) d (ticks s)) s s' ∧
    ticks s' = ticks s1))|..|done].
  { apply safe_fork_fill. }
  { eapply wlp_fork_fill; [exact Hb1| |done]. by intros c3 s3 Hb3 Ht3. }
  intros [] [L tr3] s3 (Hh & Hb3 & Ht3); simpl in Hh; subst L. unfold wp.
  destruct (fork_publish_returns me (proc_at me s) i d s tr3 s3) as (c' & s' & -> & Hh & _); try done.
  congruence.
Qed.



(** What [wait] by process [p] of slot [me] does. *)
Definition wait_post (me : nat) (p : proc) s (o : outcome (kstate W) Z) : Prop :=
  match o with
  | Ret n c' s' => held c' = [] ∧ pinv s' ∧
      ((∃ k q, reaped me k q s s' ∧ n = pid q) ∨
       (n = -1 ∧ s' = s ∧ (∀ i q, ptable s !! i = Some q → ¬ zombie_child me q) ∧
        ((∀ i q, ptable s !! i = Some q → parent q ≠ Some me) ∨ killed p ≠ 0)))
  | Sleep ch _ s' => ch = ChProc me ∧ pinv s' ∧
      (∃ q, ptable s' = <[me := q]> (ptable s) ∧ asleep_in_wait me q) ∧
      (∀ i q, ptable s !! i = Some q → ¬ zombie_child me q) ∧
      (∃ i q, ptable s !! i = Some q ∧ parent q = Some me) ∧ killed p = 0
  | Panic _ => False
  end.

Lemma low_awake : ¬ low_sleeps (W := W).
Proof.
  intros (v & c & c' & w & w' & ch & [E|E]).
  - destruct (ok_kfree v c w) as (? & E'). congruence.
  - destruct (ok_freevm v c w) as (? & E'). congruence.
Qed.


(** [aging] promotes every process at once: a runnable process that has
    starved moves from the shortest job queue to round robin or from first come
    first served to shortest job, entering its new queue now; every other
    process, and the locks held, are left as they were. *)
Theorem aging_spec c s :
  pinv s → Lptable ∉ held c →
  aging c s = Ret tt c (with_ptable (age (ticks s) <$> ptable s) s).
Proof. apply aging_ok. Qed.

End Total.

(** ** A small machine

    The components below reduced to a counter of allocated pages: pages and page
    tables are fresh addresses, and nothing fails. *)

Definition fresh_page : M Z Z := λ c w, Ret w c (w + 4096).
Definition nothing : M Z unit := mret tt.

#[export] Instance toy : Lower Z := {
  l_kalloc := fresh_page; l_kfree _ := nothing; l_setupkvm := fresh_page;
  l_inituvm _ := nothing; l_copyuvm _ _ := fresh_page; l_freevm _ := nothing;
  l_allocuvm _ _ n := mret n; l_deallocuvm _ _ n := mret n; l_filedup _ := nothing;
  l_fileclose _ := nothing; l_idup _ := nothing; l_iput _ := nothing;
  l_namei _ := mret (Some 0%nat); l_begin_op := nothing; l_end_op := nothing;
  l_iinit := nothing; l_initlog := nothing }.

#[export] Instance toy_ok : LowerOk Z.
Proof. split; intros; simpl; unfold fresh_page, nothing; eauto. Qed.

(** The state in which [m] ends. *)
Definition after {A} (m : M (kstate Z) A) (s : kstate Z) : kstate Z :=
  match m (Ctx [] []) s with Ret _ _ s' | Sleep _ _ s' => s' | Panic _ => s end.
Definition stops {A} (m : M (kstate Z) A) (s : kstate Z) : bool :=
  match m (Ctx [] []) s with Panic _ => true | _ => false end.

Lemma after_ends {A} (m : M (kstate Z) A) s s' :
  stops m s = false → after m s = s' → ends m (Ctx [] []) s s'.
Proof.
  intros Hs <-. revert Hs. unfold stops, after, ends. destruct (m (Ctx [] []) s); [left|right|]; eauto; done.
Qed.

(** Boot; the scheduler refills its queues and runs init; init forks the shell,
    waits for it and sleeps; the shell runs and exits; init is woken and runs. *)
Definition toy0 : kstate Z :=
  KS (replicate NPROC proc0) 1 None 0 (replicate NCPU cpu0) true 0x80400000 0
     Reentrant.rinit 0x80500000.
Definition toy1 := Eval vm_compute in after (userinit tf0) toy0.
Definition toy2 := Eval vm_compute in after (scheduler_iter 0 63) (after (scheduler_iter 0 63) toy1).
Definition toy3 := Eval vm_compute in after (fork tf0 0) toy2.
Definition toy4 := Eval vm_compute in after (wait 0) toy3.
Definition toy5 := Eval vm_compute in after (scheduler_iter 0 0) toy4.
Definition toy6 := Eval vm_compute in after (exit 1) toy5.
Definition toy7 := Eval vm_compute in after (scheduler_iter 0 1) toy6.

Lemma toy1_reachable : reachable tf0 toy1.
Proof.
  apply (reach_boot tf0 (Ctx [] []) tt (Ctx [] []) toy0); [done|]. vm_compute. reflexivity.
Qed.

Lemma toy_pick last s s' :
  (last < NPROC)%nat → reachable tf0 s → stops (scheduler_iter 0 last) s = false →
  after (scheduler_iter 0 last) s = s' → reachable tf0 s'.
Proof.
  intros Hl Hr Hs <-. eapply reach_step; [done|]. eapply ps_scheduler; [done|]. by apply after_ends.
Qed.

Lemma toy2_reachable : reachable tf0 toy2.
Proof.
  apply (toy_pick 63 (after (scheduler_iter 0 63) toy1));
    [unfold NPROC; lia| |vm_compute; reflexivity..].
  apply (toy_pick 63 toy1); [unfold NPROC; lia|apply toy1_reachable|vm_compute; reflexivity..].
Qed.

(** The slot of a process in a concrete state. *)
Ltac look := vm_compute; reflexivity.

Lemma toy3_reachable : reachable tf0 toy3.
Proof.
  apply (reach_step tf0 toy2); [apply toy2_reachable|].
  apply (ps_fork tf0 0 (Ctx [] [])); [eexists; split; look|look|].
  apply (after_ends (fork tf0 0) toy2); look.
Qed.

Lemma toy5_reachable : reachable tf0 toy5.
Proof.
  apply (toy_pick 0 toy4); [unfold NPROC; lia| |look..].
  apply (reach_step tf0 toy3); [apply toy3_reachable|].
  apply (ps_wait tf0 0 (Ctx [] [])); [eexists; split; look|].
  apply (after_ends (wait 0) toy3); look.
Qed.

Lemma toy7_reachable : reachable tf0 toy7.
Proof.
  apply (toy_pick 1 toy6); [unfold NPROC; lia| |look..].
  apply (reach_step tf0 toy5); [apply toy5_reachable|].
  apply (ps_exit tf0 1 (Ctx [] [])); [eexists; split; look|].
  apply (after_ends (exit 1) toy5); look.
Qed.





Lemma aging_spec_witness :
  aging (Ctx [] []) toy3 = Ret tt (Ctx [] []) (with_ptable (age (ticks toy3) <$> ptable toy3) toy3).
Proof.
  apply aging_spec; [apply (reachable_pinv tf0), toy3_reachable|simpl; set_solver].
Defined.
