(* ===== verification/Syscall.v ===== *)
(** * System calls

    [syscall.c]: fetching arguments from user memory and dispatching;
    [sysproc.c]: the calls on processes and the lab's calls; and
    [create_palindrome] of [proc.c].  The calls of [sysfile.c] are an
    interface, [FileCalls], and so is the memory a process sees, [UserMem]; they
    are implemented in [Exec.v] and [Sysfile.v].

    A call runs as process [me] on CPU [cpu]; its result is [None] when it does
    not return to its caller ([exit]). *)

From S2P Require Import Prelude Locks Proc.

(** The byte at a user address under a page table. *)
Class UserMem (W : Type) := u_byte : W → Z → Z → Z.

Class FileCalls (W : Type) := {
  sys_pipe : nat → M (kstate W) Z;   sys_read : nat → M (kstate W) Z;
  sys_exec : nat → M (kstate W) Z;   sys_fstat : nat → M (kstate W) Z;
  sys_chdir : nat → M (kstate W) Z;  sys_dup : nat → M (kstate W) Z;
  sys_open : nat → M (kstate W) Z;   sys_write : nat → M (kstate W) Z;
  sys_mknod : nat → M (kstate W) Z;  sys_unlink : nat → M (kstate W) Z;
  sys_link : nat → M (kstate W) Z;   sys_mkdir : nat → M (kstate W) Z;
  sys_close : nat → M (kstate W) Z;  sys_move_file : nat → M (kstate W) Z }.

(** ** Arguments *)

Section Fetch.
(** The user memory [rd] and its size [size]. *)
Context (rd : Z → Z) (size : Z).

Definition word_at (a : Z) : Z :=
  rd a + 256 * rd (u32 (a + 1)) + 65536 * rd (u32 (a + 2)) + 16777216 * rd (u32 (a + 3)).

(** [None] for the result -1. *)
Definition fetchint (addr : Z) : option Z :=
  if ((size <=? addr) || (size <? u32 (addr + 4)))%bool then None else Some (i32 (word_at addr)).

(** The loop of [fetchstr] from address [s] up to [ep]. *)
Fixpoint fetchstr_loop (fuel : nat) (s : Z) (pp : Z) : option Z :=
  match fuel with
  | O => None
  | S fuel => if rd s =? 0 then Some (s - pp) else fetchstr_loop fuel (s + 1) pp
  end.
(** The string's address and its length. *)
Definition fetchstr (addr : Z) : option (Z * Z) :=
  if size <=? addr then None
  else (λ n, (addr, n)) <$> fetchstr_loop (Z.to_nat (size - addr)) addr addr.

Definition argint (user_esp n : Z) : option Z := fetchint (u32 (user_esp + 4 + 4 * n)).

Definition argptr (user_esp n sz : Z) : option Z :=
  match argint user_esp n with
  | None => None
  | Some i =>
      if ((sz <? 0) || (size <=? u32 i) || (size <? u32 (u32 i + sz)))%bool then None
      else Some (u32 i)
  end.

Definition argstr (user_esp n : Z) : option (Z * Z) :=
  match argint user_esp n with
  | None => None
  | Some addr => fetchstr (u32 addr)
  end.

End Fetch.

(** ** [create_palindrome] *)

(** The loop that takes the digits of [num] off its end, onto [num_str]. *)
Fixpoint digits_loop (fuel : nat) (num : Z) (num_str : list Z) : list Z :=
  match fuel with
  | O => num_str
  | S fuel => if 0 <? num then digits_loop fuel (num / 10) (num_str ++ [num mod 10 + 48]) else num_str
  end.

(** [palindrome_str] after [i] rounds of the second loop. *)
Fixpoint mirror_loop (i : nat) (num_str : list Z) (palindrome_str : list Z) : list Z :=
  match i with
  | O => palindrome_str
  | S i =>
      let s := mirror_loop i num_str palindrome_str in
      let n := length num_str in
      <[(n + i)%nat := nth i num_str 0]> (<[i := nth (n - i - 1) num_str 0]> s)
  end.

(** What it prints for a non-negative [num]: an [int] has at most ten digits. *)
Definition palindrome_of (num : Z) (junk : list Z) : list Z :=
  let num_str := digits_loop 10 num (if num =? 0 then [num mod 10 + 48] else []) in
  take (2 * length num_str) (mirror_loop (length num_str) num_str junk).

Definition string_of (l : list Z) : string :=
  String.string_of_list_ascii (map (λ z, Ascii.ascii_of_nat (Z.to_nat z)) l).

Section Calls.
Context {W : Type} `{Lower W} `{UserMem W}.
(** Values the code leaves undetermined: a fresh trap frame, the stack bytes of
    [palindrome_str], the value of [reentrantlock_test] after its bare [return;].
    [fuel] bounds the depth of its recursion. *)
Context (junk_tf : trapframe) (junk_stack : list Z) (junk_eax : Z) (fuel : nat).

(** The memory of process [me]. *)
Definition user_mem (me : nat) (s : kstate W) : Z → Z := u_byte (low s) (pgdir (proc_at me s)).

Definition arg (me : nat) (n : Z) : M (kstate W) (option Z) :=
  gets (λ s, argint (user_mem me s) (sz (proc_at me s)) (esp (tf (proc_at me s))) n).

(** Fetch argument [n], or fail with -1. *)
Definition with_arg (me : nat) (n : Z) (k : Z → M (kstate W) (option Z)) : M (kstate W) (option Z) :=
  v ← arg me n;
  match v with None => mret (Some (-1)) | Some x => k x end.

Definition returns (m : M (kstate W) Z) : M (kstate W) (option Z) := v ← m; mret (Some v).

Definition create_palindrome (num : Z) : M (kstate W) Z :=
  emit (EPrint "Palindrome of %d is %s\n"
          [PInt num; PStr (string_of (palindrome_of num junk_stack))]);;
  mret 0.

Definition sys_fork (me : nat) : M (kstate W) (option Z) := returns (fork junk_tf me).
Definition sys_exit (me : nat) : M (kstate W) (option Z) := exit me;; mret None.
Definition sys_wait (me : nat) : M (kstate W) (option Z) := returns (wait me).
Definition sys_kill (me : nat) : M (kstate W) (option Z) := with_arg me 0 (λ n, returns (kill n)).
Definition sys_getpid (me : nat) : M (kstate W) (option Z) :=
  s ← get; mret (Some (pid (proc_at me s))).
Definition sys_sbrk (cpu me : nat) : M (kstate W) (option Z) :=
  with_arg me 0 (λ n,
    s ← get;
    let addr := i32 (sz (proc_at me s)) in
    r ← growproc cpu me n;
    mret (Some (if r <? 0 then -1 else addr))).

(** The loop of [sys_sleep]; a process that was put to sleep runs
    [sleep_return] and the loop again. *)
Definition sys_sleep_loop (me : nat) (ticks0 n : Z) : M (kstate W) (option Z) :=
  s ← get;
  if u32 (ticks s - ticks0) <? u32 n then
    if negb (killed (proc_at me s) =? 0) then release Ltickslock;; mret (Some (-1))
    else sleep me ChTicks Ltickslock;; asleep ChTicks
  else release Ltickslock;; mret (Some 0).
Definition sys_sleep (me : nat) : M (kstate W) (option Z) :=
  with_arg me 0 (λ n,
    acquire Ltickslock;;
    ticks0 ← gets ticks;
    sys_sleep_loop me ticks0 n).

Definition sys_uptime : M (kstate W) (option Z) :=
  acquire Ltickslock;;
  xticks ← gets ticks;
  release Ltickslock;;
  mret (Some (i32 xticks)).

Definition sys_create_palindrome (me : nat) : M (kstate W) (option Z) :=
  s ← get;
  let num := i32 (ecx (tf (proc_at me s))) in
  if num <? 0 then mret (Some (-1)) else returns (create_palindrome num).

Definition sys_sort_syscalls (me : nat) : M (kstate W) (option Z) :=
  with_arg me 0 (λ n, returns (sort_syscalls n)).
Definition sys_get_most_invoked_syscall (me : nat) : M (kstate W) (option Z) :=
  with_arg me 0 (λ n, returns (get_most_invoked_syscall n)).
Definition sys_list_all_processes : M (kstate W) (option Z) := returns list_all_processes.
Definition sys_set_initial_burst_confidence (me : nat) : M (kstate W) (option Z) :=
  with_arg me 0 (λ n, with_arg me 1 (λ b, with_arg me 2 (λ c,
    returns (set_initial_burst_confidence n b c)))).
Definition sys_change_queue (me : nat) : M (kstate W) (option Z) :=
  with_arg me 0 (λ n, with_arg me 1 (λ q, returns (change_queue n q))).
Definition sys_print_process_information : M (kstate W) (option Z) := returns print_process_information.
Definition sys_get_number_of_total_syscalls : M (kstate W) (option Z) :=
  returns get_number_of_total_syscalls.
Definition sys_reentrantlock_test (me : nat) : M (kstate W) (option Z) :=
  with_arg me 0 (λ count,
    s ← get;
    v ← zoom rlock with_rlock (Reentrant.reentrantlock_test fuel me (pid (proc_at me s)) count);
    mret (default junk_eax <$> v)).

(** ** Dispatch *)

(** [used_syscalls[num - 1]++]: the array has [MAX_SYSCALLS] = 26 entries, and
    for larger numbers the increment lands in the words after it, the fields of
    [ti] in their order. *)
Definition bump_syscall (num : Z) (p : proc) : proc :=
  let x := ti p in
  let inc z := i32 (z + 1) in
  if num <=? Z.of_nat MAX_SYSCALLS
  then set_used (alter inc (Z.to_nat (num - 1)) (used_syscalls p)) p
  else set_ti
    (if num =? 27 then TI (inc (queue x)) (ticks_used x) (burst_time x) (creation_time x)
                          (enter_queue_time x) (last_run_time x) (confidence x)
     else if num =? 28 then TI (queue x) (inc (ticks_used x)) (burst_time x) (creation_time x)
                          (enter_queue_time x) (last_run_time x) (confidence x)
     else if num =? 29 then TI (queue x) (ticks_used x) (inc (burst_time x)) (creation_time x)
                          (enter_queue_time x) (last_run_time x) (confidence x)
     else if num =? 30 then TI (queue x) (ticks_used x) (burst_time x) (inc (creation_time x))
                          (enter_queue_time x) (last_run_time x) (confidence x)
     else TI (queue x) (ticks_used x) (burst_time x) (creation_time x)
             (inc (enter_queue_time x)) (last_run_time x) (confidence x)) p.

Context `{FileCalls W}.

(** The table [syscalls[]]. *)
Definition syscalls (cpu me : nat) (num : Z) : option (M (kstate W) (option Z)) :=
  match num with
  | 1 => Some (sys_fork me)              | 2 => Some (sys_exit me)
  | 3 => Some (sys_wait me)              | 4 => Some (returns (sys_pipe me))
  | 5 => Some (returns (sys_read me))    | 6 => Some (sys_kill me)
  | 7 => Some (returns (sys_exec me))    | 8 => Some (returns (sys_fstat me))
  | 9 => Some (returns (sys_chdir me))   | 10 => Some (returns (sys_dup me))
  | 11 => Some (sys_getpid me)           | 12 => Some (sys_sbrk cpu me)
  | 13 => Some (sys_sleep me)            | 14 => Some sys_uptime
  | 15 => Some (returns (sys_open me))   | 16 => Some (returns (sys_write me))
  | 17 => Some (returns (sys_mknod me))  | 18 => Some (returns (sys_unlink me))
  | 19 => Some (returns (sys_link me))   | 20 => Some (returns (sys_mkdir me))
  | 21 => Some (returns (sys_close me))  | 22 => Some (sys_create_palindrome me)
  | 23 => Some (returns (sys_move_file me))
  | 24 => Some (sys_sort_syscalls me)    | 25 => Some (sys_get_most_invoked_syscall me)
  | 26 => Some sys_list_all_processes    | 27 => Some (sys_set_initial_burst_confidence me)
  | 28 => Some (sys_change_queue me)     | 29 => Some sys_print_process_information
  | 30 => Some sys_get_number_of_total_syscalls
  | 31 => Some (sys_reentrantlock_test me)
  | _ => None
  end.

(** The result says whether the call came back. *)
Definition syscall (cpu me : nat) : M (kstate W) bool :=
  s ← get;
  let p := proc_at me s in
  let num := i32 (eax (tf p)) in
  match (if 0 <? num then syscalls cpu me num else None) with
  | Some f =>
      upd me (bump_syscall num);;
      r ← f;
      match r with
      | Some v => upd me (λ p, set_tf (set_eax (u32 v) (tf p)) p);; mret true
      | None => mret false
      end
  | None =>
      emit (EPrint "%d %s: unknown sys call %d\n" [PInt (pid p); PStr (name p); PInt num]);;
      upd me (λ p, set_tf (set_eax (u32 (-1)) (tf p)) p);;
      mret true
  end.

End Calls.

(** ** Arguments stay inside the process *)

Lemma fetchint_bounds rd size addr v :
  0 ≤ addr < 4294967296 → size ≤ 0x80000000 → fetchint rd size addr = Some v → addr + 4 ≤ size.
Proof.
  intros Ha Hs. unfold fetchint. destruct (_ || _)%bool eqn:E; [done|]. intros _. bool_props.
  rewrite u32_small in *; lia.
Qed.

(** C39: A pointer that [argptr] accepts covers [sz] bytes inside the memory of
    the process, for every process no larger than [KERNBASE]. *)
Theorem argptr_in_bounds rd size user_esp n sz p :
  size ≤ 0x80000000 → sz < 2147483648 → argptr rd size user_esp n sz = Some p →
  0 ≤ p < size ∧ 0 ≤ sz ∧ p + sz ≤ size.
Proof.
  intros Hs Hsz. unfold argptr. destruct (argint _ _ _ _) as [i|]; [|done].
  destruct (_ || _)%bool eqn:E; [done|]. intros [= <-]. bool_props.
  pose proof (u32_range i). rewrite (u32_small (u32 i + sz)) in *; lia.
Qed.

Lemma fetchstr_loop_spec rd fuel s pp :
  match fetchstr_loop rd fuel s pp with
  | Some n => ∃ k, (k < fuel)%nat ∧ n = s + Z.of_nat k - pp ∧ rd (s + Z.of_nat k) = 0 ∧
      ∀ j, 0 ≤ j < Z.of_nat k → rd (s + j) ≠ 0
  | None => ∀ j, 0 ≤ j < Z.of_nat fuel → rd (s + j) ≠ 0
  end.
Proof.
  revert s; induction fuel as [|fuel IH]; intros s; simpl; [lia|].
  destruct (Z.eqb_spec (rd s) 0) as [H0|H0].
  - exists 0%nat. rewrite !Z.add_0_r. split; [lia|]. split; [done|]. split; [done|]. lia.
  - specialize (IH (s + 1)).
    assert (∀ j, rd (s + 1 + j) ≠ 0 → rd (s + (j + 1)) ≠ 0) as Hs
      by (intros j; by replace (s + 1 + j) with (s + (j + 1)) by lia).
    assert (∀ m, (∀ j, 0 ≤ j < m → rd (s + 1 + j) ≠ 0) → ∀ j, 0 ≤ j < m + 1 → rd (s + j) ≠ 0) as Hall.
    { intros m Hm j Hj. destruct (decide (j = 0)) as [->|]; [by rewrite Z.add_0_r|].
      replace j with (j - 1 + 1) by lia. apply Hs, Hm. lia. }
    destruct (fetchstr_loop rd fuel (s + 1) pp) as [n|].
    + destruct IH as (k & Hk & -> & Hz & Hnz). exists (S k).
      replace (s + Z.of_nat (S k)) with (s + 1 + Z.of_nat k) by lia.
      split; [lia|]. split; [lia|]. split; [done|]. intros j Hj. apply (Hall _ Hnz). lia.
    + intros j Hj. apply (Hall _ IH). lia.
Qed.

(** [fetchstr] finds the string at [addr] exactly when a nul byte follows
    inside the process, and its length is that of the string. *)
Theorem fetchstr_spec rd size addr :
  match fetchstr rd size addr with
  | Some (p, n) => p = addr ∧ 0 ≤ n ∧ addr + n < size ∧ rd (addr + n) = 0 ∧
      ∀ j, 0 ≤ j < n → rd (addr + j) ≠ 0
  | None => ∀ a, addr ≤ a < size → rd a ≠ 0
  end.
Proof.
  unfold fetchstr. destruct (Z.leb_spec size addr) as [Hle|Hlt]; [lia|].
  pose proof (fetchstr_loop_spec rd (Z.to_nat (size - addr)) addr addr) as Hl.
  destruct (fetchstr_loop _ _ _ _) as [n|]; simpl.
  - destruct Hl as (k & Hk & -> & Hz & Hnz).
    replace (addr + Z.of_nat k - addr) with (Z.of_nat k) by lia. repeat split; try lia; auto.
  - intros a Ha. replace a with (addr + (a - addr)) by lia. apply Hl. lia.
Qed.

(** ** The palindrome *)

(** The number a string of digits denotes. *)
Definition value (l : list Z) : Z := foldl (λ a d, 10 * a + (d - 48)) 0 l.
Definition digit (d : Z) : Prop := 48 ≤ d ≤ 57.

Lemma value_snoc l d : value (l ++ [d]) = 10 * value l + (d - 48).
Proof. unfold value. by rewrite foldl_app. Qed.

Lemma digits_loop_spec fuel num acc :
  0 ≤ num < 10 ^ Z.of_nat fuel →
  ∃ ds, digits_loop fuel num acc = acc ++ ds ∧ Forall digit ds ∧ value (reverse ds) = num ∧
    (0 < num → ds ≠ []) ∧ (length ds ≤ fuel)%nat.
Proof.
  revert num acc; induction fuel as [|fuel IH]; intros num acc Hn; simpl.
  { exists []. rewrite app_nil_r. simpl in Hn. split; [done|]. split; [constructor|].
    split; [unfold value; simpl; lia|]. split; [lia|simpl; lia]. }
  destruct (Z.ltb_spec 0 num) as [Hpos|Hz].
  - destruct (IH (num / 10) (acc ++ [num mod 10 + 48])) as (ds & -> & Hd & Hv & _ & Hlen).
    { rewrite Nat2Z.inj_succ, Z.pow_succ_r in Hn by lia. split.
      - apply Z.div_pos; lia.
      - apply Z.div_lt_upper_bound; lia. }
    exists (num mod 10 + 48 :: ds). rewrite <- app_assoc. split; [done|].
    pose proof (Z.mod_pos_bound num 10). split; [constructor; [unfold digit; lia|done]|].
    split; [|split; [done|simpl; lia]]. rewrite reverse_cons, value_snoc, Hv. pose proof (Z.div_mod num 10). lia.
  - exists []. rewrite app_nil_r. split; [done|]. split; [constructor|].
    split; [unfold value; simpl; lia|]. split; [lia|simpl; lia].
Qed.

Lemma lookup_mirror ns junk k j :
  (k ≤ length ns)%nat → (2 * length ns ≤ length junk)%nat →
  mirror_loop k ns junk !! j =
    if decide (j < k)%nat then Some (nth (length ns - j - 1) ns 0)
    else if decide (length ns ≤ j < length ns + k)%nat then Some (nth (j - length ns) ns 0)
    else junk !! j.
Proof.
  intros Hk Hj. revert j. induction k as [|k IH]; intros j; cbn [mirror_loop].
  { rewrite !decide_False by lia. done. }
  assert (length (mirror_loop k ns junk) = length junk) as Hlen.
  { clear. induction k; simpl; [done|]. by rewrite !length_insert. }
  destruct (decide (j = length ns + k)%nat) as [->|H1].
  { rewrite list_lookup_insert_eq by (rewrite length_insert; lia).
    rewrite decide_False, decide_True by lia. do 2 f_equal. lia. }
  rewrite list_lookup_insert_ne by lia.
  destruct (decide (j = k)) as [->|H2].
  { rewrite list_lookup_insert_eq, decide_True by lia. done. }
  rewrite list_lookup_insert_ne, IH by lia. repeat case_decide; (done || lia).
Qed.

Lemma take_mirror ns junk :
  (2 * length ns ≤ length junk)%nat →
  take (2 * length ns) (mirror_loop (length ns) ns junk) = reverse ns ++ ns.
Proof.
  intros Hj. apply list_eq. intros j.
  assert (∀ i, (i < length ns)%nat → ns !! i = Some (nth i ns 0)) as Hnth.
  { intros i Hi. destruct (lookup_lt_is_Some_2 ns i Hi) as [x Hx].
    by rewrite Hx, (nth_lookup_Some ns i 0 x Hx). }
  destruct (decide (j < 2 * length ns)%nat) as [Hlt|Hge].
  - rewrite lookup_take_lt, lookup_mirror by lia. case_decide.
    + rewrite lookup_app_l by (rewrite length_reverse; lia).
      rewrite reverse_lookup, Hnth by lia. do 2 f_equal. lia.
    + rewrite decide_True by lia.
      rewrite lookup_app_r, length_reverse, Hnth by (rewrite ?length_reverse; lia). done.
  - rewrite lookup_take_ge by lia. symmetry. apply lookup_ge_None.
    rewrite length_app, length_reverse. lia.
Qed.

(** For a non-negative [int], [create_palindrome] prints its decimal digits
    followed by the same digits backwards: a palindrome whose first half denotes
    the number. *)
Theorem palindrome_of_spec num junk :
  0 ≤ num < 2147483648 → length junk = 256%nat →
  ∃ ds, palindrome_of num junk = ds ++ reverse ds ∧ value ds = num ∧ Forall digit ds ∧ ds ≠ [] ∧
    reverse (palindrome_of num junk) = palindrome_of num junk.
Proof.
  intros Hn Hj. unfold palindrome_of.
  destruct (digits_loop_spec 10 num (if num =? 0 then [num mod 10 + 48] else []))
    as (ds & -> & Hd & Hv & Hne & Hl); [change (10 ^ Z.of_nat 10) with 10000000000; lia|].
  set (ns := (if num =? 0 then [num mod 10 + 48] else []) ++ ds).
  assert (Forall digit ns ∧ value (reverse ns) = num ∧ ns ≠ []) as (Hd' & Hv' & Hne').
  { unfold ns. destruct (Z.eqb_spec num 0) as [->|H0].
    - split; [constructor; [vm_compute; split; discriminate|done]|]. split; [|done].
      simpl. rewrite reverse_cons, value_snoc, Hv. done.
    - simpl. split; [done|]. split; [done|]. apply Hne. lia. }
  assert (length ns ≤ 11)%nat as Hlen.
  { unfold ns. rewrite length_app. destruct (num =? 0); simpl; lia. }
  rewrite take_mirror by lia. exists (reverse ns).
  rewrite reverse_involutive. split; [done|]. split; [done|]. split; [by apply Forall_reverse|].
  split; [intros ?%(f_equal reverse); rewrite reverse_involutive in *; done|].
  by rewrite reverse_app, reverse_involutive.
Qed.

Lemma argptr_in_bounds_witness :
  let rd := λ a, if a =? 4100 then 16 else 0 in
  argptr rd 8192 4096 0 8 = Some 16 ∧ 0 ≤ 16 < 8192 ∧ 0 ≤ 8 ∧ 16 + 8 ≤ 8192.
Proof.
  split; [reflexivity|].
  apply (argptr_in_bounds (λ a, if a =? 4100 then 16 else 0) 8192 4096 0 8 16); [lia|lia|reflexivity].
Defined.

(** 107 prints as 107701. *)
Lemma palindrome_of_spec_witness :
  palindrome_of 107 (replicate 256 0) = [49; 48; 55; 55; 48; 49] ∧
  ∃ ds, palindrome_of 107 (replicate 256 0) = ds ++ reverse ds ∧ value ds = 107 ∧ Forall digit ds ∧
    ds ≠ [] ∧ reverse (palindrome_of 107 (replicate 256 0)) = palindrome_of 107 (replicate 256 0).
Proof. split; [reflexivity|]. apply palindrome_of_spec; [lia|reflexivity]. Defined.
