(* ===== verification/Trap.v ===== *)
(** * Traps

    [trap.c]: system calls and their counting, the timer interrupt with its
    accounting of the scheduler's queues, the other interrupts, and faults.  A
    trap runs on CPU [cpu] while process [cur], if any, is current. *)

From S2P Require Import Prelude Locks Proc Sched ProcInv ProcSpec Syscall.

Definition T_SYSCALL : Z := 64.
Definition T_IRQ0 : Z := 32.
Definition IRQ_TIMER : Z := 0.
Definition IRQ_KBD : Z := 1.
Definition IRQ_COM1 : Z := 4.
Definition IRQ_IDE : Z := 14.
Definition IRQ_SPURIOUS : Z := 31.
Definition DPL_USER : Z := 3.
Definition SYS_open : Z := 15.
Definition SYS_write : Z := 16.

(** The interrupt handlers of [ide.c], [kbd.c] and [uart.c]. *)
Class Devices (W : Type) := {
  ideintr : M (kstate W) unit; kbdintr : M (kstate W) unit; uartintr : M (kstate W) unit }.

(** How a trap leaves the CPU: back to what it interrupted, in the scheduler
    for good, or in the scheduler until the process is picked again. *)
Inductive trap_end := TReturn | TExit | TYield.

Section Trap.
Context {W : Type} `{Lower W} `{UserMem W} `{FileCalls W} `{Devices W}.
Context (junk_tf : trapframe) (junk_stack : list Z) (junk_eax : Z) (fuel : nat).
(** The faulting address register. *)
Context (cr2 : Z).

(** [tvinit]'s effect outside the descriptor table. *)
Definition tvinit (cpu : nat) : M (kstate W) unit := upd_cpu cpu (set_nsyscalls 0).

(** The weight of a system call in the two counters. *)
Definition weight (num : Z) : Z :=
  if num =? SYS_open then 3 else if num =? SYS_write then 2 else 1.

Definition count_syscall (cpu : nat) (num : Z) : M (kstate W) unit :=
  acquire Lsyscallslock;;
  modify (λ s, with_total (u32 (total_number_of_syscalls s + weight num)) s);;
  upd_cpu cpu (λ c, set_nsyscalls (i32 (number_of_syscalls c + weight num)) c);;
  release Lsyscallslock.

Definition update_remain_times (cpu me : nat) : M (kstate W) unit :=
  s ← get;
  let q := queue (ti (proc_at me s)) in
  upd_cpu cpu (λ c,
    if q =? RR then set_remain (i32 (RR_remain_time c - 1)) (SJF_remain_time c) (FCFS_remain_time c) c
    else if q =? SJF then set_remain (RR_remain_time c) (i32 (SJF_remain_time c - 1)) (FCFS_remain_time c) c
    else if q =? FCFS then set_remain (RR_remain_time c) (SJF_remain_time c) (i32 (FCFS_remain_time c - 1)) c
    else c).

Definition print_info (me : nat) : M (kstate W) unit :=
  s ← get;
  let p := proc_at me s in
  emit (EPrint "pid: " []);;
  emit (EPrint "%d" [PInt (pid p)]);;
  emit (EPrint "  ticks: " []);;
  emit (EPrint "%d" [PInt (i32 (ticks s))]);;
  emit (EPrint "  queue: " []);;
  emit (EPrint "%d" [PInt (queue (ti p))]);;
  emit (EPrint "\n" []).

Definition from_user (f : trapframe) : bool := Z.land (cs f) 3 =? DPL_USER.

(** [exit()] if process [me] has been killed, else go on. *)
Definition exit_if_killed (me : nat) (k : M (kstate W) trap_end) : M (kstate W) trap_end :=
  s ← get;
  if negb (killed (proc_at me s) =? 0) then exit me;; mret TExit else k.

(** A system call. *)
Definition trap_syscall (cpu me : nat) (f : trapframe) : M (kstate W) trap_end :=
  exit_if_killed me (
    count_syscall cpu (eax f);;
    upd me (set_tf f);;
    b ← syscall junk_tf junk_stack junk_eax fuel cpu me;
    if b : bool then exit_if_killed me (mret TReturn) else mret TExit).

(** The [switch] on the other traps; [lapiceoi] only acknowledges. *)
Definition trap_switch (cpu : nat) (cur : option nat) (f : trapframe) : M (kstate W) unit :=
  let n := trapno f in
  if n =? T_IRQ0 + IRQ_TIMER then
    if (cpu =? 0)%nat then
      acquire Ltickslock;;
      modify (λ s, with_ticks (u32 (ticks s + 1)) s);;
      wakeup ChTicks;;
      release Ltickslock;;
      aging
    else mret tt
  else if n =? T_IRQ0 + IRQ_IDE then ideintr
  else if n =? T_IRQ0 + IRQ_IDE + 1 then mret tt
  else if n =? T_IRQ0 + IRQ_KBD then kbdintr
  else if n =? T_IRQ0 + IRQ_COM1 then uartintr
  else if ((n =? T_IRQ0 + 7) || (n =? T_IRQ0 + IRQ_SPURIOUS))%bool then
    emit (EPrint "cpu%d: spurious interrupt at %x:%x\n"
            [PInt (Z.of_nat cpu); PInt (cs f); PInt (eip f)])
  else
    match (if Z.land (cs f) 3 =? 0 then None else cur) with
    | None =>
        emit (EPrint "unexpected trap %d from cpu %d eip %x (cr2=0x%x)\n"
                [PInt n; PInt (Z.of_nat cpu); PInt (eip f); PInt cr2]);;
        panic "trap"
    | Some me =>
        s ← get;
        let p := proc_at me s in
        emit (EPrint "pid %d %s: trap %d err %d on cpu %d eip 0x%x addr 0x%x--kill proc\n"
                [PInt (pid p); PStr (name p); PInt n; PInt (err f); PInt (Z.of_nat cpu);
                 PInt (eip f); PInt cr2]);;
        upd me (set_killed 1)
    end.

Definition exit_if_killed_user (me : nat) (f : trapframe) (k : M (kstate W) trap_end) :
    M (kstate W) trap_end :=
  if from_user f then exit_if_killed me k else k.

(** What a timer tick does to the process it interrupted. *)
Definition trap_tick (cpu me : nat) (f : trapframe) : M (kstate W) trap_end :=
  s ← get;
  if (bool_decide (state (proc_at me s) = RUNNING) && (trapno f =? T_IRQ0 + IRQ_TIMER))%bool then
    update_remain_times cpu me;;
    s ← get;
    if QUANTUM / SYS_TICK <=? ticks_used (ti (proc_at me s)) then
      upd me (λ p, let x := ti p in
        set_ti (TI (queue x) 0 (burst_time x) (creation_time x) (enter_queue_time x)
                   (last_run_time x) (confidence x)) p);;
      yield me;;
      mret TYield
    else
      upd me (λ p, let x := ti p in
        set_ti (TI (queue x) (i32 (ticks_used x + 1)) (burst_time x) (creation_time x)
                   (enter_queue_time x) (i32 (last_run_time x + 1)) (confidence x)) p);;
      exit_if_killed_user me f (mret TReturn)
  else exit_if_killed_user me f (mret TReturn).

Definition trap (cpu : nat) (cur : option nat) (f : trapframe) : M (kstate W) trap_end :=
  if trapno f =? T_SYSCALL then
    match cur with
    | None => null_dereference
    | Some me => trap_syscall cpu me f
    end
  else
    trap_switch cpu cur f;;
    match cur with
    | None => mret TReturn
    | Some me => exit_if_killed_user me f (trap_tick cpu me f)
    end.

(** The end of [trap] for a process that yielded, once it runs again. *)
Definition trap_resume (me : nat) (f : trapframe) : M (kstate W) trap_end :=
  yield_return;;
  exit_if_killed_user me f (mret TReturn).

End Trap.

(** ** Killed processes *)

Section Killed.
Context {W : Type} `{Lower W} `{UserMem W} `{FileCalls W} `{Devices W}.
Context (junk_tf : trapframe) (junk_stack : list Z) (junk_eax : Z) (fuel : nat) (cr2 : Z).
Implicit Types s : kstate W.

Lemma wlp_exit_if_killed me k c s (Q : trap_end → ctx → kstate W → Prop) :
  (∀ c' s', Q TExit c' s') → (killed (proc_at me s) = 0 → wlp k Q (λ _ _ _, True) c s) →
  wlp (exit_if_killed me k) Q (λ _ _ _, True) c s.
Proof.
  intros HE Hk. unfold exit_if_killed. wsteps.
  destruct (Z.eqb_spec (killed (proc_at me s)) 0) as [Hz|Hz]; simpl; [by apply Hk|].
  wstep. apply wlp_any; [|done]. intros. wsteps. apply HE.
Qed.

(** The process may run user code: it has not been killed. *)
Definition not_killed (me : nat) (e : trap_end) (_ : ctx) s : Prop :=
  e = TReturn → killed (proc_at me s) = 0.

Lemma wlp_exit_if_killed_user me f c s :
  from_user f = true →
  wlp (exit_if_killed_user me f (mret TReturn)) (not_killed me) (λ _ _ _, True) c s.
Proof.
  intros Hf. unfold exit_if_killed_user. rewrite Hf. apply wlp_exit_if_killed; [done|].
  intros Hk. apply wlp_ret. by intros _.
Qed.


End Killed.

(** ** The quantum *)

Section Quantum.
Context {W : Type} `{Lower W}.
Implicit Types s : kstate W.

(** [n] timer ticks in a row, until the process gives up the CPU. *)
Fixpoint ticks_run (n cpu me : nat) (f : trapframe) : M (kstate W) trap_end :=
  match n with
  | O => mret TReturn
  | S n => e ← trap_tick cpu me f;
           match e with TReturn => ticks_run n cpu me f | _ => mret e end
  end.

Lemma trap_tick_returns cpu me f c s p :
  ptable s !! me = Some p → state p = RUNNING → killed p = 0 → trapno f = T_IRQ0 + IRQ_TIMER →
  0 ≤ ticks_used (ti p) < QUANTUM / SYS_TICK →
  ∃ s' p', trap_tick cpu me f c s = Ret TReturn c s' ∧ ptable s' !! me = Some p' ∧
    state p' = RUNNING ∧ killed p' = 0 ∧ ticks_used (ti p') = ticks_used (ti p) + 1.
Proof.
  intros Hp Hs Hk Hf Hu. unfold trap_tick, update_remain_times, exit_if_killed_user, exit_if_killed,
    mbind, M_bind, get, upd, upd_cpu, modify, proc_at. simpl.
  rewrite Hp. simpl. rewrite bool_decide_eq_true_2, Hf, Z.eqb_refl by done. simpl.
  rewrite Hp. simpl. rewrite (proj2 (Z.leb_gt _ _)) by lia. simpl.
  destruct (from_user f); simpl; [rewrite list_lookup_alter_eq, Hp; simpl; rewrite Hk; simpl|];
    (eexists _, _; split; [reflexivity|]; simpl;
    rewrite list_lookup_alter_eq, Hp; split; [reflexivity|]; simpl;
    rewrite i32_small by (change (QUANTUM / SYS_TICK) with 5 in *; lia); done).
Qed.

Lemma trap_tick_yields cpu me f tr s p :
  ptable s !! me = Some p → state p = RUNNING → trapno f = T_IRQ0 + IRQ_TIMER →
  QUANTUM / SYS_TICK ≤ ticks_used (ti p) →
  ∃ s' p', trap_tick cpu me f (Ctx [] tr) s = Ret TYield (Ctx [Lptable] tr) s' ∧
    ptable s' !! me = Some p' ∧ state p' = RUNNABLE ∧ ticks_used (ti p') = 0.
Proof.
  intros Hp Hs Hf Hu. unfold trap_tick, update_remain_times, yield,
    mbind, M_bind, get, upd, upd_cpu, modify, proc_at. simpl.
  rewrite Hp. simpl. rewrite bool_decide_eq_true_2, Hf, Z.eqb_refl by done. simpl.
  rewrite Hp. simpl. rewrite (proj2 (Z.leb_le _ _)) by lia.
  unfold sched, proc_at. simpl. rewrite !list_lookup_alter_eq, Hp. simpl.
  eexists _, _. split; [reflexivity|]. simpl. rewrite !list_lookup_alter_eq, Hp. done.
Qed.

Lemma ticks_run_short n cpu me f c s p :
  ptable s !! me = Some p → state p = RUNNING → killed p = 0 → trapno f = T_IRQ0 + IRQ_TIMER →
  0 ≤ ticks_used (ti p) → ticks_used (ti p) + Z.of_nat n ≤ QUANTUM / SYS_TICK →
  ∃ s' p', ptable s' !! me = Some p' ∧ state p' = RUNNING ∧ killed p' = 0 ∧
    ticks_used (ti p') = ticks_used (ti p) + Z.of_nat n ∧
    ∀ m, ticks_run (n + m) cpu me f c s = ticks_run m cpu me f c s'.
Proof.
  revert s p. induction n as [|n IH]; intros s p Hp Hs Hk Hf H0 Hn.
  { exists s, p. split_and!; try done. lia. }
  destruct (trap_tick_returns cpu me f c s p) as (s1 & p1 & E & Hp1 & Hs1 & Hk1 & Hu1); try done; [lia|].
  destruct (IH s1 p1) as (s2 & p2 & Hp2 & Hs2 & Hk2 & Hu2 & Hm); try done; [lia..|].
  exists s2, p2. split_and!; try done; [lia|]. intros m. simpl. rewrite (bind_Ret _ _ _ _ _ _ _ E). apply Hm.
Qed.

(** A process that starts a turn with [ticks_used] 0 and is only interrupted
    by the timer keeps the CPU for [QUANTUM / SYS_TICK] = 5 ticks and gives it
    up, runnable and with the count reset, on the one after. *)
Theorem quantum_ticks cpu me f tr s p :
  ptable s !! me = Some p → state p = RUNNING → killed p = 0 → trapno f = T_IRQ0 + IRQ_TIMER →
  ticks_used (ti p) = 0 →
  (∃ s', ticks_run 5 cpu me f (Ctx [] tr) s = Ret TReturn (Ctx [] tr) s') ∧
  (∃ s' p', ticks_run 6 cpu me f (Ctx [] tr) s = Ret TYield (Ctx [Lptable] tr) s' ∧
     ptable s' !! me = Some p' ∧ state p' = RUNNABLE ∧ ticks_used (ti p') = 0).
Proof.
  intros Hp Hs Hk Hf H0.
  destruct (ticks_run_short 5 cpu me f (Ctx [] tr) s p) as (s5 & p5 & Hp5 & Hs5 & Hk5 & Hu5 & Hm);
    try done; [lia|rewrite H0; done|].
  split; [exists s5; apply (Hm 0%nat)|].
  destruct (trap_tick_yields cpu me f tr s5 p5) as (s6 & p6 & E & ?); try done.
  { rewrite Hu5, H0. done. }
  exists s6, p6. split; [|done]. change 6%nat with (5 + 1)%nat. rewrite (Hm 1%nat). simpl. by rewrite (bind_Ret _ _ _ _ _ _ _ E).
Qed.

End Quantum.

(** ** The two system call counters *)

Section Counters.
Context {W : Type}.
Implicit Types s : kstate W.

Definition cpu_sum s : Z := sumZ (number_of_syscalls <$> cpus s).

(** The sum over the CPUs and the global counter agree, as [int]s. *)
Definition counters_agree s : Prop := i32 (cpu_sum s) = i32 (total_number_of_syscalls s).

Lemma sum_alter f i l c :
  l !! i = Some c →
  sumZ (number_of_syscalls <$> alter f i l) =
  sumZ (number_of_syscalls <$> l) - number_of_syscalls c + number_of_syscalls (f c).
Proof.
  revert i; induction l as [|d l IH]; intros [|i] Hi; cbn in Hi; simplify_eq; cbn; [lia|].
  specialize (IH i Hi). unfold sumZ in IH. lia.
Qed.

Lemma count_syscall_ok cpu num c s :
  (cpu < length (cpus s))%nat → Lsyscallslock ∉ held c → counters_agree s →
  ∃ s', count_syscall cpu num c s = Ret tt c s' ∧ counters_agree s' ∧
    length (cpus s') = length (cpus s).
Proof.
  intros Hcpu Hc Ha. destruct (lookup_lt_is_Some_2 _ _ Hcpu) as [d Hd]. destruct c as [L tr].
  unfold count_syscall. rewrite bind_acquire by done. erewrite bind_Ret by done. cbv beta.
  erewrite bind_Ret by done. cbv beta. cbn [held trace] in *. rewrite release_head by done.
  eexists. split; [done|]. split; [|simpl; by rewrite length_alter].
  unfold counters_agree, cpu_sum in *. simpl. rewrite (sum_alter _ _ _ d) by done. simpl.
  replace (sumZ (number_of_syscalls <$> cpus s) - number_of_syscalls d +
    i32 (number_of_syscalls d + weight num)) with
    (i32 (number_of_syscalls d + weight num) + (sumZ (number_of_syscalls <$> cpus s) - number_of_syscalls d))
    by lia.
  rewrite i32_i32_add, i32_u32.
  replace (number_of_syscalls d + weight num + (sumZ (number_of_syscalls <$> cpus s) - number_of_syscalls d))
    with (sumZ (number_of_syscalls <$> cpus s) + weight num) by lia.
  by rewrite <- i32_i32_add, Ha, i32_i32_add.
Qed.

(** System calls numbered [num], taken by CPU [cpu], one after another. *)
Fixpoint count_all (calls : list (nat * Z)) : M (kstate W) unit :=
  match calls with
  | [] => mret tt
  | (cpu, num) :: calls => count_syscall cpu num;; count_all calls
  end.

Lemma count_all_ok calls c s :
  Forall (λ x, (x.1 < length (cpus s))%nat) calls → Lsyscallslock ∉ held c → counters_agree s →
  ∃ s', count_all calls c s = Ret tt c s' ∧ counters_agree s'.
Proof.
  revert s; induction calls as [|[cpu num] calls IH]; intros s Hcs Hc Ha; [by eexists|].
  apply Forall_cons in Hcs as [Hcpu Hcs]. simpl in Hcpu.
  destruct (count_syscall_ok cpu num c s Hcpu Hc Ha) as (s1 & E & Ha1 & Hlen).
  simpl. rewrite (bind_Ret _ _ _ _ _ _ _ E). apply IH; [by rewrite Hlen|done|done].
Qed.

Lemma total_loop_ok i l count c s :
  ∃ tr, total_syscalls_loop i l (i32 count) c s =
        Ret (i32 (count + sumZ (number_of_syscalls <$> l))) (Ctx (held c) (trace c ++ tr)) s.
Proof.
  revert i count c; induction l as [|d l IH]; intros i count c.
  { exists []. simpl. rewrite app_nil_r, Z.add_0_r. by destruct c. }
  change (sumZ (number_of_syscalls <$> d :: l))
    with (number_of_syscalls d + sumZ (number_of_syscalls <$> l)).
  rewrite Z.add_assoc. cbn [total_syscalls_loop].
  destruct (Z.eqb_spec (number_of_syscalls d) 0) as [->|Hd].
  { rewrite Z.add_0_r. destruct (IH (S i) count c) as (tr & E). exists tr. by rewrite E. }
  erewrite bind_Ret by done. cbv beta. rewrite i32_i32_add.
  destruct (IH (S i) (count + number_of_syscalls d)
    (Ctx (held c) (trace c ++ [EPrint "number of syscalls for cpu {%d} is : %d\n"
       [PInt (Z.of_nat i); PInt (number_of_syscalls d)]]))) as (tr & E).
  rewrite E. cbn [held trace]. eexists. by rewrite <- app_assoc.
Qed.

(** However the CPUs take system calls, the sum of the per-CPU counters that
    [get_number_of_total_syscalls] prints is the global counter it prints. *)
Theorem syscall_counters_agree calls c s :
  Forall (λ x, (x.1 < length (cpus s))%nat) calls → Lsyscallslock ∉ held c → counters_agree s →
  ∃ s' tr n, count_all calls c s = Ret tt c s' ∧
    get_number_of_total_syscalls c s' = Ret 0 (Ctx (held c) (trace c ++ tr ++
      [EPrint "number of total syscalls for all cpus is (sum of cpus): %d\n" [PInt n];
       EPrint "number of total syscalls for all cpus is (global) : %d\n" [PInt n]])) s'.
Proof.
  intros Hcs Hc Ha. destruct (count_all_ok calls c s Hcs Hc Ha) as (s' & E & Ha').
  destruct (total_loop_ok 0 (cpus s') 0 c s') as (tr & El).
  exists s', tr, (i32 (total_number_of_syscalls s')). split; [done|].
  unfold get_number_of_total_syscalls. erewrite bind_Ret by done. cbv beta.
  change (i32 0) with 0 in El. rewrite (bind_Ret _ _ _ _ _ _ _ El).
  rewrite Z.add_0_l. unfold counters_agree, cpu_sum in Ha'. rewrite Ha'.
  unfold mbind, M_bind, emit, mret, M_ret. cbn [held trace]. by rewrite <- !app_assoc.
Qed.

End Counters.

(** ** The overflow of [used_syscalls] *)

(** [used_syscalls] has 26 entries and the calls numbered 27 to 31 are
    counted in the words after it.  Call 27, [set_initial_burst_confidence],
    increments the caller's queue: a caller of the first come first served queue
    ends up in queue 3, which [aging] never changes and no iteration of the
    scheduler picks from. *)
Theorem burst_call_strands_caller p :
  queue (ti p) = FCFS →
  let q := bump_syscall 27 p in
  used_syscalls q = used_syscalls p ∧ queue (ti q) = 3 ∧ (∀ t, age t q = q) ∧
  ∀ W (s : kstate W) me last c i l' c' s',
    ready s → length (ptable s) = NPROC → (last < NPROC)%nat → (me < length (cpus s))%nat →
    Lptable ∉ held c → ptable s !! i = Some q →
    scheduler_iter me last c s ≠ Ret (Ran i, l') c' s'.
Proof.
  intros Hq. simpl. unfold bump_syscall. simpl. rewrite Hq. split_and!; [done|done| |].
  - intros t. unfold age. simpl. by case_match; [|case_match].
  - intros W s me last c i l' c' s' Hr Hlen Hlast Hme Hc Hi E.
    pose proof (scheduler_iter_ok me last c s Hr Hlen Hlast Hme Hc) as Hw.
    unfold wp in Hw. rewrite E in Hw. destruct Hw as (_ & _ & p' & Hp' & _ & Hin & _).
    simplify_eq. simpl in Hin. change (i32 (FCFS + 1)) with 3 in Hin. set_solver.
Qed.

(** ** Sample runs *)

#[export] Instance toy_mem : UserMem Z := λ _ _ _, 0.
#[export] Instance toy_files : FileCalls Z :=
  let fail := λ _ : nat, mret (-1) in
  Build_FileCalls Z fail fail fail fail fail fail fail fail fail fail fail fail fail fail.
#[export] Instance toy_devices : Devices Z := Build_Devices Z (mret tt) (mret tt) (mret tt).

(** A trap frame from user mode with system call [n] or trap [t]. *)
Definition sample_frame (t n : Z) : trapframe :=
  TF 0 0 0 0 0 0 0 n 0 0 UDATA_SEL UDATA_SEL t 0 0 UCODE_SEL FL_IF 4096 UDATA_SEL.

Definition toy_trap (t n : Z) := trap tf0 [] 0 8 0 0 (Some 0%nat) (sample_frame t n).


Lemma quantum_ticks_witness :
  (∃ s', ticks_run 5 0 0 (sample_frame 32 0) (Ctx [] []) toy2 = Ret TReturn (Ctx [] []) s') ∧
  (∃ s' p', ticks_run 6 0 0 (sample_frame 32 0) (Ctx [] []) toy2 = Ret TYield (Ctx [Lptable] []) s' ∧
     ptable s' !! 0%nat = Some p' ∧ state p' = RUNNABLE ∧ ticks_used (ti p') = 0).
Proof. apply (quantum_ticks 0 0 (sample_frame 32 0) [] toy2 (proc_at 0 toy2)); look. Defined.

Lemma syscall_counters_agree_witness :
  ∃ s' tr n, count_all [(0%nat, 15); (1%nat, 16); (0%nat, 5)] (Ctx [] []) toy2 = Ret tt (Ctx [] []) s' ∧
    get_number_of_total_syscalls (Ctx [] []) s' = Ret 0 (Ctx [] ([] ++ tr ++
      [EPrint "number of total syscalls for all cpus is (sum of cpus): %d\n" [PInt n];
       EPrint "number of total syscalls for all cpus is (global) : %d\n" [PInt n]])) s'.
Proof.
  apply (syscall_counters_agree [(0%nat, 15); (1%nat, 16); (0%nat, 5)] (Ctx [] []) toy2);
    [repeat constructor; simpl; lia|simpl; set_solver|look].
Defined.

Lemma burst_call_strands_caller_witness :
  queue (ti (bump_syscall 27 (sample_proc 3 FCFS 2))) = 3.
Proof. apply (burst_call_strands_caller (sample_proc 3 FCFS 2)). reflexivity. Defined.
