(* ===== verification/Pipe.v ===== *)
(** * Pipes

    [pipe.c]: the ring buffer, reading, writing and closing; a FIFO queue as its
    abstract state; and processes that read, write and close one pipe in any
    interleaving.  [pipealloc], which also allocates files, is in [File.v]. *)

From S2P Require Import Prelude.

Definition PIPESIZE : Z := 512.

Record pipe := Pipe { data : list Z; nread : Z; nwrite : Z; readopen : Z; writeopen : Z }.

(** [pipealloc]'s initialisation of the page it got; [data] is what the page held. *)
Definition pipe_init (data : list Z) : pipe := Pipe data 0 0 1 1.

Section Ops.
(** The address of the pipe, which names its lock and channels. *)
Context (id : Z).

(** How a turn of [pipewrite] ends: all written, failed, or asleep with [rest]
    still to write; a sleeper goes on with [pipewrite id killed rest]. *)
Inductive wturn := Wrote | Wfailed | Wsleep (rest : list Z).

(** The [for] loop with its [while]. *)
Fixpoint write_loop (killed : bool) (bytes : list Z) : M pipe wturn :=
  match bytes with
  | [] => mret Wrote
  | b :: rest =>
      p ← get;
      if nwrite p =? u32 (nread p + PIPESIZE) then
        if ((readopen p =? 0) || killed)%bool then mret Wfailed
        else
          emit (EWakeup (ChNread id));;
          mret (Wsleep bytes)
      else
        put (Pipe (<[Z.to_nat (nwrite p mod PIPESIZE) := b]> (data p))
                  (nread p) (u32 (nwrite p + 1)) (readopen p) (writeopen p));;
        write_loop killed rest
  end.

Definition pipewrite (killed : bool) (bytes : list Z) : M pipe wturn :=
  acquire (Lpipe id);;
  e ← write_loop killed bytes;
  match e with
  | Wrote =>
      emit (EWakeup (ChNread id));;
      release (Lpipe id);;
      mret Wrote
  | Wfailed | Wsleep _ =>           (* sleep() releases the lock as well *)
      release (Lpipe id);;
      mret e
  end.

(** The copying loop, [n] bytes at most. *)
Fixpoint read_loop (n : nat) (addr : list Z) : M pipe (list Z) :=
  match n with
  | O => mret addr
  | S n =>
      p ← get;
      if nread p =? nwrite p then mret addr
      else
        put (Pipe (data p) (u32 (nread p + 1)) (nwrite p) (readopen p) (writeopen p));;
        read_loop n (addr ++ [nth (Z.to_nat (nread p mod PIPESIZE)) (data p) 0])
  end.

(** The bytes read, or [None] for -1.  A reader that sleeps runs it again. *)
Definition piperead (killed : bool) (n : Z) : M pipe (option (list Z)) :=
  acquire (Lpipe id);;
  p ← get;
  if ((nread p =? nwrite p) && negb (writeopen p =? 0))%bool then
    if killed then release (Lpipe id);; mret None
    else sleep_on (ChNread id) (Lpipe id)
  else
    addr ← read_loop (Z.to_nat n) [];
    emit (EWakeup (ChNwrite id));;
    release (Lpipe id);;
    mret (Some addr).

(** The result says whether the caller frees the page. *)
Definition pipeclose (writable : bool) : M pipe bool :=
  acquire (Lpipe id);;
  (if writable then
     modify (λ p, Pipe (data p) (nread p) (nwrite p) (readopen p) 0);;
     emit (EWakeup (ChNread id))
   else
     modify (λ p, Pipe (data p) (nread p) (nwrite p) 0 (writeopen p));;
     emit (EWakeup (ChNwrite id)));;
  p ← get;
  release (Lpipe id);;
  mret ((readopen p =? 0) && (writeopen p =? 0))%bool.

End Ops.

(** ** The queue a pipe holds *)

Definition count (p : pipe) : nat := Z.to_nat (u32 (nwrite p - nread p)).

Definition at_index (p : pipe) (k : nat) : Z :=
  nth (Z.to_nat ((nread p + Z.of_nat k) mod PIPESIZE)) (data p) 0.

Definition contents (p : pipe) : list Z := map (at_index p) (seq 0 (count p)).

Record pipe_ok (p : pipe) : Prop := {
  ok_data : length (data p) = 512%nat;
  ok_nread : 0 ≤ nread p < 4294967296;
  ok_nwrite : 0 ≤ nwrite p < 4294967296;
  ok_count : (count p ≤ 512)%nat }.

Lemma length_contents p : length (contents p) = count p.
Proof. unfold contents. by rewrite length_map, length_seq. Qed.

Lemma count_eq p : Z.of_nat (count p) = u32 (nwrite p - nread p).
Proof. unfold count. rewrite Z2Nat.id; [done|]. apply u32_range. Qed.

(** [nwrite == nread + PIPESIZE] is fullness, [nread == nwrite] emptiness. *)
Lemma full_spec p : pipe_ok p → (nwrite p =? u32 (nread p + PIPESIZE)) = (count p =? 512)%nat.
Proof.
  intros [_ Hr Hw Hc]. pose proof (count_eq p) as E. unfold u32, PIPESIZE in *.
  destruct (Nat.eqb_spec (count p) 512) as [H|H].
  - apply Z.eqb_eq. rewrite H in E. change (Z.of_nat 512) with 512 in E.
    rewrite E, Zplus_mod_idemp_r, Zplus_minus. by rewrite Z.mod_small.
  - apply Z.eqb_neq. intros Hn. apply H. apply Nat2Z.inj. rewrite E, Hn.
    rewrite Zminus_mod_idemp_l. replace (nread p + 512 - nread p) with 512 by lia. done.
Qed.

Lemma empty_spec p : pipe_ok p → (nread p =? nwrite p) = (count p =? 0)%nat.
Proof.
  intros [_ Hr Hw Hc]. pose proof (count_eq p) as E. unfold u32 in *.
  destruct (Z.eqb_spec (nread p) (nwrite p)) as [H|H]; symmetry.
  - apply Nat.eqb_eq. rewrite H, Z.sub_diag, Z.mod_0_l in E by lia. lia.
  - apply Nat.eqb_neq. intros H0. rewrite H0 in E.
    pose proof (Z.div_mod (nwrite p - nread p) 4294967296). nia.
Qed.

(** The index of the next byte written is that of entry [count]. *)
Lemma write_index p : (nread p + Z.of_nat (count p)) mod 512 = nwrite p mod 512.
Proof.
  rewrite count_eq. unfold u32. change 4294967296 with (512 * 8388608).
  rewrite Z.rem_mul_r by lia.
  replace (nread p + ((nwrite p - nread p) mod 512 + 512 * ((nwrite p - nread p) / 512 mod 8388608)))
    with (nread p + (nwrite p - nread p) mod 512 + ((nwrite p - nread p) / 512 mod 8388608) * 512) by lia.
  rewrite Z_mod_plus_full, Zplus_mod_idemp_r. f_equal. lia.
Qed.

(** ** What the operations do to the queue *)

Definition push (b : Z) (p : pipe) : pipe :=
  Pipe (<[Z.to_nat (nwrite p mod PIPESIZE) := b]> (data p)) (nread p) (u32 (nwrite p + 1))
       (readopen p) (writeopen p).
Definition pop (p : pipe) : pipe :=
  Pipe (data p) (u32 (nread p + 1)) (nwrite p) (readopen p) (writeopen p).

Lemma count_push b p : pipe_ok p → (count p < 512)%nat → count (push b p) = S (count p).
Proof.
  intros Hok Hc. apply Nat2Z.inj. rewrite count_eq, Nat2Z.inj_succ, count_eq. simpl.
  assert (u32 (nwrite p - nread p) < 512) by (rewrite <- count_eq; lia).
  unfold u32 in *. rewrite Zminus_mod_idemp_l.
  replace (nwrite p + 1 - nread p) with (nwrite p - nread p + 1) by lia.
  rewrite <- Zplus_mod_idemp_l. apply Z.mod_small.
  pose proof (Z.mod_pos_bound (nwrite p - nread p) 4294967296). lia.
Qed.

Lemma count_pop p : pipe_ok p → count p ≠ 0%nat → count p = S (count (pop p)).
Proof.
  intros Hok Hc. apply Nat2Z.inj. rewrite Nat2Z.inj_succ, !count_eq. simpl.
  assert (0 < u32 (nwrite p - nread p)) by (rewrite <- count_eq; lia).
  unfold u32 in *. rewrite Zminus_mod_idemp_r.
  replace (nwrite p - (nread p + 1)) with (nwrite p - nread p - 1) by lia.
  rewrite <- (Zminus_mod_idemp_l (nwrite p - nread p) 1).
  pose proof (Z.mod_pos_bound (nwrite p - nread p) 4294967296).
  rewrite (Z.mod_small (_ - 1)) by lia. lia.
Qed.

Lemma push_ok b p : pipe_ok p → (count p < 512)%nat → pipe_ok (push b p).
Proof.
  intros Hok Hc. pose proof (count_push b p Hok Hc). destruct Hok.
  split; simpl; [by rewrite length_insert|done|apply u32_range|lia].
Qed.
Lemma pop_ok p : pipe_ok p → count p ≠ 0%nat → pipe_ok (pop p).
Proof.
  intros Hok Hc. pose proof (count_pop p Hok Hc). destruct Hok.
  split; simpl; [done|apply u32_range|done|lia].
Qed.

(** Two entries of the ring are in the same place only if they are the same. *)
Lemma index_inj r j k : 0 ≤ j < 512 → 0 ≤ k < 512 → (r + j) mod 512 = (r + k) mod 512 → j = k.
Proof.
  intros Hj Hk H. pose proof (Z.div_mod (r + j) 512). pose proof (Z.div_mod (r + k) 512). lia.
Qed.

Lemma contents_push b p :
  pipe_ok p → (count p < 512)%nat → contents (push b p) = contents p ++ [b].
Proof.
  intros Hok Hc. unfold contents. rewrite count_push, seq_S, map_app by done. simpl. f_equal.
  - apply map_ext_in. intros k Hk%in_seq. unfold at_index. simpl.
    rewrite nth_lookup, list_lookup_insert_ne, <- nth_lookup; [done|].
    intros Heq%Z2Nat.inj; [|apply Z.mod_pos_bound; unfold PIPESIZE; lia..].
    unfold PIPESIZE in *. rewrite <- write_index in Heq. apply index_inj in Heq; lia.
  - f_equal. unfold at_index. simpl. unfold PIPESIZE. rewrite write_index.
    rewrite nth_lookup, list_lookup_insert_eq; [done|].
    rewrite (ok_data p Hok). pose proof (Z.mod_pos_bound (nwrite p) 512). lia.
Qed.

Lemma contents_pop p :
  pipe_ok p → count p ≠ 0%nat →
  contents p = nth (Z.to_nat (nread p mod PIPESIZE)) (data p) 0 :: contents (pop p).
Proof.
  intros Hok Hc. unfold contents. rewrite (count_pop p Hok Hc). simpl. f_equal.
  - unfold at_index. by rewrite Z.add_0_r.
  - rewrite <- seq_shift, map_map. apply map_ext. intros k. unfold at_index. simpl. do 2 f_equal.
    unfold u32, PIPESIZE.
    rewrite <- (Zplus_mod_idemp_l ((nread p + 1) mod _)), Z.mod_mod_divide by (by exists 8388608).
    rewrite Zplus_mod_idemp_l. f_equal. lia.
Qed.

Section OpSpecs.
Context (id : Z).

(** How writing [bytes] ended: [w] of them are in the queue, [rest] are not. *)
Definition write_post (killed : bool) (p : pipe) (rest : list Z) (e : wturn) (p' : pipe) : Prop :=
  match e with
  | Wrote => rest = []
  | Wfailed => rest ≠ [] ∧ count p' = 512%nat ∧ (readopen p = 0 ∨ killed = true)
  | Wsleep r => r = rest ∧ rest ≠ [] ∧ count p' = 512%nat ∧ readopen p ≠ 0 ∧ killed = false
  end.

Definition same_ends (p p' : pipe) : Prop := readopen p' = readopen p ∧ writeopen p' = writeopen p.

Lemma write_loop_spec killed bytes L tr p :
  pipe_ok p →
  ∃ e w rest p', bytes = w ++ rest ∧ pipe_ok p' ∧ contents p' = contents p ++ w ∧ same_ends p p' ∧
    write_post killed p rest e p' ∧
    write_loop id killed bytes (Ctx L tr) p =
      Ret e (Ctx L (tr ++ match e with Wsleep _ => [EWakeup (ChNread id)] | _ => [] end)) p'.
Proof.
  revert p; induction bytes as [|b bytes IH]; intros p Hok; cbn [write_loop].
  { exists Wrote, [], [], p. rewrite !app_nil_r. done. }
  erewrite bind_Ret by done. cbv beta. rewrite full_spec by done.
  destruct (Nat.eqb_spec (count p) 512) as [Hf|Hf].
  - destruct (Z.eqb_spec (readopen p) 0) as [Hr|Hr]; [|destruct killed]; simpl.
    + exists Wfailed, [], (b :: bytes), p. rewrite !app_nil_r. split_and!; try done. cbn. auto.
    + exists Wfailed, [], (b :: bytes), p. rewrite !app_nil_r. split_and!; try done. cbn. auto.
    + exists (Wsleep (b :: bytes)), [], (b :: bytes), p. rewrite app_nil_r. done.
  - assert (count p < 512)%nat as Hlt by (pose proof (ok_count p Hok); lia).
    erewrite bind_Ret by done. cbv beta. change (Pipe _ _ _ _ _) with (push b p).
    destruct (IH (push b p) (push_ok b p Hok Hlt)) as (e & w & rest & p' & -> & Hok' & Hc & Hs & Hp & E).
    exists e, (b :: w), rest, p'. rewrite contents_push, <- app_assoc in Hc by done. done.
Qed.

(** [pipewrite] as a whole: the wake-up goes out unless it failed. *)
Lemma pipewrite_ok killed bytes L tr p :
  pipe_ok p → Lpipe id ∉ L →
  ∃ e w rest p', bytes = w ++ rest ∧ pipe_ok p' ∧ contents p' = contents p ++ w ∧ same_ends p p' ∧
    write_post killed p rest e p' ∧
    pipewrite id killed bytes (Ctx L tr) p =
      Ret e (Ctx L (tr ++ match e with Wfailed => [] | _ => [EWakeup (ChNread id)] end)) p'.
Proof.
  intros Hok HL. destruct (write_loop_spec killed bytes (Lpipe id :: L) tr p Hok)
    as (e & w & rest & p' & H1 & H2 & H3 & H4 & H5 & E).
  exists e, w, rest, p'. split_and!; try done. unfold pipewrite.
  rewrite bind_acquire by done. cbn [held trace]. rewrite (bind_Ret _ _ _ _ _ _ _ E).
  destruct e; cbn [held trace].
  - erewrite bind_Ret by done. cbv beta. cbn [held trace]. rewrite bind_release, app_nil_r by done. done.
  - by rewrite bind_release by done.
  - by rewrite bind_release by done.
Qed.

Lemma read_loop_spec n acc L tr p :
  pipe_ok p →
  ∃ p', pipe_ok p' ∧ contents p' = drop n (contents p) ∧ same_ends p p' ∧
    read_loop n acc (Ctx L tr) p = Ret (acc ++ take n (contents p)) (Ctx L tr) p'.
Proof.
  revert acc p; induction n as [|n IH]; intros acc p Hok; cbn [read_loop].
  { exists p. by rewrite app_nil_r. }
  erewrite bind_Ret by done. cbv beta. rewrite empty_spec by done.
  destruct (Nat.eqb_spec (count p) 0) as [H0|H0].
  - exists p. assert (contents p = []) as -> by (apply nil_length_inv; by rewrite length_contents).
    simpl. by rewrite app_nil_r.
  - erewrite bind_Ret by done. cbv beta. change (Pipe _ _ _ _ _) with (pop p).
    edestruct (IH (acc ++ [nth (Z.to_nat (nread p mod PIPESIZE)) (data p) 0]) (pop p)) as (p' & ? & Hc & ? & E);
      [by apply pop_ok|].
    exists p'. rewrite (contents_pop p Hok H0). rewrite E, <- app_assoc. done.
Qed.

(** [piperead] as a whole. *)
Definition read_post (killed : bool) (n : Z) (L : list lock) (tr : list event) (p : pipe)
    (o : outcome pipe (option (list Z))) : Prop :=
  if decide (contents p = [] ∧ writeopen p ≠ 0) then
    o = if killed then Ret None (Ctx L tr) p else Sleep (ChNread id) (Ctx L tr) p
  else ∃ p', pipe_ok p' ∧ contents p' = drop (Z.to_nat n) (contents p) ∧ same_ends p p' ∧
    o = Ret (Some (take (Z.to_nat n) (contents p))) (Ctx L (tr ++ [EWakeup (ChNwrite id)])) p'.

Lemma contents_nil p : contents p = [] ↔ count p = 0%nat.
Proof. rewrite <- length_contents. split; [by intros ->|apply nil_length_inv]. Qed.

Lemma piperead_ok killed n L tr p :
  pipe_ok p → Lpipe id ∉ L → read_post killed n L tr p (piperead id killed n (Ctx L tr) p).
Proof.
  intros Hok HL. unfold read_post, piperead. rewrite bind_acquire by done. cbn [held trace].
  erewrite bind_Ret by done. cbv beta. rewrite empty_spec by done.
  destruct (Nat.eqb_spec (count p) 0) as [H0|H0]; [destruct (Z.eqb_spec (writeopen p) 0) as [Hw|Hw]|];
    cbn [negb andb];
    [rewrite decide_False by tauto|rewrite decide_True by (by rewrite contents_nil)
    |rewrite decide_False by (rewrite contents_nil; tauto)].
  2: destruct killed; [by rewrite bind_release by done|by rewrite sleep_on_head by done].
  all: destruct (read_loop_spec (Z.to_nat n) [] (Lpipe id :: L) tr p Hok) as (p' & ? & ? & ? & E);
    exists p'; split_and!; try done; rewrite (bind_Ret _ _ _ _ _ _ _ E);
    erewrite bind_Ret by done; cbv beta; cbn [held trace]; by rewrite bind_release by done.
Qed.

(** A pipe is a bounded FIFO queue.  [pipewrite] appends a prefix of the bytes
    and stops short only when the queue holds 512: it then fails if the read end
    is closed or the writer killed, and else sleeps with the rest.  Unless it
    failed, it wakes the readers. *)
Theorem pipewrite_spec killed bytes L tr p :
  pipe_ok p → Lpipe id ∉ L →
  ∃ e w rest p', bytes = w ++ rest ∧ pipe_ok p' ∧ contents p' = contents p ++ w ∧ same_ends p p' ∧
    write_post killed p rest e p' ∧
    pipewrite id killed bytes (Ctx L tr) p =
      Ret e (Ctx L (tr ++ match e with Wfailed => [] | _ => [EWakeup (ChNread id)] end)) p'.
Proof. apply pipewrite_ok. Qed.

(** [piperead] takes at most [n] bytes off the front of the queue and wakes the
    writers; on an empty pipe whose write end is open it sleeps, or fails if the
    reader was killed. *)
Theorem piperead_spec killed n L tr p :
  pipe_ok p → Lpipe id ∉ L → read_post killed n L tr p (piperead id killed n (Ctx L tr) p).
Proof. apply piperead_ok. Qed.

End OpSpecs.

(** ** Processes sharing a pipe *)

(** A process that uses the pipe: outside it, about to run a turn of a read of
    [n] bytes or a write, or asleep in one. *)
Inductive user := Idle | Reading (n : Z) | RAsleep (n : Z) | Writing (bytes : list Z) | WAsleep (bytes : list Z).

Definition reader (u : user) : Prop := match u with Reading _ | RAsleep _ => True | _ => False end.
Definition writer (u : user) : Prop := match u with Writing _ | WAsleep _ => True | _ => False end.

(** [wakeup] on a channel of the pipe. *)
Definition wake_user (id : Z) (tr : list event) (u : user) : user :=
  match u with
  | RAsleep n => if bool_decide (EWakeup (ChNread id) ∈ tr) then Reading n else u
  | WAsleep b => if bool_decide (EWakeup (ChNwrite id) ∈ tr) then Writing b else u
  | _ => u
  end.

(** The pipe, its users, and the bytes accepted and delivered so far. *)
Record psys := PSys { pp : pipe; users : list user; accepted : list Z; delivered : list Z }.

Section System.
(** [kw]: writers may have been killed. *)
Context (id : Z) (kw : bool).

(** [done_users us i u tr]: user [i] becomes [u], and the wake-ups of [tr] are
    delivered to the others. *)
Definition done_users (us : list user) (i : nat) (u : user) (tr : list event) : list user :=
  wake_user id tr <$> <[i := u]> us.

Inductive step (s : psys) : psys → Prop :=
  (* a process has a descriptor of an end only while it is open *)
  | st_read i n : users s !! i = Some Idle → readopen (pp s) ≠ 0 →
      step s (PSys (pp s) (<[i := Reading n]> (users s)) (accepted s) (delivered s))
  | st_write i b : users s !! i = Some Idle → writeopen (pp s) ≠ 0 →
      step s (PSys (pp s) (<[i := Writing b]> (users s)) (accepted s) (delivered s))
  | st_read_run i n k r tr p' : users s !! i = Some (Reading n) →
      piperead id k n (Ctx [] []) (pp s) = Ret r (Ctx [] tr) p' →
      step s (PSys p' (done_users (users s) i Idle tr) (accepted s) (delivered s ++ default [] r))
  | st_read_sleep i n k ch c p' : users s !! i = Some (Reading n) →
      piperead id k n (Ctx [] []) (pp s) = Sleep ch c p' →
      step s (PSys p' (<[i := RAsleep n]> (users s)) (accepted s) (delivered s))
  | st_write_run i b k e tr p' : users s !! i = Some (Writing b) → (k = true → kw = true) →
      pipewrite id k b (Ctx [] []) (pp s) = Ret e (Ctx [] tr) p' →
      step s (PSys p'
        (done_users (users s) i (match e with Wsleep rest => WAsleep rest | _ => Idle end) tr)
        (accepted s ++ drop (count (pp s)) (contents p')) (delivered s))
  (* an end is closed once nobody uses it *)
  | st_close w b tr p' : Forall (λ u, if w : bool then ¬ writer u else ¬ reader u) (users s) →
      pipeclose id w (Ctx [] []) (pp s) = Ret b (Ctx [] tr) p' →
      step s (PSys p' (wake_user id tr <$> users s) (accepted s) (delivered s))
  (* a killed process is woken *)
  | st_kill i u : users s !! i = Some u →
      step s (PSys (pp s) (<[i := match u with RAsleep n => Reading n | WAsleep b => Writing b | _ => u end]>
        (users s)) (accepted s) (delivered s)).
Inductive reachable : psys → Prop :=
  | reach_init data n : length data = 512%nat → reachable (PSys (pipe_init data) (replicate n Idle) [] [])
  | reach_step s s' : reachable s → step s s' → reachable s'.

(** What holds of a sleeping reader or writer of pipe [p]: there is nothing for
    it to do. *)
Definition rd_ok (p : pipe) (u : user) : Prop :=
  match u with RAsleep _ => contents p = [] ∧ writeopen p ≠ 0 | _ => True end.
Definition wr_ok (p : pipe) (u : user) : Prop :=
  match u with WAsleep _ => count p = 512%nat ∧ readopen p ≠ 0 | _ => True end.
(** Who uses an end keeps it open. *)
Definition end_ok (p : pipe) (u : user) : Prop :=
  (reader u → readopen p ≠ 0) ∧ (writer u → writeopen p ≠ 0).

Record finv (s : psys) : Prop := {
  f_ok : pipe_ok (pp s);
  f_fifo : accepted s = delivered s ++ contents (pp s);
  f_ends : Forall (end_ok (pp s)) (users s) }.

Definition winv (s : psys) : Prop :=
  Forall (rd_ok (pp s)) (users s) ∧ Forall (wr_ok (pp s)) (users s).

(** After its wake-up, nobody sleeps on a channel. *)
Lemma rd_woken p us tr :
  EWakeup (ChNread id) ∈ tr ∨ Forall (rd_ok p) us → Forall (rd_ok p) (wake_user id tr <$> us).
Proof.
  rewrite Forall_fmap, !Forall_forall. intros Hr u Hu. unfold compose, wake_user.
  destruct u; try done; case_bool_decide; try done.
  destruct Hr as [|Hr]; [done|]. by apply Hr.
Qed.
Lemma wr_woken p us tr :
  EWakeup (ChNwrite id) ∈ tr ∨ Forall (wr_ok p) us → Forall (wr_ok p) (wake_user id tr <$> us).
Proof.
  rewrite Forall_fmap, !Forall_forall. intros Hr u Hu. unfold compose, wake_user.
  destruct u; try done; case_bool_decide; try done.
  destruct Hr as [|Hr]; [done|]. by apply Hr.
Qed.
Lemma ends_woken p us tr : Forall (end_ok p) us → Forall (end_ok p) (wake_user id tr <$> us).
Proof.
  intros H. rewrite Forall_fmap. eapply Forall_impl; [exact H|]. intros u. unfold compose, wake_user, end_ok.
  destruct u; simpl; try done; case_bool_decide; done.
Qed.

Lemma ends_same p p' us : same_ends p p' → Forall (end_ok p) us → Forall (end_ok p') us.
Proof. intros [E1 E2] H. eapply Forall_impl; [exact H|]. intros u. unfold end_ok. by rewrite E1, E2. Qed.

Lemma Forall_at (P : user → Prop) us i u : Forall P us → us !! i = Some u → P u.
Proof. intros H Hi. rewrite Forall_lookup in H. eauto. Qed.

Lemma pipeclose_ok w p :
  pipeclose id w (Ctx [] []) p =
  Ret (((if w : bool then readopen p else 0) =? 0) && ((if w then 0 else writeopen p) =? 0))%bool
    (Ctx [] [EWakeup (if w then ChNread id else ChNwrite id)])
    (if w then Pipe (data p) (nread p) (nwrite p) (readopen p) 0
     else Pipe (data p) (nread p) (nwrite p) 0 (writeopen p)).
Proof.
  unfold pipeclose. rewrite bind_acquire by set_solver. cbn [held trace].
  destruct w; unfold mbind, M_bind, modify, emit, get; cbn [held trace];
    rewrite release_head by set_solver; done.
Qed.

Lemma step_finv s s' : finv s → step s s' → finv s'.
Proof.
  intros [Hok Hfifo Hends] Hs. destruct Hs as [i n Hi Ho|i b Hi Ho|i n k r tr p' Hi E|i n k ch c p' Hi E
    |i b k e tr p' Hi Hk E|w b tr p' Hf E|i u Hi].
  - split; [done|done|]. apply Forall_insert; [done|]. done.
  - split; [done|done|]. apply Forall_insert; [done|]. done.
  - pose proof (piperead_ok id k n [] [] (pp s) Hok ltac:(set_solver)) as Hr. rewrite E in Hr.
    unfold read_post in Hr. case_decide as Hd.
    + destruct k; [|done]. injection Hr as -> -> ->. simpl.
      split; simpl; [done|by rewrite app_nil_r|]. apply ends_woken, Forall_insert; [done|]. done.
    + destruct Hr as (p1 & Hok1 & Hc & Hse & Hr). injection Hr as -> -> ->. split; simpl; [done| |].
      * by rewrite Hfifo, Hc, <- app_assoc, take_drop.
      * apply ends_woken, Forall_insert; [|done]. by eapply ends_same.
  - pose proof (piperead_ok id k n [] [] (pp s) Hok ltac:(set_solver)) as Hr. rewrite E in Hr.
    unfold read_post in Hr. case_decide; [|naive_solver]. destruct k; [done|].
    injection Hr as _ _ ->. split; simpl; [done|done|].
    apply Forall_insert; [done|]. apply (Forall_at _ _ _ _ Hends Hi).
  - destruct (pipewrite_ok id k b [] [] (pp s) Hok ltac:(set_solver))
      as (e' & w & rest & p1 & -> & Hok1 & Hc & Hse & Hp & E').
    rewrite E in E'. injection E' as <- _ <-. split; simpl; [done| |].
    + rewrite Hfifo, Hc, <- app_assoc. f_equal. rewrite drop_app_length' by (symmetry; apply length_contents).
      done.
    + apply ends_woken, Forall_insert; [by eapply ends_same|]. destruct Hse as [E1 E2].
      pose proof (Forall_at _ _ _ _ Hends Hi) as [_ Hw]. destruct e; try done. split; [done|].
      rewrite E2. intros _. by apply Hw.
  - rewrite pipeclose_ok in E. injection E as _ <- <-.
    split; simpl; [by destruct w, Hok|by destruct w|]. apply ends_woken.
    rewrite Forall_forall in Hends, Hf. apply Forall_forall. intros u Hu.
    destruct (Hends u Hu) as [H1 H2]. specialize (Hf u Hu). destruct w; split; simpl; tauto.
  - split; simpl; [done|done|]. apply Forall_insert; [done|].
    pose proof (Forall_at _ _ _ _ Hends Hi) as Hu. by destruct u.
Qed.

Lemma step_winv s s' : kw = false → finv s → winv s → step s s' → winv s'.
Proof.
  intros Hkw [Hok Hfifo Hends] [Hrd Hwr] Hs.
  destruct Hs as [i n Hi Ho|i b Hi Ho|i n k r tr p' Hi E|i n k ch c p' Hi E
    |i b k e tr p' Hi Hk E|w b tr p' Hf E|i u Hi]; simpl.
  - split; by apply Forall_insert.
  - split; by apply Forall_insert.
  - pose proof (piperead_ok id k n [] [] (pp s) Hok ltac:(set_solver)) as Hr. rewrite E in Hr.
    unfold read_post in Hr. case_decide as Hd.
    + destruct k; [|done]. injection Hr as -> -> ->.
      split; [apply rd_woken|apply wr_woken]; right; by apply Forall_insert.
    + destruct Hr as (p1 & Hok1 & Hc & Hse & Hr). injection Hr as -> -> ->.
      split; [apply rd_woken; right|apply wr_woken; left; simpl; set_solver].
      apply Forall_insert; [|done]. eapply Forall_impl; [exact Hrd|]. intros u Hu. by destruct u.
  - pose proof (piperead_ok id k n [] [] (pp s) Hok ltac:(set_solver)) as Hr. rewrite E in Hr.
    unfold read_post in Hr. case_decide as Hd; [|naive_solver]. destruct k; [done|].
    injection Hr as _ _ ->. split; by apply Forall_insert.
  - destruct (pipewrite_ok id k b [] [] (pp s) Hok ltac:(set_solver))
      as (e' & w & rest & p1 & -> & Hok1 & Hc & [Er Ew] & Hp & E').
    rewrite E in E'. injection E' as <- -> <-.
    assert (k = false) as -> by (destruct k; [specialize (Hk eq_refl); congruence|done]).
    assert (∀ u, u ∈ users s → readopen (pp s) ≠ 0 → wr_ok (pp s) u → wr_ok p' u) as Hwr'.
    { intros [] Hu Hne Hw; try done. destruct Hw as [Hw _]. split; [|by rewrite Er].
      pose proof (f_equal length Hc) as Hl. rewrite length_app, !length_contents in Hl.
      pose proof (ok_count p' Hok1). lia. }
    destruct e as [| |r]; simpl in Hp.
    + split; [apply rd_woken; left; simpl; set_solver|apply wr_woken; right].
      apply Forall_insert; [|done]. rewrite Forall_forall in Hwr |- *. intros u Hu.
      pose proof (Hwr u Hu) as Hw. destruct u; try done. apply Hwr'; [done|apply Hw|done].
    + destruct Hp as (_ & _ & [Hr|]); [|done].
      split; [apply rd_woken; right|apply wr_woken; right]; (apply Forall_insert; [|done]).
      * rewrite Forall_forall in Hends |- *. intros u Hu. destruct (Hends u Hu) as [H1 _].
        destruct u; try done. by destruct H1.
      * rewrite Forall_forall in Hwr |- *. intros u Hu. pose proof (Hwr u Hu) as Hw.
        destruct u; try done. by destruct Hw.
    + destruct Hp as (-> & _ & Hcnt & Hr & _).
      split; [apply rd_woken; left; simpl; set_solver|apply wr_woken; right].
      apply Forall_insert; [|split; [done|simpl; by rewrite Er]]. rewrite Forall_forall in Hwr |- *. intros u Hu.
      apply Hwr'; auto.
  - rewrite pipeclose_ok in E. injection E as _ <- <-. destruct w.
    + split; [apply rd_woken; left; simpl; set_solver|apply wr_woken; right].
      eapply Forall_impl; [exact Hwr|]. intros u Hu. by destruct u.
    + split; [apply rd_woken; right|apply wr_woken; left; simpl; set_solver].
      eapply Forall_impl; [exact Hrd|]. intros u Hu. by destruct u.
  - split; apply Forall_insert; try done; by destruct u.
Qed.

Lemma init_inv data n :
  length data = 512%nat → finv (PSys (pipe_init data) (replicate n Idle) [] []) ∧
  winv (PSys (pipe_init data) (replicate n Idle) [] []).
Proof.
  intros Hd.
  assert (∀ P : user → Prop, P Idle → Forall P (replicate n Idle)) as Hrep
    by (intros; by apply Forall_replicate).
  split; [split|split]; simpl; try (apply Hrep; done); [|done].
  split; simpl; [done|lia|lia|apply Nat.le_0_l].
Qed.

Lemma reachable_finv s : reachable s → finv s.
Proof. induction 1; [by apply init_inv|by eapply step_finv]. Qed.

Lemma reachable_winv s : kw = false → reachable s → winv s.
Proof.
  intros Hk. induction 1; [by apply init_inv|]. eapply step_winv; eauto using reachable_finv.
Qed.

End System.


(** C29: As long as no writer is killed in the middle of a write, no wake-up is
    lost: a reader sleeps only while the pipe is empty and its write end open,
    a writer only while it is full and its read end open. *)
Theorem pipe_no_lost_wakeup id s u :
  reachable id false s → u ∈ users s →
  match u with
  | RAsleep _ => contents (pp s) = [] ∧ writeopen (pp s) ≠ 0
  | WAsleep _ => length (contents (pp s)) = 512%nat ∧ readopen (pp s) ≠ 0
  | _ => True
  end.
Proof.
  intros Hr Hu. destruct (reachable_winv id false s eq_refl Hr) as [Hrd Hwr].
  rewrite Forall_forall in Hrd, Hwr. specialize (Hrd u Hu). specialize (Hwr u Hu).
  destruct u; try done. by rewrite length_contents.
Qed.

(** ** The lost wake-up *)

(** One reader, two writers.  The reader sleeps on the empty pipe; a writer fills
    it and, having been killed, fails at byte 513. *)
Definition lost_bytes : list Z := replicate 513 7.
Definition empty_pipe : pipe := pipe_init (replicate 512 0).
Definition lost0 : psys := PSys empty_pipe (replicate 3 Idle) [] [].
Definition lost1 : psys := PSys empty_pipe [RAsleep 1; Writing lost_bytes; Idle] [] [].
Definition full_pipe : pipe := Pipe (replicate 512 7) 0 512 1 1.
Definition lost2 : psys := PSys full_pipe [RAsleep 1; Idle; Idle] (replicate 512 7) [].

Lemma lost1_reachable kw : reachable 0 kw lost1.
Proof.
  apply (reach_step 0 kw (PSys empty_pipe [Reading 1; Writing lost_bytes; Idle] [] [])).
  - apply (reach_step 0 kw (PSys empty_pipe [Reading 1; Idle; Idle] [] [])).
    + apply (reach_step 0 kw lost0); [by apply (reach_init 0 kw (replicate 512 0) 3)|].
      by apply (st_read 0 kw lost0 0 1).
    + by apply (st_write 0 kw (PSys empty_pipe [Reading 1; Idle; Idle] [] []) 1 lost_bytes).
  - by apply (st_read_sleep 0 kw (PSys empty_pipe [Reading 1; Writing lost_bytes; Idle] [] []) 0 1 false
      (ChNread 0) (Ctx [] []) empty_pipe).
Qed.

(** A killed writer can lose a wake-up: [pipewrite] returns -1 without waking
    the readers although it has put bytes in the pipe, and a reader that slept on
    the empty pipe stays asleep with 512 bytes to read and the write end open. *)
Theorem pipe_killed_writer_loses_wakeup :
  ∃ s n, reachable 0 true s ∧ RAsleep n ∈ users s ∧ length (contents (pp s)) = 512%nat ∧
    writeopen (pp s) = 1.
Proof.
  exists lost2, 1. split; [|split; [simpl; set_solver|by split]].
  apply (reach_step 0 true lost1); [apply lost1_reachable|].
  pose proof (st_write_run 0 true lost1 1 lost_bytes true Wfailed [] full_pipe eq_refl (λ _, eq_refl)) as Hs.
  assert (pipewrite 0 true lost_bytes (Ctx [] []) (pp lost1) = Ret Wfailed (Ctx [] []) full_pipe) as E
    by (vm_compute; reflexivity).
  specialize (Hs E). exact Hs.
Qed.

Lemma pipewrite_spec_witness :
  ∃ e w rest p', [1; 2; 3] = w ++ rest ∧ pipe_ok p' ∧ contents p' = contents empty_pipe ++ w ∧
    same_ends empty_pipe p' ∧ write_post false empty_pipe rest e p' ∧
    pipewrite 0 false [1; 2; 3] (Ctx [] []) empty_pipe =
      Ret e (Ctx [] ([] ++ match e with Wfailed => [] | _ => [EWakeup (ChNread 0)] end)) p'.
Proof.
  apply pipewrite_spec; [|set_solver].
  exact (f_ok _ (proj1 (init_inv (replicate 512 0) 0 eq_refl))).
Defined.

Lemma piperead_spec_witness :
  read_post 0 false 1 [] [] empty_pipe (piperead 0 false 1 (Ctx [] []) empty_pipe).
Proof.
  apply piperead_spec; [|set_solver].
  exact (f_ok _ (proj1 (init_inv (replicate 512 0) 0 eq_refl))).
Defined.


Lemma pipe_no_lost_wakeup_witness : contents (pp lost1) = [] ∧ writeopen (pp lost1) ≠ 0.
Proof.
  apply (pipe_no_lost_wakeup 0 lost1 (RAsleep 1)); [apply lost1_reachable|simpl; set_solver].
Defined.
