(* ===== verification/Bio.v ===== *)
(** * The buffer cache

    [bio.c] over the in-memory disk of [memide.c], which the driver of [ide.c]
    refines ([Ide.v]): the cache of disk blocks, its LRU list as the
    list of buffer indices (most recently used first), and what a block's
    content is as the cache and the disk have it. *)

From S2P Require Import Prelude Locks.

Definition NBUF : nat := 30.
Definition BSIZE : nat := 512.
Definition B_VALID : Z := 2.
Definition B_DIRTY : Z := 4.
Definition ROOTDEV : Z := 1.
Definition FSSIZE : Z := 1000.

Definition block := list Z.
Definition zero_block : block := replicate BSIZE 0.

Record buf := Buf {
  flags : Z; dev : Z; blockno : Z; lock : Sleeplock.sleeplock; refcnt : Z; bdata : block }.

(** [bcache] with the disk below it. *)
Record bstate := BS { bufs : list buf; mru : list nat; memdisk : gmap Z block; disksize : Z }.

Definition set_bufs (x : list buf) (s : bstate) : bstate := BS x (mru s) (memdisk s) (disksize s).
Definition set_mru (x : list nat) (s : bstate) : bstate := BS (bufs s) x (memdisk s) (disksize s).
Definition set_disk (x : gmap Z block) (s : bstate) : bstate := BS (bufs s) (mru s) x (disksize s).

Definition set_flags (x : Z) (b : buf) : buf := Buf x (dev b) (blockno b) (lock b) (refcnt b) (bdata b).
Definition set_lock (x : Sleeplock.sleeplock) (b : buf) : buf :=
  Buf (flags b) (dev b) (blockno b) x (refcnt b) (bdata b).
Definition set_refcnt (x : Z) (b : buf) : buf := Buf (flags b) (dev b) (blockno b) (lock b) x (bdata b).
Definition set_bdata (x : block) (b : buf) : buf := Buf (flags b) (dev b) (blockno b) (lock b) (refcnt b) x.

Definition buf0 : buf := Buf 0 0 0 Sleeplock.initsleeplock 0 zero_block.
Definition buf_at (i : nat) (s : bstate) : buf := default buf0 (bufs s !! i).
Definition disk_at (b : Z) (s : bstate) : block := default zero_block (memdisk s !! b).

(** [b->... = ...]. *)
Definition upd_buf (i : nat) (f : buf → buf) : M bstate unit :=
  modify (λ s, set_bufs (alter f i (bufs s)) s).
(** An operation on the buffer's sleep lock. *)
Definition on_lock {A} (i : nat) (m : M Sleeplock.sleeplock A) : M bstate A :=
  zoom (λ s, lock (buf_at i s)) (λ l s, set_bufs (alter (set_lock l) i (bufs s)) s) m.

(** The list [binit] builds: each buffer goes to the front. *)
Definition binit (s : bstate) : bstate :=
  BS (set_lock Sleeplock.initsleeplock <$> bufs s)
     (foldl (λ l i, i :: l) [] (seq 0 NBUF)) (memdisk s) (disksize s).

(** The cache of a machine that has just booted on the disk [d] of [n] blocks. *)
Definition bcache0 (d : gmap Z block) (n : Z) : bstate := BS (replicate NBUF buf0) [] d n.

(** The first buffer of [l] satisfying [P]. *)
Fixpoint find_buf (P : buf → bool) (s : bstate) (l : list nat) : option nat :=
  match l with
  | [] => None
  | i :: l => if P (buf_at i s) then Some i else find_buf P s l
  end.

Section Ops.
(** The process id of the caller. *)
Context (mypid : Z).

Definition iderw (i : nat) : M bstate unit :=
  h ← on_lock i (Sleeplock.holdingsleep (SLbuf i) mypid);
  if negb h then panic "iderw: buf not locked"
  else
    s ← get;
    let b := buf_at i s in
    if Z.land (flags b) (Z.lor B_VALID B_DIRTY) =? B_VALID then panic "iderw: nothing to do"
    else if negb (dev b =? 1) then panic "iderw: request not for disk 1"
    else if u32 (disksize s) <=? blockno b then panic "iderw: block out of range"
    else
      (if negb (Z.land (flags b) B_DIRTY =? 0) then
         upd_buf i (λ b, set_flags (Z.land (flags b) (Z.lnot B_DIRTY)) b);;
         modify (λ s, set_disk (<[blockno b := bdata b]> (memdisk s)) s);;
         emit (EDiskWrite (dev b) (blockno b) (bdata b))
       else upd_buf i (set_bdata (disk_at (blockno b) s)));;
      upd_buf i (λ b, set_flags (Z.lor (flags b) B_VALID) b).

Definition bget (d n : Z) : M bstate nat :=
  acquire Lbcache;;
  s ← get;
  match find_buf (λ b, (dev b =? d) && (blockno b =? n))%bool s (mru s) with
  | Some i =>
      upd_buf i (λ b, set_refcnt (u32 (refcnt b + 1)) b);;
      release Lbcache;;
      on_lock i (Sleeplock.acquiresleep (SLbuf i) mypid);;
      mret i
  | None =>
  match find_buf (λ b, (refcnt b =? 0) && (Z.land (flags b) B_DIRTY =? 0))%bool s (reverse (mru s)) with
  | Some i =>
      upd_buf i (λ b, Buf 0 d n (lock b) 1 (bdata b));;
      release Lbcache;;
      on_lock i (Sleeplock.acquiresleep (SLbuf i) mypid);;
      mret i
  | None => panic "bget: no buffers"
  end end.

Definition bread (d n : Z) : M bstate nat :=
  i ← bget d n;
  s ← get;
  (if Z.land (flags (buf_at i s)) B_VALID =? 0 then iderw i else mret tt);;
  mret i.

Definition bwrite (i : nat) : M bstate unit :=
  h ← on_lock i (Sleeplock.holdingsleep (SLbuf i) mypid);
  if negb h then panic "bwrite"
  else
    upd_buf i (λ b, set_flags (Z.lor (flags b) B_DIRTY) b);;
    iderw i.

Definition brelse (i : nat) : M bstate unit :=
  h ← on_lock i (Sleeplock.holdingsleep (SLbuf i) mypid);
  if negb h then panic "brelse"
  else
    on_lock i (Sleeplock.releasesleep (SLbuf i));;
    acquire Lbcache;;
    upd_buf i (λ b, set_refcnt (u32 (refcnt b - 1)) b);;
    s ← get;
    (if refcnt (buf_at i s) =? 0
     then modify (set_mru (i :: filter (.≠ i) (mru s)))
     else mret tt);;
    release Lbcache.

End Ops.

(** ** Invariant *)

(** The content of block [n]: the cached copy if there is one. *)
Definition caches (n : Z) (b : buf) : bool := (dev b =? ROOTDEV) && (blockno b =? n).
Definition content (s : bstate) (n : Z) : block :=
  match find_buf (caches n) s (seq 0 NBUF) with
  | Some i => bdata (buf_at i s)
  | None => disk_at n s
  end.

(** The cache seen by its only user: [L] are the blocks it holds, with their
    buffers, and [D] covers the dirty blocks. *)
Record binv (mypid : Z) (L : list (Z * nat)) (D : list Z) (s : bstate) : Prop := {
  b_len : length (bufs s) = NBUF;
  b_mru : mru s ≡ₚ seq 0 NBUF;
  b_uniq i j bi bj : bufs s !! i = Some bi → bufs s !! j = Some bj →
    dev bi = ROOTDEV → dev bj = ROOTDEV → blockno bi = blockno bj → i = j;
  b_state i b : bufs s !! i = Some b →
    (dev b = ROOTDEV ∧ (flags b = 2 ∨ (flags b = 6 ∧ blockno b ∈ D))) ∨ (dev b = 0 ∧ flags b = 0);
  b_coherent i b : bufs s !! i = Some b → i ∉ L.*2 → flags b = 2 → bdata b = disk_at (blockno b) s;
  b_held n i : (n, i) ∈ L → ∃ b, bufs s !! i = Some b ∧ dev b = ROOTDEV ∧ blockno b = n ∧
    lock b = Sleeplock.SL 1 mypid ∧ refcnt b = 1;
  b_free i b : bufs s !! i = Some b → i ∉ L.*2 → Sleeplock.locked (lock b) = 0 ∧ refcnt b = 0 }.

Lemma buf_at_Some i s b : bufs s !! i = Some b → buf_at i s = b.
Proof. intros H. unfold buf_at. by rewrite H. Qed.

Lemma find_buf_Some P s l i : find_buf P s l = Some i → i ∈ l ∧ P (buf_at i s) = true.
Proof.
  induction l as [|j l IH]; simpl; [done|]. destruct (P (buf_at j s)) eqn:HP.
  - intros [= ->]. split; [set_solver|done].
  - intros [? ?]%IH. split; [set_solver|done].
Qed.

Lemma find_buf_None P s l : find_buf P s l = None → ∀ i, i ∈ l → P (buf_at i s) = false.
Proof.
  induction l as [|j l IH]; simpl; [intros _ i Hi; set_solver|].
  destruct (P (buf_at j s)) eqn:HP; [done|]. intros Hn i [->|Hi]%elem_of_cons; auto.
Qed.

Lemma find_buf_None_2 P s l : (∀ i, i ∈ l → P (buf_at i s) = false) → find_buf P s l = None.
Proof.
  induction l as [|j l IH]; simpl; [done|]. intros H. rewrite (H j) by set_solver.
  apply IH. set_solver.
Qed.

Lemma find_buf_disk P d s l : find_buf P (set_disk d s) l = find_buf P s l.
Proof. induction l as [|i l IH]; simpl; [done|]. by rewrite IH. Qed.
Lemma find_buf_mru P l' s l : find_buf P (set_mru l' s) l = find_buf P s l.
Proof. induction l as [|i l IH]; simpl; [done|]. by rewrite IH. Qed.

Section Inv.
Context (mypid : Z).

Lemma binv_slot L D s i : binv mypid L D s → (i < NBUF)%nat → bufs s !! i = Some (buf_at i s).
Proof.
  intros Hinv Hi. destruct (lookup_lt_is_Some_2 (bufs s) i) as [b Hb]; [by rewrite (b_len _ _ _ _ Hinv)|].
  by rewrite (buf_at_Some _ _ _ Hb).
Qed.

Lemma caches_true n b : caches n b = true ↔ dev b = ROOTDEV ∧ blockno b = n.
Proof. unfold caches. by rewrite andb_true_iff, !Z.eqb_eq. Qed.

Lemma elem_seq i n : i ∈ seq 0 n ↔ (i < n)%nat.
Proof. rewrite elem_of_seq. lia. Qed.

(** A search of the whole cache, in any order, finds the buffer of a block. *)
Lemma find_cached L D s n l i b :
  binv mypid L D s → l ≡ₚ seq 0 NBUF → bufs s !! i = Some b → dev b = ROOTDEV → blockno b = n →
  find_buf (caches n) s l = Some i.
Proof.
  intros Hinv Hl Hi Hd Hn. destruct (find_buf (caches n) s l) as [j|] eqn:E.
  - apply find_buf_Some in E as [Hj [Hdj Hnj]%caches_true]. f_equal.
    rewrite Hl, elem_seq in Hj. pose proof (binv_slot _ _ _ _ Hinv Hj) as Hbj.
    eapply (b_uniq _ _ _ _ Hinv j i); [done|done|done|done|congruence].
  - assert (caches n (buf_at i s) = false) as Hf.
    { eapply find_buf_None; [done|]. rewrite Hl, elem_seq, <- (b_len _ _ _ _ Hinv).
      by eapply lookup_lt_Some. }
    rewrite (buf_at_Some _ _ _ Hi) in Hf. apply not_true_iff_false in Hf.
    destruct Hf. by apply caches_true.
Qed.

Lemma find_uncached s n l l' :
  l ≡ₚ l' → find_buf (caches n) s l = None → find_buf (caches n) s l' = None.
Proof.
  intros Hl Hn. destruct (find_buf (caches n) s l') as [i|] eqn:E; [|done].
  apply find_buf_Some in E as [Hi Hc]. rewrite <- Hl in Hi.
  rewrite (find_buf_None _ _ _ Hn i Hi) in Hc. done.
Qed.

Lemma content_cached L D s n i b :
  binv mypid L D s → bufs s !! i = Some b → dev b = ROOTDEV → blockno b = n → content s n = bdata b.
Proof.
  intros Hinv Hi Hd Hn. unfold content. erewrite find_cached by eauto. by rewrite (buf_at_Some _ _ _ Hi).
Qed.

Lemma content_uncached s n :
  find_buf (caches n) s (seq 0 NBUF) = None → content s n = disk_at n s.
Proof. unfold content. by intros ->. Qed.

(** Two states with the same buffers up to lock, count and list order have the
    same contents. *)
Lemma content_ext s s' n :
  (∀ i, (i < NBUF)%nat → caches n (buf_at i s') = caches n (buf_at i s) ∧
     (caches n (buf_at i s) = true → bdata (buf_at i s') = bdata (buf_at i s))) →
  disk_at n s' = disk_at n s → content s' n = content s n.
Proof.
  intros Hb Hd. unfold content.
  assert (∀ l, (∀ i, i ∈ l → (i < NBUF)%nat) →
    match find_buf (caches n) s' l with Some i => bdata (buf_at i s') | None => disk_at n s' end =
    match find_buf (caches n) s l with Some i => bdata (buf_at i s) | None => disk_at n s end) as H.
  { induction l as [|i l IH]; intros Hl; simpl; [done|].
    destruct (Hb i (Hl i ltac:(set_solver))) as [Hc Hd']. rewrite Hc.
    destruct (caches n (buf_at i s)); [by apply Hd'|]. apply IH. set_solver. }
  apply H. intros i. by rewrite elem_seq.
Qed.

(** While fewer than [NBUF] buffers are held or dirty, one can be recycled. *)
Lemma free_buf L D s l :
  binv mypid L D s → l ≡ₚ seq 0 NBUF → (length L + length D < NBUF)%nat →
  ∃ i, find_buf (λ b, (refcnt b =? 0) && (Z.land (flags b) B_DIRTY =? 0))%bool s l = Some i ∧
    (i < NBUF)%nat ∧ i ∉ L.*2 ∧ flags (buf_at i s) ≠ 6.
Proof.
  intros Hinv Hl Hlt. destruct (find_buf _ s l) as [i|] eqn:E.
  - exists i. split; [done|]. apply find_buf_Some in E as [Hi HP]. rewrite Hl, elem_seq in Hi.
    bool_props. split; [done|]. pose proof (binv_slot _ _ _ _ Hinv Hi) as Hb. split.
    + intros [[n j] [-> Hin]]%list_elem_of_fmap. simpl in *.
      destruct (b_held _ _ _ _ Hinv n j Hin) as (b & Hb' & _ & _ & _ & Hr). simplify_eq. lia.
    + intros Hf. rewrite Hf in *. done.
  - exfalso. assert (∀ i, i ∈ seq 0 NBUF → i ∈ L.*2 ∨ dev (buf_at i s) = ROOTDEV ∧ blockno (buf_at i s) ∈ D) as Hpin.
    { intros i Hi%elem_seq. pose proof (find_buf_None _ _ _ E i ltac:(by rewrite Hl, elem_seq)) as Hf.
      pose proof (binv_slot _ _ _ _ Hinv Hi) as Hb. destruct (decide (i ∈ L.*2)) as [|Hn]; [by left|right].
      destruct (b_free _ _ _ _ Hinv i _ Hb Hn) as [_ Hr]. simpl in Hf. rewrite Hr in Hf.
      destruct (b_state _ _ _ _ Hinv i _ Hb) as [[Hd [Hfl|[_ HD]]]|[_ Hfl]]; [|done|]; by rewrite Hfl in Hf. }
    set (A := filter (.∈ L.*2) (seq 0 NBUF)). set (B := filter (.∉ L.*2) (seq 0 NBUF)).
    assert (length A ≤ length L)%nat as HA.
    { rewrite <- (length_fmap snd L). apply submseteq_length, NoDup_submseteq.
      - apply NoDup_filter, NoDup_seq.
      - intros i. unfold A. rewrite list_elem_of_filter. tauto. }
    assert (length B ≤ length D)%nat as HB.
    { rewrite <- (length_fmap (λ i, blockno (buf_at i s)) B). apply submseteq_length, NoDup_submseteq.
      - apply NoDup_fmap_2_strong; [|apply NoDup_filter, NoDup_seq].
        intros i j [Hi Hi']%list_elem_of_filter [Hj Hj']%list_elem_of_filter Heq.
        destruct (Hpin i Hi') as [|[Hd _]]; [done|]. destruct (Hpin j Hj') as [|[Hd' _]]; [done|].
        apply elem_seq in Hi', Hj'. eapply (b_uniq _ _ _ _ Hinv); eauto using binv_slot.
      - intros n (i & -> & [Hi Hi']%list_elem_of_filter)%list_elem_of_fmap.
        destruct (Hpin i Hi') as [|[_ ?]]; done. }
    assert (length A + length B = NBUF)%nat; [|lia].
    unfold A, B. rewrite <- length_app, <- (length_seq NBUF 0). apply Permutation_length.
    apply filter_app_complement.
Qed.

(** ** The sleep lock of a buffer *)

Lemma alter_self {A} (f : A → A) i (l : list A) x :
  l !! i = Some x → f x = x → alter f i l = l.
Proof.
  intros Hi Hf. apply list_eq. intros j. rewrite list_lookup_alter. case_decide; [subst|done].
  rewrite Hi. simpl. by rewrite Hf.
Qed.

Lemma set_bufs_id s : set_bufs (bufs s) s = s.
Proof. by destruct s. Qed.

Lemma lock_acquire i b tr s :
  bufs s !! i = Some b → Sleeplock.locked (lock b) = 0 →
  on_lock i (Sleeplock.acquiresleep (SLbuf i) mypid) (Ctx [] tr) s =
  Ret tt (Ctx [] tr) (set_bufs (alter (set_lock (Sleeplock.SL 1 mypid)) i (bufs s)) s).
Proof.
  intros Hi Hl. unfold on_lock, zoom. rewrite (buf_at_Some _ _ _ Hi).
  unfold Sleeplock.acquiresleep. rewrite bind_acquire by set_solver.
  unfold mbind, M_bind, get, put. rewrite Hl. simpl. by rewrite release_head by set_solver.
Qed.

Lemma lock_holding i b tr s :
  bufs s !! i = Some b → lock b = Sleeplock.SL 1 mypid →
  on_lock i (Sleeplock.holdingsleep (SLbuf i) mypid) (Ctx [] tr) s = Ret true (Ctx [] tr) s.
Proof.
  intros Hi Hl. unfold on_lock, zoom. rewrite (buf_at_Some _ _ _ Hi), Hl.
  unfold Sleeplock.holdingsleep. rewrite bind_acquire by set_solver.
  unfold mbind, M_bind, get. cbn [held trace]. rewrite release_head by set_solver. simpl.
  rewrite Z.eqb_refl. rewrite (alter_self _ _ _ b); [by rewrite set_bufs_id|done|].
  destruct b. simpl in Hl. by subst.
Qed.

Lemma lock_release i b tr s :
  bufs s !! i = Some b →
  on_lock i (Sleeplock.releasesleep (SLbuf i)) (Ctx [] tr) s =
  Ret tt (Ctx [] (tr ++ [EWakeup (ChSleeplock (SLbuf i))]))
      (set_bufs (alter (set_lock (Sleeplock.SL 0 0)) i (bufs s)) s).
Proof.
  intros Hi. unfold on_lock, zoom. unfold Sleeplock.releasesleep.
  rewrite bind_acquire by set_solver. unfold mbind, M_bind, put, emit. cbn [held trace].
  by rewrite release_head by set_solver.
Qed.

(** ** Changing one buffer *)

(** [s'] is [s] with buffer [i] replaced by [b] and perhaps reordered. *)
Definition with_buf (i : nat) (b : buf) (s : bstate) : bstate := set_bufs (<[i := b]> (bufs s)) s.

Lemma buf_at_with i b s j :
  (i < length (bufs s))%nat → buf_at j (with_buf i b s) = if decide (i = j) then b else buf_at j s.
Proof.
  intros Hi. unfold buf_at, with_buf. simpl. destruct (decide (i = j)) as [->|].
  - by rewrite list_lookup_insert_eq.
  - by rewrite list_lookup_insert_ne.
Qed.

Lemma alter_with f i b s : bufs s !! i = Some b → set_bufs (alter f i (bufs s)) s = with_buf i (f b) s.
Proof.
  intros Hi. unfold with_buf. f_equal. apply list_eq. intros j. rewrite list_lookup_alter.
  case_decide; [subst|by rewrite list_lookup_insert_ne].
  by rewrite Hi, list_lookup_insert_eq by (by eapply lookup_lt_Some).
Qed.

Lemma with_with i b b' s : with_buf i b' (with_buf i b s) = with_buf i b' s.
Proof. unfold with_buf, set_bufs. simpl. by rewrite list_insert_insert_eq. Qed.

(** The invariant after buffer [i], free or not, becomes [b], held for block [n]. *)
Lemma binv_take L D s i b n :
  binv mypid L D s → (i < NBUF)%nat → i ∉ L.*2 →
  (∀ j c, j ≠ i → bufs s !! j = Some c → dev c = ROOTDEV → blockno c ≠ n) →
  dev b = ROOTDEV → blockno b = n → (flags b = 2 ∨ (flags b = 6 ∧ n ∈ D)) →
  lock b = Sleeplock.SL 1 mypid → refcnt b = 1 →
  binv mypid ((n, i) :: L) D (with_buf i b s).
Proof.
  intros Hinv Hi HiL Hn Hd Hb Hf Hl Hr. pose proof (b_len _ _ _ _ Hinv) as Hlen.
  assert (∀ j c, bufs (with_buf i b s) !! j = Some c → (j = i ∧ c = b) ∨ (j ≠ i ∧ bufs s !! j = Some c)) as Hx.
  { intros j c [(-> & -> & _)|[? ?]]%list_lookup_insert_Some; auto. }
  split; simpl.
  - by rewrite length_insert.
  - apply (b_mru _ _ _ _ Hinv).
  - intros j k cj ck [[-> ->]|[Hj Hcj]]%Hx [[-> ->]|[Hk Hck]]%Hx Hdj Hdk Heq; [done|..].
    + exfalso. eapply (Hn k ck); [done..|]. congruence.
    + exfalso. eapply (Hn j cj); [done..|]. congruence.
    + eapply (b_uniq _ _ _ _ Hinv); eauto.
  - intros j c [[-> ->]|[Hj Hc]]%Hx; [|eapply (b_state _ _ _ _ Hinv); eauto].
    left. split; [done|]. by rewrite Hb.
  - intros j c [[-> ->]|[Hj Hc]]%Hx HjL; [set_solver|]. apply (b_coherent _ _ _ _ Hinv j); set_solver.
  - intros m j [[= -> ->]|Hm]%elem_of_cons.
    + exists b. rewrite list_lookup_insert_eq by lia. done.
    + destruct (b_held _ _ _ _ Hinv m j Hm) as (c & Hc & ?). exists c.
      rewrite list_lookup_insert_ne; [done|]. intros ->. apply HiL, list_elem_of_fmap. by exists (m, j).
  - intros j c [[-> ->]|[Hj Hc]]%Hx HjL; [set_solver|]. apply (b_free _ _ _ _ Hinv j); set_solver.
Qed.

(** Contents, disk and size are the same. *)
Definition same (s s' : bstate) : Prop :=
  (∀ m, content s' m = content s m) ∧ memdisk s' = memdisk s ∧ disksize s' = disksize s.

Lemma same_trans s1 s2 s3 : same s1 s2 → same s2 s3 → same s1 s3.
Proof. intros (A & B & C) (A' & B' & C'). split; [intros m; by rewrite A', A|split; congruence]. Qed.

(** Replacing a buffer by one with the same block and data changes no content. *)
Lemma same_with s i b :
  (i < length (bufs s))%nat → dev b = dev (buf_at i s) → blockno b = blockno (buf_at i s) →
  bdata b = bdata (buf_at i s) → same s (with_buf i b s).
Proof.
  intros Hi Hd Hn Hb. split; [|done]. intros m. apply content_ext; [|done]. intros j _.
  rewrite buf_at_with by done. case_decide; [subst j|done]. unfold caches. by rewrite Hd, Hn.
Qed.

Lemma bget_cached L D s n i b tr :
  binv mypid L D s → bufs s !! i = Some b → dev b = ROOTDEV → blockno b = n → i ∉ L.*2 →
  bget mypid ROOTDEV n (Ctx [] tr) s =
  Ret i (Ctx [] tr) (with_buf i (Buf (flags b) ROOTDEV n (Sleeplock.SL 1 mypid) 1 (bdata b)) s).
Proof.
  intros Hinv Hi Hd Hn HiL. destruct (b_free _ _ _ _ Hinv i b Hi HiL) as [Hl Hr].
  unfold bget. rewrite bind_acquire by set_solver. cbn [held trace].
  erewrite bind_Ret by done. cbv beta.
  change (λ b0, (dev b0 =? ROOTDEV) && (blockno b0 =? n))%bool with (caches n).
  erewrite find_cached; [|done|apply (b_mru _ _ _ _ Hinv)|done..].
  unfold upd_buf. erewrite bind_Ret by done. cbv beta. rewrite bind_release by set_solver.
  rewrite (alter_with _ _ _ _ Hi). erewrite bind_Ret; [reflexivity|].
  erewrite lock_acquire; [|apply list_lookup_insert_eq; by eapply lookup_lt_Some|done].
  rewrite (alter_with _ i (set_refcnt (u32 (refcnt b + 1)) b)), with_with
    by (apply list_lookup_insert_eq; by eapply lookup_lt_Some).
  rewrite Hr. destruct b. simpl in *. by subst.
Qed.

Lemma bget_recycled L D s n tr :
  binv mypid L D s → find_buf (caches n) s (seq 0 NBUF) = None → (length L + length D < NBUF)%nat →
  ∃ i, (i < NBUF)%nat ∧ i ∉ L.*2 ∧ flags (buf_at i s) ≠ 6 ∧
    bget mypid ROOTDEV n (Ctx [] tr) s =
    Ret i (Ctx [] tr) (with_buf i (Buf 0 ROOTDEV n (Sleeplock.SL 1 mypid) 1 (bdata (buf_at i s))) s).
Proof.
  intros Hinv Hn Hlt.
  destruct (free_buf L D s (reverse (mru s)) Hinv) as (i & Hf & Hi & HiL & Hfl);
    [by rewrite reverse_Permutation, (b_mru _ _ _ _ Hinv)|done|].
  pose proof (binv_slot _ _ _ _ Hinv Hi) as Hb. destruct (b_free _ _ _ _ Hinv i _ Hb HiL) as [Hl Hr].
  exists i. split; [done|]. split; [done|]. split; [done|].
  unfold bget. rewrite bind_acquire by set_solver. cbn [held trace].
  erewrite bind_Ret by done. cbv beta.
  change (λ b0, (dev b0 =? ROOTDEV) && (blockno b0 =? n))%bool with (caches n).
  rewrite (find_uncached s n (seq 0 NBUF) (mru s)) by (done || by rewrite (b_mru _ _ _ _ Hinv)).
  rewrite Hf. unfold upd_buf. erewrite bind_Ret by done. cbv beta. rewrite bind_release by set_solver.
  rewrite (alter_with _ _ _ _ Hb). erewrite bind_Ret; [reflexivity|].
  erewrite lock_acquire; [|apply list_lookup_insert_eq; by eapply lookup_lt_Some|done].
  rewrite (alter_with _ i (Buf 0 ROOTDEV n (lock (buf_at i s)) 1 (bdata (buf_at i s)))), with_with
    by (apply list_lookup_insert_eq; by eapply lookup_lt_Some).
  done.
Qed.

(** [iderw] on a held buffer that has not been read. *)
Lemma iderw_read i b tr s :
  bufs s !! i = Some b → lock b = Sleeplock.SL 1 mypid → flags b = 0 → dev b = ROOTDEV →
  blockno b < u32 (disksize s) →
  iderw mypid i (Ctx [] tr) s =
  Ret tt (Ctx [] tr) (with_buf i (Buf 2 (dev b) (blockno b) (lock b) (refcnt b) (disk_at (blockno b) s)) s).
Proof.
  intros Hi Hl Hf Hd Hn. unfold iderw. rewrite (bind_Ret _ _ _ _ _ _ _ (lock_holding i b tr s Hi Hl)).
  cbn [negb]. erewrite bind_Ret by done. cbv beta. rewrite (buf_at_Some _ _ _ Hi), Hf, Hd. cbn.
  rewrite (proj2 (Z.leb_gt _ _) Hn). unfold upd_buf, mbind, M_bind, modify. f_equal.
  unfold with_buf, set_bufs. simpl. do 2 f_equal. apply list_eq. intros j. rewrite !list_lookup_alter.
  case_decide; [subst j|by rewrite !list_lookup_insert_ne].
  rewrite !list_lookup_insert_eq by (by eapply lookup_lt_Some). rewrite Hi, decide_True by done.
  destruct b. simpl in *. by subst.
Qed.

(** ... and on a dirty one. *)
Lemma iderw_write i b tr s :
  bufs s !! i = Some b → lock b = Sleeplock.SL 1 mypid → flags b = 6 → dev b = ROOTDEV →
  blockno b < u32 (disksize s) →
  iderw mypid i (Ctx [] tr) s =
  Ret tt (Ctx [] (tr ++ [EDiskWrite ROOTDEV (blockno b) (bdata b)]))
      (set_disk (<[blockno b := bdata b]> (memdisk s)) (with_buf i (set_flags 2 b) s)).
Proof.
  intros Hi Hl Hf Hd Hn. unfold iderw. rewrite (bind_Ret _ _ _ _ _ _ _ (lock_holding i b tr s Hi Hl)).
  cbn [negb]. erewrite bind_Ret by done. cbv beta. rewrite (buf_at_Some _ _ _ Hi), Hf, Hd. cbn.
  rewrite (proj2 (Z.leb_gt _ _) Hn).
  unfold upd_buf, mbind, M_bind, modify, emit, set_disk, with_buf, set_bufs. simpl. do 2 f_equal.
  apply list_eq. intros j. rewrite !list_lookup_alter.
  case_decide; [subst j|by rewrite !list_lookup_insert_ne].
  rewrite !list_lookup_insert_eq, Hi, decide_True by (done || by eapply lookup_lt_Some).
  destruct b. simpl in *. by subst.
Qed.

(** ** The operations *)

Lemma not_held L D s n i b :
  binv mypid L D s → bufs s !! i = Some b → blockno b = n → n ∉ L.*1 → i ∉ L.*2.
Proof.
  intros Hinv Hi Hn HnL [[m j] [-> Hin]]%list_elem_of_fmap. simpl in *.
  destruct (b_held _ _ _ _ Hinv m j Hin) as (c & Hc & _ & Hm & _). simplify_eq.
  apply HnL, list_elem_of_fmap. eexists (_, j). split; [|exact Hin]. done.
Qed.

Lemma held_other L D s i b m j :
  binv mypid L D s → i ∉ L.*2 → (m, j) ∈ L → (i < length (bufs s))%nat →
  buf_at j (with_buf i b s) = buf_at j s.
Proof.
  intros Hinv Hi Hm Hlt. rewrite buf_at_with by done. rewrite decide_False; [done|].
  intros ->. apply Hi, list_elem_of_fmap. by exists (m, j).
Qed.

(** Recycling a clean buffer for block [n] leaves the other contents alone. *)
Lemma content_recycled L D s i b n m :
  binv mypid L D s → (i < NBUF)%nat → i ∉ L.*2 → flags (buf_at i s) ≠ 6 →
  dev b = ROOTDEV → blockno b = n → m ≠ n →
  binv mypid ((n, i) :: L) D (with_buf i b s) → content (with_buf i b s) m = content s m.
Proof.
  intros Hinv Hi HiL Hf6 Hd Hb Hm Hinv'. pose proof (b_len _ _ _ _ Hinv) as Hlen.
  pose proof (binv_slot _ _ _ _ Hinv Hi) as Hs.
  destruct (find_buf (caches m) s (seq 0 NBUF)) as [j|] eqn:E.
  - apply find_buf_Some in E as [Hj%elem_seq [Hdj Hnj]%caches_true].
    pose proof (binv_slot _ _ _ _ Hinv Hj) as Hsj.
    rewrite (content_cached L D s m j _ Hinv Hsj) by done.
    destruct (decide (i = j)) as [->|Hij].
    + (* the recycled buffer had the block, and agrees with the disk *)
      rewrite content_uncached.
      * symmetry. rewrite <- Hnj. apply (b_coherent _ _ _ _ Hinv j); [done|done|].
        destruct (b_state _ _ _ _ Hinv j _ Hs) as [[_ [?|[? _]]]|[? _]]; [done|done|].
        unfold ROOTDEV in *. lia.
      * apply find_buf_None_2. intros k Hk%elem_seq. rewrite buf_at_with by lia.
        apply not_true_iff_false. rewrite caches_true. case_decide as Hjk; [naive_solver|].
        intros [Hdk Hnk]. apply Hjk. eapply (b_uniq _ _ _ _ Hinv); eauto using binv_slot. congruence.
    + eapply content_cached; [exact Hinv'| |done|done]. simpl. by rewrite list_lookup_insert_ne.
  - rewrite (content_uncached s m E), content_uncached; [done|].
    apply find_buf_None_2. intros k Hk. rewrite buf_at_with by lia. case_decide.
    + apply not_true_iff_false. rewrite caches_true. naive_solver.
    + by eapply find_buf_None in E.
Qed.

(** [bread] of a block nobody holds returns a held buffer with its content, and
    changes neither contents nor disk. *)
Lemma bread_ok L D s n tr :
  binv mypid L D s → n ∉ L.*1 → n < u32 (disksize s) → (length L + length D < NBUF)%nat →
  ∃ i s', bread mypid ROOTDEV n (Ctx [] tr) s = Ret i (Ctx [] tr) s' ∧
    binv mypid ((n, i) :: L) D s' ∧ same s s' ∧ bdata (buf_at i s') = content s n ∧
    (flags (buf_at i s') = 2 → content s n = disk_at n s) ∧
    (∀ m j, (m, j) ∈ L → buf_at j s' = buf_at j s).
Proof.
  intros Hinv Hn Hdisk Hlt. pose proof (b_len _ _ _ _ Hinv) as Hlen. unfold bread.
  destruct (find_buf (caches n) s (seq 0 NBUF)) as [i|] eqn:E.
  - apply find_buf_Some in E as [Hi%elem_seq [Hd Hb]%caches_true].
    pose proof (binv_slot _ _ _ _ Hinv Hi) as Hs. set (b := buf_at i s) in *.
    assert (i ∉ L.*2) as HiL by (by eapply not_held).
    rewrite (bind_Ret _ _ _ _ _ _ _ (bget_cached L D s n i b tr Hinv Hs Hd Hb HiL)).
    erewrite bind_Ret by done. cbv beta. rewrite !buf_at_with, !decide_True by (done || lia). simpl.
    destruct (b_state _ _ _ _ Hinv i b Hs) as [[_ Hf]|[? _]]; [|unfold ROOTDEV in *; lia].
    rewrite (proj2 (Z.eqb_neq (Z.land (flags b) B_VALID) 0)) by (by destruct Hf as [->|[-> _]]).
    erewrite bind_Ret by done. eexists i, _. split; [reflexivity|].
    split. { apply binv_take; try done; [|by destruct Hf as [?|[? ?]]; [left|right; subst n]].
      intros j c Hj Hc Hdc Hnc. apply Hj. eapply (b_uniq _ _ _ _ Hinv); eauto. congruence. }
    rewrite buf_at_with, decide_True by (done || lia). simpl.
    split; [apply same_with; simpl; auto; lia|].
    pose proof (content_cached L D s n i b Hinv Hs Hd Hb) as Hc. split; [done|]. split.
    + intros Hf2. rewrite Hc, <- Hb. by apply (b_coherent _ _ _ _ Hinv i).
    + intros m j Hm. eapply held_other; eauto; lia.
  - destruct (bget_recycled L D s n tr Hinv E Hlt) as (i & Hi & HiL & Hf6 & Eg).
    rewrite (bind_Ret _ _ _ _ _ _ _ Eg). erewrite bind_Ret by done. cbv beta.
    rewrite buf_at_with, decide_True by (done || lia). simpl.
    erewrite bind_Ret; [|apply iderw_read; [apply list_lookup_insert_eq; lia|done..]].
    rewrite with_with. simpl. change (disk_at n (with_buf _ _ s)) with (disk_at n s).
    set (b := Buf 2 ROOTDEV n (Sleeplock.SL 1 mypid) 1 (disk_at n s)).
    eexists i, _. split; [reflexivity|].
    assert (∀ j c, bufs s !! j = Some c → dev c = ROOTDEV → blockno c ≠ n) as Hun.
    { intros j c Hc Hd Hb. rewrite (find_cached L D s n (seq 0 NBUF) j c) in E; done. }
    assert (binv mypid ((n, i) :: L) D (with_buf i b s)) as Hinv'.
    { apply binv_take; try done; [|by left]. intros j c _. apply Hun. }
    split; [exact Hinv'|]. rewrite buf_at_with, decide_True by (done || lia). simpl.
    split; [|split; [symmetry; by apply content_uncached|split; [intros _; by apply content_uncached|]]].
    + split; [|done]. intros m. destruct (decide (m = n)) as [->|Hm]; [|by eapply content_recycled].
      rewrite (content_uncached s n E). apply (content_cached _ _ _ n i b Hinv'); [|done|done].
      apply list_lookup_insert_eq. lia.
    + intros m j Hm. eapply held_other; eauto; lia.
Qed.

(** A held buffer changes, keeping its block and its lock. *)
Lemma binv_keep L D s n i b b' :
  binv mypid L D s → (n, i) ∈ L → bufs s !! i = Some b →
  dev b' = dev b → blockno b' = blockno b → lock b' = lock b → refcnt b' = refcnt b →
  (flags b' = 2 ∨ (flags b' = 6 ∧ n ∈ D)) → binv mypid L D (with_buf i b' s).
Proof.
  intros Hinv Hin Hi Hd Hn Hl Hr Hf. pose proof (lookup_lt_Some _ _ _ Hi) as Hlt.
  destruct (b_held _ _ _ _ Hinv n i Hin) as (b0 & Hb0 & Hd0 & Hn0 & _). simplify_eq.
  assert (∀ j c, bufs (with_buf i b' s) !! j = Some c →
    ∃ c0, bufs s !! j = Some c0 ∧ dev c = dev c0 ∧ blockno c = blockno c0 ∧ lock c = lock c0 ∧
      refcnt c = refcnt c0 ∧ (j ≠ i → c = c0) ∧ (j = i → c = b')) as Hx.
  { intros j c [(<- & <- & _)|[? ?]]%list_lookup_insert_Some; [exists b|exists c]; naive_solver. }
  assert (i ∈ L.*2) as HiL by (apply list_elem_of_fmap; by exists (blockno b, i)).
  split; simpl.
  - rewrite length_insert. apply (b_len _ _ _ _ Hinv).
  - apply (b_mru _ _ _ _ Hinv).
  - intros j k cj ck (c1 & ? & E1 & E2 & _)%Hx (c2 & ? & E3 & E4 & _)%Hx.
    rewrite E1, E2, E3, E4. by apply (b_uniq _ _ _ _ Hinv).
  - intros j c (c0 & Hc0 & Hd' & Hn' & _ & _ & Hne & Heq)%Hx. destruct (decide (j = i)) as [->|Hj].
    + rewrite (Heq eq_refl) in *. simplify_eq. left. split; [congruence|]. by rewrite Hn.
    + rewrite (Hne Hj). by eapply (b_state _ _ _ _ Hinv).
  - intros j c (c0 & Hc0 & _ & _ & _ & _ & Hne & _)%Hx HjL. rewrite Hne by (by intros ->).
    by apply (b_coherent _ _ _ _ Hinv j).
  - intros m j Hm. destruct (b_held _ _ _ _ Hinv m j Hm) as (c & Hc & ? & ? & ? & ?).
    destruct (decide (i = j)) as [->|].
    + exists b'. rewrite list_lookup_insert_eq by done. simplify_eq. split_and!; congruence.
    + exists c. by rewrite list_lookup_insert_ne.
  - intros j c (c0 & Hc0 & _ & _ & El & Er & _)%Hx HjL. rewrite El, Er. by apply (b_free _ _ _ _ Hinv j).
Qed.

Lemma held_buf L D s n i :
  binv mypid L D s → (n, i) ∈ L →
  bufs s !! i = Some (buf_at i s) ∧ dev (buf_at i s) = ROOTDEV ∧ blockno (buf_at i s) = n ∧
  lock (buf_at i s) = Sleeplock.SL 1 mypid ∧ refcnt (buf_at i s) = 1 ∧
  (flags (buf_at i s) = 2 ∨ (flags (buf_at i s) = 6 ∧ n ∈ D)) ∧ content s n = bdata (buf_at i s).
Proof.
  intros Hinv Hin. destruct (b_held _ _ _ _ Hinv n i Hin) as (b & Hb & Hd & Hn & Hl & Hr).
  rewrite (buf_at_Some _ _ _ Hb). split_and!; try done.
  - destruct (b_state _ _ _ _ Hinv i b Hb) as [[_ Hf]|[? _]]; [by rewrite Hn in Hf|].
    unfold ROOTDEV in *. lia.
  - by eapply content_cached.
Qed.

(** Copying into the data of a held buffer. *)
Lemma set_data_ok L D s n i x tr :
  binv mypid L D s → (n, i) ∈ L →
  ∃ s', upd_buf i (set_bdata x) (Ctx [] tr) s = Ret tt (Ctx [] tr) s' ∧ binv mypid L D s' ∧
    (∀ m, content s' m = if decide (m = n) then x else content s m) ∧
    memdisk s' = memdisk s ∧ disksize s' = disksize s ∧ bdata (buf_at i s') = x ∧
    (∀ j, j ≠ i → buf_at j s' = buf_at j s).
Proof.
  intros Hinv Hin. destruct (held_buf L D s n i Hinv Hin) as (Hb & Hd & Hn & Hl & Hr & Hf & _).
  pose proof (lookup_lt_Some _ _ _ Hb) as Hlt. exists (with_buf i (set_bdata x (buf_at i s)) s).
  unfold upd_buf, modify. rewrite (alter_with _ _ _ _ Hb). split; [done|].
  assert (binv mypid L D (with_buf i (set_bdata x (buf_at i s)) s)) as Hinv'
    by (by eapply binv_keep).
  split; [done|]. split; [|split; [done|split; [done|split]]].
  - intros m. destruct (decide (m = n)) as [->|Hm].
    + eapply (content_cached _ _ _ n i (set_bdata x (buf_at i s)) Hinv'); [|done|done].
      by apply list_lookup_insert_eq.
    + apply content_ext; [|done]. intros j _. rewrite buf_at_with by done.
      case_decide; [subst j|done]. split; [done|]. intros [_ ?]%caches_true. congruence.
  - by rewrite buf_at_with, decide_True.
  - intros j Hj. by rewrite buf_at_with, decide_False by auto.
Qed.

(** [bwrite] writes the block to the disk and cleans it. *)
Lemma bwrite_ok L D s n i tr :
  binv mypid L D s → (n, i) ∈ L → n < u32 (disksize s) →
  ∃ s', bwrite mypid i (Ctx [] tr) s = Ret tt (Ctx [] (tr ++ [EDiskWrite ROOTDEV n (content s n)])) s' ∧
    binv mypid L (filter (.≠ n) D) s' ∧ (∀ m, content s' m = content s m) ∧
    memdisk s' = <[n := content s n]> (memdisk s) ∧ disksize s' = disksize s ∧
    (∀ j, j ≠ i → buf_at j s' = buf_at j s).
Proof.
  intros Hinv Hin Hdisk. destruct (held_buf L D s n i Hinv Hin) as (Hb & Hd & Hn & Hl & Hr & Hf & Hc).
  pose proof (lookup_lt_Some _ _ _ Hb) as Hlt. set (b := buf_at i s) in *.
  exists (set_disk (<[n := content s n]> (memdisk s)) (with_buf i (set_flags 2 b) s)).
  assert (binv mypid L D (with_buf i (set_flags 2 b) s)) as H2.
  { eapply binv_keep; try done. by left. }
  split; [|split; [|split; [|split; [done|split; [done|]]]]].
  - unfold bwrite. rewrite (bind_Ret _ _ _ _ _ _ _ (lock_holding i b tr s Hb Hl)). cbn [negb].
    unfold upd_buf. erewrite bind_Ret by done. cbv beta. rewrite (alter_with _ _ _ _ Hb).
    assert (Z.lor (flags b) B_DIRTY = 6) as -> by (by destruct Hf as [->|[-> _]]).
    erewrite iderw_write; [|by apply list_lookup_insert_eq|done..|simpl; by rewrite Hn].
    rewrite with_with. simpl. rewrite Hn, Hc. done.
  - destruct H2 as [G1 G2 G3 G4 G5 G6 G7]. split; try done; simpl.
    + intros j c Hj. destruct (G4 j c Hj) as [[Hdc [Hfc|[Hfc HD]]]|?]; [by left; auto| |by right].
      left. split; [done|]. right. split; [done|]. apply list_elem_of_filter. split; [|done].
      intros Hbn. assert (j = i) as ->.
      { eapply (G3 j i c); [done|by apply list_lookup_insert_eq|done|done|]. simpl. congruence. }
      simpl in Hj. rewrite list_lookup_insert_eq in Hj by done. by simplify_eq.
    + intros j c Hj HjL Hfc. rewrite (G5 j c Hj HjL Hfc). unfold disk_at. simpl.
      rewrite lookup_insert_ne; [done|]. intros Hbn. apply HjL.
      assert (j = i) as ->; [|apply list_elem_of_fmap; by exists (n, i)].
      destruct (G4 j c Hj) as [[Hdc _]|[_ ?]]; [|congruence].
      eapply (G3 j i c); [done|by apply list_lookup_insert_eq|done|done|]. simpl. congruence.
  - intros m. destruct (decide (m = n)) as [->|Hm].
    + unfold content at 1. rewrite find_buf_disk.
      erewrite find_cached; [|exact H2|done|by apply list_lookup_insert_eq|done|done].
      change (buf_at i (set_disk _ ?x)) with (buf_at i x). rewrite buf_at_with, decide_True by done.
      by rewrite Hc.
    + apply content_ext.
      * intros j _. change (buf_at j (set_disk _ ?x)) with (buf_at j x). rewrite buf_at_with by done.
        case_decide; [by subst j|done].
      * unfold disk_at. simpl. by rewrite lookup_insert_ne.
  - intros j Hj. change (buf_at j (set_disk _ ?x)) with (buf_at j x). rewrite buf_at_with by done.
    by rewrite decide_False by auto.
Qed.

Lemma mru_front i l : l ≡ₚ seq 0 NBUF → (i < NBUF)%nat → i :: filter (.≠ i) l ≡ₚ seq 0 NBUF.
Proof.
  intros Hl Hi. assert (NoDup l) as Hnd by (rewrite Hl; apply NoDup_seq).
  assert (i ∈ l) as Hin by (rewrite Hl; by apply elem_seq). rewrite <- Hl.
  apply NoDup_Permutation; [|done|].
  - constructor; [|by apply NoDup_filter]. rewrite list_elem_of_filter. naive_solver.
  - intros j. rewrite elem_of_cons, list_elem_of_filter. destruct (decide (j = i)); naive_solver.
Qed.

(** A held buffer is given back. *)
Lemma binv_drop L D s n i b :
  binv mypid ((n, i) :: L) D s → i ∉ L.*2 → bufs s !! i = Some b → blockno b = n →
  (flags b = 2 → bdata b = disk_at n s) →
  binv mypid L D (set_mru (i :: filter (.≠ i) (mru s))
    (with_buf i (Buf (flags b) (dev b) (blockno b) (Sleeplock.SL 0 0) 0 (bdata b)) s)).
Proof.
  intros Hinv HiL Hi Hn Hclean. pose proof (lookup_lt_Some _ _ _ Hi) as Hlt.
  pose proof (b_len _ _ _ _ Hinv) as Hlen.
  set (b' := Buf (flags b) (dev b) (blockno b) (Sleeplock.SL 0 0) 0 (bdata b)).
  assert (∀ j c, <[i := b']> (bufs s) !! j = Some c →
    ∃ c0, bufs s !! j = Some c0 ∧ dev c = dev c0 ∧ blockno c = blockno c0 ∧ flags c = flags c0 ∧
      bdata c = bdata c0 ∧ (j ≠ i → c = c0) ∧ (j = i → c = b' ∧ c0 = b)) as Hx.
  { intros j c [(<- & <- & _)|[? ?]]%list_lookup_insert_Some; [exists b|exists c]; naive_solver. }
  split; simpl.
  - by rewrite length_insert.
  - apply mru_front; [apply (b_mru _ _ _ _ Hinv)|lia].
  - intros j k cj ck (c1 & ? & E1 & E2 & _)%Hx (c2 & ? & E3 & E4 & _)%Hx.
    rewrite E1, E2, E3, E4. by apply (b_uniq _ _ _ _ Hinv).
  - intros j c (c0 & Hc0 & -> & -> & -> & _)%Hx. by apply (b_state _ _ _ _ Hinv j).
  - intros j c (c0 & Hc0 & _ & -> & -> & -> & Hne & Heq)%Hx HjL Hf.
    destruct (decide (j = i)) as [->|Hj].
    + destruct (Heq eq_refl) as [_ ->]. rewrite Hn. by apply Hclean.
    + apply (b_coherent _ _ _ _ Hinv j); set_solver.
  - intros m j Hm. destruct (b_held _ _ _ _ Hinv m j ltac:(set_solver)) as (c & Hc & ?). exists c.
    rewrite list_lookup_insert_ne; [done|]. intros ->. apply HiL, list_elem_of_fmap. by exists (m, j).
  - intros j c (c0 & Hc0 & _ & _ & _ & _ & Hne & Heq)%Hx HjL.
    destruct (decide (j = i)) as [->|Hj]; [by destruct (Heq eq_refl) as [-> _]|].
    rewrite (Hne Hj). apply (b_free _ _ _ _ Hinv j); set_solver.
Qed.

(** [brelse] of a held buffer that agrees with the disk or is dirty. *)
Lemma brelse_ok L D s n i tr :
  binv mypid ((n, i) :: L) D s → n ∉ L.*1 →
  (flags (buf_at i s) = 2 → content s n = disk_at n s) →
  ∃ s', brelse mypid i (Ctx [] tr) s = Ret tt (Ctx [] (tr ++ [EWakeup (ChSleeplock (SLbuf i))])) s' ∧
    binv mypid L D s' ∧ same s s' ∧ (∀ m j, (m, j) ∈ L → buf_at j s' = buf_at j s).
Proof.
  intros Hinv HnL Hclean.
  destruct (held_buf _ D s n i Hinv ltac:(set_solver)) as (Hb & Hd & Hn & Hl & Hr & Hf & Hc).
  pose proof (lookup_lt_Some _ _ _ Hb) as Hlt. set (b := buf_at i s) in *.
  assert (i ∉ L.*2) as HiL.
  { intros [[m j] [Hj Hin]]%list_elem_of_fmap. simpl in Hj. subst j.
    destruct (b_held _ _ _ _ Hinv m i ltac:(set_solver)) as (c & Hci & _ & Hm & _). simplify_eq.
    apply HnL, list_elem_of_fmap. eexists (_, i). split; [|exact Hin]. done. }
  set (b' := Buf (flags b) (dev b) (blockno b) (Sleeplock.SL 0 0) 0 (bdata b)).
  exists (set_mru (i :: filter (.≠ i) (mru s)) (with_buf i b' s)).
  split; [|split; [|split]].
  - unfold brelse. rewrite (bind_Ret _ _ _ _ _ _ _ (lock_holding i b tr s Hb Hl)). cbn [negb].
    rewrite (bind_Ret _ _ _ _ _ _ _ (lock_release i b tr s Hb)), (alter_with _ _ _ _ Hb).
    rewrite bind_acquire by set_solver. cbn [held trace].
    unfold upd_buf. erewrite bind_Ret by done. cbv beta.
    rewrite (alter_with _ i (set_lock (Sleeplock.SL 0 0) b)), with_with by (by apply list_lookup_insert_eq).
    erewrite bind_Ret by done. cbv beta. rewrite buf_at_with, decide_True by done. simpl. rewrite Hr.
    erewrite bind_Ret by done. cbv beta. rewrite release_head by set_solver. done.
  - eapply binv_drop; try done. intros Hf2. rewrite <- Hc. by apply Hclean.
  - split; [|done]. intros m. unfold content at 1. rewrite find_buf_mru.
    change (buf_at ?j (set_mru _ ?x)) with (buf_at j x). change (disk_at m (set_mru _ ?x)) with (disk_at m x).
    by apply same_with.
  - intros m j Hm. change (buf_at j (set_mru _ ?x)) with (buf_at j x).
    rewrite buf_at_with, decide_False; [done| |done].
    intros ->. apply HiL, list_elem_of_fmap. by exists (m, j).
Qed.

Lemma binv_mono L D D' s : (∀ n, n ∈ D → n ∈ D') → binv mypid L D s → binv mypid L D' s.
Proof.
  intros HD [H1 H2 H3 H4 H5 H6 H7]. split; try done. intros i b Hi.
  destruct (H4 i b Hi) as [[? [?|[? ?]]]|?]; naive_solver.
Qed.

Lemma binv_perm L L' D s : L ≡ₚ L' → binv mypid L D s → binv mypid L' D s.
Proof.
  intros HL [H1 H2 H3 H4 H5 H6 H7]. split; try done.
  - intros i b Hi Hn. apply (H5 i); [done|]. by rewrite HL.
  - intros n i Hn. apply H6. by rewrite HL.
  - intros i b Hi Hn. apply (H7 i); [done|]. by rewrite HL.
Qed.

(** Different blocks are in different buffers. *)
Lemma held_ne L D s n i m j : binv mypid L D s → (n, i) ∈ L → (m, j) ∈ L → n ≠ m → i ≠ j.
Proof.
  intros Hinv Hn Hm Hne ->. destruct (b_held _ _ _ _ Hinv n j Hn) as (b & Hb & _ & ? & _).
  destruct (b_held _ _ _ _ Hinv m j Hm) as (c & Hc & _ & ? & _). by simplify_eq.
Qed.

(** A block that is neither held nor dirty is on the disk as the cache has it. *)
Lemma content_clean D s n : binv mypid [] D s → n ∉ D → content s n = disk_at n s.
Proof.
  intros Hinv Hn. destruct (find_buf (caches n) s (seq 0 NBUF)) as [i|] eqn:E.
  - apply find_buf_Some in E as [Hi%elem_seq [Hd Hb]%caches_true].
    pose proof (binv_slot _ _ _ _ Hinv Hi) as Hs.
    rewrite (content_cached _ _ _ _ _ _ Hinv Hs Hd Hb), <- Hb.
    apply (b_coherent _ _ _ _ Hinv i); [done|set_solver|].
    destruct (b_state _ _ _ _ Hinv i _ Hs) as [[_ [?|[_ ?]]]|[? _]]; [done|congruence|].
    unfold ROOTDEV in *. lia.
  - by apply content_uncached.
Qed.

Lemma boot_ok d n : binv mypid [] [] (binit (bcache0 d n)).
Proof.
  assert (∀ i b, bufs (binit (bcache0 d n)) !! i = Some b → b = buf0) as H.
  { intros i b Hi. simpl in Hi. apply list_elem_of_lookup_2 in Hi. set_solver. }
  split.
  - done.
  - change (mru (binit (bcache0 d n))) with (reverse (seq 0 NBUF)). apply reverse_Permutation.
  - intros i j bi bj Hi Hj Hd. rewrite (H i bi Hi) in Hd. done.
  - intros i b Hi. rewrite (H i b Hi). by right.
  - intros i b Hi _ Hf. rewrite (H i b Hi) in Hf. done.
  - set_solver.
  - intros i b Hi _. rewrite (H i b Hi). done.
Qed.

End Inv.

(** a block written through the cache is on the disk and is what the next
    read finds. With room in the cache, reading block [n], filling the buffer
    with [x], writing and releasing it succeeds; the disk then has [x] in block
    [n], every other block keeps its content, and a later [bread] of [n] returns
    a buffer with [x]. *)
Theorem block_roundtrip mypid D s n x tr :
  binv mypid [] D s → n < u32 (disksize s) → (length D < NBUF)%nat →
  ∃ c1 s1 j s2,
    (b ← bread mypid ROOTDEV n; upd_buf b (set_bdata x);; bwrite mypid b;; brelse mypid b)
      (Ctx [] tr) s = Ret tt c1 s1 ∧
    disk_at n s1 = x ∧ (∀ m, m ≠ n → content s1 m = content s m) ∧
    bread mypid ROOTDEV n c1 s1 = Ret j c1 s2 ∧ bdata (buf_at j s2) = x.
Proof.
  intros Hinv Hn HD.
  destruct (bread_ok mypid [] D s n tr Hinv ltac:(set_solver) Hn ltac:(simpl; lia))
    as (i & b1 & E1 & I1 & (C1 & _ & Z1) & _).
  destruct (set_data_ok mypid _ D b1 n i x tr I1 ltac:(set_solver)) as (b2 & E2 & I2 & C2 & _ & Z2 & _).
  destruct (bwrite_ok mypid _ D b2 n i tr I2 ltac:(set_solver) ltac:(by rewrite Z2, Z1))
    as (b3 & E3 & I3 & C3 & M3 & Z3 & _).
  destruct (brelse_ok mypid [] (filter (.≠ n) D) b3 n i (tr ++ [EDiskWrite ROOTDEV n (content b2 n)]))
    as (b4 & E4 & I4 & (C4 & M4 & Z4) & _); [done|set_solver|..].
  { intros _. rewrite C3. unfold disk_at. by rewrite M3, lookup_insert_eq. }
  destruct (bread_ok mypid [] (filter (.≠ n) D) b4 n
    ((tr ++ [EDiskWrite ROOTDEV n (content b2 n)]) ++ [EWakeup (ChSleeplock (SLbuf i))]))
    as (j & b5 & E5 & _ & _ & D5 & _); [done|set_solver|by rewrite Z4, Z3, Z2, Z1|..].
  { pose proof (length_filter (.≠ n) D). simpl. lia. }
  assert (content b2 n = x) as Hx by (by rewrite C2, decide_True).
  eexists _, b4, j, b5. split_and!; [|..|exact E5|by rewrite D5, C4, C3].
  - by rewrite (bind_Ret _ _ _ _ _ _ _ E1), (bind_Ret _ _ _ _ _ _ _ E2), (bind_Ret _ _ _ _ _ _ _ E3), E4.
  - unfold disk_at. by rewrite M4, M3, lookup_insert_eq.
  - intros m Hm. by rewrite C4, C3, C2, decide_False, C1.
Qed.

Lemma block_roundtrip_witness :
  ∃ c1 s1 j s2,
    (b ← bread 5 ROOTDEV 7; upd_buf b (set_bdata (replicate BSIZE 9));; bwrite 5 b;; brelse 5 b)
      (Ctx [] []) (binit (bcache0 ∅ 100)) = Ret tt c1 s1 ∧
    disk_at 7 s1 = replicate BSIZE 9 ∧
    bread 5 ROOTDEV 7 c1 s1 = Ret j c1 s2 ∧ bdata (buf_at j s2) = replicate BSIZE 9.
Proof.
  destruct (block_roundtrip 5 [] (binit (bcache0 ∅ 100)) 7 (replicate BSIZE 9) [] (boot_ok 5 ∅ 100))
    as (c1 & s1 & j & s2 & E1 & D1 & _ & E2 & D2).
  - done.
  - unfold NBUF. simpl. lia.
  - by exists c1, s1, j, s2.
Defined.
