(* ===== verification/Ide.v ===== *)
(** * The disk driver

    [ide.c]: the queue of requests, linked through the buffers, and the interrupt
    that completes them one by one.  The disk controller is a class of operations
    on its ports with the laws of its documentation; the theorems hold for every
    controller that obeys them, and show that a request does what the disk of
    [memide.c], on which the buffer cache is proved, does at once. *)

From S2P Require Import Prelude Locks Bio.

Definition SECTOR_SIZE : Z := 512.
Definition IDE_BSY : Z := 0x80.
Definition IDE_DRDY : Z := 0x40.
Definition IDE_DF : Z := 0x20.
Definition IDE_ERR : Z := 0x01.
Definition IDE_CMD_READ : Z := 0x20.
Definition IDE_CMD_WRITE : Z := 0x30.
Definition IDE_CMD_RDMUL : Z := 0xc4.
Definition IDE_CMD_WRMUL : Z := 0xc5.

(** ** The controller *)

(** Its ports: [outb], the data port's [outsl] and [insl], and the status that
    port 0x1f7 reads when the controller is ready; its task registers and the
    sectors of its drives. *)
Class Controller (H : Type) := {
  outb : Z → Z → H → H;
  outsl : block → H → H;
  insl : H → block;
  status : H → Z;
  reg : Z → H → Z;
  sector : Z → Z → H → block }.

(** The block address and the drive the task registers select. *)
Definition lba {H} `{Controller H} (h : H) : Z :=
  Z.lor (reg 0x1f3 h) (Z.lor (Z.shiftl (reg 0x1f4 h) 8)
    (Z.lor (Z.shiftl (reg 0x1f5 h) 16) (Z.shiftl (Z.land (reg 0x1f6 h) 0x0f) 24))).
Definition drive {H} `{Controller H} (h : H) : Z := Z.land (Z.shiftr (reg 0x1f6 h) 4) 1.

(** PIO commands of the ATA documentation: a register keeps the byte written to
    it; a read command makes the sector that the registers select available at the
    data port; a write command followed by the data stores the data there. *)
Class ControllerOk (H : Type) `{Controller H} : Prop := {
  ok_reg p q v h : 0x1f2 ≤ p ≤ 0x1f6 → reg q (outb p v h) = if q =? p then v mod 256 else reg q h;
  ok_sector_out p v h d n : p ≠ 0x1f7 → sector d n (outb p v h) = sector d n h;
  ok_read h : reg 0x1f2 h = 1 → insl (outb 0x1f7 IDE_CMD_READ h) = sector (drive h) (lba h) h;
  ok_read_keeps h d n : sector d n (outb 0x1f7 IDE_CMD_READ h) = sector d n h;
  ok_write h b d n : reg 0x1f2 h = 1 →
    sector d n (outsl b (outb 0x1f7 IDE_CMD_WRITE h)) =
    if ((d =? drive h) && (n =? lba h))%bool then b else sector d n h;
  ok_ready h : Z.land (status h) (Z.lor IDE_BSY IDE_DRDY) = IDE_DRDY }.

Section Driver.
Context {H : Type} `{Controller H}.

(** The buffers, the queue through their [qnext], and the controller. *)
Record istate := IS { ibufs : list buf; qnext : list (option nat); idequeue : option nat; havedisk1 : Z; ctl : H }.

Definition set_ibufs (x : list buf) (s : istate) : istate := IS x (qnext s) (idequeue s) (havedisk1 s) (ctl s).
Definition set_qnext (x : list (option nat)) (s : istate) : istate := IS (ibufs s) x (idequeue s) (havedisk1 s) (ctl s).
Definition set_idequeue (x : option nat) (s : istate) : istate := IS (ibufs s) (qnext s) x (havedisk1 s) (ctl s).
Definition set_ctl (x : H) (s : istate) : istate := IS (ibufs s) (qnext s) (idequeue s) (havedisk1 s) x.

Definition ibuf_at (i : nat) (s : istate) : buf := default buf0 (ibufs s !! i).
Definition upd_ibuf (i : nat) (f : buf → buf) : M istate unit := modify (λ s, set_ibufs (alter f i (ibufs s)) s).
Definition next_of (i : nat) (s : istate) : option nat := default None (qnext s !! i).
Definition out (p v : Z) : M istate unit := modify (λ s, set_ctl (outb p v (ctl s)) s).

(** The loop ends when the controller is ready. *)
Definition idewait (checkerr : bool) : M istate Z :=
  r ← gets (λ s, status (ctl s));
  mret (if (checkerr && negb (Z.land r (Z.lor IDE_DF IDE_ERR) =? 0))%bool then -1 else 0).

(** The disk is checked for [i] = 0 to 999. *)
Fixpoint probe (n : nat) : M istate unit :=
  match n with
  | O => mret tt
  | S n =>
      r ← gets (λ s, status (ctl s));
      if negb (r =? 0) then modify (λ s, IS (ibufs s) (qnext s) (idequeue s) 1 (ctl s)) else probe n
  end.
Definition ideinit : M istate unit :=
  idewait false;;
  out 0x1f6 (Z.lor 0xe0 (Z.shiftl 1 4));;
  probe 1000;;
  out 0x1f6 (Z.lor 0xe0 (Z.shiftl 0 4)).

Definition idestart (b : option nat) : M istate unit :=
  match b with
  | None => panic "idestart"
  | Some i =>
      b ← gets (ibuf_at i);
      if FSSIZE <=? blockno b then panic "incorrect blockno"
      else
        let sector_per_block := Z.of_nat BSIZE / SECTOR_SIZE in
        let sector := i32 (blockno b * sector_per_block) in
        let read_cmd := if sector_per_block =? 1 then IDE_CMD_READ else IDE_CMD_RDMUL in
        let write_cmd := if sector_per_block =? 1 then IDE_CMD_WRITE else IDE_CMD_WRMUL in
        if 7 <? sector_per_block then panic "idestart"
        else
          idewait false;;
          out 0x3f6 0;;
          out 0x1f2 sector_per_block;;
          out 0x1f3 (Z.land sector 0xff);;
          out 0x1f4 (Z.land (Z.shiftr sector 8) 0xff);;
          out 0x1f5 (Z.land (Z.shiftr sector 16) 0xff);;
          out 0x1f6 (Z.lor 0xe0 (Z.lor (Z.shiftl (Z.land (dev b) 1) 4) (Z.land (Z.shiftr sector 24) 0x0f)));;
          if negb (Z.land (flags b) B_DIRTY =? 0) then
            out 0x1f7 write_cmd;;
            modify (λ s, set_ctl (outsl (bdata b) (ctl s)) s)
          else out 0x1f7 read_cmd
  end.

Definition ideintr : M istate unit :=
  acquire Lidelock;;
  q ← gets idequeue;
  match q with
  | None => release Lidelock
  | Some i =>
      modify (λ s, set_idequeue (next_of i s) s);;
      b ← gets (ibuf_at i);
      (if Z.land (flags b) B_DIRTY =? 0 then
         r ← idewait true;
         if 0 <=? r then d ← gets (λ s, insl (ctl s)); upd_ibuf i (set_bdata d) else mret tt
       else mret tt);;
      upd_ibuf i (λ b, set_flags (Z.lor (flags b) B_VALID) b);;
      upd_ibuf i (λ b, set_flags (Z.land (flags b) (Z.lnot B_DIRTY)) b);;
      emit (EWakeup (ChBuf i));;
      q ← gets idequeue;
      (match q with
       | Some _ => idestart q
       | None => mret tt
       end);;
      release Lidelock
  end.

(** The loop that follows the [qnext] pointers from buffer [j] to the end of the
    queue, and the store there. *)
Fixpoint append_from (fuel : nat) (j i : nat) : M istate unit :=
  n ← gets (next_of j);
  match n with
  | None => modify (λ s, set_qnext (<[j := Some i]> (qnext s)) s)
  | Some k =>
      match fuel with
      | O => panic "out of fuel"
      | S fuel => append_from fuel k i
      end
  end.
Definition append (i : nat) : M istate unit :=
  q ← gets idequeue;
  match q with
  | None => modify (set_idequeue (Some i))
  | Some j => append_from NBUF j i
  end.

(** [while((b->flags & (B_VALID|B_DIRTY)) != B_VALID) sleep(b, &idelock);]. *)
Definition iderw_wait (i : nat) : M istate unit :=
  b ← gets (ibuf_at i);
  if negb (Z.land (flags b) (Z.lor B_VALID B_DIRTY) =? B_VALID) then sleep_on (ChBuf i) Lidelock
  else release Lidelock.

Definition on_blk {A} (i : nat) (m : M Sleeplock.sleeplock A) : M istate A :=
  zoom (λ s, lock (ibuf_at i s)) (λ l s, set_ibufs (alter (set_lock l) i (ibufs s)) s) m.

Definition iderw (mypid : Z) (i : nat) : M istate unit :=
  h ← on_blk i (Sleeplock.holdingsleep (SLbuf i) mypid);
  if negb h then panic "iderw: buf not locked"
  else
    s ← get;
    let b := ibuf_at i s in
    if Z.land (flags b) (Z.lor B_VALID B_DIRTY) =? B_VALID then panic "iderw: nothing to do"
    else if (negb (dev b =? 0) && (havedisk1 s =? 0))%bool then panic "iderw: ide disk 1 not present"
    else
      acquire Lidelock;;
      modify (λ s, set_qnext (<[i := None]> (qnext s)) s);;
      append i;;
      q ← gets idequeue;
      (if bool_decide (q = Some i) then idestart (Some i) else mret tt);;
      iderw_wait i.

(** The process is woken and tests the flags again. *)
Definition iderw_resume (i : nat) : M istate unit :=
  acquire Lidelock;;
  iderw_wait i.

End Driver.
Arguments istate H : clear implicits.

(** ** The queue *)

Section Correct.
Context {H : Type} `{HC : ControllerOk H}.

Definition dirty (b : buf) : bool := negb (Z.land (flags b) B_DIRTY =? 0).

(** The list that the pointers make. *)
Fixpoint chain (h : option nat) (q : list nat) (s : istate H) : Prop :=
  match q with
  | [] => h = None
  | i :: q => h = Some i ∧ (i < NBUF)%nat ∧ chain (next_of i s) q s
  end.

(** The controller is at work on the first request. *)
Definition started (i : nat) (s : istate H) : Prop :=
  let b := ibuf_at i s in
  if dirty b then sector 1 (blockno b) (ctl s) = bdata b
  else insl (ctl s) = sector 1 (blockno b) (ctl s).

(** A request of the buffer cache: to read a buffer that is not valid, or to write
    one that is. *)
Definition request (b : buf) : Prop := (flags b = 0 ∨ flags b = 6) ∧ dev b = 1 ∧ 0 ≤ blockno b < FSSIZE.

Record queued (q : list nat) (s : istate H) : Prop := {
  q_chain : chain (idequeue s) q s;
  q_nodup : NoDup q;
  q_bufs : length (ibufs s) = NBUF;
  q_next : length (qnext s) = NBUF;
  q_req : Forall (λ i, request (ibuf_at i s)) q;
  q_start : match q with i :: _ => started i s | [] => True end }.

(** A disk that has not yet seen the write at the head of the queue. *)
Definition ahead (q : list nat) (s : istate H) (dk : Z → block) (n : Z) : block :=
  match q with
  | i :: _ => let b := ibuf_at i s in if (dirty b && (n =? blockno b))%bool then bdata b else dk n
  | [] => dk n
  end.
Record same_disk (q : list nat) (s : istate H) (x : bstate) : Prop := {
  m_bufs : bufs x = ibufs s;
  m_size : FSSIZE ≤ disksize x < 4294967296;
  m_disk n : sector 1 n (ctl s) = ahead q s (λ n, disk_at n x) n }.

(** ** Programming the controller *)

Definition task (n d : Z) : list (Z * Z) :=
  [(0x3f6, 0); (0x1f2, 1); (0x1f3, Z.land n 0xff); (0x1f4, Z.land (Z.shiftr n 8) 0xff);
   (0x1f5, Z.land (Z.shiftr n 16) 0xff);
   (0x1f6, Z.lor 0xe0 (Z.lor (Z.shiftl (Z.land d 1) 4) (Z.land (Z.shiftr n 24) 0x0f)))].
Definition program (l : list (Z * Z)) (h : H) : H := foldl (λ h p, outb (fst p) (snd p) h) h l.

Lemma task_bits n : 0 ≤ n < FSSIZE →
  Z.lor (Z.land n 0xff mod 256) (Z.lor (Z.shiftl (Z.land (Z.shiftr n 8) 0xff mod 256) 8)
    (Z.lor (Z.shiftl (Z.land (Z.shiftr n 16) 0xff mod 256) 16)
      (Z.shiftl (Z.land (Z.lor 0xe0 (Z.lor (Z.shiftl (Z.land 1 1) 4) (Z.land (Z.shiftr n 24) 0x0f)) mod 256) 0x0f) 24))) = n ∧
  Z.land (Z.shiftr (Z.lor 0xe0 (Z.lor (Z.shiftl (Z.land 1 1) 4) (Z.land (Z.shiftr n 24) 0x0f)) mod 256) 4) 1 = 1.
Proof.
  intros Hn.
  assert (forallb (λ n, (Z.lor (Z.land n 0xff mod 256) (Z.lor (Z.shiftl (Z.land (Z.shiftr n 8) 0xff mod 256) 8)
    (Z.lor (Z.shiftl (Z.land (Z.shiftr n 16) 0xff mod 256) 16)
      (Z.shiftl (Z.land (Z.lor 0xe0 (Z.lor (Z.shiftl (Z.land 1 1) 4) (Z.land (Z.shiftr n 24) 0x0f)) mod 256) 0x0f) 24))) =? n) &&
    (Z.land (Z.shiftr (Z.lor 0xe0 (Z.lor (Z.shiftl (Z.land 1 1) 4) (Z.land (Z.shiftr n 24) 0x0f)) mod 256) 4) 1 =? 1))%bool
    (map Z.of_nat (seq 0 1000)) = true) as Hall by (vm_compute; reflexivity).
  rewrite forallb_forall in Hall. specialize (Hall n). rewrite andb_true_iff, !Z.eqb_eq in Hall. apply Hall.
  apply in_map_iff. exists (Z.to_nat n). split; [lia|]. apply in_seq. unfold FSSIZE in Hn. lia.
Qed.

Lemma program_task h n : 0 ≤ n < FSSIZE →
  let h' := program (task n 1) h in
  lba h' = n ∧ drive h' = 1 ∧ reg 0x1f2 h' = 1 ∧ ∀ d k, sector d k h' = sector d k h.
Proof.
  intros Hn h'. destruct (task_bits n Hn) as [H1 H2].
  assert (reg 0x1f2 h' = 1 ∧ reg 0x1f3 h' = Z.land n 0xff mod 256 ∧ reg 0x1f4 h' = Z.land (Z.shiftr n 8) 0xff mod 256 ∧
    reg 0x1f5 h' = Z.land (Z.shiftr n 16) 0xff mod 256 ∧
    reg 0x1f6 h' = Z.lor 0xe0 (Z.lor (Z.shiftl (Z.land 1 1) 4) (Z.land (Z.shiftr n 24) 0x0f)) mod 256) as (R2 & R3 & R4 & R5 & R6).
  { unfold h', program, task. cbn [foldl fst snd]. repeat split; repeat (rewrite ok_reg by lia; cbn [Z.eqb Pos.eqb]); done. }
  unfold lba, drive. rewrite R2, R3, R4, R5, R6. split; [exact H1|]. split; [exact H2|]. split; [done|].
  intros d k. unfold h', program, task. cbn [foldl fst snd]. by rewrite !ok_sector_out by done.
Qed.

(** The controller after [idestart]. *)
Definition after_start (b : buf) (h : H) : H :=
  let h' := program (task (blockno b) 1) h in
  if dirty b then outsl (bdata b) (outb 0x1f7 IDE_CMD_WRITE h') else outb 0x1f7 IDE_CMD_READ h'.

Lemma idestart_runs i (s : istate H) c : request (ibuf_at i s) →
  idestart (Some i) c s = Ret tt c (set_ctl (after_start (ibuf_at i s) (ctl s)) s).
Proof.
  intros (_ & Hd & Hn). unfold idestart. rewrite (bind_Ret _ _ c s (ibuf_at i s) c s) by done. rewrite (proj2 (Z.leb_gt _ _)) by lia.
  change (Z.of_nat BSIZE / SECTOR_SIZE) with 1. cbn [Z.eqb Pos.eqb Z.ltb Z.compare Pos.compare Pos.compare_cont].
  rewrite Z.mul_1_r, i32_small by (unfold FSSIZE in Hn; lia). rewrite Hd.
  unfold after_start. fold (dirty (ibuf_at i s)). by destruct (dirty (ibuf_at i s)).
Qed.

Lemma after_start_sector b h n : request b →
  sector 1 n (after_start b h) = if (dirty b && (n =? blockno b))%bool then bdata b else sector 1 n h.
Proof.
  intros (_ & _ & Hn). destruct (program_task h (blockno b) Hn) as (Hl & Hd & Hr & Hs). unfold after_start.
  destruct (dirty b); cbn [andb].
  - rewrite ok_write by done. rewrite Hl, Hd, Hs. cbn [Z.eqb Pos.eqb andb]. done.
  - by rewrite ok_read_keeps, Hs.
Qed.
Lemma after_start_read b h : request b → dirty b = false → insl (after_start b h) = sector 1 (blockno b) (after_start b h).
Proof.
  intros Hq Hf. rewrite after_start_sector by done. destruct Hq as (_ & _ & Hn).
  destruct (program_task h (blockno b) Hn) as (Hl & Hd & Hr & Hs). unfold after_start. rewrite Hf. cbn [andb].
  by rewrite ok_read, Hl, Hd, Hs.
Qed.

Lemma started_after_start i (s : istate H) : request (ibuf_at i s) →
  started i (set_ctl (after_start (ibuf_at i s) (ctl s)) s).
Proof.
  intros Hr. unfold started. change (ibuf_at i (set_ctl _ s)) with (ibuf_at i s). cbn [ctl set_ctl].
  destruct (dirty (ibuf_at i s)) eqn:Ed; [|by apply after_start_read].
  rewrite after_start_sector by done. by rewrite Ed, Z.eqb_refl.
Qed.

(** ** Appending *)

Lemma chain_ext h q s s' : (∀ i, i ∈ q → next_of i s' = next_of i s) → chain h q s → chain h q s'.
Proof.
  revert h; induction q as [|i q IH]; intros h Hn Hc; [done|]. destruct Hc as (-> & Hi & Hc). split; [done|]. split; [done|].
  rewrite (Hn i) by set_solver. apply IH; [set_solver|done].
Qed.

Lemma append_from_runs i q c : ∀ fuel j (s : istate H), length (qnext s) = NBUF → NoDup (j :: q) → (j < NBUF)%nat →
  (i < NBUF)%nat → i ∉ j :: q → (length q ≤ fuel)%nat → chain (next_of j s) q s → next_of i s = None →
  ∃ k, let s' := set_qnext (<[k := Some i]> (qnext s)) s in
    append_from fuel j i c s = Ret tt c s' ∧ k ∈ j :: q ∧ chain (next_of j s') (q ++ [i]) s'.
Proof.
  induction q as [|m q IH]; intros fuel j s Hl Hnd Hj Hi Hx Hf Hc Hn.
  - exists j. assert (append_from fuel j i c s = Ret tt c (set_qnext (<[j := Some i]> (qnext s)) s)) as E.
    { simpl in Hc. destruct fuel; cbn [append_from]; rewrite (bind_Ret _ _ c s None c s) by (unfold gets; by rewrite Hc); done. }
    split; [done|]. split; [set_solver|]. cbn [app chain]. unfold next_of. cbn [qnext set_qnext].
    rewrite list_lookup_insert_eq by lia. split; [done|]. split; [done|]. rewrite list_lookup_insert_ne by set_solver. exact Hn.
  - destruct Hc as (Hm & Hmb & Hc). destruct fuel as [|fuel]; [simpl in Hf; lia|]. apply NoDup_cons in Hnd as [Hj' Hnd]. simpl in Hf.
    destruct (IH fuel m s Hl Hnd Hmb Hi ltac:(set_solver) ltac:(lia) Hc Hn) as (k & E & Hk & Hch). exists k.
    cbn [append_from]. rewrite (bind_Ret _ _ c s (Some m) c s) by (unfold gets; by rewrite Hm). split; [done|]. split; [set_solver|].
    assert (next_of j (set_qnext (<[k := Some i]> (qnext s)) s) = Some m) as ->.
    { unfold next_of. cbn [qnext set_qnext]. rewrite list_lookup_insert_ne by set_solver. exact Hm. }
    cbn [app chain]. done.
Qed.

Lemma append_runs i q c (s : istate H) : length (qnext s) = NBUF → NoDup q → (i < NBUF)%nat → i ∉ q → chain (idequeue s) q s →
  next_of i s = None → (length q ≤ NBUF)%nat →
  ∃ s', append i c s = Ret tt c s' ∧ ibufs s' = ibufs s ∧ length (qnext s') = NBUF ∧ havedisk1 s' = havedisk1 s ∧ ctl s' = ctl s ∧
    chain (idequeue s') (q ++ [i]) s'.
Proof.
  intros Hl Hnd Hi Hx Hc Hn Hlen. unfold append. rewrite (bind_Ret _ _ c s (idequeue s) c s) by done.
  destruct q as [|j q]; cbn [chain] in Hc.
  - rewrite Hc. eexists. split; [done|]. repeat (split; [done|]). exact Hn.
  - destruct Hc as (Hq & Hj & Hc). rewrite Hq. simpl in Hlen.
    destruct (append_from_runs i q c NBUF j s Hl Hnd Hj Hi Hx ltac:(lia) Hc Hn) as (k & E & _ & Hch).
    eexists. split; [exact E|]. cbn [ibufs qnext set_qnext havedisk1 ctl idequeue app chain]. rewrite length_insert. done.
Qed.

(** ** A request *)

Lemma ibuf_at_eq (s s' : istate H) i : ibufs s' = ibufs s → ibuf_at i s' = ibuf_at i s.
Proof. intros E. unfold ibuf_at. by rewrite E. Qed.

Lemma holdingsleep_runs i (s : istate H) mypid L tr : lock (ibuf_at i s) = Sleeplock.SL 1 mypid → Lsleep (SLbuf i) ∉ L →
  on_blk i (Sleeplock.holdingsleep (SLbuf i) mypid) (Ctx L tr) s = Ret true (Ctx L tr) s.
Proof.
  intros Hl HL. unfold on_blk, zoom, Sleeplock.holdingsleep. rewrite Hl, bind_acquire by done.
  unfold mbind, M_bind, get. cbn [held trace Sleeplock.locked Sleeplock.pid Z.eqb Pos.eqb negb].
  rewrite release_head by done. rewrite Z.eqb_refl. cbn [andb]. f_equal. destruct s as [bs q h d c]. unfold set_ibufs. cbn in *. f_equal.
  apply list_eq. intros k. rewrite list_lookup_alter. case_decide; [|done]. subst. unfold ibuf_at in Hl. cbn in Hl.
  destruct (bs !! k) as [b|] eqn:E; [|done]. simpl in *. f_equal. destruct b. simpl in *. by subst.
Qed.

Lemma queue_bound q s : queued q s → (length q ≤ NBUF)%nat.
Proof.
  intros Q. assert (∀ h, chain h q s → Forall (λ i, (i < NBUF)%nat) q) as Hb.
  { clear Q. induction q as [|i q IH]; intros h Hc; constructor; destruct Hc as (_ & Hi & Hc); [done|by eapply IH]. }
  specialize (Hb _ (q_chain _ _ Q)). replace NBUF with (length (seq 0 NBUF)) by apply length_seq. apply submseteq_length, NoDup_submseteq; [apply Q|].
  intros i Hi. rewrite Forall_forall in Hb. apply elem_of_seq. specialize (Hb i Hi). lia.
Qed.

Lemma iderw_queues mypid q i s tr :
  queued q s → i ∉ q → (i < NBUF)%nat → lock (ibuf_at i s) = Sleeplock.SL 1 mypid → request (ibuf_at i s) → havedisk1 s ≠ 0 →
  ∃ s', iderw mypid i (Ctx [] tr) s = Sleep (ChBuf i) (Ctx [] tr) s' ∧ queued (q ++ [i]) s' ∧ ibufs s' = ibufs s ∧
    havedisk1 s' = havedisk1 s ∧ ctl s' = (if decide (q = []) then after_start (ibuf_at i s) (ctl s) else ctl s).
Proof.
  intros Q Hx Hi Hl Hr Hd. pose proof (queue_bound q s Q) as Hlen. destruct Q as [Qc Qn Qb Qx Qr Qs].
  unfold iderw. rewrite (bind_Ret _ _ _ _ _ _ _ (holdingsleep_runs i s mypid [] tr Hl ltac:(apply not_elem_of_nil))).
  cbn [negb]. rewrite (bind_Ret _ _ _ _ s (Ctx [] tr) s) by done. cbv zeta.
  assert (Z.land (flags (ibuf_at i s)) (Z.lor B_VALID B_DIRTY) =? B_VALID = false) as Hdone by (by destruct Hr as ([-> | ->] & _)).
  rewrite Hdone, (proj2 (Z.eqb_neq _ _) Hd), andb_false_r.
  rewrite bind_acquire by apply not_elem_of_nil. rewrite (bind_Ret _ _ _ _ tt (Ctx [Lidelock] tr) (set_qnext (<[i := None]> (qnext s)) s)) by done.
  set (s1 := set_qnext _ s).
  assert (chain (idequeue s1) q s1) as Hc1.
  { apply (chain_ext _ _ s); [|exact Qc]. intros k Hk. unfold next_of, s1. cbn [qnext set_qnext]. rewrite list_lookup_insert_ne; [done|by intros ->]. }
  assert (next_of i s1 = None) as Hn1.
  { unfold next_of, s1. cbn [qnext set_qnext]. rewrite list_lookup_insert_eq by lia. done. }
  destruct (append_runs i q (Ctx [Lidelock] tr) s1 ltac:(unfold s1; cbn; by rewrite length_insert) Qn Hi Hx Hc1 Hn1 Hlen)
    as (s2 & E2 & Hb2 & Hl2 & Hd2 & Hct2 & Hc2).
  rewrite (bind_Ret _ _ _ _ _ _ _ E2). rewrite (bind_Ret _ _ _ _ (idequeue s2) (Ctx [Lidelock] tr) s2) by done.
  assert (∀ s3 : istate H, ibufs s3 = ibufs s → iderw_wait i (Ctx [Lidelock] tr) s3 = Sleep (ChBuf i) (Ctx [] tr) s3) as Hw.
  { intros s3 E3. unfold iderw_wait. rewrite (bind_Ret _ _ _ _ (ibuf_at i s3) (Ctx [Lidelock] tr) s3) by done.
    rewrite (ibuf_at_eq s s3 i E3), Hdone. cbn [negb]. by rewrite sleep_on_head by apply not_elem_of_nil. }
  assert (NoDup (q ++ [i])) as Hnd.
  { apply NoDup_app. split; [done|]. split; [set_solver|apply NoDup_singleton]. }
  assert (∀ s3 : istate H, ibufs s3 = ibufs s → qnext s3 = qnext s2 → idequeue s3 = idequeue s2 →
    match q ++ [i] with k :: _ => started k s3 | [] => True end → queued (q ++ [i]) s3) as Hq.
  { intros s3 E3 En Eq Hst. split; [|done|by rewrite E3|by rewrite En| |done].
    - rewrite Eq. eapply chain_ext; [|exact Hc2]. intros k _. unfold next_of. by rewrite En.
    - apply Forall_app. split; [|apply Forall_singleton; by rewrite (ibuf_at_eq s s3 i E3)].
      eapply Forall_impl; [exact Qr|]. intros k Hk. by rewrite (ibuf_at_eq s s3 k E3). }
  destruct q as [|j q]; cbn [app chain] in Hc2.
  - destruct Hc2 as (Hq2 & _). rewrite Hq2, bool_decide_true by done.
    assert (request (ibuf_at i s2)) as Hr2 by (by rewrite (ibuf_at_eq s s2 i Hb2)).
    rewrite (bind_Ret _ _ _ _ _ _ _ (idestart_runs i s2 (Ctx [Lidelock] tr) Hr2)). rewrite Hw by done.
    eexists. split; [done|]. rewrite decide_True by done. cbn [ibufs set_ctl havedisk1 ctl].
    split; [|split; [done|split; [done|by rewrite (ibuf_at_eq s s2 i Hb2), Hct2]]].
    apply Hq; [done|done|done|]. cbn [app]. by apply started_after_start.
  - destruct Hc2 as (Hq2 & _). rewrite Hq2, bool_decide_false by (intros [= ->]; set_solver).
    rewrite (bind_Ret _ _ _ _ tt (Ctx [Lidelock] tr) s2) by done. rewrite Hw by done. eexists. split; [done|].
    rewrite decide_False by done. split; [|done]. apply Hq; [done|done|done|]. cbn [app]. unfold started in *.
    by rewrite (ibuf_at_eq s s2 j Hb2), Hct2.
Qed.

(** ** The interrupt *)

(** The buffer when its request is done. *)
Definition fin (b : buf) (h : H) : buf := set_flags 2 (if dirty b then b else set_bdata (sector 1 (blockno b) h) b).

Lemma dirty_flags b : flags b = 0 ∨ flags b = 6 → dirty b = (flags b =? 6).
Proof. unfold dirty. by intros [-> | ->]. Qed.

Lemma upd_ibuf_runs i f b (s : istate H) c : ibufs s !! i = Some b →
  upd_ibuf i f c s = Ret tt c (set_ibufs (<[i := f b]> (ibufs s)) s).
Proof.
  intros Hb. unfold upd_ibuf, modify. do 2 f_equal. apply list_eq. intros k. rewrite list_lookup_alter.
  destruct (decide (i = k)) as [<-|Hne]; [|by rewrite list_lookup_insert_ne].
  rewrite Hb, list_lookup_insert_eq by (by eapply lookup_lt_Some). done.
Qed.

Lemma intr_data i b (s : istate H) c : ibufs s !! i = Some b → flags b = 0 ∨ flags b = 6 → started i s →
  Z.land (status (ctl s)) (Z.lor IDE_DF IDE_ERR) = 0 →
  (if Z.land (flags b) B_DIRTY =? 0 then
     r ← idewait true;
     if 0 <=? r then d ← gets (λ s, insl (ctl s)); upd_ibuf i (set_bdata d) else mret tt
   else mret tt) c s =
  Ret tt c (set_ibufs (<[i := if dirty b then b else set_bdata (sector 1 (blockno b) (ctl s)) b]> (ibufs s)) s).
Proof.
  intros Hb Hf Hst Her. assert (ibuf_at i s = b) as Eb by (unfold ibuf_at; by rewrite Hb).
  unfold started in Hst. rewrite Eb, (dirty_flags b Hf) in Hst. rewrite (dirty_flags b Hf). destruct Hf as [Hf|Hf]; rewrite Hf in *.
  - change (Z.land 0 B_DIRTY =? 0) with true. change (0 =? 6) with false in *. cbv iota.
    rewrite (bind_Ret _ _ _ _ 0 c s).
    2:{ unfold idewait, mbind, M_bind, gets. rewrite Her. done. }
    change (0 <=? 0) with true. cbv iota. rewrite (bind_Ret _ _ _ _ (insl (ctl s)) c s) by done.
    rewrite (upd_ibuf_runs i _ b s c Hb). by rewrite Hst.
  - change (Z.land 6 B_DIRTY =? 0) with false. change (6 =? 6) with true. cbv iota. unfold mret, M_ret.
    rewrite list_insert_id by done. by destruct s.
Qed.

Lemma queued_head i q s : queued (i :: q) s → ∃ b, ibufs s !! i = Some b ∧ request b ∧ started i s ∧ idequeue s = Some i ∧
  chain (next_of i s) q s ∧ i ∉ q.
Proof.
  intros [Qc Qn Qb Qx Qr Qs]. destruct Qc as (Hq & Hi & Hc). destruct (lookup_lt_is_Some_2 (ibufs s) i) as [b Hb]; [by rewrite Qb|].
  apply Forall_cons in Qr as [Hr _]. unfold ibuf_at in Hr. rewrite Hb in Hr. apply NoDup_cons in Qn as [Hn _]. exists b. done.
Qed.

(** The state after an interrupt. *)
Definition next_ctl (q : list nat) (s : istate H) : H :=
  match q with j :: _ => after_start (ibuf_at j s) (ctl s) | [] => ctl s end.
Definition after_intr (i : nat) (b : buf) (q : list nat) (s : istate H) : istate H :=
  IS (<[i := fin b (ctl s)]> (ibufs s)) (qnext s) (next_of i s) (havedisk1 s) (next_ctl q s).

Lemma ideintr_runs i q b s tr : queued (i :: q) s → ibufs s !! i = Some b →
  Z.land (status (ctl s)) (Z.lor IDE_DF IDE_ERR) = 0 →
  ideintr (Ctx [] tr) s = Ret tt (Ctx [] (tr ++ [EWakeup (ChBuf i)])) (after_intr i b q s).
Proof.
  intros Q Hb Her. destruct (queued_head _ _ _ Q) as (b' & Hb' & Hr & Hst & Hq & Hc & Hn). simplify_eq.
  unfold ideintr. rewrite bind_acquire by apply not_elem_of_nil. cbn [held trace].
  rewrite (bind_Ret _ _ _ _ (Some i) (Ctx [Lidelock] tr) s) by (unfold gets; by rewrite Hq).
  rewrite (bind_Ret _ _ _ _ tt (Ctx [Lidelock] tr) (set_idequeue (next_of i s) s)) by done. set (s1 := set_idequeue _ s).
  rewrite (bind_Ret _ _ _ _ b (Ctx [Lidelock] tr) s1) by (unfold gets, ibuf_at; cbn; by rewrite Hb).
  rewrite (bind_Ret _ _ _ _ _ _ _ (intr_data i b s1 (Ctx [Lidelock] tr) Hb (proj1 Hr) Hst Her)). set (b1 := if dirty b then b else _).
  set (s2 := set_ibufs _ s1). assert (ibufs s2 !! i = Some b1) as Hb2 by (apply list_lookup_insert_eq; by eapply lookup_lt_Some).
  rewrite (bind_Ret _ _ _ _ _ _ _ (upd_ibuf_runs i _ b1 s2 (Ctx [Lidelock] tr) Hb2)). cbv beta. set (s3 := set_ibufs _ s2).
  rewrite (bind_Ret _ _ _ _ _ _ _ (upd_ibuf_runs i _ (set_flags (Z.lor (flags b1) B_VALID) b1) s3 (Ctx [Lidelock] tr)
    ltac:(apply list_lookup_insert_eq; by eapply lookup_lt_Some))). cbv beta. set (s4 := set_ibufs _ s3).
  assert (s4 = set_ibufs (<[i := fin b (ctl s)]> (ibufs s)) s1) as ->.
  { unfold s4, s3, s2, set_ibufs. cbn. rewrite !list_insert_insert_eq. do 2 f_equal. unfold fin, b1. destruct Hr as (Hf & _).
    rewrite (dirty_flags b Hf). by destruct b as [f ? ? ? ? ?], Hf as [E|E]; cbn in E; subst f. }
  set (s5 := set_ibufs (<[i := fin b (ctl s)]> (ibufs s)) s1). unfold emit at 1. rewrite (bind_Ret _ _ _ _ tt (Ctx [Lidelock] (tr ++ [EWakeup (ChBuf i)])) s5) by done.
  rewrite (bind_Ret _ _ _ _ (next_of i s) (Ctx [Lidelock] (tr ++ [EWakeup (ChBuf i)])) s5) by done.
  destruct q as [|j q]; cbn [chain] in Hc.
  - rewrite Hc. rewrite (bind_Ret _ _ _ _ tt (Ctx [Lidelock] (tr ++ [EWakeup (ChBuf i)])) s5) by done.
    rewrite release_head by apply not_elem_of_nil. by destruct s.
  - destruct Hc as (Hnx & _). rewrite Hnx. pose proof (q_req _ _ Q) as Qr. apply Forall_cons in Qr as [_ [Hrj _]%Forall_cons].
    assert (ibuf_at j s5 = ibuf_at j s) as Ej.
    { unfold ibuf_at, s5. cbn [ibufs set_ibufs]. rewrite list_lookup_insert_ne; [done|]. intros ->. set_solver. }
    rewrite (bind_Ret _ _ _ _ _ _ _ (idestart_runs j s5 (Ctx [Lidelock] (tr ++ [EWakeup (ChBuf i)])) ltac:(by rewrite Ej))).
    rewrite release_head by apply not_elem_of_nil. rewrite Ej. by destruct s.
Qed.

Lemma after_intr_queued i q b s : queued (i :: q) s → ibufs s !! i = Some b → queued q (after_intr i b q s).
Proof.
  intros Q Hb. destruct (queued_head _ _ _ Q) as (b' & _ & _ & _ & _ & Hc & Hn). destruct Q as [_ Qn Qb Qx Qr _].
  apply NoDup_cons in Qn as [_ Qn]. apply Forall_cons in Qr as [_ Qr].
  assert (∀ j, j ∈ q → ibuf_at j (after_intr i b q s) = ibuf_at j s) as Hj.
  { intros j Hj. unfold ibuf_at, after_intr. cbn [ibufs]. rewrite list_lookup_insert_ne; [done|]. by intros ->. }
  split; cbn [after_intr idequeue ibufs qnext].
  - by apply (chain_ext _ _ s).
  - done.
  - by rewrite length_insert.
  - done.
  - apply Forall_forall. intros j Hjq. rewrite (Hj j Hjq). rewrite Forall_forall in Qr. by apply Qr.
  - destruct q as [|j q]; [done|]. apply Forall_cons in Qr as [Hr _]. unfold started. rewrite (Hj j) by set_solver.
    cbn [after_intr ctl next_ctl]. pose proof (started_after_start j s Hr) as Hst. unfold started in Hst.
    change (ibuf_at j (set_ctl _ s)) with (ibuf_at j s) in Hst. exact Hst.
Qed.

(** ** The memory disk does the same at once *)

Lemma ahead_here i q b s dk n : ibufs s !! i = Some b →
  ahead (i :: q) s dk n = if (dirty b && (n =? blockno b))%bool then bdata b else dk n.
Proof. intros Hb. unfold ahead, ibuf_at. by rewrite Hb. Qed.

Lemma memide_step mypid i q b s x tr :
  queued (i :: q) s → same_disk (i :: q) s x → ibufs s !! i = Some b → lock b = Sleeplock.SL 1 mypid →
  ∃ tr' x', Bio.iderw mypid i (Ctx [] tr) x = Ret tt (Ctx [] tr') x' ∧ same_disk q (after_intr i b q s) x'.
Proof.
  intros Q [Mb Ms Md] Hb Hl. destruct (queued_head _ _ _ Q) as (b' & Hb' & Hr & _ & _ & _ & Hn). simplify_eq.
  pose proof (q_req _ _ Q) as Qr. apply Forall_cons in Qr as [_ Qr].
  assert (∀ n x', (∀ n, disk_at n x' = sector 1 n (ctl s)) → sector 1 n (next_ctl q s) = ahead q (after_intr i b q s) (λ n, disk_at n x') n) as Hnext.
  { intros n x' Hx. destruct q as [|j q]; cbn [next_ctl ahead]; [by rewrite Hx|]. apply Forall_cons in Qr as [Hrj _].
    assert (ibuf_at j (after_intr i b (j :: q) s) = ibuf_at j s) as ->.
    { unfold ibuf_at, after_intr. cbn [ibufs]. rewrite list_lookup_insert_ne; [done|]. set_solver. }
    rewrite after_start_sector by done. by rewrite Hx. }
  destruct Hr as (Hf & Hd & Hnb). assert (blockno b < u32 (disksize x)) as Hsz by (rewrite u32_small; lia).
  rewrite <- Mb in Hb. assert (∀ n, sector 1 n (ctl s) = if (dirty b && (n =? blockno b))%bool then bdata b else disk_at n x) as Hsec.
  { intros n. rewrite Md. apply ahead_here. by rewrite <- Mb. }
  rewrite (dirty_flags b Hf) in Hsec. destruct Hf as [Hf|Hf]; rewrite Hf in Hsec; cbn [Z.eqb Pos.eqb andb] in Hsec.
  - eexists _, _. split; [by apply (iderw_read mypid i b tr x)|]. split; cbn [after_intr ibufs ctl].
    + unfold with_buf. cbn. rewrite Mb. f_equal. unfold fin, dirty. rewrite Hf. cbn. by rewrite Hsec.
    + done.
    + intros n. apply Hnext. intros m. by rewrite Hsec.
  - eexists _, _. split; [by apply (iderw_write mypid i b tr x)|]. split; cbn [after_intr ibufs ctl].
    + unfold with_buf. cbn. rewrite Mb. f_equal. unfold fin, dirty. by rewrite Hf.
    + done.
    + intros n. apply Hnext. intros m. rewrite Hsec. unfold disk_at. cbn [memdisk set_disk].
      destruct (Z.eqb_spec m (blockno b)) as [->|Hne]; [by rewrite lookup_insert_eq|by rewrite lookup_insert_ne].
Qed.

Fixpoint interrupts (n : nat) : M (istate H) unit :=
  match n with O => mret tt | S n => ideintr;; interrupts n end.
(** The same requests to the memory disk, one after the other. *)
Fixpoint serve (l : list (Z * nat)) : M bstate unit :=
  match l with [] => mret tt | r :: l => Bio.iderw (fst r) (snd r);; serve l end.

(** A request that has to wait is put at the end of the queue: [iderw] on a locked
    buffer, when the requests [q] are waiting, sleeps on the buffer with the driver's
    lock free, the queue is [q] and then the buffer, no buffer has changed, and the
    controller has been started on the request if it is the only one. *)
Theorem ide_request_queued mypid q i s tr :
  queued q s → i ∉ q → (i < NBUF)%nat → lock (ibuf_at i s) = Sleeplock.SL 1 mypid → request (ibuf_at i s) → havedisk1 s ≠ 0 →
  ∃ s', iderw mypid i (Ctx [] tr) s = Sleep (ChBuf i) (Ctx [] tr) s' ∧ queued (q ++ [i]) s' ∧ ibufs s' = ibufs s.
Proof.
  intros Q Hx Hi Hl Hr Hd. destruct (iderw_queues mypid q i s tr Q Hx Hi Hl Hr Hd) as (s' & E & Q' & Hb & _). by exists s'.
Qed.

Lemma interrupts_serve reqs : ∀ rest s x tr tr0,
  queued (map snd reqs ++ rest) s → same_disk (map snd reqs ++ rest) s x →
  Forall (λ r, lock (ibuf_at (snd r) s) = Sleeplock.SL 1 (fst r)) reqs →
  (∀ h : H, Z.land (status h) (Z.lor IDE_DF IDE_ERR) = 0) →
  ∃ s' x' tr1, interrupts (length reqs) (Ctx [] tr) s = Ret tt (Ctx [] (tr ++ map (λ r, EWakeup (ChBuf (snd r))) reqs)) s' ∧
    serve reqs (Ctx [] tr0) x = Ret tt (Ctx [] tr1) x' ∧ queued rest s' ∧ same_disk rest s' x' ∧
    Forall (λ r, flags (ibuf_at (snd r) s') = 2) reqs ∧ ∀ k, k ∉ map snd reqs → ibuf_at k s' = ibuf_at k s.
Proof.
  induction reqs as [|[mypid i] reqs IH]; intros rest s x tr tr0 Q M Hl Her; cbn [map app snd] in *.
  - exists s, x, tr0. rewrite app_nil_r. done.
  - destruct (queued_head _ _ _ Q) as (b & Hb & Hr & _). apply Forall_cons in Hl as [Hlb Hl]. cbn [fst snd] in Hlb.
    unfold ibuf_at in Hlb. rewrite Hb in Hlb. cbn in Hlb.
    destruct (memide_step mypid i _ b s x tr0 Q M Hb Hlb) as (tr2 & x2 & Ex & M2).
    pose proof (after_intr_queued _ _ _ _ Q Hb) as Q2. set (s2 := after_intr i b (map snd reqs ++ rest) s) in *.
    assert (Forall (λ r, lock (ibuf_at (snd r) s2) = Sleeplock.SL 1 (fst r)) reqs) as Hl2.
    { eapply Forall_impl; [exact Hl|]. intros [p k] Hk. cbn [fst snd] in *. unfold ibuf_at, s2, after_intr in *. cbn [ibufs].
      destruct (decide (i = k)) as [<-|Hne]; [|by rewrite list_lookup_insert_ne].
      rewrite list_lookup_insert_eq by (by eapply lookup_lt_Some). rewrite Hb in Hk. cbn in *. unfold fin. by destruct (dirty b). }
    destruct (IH rest s2 x2 (tr ++ [EWakeup (ChBuf i)]) tr2 Q2 M2 Hl2 Her) as (s' & x' & tr1 & E1 & E2 & Q' & M' & Hres & Hk).
    exists s', x', tr1. cbn [length interrupts serve fst snd].
    rewrite (bind_Ret _ _ _ _ _ _ _ (ideintr_runs i _ b s tr Q Hb (Her _))). fold s2. rewrite E1, <- app_assoc.
    rewrite (bind_Ret _ _ _ _ _ _ _ Ex), E2. repeat (split; [done|]).
    pose proof (q_nodup _ _ Q) as Hnd. apply NoDup_cons in Hnd as [Hni _]. split.
    + apply Forall_cons. split; [|done]. cbn [snd]. rewrite Hk by set_solver. unfold ibuf_at, s2, after_intr. cbn [ibufs].
      rewrite list_lookup_insert_eq by (by eapply lookup_lt_Some). reflexivity.
    + intros k [Hki Hkr]%not_elem_of_cons. rewrite (Hk k Hkr). unfold ibuf_at, s2, after_intr. cbn [ibufs].
      by rewrite list_lookup_insert_ne by done.
Qed.

End Correct.

(** ** A controller *)

Module SampleIde.

(** Registers, sectors, and the data port. *)
Record hw := Hw { hregs : gmap Z Z; hsec : gmap (Z * Z) block; hdata : block }.
Definition hreg (q : Z) (h : hw) : Z := default 0 (hregs h !! q).
Definition hsector (d n : Z) (h : hw) : block := default zero_block (hsec h !! (d, n)).
Definition hlba (h : hw) : Z :=
  Z.lor (hreg 0x1f3 h) (Z.lor (Z.shiftl (hreg 0x1f4 h) 8)
    (Z.lor (Z.shiftl (hreg 0x1f5 h) 16) (Z.shiftl (Z.land (hreg 0x1f6 h) 0x0f) 24))).
Definition hdrive (h : hw) : Z := Z.land (Z.shiftr (hreg 0x1f6 h) 4) 1.

#[export] Instance hw_controller : Controller hw := {|
  outb p v h :=
    if p =? 0x1f7 then
      if v =? IDE_CMD_READ then Hw (hregs h) (hsec h) (hsector (hdrive h) (hlba h) h) else h
    else Hw (<[p := v mod 256]> (hregs h)) (hsec h) (hdata h);
  outsl b h := Hw (hregs h) (<[(hdrive h, hlba h) := b]> (hsec h)) (hdata h);
  insl := hdata;
  status _ := IDE_DRDY;
  reg := hreg;
  sector := hsector |}.

#[export] Instance hw_ok : ControllerOk hw.
Proof.
  split; cbn.
  - intros p q v h Hp. rewrite (proj2 (Z.eqb_neq p 503)) by lia. unfold hreg. cbn.
    destruct (Z.eqb_spec q p) as [->|Hne]; [by rewrite lookup_insert_eq|by rewrite lookup_insert_ne].
  - intros p v h d n Hp. by rewrite (proj2 (Z.eqb_neq p 503) Hp).
  - done.
  - done.
  - intros h b d n _. unfold hsector. cbn. destruct (Z.eqb_spec d (drive h)) as [->|Hd]; cbn [andb].
    + destruct (Z.eqb_spec n (lba h)) as [->|Hn]; [by rewrite lookup_insert_eq|]. rewrite lookup_insert_ne; [done|]. by intros [= E].
    + rewrite lookup_insert_ne; [done|]. by intros [= E].
  - done.
Qed.

(** Process 5 holds buffer 0, for block 7. *)
Definition block7 : block := 42 :: replicate 511 0.
Definition some_bufs : list buf := Buf 0 1 7 (Sleeplock.SL 1 5) 1 zero_block :: replicate 29 buf0.
Definition idle : istate hw := IS some_bufs (replicate NBUF None) None 1 (Hw ∅ {[ (1, 7) := block7 ]} zero_block).
Definition mem_disk : bstate := BS some_bufs (seq 0 NBUF) {[ 7 := block7 ]} 1000.

Lemma idle_queued : queued [] idle.
Proof. by split; try apply NoDup_nil_2; try apply Forall_nil_2. Qed.
Lemma idle_request : request (ibuf_at 0 idle).
Proof. split; [by left|]. split; [done|]. unfold FSSIZE. cbn. lia. Qed.

Lemma ide_request_queued_witness :
  ∃ s', iderw 5 0 (Ctx [] []) idle = Sleep (ChBuf 0) (Ctx [] []) s' ∧ queued [0%nat] s' ∧ ibufs s' = some_bufs.
Proof.
  apply (ide_request_queued 5 [] 0 idle []);
    [apply idle_queued|apply not_elem_of_nil|unfold NBUF; lia|reflexivity|apply idle_request|done].
Defined.

(** A read of block 7, by interrupt and at once. *)
Lemma idle_disk n : hsector 1 n (ctl idle) = disk_at n mem_disk.
Proof.
  unfold hsector, disk_at. cbn [idle ctl hsec mem_disk memdisk]. destruct (decide (n = 7)) as [->|Hne].
  - by rewrite lookup_singleton_eq, lookup_singleton_eq.
  - rewrite !lookup_singleton_ne; [done|congruence|congruence].
Qed.

End SampleIde.
