(* ===== verification/Log.v ===== *)
(** * The log

    [log.c]: transactions of file system calls, group commit, and recovery; and
    [readsb] of [fs.c].  A commit is four runs of disk writes, and the crash
    theorem at the end considers a crash after any of them. *)

From S2P Require Import Prelude Locks Bytes Bio.

Definition MAXOPBLOCKS : Z := 10.
Definition LOGSIZE : Z := MAXOPBLOCKS * 3.

(** The superblock, as read from block 1. *)
Record superblock := SB {
  sb_size : Z; sb_nblocks : Z; sb_ninodes : Z; sb_nlog : Z; sb_logstart : Z;
  sb_inodestart : Z; sb_bmapstart : Z }.
Definition sb_of (d : block) : superblock :=
  SB (get32 d 0) (get32 d 4) (get32 d 8) (get32 d 12) (get32 d 16) (get32 d 20) (get32 d 24).

(** [struct log] without its lock; [lh_block] is the array [lh.block]. *)
Record log := Log {
  start : Z; size : Z; outstanding : Z; committing : Z; ldev : Z; lh_n : Z; lh_block : list Z }.

Record lstate := LS { bio : bstate; lg : log }.

Definition set_bio (x : bstate) (s : lstate) : lstate := LS x (lg s).
Definition set_lg (x : log) (s : lstate) : lstate := LS (bio s) x.
Definition io {A} (m : M bstate A) : M lstate A := zoom bio set_bio m.
Definition upd_log (f : log → log) : M lstate unit := modify (λ s, set_lg (f (lg s)) s).

Definition set_head (n : Z) (b : list Z) (l : log) : log :=
  Log (start l) (size l) (outstanding l) (committing l) (ldev l) n b.
Definition set_outstanding (x : Z) (l : log) : log :=
  Log (start l) (size l) x (committing l) (ldev l) (lh_n l) (lh_block l).
Definition set_committing (x : Z) (l : log) : log :=
  Log (start l) (size l) (outstanding l) x (ldev l) (lh_n l) (lh_block l).

(** The header in a block: [n], then the block numbers. *)
Fixpoint put_blocks (k : nat) (l : list Z) (d : block) : block :=
  match l with
  | [] => d
  | b :: l => put_blocks (S k) l (put32 (4 + 4 * k) b d)
  end.
Definition put_head (n : Z) (l : list Z) (d : block) : block := put_blocks 0 l (put32 0 n d).
Definition get_head_n (d : block) : Z := i32 (get32 d 0).
Definition get_head_block (d : block) (k : nat) : Z := i32 (get32 d (4 + 4 * k)).

Section Ops.
Context (mypid : Z).

Definition readsb (d : Z) : M lstate superblock :=
  b ← io (bread mypid d 1);
  s ← get;
  io (brelse mypid b);;
  mret (sb_of (bdata (buf_at b (bio s)))).

(** The loops of [install_trans] and [write_log], from [tail] on. *)
Fixpoint install_loop (tail : nat) (blocks : list Z) : M lstate unit :=
  match blocks with
  | [] => mret tt
  | blk :: blocks =>
      l ← gets lg;
      lbuf ← io (bread mypid (ldev l) (u32 (start l + Z.of_nat tail + 1)));
      dbuf ← io (bread mypid (ldev l) (u32 blk));
      s ← get;
      io (upd_buf dbuf (set_bdata (bdata (buf_at lbuf (bio s)))));;
      io (bwrite mypid dbuf);;
      io (brelse mypid lbuf);;
      io (brelse mypid dbuf);;
      install_loop (S tail) blocks
  end.
(** The blocks of the in-memory header. *)
Definition logged (l : log) : list Z := take (Z.to_nat (lh_n l)) (lh_block l).
Definition install_trans : M lstate unit := l ← gets lg; install_loop 0 (logged l).

Fixpoint write_log_loop (tail : nat) (blocks : list Z) : M lstate unit :=
  match blocks with
  | [] => mret tt
  | blk :: blocks =>
      l ← gets lg;
      to ← io (bread mypid (ldev l) (u32 (start l + Z.of_nat tail + 1)));
      from ← io (bread mypid (ldev l) (u32 blk));
      s ← get;
      io (upd_buf to (set_bdata (bdata (buf_at from (bio s)))));;
      io (bwrite mypid to);;
      io (brelse mypid from);;
      io (brelse mypid to);;
      write_log_loop (S tail) blocks
  end.
Definition write_log : M lstate unit := l ← gets lg; write_log_loop 0 (logged l).

Definition read_head : M lstate unit :=
  l ← gets lg;
  b ← io (bread mypid (ldev l) (u32 (start l)));
  s ← get;
  let d := bdata (buf_at b (bio s)) in
  let n := get_head_n d in
  upd_log (λ l, set_head n (map (get_head_block d) (seq 0 (Z.to_nat n)) ++
                            drop (Z.to_nat n) (lh_block l)) l);;
  io (brelse mypid b).

Definition write_head : M lstate unit :=
  l ← gets lg;
  b ← io (bread mypid (ldev l) (u32 (start l)));
  s ← get;
  io (upd_buf b (set_bdata (put_head (lh_n l) (logged l) (bdata (buf_at b (bio s))))));;
  io (bwrite mypid b);;
  io (brelse mypid b).

Definition recover_from_log : M lstate unit :=
  read_head;;
  install_trans;;
  upd_log (λ l, set_head 0 (lh_block l) l);;
  write_head.

(** [sizeof(struct logheader)] *)
Definition sizeof_logheader : Z := 4 + 4 * LOGSIZE.

Definition initlog (d : Z) : M lstate unit :=
  if Z.of_nat BSIZE <=? sizeof_logheader then panic "initlog: too big logheader"
  else
    sb ← readsb d;
    upd_log (λ l, Log (i32 (sb_logstart sb)) (i32 (sb_nlog sb)) (outstanding l) (committing l) d
                      (lh_n l) (lh_block l));;
    recover_from_log.

(** A caller that sleeps runs it again. *)
Definition begin_op : M lstate unit :=
  acquire Llog;;
  s ← get;
  let l := lg s in
  if negb (committing l =? 0) then sleep_on ChLog Llog
  else if LOGSIZE <? lh_n l + (outstanding l + 1) * MAXOPBLOCKS then sleep_on ChLog Llog
  else
    upd_log (set_outstanding (outstanding l + 1));;
    release Llog.

Definition commit : M lstate unit :=
  l ← gets lg;
  if 0 <? lh_n l then
    write_log;;
    write_head;;
    install_trans;;
    upd_log (λ l, set_head 0 (lh_block l) l);;
    write_head
  else mret tt.

Definition end_op : M lstate unit :=
  acquire Llog;;
  upd_log (λ l, set_outstanding (outstanding l - 1) l);;
  s ← get;
  if negb (committing (lg s) =? 0) then panic "log.committing"
  else
    let do_commit := outstanding (lg s) =? 0 in
    (if do_commit then upd_log (set_committing 1) else emit (EWakeup ChLog));;
    release Llog;;
    if do_commit then
      commit;;
      acquire Llog;;
      upd_log (set_committing 0);;
      emit (EWakeup ChLog);;
      release Llog
    else mret tt.

(** The index of the first of the [n] logged blocks that is [blk], else [n]. *)
Fixpoint find_block (blk : Z) (i : nat) (l : list Z) : nat :=
  match l with
  | [] => i
  | b :: l => if u32 b =? blk then i else find_block blk (S i) l
  end.

(** [log_write(b)] for buffer [b]. *)
Definition log_write (b : nat) : M lstate unit :=
  s ← get;
  let l := lg s in
  if ((LOGSIZE <=? lh_n l) || (size l - 1 <=? lh_n l))%bool then panic "too big a transaction"
  else if outstanding l <? 1 then panic "log_write outside of trans"
  else
    acquire Llog;;
    s ← get;
    let l := lg s in
    let blk := blockno (buf_at b (bio s)) in
    let i := find_block blk 0 (logged l) in
    upd_log (λ l, set_head (if Z.of_nat i =? lh_n l then lh_n l + 1 else lh_n l)
                           (<[i := i32 blk]> (lh_block l)) l);;
    io (upd_buf b (λ b, set_flags (Z.lor (flags b) B_DIRTY) b));;
    release Llog.

End Ops.

(** ** Disk writes *)

(** The block writes of a trace. *)
Definition write_of (e : event) : option (Z * block) :=
  match e with EDiskWrite _ n x => Some (n, x) | _ => None end.
Definition writes (tr : list event) : list (Z * block) := omap write_of tr.

Definition apply_writes (ws : list (Z * block)) (d : gmap Z block) : gmap Z block :=
  foldl (λ d w, <[w.1 := w.2]> d) d ws.

Lemma writes_app t1 t2 : writes (t1 ++ t2) = writes t1 ++ writes t2.
Proof. apply omap_app. Qed.
Lemma apply_app w1 w2 d : apply_writes (w1 ++ w2) d = apply_writes w2 (apply_writes w1 d).
Proof. apply foldl_app. Qed.

Lemma apply_other ws d m : m ∉ ws.*1 → apply_writes ws d !! m = d !! m.
Proof.
  revert d; induction ws as [|[n x] ws IH]; intros d Hm; [done|]. simpl in *.
  rewrite IH by set_solver. rewrite lookup_insert_ne; [done|set_solver].
Qed.

Lemma apply_in ws d n x : NoDup ws.*1 → (n, x) ∈ ws → apply_writes ws d !! n = Some x.
Proof.
  revert d; induction ws as [|[n' x'] ws IH]; intros d Hnd Hin; [set_solver|].
  simpl in Hnd. apply NoDup_cons in Hnd as [Hn Hnd].
  apply elem_of_cons in Hin as [[= -> ->]|Hin]; [|by apply IH].
  simpl. rewrite apply_other by done. apply lookup_insert_eq.
Qed.

(** ** The header's round trip *)

Lemma length_put_blocks k l d : length (put_blocks k l d) = length d.
Proof. revert k d; induction l; intros k d; simpl; [done|]. by rewrite IHl, length_put32. Qed.

Lemma get_put_blocks_before k l d o :
  (o + 3 < 4 + 4 * k)%nat → get32 (put_blocks k l d) o = get32 d o.
Proof.
  revert k d; induction l as [|b l IH]; intros k d Ho; cbn [put_blocks]; [done|].
  rewrite IH by lia. apply get32_put32_ne. lia.
Qed.

Lemma get_put_blocks k l d j b :
  (4 + 4 * (k + length l) ≤ length d)%nat → l !! j = Some b →
  get32 (put_blocks k l d) (4 + 4 * (k + j)) = u32 b.
Proof.
  revert k d j; induction l as [|x l IH]; intros k d j Hlen Hj; [done|]. simpl in Hlen.
  destruct j as [|j]; simpl in Hj; cbn [put_blocks].
  - simplify_eq. rewrite Nat.add_0_r, get_put_blocks_before by lia. apply get32_put32. lia.
  - replace (k + S j)%nat with (S k + j)%nat by lia. apply IH; [|done].
    rewrite length_put32. simpl. lia.
Qed.

Lemma get_put_head_n n l d :
  (4 ≤ length d)%nat → 0 ≤ n < 2147483648 → get_head_n (put_head n l d) = n.
Proof.
  intros Hd Hn. unfold get_head_n, put_head. rewrite get_put_blocks_before by lia.
  rewrite get32_put32 by lia. rewrite i32_u32. apply i32_small. lia.
Qed.

Lemma get_put_head_block n l d j b :
  (4 + 4 * length l ≤ length d)%nat → l !! j = Some b → 0 ≤ b < 2147483648 →
  get_head_block (put_head n l d) j = b.
Proof.
  intros Hd Hj Hb. unfold get_head_block, put_head. rewrite (get_put_blocks 0 l _ j b).
  - rewrite i32_u32. apply i32_small. lia.
  - rewrite length_put32. lia.
  - done.
Qed.

Lemma get_put_head_blocks n l d :
  (4 + 4 * length l ≤ length d)%nat → Forall (λ b, 0 ≤ b < 2147483648) l →
  map (get_head_block (put_head n l d)) (seq 0 (length l)) = l.
Proof.
  intros Hd Hl. apply list_eq. intros j. rewrite list_lookup_fmap.
  destruct (l !! j) as [b|] eqn:Hj.
  - rewrite lookup_seq_lt by (by eapply lookup_lt_Some). simpl. f_equal.
    eapply get_put_head_block; [done|done|]. rewrite Forall_lookup in Hl. by apply (Hl j).
  - rewrite lookup_seq_ge by (by apply lookup_ge_None). done.
Qed.

Section Steps.
Context (mypid : Z).

(** Lift an equation on the buffer cache. *)
Lemma io_Ret {A} (m : M bstate A) c s a c' b :
  m c (bio s) = Ret a c' b → io m c s = Ret a c' (set_bio b s).
Proof. intros E. unfold io, zoom. by rewrite E. Qed.

(** What is left after copying block [src] to block [dst] through the cache. *)
Definition copied (src dst : Z) (D : list Z) (s s' : lstate) : Prop :=
  binv mypid [] (filter (.≠ dst) D) (bio s') ∧ lg s' = lg s ∧
  (∀ m, content (bio s') m = if decide (m = dst) then content (bio s) src else content (bio s) m) ∧
  memdisk (bio s') = <[dst := content (bio s) src]> (memdisk (bio s)) ∧
  disksize (bio s') = disksize (bio s).

(** The shared end of a round of [install_loop] and [write_log_loop], with
    block [src] in buffer [i] and block [dst] in buffer [j]. *)
Lemma copy_tail D s (b : bstate) src dst i j tr :
  binv mypid [(dst, j); (src, i)] D b → src ≠ dst → dst < u32 (disksize b) →
  same (bio s) b → (flags (buf_at i b) = 2 → content b src = disk_at src b) →
  ∃ s' tr', copied src dst D s s' ∧ writes tr' = [(dst, content (bio s) src)] ∧
    ∀ B (k : unit → M lstate B),
    (s ← get;
     io (upd_buf j (set_bdata (bdata (buf_at i (bio s)))));;
     io (bwrite mypid j);;
     io (brelse mypid i);;
     io (brelse mypid j);; k tt) (Ctx [] tr) (set_bio b s) = k tt (Ctx [] (tr ++ tr')) s'.
Proof.
  intros I2 Hne Hd (C2 & M2 & Z2) F2.
  assert (i ≠ j) as Hij by (eapply (held_ne mypid _ _ _ src i dst j I2); set_solver).
  destruct (held_buf mypid _ D b src i I2 ltac:(set_solver)) as (_ & _ & _ & _ & _ & _ & D2).
  rewrite C2 in D2. symmetry in D2.
  destruct (set_data_ok mypid _ D b dst j (bdata (buf_at i b)) tr I2 ltac:(set_solver))
    as (b3 & E3 & I3 & C3 & M3 & Z3 & D3 & O3).
  destruct (bwrite_ok mypid _ D b3 dst j tr I3 ltac:(set_solver) ltac:(by rewrite Z3))
    as (b4 & E4 & I4 & C4 & M4 & Z4 & O4).
  assert (∀ m, content b4 m = if decide (m = dst) then content (bio s) src else content (bio s) m) as C5.
  { intros m. rewrite C4, C3. case_decide; [done|]. by rewrite C2. }
  assert (memdisk b4 = <[dst := content (bio s) src]> (memdisk (bio s))) as M5.
  { by rewrite M4, M3, M2, C3, decide_True, D2. }
  destruct (brelse_ok mypid [(dst, j)] (filter (.≠ dst) D) b4 src i
    (tr ++ [EDiskWrite ROOTDEV dst (content b3 dst)])) as (b5 & E5 & I5 & (C6 & M6 & Z6) & O5).
  { eapply binv_perm; [|exact I4]. apply Permutation_swap. }
  { set_solver. }
  { rewrite O4, O3 by done. intros Hf. rewrite C5, decide_False by done.
    unfold disk_at. rewrite M5, lookup_insert_ne, <- M2, <- C2 by done. by apply F2. }
  destruct (brelse_ok mypid [] (filter (.≠ dst) D) b5 dst j
    ((tr ++ [EDiskWrite ROOTDEV dst (content b3 dst)]) ++ [EWakeup (ChSleeplock (SLbuf i))]))
    as (b6 & E6 & I6 & (C7 & M7 & Z7) & _); [done|set_solver|..].
  { intros _. rewrite C6, C5, decide_True by done. unfold disk_at. by rewrite M6, M5, lookup_insert_eq. }
  exists (set_bio b6 s), ([EDiskWrite ROOTDEV dst (content b3 dst)] ++
    [EWakeup (ChSleeplock (SLbuf i)); EWakeup (ChSleeplock (SLbuf j))]).
  split; [|split].
  - split_and!; [done|done|intros m; simpl; by rewrite C7, C6, C5|simpl; by rewrite M7, M6, M5|simpl; congruence].
  - simpl. by rewrite C3, decide_True, D2.
  - intros B k. erewrite bind_Ret by done. cbv beta.
    rewrite (bind_Ret _ _ _ _ _ _ _ (io_Ret _ _ (set_bio b s) _ _ _ E3)).
    rewrite (bind_Ret _ _ _ _ _ _ _ (io_Ret _ _ (set_bio b3 s) _ _ _ E4)).
    rewrite (bind_Ret _ _ _ _ _ _ _ (io_Ret _ _ (set_bio b4 s) _ _ _ E5)).
    rewrite (bind_Ret _ _ _ _ _ _ _ (io_Ret _ _ (set_bio b5 s) _ _ _ E6)).
    by rewrite <- !app_assoc.
Qed.

(** Blocks that can be copied with [D] dirty. *)
Record copyable (D : list Z) (s : lstate) (src dst : Z) : Prop := {
  c_inv : binv mypid [] D (bio s);
  c_ne : src ≠ dst;
  c_src : src < u32 (disksize (bio s));
  c_dst : dst < u32 (disksize (bio s));
  c_room : (1 + length D < NBUF)%nat }.

(** One round of [install_loop]. *)
Lemma install_step D s src dst tr :
  copyable D s src dst →
  ∃ s' tr', copied src dst D s s' ∧ writes tr' = [(dst, content (bio s) src)] ∧
    ∀ B (k : unit → M lstate B),
    (lbuf ← io (bread mypid ROOTDEV src);
     dbuf ← io (bread mypid ROOTDEV dst);
     s ← get;
     io (upd_buf dbuf (set_bdata (bdata (buf_at lbuf (bio s)))));;
     io (bwrite mypid dbuf);;
     io (brelse mypid lbuf);;
     io (brelse mypid dbuf);; k tt) (Ctx [] tr) s = k tt (Ctx [] (tr ++ tr')) s'.
Proof.
  intros [Hinv Hne Hs Hd HD].
  destruct (bread_ok mypid [] D (bio s) src tr Hinv ltac:(set_solver) Hs ltac:(simpl; lia))
    as (i & b1 & E1 & I1 & S1 & D1 & F1 & _).
  assert (disksize b1 = disksize (bio s)) as Z1 by apply S1.
  destruct (bread_ok mypid _ D b1 dst tr I1 ltac:(set_solver) ltac:(by rewrite Z1) ltac:(simpl; lia))
    as (j & b2 & E2 & I2 & S2 & D2 & F2 & O2).
  assert (disksize b2 = disksize b1) as Z2 by apply S2.
  destruct (copy_tail D s b2 src dst i j tr I2 Hne ltac:(congruence) (same_trans _ _ _ S1 S2))
    as (s' & tr' & ? & ? & Hk).
  { rewrite (O2 src i) by set_solver. intros Hf. destruct S1 as (C1 & M1 & _), S2 as (C2 & M2 & _).
    unfold disk_at. rewrite M2, M1, C2, C1. by apply F1. }
  exists s', tr'. split; [done|]. split; [done|]. intros B k.
  rewrite (bind_Ret _ _ _ _ _ _ _ (io_Ret _ _ s _ _ _ E1)).
  rewrite (bind_Ret _ _ _ _ _ _ _ (io_Ret _ _ (set_bio b1 s) _ _ _ E2)). apply Hk.
Qed.

(** One round of [write_log_loop]. *)
Lemma write_log_step D s src dst tr :
  copyable D s src dst →
  ∃ s' tr', copied src dst D s s' ∧ writes tr' = [(dst, content (bio s) src)] ∧
    ∀ B (k : unit → M lstate B),
    (to ← io (bread mypid ROOTDEV dst);
     from ← io (bread mypid ROOTDEV src);
     s ← get;
     io (upd_buf to (set_bdata (bdata (buf_at from (bio s)))));;
     io (bwrite mypid to);;
     io (brelse mypid from);;
     io (brelse mypid to);; k tt) (Ctx [] tr) s = k tt (Ctx [] (tr ++ tr')) s'.
Proof.
  intros [Hinv Hne Hs Hd HD].
  destruct (bread_ok mypid [] D (bio s) dst tr Hinv ltac:(set_solver) Hd ltac:(simpl; lia))
    as (j & b1 & E1 & I1 & S1 & _).
  assert (disksize b1 = disksize (bio s)) as Z1 by apply S1.
  destruct (bread_ok mypid _ D b1 src tr I1 ltac:(set_solver) ltac:(by rewrite Z1) ltac:(simpl; lia))
    as (i & b2 & E2 & I2 & S2 & D2 & F2 & O2).
  assert (disksize b2 = disksize b1) as Z2 by apply S2.
  destruct (copy_tail D s b2 src dst i j tr (binv_perm _ _ _ _ _ (Permutation_swap _ _ _) I2) Hne
    ltac:(congruence) (same_trans _ _ _ S1 S2)) as (s' & tr' & ? & ? & Hk).
  { intros Hf. destruct S2 as (C2 & M2 & _). unfold disk_at. rewrite M2, C2. by apply F2. }
  exists s', tr'. split; [done|]. split; [done|]. intros B k.
  rewrite (bind_Ret _ _ _ _ _ _ _ (io_Ret _ _ s _ _ _ E1)).
  rewrite (bind_Ret _ _ _ _ _ _ _ (io_Ret _ _ (set_bio b1 s) _ _ _ E2)). apply Hk.
Qed.

(** The disk has room for the log, on the root device. *)
Record geometry (l : log) (n : Z) : Prop := {
  g_dev : ldev l = ROOTDEV;
  g_start : 0 ≤ start l;
  g_size : 0 < size l;
  g_room : start l + size l ≤ n;
  g_disk : 0 ≤ n < 2147483648 }.

Definition log_area (l : log) (m : Z) : Prop := start l ≤ m < start l + size l.
(** Block [k] of the log. *)
Definition pos (l : log) (k : nat) : Z := start l + Z.of_nat k + 1.
(** Block [b] is on the disk and outside the log. *)
Definition home (l : log) (n b : Z) : Prop := 0 ≤ b < n ∧ ¬ log_area l b.

Lemma write_log_loop_ok D blocks tail s tr :
  binv mypid [] D (bio s) → geometry (lg s) (u32 (disksize (bio s))) →
  Forall (home (lg s) (u32 (disksize (bio s)))) blocks → Z.of_nat (tail + length blocks) < size (lg s) →
  (1 + length D < NBUF)%nat →
  ∃ s' tr', write_log_loop mypid tail blocks (Ctx [] tr) s = Ret tt (Ctx [] (tr ++ tr')) s' ∧
    binv mypid [] D (bio s') ∧ lg s' = lg s ∧ disksize (bio s') = disksize (bio s) ∧
    writes tr' = imap (λ k b, (pos (lg s) (tail + k), content (bio s) b)) blocks ∧
    memdisk (bio s') = apply_writes (writes tr') (memdisk (bio s)) ∧
    (∀ m, ¬ log_area (lg s) m → content (bio s') m = content (bio s) m) ∧
    (∀ k b, blocks !! k = Some b → content (bio s') (pos (lg s) (tail + k)) = content (bio s) b) ∧
    (∀ m, m < pos (lg s) tail → content (bio s') m = content (bio s) m).
Proof.
  revert tail s tr. induction blocks as [|b blocks IH]; intros tail s tr Hinv Hg Hh Ht HD.
  { exists s, []. rewrite app_nil_r. split_and!; done. }
  apply Forall_cons in Hh as [[Hb Hba] Hh]. destruct Hg as [Gd Gs Gp Gr Gz]. simpl in Ht.
  cbn [write_log_loop]. erewrite bind_Ret by done. cbv beta. rewrite Gd.
  rewrite (u32_small b) by lia. rewrite (u32_small (start (lg s) + Z.of_nat tail + 1)) by lia.
  destruct (write_log_step D s b (start (lg s) + Z.of_nat tail + 1) tr) as (s1 & t1 & Hc & Hw & Hk).
  { split; try done; [|lia..]. intros ->. apply Hba. unfold log_area. lia. }
  destruct Hc as (I1 & L1 & C1 & M1 & Z1).
  specialize (Hk _ (λ _, write_log_loop mypid (S tail) blocks)). cbv beta in Hk. rewrite Hk. clear Hk.
  destruct (IH (S tail) s1 (tr ++ t1)) as (s2 & t2 & E2 & I2 & L2 & Z2 & W2 & M2 & A2 & P2 & B2).
  { eapply binv_mono; [|exact I1]. intros m. rewrite list_elem_of_filter. tauto. }
  { rewrite L1, Z1. by split. }
  { by rewrite L1, Z1. }
  { rewrite L1. lia. }
  { done. }
  rewrite L1 in *. exists s2, (t1 ++ t2). rewrite E2, app_assoc.
  assert (∀ m, ¬ log_area (lg s) m → content (bio s1) m = content (bio s) m) as Hout.
  { intros m Hm. rewrite C1, decide_False; [done|]. intros ->. apply Hm. unfold log_area. lia. }
  split_and!; try done; try congruence.
  - rewrite writes_app, Hw, W2. simpl. unfold pos at 1. rewrite Nat.add_0_r. f_equal.
    apply imap_ext. intros k b' Hb'. unfold compose. rewrite <- plus_n_Sm. f_equal. apply Hout.
    rewrite Forall_forall in Hh. apply (Hh b'). by eapply list_elem_of_lookup_2.
  - by rewrite writes_app, apply_app, M2, M1, Hw.
  - intros m Hm. by rewrite A2, Hout.
  - intros [|k] b' Hb'; simpl in Hb'.
    + simplify_eq. rewrite Nat.add_0_r, B2 by (unfold pos; lia). rewrite C1, decide_True; done.
    + replace (tail + S k)%nat with (S tail + k)%nat by lia. rewrite (P2 k b' Hb'). apply Hout.
      rewrite Forall_forall in Hh. apply (Hh b'). by eapply list_elem_of_lookup_2.
  - intros m Hm. rewrite B2 by (unfold pos in *; lia). rewrite C1, decide_False; [done|]. unfold pos in *. lia.
Qed.

Lemma install_loop_ok D blocks tail s tr :
  binv mypid [] D (bio s) → geometry (lg s) (u32 (disksize (bio s))) →
  Forall (home (lg s) (u32 (disksize (bio s)))) blocks → Z.of_nat (tail + length blocks) < size (lg s) →
  (1 + length D < NBUF)%nat → NoDup blocks →
  ∃ s' tr', install_loop mypid tail blocks (Ctx [] tr) s = Ret tt (Ctx [] (tr ++ tr')) s' ∧
    binv mypid [] (filter (.∉ blocks) D) (bio s') ∧ lg s' = lg s ∧ disksize (bio s') = disksize (bio s) ∧
    writes tr' = imap (λ k b, (b, content (bio s) (pos (lg s) (tail + k)))) blocks ∧
    memdisk (bio s') = apply_writes (writes tr') (memdisk (bio s)) ∧
    (∀ m, m ∉ blocks → content (bio s') m = content (bio s) m) ∧
    (∀ k b, blocks !! k = Some b → content (bio s') b = content (bio s) (pos (lg s) (tail + k))).
Proof.
  revert D tail s tr. induction blocks as [|b blocks IH]; intros D tail s tr Hinv Hg Hh Ht HD Hnd.
  { exists s, []. rewrite app_nil_r. split_and!; try done.
    eapply binv_mono; [|done]. intros n. rewrite list_elem_of_filter. set_solver. }
  apply Forall_cons in Hh as [[Hb Hba] Hh]. apply NoDup_cons in Hnd as [Hnb Hnd].
  destruct Hg as [Gd Gs Gp Gr Gz]. simpl in Ht.
  cbn [install_loop]. erewrite bind_Ret by done. cbv beta. rewrite Gd.
  rewrite (u32_small b) by lia. rewrite (u32_small (start (lg s) + Z.of_nat tail + 1)) by lia.
  assert (log_area (lg s) (start (lg s) + Z.of_nat tail + 1)) as Hla
    by (unfold log_area; lia).
  destruct (install_step D s (start (lg s) + Z.of_nat tail + 1) b tr) as (s1 & t1 & Hc & Hw & Hk).
  { split; try done; [|lia..]. by intros <-. }
  destruct Hc as (I1 & L1 & C1 & M1 & Z1).
  specialize (Hk _ (λ _, install_loop mypid (S tail) blocks)). cbv beta in Hk. rewrite Hk. clear Hk.
  destruct (IH (filter (.≠ b) D) (S tail) s1 (tr ++ t1)) as (s2 & t2 & E2 & I2 & L2 & Z2 & W2 & M2 & A2 & P2).
  { done. }
  { rewrite L1, Z1. by split. }
  { by rewrite L1, Z1. }
  { rewrite L1. lia. }
  { pose proof (length_filter (.≠ b) D). lia. }
  { done. }
  rewrite L1 in *. exists s2, (t1 ++ t2). rewrite E2, app_assoc.
  assert (∀ k, Z.of_nat (tail + k) + 1 < size (lg s) → content (bio s1) (pos (lg s) (tail + k)) =
    content (bio s) (pos (lg s) (tail + k))) as Hlog.
  { intros k Hk. rewrite C1, decide_False; [done|]. intros <-. apply Hba. unfold log_area, pos. lia. }
  split_and!; try done; try congruence.
  - eapply binv_mono; [|exact I2]. intros n. rewrite !list_elem_of_filter. set_solver.
  - rewrite writes_app, Hw, W2, imap_cons, Nat.add_0_r. cbn [app]. f_equal.
    apply imap_ext. intros k b' Hb'. unfold compose. f_equal.
    apply lookup_lt_Some in Hb'. replace (S tail + k)%nat with (tail + S k)%nat by lia. apply Hlog. lia.
  - by rewrite writes_app, apply_app, M2, M1, Hw.
  - intros m Hm. rewrite A2, C1, decide_False by set_solver. done.
  - intros [|k] b' Hb'; simpl in Hb'.
    + simplify_eq. rewrite Nat.add_0_r, A2 by done. rewrite C1, decide_True; done.
    + replace (tail + S k)%nat with (S tail + k)%nat by lia. rewrite (P2 k b' Hb'). apply lookup_lt_Some in Hb'.
      replace (S tail + k)%nat with (tail + S k)%nat by lia. apply Hlog. lia.
Qed.

Lemma write_head_ok D s tr :
  binv mypid [] D (bio s) → geometry (lg s) (u32 (disksize (bio s))) → (length D < NBUF)%nat →
  let h := put_head (lh_n (lg s)) (logged (lg s)) (content (bio s) (start (lg s))) in
  ∃ s' tr', write_head mypid (Ctx [] tr) s = Ret tt (Ctx [] (tr ++ tr')) s' ∧
    binv mypid [] D (bio s') ∧ lg s' = lg s ∧ disksize (bio s') = disksize (bio s) ∧
    writes tr' = [(start (lg s), h)] ∧ memdisk (bio s') = <[start (lg s) := h]> (memdisk (bio s)) ∧
    ∀ m, content (bio s') m = if decide (m = start (lg s)) then h else content (bio s) m.
Proof.
  intros Hinv [Gd Gs Gp Gr Gz] HD h.
  destruct (bread_ok mypid [] D (bio s) (start (lg s)) tr Hinv ltac:(set_solver) ltac:(lia) ltac:(simpl; lia))
    as (i & b1 & E1 & I1 & (C1 & M1 & Z1) & D1 & _).
  destruct (set_data_ok mypid _ D b1 (start (lg s)) i h tr I1 ltac:(set_solver))
    as (b2 & E2 & I2 & C2 & M2 & Z2 & D2 & O2).
  destruct (bwrite_ok mypid _ D b2 (start (lg s)) i tr I2 ltac:(set_solver) ltac:(rewrite Z2, Z1; lia))
    as (b3 & E3 & I3 & C3 & M3 & Z3 & O3).
  destruct (brelse_ok mypid [] (filter (.≠ start (lg s)) D) b3 (start (lg s)) i
    (tr ++ [EDiskWrite ROOTDEV (start (lg s)) (content b2 (start (lg s)))])) as (b4 & E4 & I4 & (C4 & M4 & Z4) & _).
  { exact I3. }
  { set_solver. }
  { intros _. rewrite C3. unfold disk_at. by rewrite M3, lookup_insert_eq. }
  exists (set_bio b4 s), ([EDiskWrite ROOTDEV (start (lg s)) (content b2 (start (lg s)))] ++ [EWakeup (ChSleeplock (SLbuf i))]).
  assert (content b2 (start (lg s)) = h) as Hh by (by rewrite C2, decide_True).
  split; [|split_and!].
  - unfold write_head. erewrite bind_Ret by done. cbv beta. rewrite Gd, u32_small by lia.
    rewrite (bind_Ret _ _ _ _ _ _ _ (io_Ret _ _ s _ _ _ E1)). erewrite bind_Ret by done. cbv beta.
    change (bio (set_bio b1 s)) with b1. rewrite D1.
    rewrite (bind_Ret _ _ _ _ _ _ _ (io_Ret _ _ (set_bio b1 s) _ _ _ E2)).
    rewrite (bind_Ret _ _ _ _ _ _ _ (io_Ret _ _ (set_bio b2 s) _ _ _ E3)).
    etrans; [apply (io_Ret _ _ (set_bio b3 s) _ _ _ E4)|]. by rewrite <- app_assoc.
  - eapply binv_mono; [|exact I4]. intros m. rewrite list_elem_of_filter. tauto.
  - done.
  - simpl. congruence.
  - simpl. by rewrite Hh.
  - simpl. by rewrite M4, M3, M2, M1, Hh.
  - intros m. simpl. rewrite C4, C3, C2. case_decide; [done|]. by rewrite C1.
Qed.

(** [read_head] takes the header from the disk. *)
Lemma read_head_ok D s tr :
  binv mypid [] D (bio s) → geometry (lg s) (u32 (disksize (bio s))) → (length D < NBUF)%nat →
  start (lg s) ∉ D →
  let d := content (bio s) (start (lg s)) in
  let n := get_head_n d in
  ∃ b' tr', read_head mypid (Ctx [] tr) s = Ret tt (Ctx [] (tr ++ tr'))
      (LS b' (set_head n (map (get_head_block d) (seq 0 (Z.to_nat n)) ++ drop (Z.to_nat n) (lh_block (lg s))) (lg s))) ∧
    binv mypid [] D b' ∧ same (bio s) b' ∧ writes tr' = [].
Proof.
  intros Hinv [Gd Gs Gp Gr Gz] HD Hst d n.
  destruct (bread_ok mypid [] D (bio s) (start (lg s)) tr Hinv ltac:(set_solver) ltac:(lia) ltac:(simpl; lia))
    as (i & b1 & E1 & I1 & S1 & D1 & F1 & _).
  destruct (brelse_ok mypid [] D b1 (start (lg s)) i tr I1) as (b2 & E2 & I2 & S2 & _).
  { set_solver. }
  { intros Hf. destruct S1 as (C1 & M1 & _). rewrite C1. unfold disk_at. rewrite M1. by apply F1. }
  exists b2, [EWakeup (ChSleeplock (SLbuf i))]. split; [|split; [done|split; [by eapply same_trans|done]]].
  unfold read_head. erewrite bind_Ret by done. cbv beta. rewrite Gd, u32_small by lia.
  rewrite (bind_Ret _ _ _ _ _ _ _ (io_Ret _ _ s _ _ _ E1)). erewrite bind_Ret by done. cbv beta zeta.
  change (bio (set_bio b1 s)) with b1. rewrite D1. fold d. fold n.
  erewrite bind_Ret by done. cbv beta. by apply io_Ret.
Qed.

(** A transaction ready to commit: the logged blocks are the dirty ones, on
    the disk outside the log, and the header on the disk is clear. Two buffers
    are left for the copies. *)
Record pending (s : lstate) : Prop := {
  pd_inv : binv mypid [] (logged (lg s)) (bio s);
  pd_geo : geometry (lg s) (u32 (disksize (bio s)));
  pd_home : Forall (home (lg s) (u32 (disksize (bio s)))) (logged (lg s));
  pd_nodup : NoDup (logged (lg s));
  pd_n : lh_n (lg s) = Z.of_nat (length (logged (lg s)));
  pd_some : 0 < lh_n (lg s);
  pd_size : lh_n (lg s) < size (lg s);
  pd_room : (1 + length (logged (lg s)) < NBUF)%nat;
  pd_head : get_head_n (disk_at (start (lg s)) (bio s)) = 0;
  pd_len : length (disk_at (start (lg s)) (bio s)) = BSIZE }.

(** The header a commit writes, and its disk writes in order. *)
Definition commit_head (s : lstate) : block :=
  put_head (lh_n (lg s)) (logged (lg s)) (disk_at (start (lg s)) (bio s)).
Definition log_copies (s : lstate) : list (Z * block) :=
  imap (λ k b, (pos (lg s) k, content (bio s) b)) (logged (lg s)).
Definition home_copies (s : lstate) : list (Z * block) :=
  map (λ b, (b, content (bio s) b)) (logged (lg s)).
Definition commit_writes (s : lstate) : list (Z * block) :=
  log_copies s ++ (start (lg s), commit_head s) ::
  home_copies s ++ [(start (lg s), put_head 0 [] (commit_head s))].

Lemma home_start l n b : geometry l n → home l n b → b ≠ start l.
Proof. intros [_ ? ? ? ?] [_ Hb] ->. apply Hb. unfold log_area. lia. Qed.

Lemma pos_area l k : Z.of_nat k + 1 < size l → log_area l (pos l k).
Proof. intros. unfold log_area, pos. lia. Qed.

Lemma start_area l n : geometry l n → log_area l (start l).
Proof. intros []. unfold log_area. lia. Qed.

Lemma imap_home {A} (f : nat → A) (g : Z → A) bl :
  (∀ k b, bl !! k = Some b → f k = g b) → imap (λ k b, (b, f k)) bl = map (λ b, (b, g b)) bl.
Proof.
  intros H. apply list_eq. intros k. rewrite list_lookup_imap, list_lookup_fmap.
  destruct (bl !! k) as [b|] eqn:E; [|done]. simpl. by rewrite (H k b).
Qed.

Lemma commit_ok s tr :
  pending s →
  ∃ s' tr', commit mypid (Ctx [] tr) s = Ret tt (Ctx [] (tr ++ tr')) s' ∧
    writes tr' = commit_writes s ∧ binv mypid [] [] (bio s') ∧
    lg s' = set_head 0 (lh_block (lg s)) (lg s) ∧ disksize (bio s') = disksize (bio s) ∧
    memdisk (bio s') = apply_writes (commit_writes s) (memdisk (bio s)) ∧
    ∀ m, ¬ log_area (lg s) m → content (bio s') m = content (bio s) m.
Proof.
  intros [Hinv Hg Hh Hnd Hn Hpos Hsize Hroom _ _].
  assert (start (lg s) ∉ logged (lg s)) as Hst.
  { intros Hin. rewrite Forall_forall in Hh. by eapply home_start; [|apply Hh|]. }
  assert ((length (logged (lg s)) < 30)%nat) as Hlt by (unfold NBUF, MAXOPBLOCKS in Hroom; lia).
  unfold commit. erewrite bind_Ret by done. cbv beta. rewrite (proj2 (Z.ltb_lt 0 _) Hpos).
  destruct (write_log_loop_ok (logged (lg s)) (logged (lg s)) 0 s tr Hinv Hg Hh) as (s1 & t1 & E1 & I1 & L1 & Z1 & W1 & M1 & A1 & P1 & B1);
    [lia|lia|].
  unfold write_log. erewrite bind_Ret by (erewrite bind_Ret by done; exact E1). cbv beta.
  destruct (write_head_ok (logged (lg s)) s1 (tr ++ t1)) as (s2 & t2 & E2 & I2 & L2 & Z2 & W2 & M2 & C2);
    [done|by rewrite L1, Z1|lia|]. rewrite L1 in *.
  rewrite (bind_Ret _ _ _ _ _ _ _ E2).
  assert (content (bio s1) (start (lg s)) = disk_at (start (lg s)) (bio s)) as Hhd.
  { rewrite B1 by (unfold pos; lia). by eapply content_clean. }
  rewrite Hhd in *. change (put_head (lh_n (lg s)) (logged (lg s)) (disk_at (start (lg s)) (bio s))) with (commit_head s) in *.
  destruct (install_loop_ok (logged (lg s)) (logged (lg s)) 0 s2 ((tr ++ t1) ++ t2)) as (s3 & t3 & E3 & I3 & L3 & Z3 & W3 & M3 & A3 & P3);
    [done|by rewrite L2, Z2, Z1|by rewrite L2, Z2, Z1|rewrite L2; lia|lia|done|].
  unfold install_trans. erewrite bind_Ret by (erewrite bind_Ret by done; cbv beta; rewrite L2; exact E3). cbv beta.
  erewrite bind_Ret by done. cbv beta. rewrite L2 in L3, P3, W3.
  destruct (write_head_ok [] (set_lg (set_head 0 (lh_block (lg s3)) (lg s3)) s3) (((tr ++ t1) ++ t2) ++ t3))
    as (s4 & t4 & E4 & I4 & L4 & Z4 & W4 & M4 & C4).
  { eapply binv_mono; [|exact I3]. intros n. rewrite list_elem_of_filter. tauto. }
  { simpl. rewrite L3, Z3, Z2, Z1. by destruct Hg. }
  { simpl. lia. }
  cbn [lg set_lg bio] in *. rewrite L3 in *. cbn [start lh_n set_head] in *.
  assert (logged (set_head 0 (lh_block (lg s)) (lg s)) = []) as Hl0 by done. rewrite Hl0 in *.
  assert (content (bio s3) (start (lg s)) = commit_head s) as Hh3 by (by rewrite A3, C2, decide_True).
  rewrite Hh3 in *.
  assert (∀ k b, logged (lg s) !! k = Some b → content (bio s2) (pos (lg s) k) = content (bio s) b) as P2.
  { intros k b Hk. rewrite C2, decide_False by (unfold pos; lia). by apply P1. }
  assert (writes t3 = home_copies s) as HW3 by (rewrite W3; by apply imap_home).
  exists s4, (t1 ++ t2 ++ t3 ++ t4).
  assert (writes (t1 ++ t2 ++ t3 ++ t4) = commit_writes s) as HW by (by rewrite !writes_app, W1, W2, HW3, W4).
  split_and!.
  - by rewrite E4, <- !app_assoc.
  - done.
  - done.
  - done.
  - congruence.
  - rewrite M4, M3, M2, M1, <- HW, !writes_app, !apply_app, W2, W4. done.
  - intros m Hm. assert (m ≠ start (lg s)) as Hms by (intros ->; apply Hm; by eapply start_area).
    rewrite C4, decide_False by done. destruct (decide (m ∈ logged (lg s))) as [[k Hk]%list_elem_of_lookup|Hin].
    + rewrite (P3 k m Hk). by apply P2.
    + rewrite A3, C2, decide_False by done. by apply A1.
Qed.

(** The blocks a header on the disk names. *)
Definition head_blocks (d : block) : list Z :=
  map (get_head_block d) (seq 0 (Z.to_nat (get_head_n d))).

(** Block [m] of a disk. *)
Definition blk (d : gmap Z block) (m : Z) : block := default zero_block (d !! m).

(** What recovery makes of a disk: a block the header names comes from the
    log. *)
Definition recovered (l : log) (d : gmap Z block) (m : Z) : block :=
  match list_find (m =.) (head_blocks (blk d (start l))) with
  | Some (k, _) => blk d (pos l k)
  | None => blk d m
  end.

(** The header on disk [d] of [n] blocks names blocks that can be installed. *)
Record recoverable (l : log) (n : Z) (d : gmap Z block) : Prop := {
  r_home : Forall (home l n) (head_blocks (blk d (start l)));
  r_len : Z.of_nat (length (head_blocks (blk d (start l)))) < size l;
  r_nodup : NoDup (head_blocks (blk d (start l))) }.

(** Recovery's disk writes. *)
Definition recovery_writes (l : log) (d : gmap Z block) : list (Z * block) :=
  let h := blk d (start l) in
  map (λ b, (b, recovered l d b)) (head_blocks h) ++ [(start l, put_head 0 [] h)].

Lemma recovered_in l d k b :
  NoDup (head_blocks (blk d (start l))) → head_blocks (blk d (start l)) !! k = Some b →
  recovered l d b = blk d (pos l k).
Proof.
  intros Hnd Hk. unfold recovered.
  rewrite (proj2 (list_find_Some (b =.) _ k b)); [done|]. split_and!; [done..|].
  intros j y Hj Hlt ->. pose proof (NoDup_lookup _ _ _ _ Hnd Hj Hk). lia.
Qed.

Lemma recovered_out l d m : m ∉ head_blocks (blk d (start l)) → recovered l d m = blk d m.
Proof.
  intros Hm. unfold recovered. rewrite (proj2 (list_find_None (m =.) _)); [done|].
  apply Forall_forall. intros x Hx ->. done.
Qed.

(** Recovery copies every block the header on the disk names, and no other. *)
Lemma recover_ok s tr :
  binv mypid [] [] (bio s) → geometry (lg s) (u32 (disksize (bio s))) →
  recoverable (lg s) (u32 (disksize (bio s))) (memdisk (bio s)) →
  ∃ s' tr', recover_from_log mypid (Ctx [] tr) s = Ret tt (Ctx [] (tr ++ tr')) s' ∧
    binv mypid [] [] (bio s') ∧ writes tr' = recovery_writes (lg s) (memdisk (bio s)) ∧
    ∀ m, m ≠ start (lg s) → blk (memdisk (bio s')) m = recovered (lg s) (memdisk (bio s)) m.
Proof.
  intros Hinv Hg [Hh Hlen Hnd]. set (bl := head_blocks (blk (memdisk (bio s)) (start (lg s)))) in *.
  assert (∀ s m, binv mypid [] [] s → content s m = blk (memdisk s) m) as Hclean.
  { intros s0 m H0. apply (content_clean mypid [] s0 m H0). apply not_elem_of_nil. }
  destruct (read_head_ok [] s tr Hinv Hg ltac:(unfold NBUF, MAXOPBLOCKS; simpl; lia) ltac:(apply not_elem_of_nil))
    as (b1 & t1 & E1 & I1 & (C1 & M1 & Z1) & W1).
  rewrite (Hclean (bio s)) in E1 by done. fold (head_blocks (blk (memdisk (bio s)) (start (lg s)))) in E1.
  fold bl in E1. unfold recover_from_log. rewrite (bind_Ret _ _ _ _ _ _ _ E1).
  match goal with |- context [LS b1 (set_head ?n ?h _)] =>
    set (l1 := set_head n h (lg s)); assert (logged l1 = bl) as Hl1 end.
  { unfold logged. simpl. rewrite take_app_length'; [done|]. unfold bl, head_blocks.
    by rewrite length_map, length_seq. }
  destruct (install_loop_ok [] bl 0 (LS b1 l1) (tr ++ t1)) as (s2 & t2 & E2 & I2 & L2 & Z2 & W2 & _ & A2 & P2);
    [done|simpl; rewrite Z1; by destruct Hg|simpl; by rewrite Z1|done|unfold NBUF, MAXOPBLOCKS; simpl; lia|done|].
  simpl in L2, Z2, A2, P2, W2.
  unfold install_trans. erewrite bind_Ret by (erewrite bind_Ret by done; cbv beta; simpl lg; rewrite Hl1; exact E2).
  cbv beta. erewrite bind_Ret by done. cbv beta.
  destruct (write_head_ok [] (set_lg (set_head 0 (lh_block (lg s2)) (lg s2)) s2) ((tr ++ t1) ++ t2))
    as (s3 & t3 & E3 & I3 & _ & _ & W3 & _ & C3).
  { done. }
  { simpl. rewrite L2, Z2, Z1. by destruct Hg. }
  { unfold NBUF, MAXOPBLOCKS. simpl. lia. }
  cbn [lg set_lg bio start set_head lh_n] in C3, W3. rewrite L2 in C3, W3. cbn [l1 start set_head] in C3, W3.
  assert (∀ k b, bl !! k = Some b → b ≠ start (lg s)) as Hst.
  { intros k b Hk. eapply home_start; [exact Hg|]. rewrite Forall_lookup in Hh. by apply (Hh k). }
  assert (∀ m, m ≠ start (lg s) → blk (memdisk (bio s3)) m = content (bio s2) m) as D3.
  { intros m Hm. rewrite <- Hclean by done. rewrite C3. by rewrite decide_False. }
  exists s3, (t1 ++ t2 ++ t3). split; [by rewrite E3, <- !app_assoc|]. split; [done|]. split.
  - rewrite !writes_app, W1, W2, W3. unfold recovery_writes. fold bl. simpl. f_equal.
    + apply imap_home. intros k b Hk. rewrite C1, Hclean, (recovered_in _ _ k b) by done. done.
    + rewrite A2, C1, Hclean; [done..|]. intros [k Hk]%list_elem_of_lookup. by eapply Hst.
  - intros m Hm. rewrite D3 by done. destruct (decide (m ∈ bl)) as [[k Hk]%list_elem_of_lookup|Hin].
    + rewrite (P2 k m Hk), C1, Hclean, (recovered_in _ _ k m) by done. done.
    + by rewrite A2, C1, Hclean, recovered_out.
Qed.

Lemma readsb_ok D s tr :
  binv mypid [] D (bio s) → 1 < u32 (disksize (bio s)) → (length D < NBUF)%nat →
  ∃ b' tr', readsb mypid ROOTDEV (Ctx [] tr) s =
      Ret (sb_of (content (bio s) 1)) (Ctx [] (tr ++ tr')) (set_bio b' s) ∧
    binv mypid [] D b' ∧ same (bio s) b' ∧ writes tr' = [].
Proof.
  intros Hinv Hn HD.
  destruct (bread_ok mypid [] D (bio s) 1 tr Hinv ltac:(set_solver) Hn ltac:(simpl; lia))
    as (i & b1 & E1 & I1 & S1 & D1 & F1 & _).
  destruct (brelse_ok mypid [] D b1 1 i tr I1) as (b2 & E2 & I2 & S2 & _).
  { set_solver. }
  { intros Hf. destruct S1 as (C1 & M1 & _). rewrite C1. unfold disk_at. rewrite M1. by apply F1. }
  exists b2, [EWakeup (ChSleeplock (SLbuf i))]. split; [|split; [done|split; [by eapply same_trans|done]]].
  unfold readsb. rewrite (bind_Ret _ _ _ _ _ _ _ (io_Ret _ _ s _ _ _ E1)). erewrite bind_Ret by done. cbv beta.
  rewrite (bind_Ret _ _ _ _ _ _ _ (io_Ret _ _ (set_bio b1 s) _ _ _ E2)). by rewrite <- D1.
Qed.

(** A machine that has just booted on the disk [d] of [n] blocks. *)
Definition log0 : log := Log 0 0 0 0 0 0 (replicate 30 0).
Definition boot (d : gmap Z block) (n : Z) : lstate := LS (binit (bcache0 d n)) log0.

Lemma recovered_start l l' d m : start l = start l' → recovered l d m = recovered l' d m.
Proof. intros H. unfold recovered, pos. by rewrite H. Qed.

Lemma home_same l l' n b : start l = start l' → size l = size l' → home l n b → home l' n b.
Proof. intros H1 H2. unfold home, log_area. by rewrite H1, H2. Qed.

Lemma recovery_writes_start l l' d : start l = start l' → recovery_writes l d = recovery_writes l' d.
Proof.
  intros H. unfold recovery_writes. rewrite H. f_equal. apply map_ext. intros b.
  by rewrite (recovered_start l l').
Qed.

(** The disk [d] holds a file system with the log [l]. *)
Record formatted (l : log) (n : Z) (d : gmap Z block) : Prop := {
  f_geo : geometry l (u32 n);
  f_super : 1 < u32 n;
  f_start : sb_logstart (sb_of (blk d 1)) = start l;
  f_size : sb_nlog (sb_of (blk d 1)) = size l;
  f_rec : recoverable l (u32 n) d }.

Lemma initlog_ok l d n tr :
  formatted l n d →
  ∃ s' tr', initlog mypid ROOTDEV (Ctx [] tr) (boot d n) = Ret tt (Ctx [] (tr ++ tr')) s' ∧
    writes tr' = recovery_writes l d ∧ ∀ m, m ≠ start l → blk (memdisk (bio s')) m = recovered l d m.
Proof.
  intros [[Gd Gs Gp Gr Gz] H1 Hsb Hsz [Rh Rl Rn]]. pose proof (boot_ok mypid d n) as Hb.
  destruct (readsb_ok [] (boot d n) tr Hb H1 ltac:(unfold NBUF; simpl; lia))
    as (b1 & t1 & E1 & I1 & (C1 & M1 & Z1) & W1).
  change (bio (boot d n)) with (binit (bcache0 d n)) in *.
  rewrite (content_clean mypid [] _ 1 Hb) in E1 by apply not_elem_of_nil.
  change (disk_at 1 (binit (bcache0 d n))) with (blk d 1) in E1.
  unfold initlog. change (Z.of_nat BSIZE <=? sizeof_logheader) with false. cbn [negb].
  rewrite (bind_Ret _ _ _ _ _ _ _ E1). erewrite bind_Ret by done. cbv beta.
  rewrite Hsb, Hsz, (i32_small (start l)), (i32_small (size l)) by lia. simpl lg. set (l1 := Log _ _ _ _ _ _ _).
  assert (start l = start l1) as Hst by done.
  change (memdisk (binit (bcache0 d n))) with d in M1.
  change (disksize (binit (bcache0 d n))) with n in Z1.
  destruct (recover_ok (LS b1 l1) (tr ++ t1)) as (s2 & t2 & E2 & I2 & W2 & D2); simpl.
  { done. }
  { rewrite Z1. by split. }
  { rewrite Z1, M1. split; [|simpl; lia|done]. eapply Forall_impl; [exact Rh|]. intros b. by apply home_same. }
  simpl in W2, D2. rewrite M1 in W2, D2. exists s2, (t1 ++ t2). split; [|split].
  - by rewrite app_assoc.
  - by rewrite writes_app, W1, W2, (recovery_writes_start l l1).
  - intros m Hm. rewrite D2 by done. by apply recovered_start.
Qed.

(** ** Crashes *)

(** A prefix of two runs of writes, each followed by a header. *)
Lemma prefix_cases {A} (ws1 ws2 l1 l2 : list A) x y :
  ws1 ++ ws2 = l1 ++ x :: l2 ++ [y] →
  (∃ r, l1 = ws1 ++ r) ∨ (∃ t r, ws1 = l1 ++ x :: t ∧ l2 = t ++ r) ∨ ws1 = l1 ++ x :: l2 ++ [y].
Proof.
  intros [(k & -> & Hk)|(k & -> & Hk)]%app_eq_inv; [|by left; exists k].
  destruct k as [|x' k]; simpl in Hk; [left; exists []; by rewrite !app_nil_r|].
  injection Hk as <- Hk. symmetry in Hk. apply app_eq_inv in Hk as [(k' & -> & Hk)|(k' & -> & Hk)].
  - destruct k' as [|y' k']; simpl in Hk.
    + right; left. exists l2, []. by rewrite !app_nil_r.
    + injection Hk as <- Hk. symmetry in Hk. apply app_eq_nil in Hk as [-> ->]. by right; right.
  - right; left. by exists k, k'.
Qed.

Lemma blk_apply_other ws d m : m ∉ ws.*1 → blk (apply_writes ws d) m = blk d m.
Proof. intros H. unfold blk. by rewrite apply_other. Qed.
Lemma blk_apply_in ws d m x : NoDup ws.*1 → (m, x) ∈ ws → blk (apply_writes ws d) m = x.
Proof. intros H1 H2. unfold blk. by rewrite (apply_in _ _ _ x). Qed.
Lemma blk_insert d n x m : blk (<[n := x]> d) m = if decide (m = n) then x else blk d m.
Proof. unfold blk. case_decide; [subst; by rewrite lookup_insert_eq|by rewrite lookup_insert_ne]. Qed.

Lemma head_blocks_zero h : get_head_n h = 0 → head_blocks h = [].
Proof. intros H. unfold head_blocks. by rewrite H. Qed.

Lemma recovered_clear l d m : head_blocks (blk d (start l)) = [] → recovered l d m = blk d m.
Proof. intros H. unfold recovered. by rewrite H. Qed.

Lemma recoverable_clear l n d : geometry l n → head_blocks (blk d (start l)) = [] → recoverable l n d.
Proof. intros [] H. split; rewrite H; [done|simpl; lia|apply NoDup_nil_2]. Qed.

Lemma home_copies_keys s : (home_copies s).*1 = logged (lg s).
Proof. unfold home_copies. rewrite <- list_fmap_compose. by apply list_fmap_id. Qed.

Lemma log_copies_lookup s k b :
  logged (lg s) !! k = Some b → log_copies s !! k = Some (pos (lg s) k, content (bio s) b).
Proof. intros H. unfold log_copies. by rewrite list_lookup_imap, H. Qed.

Lemma log_copies_keys s : (log_copies s).*1 = map (pos (lg s)) (seq 0 (length (logged (lg s)))).
Proof.
  apply list_eq. intros k. unfold log_copies. rewrite !list_lookup_fmap, list_lookup_imap.
  destruct (logged (lg s) !! k) eqn:E; simpl.
  - by rewrite lookup_seq_lt by (by eapply lookup_lt_Some).
  - by rewrite lookup_seq_ge by (by apply lookup_ge_None).
Qed.

Lemma log_copies_nodup s : NoDup (log_copies s).*1.
Proof.
  rewrite log_copies_keys. apply NoDup_fmap_2; [|apply NoDup_seq]. intros i j. unfold pos. lia.
Qed.

Lemma log_copies_area s m :
  pending s → m ∈ (log_copies s).*1 → log_area (lg s) m ∧ m ≠ start (lg s).
Proof.
  intros Hp. rewrite log_copies_keys. intros [k [-> Hk]]%list_elem_of_fmap.
  apply elem_of_seq in Hk. pose proof (pd_size _ Hp). pose proof (pd_n _ Hp). split; [apply pos_area; lia|unfold pos; lia].
Qed.

Lemma commit_head_blocks s : pending s → head_blocks (commit_head s) = logged (lg s).
Proof.
  intros [_ [_ _ _ _ Gz] Hh _ Hn _ _ Hr _ Hl]. unfold head_blocks, commit_head.
  rewrite get_put_head_n, Hn, Nat2Z.id; unfold BSIZE, NBUF in *; [|lia..].
  apply get_put_head_blocks; [lia|]. eapply Forall_impl; [exact Hh|]. intros b [? _]. lia.
Qed.

Lemma pending_home s m : pending s → m ∈ logged (lg s) → m ≠ start (lg s) ∧ ¬ log_area (lg s) m.
Proof.
  intros Hp Hm. pose proof (pd_home _ Hp) as Hh. rewrite Forall_forall in Hh. specialize (Hh m Hm).
  split; [by eapply home_start; [apply Hp|]|apply Hh].
Qed.

(** A crash while the log is written leaves the old disk. *)
Lemma crash_before s ws r :
  pending s → log_copies s = ws ++ r →
  let d := apply_writes ws (memdisk (bio s)) in
  recoverable (lg s) (u32 (disksize (bio s))) d ∧
  ∀ m, ¬ log_area (lg s) m → recovered (lg s) d m = disk_at m (bio s).
Proof.
  intros Hp Hws d.
  assert (∀ m, m ∈ ws.*1 → log_area (lg s) m ∧ m ≠ start (lg s)) as Hk.
  { intros m Hm. apply log_copies_area; [done|]. rewrite Hws. set_solver. }
  assert (head_blocks (blk d (start (lg s))) = []) as Hz.
  { apply head_blocks_zero. unfold d. rewrite blk_apply_other; [apply (pd_head _ Hp)|]. intros Hm%Hk. naive_solver. }
  split; [apply recoverable_clear; [apply Hp|done]|]. intros m Hm. rewrite recovered_clear by done.
  apply blk_apply_other. intros Hin%Hk. naive_solver.
Qed.

(** A crash after the header is written, while the blocks are installed. *)
Lemma crash_during s t r :
  pending s → home_copies s = t ++ r →
  let d := apply_writes (log_copies s ++ (start (lg s), commit_head s) :: t) (memdisk (bio s)) in
  recoverable (lg s) (u32 (disksize (bio s))) d ∧
  ∀ m, ¬ log_area (lg s) m → recovered (lg s) d m = content (bio s) m.
Proof.
  intros Hp Ht d.
  assert (∀ m, m ∈ t.*1 → m ∈ logged (lg s)) as Htk.
  { intros m Hm. rewrite <- home_copies_keys, Ht. set_solver. }
  assert (∀ m, m ∉ t.*1 → blk d m = if decide (m = start (lg s)) then commit_head s
                               else blk (apply_writes (log_copies s) (memdisk (bio s))) m) as Hd.
  { intros m Hm. unfold d. rewrite apply_app. simpl. by rewrite blk_apply_other, blk_insert. }
  assert (head_blocks (blk d (start (lg s))) = logged (lg s)) as Hz.
  { rewrite Hd, decide_True; [by apply commit_head_blocks|done|]. intros Hm%Htk%pending_home; naive_solver. }
  split.
  - split; rewrite Hz; [apply Hp| |apply Hp]. rewrite <- (pd_n _ Hp). apply Hp.
  - intros m Hm. destruct (decide (m ∈ logged (lg s))) as [[k Hk]%list_elem_of_lookup|Hin].
    + rewrite (recovered_in _ _ k m) by (rewrite Hz; first [done|apply Hp]).
      pose proof (lookup_lt_Some _ _ _ Hk). pose proof (pd_n _ Hp). pose proof (pd_size _ Hp).
      assert (log_area (lg s) (pos (lg s) k)) as Hpk by (apply pos_area; lia).
      rewrite Hd, decide_False; [|unfold pos; lia|intros Hm'%Htk%pending_home; naive_solver].
      apply blk_apply_in; [apply log_copies_nodup|]. apply list_elem_of_lookup. exists k. by apply log_copies_lookup.
    + rewrite recovered_out by (by rewrite Hz). rewrite Hd by naive_solver.
      rewrite decide_False by (intros ->; apply Hm; eapply start_area, Hp).
      rewrite (content_clean mypid _ _ _ (pd_inv _ Hp) Hin). apply blk_apply_other.
      intros Hm'%log_copies_area; naive_solver.
Qed.

(** A crash after the commit. *)
Lemma crash_after s :
  pending s →
  let d := apply_writes (commit_writes s) (memdisk (bio s)) in
  recoverable (lg s) (u32 (disksize (bio s))) d ∧
  ∀ m, ¬ log_area (lg s) m → recovered (lg s) d m = content (bio s) m.
Proof.
  intros Hp d.
  assert (d = <[start (lg s) := put_head 0 [] (commit_head s)]>
    (apply_writes (home_copies s) (<[start (lg s) := commit_head s]> (apply_writes (log_copies s) (memdisk (bio s)))))) as Hd.
  { unfold d, commit_writes. rewrite apply_app. simpl. by rewrite apply_app. }
  assert (head_blocks (blk d (start (lg s))) = []) as Hz.
  { rewrite Hd, blk_insert, decide_True by done. apply head_blocks_zero. apply get_put_head_n; [|lia].
    unfold commit_head, put_head. rewrite length_put_blocks, length_put32, (pd_len _ Hp). unfold BSIZE. lia. }
  split; [apply recoverable_clear; [apply Hp|done]|]. intros m Hm. rewrite recovered_clear by done.
  assert (m ≠ start (lg s)) as Hms by (intros ->; apply Hm; eapply start_area, Hp).
  rewrite Hd, blk_insert, decide_False by done.
  destruct (decide (m ∈ logged (lg s))) as [Hin|Hin].
  - apply blk_apply_in; [rewrite home_copies_keys; apply Hp|]. unfold home_copies. set_solver.
  - rewrite blk_apply_other by (by rewrite home_copies_keys). rewrite blk_insert, decide_False by done.
    rewrite (content_clean mypid _ _ _ (pd_inv _ Hp) Hin). apply blk_apply_other.
    intros Hm'%log_copies_area; naive_solver.
Qed.

Lemma commit_crash s ws1 ws2 :
  pending s → commit_writes s = ws1 ++ ws2 →
  let d := apply_writes ws1 (memdisk (bio s)) in
  recoverable (lg s) (u32 (disksize (bio s))) d ∧
  ∀ m, ¬ log_area (lg s) m → recovered (lg s) d m =
    if decide (length (logged (lg s)) < length ws1)%nat then content (bio s) m else disk_at m (bio s).
Proof.
  intros Hp Hws. symmetry in Hws.
  assert (length (log_copies s) = length (logged (lg s))) as Hlen by apply length_imap.
  apply prefix_cases in Hws as [(r & Hr)|[(t & r & -> & Hr)| ->]].
  - destruct (crash_before s ws1 r Hp Hr) as [? H]. split; [done|]. intros m Hm.
    rewrite decide_False; [by apply H|]. rewrite <- Hlen, Hr, length_app. lia.
  - destruct (crash_during s t r Hp Hr) as [? H]. split; [done|]. intros m Hm.
    rewrite decide_True; [by apply H|]. rewrite length_app. simpl. lia.
  - destruct (crash_after s Hp) as [? H]. split; [done|]. intros m Hm.
    rewrite decide_True; [by apply H|]. rewrite length_app. simpl. lia.
Qed.

Lemma commit_writes_keys s m :
  pending s → m ∈ (commit_writes s).*1 → log_area (lg s) m ∨ m ∈ logged (lg s).
Proof.
  intros Hp. unfold commit_writes. rewrite fmap_app, fmap_cons, fmap_app, home_copies_keys. cbn [fmap list_fmap fst].
  rewrite elem_of_app, elem_of_cons, elem_of_app, list_elem_of_singleton.
  intros [Hm|[->|[Hm| ->]]]; [left; by apply (log_copies_area s m)|left; eapply start_area, Hp|by right|left; eapply start_area, Hp].
Qed.

Lemma prefix_last {A} (ws1 ws2 l : list A) y :
  ws1 ++ ws2 = l ++ [y] → (∃ r, l = ws1 ++ r) ∨ ws1 = l ++ [y].
Proof.
  intros [(k & -> & Hk)|(k & -> & _)]%app_eq_inv; [|left; by exists k].
  destruct k as [|y' k]; [left; exists []; by rewrite !app_nil_r|].
  injection Hk as <- Hk. symmetry in Hk. apply app_eq_nil in Hk as [-> ->]. by right.
Qed.

(** A crash during recovery, and recovery again. *)
Lemma restart_crash l n d ws1 ws2 :
  geometry l n → recoverable l n d → recovery_writes l d = ws1 ++ ws2 → length (blk d (start l)) = BSIZE →
  recoverable l n (apply_writes ws1 d) ∧
  ∀ m, ¬ log_area l m → recovered l (apply_writes ws1 d) m = recovered l d m.
Proof.
  intros Hg [Hh Hl Hnd] Hws Hlen. unfold recovery_writes in Hws. set (bl := head_blocks (blk d (start l))) in *.
  assert (∀ m, m ∈ bl → m ≠ start l ∧ ¬ log_area l m) as Hbl.
  { intros m Hm. rewrite Forall_forall in Hh. specialize (Hh m Hm). split; [by eapply home_start|apply Hh]. }
  set (cp := map (λ b, (b, recovered l d b)) bl) in *.
  assert (cp.*1 = bl) as Hcp by (unfold cp; rewrite <- list_fmap_compose; by apply list_fmap_id).
  symmetry in Hws. apply prefix_last in Hws as [(r & Hr)| ->].
  - assert (∀ m, m ∉ bl → blk (apply_writes ws1 d) m = blk d m) as Hd.
    { intros m Hm. apply blk_apply_other. rewrite <- Hcp, Hr in Hm. set_solver. }
    assert (blk (apply_writes ws1 d) (start l) = blk d (start l)) as Hst by (apply Hd; naive_solver).
    split; [split; by rewrite Hst|]. intros m Hm.
    destruct (decide (m ∈ bl)) as [[k Hk]%list_elem_of_lookup|Hin].
    + rewrite !(recovered_in _ _ k m) by (rewrite ?Hst; done). apply Hd. intros [_ []]%Hbl.
      apply pos_area. apply lookup_lt_Some in Hk. lia.
    + rewrite !recovered_out by (by rewrite ?Hst). by apply Hd.
  - rewrite apply_app. simpl.
    assert (head_blocks (blk (<[start l := put_head 0 [] (blk d (start l))]> (apply_writes cp d)) (start l)) = []) as Hz.
    { rewrite blk_insert, decide_True by done. apply head_blocks_zero, get_put_head_n; unfold BSIZE in *; lia. }
    split; [by apply recoverable_clear|]. intros m Hm. rewrite recovered_clear by done.
    rewrite blk_insert, decide_False by (intros ->; apply Hm; by eapply start_area).
    destruct (decide (m ∈ bl)) as [Hin|Hin].
    + apply blk_apply_in; [by rewrite Hcp|]. unfold cp. set_solver.
    + rewrite blk_apply_other by (by rewrite Hcp). by rewrite recovered_out.
Qed.

Lemma recovery_writes_keys l d m :
  m ∈ (recovery_writes l d).*1 → m = start l ∨ m ∈ head_blocks (blk d (start l)).
Proof. unfold recovery_writes. set_solver. Qed.

End Steps.

(** C3: the log makes a transaction atomic. Whatever prefix of a commit's disk
    writes reaches the disk before a crash, the machine that boots on that
    disk completes [initlog], and every block outside the log is then the old
    one if the crash came before the header was written, and the new one if it
    came after. *)
Theorem crash_atomic mypid s tr :
  pending mypid s →
  1 ∉ logged (lg s) → ¬ log_area (lg s) 1 → 1 < u32 (disksize (bio s)) →
  sb_logstart (sb_of (disk_at 1 (bio s))) = start (lg s) →
  sb_nlog (sb_of (disk_at 1 (bio s))) = size (lg s) →
  ∃ s' tr', commit mypid (Ctx [] tr) s = Ret tt (Ctx [] (tr ++ tr')) s' ∧
    ∀ ws1 ws2, writes tr' = ws1 ++ ws2 →
    ∃ s2 c2, initlog mypid ROOTDEV (Ctx [] [])
        (boot (apply_writes ws1 (memdisk (bio s))) (disksize (bio s))) = Ret tt c2 s2 ∧
      ∀ m, ¬ log_area (lg s) m → disk_at m (bio s2) =
        if decide (length (logged (lg s)) < length ws1)%nat then content (bio s) m else disk_at m (bio s).
Proof.
  intros Hp H1l H1a H1 Hsb Hsz. destruct (commit_ok mypid s tr Hp) as (s' & tr' & E & Hw & _).
  exists s', tr'. split; [done|]. intros ws1 ws2 Hws. rewrite Hw in Hws.
  destruct (commit_crash mypid s ws1 ws2 Hp Hws) as [Hr Hd].
  destruct (initlog_ok mypid (lg s) (apply_writes ws1 (memdisk (bio s))) (disksize (bio s)) [])
    as (s2 & t2 & E2 & _ & D2).
  { assert (blk (apply_writes ws1 (memdisk (bio s))) 1 = disk_at 1 (bio s)) as H1d.
    { apply blk_apply_other. intros Hin. destruct (commit_writes_keys mypid s 1 Hp); [|done..]. rewrite Hws. set_solver. }
    split; [apply Hp|done|by rewrite H1d..|done]. }
  exists s2, (Ctx [] ([] ++ t2)). split; [done|]. intros m Hm.
  rewrite <- Hd by done. apply D2. intros ->. apply Hm. eapply start_area, Hp.
Qed.

(** C18: recovery can itself be interrupted. Whatever prefix of recovery's disk
    writes reaches the disk before a second crash, recovering again gives
    every block outside the log the content an uninterrupted recovery gives
    it. *)
Theorem recovery_restartable mypid l n d tr :
  formatted l n d → length (blk d (start l)) = BSIZE →
  1 ∉ head_blocks (blk d (start l)) → start l ≠ 1 →
  ∃ s' tr', initlog mypid ROOTDEV (Ctx [] tr) (boot d n) = Ret tt (Ctx [] (tr ++ tr')) s' ∧
    ∀ ws1 ws2, writes tr' = ws1 ++ ws2 →
    ∃ s2 c2, initlog mypid ROOTDEV (Ctx [] []) (boot (apply_writes ws1 d) n) = Ret tt c2 s2 ∧
      ∀ m, ¬ log_area l m → disk_at m (bio s2) = disk_at m (bio s').
Proof.
  intros Hf Hlen H1 Hs1. destruct (initlog_ok mypid l d n tr Hf) as (s' & tr' & E & Hw & D).
  exists s', tr'. split; [done|]. intros ws1 ws2 Hws. rewrite Hw in Hws.
  destruct (restart_crash l (u32 n) d ws1 ws2 (f_geo _ _ _ Hf) (f_rec _ _ _ Hf) Hws Hlen) as [Hr Hd].
  destruct (initlog_ok mypid l (apply_writes ws1 d) n []) as (s2 & t2 & E2 & _ & D2).
  { assert (blk (apply_writes ws1 d) 1 = blk d 1) as H1d.
    { apply blk_apply_other. intros Hin. destruct (recovery_writes_keys l d 1); [|by eauto..]. rewrite Hws. set_solver. }
    split; [apply Hf|apply Hf|rewrite H1d; apply Hf..|done]. }
  exists s2, (Ctx [] ([] ++ t2)). split; [done|]. intros m Hm.
  assert (m ≠ start l) as Hms by (intros ->; apply Hm; eapply start_area, Hf).
  etrans; [by apply D2|]. rewrite Hd by done. symmetry. by apply D.
Qed.

(** ** The space reserved for an operation *)

Section Space.
Context (mypid : Z).

Local Abbreviation any := (λ _ _ _, True).

Lemma wlp_io {A} (m : M bstate A) (Q : A → ctx → lstate → Prop) c s :
  (∀ a c' b, Q a c' (LS b (lg s))) → wlp (io m) Q any c s.
Proof. intros H. unfold wlp, io, zoom. destruct (m c (bio s)); [apply H|done..]. Qed.

Lemma wlp_install_loop tail blocks (Q : unit → ctx → lstate → Prop) c s :
  (∀ c' b, Q tt c' (LS b (lg s))) → wlp (install_loop mypid tail blocks) Q any c s.
Proof.
  revert tail c s; induction blocks as [|b bl IH]; intros tail c s H; cbn [install_loop].
  { apply wlp_ret. destruct s. apply H. }
  apply wlp_bind, wlp_gets. apply wlp_bind, wlp_io. intros i c1 b1. apply wlp_bind, wlp_io. intros j c2 b2.
  apply wlp_bind, wlp_get. do 4 (apply wlp_bind, wlp_io; intros [] ? ?). by apply IH.
Qed.

Lemma wlp_write_log_loop tail blocks (Q : unit → ctx → lstate → Prop) c s :
  (∀ c' b, Q tt c' (LS b (lg s))) → wlp (write_log_loop mypid tail blocks) Q any c s.
Proof.
  revert tail c s; induction blocks as [|b bl IH]; intros tail c s H; cbn [write_log_loop].
  { apply wlp_ret. destruct s. apply H. }
  apply wlp_bind, wlp_gets. apply wlp_bind, wlp_io. intros i c1 b1. apply wlp_bind, wlp_io. intros j c2 b2.
  apply wlp_bind, wlp_get. do 4 (apply wlp_bind, wlp_io; intros [] ? ?). by apply IH.
Qed.

Lemma wlp_write_head (Q : unit → ctx → lstate → Prop) c s :
  (∀ c' b, Q tt c' (LS b (lg s))) → wlp (write_head mypid) Q any c s.
Proof.
  intros H. unfold write_head. apply wlp_bind, wlp_gets. apply wlp_bind, wlp_io. intros i c1 b1.
  apply wlp_bind, wlp_get. do 2 (apply wlp_bind, wlp_io; intros [] ? ?). apply wlp_io. by intros [].
Qed.

(** A commit that returns has emptied the log, and changed nothing else of
    [log]. *)
Lemma wlp_commit (Q : unit → ctx → lstate → Prop) c s :
  0 ≤ lh_n (lg s) → (∀ c' b, Q tt c' (LS b (set_head 0 (lh_block (lg s)) (lg s)))) → wlp (commit mypid) Q any c s.
Proof.
  intros Hn H. unfold commit. apply wlp_bind, wlp_gets. destruct (Z.ltb_spec 0 (lh_n (lg s))).
  - apply wlp_bind. unfold write_log. apply wlp_bind, wlp_gets. apply wlp_write_log_loop. intros c1 b1.
    apply wlp_bind, wlp_write_head. intros c2 b2. apply wlp_bind. unfold install_trans. apply wlp_bind, wlp_gets.
    apply wlp_install_loop. intros c3 b3. apply wlp_bind, wlp_modify, wlp_write_head. intros c4 b4. apply H.
  - apply wlp_ret. replace s with (LS (bio s) (set_head 0 (lh_block (lg s)) (lg s))); [apply H|].
    destruct s as [b []]. unfold set_head. simpl in *. do 2 f_equal. lia.
Qed.

(** File system calls around the log: [ops] are the blocks each running call
    may still write. A call that sleeps runs its [begin_op] again. *)
Inductive txn_step : lstate * list nat → lstate * list nat → Prop :=
  | txn_begin s ops tr c' s' :
      begin_op (Ctx [] tr) s = Ret tt c' s' → txn_step (s, ops) (s', Z.to_nat MAXOPBLOCKS :: ops)
  | txn_write s ops i k b tr c' s' :
      ops !! i = Some (S k) → log_write b (Ctx [] tr) s = Ret tt c' s' →
      txn_step (s, ops) (s', <[i := k]> ops)
  | txn_end s ops i tr c' s' :
      (i < length ops)%nat → end_op mypid (Ctx [] tr) s = Ret tt c' s' →
      txn_step (s, ops) (s', take i ops ++ drop (S i) ops)
  | txn_io s ops b : txn_step (s, ops) (set_bio b s, ops).

Record tinv (sz : Z) (x : lstate * list nat) : Prop := {
  ti_size : size (lg x.1) = sz;
  ti_comm : committing (lg x.1) = 0;
  ti_out : outstanding (lg x.1) = Z.of_nat (length x.2);
  ti_pos : 0 ≤ lh_n (lg x.1);
  ti_room : lh_n (lg x.1) + Z.of_nat (sum_list x.2) ≤ LOGSIZE;
  ti_max : Forall (λ k, (k <= 10)%nat) x.2 }.

Lemma sum_max ops : Forall (λ k, (k <= 10)%nat) ops → (sum_list ops ≤ 10 * length ops)%nat.
Proof. induction 1; simpl; [lia|]. lia. Qed.

Lemma sum_use ops i k : ops !! i = Some (S k) → sum_list ops = S (sum_list (<[i := k]> ops)).
Proof.
  revert i; induction ops as [|x ops IH]; intros [|i] H; simpl in *; [done|done|by simplify_eq|].
  rewrite (IH i H). lia.
Qed.

Lemma sum_remove ops i : (sum_list (take i ops ++ drop (S i) ops) ≤ sum_list ops)%nat.
Proof.
  revert i; induction ops as [|x ops IH]; intros [|i]; simpl; [lia|lia|rewrite drop_0; lia|].
  specialize (IH i). simpl in IH. lia.
Qed.

Lemma wlp_begin_op (Q : unit → ctx → lstate → Prop) c s :
  (committing (lg s) = 0 → lh_n (lg s) + (outstanding (lg s) + 1) * MAXOPBLOCKS ≤ LOGSIZE →
   ∀ c', Q tt c' (set_lg (set_outstanding (outstanding (lg s) + 1) (lg s)) s)) →
  wlp begin_op Q any c s.
Proof.
  intros H. unfold begin_op. apply wlp_bind, wlp_acquire. apply wlp_bind, wlp_get. cbv zeta.
  destruct (Z.eqb_spec (committing (lg s)) 0); cbn [negb]; [|unfold wlp, sleep_on; by destruct (holding _ _)].
  destruct (Z.ltb_spec LOGSIZE (lh_n (lg s) + (outstanding (lg s) + 1) * MAXOPBLOCKS));
    [unfold wlp, sleep_on; by destruct (holding _ _)|].
  apply wlp_bind, wlp_modify, wlp_release. by apply H.
Qed.

Lemma wlp_log_write i (Q : unit → ctx → lstate → Prop) c s :
  (∀ c' b n h, lh_n (lg s) ≤ n ≤ lh_n (lg s) + 1 → Q tt c' (LS b (set_head n h (lg s)))) →
  wlp (log_write i) Q any c s.
Proof.
  intros H. unfold log_write. apply wlp_bind, wlp_get. cbv zeta.
  destruct (_ || _)%bool; [apply wlp_panic|]. destruct (_ <? 1); [apply wlp_panic|].
  apply wlp_bind, wlp_acquire. apply wlp_bind, wlp_get. cbv zeta. apply wlp_bind, wlp_modify.
  apply wlp_bind, wlp_io. intros [] c1 b1. apply wlp_release. intros c2. apply H. case_match; lia.
Qed.

Lemma wlp_end_op (Q : unit → ctx → lstate → Prop) c s :
  committing (lg s) = 0 → 0 ≤ lh_n (lg s) →
  (∀ c' b n h, (n = 0 ∨ n = lh_n (lg s)) →
     Q tt c' (LS b (set_head n h (set_outstanding (outstanding (lg s) - 1) (lg s))))) →
  wlp (end_op mypid) Q any c s.
Proof.
  intros Hc Hn H. unfold end_op. apply wlp_bind, wlp_acquire. apply wlp_bind, wlp_modify. apply wlp_bind, wlp_get.
  simpl. rewrite Hc. cbn [Z.eqb negb]. destruct (outstanding (lg s) - 1 =? 0).
  - apply wlp_bind, wlp_modify. apply wlp_bind, wlp_release. intros c1. apply wlp_bind, wlp_commit; [done|].
    intros c2 b2. apply wlp_bind, wlp_acquire. apply wlp_bind, wlp_modify. apply wlp_bind, wlp_emit. intros c3.
    apply wlp_release. intros c4. specialize (H c4 b2 0 (lh_block (lg s)) (or_introl eq_refl)).
    destruct s as [b []]. simpl in *. unfold set_lg, set_head, set_outstanding, set_committing in *. simpl in *.
    by rewrite Hc in H.
  - apply wlp_bind, wlp_emit. intros c1. apply wlp_bind, wlp_release. intros c2. apply wlp_ret.
    specialize (H c2 (bio s) (lh_n (lg s)) (lh_block (lg s)) (or_intror eq_refl)). by destruct s as [b []].
Qed.

Lemma txn_step_tinv sz x y : txn_step x y → tinv sz x → tinv sz y.
Proof.
  intros Hs [T1 T2 T3 T4 T5 T6]. destruct Hs as [s ops tr c' s' E|s ops i k b tr c' s' Hi E|s ops i tr c' s' Hi E|s ops b];
    cbn [fst snd] in *.
  - refine (wlp_Ret _ _ _ _ _ _ _ _ (wlp_begin_op (λ _ _ s', tinv sz (s', _)) _ _ _) E).
    intros _ Hr c1. pose proof (sum_max _ T6).
    split; simpl; unfold LOGSIZE, MAXOPBLOCKS in *; [done|done|lia|done|lia|]. by constructor; [lia|].
  - refine (wlp_Ret _ _ _ _ _ _ _ _ (wlp_log_write b (λ _ _ s', tinv sz (s', _)) _ _ _) E).
    intros c1 b1 n h Hn. pose proof (sum_use _ _ _ Hi). split; simpl; [done|done| |lia|lia|].
    + by rewrite length_insert.
    + apply Forall_insert; [done|]. rewrite Forall_lookup in T6. specialize (T6 _ _ Hi). simpl in T6. lia.
  - refine (wlp_Ret _ _ _ _ _ _ _ _ (wlp_end_op (λ _ _ s', tinv sz (s', _)) _ _ _ _ _) E); [done..|].
    intros c1 b1 n h Hn. pose proof (sum_remove ops i).
    split; simpl; [done|done| |lia|lia|by apply Forall_app; split; [apply Forall_take|apply Forall_drop]].
    rewrite length_app, length_take, length_drop. lia.
  - by split.
Qed.
End Space.

(** The log as [initlog] leaves it, with no operation running. *)
Definition idle (sz : Z) (s : lstate) : Prop :=
  size (lg s) = sz ∧ outstanding (lg s) = 0 ∧ committing (lg s) = 0 ∧ lh_n (lg s) = 0.

(** C17: the space [begin_op] reserves is enough. In every interleaving of file
    system calls that write at most [MAXOPBLOCKS] blocks each, on a log with
    room for [LOGSIZE] blocks and its header, a call that has not used up its
    blocks can log one more: [log_write] returns. *)
Theorem log_space mypid sz s0 s ops i k b tr :
  idle sz s0 → LOGSIZE < sz → rtc (txn_step mypid) (s0, []) (s, ops) → ops !! i = Some (S k) →
  ∃ c' s', log_write b (Ctx [] tr) s = Ret tt c' s'.
Proof.
  intros (I1 & I2 & I3 & I4) Hsz Hr Hi.
  assert (tinv sz (s, ops)) as [T1 T2 T3 T4 T5 T6].
  { remember (s0, []) as x eqn:Hx. assert (tinv sz x) as Hinv.
    { subst x. split; simpl; try done; [lia|]. rewrite I4. unfold LOGSIZE, MAXOPBLOCKS. lia. }
    clear Hx. induction Hr; [done|]. by eapply IHHr, txn_step_tinv. }
  simpl in *. pose proof (sum_use _ _ _ Hi). apply lookup_lt_Some in Hi.
  unfold log_write. erewrite bind_Ret by done. cbv beta zeta.
  rewrite (proj2 (Z.leb_gt LOGSIZE _)), (proj2 (Z.leb_gt (size (lg s) - 1) _)) by lia. cbn [orb].
  rewrite (proj2 (Z.ltb_ge _ 1)) by lia.
  eexists _, _. done.
Qed.

(** ** A log on a small disk *)

Module Sample.
(** 1000 blocks, with the log in blocks 2 to 31 as mkfs lays it out. *)
Definition super : block := put32 12 30 (put32 16 2 zero_block).
Definition disk : gmap Z block := {[ 1 := super ]}.
Definition sevens : block := replicate BSIZE 7.
(** Block 100 has been logged by an operation that has ended. *)
Definition state : lstate :=
  LS (BS (<[0%nat := Buf 6 ROOTDEV 100 (Sleeplock.SL 0 0) 0 sevens]> (replicate NBUF buf0))
         (0%nat :: reverse (seq 1 29)) disk 1000)
     (Log 2 30 0 0 ROOTDEV 1 (100 :: replicate 29 0)).

Lemma state_reached :
  (begin_op;; b ← io (bread 5 ROOTDEV 100); io (upd_buf b (set_bdata sevens));; log_write b;;
   io (brelse 5 b);; upd_log (set_outstanding 0)) (Ctx [] [])
    (LS (binit (bcache0 disk 1000)) (Log 2 30 0 0 ROOTDEV 0 (replicate 30 0))) =
  Ret tt (Ctx [] [EWakeup (ChSleeplock (SLbuf 0))]) state.
Proof. vm_compute. reflexivity. Qed.

Lemma state_pending : pending 5 state.
Proof.
  split; try done; try (vm_compute; done).
  - assert (∀ i b, bufs (bio state) !! i = Some b →
      (i = 0%nat ∧ b = Buf 6 ROOTDEV 100 (Sleeplock.SL 0 0) 0 sevens) ∨ (i ≠ 0%nat ∧ b = buf0)) as H.
    { intros i b. unfold state. cbn [bio bufs]. rewrite list_lookup_insert_Some. intros [(<- & <- & _)|[Hne Hi]]; [by left|].
      right. split; [done|]. apply list_elem_of_lookup_2 in Hi. apply elem_of_replicate in Hi. by destruct Hi. }
    split.
    + done.
    + change (0%nat :: reverse (seq 1 29) ≡ₚ 0%nat :: seq 1 29). constructor. apply reverse_Permutation.
    + intros i j bi bj [[-> ->]|[_ ->]]%H [[-> ->]|[_ ->]]%H; done.
    + intros i b [[-> ->]|[_ ->]]%H; [left; split; [done|right; split; [done|set_solver]]|by right].
    + intros i b [[-> ->]|[_ ->]]%H _; done.
    + set_solver.
    + intros i b [[-> ->]|[_ ->]]%H _; done.
  - constructor; [|constructor]. split; [vm_compute; done|]. unfold log_area. simpl. lia.
  - constructor; [set_solver|constructor].
  - vm_compute. lia.
Qed.

(** A disk on which a crash has left a committed transaction: block 100 is in
    the log and not yet in its place. *)
Definition crashed : gmap Z block := <[2 := put_head 1 [100] zero_block]> (<[3 := sevens]> disk).

Lemma crashed_formatted : formatted (lg state) 1000 crashed.
Proof.
  assert (head_blocks (blk crashed (start (lg state))) = [100]) as Hh by (vm_compute; reflexivity).
  split; [by split; vm_compute|done|vm_compute; reflexivity..|]. split; rewrite Hh.
  - constructor; [|constructor]. split; [vm_compute; done|]. unfold log_area. simpl. lia.
  - done.
  - apply NoDup_singleton.
Qed.

(** Three operations log [n] blocks between them, each at most its ten. *)
Definition three_ops (n : nat) : M lstate unit :=
  begin_op;; begin_op;; begin_op;;
  foldr (λ k m, b ← io (bread 5 ROOTDEV (100 + Z.of_nat k)); log_write b;; io (brelse 5 b);; m)
        (mret tt) (seq 0 n).
(** The log of [mkfs]: [nlog] is [LOGSIZE], and one of its blocks is the
    header. *)
Definition fresh : lstate :=
  LS (binit (bcache0 disk 1000)) (Log 2 LOGSIZE 0 0 ROOTDEV 0 (replicate 30 0)).
End Sample.

Lemma recovery_restartable_witness :
  ∃ s' tr', initlog 5 ROOTDEV (Ctx [] []) (boot Sample.crashed 1000) = Ret tt (Ctx [] tr') s' ∧
    ∀ ws1 ws2, writes tr' = ws1 ++ ws2 →
    ∃ s2 c2, initlog 5 ROOTDEV (Ctx [] []) (boot (apply_writes ws1 Sample.crashed) 1000) = Ret tt c2 s2 ∧
      disk_at 100 (bio s2) = disk_at 100 (bio s').
Proof.
  destruct (recovery_restartable 5 (lg Sample.state) 1000 Sample.crashed [] Sample.crashed_formatted)
    as (s' & tr' & E & H).
  - reflexivity.
  - change (head_blocks (blk Sample.crashed (start (lg Sample.state)))) with [100]. set_solver.
  - done.
  - exists s', tr'. split; [exact E|]. intros ws1 ws2 Hws.
    destruct (H ws1 ws2 Hws) as (s2 & c2 & E2 & H2). exists s2, c2. split; [exact E2|].
    apply (H2 100). unfold log_area. simpl. lia.
Defined.

Lemma log_space_witness :
  ∃ c' s', log_write 3 (Ctx [] []) (LS (bcache0 ∅ 1000) (Log 2 31 1 0 ROOTDEV 0 [])) = Ret tt c' s'.
Proof.
  apply (log_space 5 31 (LS (bcache0 ∅ 1000) (Log 2 31 0 0 ROOTDEV 0 [])) _ [10%nat] 0 9).
  - done.
  - done.
  - apply rtc_once. by apply (txn_begin 5 _ [] [] (Ctx [] [])).
  - done.
Defined.

(** on the disk [mkfs] makes, the reservation is one block short. The log
    has [LOGSIZE] blocks of which one is the header; three operations that log
    ten blocks each are all admitted by [begin_op], log 29 blocks, and panic on
    the last one. *)
Theorem log_space_one_short :
  (∃ c s, Sample.three_ops 29 (Ctx [] []) Sample.fresh = Ret tt c s ∧
     outstanding (lg s) = 3 ∧ lh_n (lg s) = LOGSIZE - 1) ∧
  Sample.three_ops 30 (Ctx [] []) Sample.fresh = Panic "too big a transaction".
Proof.
  split; [|vm_compute; reflexivity].
  eexists _, _. split; [vm_compute; reflexivity|]. by vm_compute.
Qed.

Lemma crash_atomic_witness :
  ∃ s' tr', commit 5 (Ctx [] []) Sample.state = Ret tt (Ctx [] tr') s' ∧
    ∀ ws1 ws2, writes tr' = ws1 ++ ws2 →
    ∃ s2 c2, initlog 5 ROOTDEV (Ctx [] [])
        (boot (apply_writes ws1 Sample.disk) 1000) = Ret tt c2 s2 ∧
      disk_at 100 (bio s2) = if decide (1 < length ws1)%nat then Sample.sevens else zero_block.
Proof.
  destruct (crash_atomic 5 Sample.state [] Sample.state_pending) as (s' & tr' & E & H).
  - vm_compute. set_solver.
  - unfold log_area. simpl. lia.
  - done.
  - reflexivity.
  - reflexivity.
  - exists s', tr'. split; [exact E|]. intros ws1 ws2 Hws.
    destruct (H ws1 ws2 Hws) as (s2 & c2 & E2 & H2). exists s2, c2. split; [exact E2|].
    apply (H2 100). unfold log_area. simpl. lia.
Defined.
