(* ===== verification/Txn.v ===== *)
(** * Transactions

    What a file system call sees of the cache and the log between [begin_op]
    and [end_op]: every block has a content, which reads return and which
    [log_write] changes; the call holds the buffers [L], and has [n] blocks of
    log space left.  The lemmas are the contract of [bread], [log_write] and
    [brelse] that [fs.c] relies on, and [txn_pending] ties the end of the call
    to the commit of [Log]. *)

From S2P Require Import Prelude Locks Bytes Bio Log.

(** A disk's contents with block [n] replaced. *)
Definition upd (V : Z → block) (n : Z) (x : block) : Z → block :=
  λ m, if decide (m = n) then x else V m.

Lemma upd_eq V n x : upd V n x n = x.
Proof. unfold upd. by rewrite decide_True. Qed.
Lemma upd_ne V n x m : m ≠ n → upd V n x m = V m.
Proof. intros. unfold upd. by rewrite decide_False. Qed.

(** Where the log is, the size of the disk, the disk as the transaction found
    it, and how many calls share the transaction. *)
Record layout := Layout {
  l_start : Z; l_size : Z; l_disk : Z; l_mem : gmap Z block; l_out : Z }.
(** Block [m] is on the disk, and not the boot block, the superblock or a block
    of the log. *)
Definition usable (G : layout) (m : Z) : Prop :=
  2 ≤ m < l_disk G ∧ ¬ (l_start G ≤ m < l_start G + l_size G).

(** ** What [log_write] does to the header *)

Lemma find_block_found m k l :
  Forall (λ b, 0 ≤ b < 4294967296) l → m ∈ l →
  ∃ j, find_block m k l = (k + j)%nat ∧ l !! j = Some m.
Proof.
  intros Hl. revert k; induction Hl as [|b l Hb Hl IH]; intros k Hm; [set_solver|]. simpl.
  rewrite u32_small by lia. destruct (Z.eqb_spec b m) as [->|Hne].
  - exists 0%nat. split; [lia|done].
  - apply elem_of_cons in Hm as [->|Hm]; [done|]. destruct (IH (S k) Hm) as (j & -> & Hj).
    exists (S j). split; [lia|done].
Qed.

Lemma find_block_absent m k l :
  Forall (λ b, 0 ≤ b < 4294967296) l → m ∉ l → find_block m k l = (k + length l)%nat.
Proof.
  intros Hl. revert k; induction Hl as [|b l Hb Hl IH]; intros k Hm; simpl; [lia|].
  rewrite u32_small by lia. destruct (Z.eqb_spec b m) as [->|Hne]; [set_solver|].
  rewrite IH by set_solver. lia.
Qed.

(** The header with block [m] recorded. *)
Definition record_block (m : Z) (l : log) : log :=
  let i := find_block m 0 (logged l) in
  set_head (if Z.of_nat i =? lh_n l then lh_n l + 1 else lh_n l) (<[i := i32 m]> (lh_block l)) l.

Lemma record_block_ok m l :
  lh_n l = Z.of_nat (length (logged l)) → length (lh_block l) = 30%nat → (length (logged l) < 30)%nat →
  Forall (λ b, 0 ≤ b < 2147483648) (logged l) → 0 ≤ m < 2147483648 →
  lh_n (record_block m l) = Z.of_nat (length (logged (record_block m l))) ∧
  length (lh_block (record_block m l)) = 30%nat ∧
  (m ∈ logged l ∧ logged (record_block m l) = logged l ∨
   m ∉ logged l ∧ logged (record_block m l) = logged l ++ [m]).
Proof.
  intros Hn Hb Hlt Hl Hm.
  assert (Forall (λ b, 0 ≤ b < 4294967296) (logged l)) as Hu by (eapply Forall_impl; [exact Hl|]; simpl; lia).
  unfold record_block. rewrite i32_small by lia. destruct (decide (m ∈ logged l)) as [Hin|Hin].
  - destruct (find_block_found m 0 _ Hu Hin) as (j & -> & Hj). simpl.
    pose proof (lookup_lt_Some _ _ _ Hj). rewrite (proj2 (Z.eqb_neq _ _)) by lia.
    assert (<[j := m]> (lh_block l) = lh_block l) as ->.
    { apply list_insert_id. unfold logged in Hj. by apply lookup_take_Some in Hj as [? _]. }
    split; [done|]. split; [done|]. by left.
  - rewrite (find_block_absent m 0 _ Hu Hin). simpl. rewrite (proj2 (Z.eqb_eq _ _)) by lia.
    assert (logged (set_head (lh_n l + 1) (<[length (logged l) := m]> (lh_block l)) l) = logged l ++ [m]) as Hlog.
    { unfold logged at 1. cbn [lh_n lh_block set_head]. rewrite Hn.
      replace (Z.to_nat (Z.of_nat (length (logged l)) + 1)) with (S (length (logged l))) by lia.
      rewrite (take_S_r _ _ m) by (apply list_lookup_insert_eq; lia). f_equal.
      rewrite take_insert_ge by lia. unfold logged. by rewrite Hn, Nat2Z.id, length_take, Nat.min_l by lia. }
    split; [|split].
    + simpl. rewrite Hlog, length_app. simpl. lia.
    + by rewrite length_insert.
    + right. done.
Qed.

Section Txn.
Context (mypid : Z) (G : layout).

(** [n] blocks may still be logged, [L] are the held blocks with their buffers,
    and [V] is the content of every block. *)
Record txn (n : nat) (L : list (Z * nat)) (V : Z → block) (s : lstate) : Prop := {
  x_inv : binv mypid L (logged (lg s)) (bio s);
  x_start : start (lg s) = l_start G;
  x_logsize : size (lg s) = l_size G;
  x_disk : u32 (disksize (bio s)) = l_disk G;
  x_geo : geometry (lg s) (l_disk G);
  x_home : Forall (usable G) (logged (lg s));
  x_nodup : NoDup (logged (lg s));
  x_n : lh_n (lg s) = Z.of_nat (length (logged (lg s)));
  x_blocks : length (lh_block (lg s)) = 30%nat;
  x_out : outstanding (lg s) = l_out G ∧ 1 ≤ l_out G;
  x_comm : committing (lg s) = 0;
  x_mem : memdisk (bio s) = l_mem G;
  x_view m : content (bio s) m = V m;
  x_block m : length (V m) = BSIZE ∧ bytes (V m);
  x_clean m i : (m, i) ∈ L → flags (buf_at i (bio s)) = 2 → content (bio s) m = disk_at m (bio s);
  x_keys : NoDup L.*1;
  x_room : (length (logged (lg s)) + n + 3 ≤ NBUF)%nat;
  x_size : Z.of_nat (length (logged (lg s)) + n) < l_size G;
  x_head : get_head_n (disk_at (l_start G) (bio s)) = 0 }.

Lemma txn_fewer n n' L V s : (n' ≤ n)%nat → txn n L V s → txn n' L V s.
Proof. intros ? []. split; try done; lia. Qed.

Lemma txn_view n L V V' s : (∀ m, V m = V' m) → txn n L V s → txn n L V' s.
Proof. intros H []. split; try done; intros m; by rewrite <- H. Qed.

Lemma usable_home n L V s m : txn n L V s → usable G m → home (lg s) (l_disk G) m.
Proof. intros T [H1 H2]. split; [lia|]. unfold log_area. by rewrite (x_start _ _ _ _ T), (x_logsize _ _ _ _ T). Qed.

(** A held block is a buffer with its content. *)
Lemma txn_data n L V s m i : txn n L V s → (m, i) ∈ L → bdata (buf_at i (bio s)) = V m.
Proof.
  intros T Hin. destruct (held_buf mypid _ _ _ _ _ (x_inv _ _ _ _ T) Hin) as (_ & _ & _ & _ & _ & _ & Hc).
  by rewrite <- (x_view _ _ _ _ T m), Hc.
Qed.

Lemma txn_bread n L V s m :
  txn n L V s → m ∉ L.*1 → m < l_disk G → (length L ≤ 2)%nat →
  tot (io (bread mypid ROOTDEV m)) (λ i s', txn n ((m, i) :: L) V s') s.
Proof.
  intros T Hm Hd HL. apply tot_zoom. intros tr.
  destruct (bread_ok mypid L (logged (lg s)) (bio s) m tr) as (i & b' & E & I' & (C & M & Z) & D & F & O);
    [apply T|done|by rewrite (x_disk _ _ _ _ T)|pose proof (x_room _ _ _ _ T); lia|].
  exists i, tr, b'. split; [done|]. destruct T. split; simpl; try done.
  - by rewrite Z.
  - congruence.
  - intros k. by rewrite C.
  - intros k j [[= -> ->]|Hin]%elem_of_cons.
    + intros Hf. rewrite C. unfold disk_at. rewrite M. by apply F.
    + rewrite (O k j Hin). intros Hf. rewrite C. unfold disk_at. rewrite M. by apply (x_clean0 k j).
  - by constructor.
  - unfold disk_at in *. by rewrite M.
Qed.

Lemma txn_brelse n L V s m i :
  txn n ((m, i) :: L) V s → tot (io (brelse mypid i)) (λ _ s', txn n L V s') s.
Proof.
  intros T. apply tot_zoom. intros tr. pose proof (x_keys _ _ _ _ T) as Hk. apply NoDup_cons in Hk as [Hm Hk].
  destruct (brelse_ok mypid L (logged (lg s)) (bio s) m i tr) as (b' & E & I' & (C & M & Z) & O);
    [apply T|done|apply (x_clean _ _ _ _ T); set_solver|].
  eexists tt, _, b'. split; [exact E|]. destruct T. split; simpl; try done.
  - by rewrite Z.
  - congruence.
  - intros k. by rewrite C.
  - intros k j Hin. rewrite (O k j Hin). intros Hf. rewrite C. unfold disk_at. rewrite M.
    apply (x_clean0 k j); [set_solver|done].
  - unfold disk_at in *. by rewrite M.
Qed.

(** Marking a held buffer dirty. *)
Lemma dirty_ok L D s n i :
  binv mypid L D s → (n, i) ∈ L → n ∈ D →
  let s' := with_buf i (set_flags 6 (buf_at i s)) s in
  set_bufs (alter (λ b, set_flags (Z.lor (flags b) B_DIRTY) b) i (bufs s)) s = s' ∧ binv mypid L D s' ∧
  (∀ m, content s' m = content s m) ∧ ∀ j, buf_at j s' = if decide (i = j) then set_flags 6 (buf_at i s) else buf_at j s.
Proof.
  intros Hinv Hin HD. destruct (held_buf mypid L D s n i Hinv Hin) as (Hb & Hd & Hn & Hl & Hr & Hf & _).
  pose proof (lookup_lt_Some _ _ _ Hb) as Hlt. intros s'.
  assert (Z.lor (flags (buf_at i s)) B_DIRTY = 6) as Hf6 by (by destruct Hf as [->|[-> _]]).
  split; [by rewrite (alter_with _ _ _ _ Hb), Hf6|]. split.
  - eapply binv_keep; try done. by right.
  - split; [|intros j; by apply buf_at_with]. intros m. by apply (same_with s i).
Qed.

(** A block is held in one buffer. *)
Lemma held_inj L D s n i j : binv mypid L D s → (n, i) ∈ L → (n, j) ∈ L → i = j.
Proof.
  intros Hinv Hi Hj. destruct (held_buf mypid L D s n i Hinv Hi) as (Hbi & Hdi & Hni & _).
  destruct (held_buf mypid L D s n j Hinv Hj) as (Hbj & Hdj & Hnj & _).
  by eapply (b_uniq _ _ _ _ Hinv i j); [done|done|done|done|congruence].
Qed.

(** Changing a held block and logging it takes one block of log space. *)
Lemma txn_write n L V s m i (f : block → block) :
  txn (S n) L V s → (m, i) ∈ L → usable G m → length (f (V m)) = BSIZE → bytes (f (V m)) →
  tot (io (upd_buf i (λ b, set_bdata (f (bdata b)) b));; log_write i)
      (λ _ s', txn n L (upd V m (f (V m))) s') s.
Proof.
  intros T Hin Hu Hlen Hby. apply tot_bind, tot_zoom. intros tr.
  set (D := logged (lg s)). set (D' := logged (record_block m (lg s))).
  destruct (record_block_ok m (lg s)) as (Rn & Rl & Rd).
  { apply T. } { apply T. } { pose proof (x_room _ _ _ _ T). unfold NBUF in *. lia. }
  { eapply Forall_impl; [apply T|]. intros b [? _]. pose proof (g_disk _ _ (x_geo _ _ _ _ T)). lia. }
  { destruct Hu as [? _]. pose proof (g_disk _ _ (x_geo _ _ _ _ T)). lia. }
  assert (∀ k, k ∈ D → k ∈ D') as HDD by (intros k' Hk'; unfold D'; destruct Rd as [[_ ->]|[_ ->]]; set_solver).
  assert (m ∈ D') as HmD by (unfold D'; destruct Rd as [[? ->]|[_ ->]]; set_solver).
  destruct (set_data_ok mypid L D (bio s) m i (f (V m)) tr (x_inv _ _ _ _ T) Hin) as (b1 & E1 & I1 & C1 & M1 & Z1 & D1 & O1).
  exists tt, tr, b1. split.
  { rewrite <- E1. unfold upd_buf, modify. destruct (held_buf mypid _ _ _ _ _ (x_inv _ _ _ _ T) Hin) as (Hb & _).
    by rewrite !(alter_with _ _ _ _ Hb), (txn_data _ _ _ _ _ _ T Hin). }
  destruct (dirty_ok L D' b1 m i (binv_mono mypid _ _ _ _ HDD I1) Hin HmD) as (E2 & I2 & C2 & B2).
  unfold log_write. tot_step. cbn [lg set_bio].
  pose proof (x_room _ _ _ _ T) as Hroom. pose proof (x_size _ _ _ _ T) as Hsz. unfold NBUF in Hroom.
  rewrite (proj2 (Z.leb_gt LOGSIZE _)) by (rewrite (x_n _ _ _ _ T); unfold LOGSIZE, MAXOPBLOCKS; lia).
  rewrite (proj2 (Z.leb_gt (size (lg s) - 1) _)) by (rewrite (x_n _ _ _ _ T), (x_logsize _ _ _ _ T); lia).
  rewrite (proj2 (Z.ltb_ge _ 1)) by (destruct (x_out _ _ _ _ T); lia). cbn [orb]. intros tr2.
  destruct (held_buf mypid L D b1 m i I1 Hin) as (_ & _ & Hbn & _).
  exists tt, tr2, (LS (with_buf i (set_flags 6 (buf_at i b1)) b1) (record_block m (lg s))). split.
  { erewrite bind_Ret by done. cbv beta. erewrite bind_Ret by done. cbv beta zeta. cbn [bio set_bio lg].
    rewrite Hbn. fold (record_block m (lg s)). erewrite bind_Ret by done. cbv beta.
    erewrite bind_Ret by (unfold io, zoom, upd_buf, modify; cbn [bio set_lg set_bio]; rewrite E2; reflexivity).
    cbv beta. rewrite release_head by set_solver. done. }
  assert (length D' ≤ S (length D))%nat as HlenD.
  { unfold D'. destruct Rd as [[_ ->]|[_ ->]]; rewrite ?length_app; simpl; unfold D; lia. }
  destruct T as [T1 T2 T3 T4 T5 T6 T7 T8 T9 T10 Tc Tm T11 T12 T13 T14 T15 T16 T17].
  split; cbn [bio lg]; fold D D'; try done.
  - by rewrite <- T4, <- Z1.
  - by destruct T5.
  - unfold D'. destruct Rd as [[_ ->]|[_ ->]]; [done|]. apply Forall_app. by split; [|constructor].
  - unfold D'. destruct Rd as [[_ ->]|[? ->]]; [done|]. apply NoDup_app. split; [done|]. split; [set_solver|apply NoDup_singleton].
  - change (memdisk (with_buf i (set_flags 6 (buf_at i b1)) b1)) with (memdisk b1). congruence.
  - intros k'. rewrite C2, C1. unfold upd. case_decide; [done|apply T11].
  - intros k'. unfold upd. case_decide; [done|apply T12].
  - intros k' j Hj. rewrite B2. destruct (decide (i = j)) as [<-|Hne]; [done|].
    rewrite O1 by done. intros Hf. rewrite C2, C1, decide_False.
    + change (disk_at k' (with_buf i (set_flags 6 (buf_at i b1)) b1)) with (disk_at k' b1).
      unfold disk_at. rewrite M1. by apply (T13 k' j).
    + intros ->. apply Hne. by eapply held_inj.
  - unfold NBUF, D in *. lia.
  - unfold D in *. lia.
  - change (disk_at (l_start G) (with_buf i (set_flags 6 (buf_at i b1)) b1)) with (disk_at (l_start G) b1).
    unfold disk_at. by rewrite M1.
Qed.

(** The end of a call with no buffer held: its transaction can commit. *)
Lemma txn_pending n V s : txn n [] V s → 0 < lh_n (lg s) → pending mypid s.
Proof.
  intros T Hn. assert (start (lg s) ∉ logged (lg s)) as Hst.
  { intros Hin. pose proof (x_home _ _ _ _ T) as Hh. rewrite Forall_forall in Hh. specialize (Hh _ Hin).
    eapply (home_start _ _ _ (x_geo _ _ _ _ T)); [by eapply usable_home|done]. }
  assert (disk_at (start (lg s)) (bio s) = V (start (lg s))) as Hd.
  { rewrite <- (x_view _ _ _ _ T). symmetry. eapply content_clean; [apply T|done]. }
  pose proof (x_room _ _ _ _ T). pose proof (x_size _ _ _ _ T).
  split; rewrite ?(x_disk _ _ _ _ T); try apply T; try done.
  - eapply Forall_impl; [apply T|]. intros b. by eapply usable_home.
  - rewrite (x_n _ _ _ _ T), (x_logsize _ _ _ _ T). lia.
  - lia.
  - rewrite (x_start _ _ _ _ T). apply T.
  - rewrite Hd. apply T.
Qed.

(** The end of the last call of a transaction: [end_op] commits. *)
Lemma end_op_ok n V s tr :
  txn n [] V s → l_out G = 1 →
  ∃ s' tr', end_op mypid (Ctx [] tr) s = Ret tt (Ctx [] (tr ++ tr')) s' ∧
    writes tr' = (if 0 <? lh_n (lg s) then commit_writes s else []) ∧
    ∀ m, ¬ log_area (lg s) m → disk_at m (bio s') = V m.
Proof.
  intros T Ho. set (s1 := set_lg (set_committing 1 (set_outstanding 0 (lg s))) s).
  assert (∃ s2 t2, commit mypid (Ctx [] tr) s1 = Ret tt (Ctx [] (tr ++ t2)) s2 ∧
    writes t2 = (if 0 <? lh_n (lg s) then commit_writes s else []) ∧
    ∀ m, ¬ log_area (lg s) m → disk_at m (bio s2) = V m) as (s2 & t2 & E2 & W2 & D2).
  { destruct (Z.ltb_spec 0 (lh_n (lg s))) as [Hn|Hn].
    - assert (pending mypid s1) as Hp. { destruct (txn_pending n V s T Hn) as [P1 [] P3 P4 P5 P6 P7 P8 P9 P10]. by split. }
      destruct (commit_ok mypid s1 tr Hp) as (s2 & t2 & E2 & W2 & I2 & _ & _ & _ & C2).
      exists s2, t2. split; [done|]. split; [done|]. intros m Hm.
      rewrite <- (x_view _ _ _ _ T m). change (bio s) with (bio s1). rewrite <- C2 by done. symmetry.
      eapply content_clean; [done|]. apply not_elem_of_nil.
    - exists s1, []. rewrite app_nil_r. split; [|split; [done|]].
      + unfold commit. erewrite bind_Ret by done. cbv beta. cbn [lg s1 set_lg lh_n set_committing set_outstanding].
        by rewrite (proj2 (Z.ltb_ge 0 _)).
      + intros m Hm. rewrite <- (x_view _ _ _ _ T m). symmetry. apply (content_clean mypid [] (bio s)); [|apply not_elem_of_nil].
        pose proof (x_n _ _ _ _ T) as Hx. assert (logged (lg s) = []) as Hl by (apply length_zero_iff_nil; lia).
        pose proof (x_inv _ _ _ _ T) as Hi. by rewrite Hl in Hi. }
  destruct (x_out _ _ _ _ T) as [Hout _].
  exists (set_lg (set_committing 0 (lg s2)) s2), (t2 ++ [EWakeup ChLog]). split; [|split].
  - unfold end_op. rewrite bind_acquire by set_solver. erewrite bind_Ret by done. cbv beta.
    erewrite bind_Ret by done. cbv beta zeta. cbn [lg set_lg committing outstanding set_outstanding].
    rewrite (x_comm _ _ _ _ T), Hout, Ho. cbn [Z.eqb negb Z.sub Z.opp Z.add Z.pos_sub].
    change (1 - 1 =? 0) with true. cbv iota. erewrite bind_Ret by done. cbv beta.
    erewrite bind_Ret by (by rewrite release_head by set_solver). cbv beta.
    rewrite (bind_Ret _ _ _ _ _ _ _ E2). rewrite bind_acquire by set_solver. erewrite bind_Ret by done. cbv beta.
    erewrite bind_Ret by done. cbv beta. cbn [held trace]. rewrite release_head by set_solver. by rewrite app_assoc.
  - rewrite writes_app, W2. by rewrite app_nil_r.
  - done.
Qed.

(** A crash at any disk write of that commit leaves, after recovery, the disk
    the transaction found or the one it made. *)
Lemma txn_crash n V s tr :
  txn n [] V s → l_out G = 1 → 2 ≤ l_start G →
  sb_logstart (sb_of (blk (l_mem G) 1)) = l_start G → sb_nlog (sb_of (blk (l_mem G) 1)) = l_size G →
  ∃ s' tr', end_op mypid (Ctx [] tr) s = Ret tt (Ctx [] (tr ++ tr')) s' ∧
    (∀ m, ¬ log_area (lg s) m → disk_at m (bio s') = V m) ∧
    ∀ ws1 ws2, writes tr' = ws1 ++ ws2 →
    ∃ s2 c2, initlog mypid ROOTDEV (Ctx [] []) (boot (apply_writes ws1 (l_mem G)) (disksize (bio s))) = Ret tt c2 s2 ∧
      ((∀ m, ¬ log_area (lg s) m → disk_at m (bio s2) = blk (l_mem G) m) ∨
       (∀ m, ¬ log_area (lg s) m → disk_at m (bio s2) = V m)).
Proof.
  intros T Ho Hst Hsb Hsz. destruct (end_op_ok n V s tr T Ho) as (s' & tr' & E & W & D).
  exists s', tr'. split; [done|]. split; [done|]. intros ws1 ws2 Hws. rewrite W in Hws. clear W E D.
  assert (recoverable (lg s) (l_disk G) (apply_writes ws1 (l_mem G)) ∧ blk (apply_writes ws1 (l_mem G)) 1 = blk (l_mem G) 1 ∧
    ((∀ m, ¬ log_area (lg s) m → recovered (lg s) (apply_writes ws1 (l_mem G)) m = blk (l_mem G) m) ∨
     (∀ m, ¬ log_area (lg s) m → recovered (lg s) (apply_writes ws1 (l_mem G)) m = V m))) as (Hr & H1 & Hd).
  { destruct (Z.ltb_spec 0 (lh_n (lg s))) as [Hn|Hn].
    - pose proof (txn_pending n V s T Hn) as Hp. destruct (commit_crash mypid s ws1 ws2 Hp Hws) as [Hr Hd].
      rewrite (x_mem _ _ _ _ T), (x_disk _ _ _ _ T) in *. split; [done|]. split.
      + apply blk_apply_other. intros Hin. destruct (commit_writes_keys mypid s 1 Hp) as [Ha|Ha].
        * rewrite Hws. set_solver.
        * unfold log_area in Ha. rewrite (x_start _ _ _ _ T) in Ha. lia.
        * pose proof (x_home _ _ _ _ T) as Hh. rewrite Forall_forall in Hh. destruct (Hh 1 Ha). lia.
      + destruct (decide (length (logged (lg s)) < length ws1)%nat) as [Hlt|Hlt].
        * right. intros m Hm. rewrite Hd by done. apply T.
        * left. intros m Hm. rewrite Hd by done. unfold disk_at. by rewrite (x_mem _ _ _ _ T).
    - symmetry in Hws. apply app_eq_nil in Hws as [-> ->]. simpl.
      assert (head_blocks (blk (l_mem G) (start (lg s))) = []) as Hz.
      { apply head_blocks_zero. rewrite (x_start _ _ _ _ T), <- (x_mem _ _ _ _ T). apply T. }
      split; [by apply recoverable_clear; [apply T|]|]. split; [done|]. left. intros m Hm. by apply recovered_clear. }
  destruct (initlog_ok mypid (lg s) (apply_writes ws1 (l_mem G)) (disksize (bio s)) []) as (s2 & t2 & E2 & _ & D2).
  { pose proof (x_geo _ _ _ _ T) as Hg. split; rewrite ?(x_disk _ _ _ _ T), ?H1, ?(x_start _ _ _ _ T), ?(x_logsize _ _ _ _ T); try done.
    destruct Hg as [_ ? ? ? ?]. rewrite (x_start _ _ _ _ T) in *. lia. }
  exists s2, (Ctx [] ([] ++ t2)). split; [done|].
  assert (∀ m, ¬ log_area (lg s) m → disk_at m (bio s2) = recovered (lg s) (apply_writes ws1 (l_mem G)) m) as Hrec.
  { intros m Hm. apply D2. intros ->. apply Hm. eapply start_area, T. }
  destruct Hd as [Hd|Hd]; [left|right]; intros m Hm; by rewrite Hrec, Hd.
Qed.

(** A machine that has booted on the disk and begun a call. *)
Lemma txn_boot n nb :
  map_Forall (λ _ b, length b = BSIZE ∧ bytes b) (l_mem G) → u32 nb = l_disk G → l_out G = 1 →
  0 ≤ l_start G → 0 < l_size G → l_start G + l_size G ≤ l_disk G → l_disk G < 2147483648 →
  get_head_n (blk (l_mem G) (l_start G)) = 0 → (n + 3 ≤ NBUF)%nat → Z.of_nat n < l_size G →
  txn n [] (blk (l_mem G)) (LS (binit (bcache0 (l_mem G) nb)) (Log (l_start G) (l_size G) 1 0 ROOTDEV 0 (replicate 30 0))).
Proof.
  intros Hb Hnb Ho H1 H2 H3 H4 Hh Hn Hs. pose proof (boot_ok mypid (l_mem G) nb) as Hi. split; try done.
  - split; simpl; try done; lia.
  - apply NoDup_nil_2.
  - rewrite Ho. done.
  - intros m. unfold blk. destruct (l_mem G !! m) as [b|] eqn:E; simpl; [by apply (Hb m)|].
    split; [done|]. by apply Forall_replicate.
  - apply NoDup_nil_2.
Qed.

End Txn.
