(* ===== verification/Fs.v ===== *)
(** * The file system

    [fs.c]: blocks, inodes, directories and paths, over the cache and the log.
    The operations run inside a transaction; a call that goes to sleep on an
    inode's lock ends the modelled part. *)

From S2P Require Import Prelude Locks Bytes Str Bio Log Txn.

Definition NDIRECT : nat := 12.
Definition NINDIRECT : nat := 128.
Definition MAXFILE : Z := 140.
Definition NINODE : nat := 50.
Definition NDEV : Z := 10.
Definition ROOTINO : Z := 1.
Definition IPB : Z := 8.
Definition BPB : Z := 4096.
Definition DIRSIZ : nat := 14.
Definition T_DIR : Z := 1.
Definition T_FILE : Z := 2.
Definition T_DEV : Z := 3.

Definition IBLOCK (i : Z) (sb : superblock) : Z := u32 (i / IPB + sb_inodestart sb).
Definition BBLOCK (b : Z) (sb : superblock) : Z := u32 (b / BPB + sb_bmapstart sb).

(** [struct dinode], and at a byte offset of a block. *)
Record dinode := Dinode {
  d_type : Z; d_major : Z; d_minor : Z; d_nlink : Z; d_size : Z; d_addrs : list Z }.
Definition get_addrs (o : nat) (d : block) : list Z :=
  map (λ k, get32 d (o + 4 * k)) (seq 0 (NDIRECT + 1)).
Definition get_dinode (o : nat) (d : block) : dinode :=
  Dinode (i16 (get16 d o)) (i16 (get16 d (o + 2))) (i16 (get16 d (o + 4))) (i16 (get16 d (o + 6)))
         (get32 d (o + 8)) (get_addrs (o + 12) d).
Fixpoint put_addrs (o : nat) (l : list Z) (d : block) : block :=
  match l with [] => d | a :: l => put_addrs (o + 4) l (put32 o a d) end.
Definition put_dinode (o : nat) (x : dinode) (d : block) : block :=
  put_addrs (o + 12) (d_addrs x) (put32 (o + 8) (d_size x) (put16 (o + 6) (d_nlink x)
    (put16 (o + 4) (d_minor x) (put16 (o + 2) (d_major x) (put16 o (d_type x) d))))).
(** [memset] and [memmove] inside a block. *)
Definition put_bytes (k : nat) (l : list Z) (d : block) : block :=
  take k d ++ l ++ drop (k + length l) d.
Definition get_bytes (k n : nat) (d : block) : list Z := take n (drop k d).

(** The in-memory inode. *)
Record inode := Inode {
  idev : Z; inum : Z; ref : Z; ilk : Sleeplock.sleeplock; valid : Z;
  itype : Z; major : Z; minor : Z; nlink : Z; isize : Z; addrs : list Z }.
Definition inode0 : inode := Inode 0 0 0 Sleeplock.initsleeplock 0 0 0 0 0 0 (replicate 13 0).

Definition set_ref (x : Z) (i : inode) : inode :=
  Inode (idev i) (inum i) x (ilk i) (valid i) (itype i) (major i) (minor i) (nlink i) (isize i) (addrs i).
Definition set_ilk (x : Sleeplock.sleeplock) (i : inode) : inode :=
  Inode (idev i) (inum i) (ref i) x (valid i) (itype i) (major i) (minor i) (nlink i) (isize i) (addrs i).
Definition set_valid (x : Z) (i : inode) : inode :=
  Inode (idev i) (inum i) (ref i) (ilk i) x (itype i) (major i) (minor i) (nlink i) (isize i) (addrs i).
Definition set_itype (x : Z) (i : inode) : inode :=
  Inode (idev i) (inum i) (ref i) (ilk i) (valid i) x (major i) (minor i) (nlink i) (isize i) (addrs i).
Definition set_dev_minor (x y : Z) (i : inode) : inode :=
  Inode (idev i) (inum i) (ref i) (ilk i) (valid i) (itype i) x y (nlink i) (isize i) (addrs i).
Definition set_nlink (x : Z) (i : inode) : inode :=
  Inode (idev i) (inum i) (ref i) (ilk i) (valid i) (itype i) (major i) (minor i) x (isize i) (addrs i).
Definition set_isize (x : Z) (i : inode) : inode :=
  Inode (idev i) (inum i) (ref i) (ilk i) (valid i) (itype i) (major i) (minor i) (nlink i) x (addrs i).
Definition set_addr (k : nat) (x : Z) (i : inode) : inode :=
  Inode (idev i) (inum i) (ref i) (ilk i) (valid i) (itype i) (major i) (minor i) (nlink i) (isize i)
        (<[k := x]> (addrs i)).

(** The copies between an in-memory inode and the disk's. *)
Definition to_dinode (i : inode) : dinode :=
  Dinode (itype i) (major i) (minor i) (nlink i) (isize i) (addrs i).
Definition from_dinode (d : dinode) (i : inode) : inode :=
  Inode (idev i) (inum i) (ref i) (ilk i) (valid i)
        (d_type d) (d_major d) (d_minor d) (d_nlink d) (d_size d) (d_addrs d).

(** The cache, log, inode cache and superblock. *)
Record fstate := FS { ls : lstate; inodes : list inode; fsb : superblock }.
Definition set_ls (x : lstate) (s : fstate) : fstate := FS x (inodes s) (fsb s).
Definition set_inodes (x : list inode) (s : fstate) : fstate := FS (ls s) x (fsb s).
Definition set_fsb (x : superblock) (s : fstate) : fstate := FS (ls s) (inodes s) x.

Definition inode_at (ip : nat) (s : fstate) : inode := default inode0 (inodes s !! ip).
Definition upd_inode (ip : nat) (f : inode → inode) : M fstate unit :=
  modify (λ s, set_inodes (alter f ip (inodes s)) s).
(** An operation of the log layer, of the cache, and on an inode's lock. *)
Definition disk {A} (m : M lstate A) : M fstate A := zoom ls set_ls m.
Definition cache {A} (m : M bstate A) : M fstate A := disk (io m).
Definition on_ilock {A} (ip : nat) (m : M Sleeplock.sleeplock A) : M fstate A :=
  zoom (λ s, ilk (inode_at ip s)) (λ l s, set_inodes (alter (set_ilk l) ip (inodes s)) s) m.

(** [bp->data], and a store into it. *)
Definition data_of (bp : nat) : M fstate block := gets (λ s, bdata (buf_at bp (bio (ls s)))).
Definition set_data (bp : nat) (f : block → block) : M lstate unit :=
  io (upd_buf bp (λ b, set_bdata (f (bdata b)) b)).
(** A store into a block that is then logged. *)
Definition store_log (bp : nat) (f : block → block) : M fstate unit :=
  disk (set_data bp f;; log_write bp).

Section Ops.
(** The caller's process id and its current directory. *)
Context (mypid : Z) (cwd : nat).
(** [devsw]: the device a driver has registered for a major number, reading
    [n] bytes from and writing bytes to the device behind an inode. *)
Context (dev_read : Z → option (nat → Z → M fstate (Z * list Z)))
        (dev_write : Z → option (nat → list Z → M fstate Z)).

Definition fs_bread (d n : Z) : M fstate nat := cache (bread mypid d n).
Definition fs_brelse (bp : nat) : M fstate unit := cache (brelse mypid bp).

(** ** Blocks *)

Definition bzero (d bno : Z) : M fstate unit :=
  bp ← fs_bread d (u32 bno);
  store_log bp (λ _, replicate BSIZE 0);;
  fs_brelse bp.

(** [m], and the test of bit [bi] of the bitmap block. *)
Definition bit_mask (bi : nat) : Z := Z.shiftl 1 (Z.of_nat (bi mod 8)).
Definition bit_clear (d : block) (bi : nat) : bool := Z.land (get8 d (bi / 8)) (bit_mask bi) =? 0.

(** The inner loop of [balloc] from [bi] on: the first free bit. *)
Fixpoint free_bit (d : block) (b size : Z) (bi fuel : nat) : option nat :=
  match fuel with
  | O => None
  | S fuel =>
      if (b + Z.of_nat bi <? size) then
        if bit_clear d bi then Some bi else free_bit d b size (S bi) fuel
      else None
  end.
(** The outer loop, over the first blocks [bs] of the bitmap blocks. *)
Fixpoint balloc_loop (d : Z) (bs : list Z) : M fstate Z :=
  match bs with
  | [] => panic "balloc: out of blocks"
  | b :: bs =>
      sb ← gets fsb;
      bp ← fs_bread d (BBLOCK b sb);
      data ← data_of bp;
      match free_bit data b (sb_size sb) 0 (Z.to_nat BPB) with
      | Some bi =>
          store_log bp (λ d, put8 (bi / 8) (Z.lor (get8 d (bi / 8)) (bit_mask bi)) d);;
          fs_brelse bp;;
          bzero d (b + Z.of_nat bi);;
          mret (b + Z.of_nat bi)
      | None => fs_brelse bp;; balloc_loop d bs
      end
  end.
(** 0, [BPB], 2 [BPB], ... below [size]. *)
Definition bitmap_starts (size : Z) : list Z :=
  map (λ k, Z.of_nat k * BPB) (seq 0 (Z.to_nat ((size + BPB - 1) / BPB))).
Definition balloc (d : Z) : M fstate Z :=
  sb ← gets fsb;
  balloc_loop d (bitmap_starts (sb_size sb)).

Definition bfree (d b : Z) : M fstate unit :=
  sb ← gets fsb;
  bp ← fs_bread d (BBLOCK b sb);
  let bi := Z.to_nat (b mod BPB) in
  data ← data_of bp;
  if bit_clear data bi then panic "freeing free block"
  else
    store_log bp (λ d, put8 (bi / 8) (Z.land (get8 d (bi / 8)) (Z.lnot (bit_mask bi))) d);;
    fs_brelse bp.

(** ** Inodes *)

Definition iinit (d : Z) : M fstate unit :=
  modify (λ s, set_inodes (set_ilk Sleeplock.initsleeplock <$> inodes s) s);;
  sb ← disk (readsb mypid d);
  modify (set_fsb sb);;
  emit (EPrint "sb: size %d nblocks %d ninodes %d nlog %d logstart %d inodestart %d bmap start %d\n"
    (map PInt [i32 (sb_size sb); i32 (sb_nblocks sb); i32 (sb_ninodes sb); i32 (sb_nlog sb);
               i32 (sb_logstart sb); i32 (sb_inodestart sb); i32 (sb_bmapstart sb)])).

(** The loop of [iget] from entry [ip] on: the entry of inode [n], or the first
    empty one. *)
Fixpoint iget_scan (d n : Z) (ip : nat) (empty : option nat) (l : list inode) : nat + option nat :=
  match l with
  | [] => inr empty
  | i :: l =>
      if ((0 <? ref i) && (idev i =? d) && (inum i =? n))%bool then inl ip
      else iget_scan d n (S ip)
             (match empty with None => if ref i =? 0 then Some ip else None | Some e => Some e end) l
  end.

Definition iget (d n : Z) : M fstate nat :=
  acquire Licache;;
  l ← gets inodes;
  match iget_scan d n 0 None l with
  | inl ip =>
      upd_inode ip (λ i, set_ref (i32 (ref i + 1)) i);;
      release Licache;;
      mret ip
  | inr None => panic "iget: no inodes"
  | inr (Some ip) =>
      upd_inode ip (λ i, set_valid 0 (Inode d n 1 (ilk i) (valid i) (itype i) (major i) (minor i)
                                            (nlink i) (isize i) (addrs i)));;
      release Licache;;
      mret ip
  end.

(** The place of inode [n] in its block. *)
Definition dinode_off (n : Z) : nat := Z.to_nat (n mod IPB * 64).

Fixpoint ialloc_loop (d type : Z) (l : list nat) : M fstate nat :=
  match l with
  | [] => panic "ialloc: no inodes"
  | n :: l =>
      let n := Z.of_nat n in
      sb ← gets fsb;
      bp ← fs_bread d (IBLOCK n sb);
      data ← data_of bp;
      let o := dinode_off n in
      if d_type (get_dinode o data) =? 0 then
        store_log bp (λ d, put16 o type (put_bytes o (replicate 64 0) d));;
        fs_brelse bp;;
        iget d n
      else
        fs_brelse bp;;
        ialloc_loop d type l
  end.
Definition ialloc (d type : Z) : M fstate nat :=
  sb ← gets fsb;
  ialloc_loop d type (seq 1 (Z.to_nat (sb_ninodes sb) - 1)).

Definition iupdate (ip : nat) : M fstate unit :=
  i ← gets (inode_at ip);
  sb ← gets fsb;
  bp ← fs_bread (idev i) (IBLOCK (inum i) sb);
  store_log bp (put_dinode (dinode_off (inum i)) (to_dinode i));;
  fs_brelse bp.

Definition idup (ip : nat) : M fstate nat :=
  acquire Licache;;
  upd_inode ip (λ i, set_ref (i32 (ref i + 1)) i);;
  release Licache;;
  mret ip.

Definition ilock (ip : nat) : M fstate unit :=
  i ← gets (inode_at ip);
  if ref i <? 1 then panic "ilock"
  else
    on_ilock ip (Sleeplock.acquiresleep (SLinode ip) mypid);;
    i ← gets (inode_at ip);
    if valid i =? 0 then
      sb ← gets fsb;
      bp ← fs_bread (idev i) (IBLOCK (inum i) sb);
      data ← data_of bp;
      upd_inode ip (from_dinode (get_dinode (dinode_off (inum i)) data));;
      fs_brelse bp;;
      upd_inode ip (set_valid 1);;
      i ← gets (inode_at ip);
      if itype i =? 0 then panic "ilock: no type" else mret tt
    else mret tt.

Definition iunlock (ip : nat) : M fstate unit :=
  h ← on_ilock ip (Sleeplock.holdingsleep (SLinode ip) mypid);
  i ← gets (inode_at ip);
  if (negb h || (ref i <? 1))%bool then panic "iunlock"
  else on_ilock ip (Sleeplock.releasesleep (SLinode ip)).

(** ** Inode content *)

(** Entry [bn] of the indirect block [addr], allocating if necessary. *)
Definition bmap_indirect (d addr bn : Z) : M fstate Z :=
  bp ← fs_bread d addr;
  data ← data_of bp;
  let k := (4 * Z.to_nat bn)%nat in
  let addr := get32 data k in
  addr ← (if addr =? 0 then
            addr ← balloc d;
            store_log bp (put32 k addr);;
            mret addr
          else mret addr);
  fs_brelse bp;;
  mret addr.

Definition bmap (ip : nat) (bn : Z) : M fstate Z :=
  i ← gets (inode_at ip);
  if bn <? Z.of_nat NDIRECT then
    let k := Z.to_nat bn in
    let addr := nth k (addrs i) 0 in
    if addr =? 0 then
      addr ← balloc (idev i);
      upd_inode ip (set_addr k addr);;
      mret addr
    else mret addr
  else
    let bn := bn - Z.of_nat NDIRECT in
    if bn <? Z.of_nat NINDIRECT then
      let addr := nth NDIRECT (addrs i) 0 in
      addr ← (if addr =? 0 then
                addr ← balloc (idev i);
                upd_inode ip (set_addr NDIRECT addr);;
                mret addr
              else mret addr);
      bmap_indirect (idev i) addr bn
    else panic "bmap: out of range".

(** The loops of [itrunc] over the direct blocks and over an indirect block. *)
Fixpoint itrunc_direct (ip : nat) (l : list nat) : M fstate unit :=
  match l with
  | [] => mret tt
  | k :: l =>
      i ← gets (inode_at ip);
      (if negb (nth k (addrs i) 0 =? 0) then
         bfree (idev i) (nth k (addrs i) 0);;
         upd_inode ip (set_addr k 0)
       else mret tt);;
      itrunc_direct ip l
  end.
Fixpoint itrunc_indirect (ip bp : nat) (l : list nat) : M fstate unit :=
  match l with
  | [] => mret tt
  | j :: l =>
      i ← gets (inode_at ip);
      data ← data_of bp;
      let a := get32 data (4 * j) in
      (if negb (a =? 0) then bfree (idev i) a else mret tt);;
      itrunc_indirect ip bp l
  end.
Definition itrunc (ip : nat) : M fstate unit :=
  itrunc_direct ip (seq 0 NDIRECT);;
  i ← gets (inode_at ip);
  let a := nth NDIRECT (addrs i) 0 in
  (if negb (a =? 0) then
     bp ← fs_bread (idev i) a;
     itrunc_indirect ip bp (seq 0 NINDIRECT);;
     fs_brelse bp;;
     bfree (idev i) a;;
     upd_inode ip (set_addr NDIRECT 0)
   else mret tt);;
  upd_inode ip (set_isize 0);;
  iupdate ip.

Definition iput (ip : nat) : M fstate unit :=
  on_ilock ip (Sleeplock.acquiresleep (SLinode ip) mypid);;
  i ← gets (inode_at ip);
  (if (negb (valid i =? 0) && (nlink i =? 0))%bool then
     acquire Licache;;
     r ← gets (λ s, ref (inode_at ip s));
     release Licache;;
     if r =? 1 then
       itrunc ip;;
       upd_inode ip (set_itype 0);;
       iupdate ip;;
       upd_inode ip (set_valid 0)
     else mret tt
   else mret tt);;
  on_ilock ip (Sleeplock.releasesleep (SLinode ip));;
  acquire Licache;;
  upd_inode ip (λ i, set_ref (i32 (ref i - 1)) i);;
  release Licache.

Definition iunlockput (ip : nat) : M fstate unit :=
  iunlock ip;;
  iput ip.

(** [struct stat], as [stati] fills it. *)
Record stat := Stat { st_dev : Z; st_ino : Z; st_type : Z; st_nlink : Z; st_size : Z }.
Definition stati (ip : nat) : M fstate stat :=
  i ← gets (inode_at ip);
  mret (Stat (i32 (idev i)) (inum i) (itype i) (nlink i) (isize i)).

(** The loop of [readi]: [n] bytes are left from [off] on, and [acc] have been
    copied. *)
Fixpoint readi_loop (fuel : nat) (ip : nat) (off n : Z) (acc : list Z) : M fstate (list Z) :=
  if n <=? 0 then mret acc
  else match fuel with
  | O => panic "out of fuel"
  | S fuel =>
      i ← gets (inode_at ip);
      addr ← bmap ip (off / Z.of_nat BSIZE);
      bp ← fs_bread (idev i) addr;
      data ← data_of bp;
      let m := Z.min n (Z.of_nat BSIZE - off mod Z.of_nat BSIZE) in
      fs_brelse bp;;
      readi_loop fuel ip (off + m) (n - m)
        (acc ++ get_bytes (Z.to_nat (off mod Z.of_nat BSIZE)) (Z.to_nat m) data)
  end.
(** Rounds of the loops of [readi] and [writei] on [n] bytes. *)
Definition rounds (n : Z) : nat := Z.to_nat (n / Z.of_nat BSIZE + 2).

(** The result and the bytes copied to [dst]. *)
Definition readi (ip : nat) (off n : Z) : M fstate (Z * list Z) :=
  i ← gets (inode_at ip);
  if itype i =? T_DEV then
    if ((major i <? 0) || (NDEV <=? major i))%bool then mret (-1, [])
    else match dev_read (major i) with
         | None => mret (-1, [])
         | Some r => r ip n
         end
  else if ((isize i <? off) || (u32 (off + n) <? off))%bool then mret (-1, [])
  else
    let n := if isize i <? u32 (off + n) then u32 (isize i - off) else n in
    l ← readi_loop (rounds n) ip off n [];
    mret (i32 n, l).

Fixpoint writei_loop (fuel : nat) (ip : nat) (off : Z) (src : list Z) : M fstate Z :=
  match src with
  | [] => mret off
  | _ =>
  match fuel with
  | O => panic "out of fuel"
  | S fuel =>
      i ← gets (inode_at ip);
      addr ← bmap ip (off / Z.of_nat BSIZE);
      bp ← fs_bread (idev i) addr;
      let m := Nat.min (length src) (BSIZE - Z.to_nat (off mod Z.of_nat BSIZE)) in
      store_log bp (put_bytes (Z.to_nat (off mod Z.of_nat BSIZE)) (take m src));;
      fs_brelse bp;;
      writei_loop fuel ip (off + Z.of_nat m) (drop m src)
  end end.

(** [src] holds the [n] bytes. *)
Definition writei (ip : nat) (src : list Z) (off : Z) : M fstate Z :=
  let n := Z.of_nat (length src) in
  i ← gets (inode_at ip);
  if itype i =? T_DEV then
    if ((major i <? 0) || (NDEV <=? major i))%bool then mret (-1)
    else match dev_write (major i) with
         | None => mret (-1)
         | Some w => w ip src
         end
  else if ((isize i <? off) || (u32 (off + n) <? off))%bool then mret (-1)
  else if MAXFILE * Z.of_nat BSIZE <? u32 (off + n) then mret (-1)
  else
    off ← writei_loop (rounds n) ip off src;
    i ← gets (inode_at ip);
    (if ((0 <? n) && (isize i <? off))%bool then
       upd_inode ip (set_isize off);;
       iupdate ip
     else mret tt);;
    mret (i32 n).

(** ** Directories *)

(** [struct dirent]: the inode number and [DIRSIZ] bytes of name. *)
Definition sizeof_dirent : nat := 16.
Definition de_inum (de : list Z) : Z := get16 de 0.
Definition de_name (de : list Z) : list Z := drop 2 de.
Definition dirent (inum : Z) (name : list Z) : list Z :=
  inum mod 256 :: (inum / 256) mod 256 :: strncpy DIRSIZ (str_of name).

Definition namecmp (s t : list Z) : Z := strncmp DIRSIZ (str_of s) (str_of t).

(** The offsets 0, 16, 32, ... below [size]. *)
Definition dir_offs (size : Z) : list Z :=
  map (λ k, Z.of_nat k * Z.of_nat sizeof_dirent) (seq 0 (Z.to_nat ((size + 15) / 16))).

Fixpoint dirlookup_loop (dp : nat) (name : list Z) (offs : list Z) : M fstate (option (nat * Z)) :=
  match offs with
  | [] => mret None
  | off :: offs =>
      r ← readi dp off (Z.of_nat sizeof_dirent);
      let de := snd r in
      if negb (fst r =? Z.of_nat sizeof_dirent) then panic "dirlookup read"
      else if de_inum de =? 0 then dirlookup_loop dp name offs
      else if namecmp name (de_name de) =? 0 then
        i ← gets (inode_at dp);
        ip ← iget (idev i) (de_inum de);
        mret (Some (ip, off))
      else dirlookup_loop dp name offs
  end.
(** The inode and the offset of its entry. *)
Definition dirlookup (dp : nat) (name : list Z) : M fstate (option (nat * Z)) :=
  i ← gets (inode_at dp);
  if negb (itype i =? T_DIR) then panic "dirlookup not DIR"
  else dirlookup_loop dp name (dir_offs (isize i)).

(** The offset of the first free entry, else the one after the last. *)
Fixpoint dirlink_loop (dp : nat) (off : Z) (offs : list Z) : M fstate Z :=
  match offs with
  | [] => mret off
  | off :: offs =>
      r ← readi dp off (Z.of_nat sizeof_dirent);
      if negb (fst r =? Z.of_nat sizeof_dirent) then panic "dirlink read"
      else if de_inum (snd r) =? 0 then mret off
      else dirlink_loop dp (off + Z.of_nat sizeof_dirent) offs
  end.
Definition dirlink (dp : nat) (name : list Z) (inum : Z) : M fstate Z :=
  r ← dirlookup dp name;
  match r with
  | Some (ip, _) => iput ip;; mret (-1)
  | None =>
      i ← gets (inode_at dp);
      off ← dirlink_loop dp 0 (dir_offs (isize i));
      n ← writei dp (dirent inum name) off;
      if negb (n =? Z.of_nat sizeof_dirent) then panic "dirlink"
      else mret 0
  end.

(** ** Paths *)

Definition slash : Z := 47.
Fixpoint skip_slashes (path : list Z) : list Z :=
  match path with
  | [] => []
  | c :: path' => if c =? slash then skip_slashes path' else path
  end.
(** The path up to the next slash. *)
Fixpoint elem (path : list Z) : list Z :=
  match path with
  | [] => []
  | c :: path => if c =? slash then [] else c :: elem path
  end.
(** The next element, cut to [DIRSIZ] bytes, and the path after it. *)
Definition skipelem (path : list Z) : option (list Z * list Z) :=
  let s := skip_slashes path in
  match s with
  | [] => None
  | _ => let e := elem s in Some (take DIRSIZ e, skip_slashes (drop (length e) s))
  end.

(** The loop of [namex] at inode [ip], and the last name it copied. *)
Fixpoint namex_loop (fuel : nat) (ip : nat) (path : list Z) (parent : bool) (name : list Z) :
    M fstate (option nat * list Z) :=
  match skipelem path with
  | None =>
      if parent then iput ip;; mret (None, name)
      else mret (Some ip, name)
  | Some (name, path) =>
  match fuel with
  | O => panic "out of fuel"
  | S fuel =>
      ilock ip;;
      i ← gets (inode_at ip);
      if negb (itype i =? T_DIR) then iunlockput ip;; mret (None, name)
      else if (parent && bool_decide (path = []))%bool then iunlock ip;; mret (Some ip, name)
      else
        r ← dirlookup ip name;
        match r with
        | None => iunlockput ip;; mret (None, name)
        | Some (next, _) =>
            iunlockput ip;;
            namex_loop fuel next path parent name
        end
  end end.
Definition namex (path : list Z) (parent : bool) : M fstate (option nat * list Z) :=
  ip ← (if bool_decide (head path = Some slash) then iget ROOTDEV ROOTINO else idup cwd);
  namex_loop (length path) ip path parent [].

Definition namei (path : list Z) : M fstate (option nat) :=
  r ← namex path false; mret (fst r).
Definition nameiparent (path : list Z) : M fstate (option nat * list Z) := namex path true.

End Ops.
