(* ===== verification/FsBlocks.v ===== *)
(** * The free map

    What [balloc] and [bfree] do to the disk: the bitmap as a set of blocks, and
    the contract of the two operations inside a transaction. *)

From S2P Require Import Prelude Locks Bytes Str Bio Log Txn Fs.

(** ** Bits of a block *)

Lemma bit_clear_testbit d bi : bit_clear d bi = negb (Z.testbit (get8 d (bi / 8)) (Z.of_nat (bi mod 8))).
Proof.
  unfold bit_clear, bit_mask. set (k := Z.of_nat (bi mod 8)). assert (0 ≤ k) by lia.
  destruct (Z.testbit (get8 d (bi / 8)) k) eqn:E; cbn [negb].
  - apply Z.eqb_neq. intros H0. assert (Z.testbit (Z.land (get8 d (bi / 8)) (Z.shiftl 1 k)) k = false) as Hf
      by (rewrite H0; apply Z.bits_0).
    rewrite Z.land_spec, E, Z.shiftl_spec, Z.sub_diag in Hf by lia. done.
  - apply Z.eqb_eq. apply Z.bits_inj'. intros j Hj. rewrite Z.land_spec, Z.bits_0.
    destruct (decide (j = k)) as [->|Hne]; [by rewrite E|].
    rewrite Z.shiftl_1_l, Z.pow2_bits_false by lia. apply andb_false_r.
Qed.

(** Setting and clearing one bit. *)
Definition set_bit (bi : nat) (d : block) : block :=
  put8 (bi / 8) (Z.lor (get8 d (bi / 8)) (bit_mask bi)) d.
Definition clear_bit (bi : nat) (d : block) : block :=
  put8 (bi / 8) (Z.land (get8 d (bi / 8)) (Z.lnot (bit_mask bi))) d.

Lemma byte_testbit_mod z k : 0 ≤ k < 8 → Z.testbit (z mod 256) k = Z.testbit z k.
Proof. intros. change 256 with (2 ^ 8). by rewrite Z.mod_pow2_bits_low by lia. Qed.

Lemma bit_index (bi bj : nat) : (bi / 8 = bj / 8 → bi mod 8 = bj mod 8 → bi = bj)%nat.
Proof. intros. rewrite (Nat.div_mod_eq bi 8), (Nat.div_mod_eq bj 8). lia. Qed.

Lemma mod8_lt (bi : nat) : 0 ≤ Z.of_nat (bi mod 8) < 8.
Proof. pose proof (Nat.mod_upper_bound bi 8). lia. Qed.

Lemma bit_clear_set d bi bj :
  (bi / 8 < length d)%nat → bit_clear (set_bit bi d) bj = (negb (bool_decide (bi = bj)) && bit_clear d bj)%bool.
Proof.
  intros Hl. rewrite !bit_clear_testbit. unfold set_bit.
  destruct (decide (bi / 8 = bj / 8)%nat) as [He|He].
  - rewrite <- He, get8_put8, byte_testbit_mod by (done || apply mod8_lt). rewrite Z.lor_spec.
    unfold bit_mask. rewrite Z.shiftl_1_l, Z.pow2_bits_eqb by lia. case_bool_decide as Hb.
    + subst bj. rewrite Z.eqb_refl, orb_true_r. done.
    + rewrite (proj2 (Z.eqb_neq _ _)); [by rewrite orb_false_r|]. intros Hm. apply Hb, bit_index; [done|lia].
  - rewrite get8_put8_ne by done. rewrite bool_decide_eq_false_2; [done|]. by intros ->.
Qed.

Lemma bit_clear_clear d bi bj :
  (bi / 8 < length d)%nat → bit_clear (clear_bit bi d) bj = (bool_decide (bi = bj) || bit_clear d bj)%bool.
Proof.
  intros Hl. rewrite !bit_clear_testbit. unfold clear_bit.
  destruct (decide (bi / 8 = bj / 8)%nat) as [He|He].
  - rewrite <- He, get8_put8, byte_testbit_mod by (done || apply mod8_lt).
    rewrite Z.land_spec, Z.lnot_spec by lia.
    unfold bit_mask. rewrite Z.shiftl_1_l, Z.pow2_bits_eqb by lia. case_bool_decide as Hb.
    + subst bj. by rewrite Z.eqb_refl, andb_false_r.
    + rewrite (proj2 (Z.eqb_neq _ _)); [by rewrite andb_true_r|]. intros Hm. apply Hb, bit_index; [done|lia].
  - rewrite get8_put8_ne by done. rewrite bool_decide_eq_false_2; [done|]. by intros ->.
Qed.

Lemma length_set_bit bi d : length (set_bit bi d) = length d.
Proof. apply length_put8. Qed.
Lemma length_clear_bit bi d : length (clear_bit bi d) = length d.
Proof. apply length_put8. Qed.

(** ** The disk's layout

    As [mkfs] makes it: boot block, superblock, log, inodes, bitmap, data. *)
Definition datastart (sb : superblock) : Z := sb_bmapstart sb + sb_size sb / BPB + 1.
Record fslayout (G : layout) (sb : superblock) : Prop := {
  fl_log : 0 ≤ l_start G ∧ l_start G + l_size G ≤ sb_inodestart sb;
  fl_super : 2 ≤ sb_inodestart sb;
  fl_ninodes : 0 ≤ sb_ninodes sb;
  fl_inodes : sb_inodestart sb + sb_ninodes sb / IPB + 1 ≤ sb_bmapstart sb;
  fl_data : datastart sb ≤ sb_size sb;
  fl_size : sb_size sb ≤ l_disk G < 2147483648 }.

(** Block [b] is in use. *)
Definition marked (sb : superblock) (V : Z → block) (b : Z) : bool :=
  negb (bit_clear (V (b / BPB + sb_bmapstart sb)) (Z.to_nat (b mod BPB))).
(** Every block before the data is in use. *)
Definition meta_marked (sb : superblock) (V : Z → block) : Prop :=
  ∀ b, 0 ≤ b < datastart sb → marked sb V b = true.
(** The view after [balloc] has returned [b], and after [bfree]. *)
Definition alloc_view (sb : superblock) (V : Z → block) (b : Z) : Z → block :=
  upd (upd V (b / BPB + sb_bmapstart sb) (set_bit (Z.to_nat (b mod BPB)) (V (b / BPB + sb_bmapstart sb))))
      b zero_block.
Definition free_view (sb : superblock) (V : Z → block) (b : Z) : Z → block :=
  upd V (b / BPB + sb_bmapstart sb) (clear_bit (Z.to_nat (b mod BPB)) (V (b / BPB + sb_bmapstart sb))).

(** Run the next call of a sequence, whose contract is [lem]. *)
Tactic Notation "call" uconstr(lem) := eapply tot_bind, tot_mono; [eapply lem|cbv beta].

Section Blocks.
Context (mypid : Z) (G : layout) (sb : superblock) (HG : fslayout G sb).

(** The file system in a transaction: [n] blocks may still be logged, the
    buffers [L] are held, blocks have the contents [V] and the inode cache is
    [I]. *)
Record fs (n : nat) (L : list (Z * nat)) (V : Z → block) (I : list inode) (s : fstate) : Prop := {
  f_txn : txn mypid G n L V (ls s);
  f_inodes : inodes s = I;
  f_sb : fsb s = sb }.

Lemma fs_fewer n n' L V I s : (n' ≤ n)%nat → fs n L V I s → fs n' L V I s.
Proof. intros ? []. split; [|done..]. by eapply txn_fewer. Qed.

Lemma fs_view n L V V' I s : (∀ m, V m = V' m) → fs n L V I s → fs n L V' I s.
Proof. intros ? []. split; [|done..]. by eapply txn_view. Qed.

Lemma fs_length n L V I s m : fs n L V I s → length (V m) = BSIZE.
Proof. intros [T _ _]. by apply (x_block _ _ _ _ _ _ T). Qed.
Lemma fs_bytes n L V I s m : fs n L V I s → bytes (V m).
Proof. intros [T _ _]. by apply (x_block _ _ _ _ _ _ T). Qed.

Lemma fs_set_inodes n L V I I' s : fs n L V I s → fs n L V I' (set_inodes I' s).
Proof. by intros []. Qed.

Lemma tot_disk {A} (m : M lstate A) Q (s : fstate) :
  tot m (λ a t, Q a (set_ls t s)) (ls s) → tot (disk m) Q s.
Proof. apply tot_zoom. Qed.

Lemma fs_bread_ok n L V I s m :
  fs n L V I s → m ∉ L.*1 → m < l_disk G → (length L ≤ 2)%nat →
  tot (fs_bread mypid ROOTDEV m) (λ bp s', fs n ((m, bp) :: L) V I s') s.
Proof.
  intros [T HI Hsb] Hm Hd HL. unfold fs_bread, cache. apply tot_disk.
  eapply tot_mono; [by eapply txn_bread|]. intros bp t Ht. by split.
Qed.

Lemma fs_brelse_ok n L V I s m bp :
  fs n ((m, bp) :: L) V I s → tot (fs_brelse mypid bp) (λ _ s', fs n L V I s') s.
Proof.
  intros [T HI Hsb]. unfold fs_brelse, cache. apply tot_disk.
  eapply tot_mono; [by eapply txn_brelse|]. intros ? t Ht. by split.
Qed.

Lemma fs_store_ok n L V I s m bp f :
  fs (S n) L V I s → (m, bp) ∈ L → usable G m → length (f (V m)) = BSIZE → bytes (f (V m)) →
  tot (store_log bp f) (λ _ s', fs n L (upd V m (f (V m))) I s') s.
Proof.
  intros [T HI Hsb] Hin Hu Hl Hb. unfold store_log. apply tot_disk.
  eapply tot_mono; [by eapply txn_write|]. intros ? t Ht. by split.
Qed.

Lemma fs_data_ok n L V I s m bp Q :
  fs n L V I s → (m, bp) ∈ L → Q (V m) s → tot (data_of bp) Q s.
Proof.
  intros [T HI Hsb] Hin HQ. apply tot_gets. by rewrite (txn_data _ _ _ _ _ _ _ _ T Hin).
Qed.

Lemma BBLOCK_eq b : 0 ≤ b < sb_size sb → BBLOCK b sb = b / BPB + sb_bmapstart sb.
Proof.
  intros Hb. destruct HG as [Hl Hs Hn Hi Hd Hz]. unfold BBLOCK, datastart, BPB, IPB in *. apply u32_small.
  Z.to_euclidean_division_equations. lia.
Qed.

(** The bitmap blocks are before the data and outside the log. *)
Lemma bmap_block b : 0 ≤ b < sb_size sb → 0 ≤ b / BPB + sb_bmapstart sb < datastart sb.
Proof.
  intros Hb. destruct HG as [Hl Hs Hn Hi Hd Hz]. unfold datastart, BPB, IPB in *.
  Z.to_euclidean_division_equations. lia.
Qed.

Lemma bmap_usable b : 0 ≤ b < sb_size sb → usable G (b / BPB + sb_bmapstart sb).
Proof.
  intros Hb. destruct HG as [Hl Hs Hn Hi Hd Hz]. unfold usable, datastart, BPB, IPB in *.
  split; Z.to_euclidean_division_equations; lia.
Qed.

Lemma data_usable b : datastart sb ≤ b < sb_size sb → usable G b.
Proof.
  intros Hb. destruct HG as [Hl Hs Hn Hi Hd Hz]. unfold usable, datastart, BPB, IPB in *.
  split; Z.to_euclidean_division_equations; lia.
Qed.

(** Two blocks with their bits in the same bitmap block. *)
Lemma marked_index b b' :
  0 ≤ b → 0 ≤ b' → b / BPB = b' / BPB → Z.to_nat (b mod BPB) = Z.to_nat (b' mod BPB) → b = b'.
Proof. intros. unfold BPB in *. Z.to_euclidean_division_equations. lia. Qed.

Lemma bit_in_block b : 0 ≤ b → (Z.to_nat (b mod BPB) / 8 < BSIZE)%nat.
Proof.
  intros. unfold BPB, BSIZE. apply Nat.Div0.div_lt_upper_bound. pose proof (Z.mod_pos_bound b 4096 ltac:(lia)). lia.
Qed.

(** [balloc] marks the block it returns and no other, and changes no other
    block. *)
Lemma marked_alloc V b x :
  (∀ m, length (V m) = BSIZE) → datastart sb ≤ b < sb_size sb → 0 ≤ x < sb_size sb →
  marked sb (alloc_view sb V b) x = (bool_decide (x = b) || marked sb V x)%bool.
Proof.
  intros Hlen Hb Hx. unfold marked, alloc_view. pose proof (bmap_block x Hx). pose proof (fl_data _ _ HG).
  assert (0 ≤ b) by (pose proof (bmap_block b ltac:(pose proof (bmap_block x Hx); lia)); lia).
  rewrite upd_ne by lia. destruct (decide (x / BPB = b / BPB)) as [He|He].
  - rewrite He, upd_eq, bit_clear_set by (rewrite Hlen; by apply bit_in_block).
    rewrite negb_andb, negb_involutive. f_equal. apply bool_decide_ext. split; [|by intros ->].
    intros Heq. symmetry. apply marked_index; done || lia.
  - rewrite upd_ne by lia. rewrite bool_decide_eq_false_2; [done|]. by intros ->.
Qed.

Lemma marked_free V b x :
  (∀ m, length (V m) = BSIZE) → 0 ≤ b < sb_size sb → 0 ≤ x < sb_size sb →
  marked sb (free_view sb V b) x = (negb (bool_decide (x = b)) && marked sb V x)%bool.
Proof.
  intros Hlen Hb Hx. unfold marked, free_view. destruct (decide (x / BPB = b / BPB)) as [He|He].
  - rewrite He, upd_eq, bit_clear_clear by (rewrite Hlen; apply bit_in_block; lia).
    rewrite negb_orb. do 2 f_equal. apply bool_decide_ext. split; [|by intros ->].
    intros Heq. symmetry. apply marked_index; done || lia.
  - rewrite upd_ne by lia. rewrite bool_decide_eq_false_2; [done|]. by intros ->.
Qed.

Lemma bzero_ok n L V I s b :
  fs (S n) L V I s → usable G b → b ∉ L.*1 → (length L ≤ 2)%nat →
  tot (bzero mypid ROOTDEV b) (λ _ s', fs n L (upd V b zero_block) I s') s.
Proof.
  intros H Hu Hb HL. unfold bzero. destruct HG as [_ _ _ _ _ Hz]. destruct Hu as [Hu1 Hu2].
  rewrite u32_small by lia. call fs_bread_ok; [done|done|lia|done|]. intros bp s1 H1.
  call (fs_store_ok n _ _ _ _ b).
  { exact H1. } { set_solver. } { done. } { done. } { by apply Forall_replicate. }
  intros _ s2 H2. eapply fs_brelse_ok, H2.
Qed.

Lemma free_bit_Some d b sz bi fuel k :
  free_bit d b sz bi fuel = Some k →
  (bi ≤ k < bi + fuel)%nat ∧ b + Z.of_nat k < sz ∧ bit_clear d k = true ∧
  ∀ j, (bi ≤ j < k)%nat → bit_clear d j = false.
Proof.
  revert bi; induction fuel as [|fuel IH]; intros bi; cbn [free_bit]; [done|].
  destruct (Z.ltb_spec (b + Z.of_nat bi) sz); [|done]. destruct (bit_clear d bi) eqn:E.
  - intros [= <-]. split_and!; [lia|lia|lia|done|]. intros j. lia.
  - intros (H1 & H2 & H3 & H4)%IH. split_and!; [lia|lia|lia|done|]. intros j Hj.
    destruct (decide (j = bi)) as [->|]; [done|]. apply H4. lia.
Qed.

Lemma free_bit_None d b sz bi fuel :
  free_bit d b sz bi fuel = None →
  ∀ j, (bi ≤ j < bi + fuel)%nat → b + Z.of_nat j < sz → bit_clear d j = false.
Proof.
  revert bi; induction fuel as [|fuel IH]; intros bi; cbn [free_bit]; [lia|].
  destruct (Z.ltb_spec (b + Z.of_nat bi) sz); [|intros _ j; lia]. destruct (bit_clear d bi) eqn:E; [done|].
  intros HN j Hj Hs. destruct (decide (j = bi)) as [->|]; [done|]. apply (IH _ HN); lia.
Qed.

(** Bit [j] of the bitmap block that starts with block [k * BPB]. *)
Lemma marked_bit V k j :
  (j < 4096)%nat →
  marked sb V (Z.of_nat k * BPB + Z.of_nat j) = negb (bit_clear (V (Z.of_nat k + sb_bmapstart sb)) j).
Proof.
  intros Hj. unfold marked, BPB. rewrite Z.div_add_l, Z.div_small, Z.add_0_r by lia.
  rewrite (Z.add_comm (Z.of_nat k * 4096)), Z.mod_add, Z.mod_small, Nat2Z.id by lia. done.
Qed.

(** What [balloc] returns: the first free block. *)
Definition allocated (n : nat) (L : list (Z * nat)) (V : Z → block) (I : list inode) (a : Z) (s' : fstate) : Prop :=
  datastart sb ≤ a < sb_size sb ∧ marked sb V a = false ∧
  (∀ b, 0 ≤ b < a → marked sb V b = true) ∧ fs n L (alloc_view sb V a) I s'.

Lemma first_free_data V a : meta_marked sb V → 0 ≤ a → marked sb V a = false → datastart sb ≤ a.
Proof. intros Hm Ha Hf. destruct (decide (a < datastart sb)); [|lia]. rewrite Hm in Hf; [done|lia]. Qed.

Lemma balloc_loop_ok len k n L V I s b0 :
  fs (S (S n)) L V I s → (length L ≤ 2)%nat → meta_marked sb V →
  (∀ x, x ∈ L.*1 → datastart sb ≤ x ∧ marked sb V x = true) →
  (∀ b, 0 ≤ b < Z.of_nat k * BPB → b < sb_size sb → marked sb V b = true) →
  0 ≤ b0 < sb_size sb → b0 < Z.of_nat (k + len) * BPB → marked sb V b0 = false →
  tot (balloc_loop mypid ROOTDEV (map (λ k, Z.of_nat k * BPB) (seq k len))) (allocated n L V I) s.
Proof.
  revert k n s; induction len as [|len IH]; intros k n s H HL Hmeta HLm Hbelow Hb0 Hlt Hfree.
  { rewrite Hbelow in Hfree; [done|rewrite Nat.add_0_r in Hlt; lia|lia]. }
  assert (Z.of_nat k * BPB ≤ b0) as Hk.
  { destruct (decide (b0 < Z.of_nat k * BPB)); [|lia]. rewrite Hbelow in Hfree; [done|lia..]. }
  assert (0 ≤ Z.of_nat k * BPB < sb_size sb) as Hkb by (unfold BPB in *; lia).
  cbn [seq map balloc_loop]. tot_step. rewrite (f_sb _ _ _ _ _ H).
  pose proof (bmap_block _ Hkb) as Hbb. pose proof (bmap_usable _ Hkb) as Hub. rewrite BBLOCK_eq by done.
  rewrite Z.div_mul in * by (unfold BPB; lia). set (bb := Z.of_nat k + sb_bmapstart sb) in *.
  assert (bb ∉ L.*1) as HbL by (intros [? _]%HLm; lia).
  call fs_bread_ok; [done|done|apply Hub|done|]. intros bp s1 H1.
  eapply tot_bind, fs_data_ok; [exact H1|apply elem_of_cons; by left|]. cbv beta.
  destruct (free_bit (V bb) (Z.of_nat k * BPB) (sb_size sb) 0 (Z.to_nat BPB)) as [bi|] eqn:E.
  - apply free_bit_Some in E as (Hbi & Hsz & Hclear & Hmin). set (a := Z.of_nat k * BPB + Z.of_nat bi).
    assert (bi < 4096)%nat as Hbi' by (unfold BPB in Hbi; lia).
    assert (marked sb V a = false) as Ha by (unfold a; rewrite marked_bit by done; fold bb; by rewrite Hclear).
    assert (datastart sb ≤ a) as Hda by (apply (first_free_data V); [done|unfold a; lia|done]).
    assert (a / BPB + sb_bmapstart sb = bb ∧ Z.to_nat (a mod BPB) = bi) as [Hab Hai].
    { unfold a, bb, BPB in *. rewrite Z.div_add_l, Z.div_small by lia.
      rewrite (Z.add_comm (Z.of_nat k * 4096)), Z.mod_add, Z.mod_small by lia. lia. }
    call (fs_store_ok (S n) _ V I s1 bb bp).
    { exact H1. } { set_solver. } { done. }
    { rewrite length_put8. by eapply fs_length. } { eapply bytes_put8, fs_bytes, H1. }
    intros _ s2 H2. call fs_brelse_ok; [exact H2|]. intros _ s3 H3.
    call bzero_ok; [exact H3| | |done|].
    { apply data_usable. unfold a in *. lia. }
    { intros [_ Hm]%HLm. fold a in Hm. congruence. }
    intros _ s4 H4. apply tot_ret. split_and!; [done|unfold a in *; lia|done| |].
    + intros b Hb. destruct (decide (b < Z.of_nat k * BPB)); [apply Hbelow; lia|].
      unfold a in Hb. replace b with (Z.of_nat k * BPB + Z.of_nat (Z.to_nat (b - Z.of_nat k * BPB))) by lia.
      rewrite marked_bit by lia. fold bb. rewrite Hmin by lia. done.
    + unfold alloc_view. fold a. rewrite Hab, Hai. exact H4.
  - call fs_brelse_ok; [exact H1|]. intros _ s2 H2. apply IH; try done.
    + intros b Hb Hs. destruct (decide (b < Z.of_nat k * BPB)); [apply Hbelow; lia|].
      replace b with (Z.of_nat k * BPB + Z.of_nat (Z.to_nat (b - Z.of_nat k * BPB))) by lia.
      unfold BPB in *. rewrite marked_bit by lia. fold bb.
      rewrite (free_bit_None _ _ _ _ _ E) by lia. done.
    + replace (S k + len)%nat with (k + S len)%nat by lia. done.
Qed.

Lemma balloc_ok n L V I s b0 :
  fs (S (S n)) L V I s → (length L ≤ 2)%nat → meta_marked sb V →
  (∀ x, x ∈ L.*1 → datastart sb ≤ x ∧ marked sb V x = true) →
  0 ≤ b0 < sb_size sb → marked sb V b0 = false →
  tot (balloc mypid ROOTDEV) (allocated n L V I) s.
Proof.
  intros H HL Hmeta HLm Hb0 Hfree. unfold balloc. tot_step. rewrite (f_sb _ _ _ _ _ H).
  unfold bitmap_starts. eapply (balloc_loop_ok _ 0 n L V I s b0); try done; [lia|].
  unfold BPB. Z.to_euclidean_division_equations. lia.
Qed.

Lemma bfree_ok n L V I s b :
  fs (S n) L V I s → (length L ≤ 2)%nat → (∀ x, x ∈ L.*1 → datastart sb ≤ x) →
  0 ≤ b < sb_size sb → marked sb V b = true →
  tot (bfree mypid ROOTDEV b) (λ _ s', fs n L (free_view sb V b) I s') s.
Proof.
  intros H HL HLm Hb Hm. unfold bfree. tot_step. rewrite (f_sb _ _ _ _ _ H), BBLOCK_eq by done.
  pose proof (bmap_block _ Hb) as Hbb. pose proof (bmap_usable _ Hb) as Hub.
  call fs_bread_ok; [done|by intros ?%HLm; lia|apply Hub|done|]. intros bp s1 H1.
  eapply tot_bind, fs_data_ok; [exact H1|apply elem_of_cons; by left|]. cbv beta.
  unfold marked in Hm. apply negb_true_iff in Hm. rewrite Hm.
  call (fs_store_ok n _ V I s1 (b / BPB + sb_bmapstart sb) bp).
  { exact H1. } { set_solver. } { done. }
  { rewrite length_put8. by eapply fs_length. } { eapply bytes_put8, fs_bytes, H1. }
  intros _ s2 H2. eapply fs_brelse_ok, H2.
Qed.
End Blocks.
