(* ===== verification/FsInode.v ===== *)
(** * Inodes on the disk

    The disk format of inodes as an encoding, the contract of [iupdate], and the
    sleep locks of inodes when nobody else wants them. *)

From S2P Require Import Prelude Locks Bytes Str Bio Log Txn Fs FsBlocks.

(** ** The encoding *)

Lemma get8_put32_ne j k v l : (j < k ∨ k + 3 < j)%nat → get8 (put32 k v l) j = get8 l j.
Proof. intros. unfold put32. by rewrite !get8_put16_ne by lia. Qed.

Lemma get8_put_addrs_ne j o l d :
  (j < o ∨ o + 4 * length l ≤ j)%nat → get8 (put_addrs o l d) j = get8 d j.
Proof.
  revert o d; induction l as [|a l IH]; intros o d Hj; cbn [put_addrs]; [done|]. simpl in Hj.
  rewrite IH by lia. apply get8_put32_ne. lia.
Qed.

Lemma length_put_addrs o l d : length (put_addrs o l d) = length d.
Proof. revert o d; induction l; intros o d; cbn [put_addrs]; [done|]. by rewrite IHl, length_put32. Qed.

Lemma bytes_put_addrs o l d : bytes d → bytes (put_addrs o l d).
Proof. revert o d; induction l; intros o d Hd; cbn [put_addrs]; [done|]. by apply IHl, bytes_put32. Qed.

Lemma get32_ext d d' k : (∀ j, (k ≤ j < k + 4)%nat → get8 d j = get8 d' j) → get32 d k = get32 d' k.
Proof. intros H. unfold get32, get16. by rewrite !H by lia. Qed.
Lemma get16_ext d d' k : (∀ j, (k ≤ j < k + 2)%nat → get8 d j = get8 d' j) → get16 d k = get16 d' k.
Proof. intros H. unfold get16. by rewrite !H by lia. Qed.

Lemma get_put_addrs o l d k a :
  (o + 4 * length l ≤ length d)%nat → l !! k = Some a → get32 (put_addrs o l d) (o + 4 * k) = u32 a.
Proof.
  revert o d k; induction l as [|x l IH]; intros o d k Hd Hk; [done|]. cbn [put_addrs]. simpl in Hd.
  destruct k as [|k]; simpl in Hk.
  - simplify_eq. rewrite Nat.mul_0_r, Nat.add_0_r.
    rewrite (get32_ext _ (put32 o a d)); [apply get32_put32; lia|]. intros j Hj. apply get8_put_addrs_ne. lia.
  - replace (o + 4 * S k)%nat with (o + 4 + 4 * k)%nat by lia. apply IH; [|done]. rewrite length_put32. lia.
Qed.

Definition short (z : Z) : Prop := -32768 ≤ z < 32768.
Definition uint (z : Z) : Prop := 0 ≤ z < 4294967296.

(** The fields of a disk inode fit their widths. *)
Record dinode_ok (x : dinode) : Prop := {
  do_type : short (d_type x); do_major : short (d_major x); do_minor : short (d_minor x);
  do_nlink : short (d_nlink x); do_size : uint (d_size x);
  do_addrs : length (d_addrs x) = 13%nat; do_addr : Forall uint (d_addrs x) }.

Lemma i16_mod v : short v → i16 (v mod 65536) = v.
Proof. intros [? ?]. unfold i16. Z.to_euclidean_division_equations. lia. Qed.

Lemma i16_short z : short (i16 z).
Proof. unfold short, i16. pose proof (Z.mod_pos_bound (z + 32768) 65536). lia. Qed.

Lemma length_put_dinode o x d : length (put_dinode o x d) = length d.
Proof. unfold put_dinode. by rewrite length_put_addrs, length_put32, !length_put16. Qed.
Lemma bytes_put_dinode o x d : bytes d → bytes (put_dinode o x d).
Proof. intros. unfold put_dinode. by apply bytes_put_addrs, bytes_put32, bytes_put16, bytes_put16, bytes_put16, bytes_put16. Qed.

(** Storing an inode touches its 64 bytes only. *)
Lemma put_dinode_outside o x d j :
  length (d_addrs x) = 13%nat → (j < o ∨ o + 64 ≤ j)%nat → get8 (put_dinode o x d) j = get8 d j.
Proof.
  intros Hl Hj. unfold put_dinode. rewrite get8_put_addrs_ne by lia. rewrite get8_put32_ne by lia.
  rewrite !get8_put16_ne by lia. done.
Qed.

Lemma get_dinode_ext o d d' :
  (∀ j, (o ≤ j < o + 64)%nat → get8 d j = get8 d' j) → get_dinode o d = get_dinode o d'.
Proof.
  intros H. unfold get_dinode.
  rewrite (get16_ext d d' o), (get16_ext d d' (o + 2)), (get16_ext d d' (o + 4)), (get16_ext d d' (o + 6)),
    (get32_ext d d' (o + 8)) by (intros j Hj; apply H; lia).
  f_equal. unfold get_addrs. apply map_ext_in. intros k Hk%in_seq. apply get32_ext. intros j Hj. apply H.
  unfold NDIRECT in Hk. lia.
Qed.

(** Reading back a stored inode. *)
Lemma get_put_dinode o x d :
  (o + 64 ≤ length d)%nat → dinode_ok x → get_dinode o (put_dinode o x d) = x.
Proof.
  intros Hd [H1 H2 H3 H4 H5 H6 H7]. unfold get_dinode.
  assert (∀ k, (k + 1 < o + 12)%nat → get16 (put_dinode o x d) k =
    get16 (put32 (o + 8) (d_size x) (put16 (o + 6) (d_nlink x) (put16 (o + 4) (d_minor x)
      (put16 (o + 2) (d_major x) (put16 o (d_type x) d))))) k) as Hk.
  { intros k Hk. apply get16_ext. intros j Hj. apply get8_put_addrs_ne. lia. }
  assert (get32 (put_dinode o x d) (o + 8) = d_size x) as ->.
  { erewrite get32_ext by (intros j Hj; apply get8_put_addrs_ne; lia).
    rewrite get32_put32 by (rewrite !length_put16; lia). unfold uint in H5. by rewrite u32_small. }
  rewrite !Hk by lia.
  assert (∀ k d', (k + 1 < o + 8)%nat → get16 (put32 (o + 8) (d_size x) d') k = get16 d' k) as Hz.
  { intros k d' Hk'. apply get16_ext. intros j Hj. apply get8_put32_ne. lia. }
  rewrite !Hz by lia.
  rewrite (get16_put16 (o + 6)), (get16_put16_ne (o + 4) (o + 6)), (get16_put16 (o + 4)),
    (get16_put16_ne (o + 2) (o + 6)), (get16_put16_ne (o + 2) (o + 4)), (get16_put16 (o + 2)),
    (get16_put16_ne o (o + 6)), (get16_put16_ne o (o + 4)), (get16_put16_ne o (o + 2)), (get16_put16 o)
    by (rewrite ?length_put16; lia).
  rewrite !i16_mod by done.
  assert (get_addrs (o + 12) (put_dinode o x d) = d_addrs x) as ->; [|by destruct x].
  unfold get_addrs. apply list_eq. intros k. rewrite list_lookup_fmap.
  destruct (d_addrs x !! k) as [a|] eqn:E.
  - rewrite lookup_seq_lt by (apply lookup_lt_Some in E; unfold NDIRECT; lia). simpl. f_equal.
    unfold put_dinode. rewrite (get_put_addrs (o + 12) _ _ k a); [|rewrite length_put32, !length_put16; lia|done].
    apply u32_small. rewrite Forall_lookup in H7. by apply (H7 k).
  - rewrite lookup_seq_ge by (apply lookup_ge_None in E; unfold NDIRECT; lia). done.
Qed.

Section Inodes.
Context (mypid : Z) (G : layout) (sb : superblock) (HG : fslayout G sb).

Local Abbreviation fs := (fs mypid G sb).

(** The block of inode [n], and a valid inode number. *)
Definition iblk (n : Z) : Z := n / IPB + sb_inodestart sb.
Definition inum_ok (n : Z) : Prop := 0 ≤ n < sb_ninodes sb.

Lemma IBLOCK_eq n : inum_ok n → IBLOCK n sb = iblk n.
Proof.
  intros [Hn1 Hn2]. destruct HG as [Hl Hs Hn Hi Hd Hz]. unfold IBLOCK, iblk, datastart, BPB, IPB in *. apply u32_small.
  Z.to_euclidean_division_equations. lia.
Qed.
Lemma iblk_range n : inum_ok n → 0 ≤ iblk n < sb_bmapstart sb.
Proof.
  intros [Hn1 Hn2]. destruct HG as [Hl Hs Hn Hi Hd Hz]. unfold iblk, datastart, BPB, IPB in *.
  Z.to_euclidean_division_equations. lia.
Qed.
Lemma iblk_usable n : inum_ok n → usable G (iblk n).
Proof.
  intros [Hn1 Hn2]. destruct HG as [Hl Hs Hn Hi Hd Hz]. unfold usable, iblk, datastart, BPB, IPB in *.
  split; Z.to_euclidean_division_equations; lia.
Qed.
Lemma iblk_data n : inum_ok n → iblk n < datastart sb.
Proof.
  intros H%iblk_range. unfold datastart. pose proof (fl_data _ _ HG). unfold datastart, BPB in *.
  assert (0 ≤ sb_size sb / 4096); [|lia]. destruct HG as [Hl Hs Hn Hi Hd Hz].
  unfold datastart, BPB, IPB in *. Z.to_euclidean_division_equations. lia.
Qed.
Lemma dinode_off_bound n : (dinode_off n + 64 ≤ BSIZE)%nat.
Proof. unfold dinode_off, IPB, BSIZE. pose proof (Z.mod_pos_bound n 8). lia. Qed.
Lemma dinode_off_ne n n' : 0 ≤ n → 0 ≤ n' → n ≠ n' → iblk n = iblk n' →
  (dinode_off n + 64 ≤ dinode_off n' ∨ dinode_off n' + 64 ≤ dinode_off n)%nat.
Proof. intros. unfold dinode_off, iblk, IPB in *. Z.to_euclidean_division_equations. lia. Qed.

(** Inode [n] as the disk has it. *)
Definition disk_inode (V : Z → block) (n : Z) : dinode := get_dinode (dinode_off n) (V (iblk n)).
(** The view after [iupdate]. *)
Definition inode_view (V : Z → block) (n : Z) (x : dinode) : Z → block :=
  upd V (iblk n) (put_dinode (dinode_off n) x (V (iblk n))).

Lemma disk_inode_view V n x n' :
  0 ≤ n → 0 ≤ n' → (∀ m, length (V m) = BSIZE) → dinode_ok x →
  disk_inode (inode_view V n x) n' = if decide (n' = n) then x else disk_inode V n'.
Proof.
  intros Hn Hn' Hlen Hx. unfold disk_inode, inode_view. case_decide as Hne.
  - subst n'. rewrite upd_eq. apply get_put_dinode; [|done]. rewrite Hlen. apply dinode_off_bound.
  - destruct (decide (iblk n' = iblk n)) as [He|He]; [|by rewrite upd_ne].
    rewrite He, upd_eq. apply get_dinode_ext. intros j Hj. apply put_dinode_outside; [apply Hx|].
    destruct (dinode_off_ne n' n Hn' Hn Hne He); lia.
Qed.

Lemma inode_at_fs n L V I s ip i : fs n L V I s → I !! ip = Some i → inode_at ip s = i.
Proof. intros H Hi. unfold inode_at. by rewrite (f_inodes _ _ _ _ _ _ _ _ H), Hi. Qed.

Lemma iupdate_ok n L V I s ip i :
  fs (S n) L V I s → (length L ≤ 2)%nat → (∀ x, x ∈ L.*1 → datastart sb ≤ x) →
  I !! ip = Some i → idev i = ROOTDEV → inum_ok (inum i) →
  tot (iupdate mypid ip) (λ _ s', fs n L (inode_view V (inum i) (to_dinode i)) I s') s.
Proof.
  intros H HL HLd Hi Hd Hn. unfold iupdate. do 2 tot_step.
  rewrite (inode_at_fs _ _ _ _ _ _ _ H Hi), (f_sb _ _ _ _ _ _ _ _ H), IBLOCK_eq, Hd by done.
  call fs_bread_ok; [exact H| |by apply iblk_usable|done|].
  { intros Hin%HLd. pose proof (iblk_data _ Hn). lia. }
  intros bp s1 H1. call (fs_store_ok mypid G sb n _ V I s1 (iblk (inum i)) bp).
  { exact H1. } { set_solver. } { by apply iblk_usable. }
  { rewrite length_put_dinode. by eapply fs_length. } { eapply bytes_put_dinode, fs_bytes, H1. }
  intros _ s2 H2. eapply fs_brelse_ok, H2.
Qed.

(** ** Locks of inodes *)

Lemma alter_inode (I : list inode) (ip : nat) (f : inode → inode) i : I !! ip = Some i → alter f ip I = <[ip := f i]> I.
Proof.
  intros Hi. apply list_eq. intros j. rewrite list_lookup_alter.
  case_decide; [subst|by rewrite list_lookup_insert_ne].
  by rewrite Hi, list_lookup_insert_eq by (by eapply lookup_lt_Some).
Qed.

Lemma upd_inode_ok n L V I s ip i f :
  fs n L V I s → I !! ip = Some i →
  tot (upd_inode ip f) (λ _ s', fs n L V (<[ip := f i]> I) s') s.
Proof.
  intros H Hi. apply tot_modify. rewrite (f_inodes _ _ _ _ _ _ _ _ H), (alter_inode _ _ _ _ Hi).
  by eapply fs_set_inodes.
Qed.

Lemma on_ilock_ok {A} n L V I s ip i (m : M Sleeplock.sleeplock A) (Q : A → Sleeplock.sleeplock → Prop) :
  fs n L V I s → I !! ip = Some i → tot m Q (ilk i) →
  tot (on_ilock ip m) (λ a s', ∃ l, Q a l ∧ fs n L V (<[ip := set_ilk l i]> I) s') s.
Proof.
  intros H Hi Hm. unfold on_ilock. apply tot_zoom. rewrite (inode_at_fs _ _ _ _ _ _ _ H Hi).
  eapply tot_mono; [exact Hm|]. intros a l Hl. exists l. split; [done|].
  rewrite (f_inodes _ _ _ _ _ _ _ _ H), (alter_inode _ _ _ _ Hi). by eapply fs_set_inodes.
Qed.
End Inodes.

(** ** Sleep locks of inodes *)

Lemma tot_acquiresleep mypid id l :
  Sleeplock.locked l = 0 → tot (Sleeplock.acquiresleep id mypid) (λ _ l', l' = Sleeplock.SL 1 mypid) l.
Proof.
  intros Hl tr. eexists tt, tr, _. split; [|done]. unfold Sleeplock.acquiresleep.
  rewrite bind_acquire by set_solver. unfold mbind, M_bind, get, put. rewrite Hl. simpl.
  by rewrite release_head by set_solver.
Qed.
Lemma tot_holdingsleep mypid id l :
  l = Sleeplock.SL 1 mypid → tot (Sleeplock.holdingsleep id mypid) (λ h l', h = true ∧ l' = l) l.
Proof.
  intros -> tr. eexists true, tr, _. split; [|done]. unfold Sleeplock.holdingsleep.
  rewrite bind_acquire by set_solver. unfold mbind, M_bind, get. cbn [held trace].
  rewrite release_head by set_solver. simpl. by rewrite Z.eqb_refl.
Qed.
Lemma tot_releasesleep id l : tot (Sleeplock.releasesleep id) (λ _ l', l' = Sleeplock.SL 0 0) l.
Proof.
  intros tr. eexists tt, _, _. split; [|done]. unfold Sleeplock.releasesleep.
  rewrite bind_acquire by set_solver. unfold mbind, M_bind, put, emit. cbn [held trace].
  by rewrite release_head by set_solver.
Qed.
