(* ===== verification/FsFile.v ===== *)
(** * File contents

    A file as its bytes: the map from block numbers of a file to disk blocks,
    [bmap] that extends it, and the contracts of [readi] and [writei]. *)

From S2P Require Import Prelude Locks Bytes Str Bio Log Txn Fs FsBlocks FsInode.

Section Files.
Context (mypid : Z) (G : layout) (sb : superblock) (HG : fslayout G sb).

Local Abbreviation fs := (fs mypid G sb).
Local Abbreviation marked := (marked sb).
Local Abbreviation alloc_view := (alloc_view sb).

(** ** Counting free blocks *)

Definition free_list (V : Z → block) : list Z :=
  filter (λ b, marked V b = false) (seqZ 0 (sb_size sb)).
Definition nfree (V : Z → block) : nat := length (free_list V).

Lemma nfree_pos V : (0 < nfree V)%nat → ∃ b, 0 ≤ b < sb_size sb ∧ marked V b = false.
Proof.
  unfold nfree. destruct (free_list V) as [|b l] eqn:E; simpl; [lia|]. intros _. exists b.
  assert (b ∈ free_list V) as Hb by (rewrite E; set_solver).
  apply list_elem_of_filter in Hb as [Hb Hin]. apply elem_of_seqZ in Hin. split; [lia|done].
Qed.

Lemma filter_ext_in (l : list Z) (P Q : Z → Prop) `{!∀ x, Decision (P x), !∀ x, Decision (Q x)} :
  (∀ x, x ∈ l → P x ↔ Q x) → filter P l = filter Q l.
Proof.
  induction l as [|x l IH]; intros HPQ; [done|]. assert (P x ↔ Q x) as Hx by (apply HPQ; set_solver).
  rewrite !filter_cons, IH by set_solver. repeat case_decide; tauto || done.
Qed.

Lemma filter_remove (l : list Z) a (P Q : Z → Prop) `{!∀ x, Decision (P x), !∀ x, Decision (Q x)} :
  NoDup l → a ∈ l → P a → (∀ x, x ∈ l → Q x ↔ P x ∧ x ≠ a) → length (filter P l) = S (length (filter Q l)).
Proof.
  induction l as [|x l IH]; intros Hnd Ha HP HQ; [set_solver|]. apply NoDup_cons in Hnd as [Hx Hnd].
  destruct (decide (x = a)) as [->|Hne].
  - rewrite filter_cons_True by done. rewrite filter_cons_False by (rewrite HQ; set_solver). simpl. f_equal.
    apply (f_equal length), filter_ext_in. intros y Hy. rewrite HQ by set_solver.
    split; [intros; split; [done|]; by intros ->|tauto].
  - assert (a ∈ l) as Hal by set_solver. specialize (IH Hnd Hal HP ltac:(intros y Hy; apply HQ; set_solver)).
    destruct (decide (P x)).
    + rewrite filter_cons_True by done. rewrite (filter_cons_True Q) by (rewrite HQ; set_solver). simpl. by rewrite IH.
    + rewrite filter_cons_False by done. rewrite (filter_cons_False Q) by (rewrite HQ; set_solver). done.
Qed.

Lemma nfree_alloc V a :
  (∀ m, length (V m) = BSIZE) → datastart sb ≤ a < sb_size sb → marked V a = false →
  nfree V = S (nfree (alloc_view V a)).
Proof.
  intros Hlen Ha Hm. unfold nfree, free_list. apply (filter_remove _ a).
  - apply NoDup_seqZ.
  - apply elem_of_seqZ. pose proof (bmap_block G sb HG). assert (0 ≤ datastart sb); [|lia].
    destruct HG as [Hl Hs Hn Hi Hd Hz]. unfold datastart, BPB, IPB in *. Z.to_euclidean_division_equations. lia.
  - done.
  - intros x Hx%elem_of_seqZ. rewrite (marked_alloc G) by (done || lia). rewrite orb_false_iff, bool_decide_eq_false. tauto.
Qed.

(** ** The block map of a file *)

Definition ind (i : inode) : Z := nth NDIRECT (addrs i) 0.
Definition blk_addr (V : Z → block) (i : inode) (bn : Z) : Z :=
  if bn <? Z.of_nat NDIRECT then nth (Z.to_nat bn) (addrs i) 0
  else if ind i =? 0 then 0
  else get32 (V (ind i)) (4 * Z.to_nat (bn - Z.of_nat NDIRECT)).

(** A data block in use. *)
Definition data_block (V : Z → block) (b : Z) : Prop := datastart sb ≤ b < sb_size sb ∧ marked V b = true.

(** A file's blocks are data blocks in use, all different, and cover its size. *)
Record file_ok (V : Z → block) (i : inode) : Prop := {
  fo_dev : idev i = ROOTDEV;
  fo_inum : inum_ok sb (inum i);
  fo_dinode : dinode_ok (to_dinode i);
  fo_type : itype i ≠ T_DEV;
  fo_size : 0 ≤ isize i ≤ MAXFILE * Z.of_nat BSIZE;
  fo_ind : ind i ≠ 0 → data_block V (ind i);
  fo_blk bn : 0 ≤ bn < MAXFILE → blk_addr V i bn ≠ 0 →
    data_block V (blk_addr V i bn) ∧ blk_addr V i bn ≠ ind i;
  fo_inj bn bn' : 0 ≤ bn < MAXFILE → 0 ≤ bn' < MAXFILE → blk_addr V i bn ≠ 0 →
    blk_addr V i bn = blk_addr V i bn' → bn = bn';
  fo_map bn : 0 ≤ bn → bn * Z.of_nat BSIZE < isize i → blk_addr V i bn ≠ 0 }.

Lemma datastart_pos : 0 < datastart sb.
Proof. destruct HG as [Hl Hs Hn Hi Hd Hz]. unfold datastart, BPB, IPB in *. Z.to_euclidean_division_equations. lia. Qed.

(** Data blocks are not bitmap blocks: changing one changes no mark. *)
Lemma marked_upd V b x m :
  datastart sb ≤ b → 0 ≤ m < sb_size sb → marked (upd V b x) m = marked V m.
Proof. intros Hb Hm. unfold FsBlocks.marked. pose proof (bmap_block G sb HG m Hm). by rewrite upd_ne by lia. Qed.

Lemma alloc_view_data V a b : datastart sb ≤ b → b ≠ a → 0 ≤ a < sb_size sb → alloc_view V a b = V b.
Proof.
  intros Hb Hne Ha. unfold FsBlocks.alloc_view. rewrite !upd_ne; [done| |done].
  pose proof (bmap_block G sb HG a Ha). lia.
Qed.
Lemma alloc_view_meta V a b : b < sb_bmapstart sb → datastart sb ≤ a < sb_size sb → alloc_view V a b = V b.
Proof.
  intros Hb Ha. unfold FsBlocks.alloc_view. pose proof datastart_pos. rewrite !upd_ne; [done| |].
  - unfold BPB. Z.to_euclidean_division_equations. lia.
  - assert (sb_bmapstart sb < datastart sb); [|lia]. unfold datastart, BPB. destruct HG as [Hl Hs Hn Hi Hd Hz].
    unfold datastart, BPB, IPB in *. Z.to_euclidean_division_equations. lia.
Qed.
Lemma alloc_view_new V a : alloc_view V a a = zero_block.
Proof. apply upd_eq. Qed.

(** ** Extending a file by a block *)

Definition with_addrs (l : list Z) (i : inode) : inode :=
  Inode (idev i) (inum i) (ref i) (ilk i) (valid i) (itype i) (major i) (minor i) (nlink i) (isize i) l.

(** [bmap] has given block [bn] of the file a fresh, zeroed disk block. *)
Record grown (V : Z → block) (i : inode) (bn : Z) (V' : Z → block) (i' : inode) : Prop := {
  gr_ok : file_ok V' i';
  gr_meta : meta_marked sb V';
  gr_addr : blk_addr V' i' bn ≠ 0;
  gr_same bn' : 0 ≤ bn' < MAXFILE → bn' ≠ bn → blk_addr V' i' bn' = blk_addr V i bn';
  gr_fresh : marked V (blk_addr V' i' bn) = false;
  gr_zero : V' (blk_addr V' i' bn) = zero_block;
  gr_frame m : data_block V m → m ≠ ind i → V' m = V m;
  gr_low m : m < sb_bmapstart sb → V' m = V m;
  gr_marked m : 0 ≤ m < sb_size sb → marked V m = true → marked V' m = true;
  gr_inode : i' = with_addrs (addrs i') i;
  gr_ind : ind i' = ind i ∨ marked V (ind i') = false }.

Lemma nth_set (l : list Z) k a j :
  (k < length l)%nat → nth j (<[k := a]> l) 0 = if decide (j = k) then a else nth j l 0.
Proof.
  intros Hk. rewrite !nth_lookup. case_decide; [subst; by rewrite list_lookup_insert_eq|].
  by rewrite list_lookup_insert_ne.
Qed.

Lemma addr_uint i k : dinode_ok (to_dinode i) → uint (nth k (addrs i) 0).
Proof.
  intros [_ _ _ _ _ _ H]. simpl in H. rewrite nth_lookup. destruct (addrs i !! k) eqn:E; simpl.
  - rewrite Forall_lookup in H. by apply (H k).
  - unfold uint. lia.
Qed.

(** A free data block becomes a data block in use. *)
Lemma data_block_alloc V a b :
  (∀ m, length (V m) = BSIZE) → datastart sb ≤ a < sb_size sb →
  data_block (alloc_view V a) b ↔ b = a ∨ data_block V b.
Proof.
  intros Hlen Ha. unfold data_block. pose proof datastart_pos. split.
  - intros [Hb Hm]. rewrite (marked_alloc G) in Hm by (done || lia).
    apply orb_true_iff in Hm as [Hm|Hm]; [left; by apply bool_decide_eq_true in Hm|by right].
  - intros [->|[Hb Hm]]; (split; [done|]); rewrite (marked_alloc G) by (done || lia).
    + by rewrite bool_decide_eq_true_2.
    + by rewrite Hm, orb_true_r.
Qed.

Lemma meta_marked_alloc V a :
  (∀ m, length (V m) = BSIZE) → datastart sb ≤ a < sb_size sb → meta_marked sb V → meta_marked sb (alloc_view V a).
Proof.
  intros Hlen Ha Hm b Hb. pose proof (fl_data _ _ HG). rewrite (marked_alloc G) by (done || lia).
  by rewrite Hm, orb_true_r.
Qed.

Lemma marked_mono V a m :
  (∀ m, length (V m) = BSIZE) → datastart sb ≤ a < sb_size sb → 0 ≤ m < sb_size sb →
  marked V m = true → marked (alloc_view V a) m = true.
Proof. intros Hlen Ha Hm H. rewrite (marked_alloc G) by done. by rewrite H, orb_true_r. Qed.

Lemma blk_addr_alloc V i a bn :
  file_ok V i → datastart sb ≤ a < sb_size sb → marked V a = false → blk_addr (alloc_view V a) i bn = blk_addr V i bn.
Proof.
  intros Hok Ha Hm. unfold blk_addr. destruct (bn <? Z.of_nat NDIRECT); [done|].
  destruct (Z.eqb_spec (ind i) 0); [done|]. destruct (fo_ind _ _ Hok) as [Hd Hmk]; [done|].
  rewrite alloc_view_data; [done|lia| |pose proof datastart_pos; lia]. intros He. congruence.
Qed.

Lemma dinode_ok_addrs i l :
  dinode_ok (to_dinode i) → length l = 13%nat → Forall uint l → dinode_ok (to_dinode (with_addrs l i)).
Proof. intros [] ? ?. by split. Qed.

Lemma set_addr_with k a i : set_addr k a i = with_addrs (<[k := a]> (addrs i)) i.
Proof. done. Qed.

Lemma grown_direct V i bn a :
  (∀ m, length (V m) = BSIZE) → meta_marked sb V → file_ok V i → 0 ≤ bn < Z.of_nat NDIRECT →
  blk_addr V i bn = 0 → datastart sb ≤ a < sb_size sb → marked V a = false →
  grown V i bn (alloc_view V a) (set_addr (Z.to_nat bn) a i).
Proof.
  intros Hlen Hmeta Hok Hbn H0 Ha Hm. pose proof datastart_pos as Hpos. pose proof (fl_size _ _ HG) as Hz.
  assert (length (addrs i) = 13%nat) as Hl by apply (do_addrs _ (fo_dinode _ _ Hok)).
  unfold NDIRECT in *. set (i' := set_addr (Z.to_nat bn) a i).
  assert (ind i' = ind i) as Hind. { unfold ind, i', NDIRECT. simpl. rewrite nth_set by lia. by rewrite decide_False by lia. }
  assert (∀ bn', 0 ≤ bn' → blk_addr (alloc_view V a) i' bn' = if decide (bn' = bn) then a else blk_addr V i bn') as Hadr.
  { intros bn' Hb'. rewrite <- (blk_addr_alloc V i a bn') by done. unfold blk_addr. rewrite Hind. unfold NDIRECT.
    destruct (Z.ltb_spec bn' (Z.of_nat 12)).
    - unfold i'. simpl. rewrite nth_set by lia. repeat case_decide; lia || done.
    - by rewrite decide_False by lia. }
  assert (∀ bn', 0 ≤ bn' < MAXFILE → blk_addr V i bn' ≠ a) as Hna.
  { intros bn' Hb' He. destruct (fo_blk _ _ Hok bn' Hb') as [[_ Hmk] _]; [rewrite He; lia|]. congruence. }
  split.
  - split; try apply Hok.
    + apply dinode_ok_addrs; [apply Hok|by rewrite length_insert|].
      apply Forall_insert; [apply (do_addr _ (fo_dinode _ _ Hok))|]. unfold uint. lia.
    + rewrite Hind. intros Hi. apply data_block_alloc; [done|done|]. right. by apply Hok.
    + intros bn' Hb'. rewrite Hadr, Hind by lia. case_decide; [intros _|].
      * split; [apply data_block_alloc; auto|]. intros He. destruct (fo_ind _ _ Hok); [lia|]. congruence.
      * intros Hne. destruct (fo_blk _ _ Hok bn' Hb' Hne). split; [|done]. apply data_block_alloc; auto.
    + intros b1 b2 Hb1 Hb2. rewrite !Hadr by lia. repeat case_decide; subst; try done.
      * intros _ He. by destruct (Hna b2).
      * intros _ He. by destruct (Hna b1).
      * by apply (fo_inj _ _ Hok).
    + intros bn' Hb' Hlt. rewrite Hadr by lia. case_decide; [lia|]. by apply (fo_map _ _ Hok).
  - by apply meta_marked_alloc.
  - rewrite Hadr, decide_True by lia. lia.
  - intros bn' Hb' Hne. by rewrite Hadr, decide_False by lia.
  - by rewrite Hadr, decide_True by lia.
  - rewrite Hadr, decide_True by lia. apply alloc_view_new.
  - intros m [Hmd Hmk] _. apply alloc_view_data; [lia| |lia]. intros ->. congruence.
  - intros m Hlow. by apply alloc_view_meta.
  - intros m Hr Hmk. by apply marked_mono.
  - done.
  - by left.
Qed.

(** A fresh indirect block maps nothing yet. *)
Lemma get32_zero k : get32 zero_block k = 0.
Proof.
  assert (∀ j, get8 zero_block j = 0) as H.
  { intros j. unfold get8. rewrite nth_lookup. unfold zero_block. destruct (decide (j < BSIZE)%nat).
    - by rewrite lookup_replicate_2.
    - rewrite lookup_ge_None_2; [done|]. rewrite length_replicate. lia. }
  unfold get32, get16. by rewrite !H.
Qed.

Lemma add_indirect V i a :
  (∀ m, length (V m) = BSIZE) → file_ok V i → ind i = 0 →
  datastart sb ≤ a < sb_size sb → marked V a = false →
  let i' := set_addr NDIRECT a i in
  ind i' = a ∧ file_ok (alloc_view V a) i' ∧ ∀ bn, blk_addr (alloc_view V a) i' bn = blk_addr V i bn.
Proof.
  intros Hlen Hok H0 Ha Hm i'. pose proof datastart_pos as Hpos. pose proof (fl_size _ _ HG) as Hz.
  assert (length (addrs i) = 13%nat) as Hl by apply (do_addrs _ (fo_dinode _ _ Hok)).
  assert (ind i' = a) as Hind. { unfold ind, i', NDIRECT. simpl. rewrite nth_set by lia. by rewrite decide_True. }
  assert (∀ bn, blk_addr (alloc_view V a) i' bn = blk_addr V i bn) as Hadr.
  { intros bn. unfold blk_addr. rewrite Hind, H0. unfold NDIRECT. destruct (Z.ltb_spec bn (Z.of_nat 12)).
    - unfold i'. simpl. rewrite nth_set by (unfold NDIRECT; lia). by rewrite decide_False by (unfold NDIRECT; lia).
    - rewrite Z.eqb_refl. destruct (Z.eqb_spec a 0); [done|]. rewrite alloc_view_new. apply get32_zero. }
  split; [done|]. split; [|done]. split; try apply Hok.
  - apply dinode_ok_addrs; [apply Hok|by rewrite length_insert|].
    apply Forall_insert; [apply (do_addr _ (fo_dinode _ _ Hok))|]. unfold uint. lia.
  - rewrite Hind. intros _. apply data_block_alloc; auto.
  - intros bn Hb. rewrite Hadr, Hind. intros Hne. destruct (fo_blk _ _ Hok bn Hb Hne) as [Hd _].
    split; [apply data_block_alloc; auto|]. intros He. destruct Hd as [_ Hd]. congruence.
  - intros b1 b2. rewrite !Hadr. apply (fo_inj _ _ Hok).
  - intros bn. rewrite Hadr. apply (fo_map _ _ Hok).
Qed.

Lemma grown_indirect V i bn a :
  (∀ m, length (V m) = BSIZE) → meta_marked sb V → file_ok V i → Z.of_nat NDIRECT ≤ bn < MAXFILE →
  ind i ≠ 0 → blk_addr V i bn = 0 → datastart sb ≤ a < sb_size sb → marked V a = false →
  grown V i bn (upd (alloc_view V a) (ind i) (put32 (4 * Z.to_nat (bn - Z.of_nat NDIRECT)) a (V (ind i)))) i.
Proof.
  intros Hlen Hmeta Hok Hbn Hi0 H0 Ha Hm. pose proof datastart_pos as Hpos. pose proof (fl_size _ _ HG) as Hz.
  destruct (fo_ind _ _ Hok Hi0) as [Hid Him]. set (V' := upd _ _ _).
  assert (∀ m, 0 ≤ m < sb_size sb → marked V' m = marked (alloc_view V a) m) as Hmk.
  { intros m Hr. apply marked_upd; [lia|done]. }
  assert (∀ m, data_block V' m ↔ data_block (alloc_view V a) m) as Hdb.
  { intros m. unfold data_block. split; intros [? Hx]; (split; [done|]); rewrite Hmk in * by lia; done. }
  assert (∀ bn', 0 ≤ bn' < MAXFILE → blk_addr V' i bn' = if decide (bn' = bn) then a else blk_addr V i bn') as Hadr.
  { intros bn' Hb'. unfold blk_addr. unfold NDIRECT, MAXFILE in *. destruct (Z.ltb_spec bn' (Z.of_nat 12)).
    - by rewrite decide_False by lia.
    - rewrite (proj2 (Z.eqb_neq _ _)) by done. unfold V'. rewrite upd_eq. case_decide as He.
      + rewrite He, get32_put32; [apply u32_small; lia|]. rewrite Hlen. unfold BSIZE. lia.
      + rewrite get32_put32_ne by lia. done. }
  assert (∀ bn', 0 ≤ bn' < MAXFILE → blk_addr V i bn' ≠ a) as Hna.
  { intros bn' Hb' He. destruct (fo_blk _ _ Hok bn' Hb') as [[_ Hx] _]; [rewrite He; lia|]. congruence. }
  assert (a ≠ ind i) as Hai by congruence. unfold NDIRECT in *.
  split.
  - split; try apply Hok.
    + intros _. apply Hdb, data_block_alloc; auto. right. by apply Hok.
    + intros bn' Hb'. rewrite Hadr by lia. case_decide; [intros _|].
      * split; [apply Hdb, data_block_alloc; auto|done].
      * intros Hne. destruct (fo_blk _ _ Hok bn' Hb' Hne). split; [|done]. apply Hdb, data_block_alloc; auto.
    + intros b1 b2 Hb1 Hb2. rewrite !Hadr by lia. repeat case_decide; subst; try done.
      * intros _ He. by destruct (Hna b2).
      * intros _ He. by destruct (Hna b1).
      * by apply (fo_inj _ _ Hok).
    + intros bn' Hb' Hlt. pose proof (fo_size _ _ Hok). unfold MAXFILE, BSIZE in *.
      rewrite Hadr by lia. case_decide; [lia|]. by apply (fo_map _ _ Hok).
  - intros b Hb. rewrite Hmk by (pose proof (fl_data _ _ HG); lia). by apply meta_marked_alloc.
  - rewrite Hadr, decide_True by lia. lia.
  - intros bn' Hb' Hne. by rewrite Hadr, decide_False by lia.
  - by rewrite Hadr, decide_True by lia.
  - rewrite Hadr, decide_True by lia. unfold V'. rewrite upd_ne by done. apply alloc_view_new.
  - intros m [Hmd Hmm] Hne. unfold V'. rewrite upd_ne by done. apply alloc_view_data; [lia| |lia]. intros ->. congruence.
  - intros m Hlow. unfold V'. rewrite upd_ne; [by apply alloc_view_meta|]. intros ->.
    assert (sb_bmapstart sb < datastart sb); [|lia]. unfold datastart, BPB. Z.to_euclidean_division_equations. lia.
  - intros m Hr Hx. rewrite Hmk by done. by apply marked_mono.
  - by destruct i.
  - by left.
Qed.

(** The same file with its indirect block added first. *)
Lemma grown_after_indirect V i a0 bn V' i' :
  (∀ m, length (V m) = BSIZE) → file_ok V i → ind i = 0 → datastart sb ≤ a0 < sb_size sb → marked V a0 = false →
  grown (alloc_view V a0) (set_addr NDIRECT a0 i) bn V' i' → 0 ≤ bn < MAXFILE → grown V i bn V' i'.
Proof.
  intros Hlen Hok H0 Ha Hm [K1 K2 K3 K4 K5 K6 K7 K8 K9 K10 K11] Hbn. pose proof datastart_pos as Hpos.
  destruct (add_indirect V i a0 Hlen Hok H0 Ha Hm) as (Hind & Hok1 & Hadr).
  split; try done.
  - intros bn' Hb' Hne. by rewrite K4, Hadr.
  - destruct (fo_blk _ _ K1 bn Hbn K3) as [[Hd _] _]. rewrite (marked_alloc G) in K5 by (done || lia).
    by apply orb_false_iff in K5 as [_ K5].
  - intros m Hmd Hne. rewrite K7.
    + destruct Hmd as [Hmd Hmk]. apply alloc_view_data; [lia| |lia]. intros ->. congruence.
    + apply data_block_alloc; auto.
    + rewrite Hind. destruct Hmd. congruence.
  - intros m Hlow. rewrite K8 by done. by apply alloc_view_meta.
  - intros m Hr Hmk. apply K9; [done|]. by apply marked_mono.
  - right. rewrite Hind in K11. destruct K11 as [->|K11]; [done|].
    assert (0 ≤ ind i' < sb_size sb) as Hr.
    { destruct (decide (ind i' = 0)) as [->|Hne]; [lia|]. destruct (fo_ind _ _ K1 Hne). lia. }
    rewrite (marked_alloc G) in K11 by (done || lia). by apply orb_false_iff in K11 as [_ K11].
Qed.

(** ** [bmap] *)

Lemma data_lt_disk V b : data_block V b → b < l_disk G.
Proof. intros [? _]. pose proof (fl_size _ _ HG). lia. Qed.

(** A block the file has. *)
Lemma bmap_old n V I s ip i bn :
  fs n [] V I s → I !! ip = Some i → file_ok V i → 0 ≤ bn < MAXFILE → blk_addr V i bn ≠ 0 →
  tot (bmap mypid ip bn) (λ a s', a = blk_addr V i bn ∧ fs n [] V I s') s.
Proof.
  intros H Hi Hok Hbn Hne. unfold bmap. tot_step. rewrite (inode_at_fs _ _ _ _ _ _ _ _ _ _ H Hi).
  unfold blk_addr, MAXFILE, NDIRECT, NINDIRECT in *. destruct (Z.ltb_spec bn (Z.of_nat 12)).
  - rewrite (proj2 (Z.eqb_neq _ _)) by done. by tot_step.
  - destruct (Z.ltb_spec (bn - Z.of_nat 12) (Z.of_nat 128)); [|lia]. fold NDIRECT. fold (ind i).
    destruct (Z.eqb_spec (ind i) 0); [done|]. tot_step. rewrite (fo_dev _ _ Hok). unfold bmap_indirect.
    call fs_bread_ok; [exact H|set_solver|by eapply data_lt_disk, Hok|simpl; lia|]. intros bp s1 F1.
    eapply tot_bind, fs_data_ok; [exact F1|apply elem_of_cons; by left|]. cbv beta.
    rewrite (proj2 (Z.eqb_neq _ _)) by done. tot_step. call fs_brelse_ok; [exact F1|]. intros _ s2 F2.
    by tot_step.
Qed.

(** What [bmap] gives for a block the file does not have: [k] of the free
    blocks are taken. *)
Definition new_block (k n : nat) (V : Z → block) (I : list inode) (ip : nat) (i : inode) (bn a : Z) (s' : fstate) : Prop :=
  ∃ V' i', fs n [] V' (<[ip := i']> I) s' ∧ grown V i bn V' i' ∧ a = blk_addr V' i' bn ∧
    (nfree V ≤ nfree V' + k)%nat.

Lemma nfree_upd V b x : datastart sb ≤ b → nfree (upd V b x) = nfree V.
Proof.
  intros Hb. unfold nfree, free_list. f_equal. apply filter_ext_in. intros m Hm.
  rewrite marked_upd; [done|done|]. apply elem_of_seqZ in Hm. lia.
Qed.

Lemma fs_lengths n L V I s : fs n L V I s → ∀ m, length (V m) = BSIZE.
Proof. intros H m. by eapply fs_length. Qed.

(** [balloc] with a free block left. *)
Lemma balloc_free n L V I s :
  fs (S (S n)) L V I s → (length L ≤ 2)%nat → meta_marked sb V → (∀ x, x ∈ L.*1 → data_block V x) →
  (0 < nfree V)%nat → tot (balloc mypid ROOTDEV) (allocated mypid G sb n L V I) s.
Proof.
  intros H HL Hm HLd (b0 & Hb0 & Hf)%nfree_pos. eapply balloc_ok; try done.
  intros x Hx%HLd. destruct Hx. split; [lia|done].
Qed.

Lemma bmap_indirect_new n V I s i bn :
  fs (3 + n) [] V I s → meta_marked sb V → file_ok V i → Z.of_nat NDIRECT ≤ bn < MAXFILE →
  ind i ≠ 0 → blk_addr V i bn = 0 → (0 < nfree V)%nat →
  tot (bmap_indirect mypid ROOTDEV (ind i) (bn - Z.of_nat NDIRECT))
      (λ a s', ∃ V', fs n [] V' I s' ∧ grown V i bn V' i ∧ a = blk_addr V' i bn ∧ (nfree V ≤ nfree V' + 1)%nat) s.
Proof.
  intros H Hmeta Hok Hbn Hi0 H0 Hfree. pose proof (fs_lengths _ _ _ _ _ H) as Hlen. unfold bmap_indirect.
  pose proof (fo_ind _ _ Hok Hi0) as Hind. pose proof datastart_pos as Hpos.
  call fs_bread_ok; [exact H|set_solver|by eapply data_lt_disk|simpl; lia|]. intros bp s1 F1.
  eapply tot_bind, fs_data_ok; [exact F1|apply elem_of_cons; by left|]. cbv beta zeta.
  assert (get32 (V (ind i)) (4 * Z.to_nat (bn - Z.of_nat NDIRECT)) = 0) as Hz.
  { unfold blk_addr in H0. rewrite (proj2 (Z.ltb_ge _ _)), (proj2 (Z.eqb_neq _ _)) in H0 by (done || lia). done. }
  rewrite Hz. cbn [Z.eqb]. apply tot_bind. call (balloc_free (1 + n)); [exact F1|simpl; lia|done| |done|].
  { intros x Hx. apply list_elem_of_singleton in Hx. by subst x. }
  intros a s2 (Ha & Hm & _ & F2).
  call (fs_store_ok mypid G sb n _ _ I s2 (ind i) bp).
  { exact F2. } { apply elem_of_cons; by left. } { apply (data_usable G sb); [done|apply Hind]. }
  { rewrite length_put32. by eapply fs_length. } { eapply bytes_put32, fs_bytes, F2. }
  intros _ s3 F3. tot_step. call fs_brelse_ok; [exact F3|]. intros _ s4 F4. tot_step.
  rewrite alloc_view_data in F4; [|apply Hind|destruct Hind; congruence|lia].
  eexists _. split; [exact F4|]. pose proof (grown_indirect V i bn a Hlen Hmeta Hok Hbn Hi0 H0 Ha Hm) as Hg.
  split; [exact Hg|]. split.
  - unfold blk_addr. rewrite (proj2 (Z.ltb_ge _ _)), (proj2 (Z.eqb_neq _ _)) by (done || lia). rewrite upd_eq.
    rewrite get32_put32; [rewrite u32_small; [done|pose proof (fl_size _ _ HG); lia]|].
    rewrite Hlen. unfold BSIZE, NDIRECT, MAXFILE in *. lia.
  - rewrite nfree_upd by apply Hind. rewrite (nfree_alloc V a) by done. lia.
Qed.

(** A block the file does not have. *)
Lemma bmap_new n V I s ip i bn :
  fs (5 + n) [] V I s → meta_marked sb V → I !! ip = Some i → file_ok V i → 0 ≤ bn < MAXFILE →
  blk_addr V i bn = 0 → (2 ≤ nfree V)%nat →
  tot (bmap mypid ip bn) (new_block 2 n V I ip i bn) s.
Proof.
  intros H Hmeta Hi Hok Hbn H0 Hfree. pose proof (fs_lengths _ _ _ _ _ H) as Hlen. pose proof datastart_pos as Hpos.
  unfold bmap. tot_step. rewrite (inode_at_fs _ _ _ _ _ _ _ _ _ _ H Hi). cbv zeta. rewrite (fo_dev _ _ Hok).
  destruct (Z.ltb_spec bn (Z.of_nat NDIRECT)) as [Hd|Hd].
  - assert (nth (Z.to_nat bn) (addrs i) 0 = 0) as Hz. { unfold blk_addr in H0. by rewrite (proj2 (Z.ltb_lt _ _)) in H0. }
    rewrite Hz. cbn [Z.eqb]. call (balloc_free (3 + n)); [exact H|simpl; lia|done|set_solver|lia|].
    intros a s1 (Ha & Hm & _ & F1). call upd_inode_ok; [exact F1|exact Hi|]. intros _ s2 F2. tot_step.
    pose proof (grown_direct V i bn a Hlen Hmeta Hok ltac:(lia) H0 Ha Hm) as Hg.
    eexists _, _. split; [eapply fs_fewer; [|exact F2]; lia|]. split; [exact Hg|]. split.
    + unfold blk_addr. rewrite (proj2 (Z.ltb_lt _ _)) by done. simpl. rewrite nth_set; [by rewrite decide_True|].
      rewrite (do_addrs _ (fo_dinode _ _ Hok) : length (addrs i) = 13%nat). unfold NDIRECT in *. lia.
    + rewrite (nfree_alloc V a) by done. lia.
  - rewrite (proj2 (Z.ltb_lt _ _)) by (unfold MAXFILE, NDIRECT, NINDIRECT in *; lia). fold (ind i).
    destruct (Z.eqb_spec (ind i) 0) as [Hi0|Hi0].
    + apply tot_bind. call (balloc_free (3 + n)); [exact H|simpl; lia|done|set_solver|lia|].
      intros a s1 (Ha & Hm & _ & F1). call upd_inode_ok; [exact F1|exact Hi|]. intros _ s2 F2. tot_step.
      destruct (add_indirect V i a Hlen Hok Hi0 Ha Hm) as (Hind & Hok1 & Hadr).
      rewrite <- Hind. eapply tot_mono; [eapply (bmap_indirect_new n)|].
      { exact F2. } { by apply meta_marked_alloc. } { exact Hok1. } { lia. } { rewrite Hind. lia. } { by rewrite Hadr. }
      { rewrite (nfree_alloc V a) in Hfree by done. lia. }
      intros a1 s3 (V' & F3 & Hg & Ha1 & Hn). exists V', (set_addr NDIRECT a i). split; [done|]. split; [|split; [done|]].
      * by eapply grown_after_indirect.
      * rewrite (nfree_alloc V a) by done. lia.
    + tot_step. eapply tot_mono; [eapply (bmap_indirect_new (2 + n)); try done; lia|].
      intros a1 s3 (V' & F3 & Hg & Ha1 & Hn). exists V', i. rewrite list_insert_id by done.
      split; [eapply fs_fewer; [|exact F3]; lia|]. split; [done|]. split; [done|]. lia.
Qed.

(** ** Reading *)

Definition file_byte (V : Z → block) (i : inode) (k : Z) : Z :=
  nth (Z.to_nat (k mod Z.of_nat BSIZE)) (V (blk_addr V i (k / Z.of_nat BSIZE))) 0.
(** The [n] bytes of the file from [off] on. *)
Definition file_bytes (V : Z → block) (i : inode) (off n : Z) : list Z :=
  map (λ j, file_byte V i (off + Z.of_nat j)) (seq 0 (Z.to_nat n)).

Lemma file_bytes_app V i off m n :
  0 ≤ m ≤ n → file_bytes V i off n = file_bytes V i off m ++ file_bytes V i (off + m) (n - m).
Proof.
  intros Hm. unfold file_bytes. replace (Z.to_nat n) with (Z.to_nat m + Z.to_nat (n - m))%nat by lia.
  rewrite seq_app, map_app. f_equal.
  replace (seq (0 + Z.to_nat m) (Z.to_nat (n - m))) with (map (Nat.add (Z.to_nat m)) (seq 0 (Z.to_nat (n - m))))
    by (etrans; [apply fmap_add_seq|f_equal; lia]).
  rewrite map_map. apply map_ext. intros j. f_equal. lia.
Qed.

(** Positions in one block. *)
Lemma same_block off j :
  0 ≤ off → 0 ≤ j → off mod 512 + j < 512 → (off + j) / 512 = off / 512 ∧ (off + j) mod 512 = off mod 512 + j.
Proof. intros. Z.to_euclidean_division_equations. lia. Qed.

Lemma get_bytes_file V i off m :
  (∀ b, length (V b) = BSIZE) → 0 ≤ off → 0 ≤ m → off mod 512 + m ≤ 512 →
  get_bytes (Z.to_nat (off mod 512)) (Z.to_nat m) (V (blk_addr V i (off / 512))) = file_bytes V i off m.
Proof.
  intros Hlen Ho Hm Hb. unfold get_bytes, file_bytes. apply list_eq. intros j.
  pose proof (Z.mod_pos_bound off 512 ltac:(lia)).
  destruct (decide (j < Z.to_nat m)%nat) as [Hj|Hj].
  - rewrite lookup_take_lt, lookup_drop, list_lookup_fmap, lookup_seq_lt by lia. simpl.
    unfold file_byte. change (Z.of_nat BSIZE) with 512. destruct (same_block off (Z.of_nat j)) as [-> ->]; [lia..|].
    rewrite nth_lookup. rewrite Z2Nat.inj_add, Nat2Z.id by lia.
    destruct (V (blk_addr V i (off / 512)) !! (Z.to_nat (off mod 512) + j)%nat) eqn:E; [done|].
    apply lookup_ge_None in E. rewrite Hlen in E. unfold BSIZE in E. lia.
  - rewrite lookup_take_ge, list_lookup_fmap, lookup_seq_ge by lia. done.
Qed.

Lemma readi_loop_ok fuel n V I s ip i off len acc :
  fs n [] V I s → I !! ip = Some i → file_ok V i → 0 ≤ off → 0 ≤ len → off + len ≤ isize i →
  (0 < len → off mod 512 + len ≤ 512 * Z.of_nat fuel) →
  tot (readi_loop mypid fuel ip off len acc) (λ l s', l = acc ++ file_bytes V i off len ∧ fs n [] V I s') s.
Proof.
  revert s off len acc; induction fuel as [|fuel IH]; intros s off len acc H Hi Hok Ho Hl Hs Hf;
    cbn [readi_loop]; (destruct (Z.leb_spec len 0);
      [tot_step; split; [|done]; replace len with 0 by lia; by rewrite app_nil_r|]).
  { specialize (Hf ltac:(lia)). pose proof (Z.mod_pos_bound off 512 ltac:(lia)). lia. }
  specialize (Hf ltac:(lia)). pose proof (Z.mod_pos_bound off 512 ltac:(lia)) as Hmod.
  pose proof (fo_size _ _ Hok) as Hsz. unfold MAXFILE in Hsz. change (Z.of_nat BSIZE) with 512 in *.
  assert (0 ≤ off / 512 < MAXFILE) as Hbn by (unfold MAXFILE; Z.to_euclidean_division_equations; lia).
  assert (blk_addr V i (off / 512) ≠ 0) as Hne.
  { apply (fo_map _ _ Hok); [lia|]. change (Z.of_nat BSIZE) with 512. Z.to_euclidean_division_equations. lia. }
  tot_step. rewrite (inode_at_fs _ _ _ _ _ _ _ _ _ _ H Hi), (fo_dev _ _ Hok).
  call bmap_old; [exact H|exact Hi|exact Hok|done|done|]. intros a s1 [-> F1].
  call fs_bread_ok; [exact F1|set_solver|by eapply data_lt_disk, Hok|simpl; lia|]. intros bp s2 F2.
  eapply tot_bind, fs_data_ok; [exact F2|apply elem_of_cons; by left|]. cbv beta zeta.
  call fs_brelse_ok; [exact F2|]. intros _ s3 F3. set (m := Z.min len (512 - off mod 512)).
  eapply tot_mono; [eapply IH; [exact F3|exact Hi|exact Hok|lia|lia|lia|]|].
  { intros Hm. assert (m = 512 - off mod 512) as -> by lia.
    replace ((off + (512 - off mod 512)) mod 512) with 0 by (Z.to_euclidean_division_equations; lia). lia. }
  intros l s4 [-> F4]. split; [|done]. rewrite <- app_assoc. f_equal.
  rewrite get_bytes_file; [|by eapply fs_lengths|lia..]. symmetry. apply file_bytes_app. lia.
Qed.

Lemma readi_ok n V I s ip i off len dr :
  fs n [] V I s → I !! ip = Some i → file_ok V i → 0 ≤ off ≤ isize i → 0 ≤ len → off + len < 4294967296 →
  let len' := Z.min len (isize i - off) in
  tot (readi mypid dr ip off len) (λ r s', r = (len', file_bytes V i off len') ∧ fs n [] V I s') s.
Proof.
  intros H Hi Hok Ho Hl Hov len'. pose proof (fo_size _ _ Hok) as Hsz. unfold MAXFILE in Hsz.
  change (Z.of_nat BSIZE) with 512 in Hsz. unfold readi. tot_step. rewrite (inode_at_fs _ _ _ _ _ _ _ _ _ _ H Hi).
  rewrite (proj2 (Z.eqb_neq _ _)) by apply Hok. rewrite !u32_small by lia.
  rewrite (proj2 (Z.ltb_ge _ _)), (proj2 (Z.ltb_ge (off + len) _)) by lia. cbn [orb].
  assert ((if isize i <? off + len then isize i - off else len) = len') as ->.
  { destruct (Z.ltb_spec (isize i) (off + len)); unfold len'; lia. }
  call readi_loop_ok; [exact H|exact Hi|exact Hok|lia|lia|lia| |].
  { intros _. unfold rounds. change (Z.of_nat BSIZE) with 512. pose proof (Z.mod_pos_bound off 512 ltac:(lia)).
    Z.to_euclidean_division_equations. lia. }
  intros l s1 [-> F1]. tot_step. by rewrite i32_small by lia.
Qed.

(** ** Writing *)

Lemma length_put_bytes k l d : (k + length l ≤ length d)%nat → length (put_bytes k l d) = length d.
Proof. intros. unfold put_bytes. rewrite !length_app, length_take, length_drop. lia. Qed.

Lemma bytes_put_bytes k l d : bytes l → bytes d → bytes (put_bytes k l d).
Proof. intros. apply Forall_app; split; [by apply Forall_take|]. apply Forall_app; split; [done|by apply Forall_drop]. Qed.

Lemma nth_put_bytes k l d j :
  (k + length l ≤ length d)%nat →
  nth j (put_bytes k l d) 0 = if decide (k ≤ j < k + length l)%nat then nth (j - k) l 0 else nth j d 0.
Proof.
  intros Hl. rewrite !nth_lookup. unfold put_bytes. case_decide as Hj.
  - rewrite lookup_app_r by (rewrite length_take; lia). rewrite lookup_app_l by (rewrite length_take; lia).
    do 2 f_equal. rewrite length_take. lia.
  - destruct (decide (j < k)%nat).
    + rewrite lookup_app_l by (rewrite length_take; lia). by rewrite lookup_take_lt by lia.
    + rewrite lookup_app_r by (rewrite length_take; lia). rewrite lookup_app_r by (rewrite length_take; lia).
      rewrite lookup_drop. do 2 f_equal. rewrite length_take. lia.
Qed.

(** The bytes [src] have been stored in the file from [off] on, except for the
    size in the inode. *)
Record written (V : Z → block) (i : inode) (off : Z) (src : list Z) (V' : Z → block) (i' : inode) : Prop := {
  w_ok : file_ok V' i';
  w_meta : meta_marked sb V';
  w_inode : i' = with_addrs (addrs i') i;
  w_map k : off ≤ k < off + Z.of_nat (length src) → blk_addr V' i' (k / 512) ≠ 0;
  w_keep bn : 0 ≤ bn < MAXFILE → blk_addr V i bn ≠ 0 → blk_addr V' i' bn = blk_addr V i bn;
  w_bytes k : 0 ≤ k < MAXFILE * 512 → (blk_addr V i (k / 512) ≠ 0 ∨ off ≤ k < off + Z.of_nat (length src)) →
    file_byte V' i' k = if decide (off ≤ k < off + Z.of_nat (length src)) then nth (Z.to_nat (k - off)) src 0
                        else file_byte V i k;
  w_frame m : data_block V m → m ≠ ind i → (∀ bn, 0 ≤ bn < MAXFILE → blk_addr V i bn ≠ m) → V' m = V m;
  w_low m : m < sb_bmapstart sb → V' m = V m;
  w_marked m : 0 ≤ m < sb_size sb → marked V m = true → marked V' m = true;
  w_ind : ind i' = ind i ∨ marked V (ind i') = false;
  w_new bn : 0 ≤ bn < MAXFILE → blk_addr V i bn = 0 → blk_addr V' i' bn = 0 ∨ marked V (blk_addr V' i' bn) = false;
  w_same : off + Z.of_nat (length src) ≤ isize i → i' = i }.

Lemma written_nil V i off : file_ok V i → meta_marked sb V → written V i off [] V i.
Proof.
  intros Hok Hm. split; try done; simpl; try lia.
  - by destruct i.
  - intros k _ [_|?]; [|lia]. by rewrite decide_False by lia.
Qed.

Lemma blk_addr_upd V i b x bn : b ≠ ind i → blk_addr (upd V b x) i bn = blk_addr V i bn.
Proof. intros Hb. unfold blk_addr. by rewrite upd_ne. Qed.

Lemma file_ok_upd V i b x : datastart sb ≤ b → b ≠ ind i → file_ok V i → file_ok (upd V b x) i.
Proof.
  intros Hb Hne Hok. pose proof datastart_pos.
  assert (∀ m, data_block V m → data_block (upd V b x) m) as Hd.
  { intros m [? Hm]. split; [done|]. rewrite marked_upd; [done|done|lia]. }
  split; try apply Hok.
  - intros Hi. apply Hd. by apply Hok.
  - intros bn Hbn. rewrite blk_addr_upd by done. intros Hn. destruct (fo_blk _ _ Hok bn Hbn Hn). auto.
  - intros b1 b2. rewrite !blk_addr_upd by done. apply Hok.
  - intros bn. rewrite blk_addr_upd by done. apply Hok.
Qed.

(** One round of the loop: the chunk [c] goes to the block [a] of the file. *)
Lemma written_chunk V i bn V1 i1 off c :
  (∀ m, length (V1 m) = BSIZE) → file_ok V i → meta_marked sb V →
  ((V1 = V ∧ i1 = i ∧ blk_addr V i bn ≠ 0) ∨ (blk_addr V i bn = 0 ∧ isize i ≤ bn * 512 ∧ grown V i bn V1 i1)) →
  0 ≤ off < MAXFILE * 512 → bn = off / 512 → off mod 512 + Z.of_nat (length c) ≤ 512 → c ≠ [] →
  written V i off c (upd V1 (blk_addr V1 i1 bn) (put_bytes (Z.to_nat (off mod 512)) c (V1 (blk_addr V1 i1 bn)))) i1.
Proof.
  intros Hlen Hok Hmeta Hcase Ho Hbn Hc Hne. pose proof datastart_pos as Hpos.
  set (a := blk_addr V1 i1 bn). set (V2 := upd V1 a _).
  assert (0 < Z.of_nat (length c)) as Hc0 by (destruct c; simpl; [done|lia]).
  assert (0 ≤ bn < MAXFILE) as Hr by (unfold MAXFILE in *; Z.to_euclidean_division_equations; lia).
  pose proof (Z.mod_pos_bound off 512 ltac:(lia)) as Hmod.
  assert (file_ok V1 i1 ∧ meta_marked sb V1 ∧ a ≠ 0 ∧ i1 = with_addrs (addrs i1) i ∧
    (∀ bn', 0 ≤ bn' < MAXFILE → bn' ≠ bn → blk_addr V1 i1 bn' = blk_addr V i bn') ∧
    (blk_addr V i bn ≠ 0 → a = blk_addr V i bn) ∧ (blk_addr V i bn = 0 → marked V a = false) ∧
    (∀ m, data_block V m → m ≠ ind i → V1 m = V m) ∧ (∀ m, m < sb_bmapstart sb → V1 m = V m) ∧
    (∀ m, 0 ≤ m < sb_size sb → marked V m = true → marked V1 m = true) ∧
    (ind i1 = ind i ∨ marked V (ind i1) = false) ∧ (off + Z.of_nat (length c) ≤ isize i → i1 = i))
    as (Hok1 & Hmeta1 & Ha & Hin & Hsame & Hold & Hfresh & Hframe & Hlow & Hmk & Hind & Hnoalloc).
  { destruct Hcase as [(-> & -> & Hb)|(Hb & Hsz & [])].
    - split_and!; try done; [by destruct i|by left].
    - split_and!; try done. intros Hle. Z.to_euclidean_division_equations. lia. }
  destruct (fo_blk _ _ Hok1 bn Hr Ha) as [[Had Ham] Hai]. fold a in Had, Ham, Hai.
  assert (∀ bn', blk_addr V2 i1 bn' = blk_addr V1 i1 bn') as Hadr by (intros; by apply blk_addr_upd).
  assert (∀ m, 0 ≤ m < sb_size sb → marked V2 m = marked V1 m) as Hmk2 by (intros; apply marked_upd; lia || done).
  assert (V2 a = put_bytes (Z.to_nat (off mod 512)) c (V1 a)) as HV2 by apply upd_eq.
  assert (∀ k, off ≤ k < off + Z.of_nat (length c) → k / 512 = bn) as Hkb.
  { intros k Hk. subst bn. destruct (same_block off (k - off)); [lia..|]. replace (off + (k - off)) with k in * by lia. done. }
  split.
  - apply file_ok_upd; [lia|done|done].
  - intros b Hb. rewrite Hmk2 by (pose proof (fl_data _ _ HG); lia). by apply Hmeta1.
  - done.
  - intros k Hk. by rewrite Hadr, (Hkb k Hk).
  - intros bn' Hb' Hn. rewrite Hadr. destruct (decide (bn' = bn)) as [->|]; [by apply Hold|by apply Hsame].
  - intros k Hk Hm. unfold file_byte. change (Z.of_nat BSIZE) with 512. rewrite Hadr.
    destruct (decide (k / 512 = bn)) as [He|He].
    + rewrite He. fold a. rewrite HV2, nth_put_bytes by (rewrite Hlen; unfold BSIZE; lia).
      assert (0 ≤ k mod 512 < 512) by (apply Z.mod_pos_bound; lia).
      case_decide as Hin1; case_decide as Hin2.
      * f_equal. rewrite <- Z2Nat.inj_sub by lia. f_equal. Z.to_euclidean_division_equations. lia.
      * exfalso. Z.to_euclidean_division_equations. lia.
      * exfalso. Z.to_euclidean_division_equations. lia.
      * destruct Hm as [Hm|Hm]; [|lia]. rewrite He in Hm. rewrite <- (Hold Hm). f_equal. apply Hframe.
        -- rewrite (Hold Hm). by apply (fo_blk _ _ Hok).
        -- rewrite (Hold Hm). by apply (fo_blk _ _ Hok).
    + assert (0 ≤ k / 512 < MAXFILE) as Hkr by (unfold MAXFILE in *; Z.to_euclidean_division_equations; lia).
      rewrite decide_False by (intros Hx; by apply He, Hkb). destruct Hm as [Hm|Hm]; [|by destruct He; apply Hkb].
      rewrite Hsame by done. f_equal. unfold V2. rewrite upd_ne.
      * apply Hframe; by apply (fo_blk _ _ Hok).
      * rewrite <- (Hsame _ Hkr He). intros Heq. apply He. apply (fo_inj _ _ Hok1); [done|done| |done].
        by rewrite Hsame.
  - intros m Hd Hni Hnf. unfold V2. rewrite upd_ne; [by apply Hframe|]. intros ->.
    destruct (decide (blk_addr V i bn = 0)) as [Hz|Hz].
    + destruct Hd. rewrite (Hfresh Hz) in *. done.
    + apply (Hnf bn Hr). symmetry. by apply Hold.
  - intros m Hm. unfold V2. rewrite upd_ne; [by apply Hlow|]. intros ->.
    assert (sb_bmapstart sb < datastart sb); [|lia]. pose proof (fl_size _ _ HG). pose proof (fl_data _ _ HG).
    unfold datastart, BPB in *. Z.to_euclidean_division_equations. lia.
  - intros m Hm Hx. rewrite Hmk2 by done. by apply Hmk.
  - done.
  - intros bn' Hb' Hz. rewrite Hadr. destruct (decide (bn' = bn)) as [->|Hb2]; [right; by apply Hfresh|].
    left. by rewrite Hsame.
  - done.
Qed.

Lemma written_app V i off c V2 i2 r V3 i3 :
  0 ≤ off → off + Z.of_nat (length (c ++ r)) ≤ MAXFILE * 512 →
  written V i off c V2 i2 → written V2 i2 (off + Z.of_nat (length c)) r V3 i3 → written V i off (c ++ r) V3 i3.
Proof.
  intros Ho Hmax [A1 A2 A3 A4 A5 A6 A7 A8 A9 A10 A11 A12] [B1 B2 B3 B4 B5 B6 B7 B8 B9 B10 B11 B12].
  pose proof datastart_pos as Hpos. pose proof (fl_data _ _ HG) as Hfd. rewrite length_app in *.
  assert (∀ k, 0 ≤ k < MAXFILE * 512 → 0 ≤ k / 512 < MAXFILE) as Hdiv
    by (intros; unfold MAXFILE in *; Z.to_euclidean_division_equations; lia).
  assert (∀ m, 0 ≤ m < sb_size sb → marked V2 m = false → marked V m = false) as Hum.
  { intros m Hm Hf. destruct (marked V m) eqn:E; [|done]. rewrite A9 in Hf; done. }
  assert (∀ bn, 0 ≤ bn < MAXFILE → 0 ≤ blk_addr V3 i3 bn < sb_size sb) as Hrange.
  { intros bn Hbn. destruct (decide (blk_addr V3 i3 bn = 0)) as [->|Hn]; [lia|].
    destruct (fo_blk _ _ B1 bn Hbn Hn) as [[? _] _]. lia. }
  split; try done.
  - rewrite B3, A3. done.
  - intros k Hk. rewrite length_app in Hk. destruct (decide (k < off + Z.of_nat (length c))).
    + rewrite B5; [|apply Hdiv; lia|]; apply A4; lia.
    + apply B4. lia.
  - intros bn Hbn Hn. by rewrite B5, A5 by (done || by rewrite A5).
  - intros k Hk Hm. rewrite length_app in *. destruct (decide (off ≤ k < off + Z.of_nat (length c))) as [Hc|Hc].
    + rewrite B6; [|done|left; apply A4; lia]. rewrite decide_False by lia. rewrite A6 by (done || by right).
      rewrite !decide_True by lia. symmetry. apply app_nth1. lia.
    + destruct (decide (off + Z.of_nat (length c) ≤ k < off + Z.of_nat (length c) + Z.of_nat (length r))) as [Hr|Hr].
      * rewrite B6 by (done || by right). rewrite !decide_True by lia. rewrite app_nth2 by lia. f_equal. lia.
      * rewrite (decide_False (P := off ≤ k < _)) by lia. destruct Hm as [Hm|Hm]; [|lia].
        rewrite B6; [|done|left; rewrite A5; [done|by apply Hdiv|done]]. rewrite decide_False by lia.
        rewrite A6 by (done || by left). by rewrite decide_False by lia.
  - intros m Hd Hni Hnf. pose proof Hd as [Hd1 Hd2]. rewrite B7; [by apply A7|..].
    + split; [done|]. apply A9; [lia|done].
    + destruct A10 as [->|Hx]; [done|]. congruence.
    + intros bn Hbn He. destruct (decide (blk_addr V i bn = 0)) as [Hz|Hz].
      * destruct (A11 bn Hbn Hz); [lia|]. congruence.
      * apply (Hnf bn Hbn). by rewrite <- A5.
  - intros m Hm. by rewrite B8, A8.
  - intros m Hm Hx. apply B9; [done|]. by apply A9.
  - destruct B10 as [->|Hx]; [done|]. right. apply Hum; [|done].
    destruct (decide (ind i3 = 0)) as [->|Hn]; [lia|]. destruct (fo_ind _ _ B1 Hn). lia.
  - intros bn Hbn Hz. destruct (decide (blk_addr V2 i2 bn = 0)) as [Hz2|Hz2].
    + destruct (B11 bn Hbn Hz2) as [|Hx]; [by left|]. right. apply Hum; [by apply Hrange|done].
    + rewrite B5 by done. by apply A11.
  - intros Hle. rewrite length_app in Hle. rewrite A12 in * by lia. apply B12. lia.
Qed.

(** The loop of [writei]: [R] rounds. *)
Lemma writei_loop_ok R fuel n V I s ip i off src :
  fs (6 * R + n) [] V I s → meta_marked sb V → I !! ip = Some i → file_ok V i →
  0 ≤ off → bytes src → off + Z.of_nat (length src) ≤ MAXFILE * 512 →
  (src ≠ [] → off mod 512 + Z.of_nat (length src) ≤ 512 * Z.of_nat R) → (R ≤ fuel)%nat → (2 * R ≤ nfree V)%nat →
  tot (writei_loop mypid fuel ip off src)
      (λ r s', r = off + Z.of_nat (length src) ∧
        ∃ V' i', fs n [] V' (<[ip := i']> I) s' ∧ written V i off src V' i') s.
Proof.
  revert fuel V I s i off src; induction R as [|R IH]; intros fuel V I s i off src H Hmeta Hi Hok Ho Hby Hmax HR Hfuel Hfree;
    (destruct src as [|b src]; [destruct fuel; cbn [writei_loop]; tot_step; (split; [simpl; lia|]);
      exists V, i; rewrite list_insert_id by done; (split; [eapply fs_fewer; [|exact H]; lia|by apply written_nil])|]).
  { specialize (HR ltac:(done)). pose proof (Z.mod_pos_bound off 512 ltac:(lia)). simpl in HR. lia. }
  destruct fuel as [|fuel]; [lia|]. cbn [writei_loop]. set (l := b :: src) in *.
  specialize (HR ltac:(done)). pose proof (Z.mod_pos_bound off 512 ltac:(lia)) as Hmod.
  change (Z.of_nat BSIZE) with 512. assert (0 < Z.of_nat (length l)) as Hl0 by (simpl; lia).
  assert (0 ≤ off / 512 < MAXFILE) as Hbn by (unfold MAXFILE in *; Z.to_euclidean_division_equations; lia).
  tot_step. rewrite (inode_at_fs _ _ _ _ _ _ _ _ _ _ H Hi), (fo_dev _ _ Hok).
  set (bn := off / 512) in *. set (m := Nat.min (length l) (BSIZE - Z.to_nat (off mod 512))).
  assert (Z.of_nat (length (take m l)) = Z.of_nat m) as Hlm by (rewrite length_take; lia).
  eapply tot_bind, (tot_mono _ _ (λ a s1, ∃ V1 i1, fs (S (6 * R + n)) [] V1 (<[ip := i1]> I) s1 ∧
    ((V1 = V ∧ i1 = i ∧ blk_addr V i bn ≠ 0) ∨ (blk_addr V i bn = 0 ∧ isize i ≤ bn * 512 ∧ grown V i bn V1 i1)) ∧
    a = blk_addr V1 i1 bn ∧ (nfree V ≤ nfree V1 + 2)%nat)).
  { destruct (decide (blk_addr V i bn = 0)) as [Hz|Hz].
    - eapply tot_mono; [eapply (bmap_new (S (6 * R + n))); [|done..|lia]|].
      { eapply fs_fewer; [|exact H]. lia. }
      intros a s1 (V1 & i1 & F1 & Hg & Ha & Hn). exists V1, i1. split_and!; [done| |done|done]. right.
      split; [done|]. split; [|done]. destruct (decide (isize i ≤ bn * 512)); [done|].
      exfalso. apply (fo_map _ _ Hok bn); [lia| |done]. change (Z.of_nat BSIZE) with 512. lia.
    - eapply tot_mono; [by eapply bmap_old|]. intros a s1 [-> F1]. exists V, i. rewrite list_insert_id by done.
      split_and!; [|by left|done|lia]. eapply fs_fewer; [|exact F1]. lia. }
  intros a s1 (V1 & i1 & F1 & Hcase & -> & Hn1). pose proof (fs_lengths _ _ _ _ _ F1) as Hlen1.
  pose proof (written_chunk V i bn V1 i1 off (take m l) Hlen1 Hok Hmeta Hcase) as Hw.
  specialize (Hw ltac:(unfold MAXFILE in *; lia) eq_refl ltac:(unfold BSIZE in *; lia) ltac:(intros Hx; rewrite Hx in Hlm; simpl in Hlm; unfold BSIZE in *; lia)).
  assert (file_ok V1 i1 ∧ blk_addr V1 i1 bn ≠ 0) as [Hok1 Ha0].
  { destruct Hcase as [(-> & -> & ?)|(_ & _ & [])]; done. }
  destruct (fo_blk _ _ Hok1 bn Hbn Ha0) as [Had _]. set (a := blk_addr V1 i1 bn) in *.
  call fs_bread_ok; [exact F1|set_solver|by eapply data_lt_disk|simpl; lia|]. intros bp s2 F2. cbv zeta. fold m.
  call (fs_store_ok mypid G sb (6 * R + n) _ V1 _ s2 a bp).
  { exact F2. } { apply elem_of_cons; by left. } { apply (data_usable G sb); [done|apply Had]. }
  { rewrite length_put_bytes; [by apply Hlen1|]. rewrite Hlen1. unfold BSIZE in *. lia. }
  { apply bytes_put_bytes; [by apply Forall_take|by eapply fs_bytes]. }
  intros _ s3 F3. call fs_brelse_ok; [exact F3|]. intros _ s4 F4.
  assert (m = length l ∨ (off + Z.of_nat m) mod 512 = 0) as Hm.
  { destruct (decide (m = length l)); [by left|]. right. unfold m, BSIZE in *. Z.to_euclidean_division_equations. lia. }
  eapply tot_mono; [eapply (IH fuel _ _ s4 i1); [exact F4|apply Hw|apply list_lookup_insert_eq; by eapply lookup_lt_Some|apply Hw|..]|].
  { lia. } { by apply Forall_drop. } { rewrite length_drop. lia. }
  { intros Hne. rewrite length_drop. destruct Hm as [Hm| ->].
    - rewrite Hm, drop_all in Hne. done.
    - unfold m, BSIZE in *. lia. }
  { lia. } { rewrite nfree_upd by apply Had. lia. }
  intros r s5 [-> (V' & i' & F5 & Hw')]. split; [rewrite length_drop; lia|]. exists V', i'.
  rewrite list_insert_insert_eq in F5. split; [done|]. rewrite <- (take_drop m l).
  eapply written_app; [done|by rewrite take_drop|exact Hw|by rewrite Hlm].
Qed.

(** ** [writei] *)

(** The file after [writei] has stored [src] at [off]: its size and bytes, and
    what other files see. *)
Record stored (V : Z → block) (i : inode) (off : Z) (src : list Z) (V' : Z → block) (i' : inode) : Prop := {
  s_ok : file_ok V' i';
  s_meta : meta_marked sb V';
  s_size : isize i' = Z.max (isize i) (off + Z.of_nat (length src));
  s_byte k : 0 ≤ k < isize i' →
    file_byte V' i' k = if decide (off ≤ k < off + Z.of_nat (length src)) then nth (Z.to_nat (k - off)) src 0
                        else file_byte V i k;
  s_frame m : data_block V m → m ≠ ind i → (∀ bn, 0 ≤ bn < MAXFILE → blk_addr V i bn ≠ m) → V' m = V m;
  s_inodes n : inum_ok sb n → n ≠ inum i → disk_inode sb V' n = disk_inode sb V n;
  s_sync : disk_inode sb V (inum i) = to_dinode i → disk_inode sb V' (inum i) = to_dinode i';
  s_marked m : 0 ≤ m < sb_size sb → marked V m = true → marked V' m = true;
  s_inode : i' = set_isize (isize i') (with_addrs (addrs i') i) }.

(** Changing a block before the bitmap changes no mark and no file. *)
Lemma marked_low V b x m : b < sb_bmapstart sb → 0 ≤ m → marked (upd V b x) m = marked V m.
Proof.
  intros Hb Hm. unfold FsBlocks.marked. rewrite upd_ne; [done|]. unfold BPB. Z.to_euclidean_division_equations. lia.
Qed.

Lemma bmapstart_lt : sb_bmapstart sb < datastart sb.
Proof.
  destruct HG as [Hl Hs Hn Hi Hd Hz]. unfold datastart, BPB, IPB in *. Z.to_euclidean_division_equations. lia.
Qed.

Lemma blk_addr_low V i b x bn : file_ok V i → b < sb_bmapstart sb → blk_addr (upd V b x) i bn = blk_addr V i bn.
Proof.
  intros Hok Hb. pose proof bmapstart_lt. unfold blk_addr. destruct (_ <? _); [done|].
  destruct (Z.eqb_spec (ind i) 0); [done|]. rewrite upd_ne; [done|]. destruct (fo_ind _ _ Hok); [done|]. lia.
Qed.

Lemma file_byte_low V i b x k :
  file_ok V i → b < sb_bmapstart sb → 0 ≤ k < MAXFILE * 512 → blk_addr V i (k / 512) ≠ 0 →
  file_byte (upd V b x) i k = file_byte V i k.
Proof.
  intros Hok Hb Hk Hn. pose proof bmapstart_lt. unfold file_byte. change (Z.of_nat BSIZE) with 512.
  rewrite blk_addr_low by done. rewrite upd_ne; [done|].
  destruct (fo_blk _ _ Hok (k / 512)) as [[? _] _]; [unfold MAXFILE in *; Z.to_euclidean_division_equations; lia|done|]. lia.
Qed.

Lemma file_ok_resize V i sz b x :
  file_ok V i → b < sb_bmapstart sb → 0 ≤ sz ≤ MAXFILE * Z.of_nat BSIZE →
  (∀ bn, 0 ≤ bn → bn * 512 < sz → blk_addr V i bn ≠ 0) → file_ok (upd V b x) (set_isize sz i).
Proof.
  intros Hok Hb Hsz Hmap. pose proof datastart_pos.
  assert (∀ bn, blk_addr (upd V b x) (set_isize sz i) bn = blk_addr V i bn) as Hadr.
  { intros bn. rewrite <- (blk_addr_low V i b x bn) by done. done. }
  assert (∀ m, data_block V m → data_block (upd V b x) m) as Hd.
  { intros m [? Hm]. split; [done|]. rewrite marked_low; [done|done|lia]. }
  split; try apply Hok; try done.
  - destruct (fo_dinode _ _ Hok). split; try done. simpl in *. unfold uint, MAXFILE in *. change (Z.of_nat BSIZE) with 512 in *. lia.
  - intros Hi. apply Hd. by apply Hok.
  - intros bn Hbn. rewrite Hadr. intros Hn. destruct (fo_blk _ _ Hok bn Hbn Hn). auto.
  - intros b1 b2. rewrite !Hadr. apply Hok.
  - intros bn. rewrite Hadr. apply Hmap.
Qed.

Lemma set_isize_id i : set_isize (isize i) i = i.
Proof. by destruct i. Qed.

(** A write inside the file. *)
Lemma stored_inside V i off src V1 i1 :
  file_ok V i → 0 ≤ off → off + Z.of_nat (length src) ≤ isize i →
  written V i off src V1 i1 → stored V i off src V1 i1.
Proof.
  intros Hok Ho Hle Hw. pose proof (w_same _ _ _ _ _ _ Hw Hle) as ->. destruct Hw as [A1 A2 A3 A4 A5 A6 A7 A8 A9 A10 A11 A12].
  pose proof (fo_size _ _ Hok) as Hsz. change (Z.of_nat BSIZE) with 512 in Hsz.
  split; try done.
  - lia.
  - intros k Hk. apply A6; [lia|]. left. apply (fo_map _ _ Hok); [|change (Z.of_nat BSIZE) with 512]; Z.to_euclidean_division_equations; lia.
  - intros n Hn _. unfold disk_inode. rewrite A8; [done|]. by apply (iblk_range G sb HG).
  - unfold disk_inode. rewrite A8; [done|]. by apply (iblk_range G sb HG), Hok.
Qed.

(** A write that extends the file, with the inode written back. *)
Lemma stored_extend V i off src V1 i1 :
  (∀ m, length (V1 m) = BSIZE) → file_ok V i → 0 ≤ off ≤ isize i → isize i < off + Z.of_nat (length src) ≤ MAXFILE * 512 →
  written V i off src V1 i1 →
  let i2 := set_isize (off + Z.of_nat (length src)) i1 in
  stored V i off src (inode_view sb V1 (inum i2) (to_dinode i2)) i2.
Proof.
  intros Hlen Hok Ho Hext [A1 A2 A3 A4 A5 A6 A7 A8 A9 A10 A11 A12] i2.
  assert (inum i2 = inum i ∧ isize i1 = isize i) as [Hin Hsz1] by (unfold i2; rewrite A3; split; reflexivity).
  pose proof (fo_inum _ _ Hok) as Hnum. pose proof (iblk_range G sb HG _ Hnum) as Hib. pose proof bmapstart_lt as Hbl.
  pose proof (fo_size _ _ Hok) as Hsz. change (Z.of_nat BSIZE) with 512 in Hsz. unfold inode_view. rewrite Hin.
  assert (∀ bn, 0 ≤ bn → bn * 512 < off + Z.of_nat (length src) → blk_addr V1 i1 bn ≠ 0) as Hmap.
  { intros bn Hbn Hlt. destruct (decide (bn * 512 < isize i)) as [Hi|Hi].
    - assert (blk_addr V i bn ≠ 0) as Hn by (by apply (fo_map _ _ Hok)). rewrite A5; [done| |done].
      unfold MAXFILE in *. lia.
    - rewrite <- (Z.div_mul bn 512) by lia. apply A4. lia. }
  assert (file_ok (upd V1 (iblk sb (inum i)) (put_dinode (dinode_off (inum i)) (to_dinode i2) (V1 (iblk sb (inum i))))) i2) as Hok2.
  { apply file_ok_resize; [done|lia| |done]. change (Z.of_nat BSIZE) with 512. lia. }
  split.
  - done.
  - intros b Hb. rewrite marked_low by lia. by apply A2.
  - simpl. lia.
  - intros k Hk. simpl in Hk.
    assert (blk_addr V1 i1 (k / 512) ≠ 0) as Hn by (apply Hmap; Z.to_euclidean_division_equations; lia).
    etrans; [apply (file_byte_low V1 i1); [done|lia|lia|done]|]. apply A6; [lia|].
    destruct (decide (off ≤ k)); [right; lia|left].
    apply (fo_map _ _ Hok); [|change (Z.of_nat BSIZE) with 512]; Z.to_euclidean_division_equations; lia.
  - intros m Hd Hni Hnf. rewrite upd_ne; [by apply A7|]. destruct Hd. lia.
  - intros n Hn Hne. unfold disk_inode at 2. rewrite <- A8 by (by apply (iblk_range G sb HG)).
    fold (disk_inode sb V1 n). fold (inode_view sb V1 (inum i) (to_dinode i2)).
    rewrite (disk_inode_view sb V1 (inum i) (to_dinode i2) n); [by rewrite decide_False|apply Hnum|apply Hn|done|apply Hok2].
  - intros _. fold (inode_view sb V1 (inum i) (to_dinode i2)).
    rewrite (disk_inode_view sb V1 (inum i) (to_dinode i2)); [by rewrite decide_True|apply Hnum|apply Hnum|done|apply Hok2].
  - intros m Hm Hx. rewrite marked_low by lia. by apply A9.
  - unfold i2. rewrite A3. done.
Qed.

Lemma writei_ok R n V I s ip i off src dw :
  fs (6 * R + 1 + n) [] V I s → meta_marked sb V → I !! ip = Some i → file_ok V i →
  0 ≤ off ≤ isize i → bytes src → off + Z.of_nat (length src) ≤ MAXFILE * 512 →
  (src ≠ [] → off mod 512 + Z.of_nat (length src) ≤ 512 * Z.of_nat R) →
  Z.of_nat R ≤ Z.of_nat (length src) / 512 + 2 → (2 * R ≤ nfree V)%nat →
  tot (writei mypid dw ip src off)
      (λ r s', r = Z.of_nat (length src) ∧
        ∃ V' i', fs n [] V' (<[ip := i']> I) s' ∧ stored V i off src V' i') s.
Proof.
  intros H Hmeta Hi Hok Ho Hby Hmax HR Hrd Hfree. pose proof (fo_size _ _ Hok) as Hsz.
  unfold MAXFILE in Hmax, Hsz. change (Z.of_nat BSIZE) with 512 in Hsz.
  unfold writei. tot_step. rewrite (inode_at_fs _ _ _ _ _ _ _ _ _ _ H Hi).
  rewrite (proj2 (Z.eqb_neq _ _)) by apply Hok. rewrite !u32_small by lia.
  rewrite (proj2 (Z.ltb_ge (isize i) _)), (proj2 (Z.ltb_ge (off + _) _)) by lia. cbn [orb].
  rewrite (proj2 (Z.ltb_ge _ _)) by (unfold MAXFILE; change (Z.of_nat BSIZE) with 512; lia).
  call (writei_loop_ok R _ (1 + n)); [|exact Hmeta|exact Hi|exact Hok|lia|done|unfold MAXFILE; lia|done| |done|].
  { eapply fs_fewer; [|exact H]. lia. }
  { unfold rounds. change (Z.of_nat BSIZE) with 512. lia. }
  intros r s1 [-> (V1 & i1 & F1 & Hw)]. tot_step.
  assert (<[ip := i1]> I !! ip = Some i1) as Hi1 by (apply list_lookup_insert_eq; by eapply lookup_lt_Some).
  rewrite (inode_at_fs _ _ _ _ _ _ _ _ _ _ F1 Hi1).
  assert (isize i1 = isize i) as -> by (rewrite (w_inode _ _ _ _ _ _ Hw); done).
  assert (i32 (Z.of_nat (length src)) = Z.of_nat (length src)) as -> by (apply i32_small; lia).
  destruct (Z.ltb_spec 0 (Z.of_nat (length src))) as [Hlen|Hlen];
    [destruct (Z.ltb_spec (isize i) (off + Z.of_nat (length src))) as [Hext|Hext]|]; cbn [andb].
  - apply tot_bind. call upd_inode_ok; [exact F1|exact Hi1|]. intros _ s2 F2. rewrite list_insert_insert_eq in F2.
    set (i2 := set_isize _ i1) in F2.
    pose proof (stored_extend V i off src V1 i1 (fs_lengths _ _ _ _ _ F1) Hok Ho ltac:(unfold MAXFILE; lia) Hw) as Hst.
    eapply tot_mono; [eapply (iupdate_ok mypid G sb HG n [] V1 (<[ip := i2]> I) s2 ip i2)|].
    { exact F2. } { simpl; lia. } { set_solver. } { apply list_lookup_insert_eq; by eapply lookup_lt_Some. }
    { apply (fo_dev _ _ (s_ok _ _ _ _ _ _ Hst)). } { apply (fo_inum _ _ (s_ok _ _ _ _ _ _ Hst)). }
    intros ? s3 F3. cbv beta. tot_step. split; [done|]. eexists _, i2. split; [exact F3|exact Hst].
  - do 2 tot_step. split; [done|]. exists V1, i1. split; [eapply fs_fewer; [|exact F1]; lia|]. apply stored_inside; [done|lia|lia|done].
  - do 2 tot_step. split; [done|]. exists V1, i1. split; [eapply fs_fewer; [|exact F1]; lia|].
    apply stored_inside; [done|lia|lia|done].
Qed.

(** The file's bytes as a list. *)
Definition file_data (V : Z → block) (i : inode) : list Z := file_bytes V i 0 (isize i).

Lemma length_file_data V i : length (file_data V i) = Z.to_nat (isize i).
Proof. unfold file_data, file_bytes. by rewrite length_map, length_seq. Qed.

Lemma file_data_lookup V i k : 0 ≤ k < isize i → file_data V i !! Z.to_nat k = Some (file_byte V i k).
Proof.
  intros Hk. unfold file_data, file_bytes. rewrite list_lookup_fmap, lookup_seq_lt by lia. simpl. do 2 f_equal. lia.
Qed.

Lemma stored_data V i off src V' i' :
  0 ≤ off ≤ isize i → stored V i off src V' i' →
  file_data V' i' = take (Z.to_nat off) (file_data V i) ++ src ++ drop (Z.to_nat off + length src) (file_data V i).
Proof.
  intros Ho Hst. pose proof (s_size _ _ _ _ _ _ Hst) as Hsz. apply list_eq. intros k.
  assert (length (take (Z.to_nat off) (file_data V i)) = Z.to_nat off) as Hlt by (rewrite length_take, length_file_data; lia).
  destruct (decide (Z.of_nat k < isize i')) as [Hk|Hk].
  - rewrite <- (Nat2Z.id k) at 1. rewrite file_data_lookup by lia. rewrite (s_byte _ _ _ _ _ _ Hst) by lia.
    case_decide as Hin.
    + rewrite lookup_app_r, Hlt by lia. rewrite lookup_app_l by lia. rewrite nth_lookup.
      replace (Z.to_nat (Z.of_nat k - off)) with (k - Z.to_nat off)%nat by lia.
      destruct (src !! (k - Z.to_nat off)%nat) eqn:E; [done|]. apply lookup_ge_None in E. lia.
    + destruct (decide (Z.of_nat k < off)).
      * rewrite lookup_app_l, lookup_take_lt by lia. rewrite <- (Nat2Z.id k) at 2. by rewrite file_data_lookup by lia.
      * rewrite lookup_app_r, Hlt by lia. rewrite lookup_app_r, lookup_drop by lia.
        replace (Z.to_nat off + length src + (k - Z.to_nat off - length src))%nat with (Z.to_nat (Z.of_nat k)) by lia.
        by rewrite file_data_lookup by lia.
  - rewrite !lookup_ge_None_2; [done| |].
    + rewrite !length_app, Hlt, length_drop, length_file_data. lia.
    + rewrite length_file_data. lia.
Qed.
End Files.
