(* ===== verification/FsDir.v ===== *)
(** * Directories

    A directory as its list of entries, and as a map from names to inode
    numbers; [iget] on the inode cache; the contracts of [dirlookup] and
    [dirlink]. *)

From S2P Require Import Prelude Locks Bytes Str Bio Log Txn Fs FsBlocks FsInode FsFile.

(** ** The inode cache *)

(** What [iget] does to the cache. *)
Definition iget_pure (d n : Z) (I : list inode) : option (nat * list inode) :=
  match iget_scan d n 0 None I with
  | inl ip => Some (ip, alter (λ i, set_ref (i32 (ref i + 1)) i) ip I)
  | inr None => None
  | inr (Some ip) =>
      Some (ip, alter (λ i, set_valid 0 (Inode d n 1 (ilk i) (valid i) (itype i) (major i) (minor i)
                                               (nlink i) (isize i) (addrs i))) ip I)
  end.

(** ** Entries *)

(** Entry [de] is in use and has the name [name]. *)
Definition matches (name de : list Z) : Prop :=
  de_inum de ≠ 0 ∧ name_of (take DIRSIZ name) = name_of (take DIRSIZ (de_name de)).
#[global] Instance matches_dec name de : Decision (matches name de).
Proof. unfold matches. apply _. Defined.

(** The directory's map: the inode number of the first entry with the name. *)
Fixpoint dir_lookup (es : list (list Z)) (name : list Z) : option Z :=
  match es with
  | [] => None
  | de :: es => if decide (matches name de) then Some (de_inum de) else dir_lookup es name
  end.
(** The first free entry, else the end; and the entries with [de] stored there. *)
Fixpoint free_entry (es : list (list Z)) : nat :=
  match es with
  | [] => 0%nat
  | d :: es => if de_inum d =? 0 then 0%nat else S (free_entry es)
  end.
Fixpoint link_entry (de : list Z) (es : list (list Z)) : list (list Z) :=
  match es with
  | [] => [de]
  | d :: es => if de_inum d =? 0 then de :: es else d :: link_entry de es
  end.

Lemma link_entry_eq de es :
  link_entry de es = take (free_entry es) es ++ de :: drop (S (free_entry es)) es.
Proof.
  induction es as [|d es IH]; [done|]. cbn [link_entry free_entry]. destruct (de_inum d =? 0); [done|].
  by rewrite IH.
Qed.

Lemma dirent_inum inum name : de_inum (dirent inum name) = inum mod 65536.
Proof.
  unfold de_inum, dirent, get16, get8. simpl. change 65536 with (256 * 256). rewrite Z.rem_mul_r by lia. lia.
Qed.
Lemma dirent_name inum name : name_of (take DIRSIZ (de_name (dirent inum name))) = name_of (take DIRSIZ name).
Proof.
  unfold de_name, dirent. change (drop 2 _) with (strncpy DIRSIZ (str_of name)).
  rewrite take_ge by (by rewrite length_strncpy). apply strncpy_name.
Qed.
Lemma length_dirent inum name : length (dirent inum name) = 16%nat.
Proof. unfold dirent. cbn [length]. by rewrite length_strncpy. Qed.
Lemma bytes_dirent inum name : bytes name → bytes (dirent inum name).
Proof.
  intros Hn. unfold dirent. constructor; [apply Z.mod_pos_bound; lia|].
  constructor; [apply Z.mod_pos_bound; lia|by apply bytes_strncpy].
Qed.

(** Linking a new name: the name maps to the inode, and every other name keeps
    its inode. *)
Lemma dir_lookup_link es inum name name' :
  0 < inum < 65536 → dir_lookup es name = None →
  dir_lookup (link_entry (dirent inum name) es) name' =
    if decide (name_of (take DIRSIZ name') = name_of (take DIRSIZ name)) then Some inum else dir_lookup es name'.
Proof.
  intros Hin. assert (de_inum (dirent inum name) = inum) as Hde by (rewrite dirent_inum, Z.mod_small; lia).
  assert (∀ n, matches n (dirent inum name) ↔ name_of (take DIRSIZ n) = name_of (take DIRSIZ name)) as Hm.
  { intros n. unfold matches. rewrite dirent_name, Hde. intuition lia. }
  induction es as [|d es IH]; intros Hnone.
  - cbn [link_entry dir_lookup]. rewrite Hde. by rewrite (decide_ext _ _ _ _ (Hm name')).
  - cbn [dir_lookup] in Hnone. destruct (decide (matches name d)) as [|Hnd]; [done|]. cbn [link_entry].
    destruct (Z.eqb_spec (de_inum d) 0) as [Hz|Hz]; cbn [dir_lookup].
    + rewrite Hde, (decide_ext _ _ _ _ (Hm name')). rewrite (decide_False (P := matches name' d)); [done|]. by intros [? _].
    + rewrite IH by done. destruct (decide (matches name' d)) as [Hd|Hd]; [|done].
      rewrite decide_False; [done|]. intros He. apply Hnd. split; [done|]. rewrite <- He. apply Hd.
Qed.

Section Dirs.
Context (mypid : Z) (G : layout) (sb : superblock) (HG : fslayout G sb).
Context (dr : Z → option (nat → Z → M fstate (Z * list Z))) (dw : Z → option (nat → list Z → M fstate Z)).

Local Abbreviation fs := (fs mypid G sb).
Local Abbreviation file_ok := (file_ok sb).

Lemma iget_ok n L V I s d m ip I' :
  fs n L V I s → iget_pure d m I = Some (ip, I') → tot (iget d m) (λ r s', r = ip ∧ fs n L V I' s') s.
Proof.
  intros H Hp tr. unfold iget, iget_pure in *. pose proof (f_inodes _ _ _ _ _ _ _ _ H) as HI.
  exists ip, tr, (set_inodes I' s). split; [|split; [done|by eapply fs_set_inodes]].
  rewrite bind_acquire by set_solver. erewrite bind_Ret by done. cbv beta. rewrite HI.
  destruct (iget_scan d m 0 None I) as [k|[k|]]; simplify_eq.
  all: erewrite bind_Ret by done; cbv beta; erewrite bind_Ret by (by rewrite release_head by set_solver).
  all: done.
Qed.

(** [iput] of an inode that stays on the disk: its lock is taken and given back,
    and it has one reference less. *)
Definition released (i : inode) : inode := set_ref (i32 (ref i - 1)) (set_ilk (Sleeplock.SL 0 0) i).

Lemma iput_keep_ok n L V I s ip i :
  fs n L V I s → I !! ip = Some i → Sleeplock.locked (ilk i) = 0 → valid i = 0 ∨ ref i ≠ 1 →
  tot (iput mypid ip) (λ _ s', fs n L V (<[ip := released i]> I) s') s.
Proof.
  intros H Hi Hl Hk. unfold iput.
  call (on_ilock_ok mypid G sb); [exact H|exact Hi|by apply tot_acquiresleep|]. intros _ s1 (l & -> & F1).
  pose proof (lookup_lt_Some _ _ _ Hi) as Hlt.
  assert (∀ x, <[ip := x]> I !! ip = Some x) as Hins by (intros x; by apply list_lookup_insert_eq).
  tot_step. rewrite (inode_at_fs _ _ _ _ _ _ _ _ _ _ F1 (Hins _)). cbn [valid nlink set_ilk].
  eapply tot_bind, (tot_mono _ _ (λ _ s', s' = s1)).
  { destruct (negb (valid i =? 0) && (nlink i =? 0))%bool eqn:E; [|by tot_step]. destruct Hk as [Hk|Hk]; [by rewrite Hk in E|].
    intros tr. exists tt, tr, s1. split; [|done]. rewrite bind_acquire by set_solver. erewrite bind_Ret by done.
    cbv beta. erewrite bind_Ret by (by rewrite release_head by set_solver).
    rewrite (inode_at_fs _ _ _ _ _ _ _ _ _ _ F1 (Hins _)). cbn [ref set_ilk]. by rewrite (proj2 (Z.eqb_neq _ _) Hk). }
  intros _ _ ->. call (on_ilock_ok mypid G sb); [exact F1|apply Hins|apply tot_releasesleep|].
  intros _ s2 (l & -> & F2). rewrite list_insert_insert_eq in F2. intros tr.
  rewrite bind_acquire by set_solver. erewrite bind_Ret by done. rewrite release_head by set_solver.
  eexists tt, tr, _. split; [done|]. rewrite (f_inodes _ _ _ _ _ _ _ _ F2).
  rewrite (alter_inode _ _ _ _ (Hins _)), list_insert_insert_eq. by eapply fs_set_inodes.
Qed.

(** ** Entries of a directory file *)

Definition entry (V : Z → block) (i : inode) (k : nat) : list Z := file_bytes V i (Z.of_nat k * 16) 16.
Definition entries (V : Z → block) (i : inode) : list (list Z) :=
  map (entry V i) (seq 0 (Z.to_nat (isize i / 16))).

(** A directory: a file of whole entries. *)
Record dir_ok (V : Z → block) (i : inode) : Prop := {
  dk_file : file_ok V i;
  dk_type : itype i = T_DIR;
  dk_size : isize i mod 16 = 0 }.

Lemma bytes_file_bytes V i off n : (∀ m, bytes (V m)) → bytes (file_bytes V i off n).
Proof. intros Hb. apply Forall_fmap, Forall_forall. intros j _. apply (get8_range (V _)). apply Hb. Qed.

Lemma length_file_bytes V i off n : length (file_bytes V i off n) = Z.to_nat n.
Proof. unfold file_bytes. by rewrite length_map, length_seq. Qed.

Lemma dir_offs_eq i : 0 ≤ isize i → isize i mod 16 = 0 →
  dir_offs (isize i) = map (λ k, Z.of_nat k * 16) (seq 0 (Z.to_nat (isize i / 16))).
Proof.
  intros H0 Hs. unfold dir_offs, sizeof_dirent. do 3 f_equal. Z.to_euclidean_division_equations. lia.
Qed.

Lemma read_entry n V I s ip i k :
  fs n [] V I s → I !! ip = Some i → dir_ok V i → (k < Z.to_nat (isize i / 16))%nat →
  tot (readi mypid dr ip (Z.of_nat k * 16) 16) (λ r s', r = (16, entry V i k) ∧ fs n [] V I s') s.
Proof.
  intros H Hi [Hf Ht Hs] Hk. pose proof (fo_size _ _ _ Hf) as Hsz. unfold MAXFILE in Hsz.
  change (Z.of_nat BSIZE) with 512 in Hsz.
  assert (Z.of_nat k * 16 + 16 ≤ isize i) as Hle by (Z.to_euclidean_division_equations; lia).
  eapply tot_mono; [eapply (readi_ok mypid G sb HG n V I s ip i); [exact H|exact Hi|exact Hf|lia|lia|lia]|].
  intros r s' [-> F]. split; [|done]. by rewrite Z.min_l by lia.
Qed.

(** The outcome of [dirlookup]: no entry, or the first one, whose inode [iget]
    has found. *)
Definition looked_up (n : nat) (V : Z → block) (I : list inode) (m : option Z)
    (r : option (nat * Z)) (s' : fstate) : Prop :=
  match m with
  | None => r = None ∧ fs n [] V I s'
  | Some inum => ∃ ip off I', r = Some (ip, off) ∧ iget_pure ROOTDEV inum I = Some (ip, I') ∧ fs n [] V I' s'
  end.

Lemma dirlookup_loop_ok len k n V I s dp i name :
  fs n [] V I s → I !! dp = Some i → dir_ok V i → bytes name → (k + len = Z.to_nat (isize i / 16))%nat →
  (∀ inum, dir_lookup (map (entry V i) (seq k len)) name = Some inum → iget_pure ROOTDEV inum I ≠ None) →
  tot (dirlookup_loop mypid dr dp name (map (λ k, Z.of_nat k * 16) (seq k len)))
      (looked_up n V I (dir_lookup (map (entry V i) (seq k len)) name)) s.
Proof.
  revert k s; induction len as [|len IH]; intros k s H Hi Hd Hn Hk Hget; cbn [seq map dirlookup_loop].
  { tot_step. by split. }
  call read_entry; [exact H|exact Hi|exact Hd|lia|]. intros r s1 [-> F1]. cbn [fst snd].
  change (16 =? Z.of_nat sizeof_dirent) with true. cbn [negb].
  assert (bytes (de_name (entry V i k))) as Hb.
  { apply Forall_drop, bytes_file_bytes. intros m. by eapply fs_bytes. }
  cbn [seq map dir_lookup] in Hget. cbn [dir_lookup].
  destruct (Z.eqb_spec (de_inum (entry V i k)) 0) as [Hz|Hz].
  { rewrite decide_False in Hget |- * by (by intros [? _]). apply IH; try done. lia. }
  destruct (Z.eqb_spec (namecmp name (de_name (entry V i k))) 0) as [Hc|Hc].
  - assert (matches name (entry V i k)) as Hm. { split; [done|]. by apply strncmp_zero in Hc. }
    rewrite decide_True in Hget |- * by done. tot_step. rewrite (inode_at_fs _ _ _ _ _ _ _ _ _ _ F1 Hi).
    rewrite (fo_dev _ _ _ (dk_file _ _ Hd)).
    destruct (iget_pure ROOTDEV (de_inum (entry V i k)) I) as [[ip I']|] eqn:E; [|by destruct (Hget _ eq_refl)].
    call iget_ok; [exact F1|exact E|]. intros ip' s2 [-> F2]. tot_step. by exists ip, (Z.of_nat k * 16), I'.
  - assert (¬ matches name (entry V i k)) as Hm. { intros [_ Hx]. apply Hc, strncmp_zero; done. }
    rewrite decide_False in Hget |- * by done. apply IH; try done. lia.
Qed.

Lemma dirlookup_ok n V I s dp i name :
  fs n [] V I s → I !! dp = Some i → dir_ok V i → bytes name →
  (∀ inum, dir_lookup (entries V i) name = Some inum → iget_pure ROOTDEV inum I ≠ None) →
  tot (dirlookup mypid dr dp name) (looked_up n V I (dir_lookup (entries V i) name)) s.
Proof.
  intros H Hi Hd Hn Hget. unfold dirlookup. tot_step. rewrite (inode_at_fs _ _ _ _ _ _ _ _ _ _ H Hi).
  rewrite (dk_type _ _ Hd). change (T_DIR =? T_DIR) with true. cbn [negb].
  pose proof (fo_size _ _ _ (dk_file _ _ Hd)).
  rewrite dir_offs_eq; [|lia|apply (dk_size _ _ Hd)]. by apply dirlookup_loop_ok.
Qed.

Lemma dirlink_loop_ok len k n V I s dp i :
  fs n [] V I s → I !! dp = Some i → dir_ok V i → (k + len = Z.to_nat (isize i / 16))%nat →
  tot (dirlink_loop mypid dr dp (Z.of_nat k * 16) (map (λ k, Z.of_nat k * 16) (seq k len)))
      (λ off s', off = Z.of_nat (k + free_entry (map (entry V i) (seq k len))) * 16 ∧ fs n [] V I s') s.
Proof.
  revert k s; induction len as [|len IH]; intros k s H Hi Hd Hk; cbn [seq map dirlink_loop free_entry].
  { tot_step. split; [lia|done]. }
  call read_entry; [exact H|exact Hi|exact Hd|lia|]. intros r s1 [-> F1]. cbn [fst snd].
  change (16 =? Z.of_nat sizeof_dirent) with true. cbn [negb].
  destruct (Z.eqb_spec (de_inum (entry V i k)) 0) as [Hz|Hz].
  { tot_step. split; [lia|done]. }
  replace (Z.of_nat k * 16 + Z.of_nat sizeof_dirent) with (Z.of_nat (S k) * 16) by (unfold sizeof_dirent; lia).
  eapply tot_mono; [apply IH; try done; lia|]. intros off s2 [-> F2]. split; [lia|done].
Qed.

Lemma length_entries V i : length (entries V i) = Z.to_nat (isize i / 16).
Proof. unfold entries. by rewrite length_map, length_seq. Qed.

Lemma free_entry_le es : (free_entry es ≤ length es)%nat.
Proof. induction es as [|d es IH]; simpl; [lia|]. case_match; lia. Qed.

(** Storing an entry in the file stores it in the list of entries. *)
Lemma entries_stored V i k de V' i' :
  dir_ok V i → length de = 16%nat → (k ≤ length (entries V i))%nat →
  stored sb V i (Z.of_nat k * 16) de V' i' →
  entries V' i' = take k (entries V i) ++ de :: drop (S k) (entries V i).
Proof.
  intros [Hf _ Hs] Hde Hk Hst. rewrite length_entries in Hk. pose proof (s_size _ _ _ _ _ _ _ Hst) as Hsz.
  rewrite Hde in Hsz. pose proof (fo_size _ _ _ Hf) as Hfs.
  assert (Z.of_nat k * 16 ≤ isize i) as Hk16 by (Z.to_euclidean_division_equations; lia).
  assert (∀ j, (j < Z.to_nat (isize i' / 16))%nat → entry V' i' j = if decide (j = k) then de else entry V i j) as He.
  { intros j Hj. unfold entry, file_bytes. apply list_eq. intros b. rewrite list_lookup_fmap.
    destruct (decide (b < 16)%nat) as [Hb|Hb].
    - rewrite lookup_seq_lt by lia. cbn [fmap option_fmap option_map Nat.add].
      rewrite (s_byte _ _ _ _ _ _ _ Hst) by (Z.to_euclidean_division_equations; lia). rewrite Hde.
      destruct (decide (j = k)) as [->|Hne].
      + rewrite decide_True by lia. replace (Z.to_nat _) with b by lia. rewrite nth_lookup.
        destruct (de !! b) eqn:E; [done|]. apply lookup_ge_None in E. lia.
      + rewrite decide_False by lia. rewrite list_lookup_fmap, lookup_seq_lt by lia. done.
    - rewrite lookup_seq_ge by lia. symmetry. apply lookup_ge_None.
      case_decide; [lia|]. rewrite length_map, length_seq. lia. }
  apply list_eq. intros j. unfold entries at 1. rewrite list_lookup_fmap.
  assert (length (take k (entries V i)) = k) as Hlt by (rewrite length_take, length_entries; lia).
  assert (∀ j, (j < Z.to_nat (isize i / 16))%nat → entries V i !! j = Some (entry V i j)) as Hel.
  { intros j' Hj'. unfold entries. by rewrite list_lookup_fmap, lookup_seq_lt by lia. }
  destruct (decide (j < Z.to_nat (isize i' / 16))%nat) as [Hj|Hj].
  - rewrite lookup_seq_lt by lia. cbn [fmap option_fmap option_map Nat.add]. rewrite He by done.
    destruct (decide (j = k)) as [->|Hne].
    + by rewrite lookup_app_r, Hlt, Nat.sub_diag by lia.
    + destruct (decide (j < k)%nat).
      * rewrite lookup_app_l, lookup_take_lt by lia. rewrite Hel; [done|]. Z.to_euclidean_division_equations. lia.
      * rewrite lookup_app_r, Hlt by lia. rewrite lookup_cons_ne_0, lookup_drop by lia.
        replace (S k + pred (j - k))%nat with j by lia. rewrite Hel; [done|]. Z.to_euclidean_division_equations. lia.
  - rewrite lookup_seq_ge by lia. symmetry. apply lookup_ge_None.
    rewrite length_app, Hlt. cbn [length]. rewrite length_drop, length_entries. Z.to_euclidean_division_equations. lia.
Qed.

Lemma dir_stored V i k de V' i' :
  dir_ok V i → length de = 16%nat → stored sb V i (Z.of_nat k * 16) de V' i' → dir_ok V' i'.
Proof.
  intros [Hf Ht Hs] Hde Hst. split.
  - apply Hst.
  - rewrite (s_inode _ _ _ _ _ _ _ Hst). done.
  - rewrite (s_size _ _ _ _ _ _ _ Hst), Hde. Z.to_euclidean_division_equations. lia.
Qed.

(** [dirlink] of a name the directory does not have. *)
Lemma dirlink_ok n V I s dp i name inum :
  fs (7 + n) [] V I s → meta_marked sb V → I !! dp = Some i → dir_ok V i → bytes name →
  dir_lookup (entries V i) name = None → isize i + 16 ≤ MAXFILE * 512 → (2 ≤ nfree sb V)%nat →
  tot (dirlink mypid dr dw dp name inum)
      (λ r s', r = 0 ∧ ∃ V' i', fs n [] V' (<[dp := i']> I) s' ∧ dir_ok V' i' ∧
         entries V' i' = link_entry (dirent inum name) (entries V i) ∧
         stored sb V i (Z.of_nat (free_entry (entries V i)) * 16) (dirent inum name) V' i') s.
Proof.
  intros H Hmeta Hi Hd Hn Hnone Hmax Hfree. unfold dirlink.
  call dirlookup_ok; [exact H|exact Hi|exact Hd|exact Hn|by rewrite Hnone|]. rewrite Hnone. intros r s1 [-> F1].
  tot_step. rewrite (inode_at_fs _ _ _ _ _ _ _ _ _ _ F1 Hi). pose proof (fo_size _ _ _ (dk_file _ _ Hd)) as Hsz.
  rewrite dir_offs_eq; [|lia|apply (dk_size _ _ Hd)].
  call (dirlink_loop_ok _ 0); [exact F1|exact Hi|exact Hd|done|]. intros off s2 [-> F2]. fold (entries V i).
  pose proof (free_entry_le (entries V i)) as Hle. rewrite length_entries in Hle. rewrite Nat.add_0_l.
  set (k := free_entry (entries V i)) in *. pose proof (dk_size _ _ Hd) as Hmod.
  assert (Z.of_nat k * 16 ≤ isize i) as Hk by (Z.to_euclidean_division_equations; lia).
  call (writei_ok mypid G sb HG 1 n V I s2 dp i (Z.of_nat k * 16) (dirent inum name));
    [exact F2|exact Hmeta|exact Hi|apply Hd|lia|by apply bytes_dirent|rewrite length_dirent; lia| | |lia|].
  { intros _. rewrite length_dirent. Z.to_euclidean_division_equations. lia. }
  { rewrite length_dirent. done. }
  intros r s3 [-> (V' & i' & F3 & Hst)]. rewrite length_dirent. change (Z.of_nat 16 =? Z.of_nat sizeof_dirent) with true.
  cbn [negb]. tot_step. split; [done|]. exists V', i'. split; [done|]. split; [by eapply dir_stored; [|apply length_dirent|]|].
  split; [|done]. rewrite link_entry_eq. apply entries_stored; [done|apply length_dirent|rewrite length_entries; lia|done].
Qed.
End Dirs.
