(* ===== verification/FsSample.v ===== *)
(** * A small file system

    The layout of [mkfs]'s image (1000 blocks, 200 inodes) with a root directory
    and one file, in the middle of a system call: the state the theorems on the
    file system are applied to. *)

From S2P Require Import Prelude Locks Bytes Str Bio Log Txn Fs FsBlocks FsInode FsFile FsDir.

Module SampleFs.

Definition sb : superblock := SB 1000 941 200 30 2 32 58.
Definition super : block :=
  put32 24 58 (put32 20 32 (put32 16 2 (put32 12 30 (put32 8 200 (put32 4 941 (put32 0 1000 zero_block)))))).
(** Blocks 0 to 60 are in use. *)
Definition bitmap : block := replicate 7 255 ++ 31 :: replicate 504 0.

Definition dot : list Z := [46].
Definition dotdot : list Z := [46; 46].
Definition root_dinode : dinode := Dinode T_DIR 0 0 1 32 (59 :: replicate 12 0).
Definition file_dinode : dinode := Dinode T_FILE 0 0 1 5 (60 :: replicate 12 0).
Definition inode_block : block := put_dinode 64 root_dinode (put_dinode 128 file_dinode zero_block).
Definition root_block : block := dirent 1 dot ++ dirent 1 dotdot ++ replicate 480 0.
Definition hello : list Z := [104; 101; 108; 108; 111].
Definition file_block : block := hello ++ replicate 507 0.

Definition disk : gmap Z block :=
  <[1 := super]> (<[32 := inode_block]> (<[58 := bitmap]> (<[59 := root_block]> {[ 60 := file_block ]}))).
Definition G : layout := Layout 2 30 1000 disk 1.
Definition V : Z → block := blk disk.

(** Both inodes are in the cache and locked by process 5. *)
Definition root : inode :=
  Inode ROOTDEV 1 1 (Sleeplock.SL 1 5) 1 T_DIR 0 0 1 32 (59 :: replicate 12 0).
Definition file : inode :=
  Inode ROOTDEV 2 1 (Sleeplock.SL 1 5) 1 T_FILE 0 0 1 5 (60 :: replicate 12 0).
Definition icache : list inode := root :: file :: replicate 48 inode0.

Definition state : fstate :=
  FS (LS (binit (bcache0 disk 1000)) (Log 2 30 1 0 ROOTDEV 0 (replicate 30 0))) icache sb.

(** The call has run [begin_op]. *)
Lemma state_begun :
  begin_op (Ctx [] []) (LS (binit (bcache0 disk 1000)) (Log 2 30 0 0 ROOTDEV 0 (replicate 30 0))) =
  Ret tt (Ctx [] []) (ls state).
Proof. vm_compute. reflexivity. Qed.

Lemma layout_ok : fslayout G sb.
Proof. split; vm_compute; done. Qed.

Lemma blocks_ok : map_Forall (λ _ b, length b = BSIZE ∧ bytes b) disk.
Proof.
  assert (∀ b, length b = BSIZE → forallb (λ x, (0 <=? x) && (x <? 256))%bool b = true → length b = BSIZE ∧ bytes b) as H.
  { intros b Hl Hb. split; [done|]. rewrite forallb_forall in Hb. apply Forall_forall. intros x Hx.
    apply list_elem_of_In, Hb in Hx. apply andb_prop in Hx as [? ?]. lia. }
  repeat apply map_Forall_insert_2; try (apply H; vm_compute; reflexivity).
  apply map_Forall_empty.
Qed.

Lemma state_fs n : (n ≤ 27)%nat → fs 5 G sb n [] V icache state.
Proof.
  intros Hn. split; [|done|done]. apply (txn_boot 5 G n 1000); try done.
  - apply blocks_ok.
  - unfold NBUF. lia.
  - simpl. lia.
Qed.

Lemma meta_ok : meta_marked sb V.
Proof.
  assert (forallb (marked sb V) (seqZ 0 59) = true) as H by (vm_compute; reflexivity).
  intros b Hb. rewrite forallb_forall in H. apply H, list_elem_of_In, elem_of_seqZ. change (datastart sb) with 59 in Hb. lia.
Qed.

Lemma nfree_ok : nfree sb V = 939%nat.
Proof. vm_compute. reflexivity. Qed.

Lemma dinode_okb x :
  forallb (λ z, (-32768 <=? z) && (z <? 32768))%bool [d_type x; d_major x; d_minor x; d_nlink x] &&
  forallb (λ z, (0 <=? z) && (z <? 4294967296))%bool (d_size x :: d_addrs x) &&
  (length (d_addrs x) =? 13)%nat = true → dinode_ok x.
Proof.
  rewrite !andb_true_iff. intros [[Hs Hzu] Hl%Nat.eqb_eq]. cbn [forallb] in Hs, Hzu.
  apply andb_prop in Hzu as [Hz Hu].
  rewrite !andb_true_iff, !Z.leb_le, !Z.ltb_lt in Hs. rewrite andb_true_iff, Z.leb_le, Z.ltb_lt in Hz.
  split; try (unfold short, uint; lia). apply Forall_forall. intros z Hz'%list_elem_of_In.
  rewrite forallb_forall in Hu. apply Hu in Hz'. unfold uint. lia.
Qed.

(** A file with one block. *)
Lemma one_block V i b :
  addrs i = b :: replicate 12 0 → 0 < b → idev i = ROOTDEV → inum_ok sb (inum i) → dinode_ok (to_dinode i) →
  itype i ≠ T_DEV → 0 ≤ isize i ≤ 512 → data_block sb V b → file_ok sb V i.
Proof.
  intros Ha Hb0 Hd Hn Hdi Ht Hs Hb.
  assert (ind i = 0) as Hind by (unfold ind; rewrite Ha; done).
  assert (∀ bn, 0 ≤ bn → blk_addr V i bn = if decide (bn = 0) then b else 0) as Hadr.
  { intros bn Hbn. unfold blk_addr. rewrite Hind, Ha. cbn [Z.eqb]. destruct (Z.ltb_spec bn (Z.of_nat NDIRECT)).
    - case_decide; [by subst|]. destruct (Z.to_nat bn) as [|k] eqn:E; [lia|]. cbn [nth]. rewrite nth_lookup.
      destruct (replicate 12 0 !! k) eqn:Ek; [|done]. by apply lookup_replicate in Ek as [-> _].
    - by rewrite decide_False by (unfold NDIRECT in *; lia). }
  split; try done.
  - unfold MAXFILE. change (Z.of_nat BSIZE) with 512. lia.
  - intros bn Hbn. rewrite Hadr by lia. case_decide; [|done]. intros _. split; [done|]. lia.
  - intros b1 b2 Hb1 Hb2. rewrite !Hadr by lia. repeat case_decide; subst; done || lia.
  - intros bn Hbn. change (Z.of_nat BSIZE) with 512. intros Hlt. rewrite Hadr by lia. rewrite decide_True; lia.
Qed.

Lemma file_is_ok : file_ok sb V file.
Proof.
  apply (one_block V file 60).
  - reflexivity.
  - lia.
  - reflexivity.
  - by split.
  - apply dinode_okb. vm_compute. reflexivity.
  - discriminate.
  - simpl. lia.
  - split; [change (datastart sb) with 59; change (sb_size sb) with 1000; lia|vm_compute; reflexivity].
Qed.

Lemma root_is_dir : dir_ok sb V root.
Proof.
  split; [|done|done]. apply (one_block V root 59).
  - reflexivity.
  - lia.
  - reflexivity.
  - by split.
  - apply dinode_okb. vm_compute. reflexivity.
  - discriminate.
  - simpl. lia.
  - split; [change (datastart sb) with 59; change (sb_size sb) with 1000; lia|vm_compute; reflexivity].
Qed.
End SampleFs.
