(* ===== verification/FsSpec.v ===== *)
(** * Theorems on the file system

    What the operations of [fs.c] promise their callers, from a free block to a
    crash-safe write and to directories as maps, each applied to the sample file
    system. *)

From S2P Require Import Prelude Locks Bytes Str Bio Log Txn Fs FsBlocks FsInode FsFile FsDir FsSample.

(** [balloc] returns the lowest free block, and [bfree] gives it back. The
    block was free, becomes used and zeroed; no other block's mark or content
    changes; after [bfree] the free map is the one before. *)
Theorem balloc_bfree mypid G sb n V I s b0 :
  fslayout G sb → fs mypid G sb (3 + n) [] V I s → meta_marked sb V →
  0 ≤ b0 < sb_size sb → marked sb V b0 = false →
  tot (balloc mypid ROOTDEV)
    (λ a s1, datastart sb ≤ a < sb_size sb ∧ marked sb V a = false ∧
       (∀ b, 0 ≤ b < a → marked sb V b = true) ∧
       ∃ V1, fs mypid G sb (1 + n) [] V1 I s1 ∧ V1 a = zero_block ∧
         (∀ b, 0 ≤ b < sb_size sb → marked sb V1 b = (bool_decide (b = a) || marked sb V b)%bool) ∧
         (∀ b, datastart sb ≤ b → b ≠ a → V1 b = V b) ∧
         tot (bfree mypid ROOTDEV a)
           (λ _ s2, ∃ V2, fs mypid G sb n [] V2 I s2 ∧
              ∀ b, 0 ≤ b < sb_size sb → marked sb V2 b = marked sb V b) s1) s.
Proof.
  intros HG H Hm Hb0 Hf. pose proof (fs_lengths _ _ _ _ _ _ _ _ H) as Hlen.
  eapply tot_mono; [eapply (balloc_ok mypid G sb HG (1 + n)); [exact H|simpl; lia|done|set_solver|done|done]|].
  intros a s1 (Ha & Hma & Hlow & F1). pose proof (datastart_pos G sb HG). split_and!; try done; try lia.
  exists (alloc_view sb V a). split; [done|]. split; [apply alloc_view_new|]. split.
  { intros b Hb. by apply (marked_alloc G). }
  split. { intros b Hb Hne. apply (alloc_view_data G sb HG); [done|done|lia]. }
  assert (marked sb (alloc_view sb V a) a = true) as Hmk.
  { rewrite (marked_alloc G) by (done || lia). by rewrite bool_decide_eq_true_2. }
  eapply tot_mono; [eapply bfree_ok; [done|exact F1|simpl; lia|set_solver|lia|done]|].
  intros ? s2 F2. eexists _. split; [exact F2|]. intros b Hb.
  rewrite (marked_free sb), (marked_alloc G) by (done || lia || by eapply fs_lengths).
  case_bool_decide as E; simpl; [subst; by rewrite Hma|done].
Qed.

(** C24: [writei] of bytes inside or at the end of a file stores them: the file's
    size and bytes are as expected, its blocks stay valid and disjoint, the inode
    on the disk is the one in memory, and neither the data of another file nor
    another inode changes. *)
Theorem writei_spec mypid G sb dw R n V I s ip i off src :
  fslayout G sb → fs mypid G sb (6 * R + 1 + n) [] V I s → meta_marked sb V →
  I !! ip = Some i → file_ok sb V i → 0 ≤ off ≤ isize i → bytes src →
  off + Z.of_nat (length src) ≤ MAXFILE * 512 →
  (src ≠ [] → off mod 512 + Z.of_nat (length src) ≤ 512 * Z.of_nat R) →
  Z.of_nat R ≤ Z.of_nat (length src) / 512 + 2 → (2 * R ≤ nfree sb V)%nat →
  tot (writei mypid dw ip src off)
      (λ r s', r = Z.of_nat (length src) ∧
        ∃ V' i', fs mypid G sb n [] V' (<[ip := i']> I) s' ∧ stored sb V i off src V' i') s.
Proof. intros HG. by apply writei_ok. Qed.

(** C16: what is written to a file is what is read back: after [writei] of [src]
    at [off], reading the whole file gives the old bytes with [src] spliced in
    at [off]. *)
Theorem file_write_read mypid G sb dr dw R n V I s ip i off src :
  fslayout G sb → fs mypid G sb (6 * R + 1 + n) [] V I s → meta_marked sb V →
  I !! ip = Some i → file_ok sb V i → 0 ≤ off ≤ isize i → bytes src →
  off + Z.of_nat (length src) ≤ MAXFILE * 512 →
  (src ≠ [] → off mod 512 + Z.of_nat (length src) ≤ 512 * Z.of_nat R) →
  Z.of_nat R ≤ Z.of_nat (length src) / 512 + 2 → (2 * R ≤ nfree sb V)%nat →
  let data := file_data V i in
  tot (writei mypid dw ip src off;; j ← gets (inode_at ip); readi mypid dr ip 0 (isize j))
      (λ r s', r.2 = take (Z.to_nat off) data ++ src ++ drop (Z.to_nat off + length src) data) s.
Proof.
  intros HG H Hm Hi Hok Ho Hb Hmax HR Hrd Hfree data. call writei_ok; try done.
  intros r s1 [_ (V' & i' & F1 & Hst)]. tot_step.
  assert (<[ip := i']> I !! ip = Some i') as Hi' by (apply list_lookup_insert_eq; by eapply lookup_lt_Some).
  rewrite (inode_at_fs _ _ _ _ _ _ _ _ _ _ F1 Hi').
  pose proof (s_ok _ _ _ _ _ _ _ Hst) as Hok'. pose proof (fo_size _ _ _ Hok') as Hsz.
  unfold MAXFILE in Hsz. change (Z.of_nat BSIZE) with 512 in Hsz.
  eapply tot_mono; [eapply (readi_ok mypid G sb HG); [exact F1|exact Hi'|exact Hok'|lia|lia|lia]|].
  intros d s2 [-> _]. cbn [snd]. replace (Z.min (isize i') (isize i' - 0)) with (isize i') by lia.
  fold (file_data V' i'). by apply (stored_data sb).
Qed.

(** C1: a write to a file survives a crash whole or not at all. [writei] leaves
    the disk as it was; the [end_op] after it puts the new contents on the disk;
    and if the machine stops after any number of the disk writes of [end_op], the
    recovery of the next boot leaves every block outside the log as before the
    call or every block as after it. *)
Theorem file_write_crash_safe mypid G sb dw R n V I s tr ip i off src :
  fslayout G sb → fs mypid G sb (6 * R + 1 + n) [] V I s → meta_marked sb V →
  I !! ip = Some i → file_ok sb V i → 0 ≤ off ≤ isize i → bytes src →
  off + Z.of_nat (length src) ≤ MAXFILE * 512 →
  (src ≠ [] → off mod 512 + Z.of_nat (length src) ≤ 512 * Z.of_nat R) →
  Z.of_nat R ≤ Z.of_nat (length src) / 512 + 2 → (2 * R ≤ nfree sb V)%nat →
  l_out G = 1 → sb_of (blk (l_mem G) 1) = sb →
  2 ≤ l_start G → sb_logstart sb = l_start G → sb_nlog sb = l_size G →
  ∃ tr1 s1 V' i', writei mypid dw ip src off (Ctx [] tr) s = Ret (Z.of_nat (length src)) (Ctx [] tr1) s1 ∧
    stored sb V i off src V' i' ∧ memdisk (bio (ls s1)) = l_mem G ∧
    ∃ s2 tr2, end_op mypid (Ctx [] tr1) (ls s1) = Ret tt (Ctx [] (tr1 ++ tr2)) s2 ∧
      (∀ m, ¬ log_area (lg (ls s1)) m → disk_at m (bio s2) = V' m) ∧
      ∀ ws1 ws2, writes tr2 = ws1 ++ ws2 →
      ∃ s3 c3, initlog mypid ROOTDEV (Ctx [] [])
          (boot (apply_writes ws1 (l_mem G)) (disksize (bio (ls s1)))) = Ret tt c3 s3 ∧
        ((∀ m, ¬ log_area (lg (ls s1)) m → disk_at m (bio s3) = blk (l_mem G) m) ∨
         (∀ m, ¬ log_area (lg (ls s1)) m → disk_at m (bio s3) = V' m)).
Proof.
  intros HG H Hm Hi Hok Ho Hb Hmax HR Hrd Hfree Hout Hsb Hst2 Hls Hln.
  destruct (writei_ok mypid G sb HG R n V I s ip i off src dw H Hm Hi Hok Ho Hb Hmax HR Hrd Hfree tr)
    as (r & tr1 & s1 & E1 & -> & V' & i' & F1 & Hst).
  exists tr1, s1, V', i'. split; [done|]. split; [done|]. pose proof (f_txn _ _ _ _ _ _ _ _ F1) as T.
  split; [apply T|]. apply (txn_crash mypid G n V'); rewrite ?Hsb; done.
Qed.

(** The cache entry [iget] returns is for the inode asked for. *)
Lemma iget_scan_inum d n I : ∀ k e,
  (∀ x, e = Some x → (x < k)%nat) →
  match iget_scan d n k e I with
  | inl ip => ∃ i, (k ≤ ip)%nat ∧ I !! (ip - k)%nat = Some i ∧ inum i = n ∧ 0 < ref i
  | inr (Some ip) => (ip < k + length I)%nat
  | inr None => True
  end.
Proof.
  induction I as [|i I IH]; intros k e He; cbn [iget_scan].
  { destruct e; [|done]. rewrite Nat.add_0_r. by apply He. }
  destruct ((0 <? ref i) && (idev i =? d) && (inum i =? n))%bool eqn:E.
  { exists i. rewrite Nat.sub_diag. rewrite !andb_true_iff, !Z.eqb_eq, Z.ltb_lt in E. naive_solver. }
  match goal with |- context [iget_scan d n (S k) ?e' I] => specialize (IH (S k) e') end.
  match type of IH with ?A → _ => assert A as HA end.
  { intros x Hx. repeat case_match; simplify_eq; try lia; pose proof (He _ eq_refl); lia. }
  specialize (IH HA). clear HA. destruct (iget_scan d n (S k) _ I) as [ip|[ip|]]; [|simpl; lia|done].
  destruct IH as (i' & Hle & Hi' & Hn). exists i'. split; [lia|]. split; [|done].
  replace (ip - k)%nat with (S (ip - S k)) by lia. done.
Qed.

Lemma iget_pure_inum d n I ip I' : iget_pure d n I = Some (ip, I') → ∃ i, I' !! ip = Some i ∧ inum i = n.
Proof.
  unfold iget_pure. pose proof (iget_scan_inum d n I 0 None) as H. intros E.
  destruct (iget_scan d n 0 None I) as [k|[k|]]; simplify_eq.
  - destruct H as (i & _ & Hi & Hn & _); [done|]. rewrite Nat.sub_0_r in Hi. exists (set_ref (i32 (ref i + 1)) i). split; [|exact Hn].
    rewrite list_lookup_alter, decide_True, Hi by done. reflexivity.
  - destruct (lookup_lt_is_Some_2 I ip) as [i Hi]; [apply H; done|]. eexists. split.
    + rewrite list_lookup_alter, decide_True, Hi by done. done.
    + done.
Qed.

(** [iget]'s search looks only at the identity and the reference count. *)
Lemma iget_scan_insert d n I dp i i' : I !! dp = Some i → ref i' = ref i → idev i' = idev i → inum i' = inum i →
  ∀ k e, iget_scan d n k e (<[dp := i']> I) = iget_scan d n k e I.
Proof.
  intros Hi Hr Hd Hn. revert dp Hi. induction I as [|j I IH]; intros [|dp] Hi k e; simplify_eq/=; try done.
  - by rewrite Hr, Hd, Hn.
  - by rewrite IH.
Qed.

(** An empty entry is enough for [iget]. *)
Lemma iget_scan_room d n I ip i : I !! ip = Some i → ref i = 0 → ∀ k e, iget_scan d n k e I ≠ inr None.
Proof.
  assert (∀ J k e, iget_scan d n k (Some e) J ≠ inr None) as Hs.
  { induction J as [|j J IH]; intros k e; cbn [iget_scan]; [done|]. case_match; [done|]. apply IH. }
  revert ip. induction I as [|j I IH]; intros [|ip] Hi Hr k e; simplify_eq/=; case_match; try done.
  - rewrite Hr. destruct e; apply Hs.
  - by eapply IH.
Qed.

(** The entry [ip] that [iget] hands out for a name in the directory is not the
    directory itself, nobody has it locked, and one more reference to it fits. *)
Definition spare (I : list inode) (dp : nat) (m : Z) : Prop :=
  ∀ ip I' j, iget_pure ROOTDEV m I = Some (ip, I') → I !! ip = Some j →
    ip ≠ dp ∧ Sleeplock.locked (ilk j) = 0 ∧ 0 ≤ ref j < 2147483647.

(** What [iget] did, [iput] undoes. *)
Lemma iget_iput I dp m ip I' :
  spare I dp m → iget_pure ROOTDEV m I = Some (ip, I') →
  ∃ j, I' !! ip = Some j ∧ Sleeplock.locked (ilk j) = 0 ∧ (valid j = 0 ∨ ref j ≠ 1) ∧
    (<[ip := released j]> I') !! dp = I !! dp ∧
    ((∀ m', iget_pure ROOTDEV m' I ≠ None) → ∀ m', iget_pure ROOTDEV m' (<[ip := released j]> I') ≠ None).
Proof.
  intros Hsp E. pose proof (Hsp ip I') as Hs. pose proof (iget_pure_inum _ _ _ _ _ E) as (j & Hj & _).
  unfold iget_pure in E. pose proof (iget_scan_inum ROOTDEV m I 0 None) as Hp.
  assert (∃ i, I !! ip = Some i) as (i & Hi).
  { destruct (iget_scan ROOTDEV m 0 None I) as [k|[k|]]; simplify_eq; rewrite list_lookup_alter, decide_True in Hj by done;
      destruct (I !! ip) as [i|] eqn:Hi; simplify_eq/=; eauto. }
  destruct (Hs i) as (Hne & Hl & Hr); [done|done|]. pose proof (lookup_lt_Some _ _ _ Hi) as Hlt. clear Hj j.
  destruct (iget_scan ROOTDEV m 0 None I) as [k|[k|]] eqn:Es; simplify_eq; rewrite (alter_inode _ _ _ _ Hi);
    eexists; (split; [by apply list_lookup_insert_eq|]);
    rewrite list_insert_insert_eq, list_lookup_insert_ne by done; unfold iget_pure.
  - destruct Hp as (i' & _ & Hi' & _ & Hr'); [done|]. rewrite Nat.sub_0_r in Hi'. simplify_eq. assert (ref (released (set_ref (i32 (ref i + 1)) i)) = ref i) as Hrr.
    { cbn. rewrite (i32_small (ref i + 1)), i32_small by lia. lia. }
    split_and!; [done|right; cbn; rewrite i32_small; lia|done|].
    intros Hroom m'. rewrite (iget_scan_insert _ _ _ _ _ _ Hi) by done.
    pose proof (Hroom m'). unfold iget_pure in *. destruct (iget_scan ROOTDEV m' 0 None I) as [|[]]; done.
  - split_and!; [done|by left|done|]. intros _ m'.
    match goal with |- context [iget_scan _ _ _ _ (<[ip := ?x]> I)] =>
      pose proof (iget_scan_room ROOTDEV m' (<[ip := x]> I) ip x) as Hx end.
    specialize (Hx ltac:(by apply list_lookup_insert_eq) eq_refl 0%nat None).
    intros Hn. apply Hx. by repeat case_match.
Qed.

(** [dirlink] of a name the directory has. *)
Lemma dirlink_exists mypid G sb dr dw n V I s dp i name inum m :
  fslayout G sb → fs mypid G sb n [] V I s → I !! dp = Some i → dir_ok sb V i → bytes name →
  dir_lookup (entries V i) name = Some m → spare I dp m → (∀ m, iget_pure ROOTDEV m I ≠ None) →
  tot (dirlink mypid dr dw dp name inum)
      (λ r s', r = -1 ∧ ∃ I', fs mypid G sb n [] V I' s' ∧ I' !! dp = Some i ∧
         ∀ m, iget_pure ROOTDEV m I' ≠ None) s.
Proof.
  intros HG H Hi Hd Hn Hm Hsp Hroom. unfold dirlink.
  call (dirlookup_ok mypid G sb HG dr dw); [exact H|exact Hi|exact Hd|exact Hn|done|].
  rewrite Hm. intros r s1 (ip & off & I' & -> & Hp & F1).
  destruct (iget_iput _ _ _ _ _ Hsp Hp) as (j & Hj & Hl & Hv & Hdp & Hroom').
  call iput_keep_ok; [exact HG|exact F1|exact Hj|exact Hl|exact Hv|]. intros _ s2 F2. tot_step.
  split; [done|]. eexists. split; [exact F2|]. rewrite Hdp. split; [done|by apply Hroom'].
Qed.

(** What a lookup of a name answers: nothing, or the cache entry of its inode. *)
Definition answers (m : option Z) (r : option (nat * Z)) (s : fstate) : Prop :=
  match m with
  | None => r = None
  | Some m => ∃ ip off, r = Some (ip, off) ∧ Fs.inum (inode_at ip s) = m
  end.

Lemma dirlookup_answers mypid G sb dr n V I s dp i name :
  fslayout G sb → fs mypid G sb n [] V I s → I !! dp = Some i → dir_ok sb V i → bytes name →
  (∀ m, iget_pure ROOTDEV m I ≠ None) →
  tot (dirlookup mypid dr dp name) (answers (dir_lookup (entries V i) name)) s.
Proof.
  intros HG H Hi Hd Hn Hroom. eapply tot_mono; [eapply (dirlookup_ok mypid G sb HG dr (λ _, None)); try done|].
  intros x s2. unfold looked_up, answers. destruct (dir_lookup (entries V i) name) as [m|]; [|by intros [Hx _]].
  intros (ip & off & I' & -> & Hp & F2). exists ip, off. split; [done|].
  destruct (iget_pure_inum _ _ _ _ _ Hp) as (j & Hj & <-). by rewrite (inode_at_fs _ _ _ _ _ _ _ _ _ _ F2 Hj).
Qed.

(** C15: a directory is a map from names to inodes. [dirlink] of a new [name] to
    [inum] returns 0, and then [dirlookup] of any [name'] returns the cache entry
    of [inum] when the two names agree on their first [DIRSIZ] characters, and
    otherwise answers as the old directory.  [dirlink] of a name that is there
    returns -1, and every lookup answers as before. *)
Theorem dirlink_dirlookup mypid G sb dr dw n V I s dp i name inum name' :
  fslayout G sb → fs mypid G sb (7 + n) [] V I s → meta_marked sb V →
  I !! dp = Some i → dir_ok sb V i → bytes name → bytes name' → 0 < inum < 65536 →
  isize i + 16 ≤ MAXFILE * 512 → (2 ≤ nfree sb V)%nat →
  (∀ m, iget_pure ROOTDEV m I ≠ None) →
  (∀ m, dir_lookup (entries V i) name = Some m → spare I dp m) →
  tot (r ← dirlink mypid dr dw dp name inum; x ← dirlookup mypid dr dp name'; mret (r, x))
      (λ '(r, x) s',
         match dir_lookup (entries V i) name with
         | Some _ => r = -1 ∧ answers (dir_lookup (entries V i) name') x s'
         | None => r = 0 ∧
             answers (if decide (name_of (take DIRSIZ name') = name_of (take DIRSIZ name)) then Some inum
                      else dir_lookup (entries V i) name') x s'
         end) s.
Proof.
  intros HG H Hm Hi Hd Hn Hn' Hin Hmax Hfree Hroom Hsp. destruct (dir_lookup (entries V i) name) as [m|] eqn:Hnone.
  - call dirlink_exists; try done; [by apply Hsp|]. intros r s1 (-> & I' & F1 & Hi' & Hroom').
    call dirlookup_answers; try done. intros x s2 Hx. tot_step. done.
  - call dirlink_ok; try done. intros r s1 (-> & V' & i' & F1 & Hd' & He & Hst).
    assert (<[dp := i']> I !! dp = Some i') as Hi' by (apply list_lookup_insert_eq; by eapply lookup_lt_Some).
    call dirlookup_answers; [done|exact F1|exact Hi'|done|done| |].
    { intros m Hx. apply (Hroom m). unfold iget_pure in *. pose proof (s_inode _ _ _ _ _ _ _ Hst) as Es.
      rewrite (iget_scan_insert _ _ _ _ _ _ Hi) in Hx by (rewrite Es; done).
      destruct (iget_scan ROOTDEV m 0 None I) as [|[]]; done. }
    intros x s2 Hx. tot_step. split; [done|]. by rewrite <- dir_lookup_link, <- He by done.
Qed.

(** ** Instances on the sample *)

Module SampleClaims.
Import SampleFs.

Definition no_dev_read : Z → option (nat → Z → M fstate (Z * list Z)) := λ _, None.
Definition no_dev_write : Z → option (nat → list Z → M fstate Z) := λ _, None.
Definition bye : list Z := [98; 121; 101].
Definition foo : list Z := [102; 111; 111].

Lemma bytes_ok l : forallb (λ x, (0 <=? x) && (x <? 256))%bool l = true → bytes l.
Proof.
  rewrite forallb_forall. intros Hb. apply Forall_forall. intros x Hx.
  apply list_elem_of_In, Hb in Hx. apply andb_prop in Hx as [? ?]. lia.
Qed.

Lemma iget_room m : iget_pure ROOTDEV m icache ≠ None.
Proof. unfold iget_pure. simpl. repeat case_match; done. Qed.

Lemma balloc_bfree_witness :
  tot (balloc 5 ROOTDEV) (λ a s1, 59 ≤ a < 1000 ∧ marked sb V a = false) state.
Proof.
  eapply tot_mono.
  - apply (balloc_bfree 5 G sb 1 V icache state 61);
      [apply layout_ok|apply state_fs; lia|apply meta_ok|change (sb_size sb) with 1000; lia|vm_compute; reflexivity].
  - intros a s1 (Ha & Hm & _). done.
Defined.

Lemma writei_spec_witness :
  tot (writei 5 no_dev_write 1 bye 2) (λ r _, r = 3) state.
Proof.
  eapply tot_mono.
  - apply (writei_spec 5 G sb no_dev_write 1 1 V icache state 1 file 2 bye);
      [apply layout_ok|apply state_fs; lia|apply meta_ok|done|apply file_is_ok|simpl; lia
      |apply bytes_ok; reflexivity|done|done|done|rewrite nfree_ok; lia].
  - intros r s1 [-> _]. done.
Defined.

(** Writing "bye" at offset 2 of "hello" makes the file "hebye". *)
Lemma file_write_read_witness :
  tot (writei 5 no_dev_write 1 bye 2;; j ← gets (inode_at 1); readi 5 no_dev_read 1 0 (isize j))
      (λ r _, r.2 = [104; 101; 98; 121; 101]) state.
Proof.
  eapply tot_mono.
  - apply (file_write_read 5 G sb no_dev_read no_dev_write 1 1 V icache state 1 file 2 bye);
      [apply layout_ok|apply state_fs; lia|apply meta_ok|done|apply file_is_ok|simpl; lia
      |apply bytes_ok; reflexivity|done|done|done|rewrite nfree_ok; lia].
  - intros r s1 Hr. rewrite Hr. vm_compute. reflexivity.
Defined.

Lemma file_write_crash_safe_witness :
  ∃ tr1 s1, writei 5 no_dev_write 1 bye 2 (Ctx [] []) state = Ret 3 (Ctx [] tr1) s1 ∧
    memdisk (bio (ls s1)) = SampleFs.disk.
Proof.
  destruct (file_write_crash_safe 5 G sb no_dev_write 1 1 V icache state [] 1 file 2 bye)
    as (tr1 & s1 & V' & i' & E & _ & Hd & _);
    [apply layout_ok|apply state_fs; lia|apply meta_ok|done|apply file_is_ok|simpl; lia
    |apply bytes_ok; reflexivity|done|done|done|rewrite nfree_ok; lia|done|vm_compute; reflexivity|done|done|done|].
  by exists tr1, s1.
Defined.

Lemma dirlink_dirlookup_witness :
  tot (r ← dirlink 5 no_dev_read no_dev_write 0 foo 2; x ← dirlookup 5 no_dev_read 0 foo; mret (r, x))
      (λ '(r, x) s', r = 0 ∧ ∃ ip off, x = Some (ip, off) ∧ Fs.inum (inode_at ip s') = 2) state.
Proof.
  eapply tot_mono.
  - apply (dirlink_dirlookup 5 G sb no_dev_read no_dev_write 1 V icache state 0 root foo 2 foo);
      [apply layout_ok|apply state_fs; lia|apply meta_ok|done|apply root_is_dir|apply bytes_ok; reflexivity
      |apply bytes_ok; reflexivity|lia|done|rewrite nfree_ok; lia|apply iget_room|].
    assert (dir_lookup (entries V root) foo = None) as -> by (vm_compute; reflexivity). done.
  - intros [r x] s1. assert (dir_lookup (entries V root) foo = None) as -> by (vm_compute; reflexivity).
    rewrite decide_True by done. done.
Defined.
End SampleClaims.
