(* ===== verification/Mkfs.v ===== *)
(** * The disk image builder

    [mkfs.c]: the program of the host that writes the first image.  The image is
    the file it writes, as sectors; a run that reports an error or fails an
    assertion gives [None].  Integers are stored with the low byte first, as
    [xint] and [xshort] make them whatever the host's order is. *)

From S2P Require Import Prelude Bytes Str Bio Log Fs FsBlocks Txn.

Definition NINODES : Z := 200.

Definition nbitmap : Z := FSSIZE / (Z.of_nat BSIZE * 8) + 1.
Definition ninodeblocks : Z := NINODES / IPB + 1.
Definition nlog : Z := LOGSIZE.
Definition nmeta : Z := 2 + nlog + ninodeblocks + nbitmap.
Definition nblocks : Z := FSSIZE - nmeta.

(** The value that is stored. *)
Definition xshort (x : Z) : Z := u16 x.
Definition xint (x : Z) : Z := u32 x.

(** [sb], as [main] sets it. *)
Definition sb : superblock :=
  SB (xint FSSIZE) (xint nblocks) (xint NINODES) (xint nlog) (xint 2) (xint (2 + nlog)) (xint (2 + nlog + ninodeblocks)).

(** The image file, of [nsect] sectors (what was never written reads as zeros), and
    the counters. *)
Record mkstate := Mk { img : Z → block; nsect : Z; freeinode : Z; freeblock : Z }.
Definition K (A : Type) : Type := mkstate → option (A * mkstate).
#[export] Instance K_ret : MRet K := λ A a s, Some (a, s).
#[export] Instance K_bind : MBind K := λ A B f m s, match m s with Some (a, s) => f a s | None => None end.
Definition abort {A} : K A := λ _, None.
Definition assert (b : bool) : K unit := if b then mret tt else abort.

Definition wsect (sec : Z) (buf : block) : K unit := λ s,
  Some (tt, Mk (upd (img s) sec buf) (Z.max (nsect s) (sec + 1)) (freeinode s) (freeblock s)).
Definition rsect (sec : Z) : K block := λ s, if sec <? nsect s then Some (img s sec, s) else None.

Definition winode (inum : Z) (ip : dinode) : K unit :=
  buf ← rsect (IBLOCK inum sb);
  wsect (IBLOCK inum sb) (put_dinode (dinode_off inum) ip buf).
Definition rinode (inum : Z) : K dinode :=
  buf ← rsect (IBLOCK inum sb);
  mret (get_dinode (dinode_off inum) buf).

Definition mk_ialloc (type : Z) : K Z := λ s,
  let inum := freeinode s in
  (winode inum (Dinode (xshort type) 0 0 (xshort 1) (xint 0) (replicate 13 0));; mret inum)
    (Mk (img s) (nsect s) (u32 (inum + 1)) (freeblock s)).

(** The loop of [balloc] that marks the first [used] blocks. *)
Definition used_bits (used : nat) : block := foldl (λ buf i, set_bit i buf) zero_block (seq 0 used).
Definition mk_balloc (used : Z) : K unit :=
  assert (used <? Z.of_nat BSIZE * 8);;
  wsect (sb_bmapstart sb) (used_bits (Z.to_nat used)).

(** [freeblock++] *)
Definition next_block : K Z := λ s,
  Some (freeblock s, Mk (img s) (nsect s) (freeinode s) (u32 (freeblock s + 1))).

Definition with_addr (k : nat) (a : Z) (din : dinode) : dinode :=
  Dinode (d_type din) (d_major din) (d_minor din) (d_nlink din) (d_size din) (<[k := a]> (d_addrs din)).
Definition with_size (sz : Z) (din : dinode) : dinode :=
  Dinode (d_type din) (d_major din) (d_minor din) (d_nlink din) sz (d_addrs din).

(** The address at [k] of the inode, with a new block when there is none. *)
Definition own_addr (k : nat) (din : dinode) : K dinode :=
  if nth k (d_addrs din) 0 =? 0 then (b ← next_block; mret (with_addr k (xint b) din)) else mret din.
(** The block of the file's bytes [fbn * BSIZE] and on. *)
Definition data_addr (fbn : Z) (din : dinode) : K (dinode * Z) :=
  if fbn <? Z.of_nat NDIRECT then
    din ← own_addr (Z.to_nat fbn) din;
    mret (din, nth (Z.to_nat fbn) (d_addrs din) 0)
  else
    din ← own_addr NDIRECT din;
    let ia := nth NDIRECT (d_addrs din) 0 in
    let k := (4 * Z.to_nat (fbn - Z.of_nat NDIRECT))%nat in
    indirect ← rsect ia;
    indirect ← (if get32 indirect k =? 0 then
      b ← next_block;
      let indirect := put32 k (xint b) indirect in
      wsect ia indirect;;
      mret indirect
    else mret indirect);
    mret (din, get32 indirect k).

(** The loop of [iappend]: [p] is what is left to append. *)
Fixpoint iappend_loop (fuel : nat) (din : dinode) (off : Z) (p : list Z) : K (dinode * Z) :=
  match p, fuel with
  | [], _ => mret (din, off)
  | _, O => abort
  | _, S fuel =>
      let fbn := off / Z.of_nat BSIZE in
      assert (fbn <? MAXFILE);;
      dx ← data_addr fbn din;
      let n1 := Z.min (Z.of_nat (length p)) ((fbn + 1) * Z.of_nat BSIZE - off) in
      buf ← rsect (snd dx);
      wsect (snd dx) (put_bytes (Z.to_nat (off - fbn * Z.of_nat BSIZE)) (take (Z.to_nat n1) p) buf);;
      iappend_loop fuel (fst dx) (off + n1) (drop (Z.to_nat n1) p)
  end.
Definition iappend (inum : Z) (p : list Z) : K unit :=
  din ← rinode inum;
  r ← iappend_loop (length p) din (d_size din) p;
  winode inum (with_size (xint (snd r)) (fst r)).

(** A file of the host: its name, and what the reads of it give ([None] when it
    cannot be opened). *)
Definition source : Type := list Z * option (list (list Z)).
(** Skip the leading [_]. *)
Definition stored_name (name : list Z) : list Z := match name with c :: l => if c =? 95 then l else name | [] => [] end.

Fixpoint append_all (inum : Z) (chunks : list (list Z)) : K unit :=
  match chunks with
  | [] => mret tt
  | c :: chunks => iappend inum c;; append_all inum chunks
  end.
(** One turn of [main]'s loop over its arguments. *)
Definition add_file (f : source) : K unit :=
  assert (negb (bool_decide (47 ∈ fst f)));;
  match snd f with
  | None => abort
  | Some chunks =>
      inum ← mk_ialloc T_FILE;
      iappend ROOTINO (dirent (xshort inum) (stored_name (fst f)));;
      append_all inum chunks
  end.
Fixpoint add_files (fs : list source) : K unit :=
  match fs with
  | [] => mret tt
  | f :: fs => add_file f;; add_files fs
  end.

Definition super_block : block :=
  put32 24 (sb_bmapstart sb) (put32 20 (sb_inodestart sb) (put32 16 (sb_logstart sb) (put32 12 (sb_nlog sb)
    (put32 8 (sb_ninodes sb) (put32 4 (sb_nblocks sb) (put32 0 (sb_size sb) zero_block)))))).
Fixpoint zero_sectors (l : list Z) : K unit :=
  match l with
  | [] => mret tt
  | i :: l => wsect i zero_block;; zero_sectors l
  end.
(** Make the size of the root directory whole blocks. *)
Definition fix_root : K unit :=
  din ← rinode ROOTINO;
  let off := (d_size din / Z.of_nat BSIZE + 1) * Z.of_nat BSIZE in
  winode ROOTINO (with_size (xint off) din).

(** [balloc(freeblock)] *)
Definition mark_used : K unit := λ s, mk_balloc (freeblock s) s.

Definition fresh_image : mkstate := Mk (λ _, zero_block) 0 1 nmeta.
(** [main] on its arguments after the image's name. *)
Definition mkfs_main (fs : list source) : K unit :=
  zero_sectors (seqZ 0 FSSIZE);;
  wsect 1 super_block;;
  rootino ← mk_ialloc T_DIR;
  assert (rootino =? ROOTINO);;
  iappend rootino (dirent (xshort rootino) [46]);;
  iappend rootino (dirent (xshort rootino) [46; 46]);;
  add_files fs;;
  fix_root;;
  mark_used.
Definition mkfs (fs : list source) : option mkstate := snd <$> mkfs_main fs fresh_image.
