(* ===== verification/MkfsSpec.v ===== *)
(** * The image that [mkfs] writes

    [mkfs] gives a file system in which the files are as on the host: the image
    satisfies what the theorems on the file system ask of a disk. *)

From S2P Require Import Prelude Locks Bytes Str Bio Log Txn Fs FsBlocks FsInode FsFile FsDir Mkfs.
From Stdlib Require Import FunctionalExtensionality.

Definition layout : Txn.layout := Layout 2 30 FSSIZE ∅ 0.
Lemma mk_layout_ok : fslayout layout sb.
Proof. split; vm_compute; done. Qed.
Lemma bmapstart_eq : sb_bmapstart sb = 58. Proof. reflexivity. Qed.
Lemma datastart_eq : datastart sb = 59. Proof. reflexivity. Qed.
Lemma size_eq : sb_size sb = 1000. Proof. reflexivity. Qed.

(** ** The bitmap *)

Lemma used_bits_S n : used_bits (S n) = set_bit n (used_bits n).
Proof. unfold used_bits. by rewrite seq_S, foldl_app. Qed.
Lemma used_bits_length n : length (used_bits n) = BSIZE.
Proof. induction n as [|n IH]; [done|]. by rewrite used_bits_S, length_set_bit. Qed.
Lemma zero_bytes : bytes zero_block.
Proof. apply Forall_replicate. lia. Qed.
Lemma used_bits_bytes n : bytes (used_bits n).
Proof. induction n as [|n IH]; [apply zero_bytes|]. rewrite used_bits_S. by apply bytes_put8. Qed.
Lemma used_bits_clear n k : (n ≤ 4096)%nat → (k < 4096)%nat → bit_clear (used_bits n) k = negb (k <? n)%nat.
Proof.
  intros Hn Hk. induction n as [|n IH].
  - unfold bit_clear, used_bits. cbn [seq foldl]. unfold get8, zero_block. rewrite nth_lookup.
    destruct (replicate BSIZE 0 !! (k / 8)%nat) as [z|] eqn:E; [|done]. by apply lookup_replicate in E as [-> _].
  - rewrite used_bits_S, bit_clear_set, IH; [|lia|rewrite used_bits_length; apply Nat.Div0.div_lt_upper_bound; unfold BSIZE; lia].
    destruct (decide (n = k)) as [->|Hne].
    + rewrite bool_decide_eq_true_2 by done. symmetry. apply negb_false_iff, Nat.ltb_lt. lia.
    + rewrite bool_decide_eq_false_2 by done. cbn [negb andb]. f_equal. apply Bool.eq_iff_eq_true. rewrite !Nat.ltb_lt. lia.
Qed.

(** ** The image as the file system will see it: with its bitmap *)

Definition cview (s : mkstate) : Z → block := upd (img s) 58 (used_bits (Z.to_nat (freeblock s))).

Record rep (s : mkstate) : Prop := {
  r_sect : nsect s = 1000;
  r_blk m : length (img s m) = BSIZE ∧ bytes (img s m);
  r_free : 59 ≤ freeblock s ≤ 1000;
  r_zero m : freeblock s ≤ m → img s m = zero_block }.

Section Rep.
Context (s : mkstate) (Hs : rep s).

Lemma cview_length m : length (cview s m) = BSIZE.
Proof. unfold cview, upd. destruct (decide (m = 58)); [apply used_bits_length|apply Hs]. Qed.
Lemma cview_bytes m : bytes (cview s m).
Proof. unfold cview, upd. destruct (decide (m = 58)); [apply used_bits_bytes|apply Hs]. Qed.
Lemma cview_marked b : 0 ≤ b < 1000 → marked sb (cview s) b = (b <? freeblock s).
Proof.
  intros Hb. unfold marked. rewrite bmapstart_eq. unfold BPB. rewrite (Z.div_small b), (Z.mod_small b) by lia.
  unfold cview. cbn [Z.add]. rewrite upd_eq. pose proof (r_free _ Hs). rewrite used_bits_clear by lia. rewrite negb_involutive.
  destruct (Nat.ltb_spec (Z.to_nat b) (Z.to_nat (freeblock s))), (Z.ltb_spec b (freeblock s)); lia || done.
Qed.
Lemma cview_meta : meta_marked sb (cview s).
Proof. intros b Hb. rewrite datastart_eq in Hb. rewrite cview_marked by lia. pose proof (r_free _ Hs). apply Z.ltb_lt. lia. Qed.
Lemma cview_data b : data_block sb (cview s) b ↔ 59 ≤ b < freeblock s.
Proof.
  pose proof (r_free _ Hs). unfold data_block. rewrite datastart_eq, size_eq. split.
  - intros [Hb Hm]. rewrite cview_marked in Hm by lia. apply Z.ltb_lt in Hm. lia.
  - intros Hb. split; [lia|]. rewrite cview_marked by lia. apply Z.ltb_lt. lia.
Qed.

Lemma rsect_ok x : x < 1000 → x ≠ 58 → rsect x s = Some (cview s x, s).
Proof.
  intros Hx Hne. unfold rsect. rewrite (r_sect _ Hs), (proj2 (Z.ltb_lt x 1000)) by done. unfold cview. by rewrite upd_ne.
Qed.
Lemma wsect_ok x buf :
  x < freeblock s → x ≠ 58 → length buf = BSIZE → bytes buf →
  ∃ s', wsect x buf s = Some (tt, s') ∧ rep s' ∧ cview s' = upd (cview s) x buf ∧
    freeblock s' = freeblock s ∧ freeinode s' = freeinode s.
Proof.
  intros Hx Hne Hl Hb. pose proof (r_free _ Hs) as Hf. eexists. split; [reflexivity|]. split_and!; try done.
  - split; cbn; [rewrite (r_sect _ Hs); lia| |done|].
    + intros m. unfold upd. destruct (decide (m = x)); [done|apply Hs].
    + intros m Hm. rewrite upd_ne by lia. by apply Hs.
  - apply functional_extensionality. intros m. unfold cview, upd. cbn. repeat case_decide; congruence.
Qed.
Lemma next_block_ok :
  freeblock s < 1000 →
  ∃ s', next_block s = Some (freeblock s, s') ∧ rep s' ∧ cview s' = alloc_view sb (cview s) (freeblock s) ∧
    freeblock s' = freeblock s + 1 ∧ freeinode s' = freeinode s.
Proof.
  intros Hlt. pose proof (r_free _ Hs) as Hf. eexists. split; [reflexivity|]. cbn. rewrite u32_small by lia. split_and!; try done.
  - split; cbn; [apply Hs|apply Hs|lia|]. intros m Hm. apply Hs. lia.
  - apply functional_extensionality. intros m. unfold cview, alloc_view. rewrite bmapstart_eq. unfold BPB. cbn [img freeblock].
    rewrite (Z.div_small (freeblock s)), (Z.mod_small (freeblock s)) by lia. cbn [Z.add]. rewrite upd_eq.
    replace (Z.to_nat (freeblock s + 1)) with (S (Z.to_nat (freeblock s))) by lia. rewrite used_bits_S.
    unfold upd. repeat case_decide; subst; try done; try lia. by apply Hs.
Qed.
End Rep.

(** ** One block of a file *)

(** The blocks that giving the file its block [bn] takes. *)
Definition cost (V : Z → block) (i : inode) (bn : Z) : Z :=
  if blk_addr V i bn =? 0 then (if (12 <=? bn) && (ind i =? 0) then 2 else 1) else 0.

Definition given (s : mkstate) (i : inode) (bn : Z) (r : option (dinode * Z * mkstate)) : Prop :=
  ∃ s' i', r = Some ((to_dinode i', blk_addr (cview s') i' bn), s') ∧ rep s' ∧
    freeblock s' = freeblock s + cost (cview s) i bn ∧ freeinode s' = freeinode s ∧
    (ind i' ≠ 0 ↔ ind i ≠ 0 ∨ 12 ≤ bn) ∧
    ((cview s' = cview s ∧ i' = i ∧ blk_addr (cview s) i bn ≠ 0) ∨
     (blk_addr (cview s) i bn = 0 ∧ grown sb (cview s) i bn (cview s') i')).

Lemma kbind_Some {A B} (m : K A) (f : A → K B) s a s' : m s = Some (a, s') → (m ≫= f) s = f a s'.
Proof. intros E. unfold mbind, K_bind. by rewrite E. Qed.

Lemma next_block_fresh s : rep s → freeblock s < 1000 →
  datastart sb ≤ freeblock s < sb_size sb ∧ marked sb (cview s) (freeblock s) = false.
Proof.
  intros Hs Hlt. pose proof (r_free _ Hs). rewrite datastart_eq, size_eq. split; [lia|]. rewrite cview_marked by (done || lia). apply Z.ltb_irrefl.
Qed.

Lemma direct_ok s i bn :
  rep s → file_ok sb (cview s) i → 0 ≤ bn < 12 → freeblock s + cost (cview s) i bn ≤ 1000 → given s i bn (data_addr bn (to_dinode i) s).
Proof.
  intros Hs Hok Hbn Hroom. pose proof (r_free _ Hs) as Hfree. unfold data_addr. change (Z.of_nat NDIRECT) with 12. rewrite (proj2 (Z.ltb_lt bn 12)) by lia.
  assert (∀ V j, blk_addr V j bn = nth (Z.to_nat bn) (addrs j) 0) as Hb.
  { intros V j. unfold blk_addr. change (Z.of_nat NDIRECT) with 12. by rewrite (proj2 (Z.ltb_lt bn 12)) by lia. }
  unfold own_addr. change (d_addrs (to_dinode i)) with (addrs i). rewrite <- (Hb (cview s) i). unfold given. unfold cost in *.
  destruct (Z.eqb_spec (blk_addr (cview s) i bn) 0) as [E0|E0].
  - rewrite (proj2 (Z.leb_gt 12 bn)) in * by lia. cbn [andb] in *.
    destruct (next_block_ok s Hs) as (s1 & E & Hs1 & HV & Hf & Hi); [lia|]. destruct (next_block_fresh s Hs) as [Hr Hm]; [lia|].
    rewrite size_eq in Hr. pose proof (grown_direct layout sb mk_layout_ok (cview s) i bn (freeblock s) (cview_length s Hs) (cview_meta s Hs) Hok Hbn E0 Hr Hm) as Hg.
    exists s1, (set_addr (Z.to_nat bn) (freeblock s) i). rewrite HV, (Hb _ (set_addr _ _ _)). split_and!; try done.
    + erewrite kbind_Some; [|erewrite kbind_Some; [|exact E]; reflexivity]. unfold xint. rewrite u32_small by lia. reflexivity.
    + assert (ind (set_addr (Z.to_nat bn) (freeblock s) i) = ind i) as ->; [|split; [auto|intros [?|?]; [done|lia]]].
      unfold ind, set_addr. cbn [addrs]. rewrite nth_set, decide_False; [done|unfold NDIRECT; lia|].
      pose proof (do_addrs _ (fo_dinode _ _ _ Hok)) as Hla. cbn in Hla. lia.
    + by right.
  - exists s, i. split_and!; [by rewrite Hb|done|lia|done|split; [auto|intros [?|?]; [done|lia]]|by left].
Qed.

(** The file with its indirect block, from [i] in [s]. *)
Definition with_indirect (s : mkstate) (i : inode) (s1 : mkstate) (i1 : inode) : Prop :=
  rep s1 ∧ file_ok sb (cview s1) i1 ∧ ind i1 ≠ 0 ∧
  freeblock s1 = freeblock s + (if ind i =? 0 then 1 else 0) ∧ freeinode s1 = freeinode s ∧
  ((s1 = s ∧ i1 = i) ∨
   (ind i = 0 ∧ freeblock s < 1000 ∧ i1 = set_addr NDIRECT (freeblock s) i ∧ cview s1 = alloc_view sb (cview s) (freeblock s))).

Lemma own_indirect_ok s i :
  rep s → file_ok sb (cview s) i → (ind i = 0 → freeblock s < 1000) →
  ∃ s1 i1, own_addr NDIRECT (to_dinode i) s = Some (to_dinode i1, s1) ∧ with_indirect s i s1 i1.
Proof.
  intros Hs Hok Hroom. pose proof (r_free _ Hs) as Hfree. unfold own_addr, with_indirect.
  change (d_addrs (to_dinode i)) with (addrs i). change (nth NDIRECT (addrs i) 0) with (ind i).
  destruct (Z.eqb_spec (ind i) 0) as [E0|E0]; [|exists s, i; split_and!; auto; lia].
  destruct (next_block_ok s Hs) as (s1 & E & Hs1 & HV & Hf & Hi); [auto|]. destruct (next_block_fresh s Hs) as [Hr Hm]; [auto|].
  destruct (add_indirect layout sb mk_layout_ok (cview s) i (freeblock s) (cview_length s Hs) Hok E0 Hr Hm) as (Hia & Hoka & Hba).
  exists s1, (set_addr NDIRECT (freeblock s) i). rewrite HV. split_and!; auto; try lia.
  erewrite kbind_Some; [|exact E]. unfold xint. rewrite u32_small by lia. reflexivity.
Qed.
Lemma with_indirect_addr s i s1 i1 bn : rep s → file_ok sb (cview s) i → with_indirect s i s1 i1 → blk_addr (cview s1) i1 bn = blk_addr (cview s) i bn.
Proof.
  intros Hs Hok (_ & _ & _ & _ & _ & [[-> ->]|(E0 & Hlt & -> & ->)]); [done|]. destruct (next_block_fresh s Hs Hlt) as [Hr Hm].
  apply (add_indirect layout sb mk_layout_ok (cview s) i (freeblock s) (cview_length s Hs) Hok E0 Hr Hm).
Qed.
Lemma with_indirect_grown s i s1 i1 bn V' i' : rep s → file_ok sb (cview s) i → with_indirect s i s1 i1 → 0 ≤ bn < MAXFILE →
  grown sb (cview s1) i1 bn V' i' → grown sb (cview s) i bn V' i'.
Proof.
  intros Hs Hok (_ & _ & _ & _ & _ & [[-> ->]|(E0 & Hlt & -> & ->)]) Hbn Hg; [done|]. destruct (next_block_fresh s Hs Hlt) as [Hr Hm].
  by apply (grown_after_indirect layout sb mk_layout_ok (cview s) i (freeblock s) bn V' i' (cview_length s Hs) Hok E0 Hr Hm).
Qed.

(** The entry of the indirect block. *)
Lemma entry_ok s i bn :
  rep s → file_ok sb (cview s) i → ind i ≠ 0 → 12 ≤ bn < MAXFILE → blk_addr (cview s) i bn = 0 → freeblock s < 1000 →
  let k := (4 * Z.to_nat (bn - 12))%nat in let d := put32 k (xint (freeblock s)) (cview s (ind i)) in
  ∃ s', (b ← next_block; wsect (ind i) (put32 k (xint b) (cview s (ind i)));; mret (put32 k (xint b) (cview s (ind i)))) s = Some (d, s') ∧
    rep s' ∧ cview s' (ind i) = d ∧ freeblock s' = freeblock s + 1 ∧ freeinode s' = freeinode s ∧ grown sb (cview s) i bn (cview s') i.
Proof.
  intros Hs Hok Hi Hbn H0 Hlt k d. pose proof (r_free _ Hs) as Hfree.
  destruct (next_block_ok s Hs Hlt) as (s1 & E & Hs1 & HV & Hf & Hn). destruct (next_block_fresh s Hs Hlt) as [Hr Hm].
  pose proof (proj1 (cview_data s Hs _) (fo_ind _ _ _ Hok Hi)) as Hind.
  assert (length d = BSIZE ∧ bytes d) as [Hdl Hdb].
  { unfold d. split; [rewrite length_put32; by apply cview_length|]. by repeat apply bytes_put8; apply cview_bytes. }
  destruct (wsect_ok s1 Hs1 (ind i) d) as (s2 & E2 & Hs2 & HV2 & Hf2 & Hn2); [lia|lia|done|done|].
  exists s2. split_and!; try done; try lia.
  - erewrite kbind_Some; [|exact E]. erewrite kbind_Some; [|exact E2]. done.
  - rewrite HV2. apply upd_eq.
  - rewrite HV2, HV. unfold d, k, xint. rewrite u32_small by lia.
    by apply (grown_indirect layout sb mk_layout_ok (cview s) i bn (freeblock s) (cview_length s Hs) (cview_meta s Hs) Hok Hbn Hi H0 Hr Hm).
Qed.

Lemma indirect_ok s i bn :
  rep s → file_ok sb (cview s) i → 12 ≤ bn < MAXFILE → freeblock s + cost (cview s) i bn ≤ 1000 → given s i bn (data_addr bn (to_dinode i) s).
Proof.
  intros Hs Hok Hbn Hroom. pose proof (r_free _ Hs) as Hfree. unfold data_addr. change (Z.of_nat NDIRECT) with 12.
  rewrite (proj2 (Z.ltb_ge bn 12)) by lia.
  assert (∀ V j, ind j ≠ 0 → blk_addr V j bn = get32 (V (ind j)) (4 * Z.to_nat (bn - 12))) as Hb.
  { intros V j Hj. unfold blk_addr. change (Z.of_nat NDIRECT) with 12. rewrite (proj2 (Z.ltb_ge bn 12)) by lia. by rewrite (proj2 (Z.eqb_neq (ind j) 0)). }
  assert (ind i = 0 → blk_addr (cview s) i bn = 0) as Hnone.
  { intros E0. unfold blk_addr. change (Z.of_nat NDIRECT) with 12. by rewrite (proj2 (Z.ltb_ge bn 12)), E0 by lia. }
  assert (cost (cview s) i bn = (if ind i =? 0 then 1 else 0) + (if blk_addr (cview s) i bn =? 0 then 1 else 0)) as Hc.
  { unfold cost. rewrite (proj2 (Z.leb_le 12 bn)) by lia. cbn [andb]. destruct (Z.eqb_spec (ind i) 0) as [E|E].
    - by rewrite (Hnone E).
    - by destruct (_ =? 0). }
  destruct (own_indirect_ok s i Hs Hok) as (s1 & i1 & E1 & Hw).
  { intros E0. rewrite Hc, E0, (Hnone E0) in Hroom. cbn in Hroom. lia. }
  pose proof (with_indirect_addr s i s1 i1 bn Hs Hok Hw) as Hadr. pose proof Hw as (Hs1 & Hok1 & Hi1 & Hf1 & Hn1 & Hcase).
  pose proof (r_free _ Hs1). pose proof (proj1 (cview_data s1 Hs1 _) (fo_ind _ _ _ Hok1 Hi1)) as Hind.
  assert (blk_addr (cview s) i bn = 0 → freeblock s1 < 1000) as Hlt by (intros E0; rewrite Hc, E0 in Hroom; cbn in Hroom; lia).
  erewrite kbind_Some; [|exact E1]. cbv zeta. change (nth NDIRECT (d_addrs (to_dinode i1)) 0) with (ind i1).
  erewrite kbind_Some; [|apply rsect_ok; [done|lia|lia]]. rewrite <- (Hb (cview s1) i1 Hi1), Hadr. unfold given. rewrite Hc.
  destruct (Z.eqb_spec (blk_addr (cview s) i bn) 0) as [E0|E0].
  - destruct (entry_ok s1 i1 bn Hs1 Hok1 Hi1 Hbn) as (s2 & E2 & Hs2 & Hd & Hf2 & Hn2 & Hg); [congruence|auto|].
    exists s2, i1. erewrite kbind_Some; [|exact E2]. rewrite <- Hd, <- (Hb (cview s2) i1 Hi1). split_and!; try done; try lia.
    right. split; [done|]. eapply with_indirect_grown; [done..|lia|done].
  - destruct Hcase as [[-> ->]|(Hi0 & _)]; [|by apply Hnone in Hi0]. exists s, i. erewrite kbind_Some; [|reflexivity]. rewrite <- (Hb (cview s) i Hi1).
    split_and!; try done; [|by split; [left|]|by left]. rewrite (proj2 (Z.eqb_neq (ind i) 0)) by done. lia.
Qed.

Lemma data_addr_ok s i bn :
  rep s → file_ok sb (cview s) i → 0 ≤ bn < MAXFILE → freeblock s + cost (cview s) i bn ≤ 1000 → given s i bn (data_addr bn (to_dinode i) s).
Proof. intros Hs Hok Hbn Hr. destruct (decide (bn < 12)); [apply direct_ok|apply indirect_ok]; done || lia. Qed.

(** ** Appending *)

(** The file's blocks are those of its first [off] bytes, and what follows these in
    the last block is zero. *)
Definition full (V : Z → block) (i : inode) (off : Z) : Prop :=
  (∀ bn, 0 ≤ bn < MAXFILE → blk_addr V i bn ≠ 0 ↔ bn * 512 < off) ∧ (ind i ≠ 0 ↔ 6144 < off).
Definition blank (V : Z → block) (i : inode) (off : Z) : Prop :=
  ∀ k, off ≤ k → k / 512 * 512 < off → file_byte V i k = 0.
(** The blocks that a file of [n] bytes takes. *)
Definition need (n : Z) : Z := (n + 511) / 512 + (if 6144 <? n then 1 else 0).

Lemma cost_need V i off n :
  full V i off → 0 ≤ off → 0 < n → off mod 512 + n ≤ 512 → off / 512 < MAXFILE → cost V i (off / 512) = need (off + n) - need off.
Proof.
  intros [Hf Hi] Ho Hn Hm Hx. unfold cost. specialize (Hf (off / 512)). unfold need.
  assert (0 ≤ off / 512) by (apply Z.div_pos; lia). specialize (Hf ltac:(lia)).
  destruct (Z.eqb_spec (blk_addr V i (off / 512)) 0) as [E|E].
  - assert (off mod 512 = 0) by (Z.to_euclidean_division_equations; lia).
    destruct (Z.leb_spec 12 (off / 512)); cbn [andb].
    + destruct (Z.eqb_spec (ind i) 0) as [E'|E'].
      * assert (off = 6144) as -> by (Z.to_euclidean_division_equations; lia).
        rewrite (proj2 (Z.ltb_lt 6144 (6144 + n))), (proj2 (Z.ltb_ge 6144 6144)) by lia. Z.to_euclidean_division_equations; lia.
      * apply Hi in E'. rewrite !(proj2 (Z.ltb_lt 6144 _)) by lia. Z.to_euclidean_division_equations; lia.
    + rewrite !(proj2 (Z.ltb_ge 6144 _)) by (Z.to_euclidean_division_equations; lia). Z.to_euclidean_division_equations; lia.
  - apply Hf in E. destruct (Z.ltb_spec 6144 (off + n)), (Z.ltb_spec 6144 off); Z.to_euclidean_division_equations; lia.
Qed.

(** The file after a chunk has gone to its block [bn]. *)
Section Chunk.
Context (V : Z → block) (i : inode) (off : Z) (c : list Z) (V1 : Z → block) (i1 : inode).
Let bn := off / 512.
Let a := blk_addr V1 i1 bn.
Let V2 := upd V1 a (put_bytes (Z.to_nat (off mod 512)) c (V1 a)).
Context (Hlen : ∀ m, length (V1 m) = BSIZE) (Hok1 : file_ok sb V1 i1) (Ha : a ≠ 0).
Context (Hind : ind i1 ≠ 0 ↔ ind i ≠ 0 ∨ 12 ≤ bn).
Context (Hcase : (V1 = V ∧ i1 = i ∧ blk_addr V i bn ≠ 0) ∨ (blk_addr V i bn = 0 ∧ grown sb V i bn V1 i1)).
Context (Ho : 0 ≤ off) (Hbn : bn < MAXFILE) (Hc0 : 0 < Z.of_nat (length c)) (Hc : off mod 512 + Z.of_nat (length c) ≤ 512).
Context (Hfull : full V i off) (Hblank : blank V i off).

Lemma chunk_addr bn' : blk_addr V2 i1 bn' = blk_addr V1 i1 bn'.
Proof.
  apply blk_addr_upd. assert (0 ≤ bn) by (apply Z.div_pos; lia). by destruct (fo_blk _ _ _ Hok1 bn ltac:(lia) Ha).
Qed.
Lemma chunk_full : full V2 i1 (off + Z.of_nat (length c)).
Proof.
  destruct Hfull as [Hf Hi]. assert (0 ≤ bn) as Hb0 by (apply Z.div_pos; lia).
  assert (∀ bn', 0 ≤ bn' < MAXFILE → bn' ≠ bn → blk_addr V1 i1 bn' = blk_addr V i bn') as Hsame.
  { intros bn' Hr Hne. destruct Hcase as [(-> & -> & _)|[_ Hg]]; [done|]. by apply (gr_same _ _ _ _ _ _ Hg). }
  split.
  - intros bn' Hr. rewrite chunk_addr. destruct (decide (bn' = bn)) as [->|Hne].
    + unfold a in Ha. split; [|done]. unfold bn. Z.to_euclidean_division_equations; lia.
    + rewrite Hsame by done. rewrite Hf by done. unfold bn in Hne. clear - Hc0 Hc Hne Ho. Z.to_euclidean_division_equations; lia.
  - rewrite Hind, Hi. unfold bn. clear - Hc0 Hc Ho. Z.to_euclidean_division_equations; lia.
Qed.
Lemma chunk_blank : blank V2 i1 (off + Z.of_nat (length c)).
Proof.
  intros k Hk Hlt. assert (k / 512 = bn) as Hkb by (unfold bn; clear - Hk Hlt Ho Hc; Z.to_euclidean_division_equations; lia).
  assert (off mod 512 + Z.of_nat (length c) ≤ k mod 512 < 512) as Hkm by (unfold bn in Hkb; clear - Hk Hkb Ho; Z.to_euclidean_division_equations; lia).
  unfold file_byte. change (Z.of_nat BSIZE) with 512. rewrite Hkb, chunk_addr. fold a. unfold V2. rewrite upd_eq.
  pose proof (Z.mod_pos_bound off 512 ltac:(lia)) as Hom. rewrite nth_put_bytes by (rewrite Hlen; unfold BSIZE; lia). rewrite decide_False by lia.
  destruct Hcase as [(HV & Hi1 & Hne)|[_ Hg]].
  - specialize (Hblank k ltac:(lia)). unfold file_byte in Hblank. change (Z.of_nat BSIZE) with 512 in Hblank. rewrite Hkb in Hblank.
    unfold a. rewrite HV, Hi1. apply Hblank. apply Hfull; [|done]. split; [apply Z.div_pos; lia|done].
  - unfold a. rewrite (gr_zero _ _ _ _ _ _ Hg). unfold zero_block. rewrite nth_lookup.
    destruct (replicate BSIZE 0 !! _) as [z|] eqn:E; [|done]. by apply lookup_replicate in E as [-> _].
Qed.
End Chunk.

(** What the loop of [iappend] has done after it has stored [p] at [off]. *)
Definition appended (s : mkstate) (i : inode) (off : Z) (p : list Z) (s' : mkstate) (i' : inode) : Prop :=
  rep s' ∧ written sb (cview s) i off p (cview s') i' ∧ freeinode s' = freeinode s ∧
  freeblock s' = freeblock s + (need (off + Z.of_nat (length p)) - need off) ∧
  full (cview s') i' (off + Z.of_nat (length p)) ∧ blank (cview s') i' (off + Z.of_nat (length p)).

(** One round. *)
Lemma round_ok s i off c :
  rep s → file_ok sb (cview s) i → isize i ≤ off → full (cview s) i off → blank (cview s) i off →
  0 ≤ off → off / 512 < MAXFILE → c ≠ [] → bytes c → off mod 512 + Z.of_nat (length c) ≤ 512 →
  freeblock s + (need (off + Z.of_nat (length c)) - need off) ≤ 1000 →
  ∃ s1 i1 x s2, data_addr (off / 512) (to_dinode i) s = Some ((to_dinode i1, x), s1) ∧ rsect x s1 = Some (cview s1 x, s1) ∧
    wsect x (put_bytes (Z.to_nat (off mod 512)) c (cview s1 x)) s1 = Some (tt, s2) ∧ appended s i off c s2 i1.
Proof.
  intros Hs Hok Hsz Hfull Hblank Ho Hbn Hne Hb Hc Hroom.
  assert (0 < Z.of_nat (length c)) as Hc0 by (destruct c; [done|simpl; lia]). assert (0 ≤ off / 512) as Hb0 by (apply Z.div_pos; lia).
  rewrite <- (cost_need (cview s) i) in Hroom by done. destruct (data_addr_ok s i (off / 512) Hs Hok) as (s1 & i1 & E & Hs1 & Hf & Hn & Hind & Hcase); [lia|done|].
  assert (file_ok sb (cview s1) i1 ∧ blk_addr (cview s1) i1 (off / 512) ≠ 0) as [Hok1 Ha].
  { destruct Hcase as [(-> & -> & ?)|[_ Hg]]; [done|]. split; [apply Hg|apply (gr_addr _ _ _ _ _ _ Hg)]. }
  destruct (fo_blk _ _ _ Hok1 (off / 512) ltac:(lia) Ha) as [Hd Hai]. apply (cview_data s1 Hs1) in Hd. pose proof (r_free _ Hs1).
  pose proof (Z.mod_pos_bound off 512 ltac:(lia)) as Hom. set (x := blk_addr (cview s1) i1 (off / 512)) in *.
  assert (Z.to_nat (off mod 512) + length c ≤ length (cview s1 x))%nat as Hfit by (rewrite cview_length by done; unfold BSIZE; lia).
  destruct (wsect_ok s1 Hs1 x (put_bytes (Z.to_nat (off mod 512)) c (cview s1 x))) as (s2 & E2 & Hs2 & HV2 & Hf2 & Hn2); [lia|lia| | |].
  { rewrite length_put_bytes by done. by apply cview_length. }
  { apply bytes_put_bytes; [done|by apply cview_bytes]. }
  exists s1, i1, x, s2. split; [done|]. split; [apply rsect_ok; done || lia|]. split; [done|]. unfold appended. rewrite HV2, Hn2, Hf2, Hn, Hf.
  split_and!; try done.
  - apply (written_chunk layout sb mk_layout_ok (cview s) i (off / 512) (cview s1) i1 off c (cview_length s1 Hs1) Hok (cview_meta s Hs)); try done.
    + destruct Hcase as [?|[H0 Hg]]; [by left|right]. split_and!; try done. destruct Hfull as [Hfu _].
      specialize (Hfu (off / 512) ltac:(lia)). clear - Hfu H0 Hsz. lia.
    + unfold MAXFILE in *. clear - Ho Hbn. Z.to_euclidean_division_equations; lia.
  - by rewrite (cost_need _ _ off (Z.of_nat (length c))).
  - by apply (chunk_full (cview s) i off c (cview s1) i1 (cview_length s1 Hs1)).
  - by apply (chunk_blank (cview s) i off c (cview s1) i1 (cview_length s1 Hs1)).
Qed.

Lemma need_mono m n : m ≤ n → need m ≤ need n.
Proof.
  intros Hmn. unfold need. assert ((m + 511) / 512 ≤ (n + 511) / 512) by (apply Z.div_le_mono; lia).
  destruct (Z.ltb_spec 6144 m), (Z.ltb_spec 6144 n); lia.
Qed.
Lemma iappend_loop_eq fuel din off p : p ≠ [] → iappend_loop (S fuel) din off p =
  (let fbn := off / 512 in
   assert (fbn <? MAXFILE);;
   dx ← data_addr fbn din;
   let n1 := Z.min (Z.of_nat (length p)) ((fbn + 1) * 512 - off) in
   buf ← rsect (snd dx);
   wsect (snd dx) (put_bytes (Z.to_nat (off - fbn * 512)) (take (Z.to_nat n1) p) buf);;
   iappend_loop fuel (fst dx) (off + n1) (drop (Z.to_nat n1) p)).
Proof. by destruct p. Qed.
Lemma appended_nil s i off : rep s → file_ok sb (cview s) i → full (cview s) i off → blank (cview s) i off → appended s i off [] s i.
Proof.
  intros Hs Hok Hf Hb. unfold appended. cbn [length]. rewrite Z.add_0_r, Z.sub_diag, Z.add_0_r.
  split_and!; try done. by apply written_nil, cview_meta.
Qed.
Lemma appended_app s i off c s1 i1 r s2 i2 :
  0 ≤ off → off + Z.of_nat (length (c ++ r)) ≤ MAXFILE * 512 →
  appended s i off c s1 i1 → appended s1 i1 (off + Z.of_nat (length c)) r s2 i2 → appended s i off (c ++ r) s2 i2.
Proof.
  intros Ho Hm (A1 & A2 & A3 & A4 & A5 & A6) (B1 & B2 & B3 & B4 & B5 & B6). unfold appended.
  replace (off + Z.of_nat (length (c ++ r))) with (off + Z.of_nat (length c) + Z.of_nat (length r)) by (rewrite length_app; lia).
  split_and!; try done; [|congruence|lia]. by apply (written_app layout sb mk_layout_ok (cview s) i off c (cview s1) i1 r (cview s2) i2).
Qed.

Lemma iappend_loop_ok fuel : ∀ s i off p,
  (length p ≤ fuel)%nat → rep s → file_ok sb (cview s) i → isize i ≤ off → full (cview s) i off → blank (cview s) i off →
  0 ≤ off → bytes p → off + Z.of_nat (length p) ≤ MAXFILE * 512 →
  freeblock s + (need (off + Z.of_nat (length p)) - need off) ≤ 1000 →
  ∃ s' i', iappend_loop fuel (to_dinode i) off p s = Some ((to_dinode i', off + Z.of_nat (length p)), s') ∧ appended s i off p s' i'.
Proof.
  induction fuel as [|fuel IH]; intros s i off q Hf Hs Hok Hsz Hfull Hblank Ho Hb Hmax Hroom;
    (destruct (decide (q = [])) as [->|Hne]; [exists s, i; rewrite Z.add_0_r; split; [by try destruct fuel|by apply appended_nil]|]).
  { destruct q; [done|simpl in Hf; lia]. }
  set (n1 := Z.min (Z.of_nat (length q)) ((off / 512 + 1) * 512 - off)).
  assert (0 < Z.of_nat (length q)) as Hq by (destruct q; [done|cbn [length]; lia]).
  assert (0 < n1 ≤ Z.of_nat (length q) ∧ off mod 512 + n1 ≤ 512) as [Hn1 Hm1] by (unfold n1; clear - Hq Ho; Z.to_euclidean_division_equations; lia).
  assert (off / 512 < MAXFILE) as Hbn by (unfold MAXFILE in *; clear - Hmax Hq Ho; Z.to_euclidean_division_equations; lia).
  pose proof (take_drop (Z.to_nat n1) q) as Hcr. assert (bytes (take (Z.to_nat n1) q) ∧ bytes (drop (Z.to_nat n1) q)) as [Hbc Hbr]
    by (rewrite <- Hcr in Hb; by apply Forall_app in Hb).
  assert (length (take (Z.to_nat n1) q) = Z.to_nat n1) as Hlc by (rewrite length_take; lia).
  pose proof (length_drop q (Z.to_nat n1)) as Hlr. pose proof (need_mono (off + n1) (off + Z.of_nat (length q)) ltac:(lia)) as Hnm.
  rewrite iappend_loop_eq by done. cbv zeta. fold n1. replace (off - off / 512 * 512) with (off mod 512) by (rewrite Zmod_eq; lia).
  revert Hcr Hbc Hbr Hlc Hlr. generalize (take (Z.to_nat n1) q), (drop (Z.to_nat n1) q). intros c r Hcr Hbc Hbr Hlc Hlr.
  destruct (round_ok s i off c) as (s1 & i1 & x & s2 & E1 & E2 & E3 & Happ); try done; [destruct c; [simpl in Hlc; lia|done]|rewrite Hlc; lia|rewrite Hlc, Z2Nat.id by lia; lia|].
  pose proof Happ as (Hs2 & Hw & Hn2 & Hf2 & Hfull2 & Hblank2). replace (Z.of_nat (length c)) with n1 in * by lia.
  destruct (IH s2 i1 (off + n1) r) as (s3 & i3 & E & Happ3); try done; [lia|apply Hw| |lia|lia| |].
  { rewrite (w_inode _ _ _ _ _ _ _ Hw). simpl. lia. }
  { replace (off + n1 + Z.of_nat (length r)) with (off + Z.of_nat (length q)) by lia. lia. }
  exists s3, i3. replace (off + Z.of_nat (length q)) with (off + n1 + Z.of_nat (length r)) by lia.
  rewrite (proj2 (Z.ltb_lt _ _) Hbn). erewrite kbind_Some; [|reflexivity]. erewrite kbind_Some; [|exact E1]. cbn [fst snd].
  erewrite kbind_Some; [|exact E2]. erewrite kbind_Some; [|exact E3]. split; [exact E|]. rewrite <- Hcr.
  apply (appended_app s i off c s2 i1 r); [done|rewrite Hcr; lia|done|]. by replace (Z.of_nat (length c)) with n1 by lia.
Qed.

(** ** The files of an image *)

Definition ino (V : Z → block) (n : Z) : inode :=
  from_dinode (disk_inode sb V n) (Inode ROOTDEV n 0 (Sleeplock.SL 0 0) 0 0 0 0 0 0 []).
Lemma ino_dinode V n : to_dinode (ino V n) = disk_inode sb V n.
Proof. unfold ino. by destruct (disk_inode sb V n). Qed.

(** Inode [n] is a file of type [ty] with the contents [d]. *)
Record holds (V : Z → block) (n ty : Z) (d : list Z) : Prop := {
  h_ok : file_ok sb V (ino V n);
  h_type : itype (ino V n) = ty;
  h_nlink : nlink (ino V n) = 1;
  h_data : file_data V (ino V n) = d;
  h_full : full V (ino V n) (isize (ino V n));
  h_blank : blank V (ino V n) (isize (ino V n)) }.
(** Block [b] is part of the file. *)
Definition owns (V : Z → block) (i : inode) (b : Z) : Prop :=
  b ≠ 0 ∧ (b = ind i ∨ ∃ bn, 0 ≤ bn < MAXFILE ∧ blk_addr V i bn = b).

Lemma owns_data V i b : file_ok sb V i → owns V i b → data_block sb V b.
Proof. intros Hok (Hb & [->|(bn & Hr & <-)]); [by apply Hok|by apply (fo_blk _ _ _ Hok bn)]. Qed.

(** Files keep what they are when their blocks and their inode do. *)
Section Kept.
Context (V V' : Z → block) (n : Z) (Hino : disk_inode sb V' n = disk_inode sb V n).
Context (Hblk : ∀ b, owns V (ino V n) b → V' b = V b) (Hdata : ∀ b, data_block sb V b → data_block sb V' b).

Lemma kept_ino : ino V' n = ino V n.
Proof. unfold ino. by rewrite Hino. Qed.
Lemma kept_addr bn : blk_addr V' (ino V n) bn = blk_addr V (ino V n) bn.
Proof.
  unfold blk_addr. destruct (bn <? _); [done|]. destruct (Z.eqb_spec (ind (ino V n)) 0); [done|]. rewrite Hblk; [done|]. split; [done|by left].
Qed.
Lemma kept_owns b : owns V' (ino V' n) b ↔ owns V (ino V n) b.
Proof. unfold owns. rewrite kept_ino. by setoid_rewrite kept_addr. Qed.
Lemma kept_byte k : 0 ≤ k / 512 < MAXFILE → blk_addr V (ino V n) (k / 512) ≠ 0 → file_byte V' (ino V n) k = file_byte V (ino V n) k.
Proof.
  intros Hk Hne. unfold file_byte. change (Z.of_nat BSIZE) with 512. rewrite kept_addr, Hblk; [done|]. split; [done|]. right. eauto.
Qed.
Lemma kept_holds ty d : holds V n ty d → holds V' n ty d.
Proof.
  intros [Hok Ht Hl Hd [Hf1 Hf2] Hbl]. pose proof (fo_size _ _ _ Hok) as Hsz. unfold MAXFILE in Hsz. change (Z.of_nat BSIZE) with 512 in Hsz.
  split; rewrite ?kept_ino; try done.
  - destruct Hok. split; try done; intros *; rewrite ?kept_addr; eauto. intros Hr Hne. destruct (fo_blk bn Hr Hne). auto.
  - rewrite <- Hd. unfold file_data, file_bytes. apply map_ext_in. intros j Hj. apply in_seq in Hj.
    assert (0 ≤ (0 + Z.of_nat j) / 512 < MAXFILE) as Hr by (unfold MAXFILE; Z.to_euclidean_division_equations; lia).
    apply kept_byte; [done|]. apply Hf1; [done|]. Z.to_euclidean_division_equations; lia.
  - split; [|done]. intros bn Hr. rewrite kept_addr. by apply Hf1.
  - intros k Hk Hlt. assert (0 ≤ k / 512 < MAXFILE) as Hr by (unfold MAXFILE; Z.to_euclidean_division_equations; lia).
    rewrite kept_byte; [by apply Hbl|done|]. by apply Hf1.
Qed.
End Kept.

(** ** Inodes on the image *)

Lemma iblk_low n : 0 ≤ n < 200 → 32 ≤ iblk sb n < 58.
Proof. intros Hn. unfold iblk, IPB. change (sb_inodestart sb) with 32. Z.to_euclidean_division_equations; lia. Qed.
Lemma IBLOCK_sb n : 0 ≤ n < 200 → IBLOCK n sb = iblk sb n.
Proof. intros Hn. by apply (IBLOCK_eq layout sb mk_layout_ok). Qed.
Lemma rinode_ok s n : rep s → 0 ≤ n < 200 → rinode n s = Some (disk_inode sb (cview s) n, s).
Proof.
  intros Hs Hn. unfold rinode. rewrite IBLOCK_sb by done. pose proof (iblk_low n Hn). by rewrite (kbind_Some _ _ _ _ _ (rsect_ok s Hs (iblk sb n) ltac:(lia) ltac:(lia))).
Qed.
Lemma winode_ok s n d :
  rep s → 0 ≤ n < 200 →
  ∃ s', winode n d s = Some (tt, s') ∧ rep s' ∧ cview s' = inode_view sb (cview s) n d ∧ freeblock s' = freeblock s ∧ freeinode s' = freeinode s.
Proof.
  intros Hs Hn. pose proof (iblk_low n Hn) as Hb. pose proof (r_free _ Hs).
  destruct (wsect_ok s Hs (iblk sb n) (put_dinode (dinode_off n) d (cview s (iblk sb n)))) as (s' & E & H'); [lia|lia| | |].
  - rewrite length_put_dinode. by apply cview_length.
  - apply bytes_put_dinode. by apply cview_bytes.
  - exists s'. split; [|exact H']. unfold winode. rewrite IBLOCK_sb by done.
    by rewrite (kbind_Some _ _ _ _ _ (rsect_ok s Hs (iblk sb n) ltac:(lia) ltac:(lia))).
Qed.

(** Writing an inode changes no file's blocks. *)
Lemma inode_view_full V n i x off : file_ok sb V i → 0 ≤ n < 200 → full V i off → full (inode_view sb V n x) i off.
Proof.
  intros Hok Hn [H1 H2]. pose proof (iblk_low n Hn). split; [|done]. intros bn Hr. unfold inode_view.
  rewrite (blk_addr_low layout sb mk_layout_ok) by (done || (rewrite bmapstart_eq; lia)). by apply H1.
Qed.
Lemma inode_view_blank V n i x off :
  file_ok sb V i → 0 ≤ n < 200 → full V i off → 0 ≤ off ≤ MAXFILE * 512 → blank V i off → blank (inode_view sb V n x) i off.
Proof.
  intros Hok Hn [H1 _] Ho Hb k Hk Hlt. pose proof (iblk_low n Hn). unfold MAXFILE in *.
  assert (0 ≤ k < 140 * 512 ∧ 0 ≤ k / 512 < 140) as [Hk1 Hk2] by (clear - Hk Hlt Ho; Z.to_euclidean_division_equations; lia).
  unfold inode_view. rewrite (file_byte_low layout sb mk_layout_ok) by (done || (rewrite bmapstart_eq; lia) || by apply H1). by apply Hb.
Qed.

(** The state after [iappend] to inode [n]. *)
Definition more (s : mkstate) (n : Z) (s' : mkstate) : Prop :=
  let V := cview s in let V' := cview s' in
  (∀ b, owns V' (ino V' n) b → owns V (ino V n) b ∨ marked sb V b = false) ∧
  (∀ m, 0 ≤ m < 200 → m ≠ n → disk_inode sb V' m = disk_inode sb V m) ∧
  (∀ b, data_block sb V b → ¬ owns V (ino V n) b → V' b = V b) ∧
  (∀ b, data_block sb V b → data_block sb V' b) ∧ V' 1 = V 1 ∧ freeinode s' = freeinode s.

Lemma more_ok s n p s1 i1 s2 :
  let V := cview s in let i := ino V n in let i2 := set_isize (isize i + Z.of_nat (length p)) i1 in
  rep s → 0 ≤ n < 200 → file_ok sb V i → appended s i (isize i) p s1 i1 → rep s2 → freeinode s2 = freeinode s1 →
  cview s2 = inode_view sb (cview s1) n (to_dinode i2) → ino (cview s2) n = i2 →
  stored sb V i (isize i) p (cview s2) i2 → more s n s2.
Proof.
  intros V i i2 Hs Hn Hok (Hs1 & Hw & Hni & _) Hs2 Hni2 HV2 Hi2 Hst. pose proof (iblk_low n Hn) as Hib. unfold more. fold V. rewrite Hi2. fold i.
  split_and!.
  - intros b (Hb & Hor). unfold i2 in Hor. change (ind (set_isize _ i1)) with (ind i1) in Hor. destruct Hor as [->|(bn & Hr & <-)].
    + destruct (w_ind _ _ _ _ _ _ _ Hw) as [E|E]; [|by right]. left. split; [done|]. left. by rewrite E.
    + assert (blk_addr (cview s2) i2 bn = blk_addr (cview s1) i1 bn) as E.
      { rewrite HV2. apply (blk_addr_low layout sb mk_layout_ok (cview s1) i1); [apply Hw|]. rewrite bmapstart_eq. lia. }
      unfold i2 in E. rewrite E in Hb |- *. destruct (decide (blk_addr V i bn = 0)) as [E0|E0].
      * destruct (w_new _ _ _ _ _ _ _ Hw bn Hr E0) as [?|?]; [done|by right].
      * left. rewrite (w_keep _ _ _ _ _ _ _ Hw bn Hr E0) in *. split; [done|]. right. eauto.
  - intros m Hm Hne. by apply (s_inodes _ _ _ _ _ _ _ Hst).
  - intros b Hb Hno. apply (s_frame _ _ _ _ _ _ _ Hst b Hb).
    + intros ->. apply Hno. destruct Hb as [Hb _]. rewrite datastart_eq in Hb. split; [lia|by left].
    + intros bn Hr E. apply Hno. destruct Hb as [Hb _]. rewrite datastart_eq in Hb. split; [lia|]. right. eauto.
  - intros b [Hb Hm]. split; [done|]. apply (s_marked _ _ _ _ _ _ _ Hst); [|done]. rewrite datastart_eq, size_eq in *. lia.
  - rewrite HV2. unfold inode_view. rewrite upd_ne by lia. apply (w_low _ _ _ _ _ _ _ Hw). rewrite bmapstart_eq. lia.
  - by rewrite Hni2.
Qed.

Lemma isize_data V n ty d : holds V n ty d → isize (ino V n) = Z.of_nat (length d).
Proof. intros [Hok _ _ <- _ _]. rewrite length_file_data. pose proof (fo_size _ _ _ Hok). lia. Qed.

Lemma iappend_ok s n ty d p :
  rep s → 0 ≤ n < 200 → holds (cview s) n ty d → p ≠ [] → bytes p →
  Z.of_nat (length (d ++ p)) ≤ MAXFILE * 512 →
  freeblock s + (need (Z.of_nat (length (d ++ p))) - need (Z.of_nat (length d))) ≤ 1000 →
  ∃ s', iappend n p s = Some (tt, s') ∧ rep s' ∧ holds (cview s') n ty (d ++ p) ∧ more s n s' ∧
    freeblock s' = freeblock s + (need (Z.of_nat (length (d ++ p))) - need (Z.of_nat (length d))).
Proof.
  intros Hs Hn Hh Hne Hb Hmax Hroom. pose proof (isize_data _ _ _ _ Hh) as Hsz. destruct Hh as [Hok Ht Hl Hd Hf Hbl].
  set (i := ino (cview s) n) in *. rewrite length_app, Nat2Z.inj_add, <- Hsz in *.
  destruct (iappend_loop_ok (length p) s i (isize i) p) as (s1 & i1 & E1 & Happ); try done; [pose proof (fo_size _ _ _ Hok); lia|].
  pose proof Happ as (Hs1 & Hw & Hni & Hfb & Hf1 & Hbl1). set (i2 := set_isize (isize i + Z.of_nat (length p)) i1).
  destruct (winode_ok s1 n (to_dinode i2) Hs1 Hn) as (s2 & E2 & Hs2 & HV2 & Hfb2 & Hni2).
  assert (inum i2 = n) as Hin by (unfold i2; rewrite (w_inode _ _ _ _ _ _ _ Hw); done).
  assert (0 < Z.of_nat (length p)) as Hp by (destruct p; [done|cbn [length]; lia]).
  pose proof (stored_extend layout sb mk_layout_ok (cview s) i (isize i) p (cview s1) i1 (cview_length s1 Hs1) Hok) as Hst.
  pose proof (fo_size _ _ _ Hok) as Hsz0. specialize (Hst ltac:(lia) ltac:(lia) Hw). cbv zeta in Hst. fold i2 in Hst. rewrite Hin, <- HV2 in Hst.
  assert (ino (cview s2) n = i2) as Hi2.
  { unfold ino. replace (disk_inode sb (cview s2) n) with (to_dinode i2); [unfold i2; by rewrite (w_inode _ _ _ _ _ _ _ Hw)|].
    symmetry. apply (s_sync _ _ _ _ _ _ _ Hst). unfold i. by rewrite ino_dinode. }
  exists s2. split_and!; try done.
  - unfold iappend. erewrite kbind_Some; [|by apply rinode_ok]. rewrite <- ino_dinode. fold i. erewrite kbind_Some; [|exact E1]. cbn [fst snd].
    unfold xint. rewrite u32_small by (unfold MAXFILE in *; lia). exact E2.
  - assert (isize i2 = isize i + Z.of_nat (length p)) as Hz2 by done. split; rewrite ?Hi2; [apply Hst|..].
    + unfold i2. rewrite (w_inode _ _ _ _ _ _ _ Hw). exact Ht.
    + unfold i2. rewrite (w_inode _ _ _ _ _ _ _ Hw). exact Hl.
    + rewrite (stored_data sb (cview s) i (isize i) p (cview s2) i2 ltac:(lia) Hst), Hd.
      rewrite firstn_all2, skipn_all2 by lia. by rewrite app_nil_r.
    + rewrite HV2, Hz2. by apply (inode_view_full (cview s1) n i1); [apply Hw|..].
    + rewrite HV2, Hz2. apply (inode_view_blank (cview s1) n i1); [apply Hw|done|done|lia|done].
  - by apply (more_ok s n p s1 i1 s2).
  - lia.
Qed.

(** ** Images *)

(** The blocks of files with these types and contents. *)
Definition total (L : list (Z * list Z)) : Z := foldr (λ f z, need (Z.of_nat (length (snd f))) + z) 0 L.

(** The image holds the files [L], inode 1 the first of them, and nothing else. *)
Record image (s : mkstate) (L : list (Z * list Z)) : Prop := {
  im_rep : rep s;
  im_super : cview s 1 = super_block;
  im_inode : freeinode s = 1 + Z.of_nat (length L);
  im_count : (length L < 200)%nat;
  im_blocks : freeblock s = 59 + total L;
  im_file k ty d : L !! k = Some (ty, d) → holds (cview s) (1 + Z.of_nat k) ty d;
  im_sep j k b : (j < length L)%nat → (k < length L)%nat → j ≠ k →
    owns (cview s) (ino (cview s) (1 + Z.of_nat j)) b → ¬ owns (cview s) (ino (cview s) (1 + Z.of_nat k)) b }.

Lemma need_nonneg n : 0 ≤ n → 0 ≤ need n.
Proof. intros Hn. unfold need. assert (0 ≤ (n + 511) / 512) by (apply Z.div_pos; lia). destruct (6144 <? n); lia. Qed.
Lemma total_cons f L : total (f :: L) = need (Z.of_nat (length (snd f))) + total L.
Proof. done. Qed.
Lemma total_app L L' : total (L ++ L') = total L + total L'.
Proof. induction L as [|f L IH]; [done|]. cbn [app]. rewrite !total_cons, IH. lia. Qed.
Lemma total_insert L k ty d ty' d' :
  L !! k = Some (ty, d) → total (<[k := (ty', d')]> L) = total L + (need (Z.of_nat (length d')) - need (Z.of_nat (length d))).
Proof.
  revert k. induction L as [|f L IH]; intros [|k] Hk; cbn in Hk; [done..| |].
  - simplify_eq. change (<[0%nat := (ty', d')]> ((ty, d) :: L)) with ((ty', d') :: L). rewrite !total_cons. cbn [snd]. lia.
  - change (<[S k := (ty', d')]> (f :: L)) with (f :: <[k := (ty', d')]> L). rewrite !total_cons, (IH k Hk). lia.
Qed.

(** The other files of the image after [iappend]. *)
Lemma more_others s L n s' j k ty d :
  image s L → (k < length L)%nat → n = 1 + Z.of_nat k → more s n s' → j ≠ k → L !! j = Some (ty, d) →
  holds (cview s') (1 + Z.of_nat j) ty d ∧
  ∀ b, owns (cview s') (ino (cview s') (1 + Z.of_nat j)) b ↔ owns (cview s) (ino (cview s) (1 + Z.of_nat j)) b.
Proof.
  intros Him Hk -> (_ & Hino & Hfr & Hdat & _) Hne Hj. pose proof (im_file _ _ Him _ _ _ Hj) as Hh.
  pose proof (lookup_lt_Some _ _ _ Hj) as Hjl. pose proof (im_count _ _ Him).
  assert (disk_inode sb (cview s') (1 + Z.of_nat j) = disk_inode sb (cview s) (1 + Z.of_nat j)) as Hi by (apply Hino; lia).
  assert (∀ b, owns (cview s) (ino (cview s) (1 + Z.of_nat j)) b → cview s' b = cview s b) as Hb.
  { intros b Hb. apply Hfr; [eapply owns_data; [apply Hh|done]|]. by apply (im_sep _ _ Him j k b). }
  split; [by eapply kept_holds|]. intros b. by eapply kept_owns.
Qed.

Lemma image_append s L k ty d p :
  image s L → L !! k = Some (ty, d) → p ≠ [] → bytes p → Z.of_nat (length (d ++ p)) ≤ MAXFILE * 512 →
  total (<[k := (ty, d ++ p)]> L) ≤ 941 →
  ∃ s', iappend (1 + Z.of_nat k) p s = Some (tt, s') ∧ image s' (<[k := (ty, d ++ p)]> L).
Proof.
  intros Him Hk Hne Hb Hmax Hroom. pose proof (lookup_lt_Some _ _ _ Hk) as Hkl. pose proof (im_count _ _ Him) as Hc.
  pose proof (im_blocks _ _ Him) as Hfb. rewrite (total_insert _ _ _ _ _ _ Hk) in Hroom.
  destruct (iappend_ok s (1 + Z.of_nat k) ty d p) as (s' & E & Hs' & Hh & Hmore & Hf); try done; [apply Him|lia|by apply Him|lia|].
  assert (∀ j ty' d', j ≠ k → L !! j = Some (ty', d') → _) as Hoth by (intros j ty' d' Hj; by apply (more_others s L (1 + Z.of_nat k) s' j k ty' d')).
  exists s'. split; [done|]. pose proof Hmore as (Hown & _ & _ & _ & Hsup & Hfi). split; try done.
  - rewrite Hsup. apply Him.
  - rewrite length_insert, Hfi. apply Him.
  - by rewrite length_insert.
  - rewrite (total_insert _ _ _ _ _ _ Hk). lia.
  - intros j ty' d' Hj. destruct (decide (j = k)) as [->|Hjk].
    + rewrite list_lookup_insert_eq in Hj by done. by simplify_eq.
    + rewrite list_lookup_insert_ne in Hj by done. by apply (Hoth j ty' d').
  - assert (∀ j b, (j < length L)%nat → j ≠ k → owns (cview s') (ino (cview s') (1 + Z.of_nat j)) b →
      owns (cview s) (ino (cview s) (1 + Z.of_nat j)) b ∧ ¬ owns (cview s') (ino (cview s') (1 + Z.of_nat k)) b) as Hjk.
    { intros j b Hjl Hne' Ho. destruct (lookup_lt_is_Some_2 L j Hjl) as [[ty' d'] Hj]. apply (Hoth j ty' d' Hne' Hj) in Ho. split; [done|].
      intros [Hk'|Hm]%Hown; [by apply (im_sep _ _ Him j k b)|]. apply owns_data in Ho; [|by eapply h_ok, im_file]. destruct Ho. congruence. }
    intros j j' b. rewrite !length_insert. intros Hj Hj' Hne' H1 H2. destruct (decide (j = k)) as [->|]; [by eapply Hjk in H2 as [_ H2]|].
    destruct (decide (j' = k)) as [->|]; [by eapply Hjk in H1 as [_ H1]|]. eapply Hjk in H1 as [H1 _], H2 as [H2 _]; try done.
    by apply (im_sep _ _ Him j j' b).
Qed.

(** A new inode. *)
Definition empty_inode (n ty : Z) : inode := Inode ROOTDEV n 0 (Sleeplock.SL 0 0) 0 ty 0 0 1 0 (replicate 13 0).
Lemma empty_addr V n ty bn : blk_addr V (empty_inode n ty) bn = 0.
Proof.
  unfold blk_addr. change (ind (empty_inode n ty)) with 0. destruct (bn <? Z.of_nat NDIRECT); [|done]. cbn [addrs empty_inode].
  rewrite nth_lookup. destruct (replicate 13 0 !! Z.to_nat bn) as [z|] eqn:E; [|done]. by apply lookup_replicate in E as [-> _].
Qed.
Lemma empty_holds V n ty : 0 ≤ n < 200 → 0 ≤ ty < 3 → ino V n = empty_inode n ty → holds V n ty [].
Proof.
  intros Hn Ht Hi. assert (∀ bn, blk_addr V (empty_inode n ty) bn ≠ 0 → False) as H0 by (intros bn; by rewrite empty_addr).
  split; rewrite Hi; try done.
  - split; cbn; try done; try lia; try (intros; by exfalso; eapply H0).
    + split; cbn; unfold short, uint; try lia; try done. repeat constructor; lia.
    + unfold T_DEV. lia.
  - split; [|done]. intros bn Hr. rewrite empty_addr. cbn. lia.
  - intros k Hk Hlt. cbn in *. exfalso. Z.to_euclidean_division_equations; lia.
Qed.

Definition empty_dinode (ty : Z) : dinode := Dinode ty 0 0 1 0 (replicate 13 0).
Lemma mk_ialloc_ok s n ty :
  rep s → freeinode s = n → 0 ≤ n < 200 → 0 ≤ ty < 3 →
  ∃ s', mk_ialloc ty s = Some (n, s') ∧ rep s' ∧ cview s' = inode_view sb (cview s) n (empty_dinode ty) ∧
    freeblock s' = freeblock s ∧ freeinode s' = n + 1.
Proof.
  intros Hs Hfi Hn Ht. set (s0 := Mk (img s) (nsect s) (u32 (n + 1)) (freeblock s)). assert (rep s0) as Hs0 by (destruct Hs; by split).
  destruct (winode_ok s0 n (empty_dinode ty) Hs0 Hn) as (s' & E & Hs' & HV & Hfb & Hfi'). exists s'. split_and!; try done.
  - unfold mk_ialloc. rewrite Hfi. fold s0. assert (xshort ty = ty) as -> by (unfold xshort, u16; rewrite Z.mod_small; lia).
    change (xshort 1) with 1. change (xint 0) with 0. by rewrite (kbind_Some _ _ _ _ _ E).
  - rewrite Hfi'. cbn. rewrite u32_small; lia.
Qed.

(** The files of the image are as before once another inode has been written. *)
Lemma inode_others s L s' n x j ty d :
  image s L → rep s' → 0 ≤ n < 200 → dinode_ok x → cview s' = inode_view sb (cview s) n x → freeblock s' = freeblock s →
  n ≠ 1 + Z.of_nat j → L !! j = Some (ty, d) →
  holds (cview s') (1 + Z.of_nat j) ty d ∧
  ∀ b, owns (cview s') (ino (cview s') (1 + Z.of_nat j)) b ↔ owns (cview s) (ino (cview s) (1 + Z.of_nat j)) b.
Proof.
  intros Him Hs' Hn Hx HV Hfb Hne Hj. pose proof (im_rep _ _ Him) as Hs. pose proof (lookup_lt_Some _ _ _ Hj) as Hjl.
  pose proof (im_count _ _ Him). pose proof (iblk_low n Hn) as Hib. pose proof (im_file _ _ Him _ _ _ Hj) as Hh.
  assert (disk_inode sb (cview s') (1 + Z.of_nat j) = disk_inode sb (cview s) (1 + Z.of_nat j)) as Hi.
  { rewrite HV, disk_inode_view by (done || lia || by apply cview_length). by rewrite decide_False by lia. }
  assert (∀ b, owns (cview s) (ino (cview s) (1 + Z.of_nat j)) b → cview s' b = cview s b) as Hb.
  { intros b Hb. rewrite HV. unfold inode_view. rewrite upd_ne; [done|]. apply owns_data in Hb as [Hb _]; [|apply Hh]. rewrite datastart_eq in Hb. lia. }
  assert (∀ b, data_block sb (cview s) b → data_block sb (cview s') b) as Hdb.
  { intros b Hd. apply (cview_data s Hs) in Hd. apply (cview_data s' Hs'). by rewrite Hfb. }
  split; [by eapply kept_holds|]. intros b. by eapply kept_owns.
Qed.

Lemma image_ialloc s L ty :
  image s L → (length L < 199)%nat → 0 ≤ ty < 3 →
  ∃ s', mk_ialloc ty s = Some (1 + Z.of_nat (length L), s') ∧ image s' (L ++ [(ty, [])]).
Proof.
  intros Him Hl Ht. pose proof (im_rep _ _ Him) as Hs. set (n := 1 + Z.of_nat (length L)).
  destruct (mk_ialloc_ok s n ty Hs (im_inode _ _ Him) ltac:(lia) Ht) as (s' & E & Hs' & HV & Hfb & Hfi). exists s'. split; [done|].
  assert (dinode_ok (empty_dinode ty)) as Hdok by (split; cbn; unfold short, uint; try lia; try done; repeat constructor; lia).
  assert (ino (cview s') n = empty_inode n ty) as Hin.
  { unfold ino. rewrite HV, disk_inode_view by (done || lia || by apply cview_length). by rewrite decide_True. }
  assert (∀ b, ¬ owns (cview s') (ino (cview s') n) b) as Hno.
  { intros b (Hb & [->|(bn & _ & E')]); rewrite Hin in *; [done|]. rewrite empty_addr in E'. congruence. }
  assert (∀ k, (k < length (L ++ [(ty, [])]))%nat → (k < length L)%nat ∨ 1 + Z.of_nat k = n) as Hk.
  { intros k. rewrite length_app. cbn. lia. }
  assert (∀ k ty d, L !! k = Some (ty, d) → _) as Hold
    by (intros k ty' d' Hkk; apply (inode_others s L s' n (empty_dinode ty) k ty' d'); try done; pose proof (lookup_lt_Some _ _ _ Hkk); lia).
  split; try done.
  - rewrite HV. unfold inode_view. rewrite upd_ne; [apply Him|]. pose proof (iblk_low n ltac:(lia)). lia.
  - rewrite Hfi, length_app. cbn. lia.
  - rewrite length_app. cbn. lia.
  - rewrite Hfb, total_app, (im_blocks _ _ Him). change (total [(ty, [])]) with 0. lia.
  - intros k ty' d' [Hkk|[Hge Hkk]]%lookup_app_Some; [by apply (Hold k ty' d')|]. apply list_lookup_singleton_Some in Hkk as [Hk0 [= <- <-]].
    replace (1 + Z.of_nat k) with n by lia. apply empty_holds; [lia|done|done].
  - intros j k b Hj Hk' Hne H1 H2. destruct (Hk j Hj) as [Hjl|Ej]; [|rewrite Ej in H1; by apply Hno in H1].
    destruct (Hk k Hk') as [Hkl|Ek]; [|rewrite Ek in H2; by apply Hno in H2].
    destruct (lookup_lt_is_Some_2 L j Hjl) as [[tj dj] Ej]. destruct (lookup_lt_is_Some_2 L k Hkl) as [[tk dk] Ek].
    apply (Hold _ _ _ Ej) in H1. apply (Hold _ _ _ Ek) in H2. by apply (im_sep _ _ Him j k b).
Qed.

(** ** The files of the host *)

(** A file that can be read, that fits, and whose name has no slash. *)
Definition good (f : source) : Prop :=
  ∃ chunks, snd f = Some chunks ∧ Forall (λ c, c ≠ [] ∧ bytes c) chunks ∧
    Z.of_nat (length (concat chunks)) ≤ MAXFILE * 512 ∧ 47 ∉ fst f ∧ bytes (fst f).
Definition contents (f : source) : list Z := concat (default [] (snd f)).
Definition host_files (fs : list source) : list (Z * list Z) := map (λ f, (T_FILE, contents f)) fs.
(** Their entries in the root directory, from inode [n] on. *)
Fixpoint root_entries (n : Z) (fs : list source) : list (list Z) :=
  match fs with
  | [] => []
  | f :: fs => dirent n (stored_name (fst f)) :: root_entries (n + 1) fs
  end.

Lemma append_all_ok chunks : ∀ s L k ty d,
  image s L → L !! k = Some (ty, d) → Forall (λ c, c ≠ [] ∧ bytes c) chunks →
  Z.of_nat (length (d ++ concat chunks)) ≤ MAXFILE * 512 → total (<[k := (ty, d ++ concat chunks)]> L) ≤ 941 →
  ∃ s', append_all (1 + Z.of_nat k) chunks s = Some (tt, s') ∧ image s' (<[k := (ty, d ++ concat chunks)]> L).
Proof.
  induction chunks as [|c chunks IH]; intros s L k ty d Him Hk Hc Hmax Hroom; cbn [append_all concat] in *.
  { exists s. split; [done|]. rewrite app_nil_r. by rewrite list_insert_id. }
  apply Forall_cons in Hc as [[Hne Hb] Hc]. rewrite app_assoc in *. pose proof (lookup_lt_Some _ _ _ Hk) as Hkl.
  assert (need (Z.of_nat (length (d ++ c))) ≤ need (Z.of_nat (length ((d ++ c) ++ concat chunks)))) as Hn.
  { apply need_mono. rewrite (length_app (d ++ c)). lia. }
  destruct (image_append s L k ty d c) as (s1 & E1 & Him1); try done.
  { rewrite (length_app (d ++ c)) in Hmax. lia. }
  { rewrite (total_insert _ _ _ _ _ _ Hk) in Hroom. rewrite (total_insert _ _ _ _ _ _ Hk). lia. }
  destruct (IH s1 (<[k := (ty, d ++ c)]> L) k ty (d ++ c)) as (s2 & E2 & Him2); try done.
  { by apply list_lookup_insert_eq. }
  { by rewrite list_insert_insert_eq. }
  exists s2. rewrite list_insert_insert_eq in Him2. split; [|done]. by rewrite (kbind_Some _ _ _ _ _ E1).
Qed.

Lemma bytes_stored_name l : bytes l → bytes (stored_name l).
Proof. destruct l as [|c l]; [done|]. cbn. destruct (c =? 95); [|done]. by intros [_ Hl]%Forall_cons. Qed.

Lemma add_file_ok s rd F f :
  let n := 2 + Z.of_nat (length F) in let rd' := rd ++ dirent n (stored_name (fst f)) in
  image s ((T_DIR, rd) :: F) → good f → (length F < 198)%nat → Z.of_nat (length rd') ≤ MAXFILE * 512 →
  total ((T_DIR, rd') :: F ++ [(T_FILE, contents f)]) ≤ 941 →
  ∃ s', add_file f s = Some (tt, s') ∧ image s' ((T_DIR, rd') :: F ++ [(T_FILE, contents f)]).
Proof.
  intros n rd' Him (chunks & Ec & Hch & Hlen & Hsl & Hnm) HF Hmax Hroom. unfold contents in *. rewrite Ec in *. change (default [] (Some chunks)) with chunks in *.
  destruct (image_ialloc s _ T_FILE Him) as (s1 & E1 & Him1); [cbn; lia|by vm_compute|]. cbn [length app] in E1, Him1.
  replace (1 + Z.of_nat (S (length F))) with n in E1 by lia.
  assert (bytes (dirent n (stored_name (fst f)))) as Hde by (by apply bytes_dirent, bytes_stored_name).
  rewrite total_cons, total_app, total_cons in Hroom. cbn [snd] in Hroom. change (total []) with 0 in Hroom.
  pose proof (need_nonneg (Z.of_nat (length (concat chunks))) ltac:(lia)) as Hnn.
  destruct (image_append s1 ((T_DIR, rd) :: F ++ [(T_FILE, [])]) 0 T_DIR rd (dirent n (stored_name (fst f)))) as (s2 & E2 & Him2); try done.
  { change (<[0%nat := ?x]> (?y :: ?l)) with (x :: l). rewrite total_cons, total_app. cbn [snd]. change (total [(T_FILE, [])]) with 0. fold rd'. lia. }
  change (<[0%nat := ?x]> (?y :: ?l)) with (x :: l) in Him2. fold rd' in Him2. change (1 + Z.of_nat 0) with ROOTINO in E2.
  assert (((T_DIR, rd') :: F ++ [(T_FILE, [])]) !! S (length F) = Some (T_FILE, [])) as Hlk by (cbn; by apply list_lookup_middle).
  assert (<[S (length F) := (T_FILE, [] ++ concat chunks)]> ((T_DIR, rd') :: F ++ [(T_FILE, [])]) = (T_DIR, rd') :: F ++ [(T_FILE, concat chunks)]) as Hin.
  { change (<[S ?k := ?x]> (?y :: ?l)) with (y :: <[k := x]> l). rewrite insert_app_r_alt by lia. by rewrite Nat.sub_diag. }
  destruct (append_all_ok chunks s2 _ _ _ _ Him2 Hlk Hch) as (s3 & E3 & Him3); [done|rewrite Hin, total_cons, total_app, total_cons; cbn [snd]; change (total []) with 0; lia|].
  rewrite Hin in Him3. exists s3. split; [|done]. unfold add_file. rewrite bool_decide_eq_false_2 by done. rewrite Ec.
  erewrite kbind_Some; [|reflexivity]. rewrite (kbind_Some _ _ _ _ _ E1).
  assert (xshort n = n) as -> by (unfold xshort, u16; rewrite Z.mod_small; lia). rewrite (kbind_Some _ _ _ _ _ E2).
  replace n with (1 + Z.of_nat (S (length F))) by lia. exact E3.
Qed.

Lemma total_nonneg L : 0 ≤ total L.
Proof. induction L as [|f L IH]; [done|]. rewrite total_cons. pose proof (need_nonneg (Z.of_nat (length (snd f))) ltac:(lia)). lia. Qed.

Lemma add_files_ok fs : ∀ s rd F,
  let rd' := rd ++ concat (root_entries (2 + Z.of_nat (length F)) fs) in
  image s ((T_DIR, rd) :: F) → Forall good fs → (length F + length fs < 199)%nat → Z.of_nat (length rd') ≤ MAXFILE * 512 →
  total ((T_DIR, rd') :: F ++ host_files fs) ≤ 941 →
  ∃ s', add_files fs s = Some (tt, s') ∧ image s' ((T_DIR, rd') :: F ++ host_files fs).
Proof.
  induction fs as [|f fs IH]; intros s rd F rd' Him Hg HF Hmax Hroom; unfold rd' in *; clear rd'; cbn [root_entries concat host_files map add_files length] in *.
  { exists s. rewrite !app_nil_r. done. }
  apply Forall_cons in Hg as [Hf Hg]. rewrite app_assoc in *. fold (host_files fs) in *.
  rewrite cons_middle, app_assoc in *. rewrite (length_app (rd ++ _)) in Hmax.
  rewrite total_cons, (total_app (F ++ _)) in Hroom. pose proof (total_nonneg (host_files fs)).
  destruct (add_file_ok s rd F f Him Hf) as (s1 & E1 & Him1); [lia|lia| |].
  { rewrite total_cons. cbn [snd] in *. pose proof (need_mono (Z.of_nat (length (rd ++ dirent (2 + Z.of_nat (length F)) (stored_name (fst f)))))
      (Z.of_nat (length ((rd ++ dirent (2 + Z.of_nat (length F)) (stored_name (fst f))) ++ concat (root_entries (2 + Z.of_nat (length F) + 1) fs))))
      ltac:(rewrite (length_app (rd ++ _)); lia)). lia. }
  assert (2 + Z.of_nat (length F) + 1 = 2 + Z.of_nat (length (F ++ [(T_FILE, contents f)]))) as Hn by (rewrite length_app; cbn [length]; lia).
  rewrite Hn in *. destruct (IH s1 _ _ Him1 Hg) as (s2 & E2 & Him2).
  { rewrite length_app. cbn [length]. lia. }
  { rewrite (length_app (rd ++ _)). lia. }
  { rewrite total_cons, (total_app (F ++ _)). lia. }
  exists s2. split; [|done]. by rewrite (kbind_Some _ _ _ _ _ E1).
Qed.

(** ** The size of the root directory *)

Definition pad (d : list Z) : list Z := replicate (Z.to_nat ((Z.of_nat (length d) / 512 + 1) * 512 - Z.of_nat (length d))) 0.

Lemma round_data V i V' i' d sz :
  file_data V i = d → isize i = Z.of_nat (length d) → isize i' = sz → isize i ≤ sz → pad d = replicate (Z.to_nat (sz - isize i)) 0 →
  (∀ k, 0 ≤ k < sz → file_byte V' i' k = file_byte V i k) → (∀ k, isize i ≤ k < sz → file_byte V i k = 0) → file_data V' i' = d ++ pad d.
Proof.
  intros Hd Hsz Hsz' Hle -> Hk Hz. unfold file_data in *. rewrite Hsz', (file_bytes_app V' i' 0 (isize i) sz) by lia. f_equal.
  - rewrite <- Hd. apply map_ext_in. intros j Hj%in_seq. apply Hk. lia.
  - apply list_eq. intros j. unfold file_bytes. rewrite list_lookup_fmap. destruct (decide (j < Z.to_nat (sz - isize i))%nat) as [Hj|Hj].
    + rewrite lookup_seq_lt, lookup_replicate_2 by done. cbn. by rewrite Hk, Hz by lia.
    + rewrite lookup_seq_ge by lia. symmetry. apply lookup_replicate_None. lia.
Qed.

(** A file whose size is rounded up inside its last block. *)
Lemma round_holds V n ty d x :
  let i' := set_isize (Z.of_nat (length (d ++ pad d))) (ino V n) in
  holds V n ty d → (∀ m, length (V m) = BSIZE) → 0 ≤ n < 200 → Z.of_nat (length d) mod 512 ≠ 0 → x = to_dinode i' →
  let V' := inode_view sb V n x in dinode_ok x ∧ ino V' n = i' ∧ holds V' n ty (d ++ pad d) ∧ ∀ b, owns V' (ino V' n) b ↔ owns V (ino V n) b.
Proof.
  intros i' Hh Hlen Hn Hmod -> V'. pose proof (isize_data _ _ _ _ Hh) as Hsz. destruct Hh as [Hok Ht Hl Hd [Hf1 Hf2] Hbl].
  pose proof (fo_size _ _ _ Hok) as Hr. unfold MAXFILE in Hr. change (Z.of_nat BSIZE) with 512 in Hr. pose proof (iblk_low n Hn) as Hib.
  assert (Z.of_nat (length (d ++ pad d)) = (Z.of_nat (length d) / 512 + 1) * 512) as Hlp.
  { rewrite length_app. unfold pad. rewrite length_replicate. clear - Hmod. Z.to_euclidean_division_equations; lia. }
  set (sz := Z.of_nat (length (d ++ pad d))) in *. assert (isize (ino V n) < sz ≤ 71680) as Hsr by (rewrite Hsz, Hlp in *; clear - Hr Hmod Hsz; Z.to_euclidean_division_equations; lia).
  assert (∀ bn, 0 ≤ bn → bn * 512 < sz → bn < 140 ∧ bn * 512 < isize (ino V n)) as Hin by (intros bn; rewrite Hsz, Hlp in *; clear - Hmod Hr Hsz; Z.to_euclidean_division_equations; lia).
  assert (∀ k, 0 ≤ k < sz → 0 ≤ k / 512 < MAXFILE ∧ k / 512 * 512 < isize (ino V n)) as Hblk.
  { intros k Hk. assert (0 ≤ k / 512 ∧ k / 512 * 512 < sz) as [H1 H2] by (clear - Hk; Z.to_euclidean_division_equations; lia).
    destruct (Hin (k / 512) H1 H2). unfold MAXFILE. lia. }
  assert (file_ok sb V' i') as Hok'.
  { apply (file_ok_resize layout sb mk_layout_ok); [done|rewrite bmapstart_eq; lia|unfold MAXFILE; change (Z.of_nat BSIZE) with 512; lia|].
    intros bn Hb Hlt. destruct (Hin bn Hb Hlt). by apply Hf1; [unfold MAXFILE; lia|]. }
  assert (∀ bn, blk_addr V' i' bn = blk_addr V (ino V n) bn) as Hadr.
  { intros bn. apply (blk_addr_low layout sb mk_layout_ok V (ino V n)); [done|rewrite bmapstart_eq; lia]. }
  assert (ino V' n = i') as Hi'.
  { unfold ino. unfold V'. rewrite disk_inode_view by (done || lia || apply Hok'). by rewrite decide_True. }
  split; [apply Hok'|]. split; [done|]. rewrite Hi'. split; [split; rewrite Hi'; try done|unfold owns; by setoid_rewrite Hadr].
  - apply (round_data V (ino V n) V' i' d sz Hd Hsz); [done|lia|unfold pad; f_equal; lia| |].
    + intros k Hk. apply (file_byte_low layout sb mk_layout_ok V (ino V n)); [done|rewrite bmapstart_eq; lia|unfold MAXFILE; lia|].
      destruct (Hblk k Hk) as [H1 H2]. by apply Hf1.
    + intros k Hk. apply Hbl; [lia|]. apply (Hblk k). lia.
  - split.
    + intros bn Hb. rewrite Hadr, Hf1 by done. change (isize i') with sz. split; [lia|]. apply Hin. lia.
    + change (ind i') with (ind (ino V n)). rewrite Hf2. change (isize i') with sz. split; [lia|]. intros H6.
      destruct (Hin 12); lia.
  - intros k Hk Hlt. change (isize i') with sz in *. exfalso. clear - Hk Hlt Hlp. Z.to_euclidean_division_equations; lia.
Qed.

Lemma pad_length d : Z.of_nat (length d) mod 512 ≠ 0 → Z.of_nat (length (d ++ pad d)) = (Z.of_nat (length d) / 512 + 1) * 512.
Proof. intros Hmod. rewrite length_app. unfold pad. rewrite length_replicate. Z.to_euclidean_division_equations; lia. Qed.
Lemma need_pad d : Z.of_nat (length d) mod 512 ≠ 0 → need (Z.of_nat (length (d ++ pad d))) = need (Z.of_nat (length d)).
Proof.
  intros Hmod. rewrite pad_length by done. unfold need. set (n := Z.of_nat (length d)) in *.
  assert (((n / 512 + 1) * 512 + 511) / 512 = (n + 511) / 512) as -> by (Z.to_euclidean_division_equations; lia).
  f_equal. destruct (Z.ltb_spec 6144 ((n / 512 + 1) * 512)), (Z.ltb_spec 6144 n); try done; Z.to_euclidean_division_equations; lia.
Qed.

Lemma image_fix_root s rd F :
  image s ((T_DIR, rd) :: F) → Z.of_nat (length rd) mod 512 ≠ 0 → ∃ s', fix_root s = Some (tt, s') ∧ image s' ((T_DIR, rd ++ pad rd) :: F).
Proof.
  intros Him Hmod. pose proof (im_rep _ _ Him) as Hs. pose proof (im_file _ _ Him 0%nat T_DIR rd eq_refl) as Hh. change (1 + Z.of_nat 0) with 1 in Hh.
  set (i' := set_isize (Z.of_nat (length (rd ++ pad rd))) (ino (cview s) 1)).
  destruct (round_holds (cview s) 1 T_DIR rd (to_dinode i') Hh (cview_length s Hs)) as (Hx & Hi' & Hh' & Hown); [lia|done|done|].
  destruct (winode_ok s 1 (to_dinode i') Hs) as (s' & E & Hs' & HV & Hfb & Hfi); [lia|]. rewrite <- HV in *.
  assert (∀ j ty d, F !! j = Some (ty, d) → _) as Hoth
    by (intros j ty d Hj; apply (inode_others s _ s' 1 (to_dinode i') (S j) ty d Him Hs'); [lia|done|done|done|lia|exact Hj]).
  exists s'. split; [|split]; try done.
  - unfold fix_root. change ROOTINO with 1. erewrite kbind_Some; [|by apply rinode_ok; [|lia]]. cbv zeta. rewrite <- ino_dinode.
    change (d_size (to_dinode (ino (cview s) 1))) with (isize (ino (cview s) 1)). rewrite (isize_data _ _ _ _ Hh). change (Z.of_nat BSIZE) with 512.
    rewrite <- pad_length by done. unfold xint. rewrite u32_small; [exact E|]. pose proof (fo_size _ _ _ (h_ok _ _ _ _ Hh')) as Hz.
    rewrite (isize_data _ _ _ _ Hh') in Hz. unfold MAXFILE in Hz. change (Z.of_nat BSIZE) with 512 in Hz. lia.
  - rewrite HV. unfold inode_view. rewrite upd_ne; [apply Him|]. pose proof (iblk_low 1 ltac:(lia)). lia.
  - rewrite Hfi. apply (im_inode _ _ Him).
  - apply (im_count _ _ Him).
  - rewrite Hfb, (im_blocks _ _ Him), !total_cons. cbn [snd]. by rewrite need_pad.
  - intros [|j] ty d Hj; [by simplify_eq/=|]. by apply (Hoth j ty d).
  - assert (∀ j b, (j < S (length F))%nat → owns (cview s') (ino (cview s') (1 + Z.of_nat j)) b → owns (cview s) (ino (cview s) (1 + Z.of_nat j)) b) as Ho.
    { intros [|j] b Hj; [by intros Ho%Hown|]. destruct (lookup_lt_is_Some_2 F j) as [[ty d] Ej]; [lia|]. by intros Ho%(Hoth j ty d Ej). }
    intros j k b Hj Hk Hne H1%Ho H2%Ho; [|done..]. by apply (im_sep _ _ Him j k b).
Qed.

(** ** The empty image *)

Lemma zero_sectors_ok n : ∀ s,
  (∀ m, img s m = zero_block) → nsect s + Z.of_nat n < 4294967296 →
  ∃ s', zero_sectors (seqZ (nsect s) (Z.of_nat n)) s = Some (tt, s') ∧ (∀ m, img s' m = zero_block) ∧
    nsect s' = nsect s + Z.of_nat n ∧ freeinode s' = freeinode s ∧ freeblock s' = freeblock s.
Proof.
  induction n as [|n IH]; intros s Hz Hn; [exists s; split_and!; done || lia|].
  rewrite seqZ_cons by lia. cbn [zero_sectors]. set (s1 := Mk (upd (img s) (nsect s) zero_block) (nsect s + 1) (freeinode s) (freeblock s)).
  assert (wsect (nsect s) zero_block s = Some (tt, s1)) as E by (unfold wsect, s1; by rewrite Z.max_r by lia).
  destruct (IH s1) as (s' & E' & H1 & H2 & H3 & H4); [intros m; unfold s1, upd; cbn; by case_decide|cbn; lia|].
  exists s'. rewrite (kbind_Some _ _ _ _ _ E). replace (Z.pred (Z.of_nat (S n))) with (Z.of_nat n) by lia.
  split_and!; try done. cbn in H2. lia.
Qed.
Lemma super_ok : length super_block = BSIZE ∧ bytes super_block ∧ sb_of super_block = sb.
Proof.
  split; [by vm_compute|]. split; [|by vm_compute]. unfold super_block, put32, put16. repeat apply bytes_put8. apply zero_bytes.
Qed.
Lemma empty_image : ∃ s0 s, zero_sectors (seqZ 0 FSSIZE) fresh_image = Some (tt, s0) ∧ wsect 1 super_block s0 = Some (tt, s) ∧ image s [].
Proof.
  destruct (zero_sectors_ok 1000 fresh_image) as (s0 & E0 & Hz & Hn & Hfi & Hfb); [done|by vm_compute|].
  assert (rep s0) as Hs0.
  { split; [by rewrite Hn|intros m; rewrite Hz; split; [done|apply zero_bytes]|rewrite Hfb; by vm_compute|intros; apply Hz]. }
  destruct super_ok as (Hl & Hb & _). destruct (wsect_ok s0 Hs0 1 super_block) as (s & E & Hs & HV & Hf & Hi); try done; [rewrite Hfb; by vm_compute|].
  exists s0, s. split; [done|]. split; [done|]. split; try done.
  - by rewrite HV, upd_eq.
  - by rewrite Hi, Hfi.
  - cbn. lia.
  - by rewrite Hf, Hfb.
  - intros j k b Hj. cbn in Hj. lia.
Qed.

(** ** The whole program *)

Definition root_dir (fs : list source) : list (list Z) := dirent 1 [46] :: dirent 1 [46; 46] :: root_entries 2 fs.

Lemma root_entries_length n fs : length (root_entries n fs) = length fs ∧ Forall (λ e, length e = 16%nat) (root_entries n fs).
Proof.
  revert n. induction fs as [|f fs IH]; intros n; cbn [root_entries]; [done|]. destruct (IH (n + 1)) as [H1 H2].
  split; [cbn; lia|]. constructor; [apply length_dirent|done].
Qed.
Lemma root_dir_length fs : length (root_dir fs) = (2 + length fs)%nat ∧ Forall (λ e, length e = 16%nat) (root_dir fs).
Proof.
  destruct (root_entries_length 2 fs) as [H1 H2]. split; [cbn; lia|]. repeat (constructor; [apply length_dirent|]). done.
Qed.
Lemma concat_length16 (es : list (list Z)) : Forall (λ e, length e = 16%nat) es → length (concat es) = (16 * length es)%nat.
Proof. induction 1 as [|e es He _ IH]; [done|]. cbn [concat length]. rewrite length_app, He, IH. lia. Qed.

(** The run up to the last two steps. *)
Lemma mkfs_files fs :
  Forall good fs → (length fs < 199)%nat → total ((T_DIR, concat (root_dir fs)) :: host_files fs) ≤ 941 →
  ∃ s, mkfs fs = snd <$> (fix_root;; mark_used) s ∧ image s ((T_DIR, concat (root_dir fs)) :: host_files fs).
Proof.
  intros Hg Hlen Hroom. destruct (root_dir_length fs) as [Hrl Hr16]. pose proof (concat_length16 _ Hr16) as Hcl. rewrite Hrl in Hcl.
  destruct empty_image as (s0 & s1 & E0 & E1 & Him1). destruct (image_ialloc s1 [] T_DIR Him1) as (s2 & E2 & Him2); [cbn; lia|by vm_compute|].
  change (1 + Z.of_nat (length [])) with 1 in E2. cbn [app] in Him2.
  assert (bytes [46] ∧ bytes [46; 46]) as [Hb1 Hb2] by (split; repeat constructor; lia).
  destruct (image_append s2 _ 0 T_DIR [] (dirent 1 [46]) Him2 eq_refl) as (s3 & E3 & Him3); [done|by apply bytes_dirent|by vm_compute|by vm_compute|].
  destruct (image_append s3 _ 0 T_DIR _ (dirent 1 [46; 46]) Him3 eq_refl) as (s4 & E4 & Him4); [done|by apply bytes_dirent|by vm_compute|by vm_compute|].
  change (<[0%nat := ?x]> (?y :: ?l)) with (x :: l) in Him4. change (1 + Z.of_nat 0) with 1 in E3, E4. rewrite app_nil_l in Him4.
  assert ((dirent 1 [46] ++ dirent 1 [46; 46]) ++ concat (root_entries (2 + Z.of_nat (length (@nil (Z * list Z)))) fs) = concat (root_dir fs)) as Hrd
    by (rewrite <- app_assoc; done).
  destruct (add_files_ok fs s4 _ [] Him4 Hg) as (s5 & E5 & Him5); [cbn; lia|rewrite Hrd, Hcl; unfold MAXFILE; lia|rewrite Hrd; done|].
  rewrite Hrd in Him5. exists s5. split; [|exact Him5]. unfold mkfs, mkfs_main.
  erewrite kbind_Some; [|exact E0]. erewrite kbind_Some; [|exact E1]. erewrite kbind_Some; [|exact E2].
  erewrite kbind_Some; [|reflexivity]. change (xshort 1) with 1. erewrite kbind_Some; [|exact E3]. erewrite kbind_Some; [|exact E4].
  erewrite kbind_Some; [|exact E5]. reflexivity.
Qed.
Lemma mark_used_ok s : rep s → mark_used s = Some (tt, Mk (cview s) 1000 (freeinode s) (freeblock s)).
Proof.
  intros Hs. pose proof (r_free _ Hs). unfold mark_used, mk_balloc.
  rewrite (proj2 (Z.ltb_lt (freeblock s) (Z.of_nat BSIZE * 8))) by (change (Z.of_nat BSIZE * 8) with 4096; lia).
  erewrite kbind_Some; [|reflexivity]. unfold wsect. rewrite (r_sect _ Hs). reflexivity.
Qed.
Lemma mkfs_run fs :
  Forall good fs → (length fs < 199)%nat → Z.of_nat (2 + length fs) mod 32 ≠ 0 →
  total ((T_DIR, concat (root_dir fs)) :: host_files fs) ≤ 941 →
  ∃ s0 s, mkfs fs = Some s ∧ img s = cview s0 ∧ nsect s = 1000 ∧ freeblock s = freeblock s0 ∧
    image s0 ((T_DIR, concat (root_dir fs) ++ pad (concat (root_dir fs))) :: host_files fs).
Proof.
  intros Hg Hlen Hmod Hroom. destruct (root_dir_length fs) as [Hrl Hr16]. pose proof (concat_length16 _ Hr16) as Hcl. rewrite Hrl in Hcl.
  destruct (mkfs_files fs Hg Hlen Hroom) as (s5 & E5 & Him5). destruct (image_fix_root s5 _ _ Him5) as (s6 & E6 & Him6).
  { rewrite Hcl. clear - Hmod. Z.to_euclidean_division_equations; lia. }
  exists s6, (Mk (cview s6) 1000 (freeinode s6) (freeblock s6)). split_and!; [|done|done|done|exact Him6]. rewrite E5.
  erewrite kbind_Some; [|exact E6]. by rewrite (mark_used_ok s6 (im_rep _ _ Him6)).
Qed.

(** The entries of a directory, from its bytes. *)
Lemma file_bytes_data V i off n :
  0 ≤ off → 0 ≤ n → off + n ≤ isize i → file_bytes V i off n = take (Z.to_nat n) (drop (Z.to_nat off) (file_data V i)).
Proof.
  intros Ho Hn Hle. unfold file_data. rewrite (file_bytes_app V i 0 off (isize i)) by lia. rewrite drop_app_length' by (rewrite length_file_bytes; lia).
  rewrite Z.add_0_l, (file_bytes_app V i off n (isize i - off)) by lia. by rewrite take_app_length' by (rewrite length_file_bytes; lia).
Qed.
Lemma concat_nth16 (es : list (list Z)) k e :
  Forall (λ e, length e = 16%nat) es → es !! k = Some e → take 16 (drop (16 * k) (concat es)) = e.
Proof.
  intros H16. revert k. induction H16 as [|e' es He _ IH]; intros [|k] Hk; cbn in Hk; try done; cbn [concat].
  - simplify_eq. rewrite drop_0. by apply take_app_length'.
  - replace (16 * S k)%nat with (length e' + 16 * k)%nat by lia. rewrite drop_app_add. by apply IH.
Qed.
Lemma entries_data V i es :
  0 ≤ isize i → file_data V i = concat es → Forall (λ e, length e = 16%nat) es → entries V i = es.
Proof.
  intros Hz Hd H16. pose proof (length_file_data V i) as Hl. rewrite Hd, concat_length16 in Hl by done.
  assert (isize i / 16 = Z.of_nat (length es)) as Hn by (Z.to_euclidean_division_equations; lia). apply list_eq. intros k. unfold entries.
  rewrite list_lookup_fmap, Hn, Nat2Z.id. destruct (decide (k < length es)%nat) as [Hk|Hk].
  - rewrite lookup_seq_lt by done. destruct (lookup_lt_is_Some_2 es k Hk) as [e He]. rewrite He. cbn. f_equal. unfold entry.
    rewrite file_bytes_data, Hd by lia. rewrite <- (concat_nth16 es k e H16 He). do 2 f_equal; lia.
  - rewrite lookup_seq_ge, lookup_ge_None_2 by lia. done.
Qed.
Lemma pad_entries (es : list (list Z)) :
  Forall (λ e, length e = 16%nat) es → Z.of_nat (length es) mod 32 ≠ 0 → ∃ m, concat es ++ pad (concat es) = concat (es ++ replicate m (replicate 16 0)).
Proof.
  intros H16 Hmod. exists (Z.to_nat ((Z.of_nat (length es) / 32 + 1) * 32 - Z.of_nat (length es))). rewrite concat_app. f_equal. unfold pad.
  rewrite concat_length16 by done. set (m := Z.to_nat _) at 2.
  replace (Z.to_nat _) with (16 * m)%nat by (unfold m; clear - Hmod; Z.to_euclidean_division_equations; lia). generalize m. clear. intros m.
  induction m as [|m IH]; [done|]. rewrite (replicate_S m). cbn [concat]. rewrite <- IH, <- replicate_add. f_equal. lia.
Qed.

(** C7: the image that [mkfs] writes is a good file system.  When the files of the host
    can be read and fit, with fewer than 199 of them and a root directory that does
    not end at the end of a block, [mkfs] succeeds, and the image it writes has the
    superblock of its layout, a bitmap in which exactly the blocks in front of
    [freeblock] are marked, a root directory with [.], [..] and one entry for each
    file in order, and in inode [2 + k] a regular file with the bytes of file [k];
    every file satisfies what the kernel's file system asks of files, and no block
    belongs to two of them. *)
Theorem mkfs_image fs :
  Forall good fs → (length fs < 199)%nat → Z.of_nat (2 + length fs) mod 32 ≠ 0 →
  total ((T_DIR, concat (root_dir fs)) :: host_files fs) ≤ nblocks →
  ∃ s, mkfs fs = Some s ∧ let V := img s in
    nsect s = FSSIZE ∧ (∀ m, length (V m) = BSIZE ∧ bytes (V m)) ∧ fslayout layout sb ∧ sb_of (V 1) = sb ∧
    meta_marked sb V ∧ (∀ b, 0 ≤ b < FSSIZE → marked sb V b = (b <? freeblock s)) ∧
    (dir_ok sb V (ino V ROOTINO) ∧ ∃ m, entries V (ino V ROOTINO) = root_dir fs ++ replicate m (replicate 16 0)) ∧
    (∀ k f, fs !! k = Some f → let i := ino V (2 + Z.of_nat k) in
       file_ok sb V i ∧ itype i = T_FILE ∧ nlink i = 1 ∧ file_data V i = contents f) ∧
    (∀ j k b, (j ≤ length fs)%nat → (k ≤ length fs)%nat → j ≠ k →
       owns V (ino V (1 + Z.of_nat j)) b → ¬ owns V (ino V (1 + Z.of_nat k)) b).
Proof.
  intros Hg Hlen Hmod Hroom. destruct (mkfs_run fs Hg Hlen Hmod Hroom) as (s0 & s & E & HV & Hn & Hfb & Him). exists s. split; [done|]. cbv zeta. rewrite HV.
  pose proof (im_rep _ _ Him) as Hs. destruct (root_dir_length fs) as [Hrl Hr16].
  assert (∀ k, (k ≤ length fs)%nat → (k < length ((T_DIR, concat (root_dir fs) ++ pad (concat (root_dir fs))) :: host_files fs))%nat) as Hll.
  { intros k Hk. cbn [length]. unfold host_files. rewrite length_map. lia. }
  pose proof (im_file _ _ Him 0%nat _ _ eq_refl) as Hroot. change (1 + Z.of_nat 0) with ROOTINO in Hroot.
  pose proof (isize_data _ _ _ _ Hroot) as Hsz.
  split_and!; [done| |apply mk_layout_ok| |by apply cview_meta| | | | |].
  - intros m. split; [by apply cview_length|by apply cview_bytes].
  - rewrite (im_super _ _ Him). apply super_ok.
  - intros b Hb. rewrite Hfb. by apply cview_marked.
  - split; [apply (h_ok _ _ _ _ Hroot)|apply (h_type _ _ _ _ Hroot)|]. rewrite Hsz, pad_length.
    + replace ((_ / 512 + 1) * 512) with ((Z.of_nat (length (concat (root_dir fs))) / 512 + 1) * 32 * 16) by lia. apply Z_mod_mult.
    + rewrite concat_length16, Hrl by done. clear - Hmod. Z.to_euclidean_division_equations; lia.
  - destruct (pad_entries (root_dir fs) Hr16) as [m Hm]; [by rewrite Hrl|]. exists m.
    apply entries_data; [lia|rewrite (h_data _ _ _ _ Hroot); exact Hm|]. apply Forall_app. split; [done|]. by apply Forall_replicate.
  - intros k f Hk. assert (host_files fs !! k = Some (T_FILE, contents f)) as Hf by (unfold host_files; rewrite list_lookup_fmap, Hk; done).
    pose proof (im_file _ _ Him (S k) _ _ Hf) as Hh. replace (1 + Z.of_nat (S k)) with (2 + Z.of_nat k) in Hh by lia.
    split; [apply (h_ok _ _ _ _ Hh)|]. split; [apply (h_type _ _ _ _ Hh)|]. split; [apply (h_nlink _ _ _ _ Hh)|apply (h_data _ _ _ _ Hh)].
  - intros j k b Hj Hk. apply (im_sep _ _ Him); by apply Hll.
Qed.

(** a root directory that ends at the end of a block. [mkfs] rounds its size up
    by a whole block then: the directory's last block has no disk block, so that
    its size is not covered and the kernel allocates a block when it only reads
    the directory. *)
Theorem mkfs_root_hole fs :
  Forall good fs → (length fs < 199)%nat → Z.of_nat (2 + length fs) mod 32 = 0 →
  total ((T_DIR, concat (root_dir fs)) :: host_files fs) ≤ nblocks →
  ∃ s, mkfs fs = Some s ∧ let i := ino (img s) ROOTINO in let bn := Z.of_nat (2 + length fs) / 32 in
    bn * 512 < isize i ∧ blk_addr (img s) i bn = 0 ∧ ¬ file_ok sb (img s) i.
Proof.
  intros Hg Hlen Hmod Hroom. destruct (root_dir_length fs) as [Hrl Hr16]. pose proof (concat_length16 _ Hr16) as Hcl. rewrite Hrl in Hcl.
  destruct (mkfs_files fs Hg Hlen Hroom) as (s5 & E5 & Him5). pose proof (im_rep _ _ Him5) as Hs5.
  pose proof (im_file _ _ Him5 0%nat _ _ eq_refl) as Hh. change (1 + Z.of_nat 0) with 1 in Hh. pose proof (isize_data _ _ _ _ Hh) as Hsz.
  set (bn := Z.of_nat (2 + length fs) / 32). assert (0 ≤ bn < 10) as Hbr by (unfold bn; clear - Hlen; Z.to_euclidean_division_equations; lia).
  assert (isize (ino (cview s5) 1) = bn * 512) as Hz by (rewrite Hsz, Hcl; unfold bn; clear - Hmod; Z.to_euclidean_division_equations; lia).
  set (i' := set_isize ((bn + 1) * 512) (ino (cview s5) 1)). destruct (winode_ok s5 1 (to_dinode i') Hs5) as (s6 & E6 & Hs6 & HV & _); [lia|].
  assert (fix_root s5 = Some (tt, s6)) as Efr.
  { unfold fix_root. change ROOTINO with 1. erewrite kbind_Some; [|by apply rinode_ok; [|lia]]. cbv zeta. rewrite <- ino_dinode.
    change (d_size (to_dinode (ino (cview s5) 1))) with (isize (ino (cview s5) 1)). rewrite Hz. change (Z.of_nat BSIZE) with 512.
    rewrite Z.div_mul by lia. unfold xint. rewrite u32_small by lia. exact E6. }
  exists (Mk (cview s6) 1000 (freeinode s6) (freeblock s6)). split; [rewrite E5; erewrite kbind_Some; [|exact Efr]; by rewrite (mark_used_ok s6 Hs6)|].
  cbv zeta. cbn [img]. fold bn. change ROOTINO with 1.
  assert (dinode_ok (to_dinode i')) as Hdok.
  { destruct (fo_dinode _ _ _ (h_ok _ _ _ _ Hh)). split; try assumption. change (uint ((bn + 1) * 512)). unfold uint. lia. }
  assert (ino (cview s6) 1 = i') as Hi'.
  { unfold ino. rewrite HV, disk_inode_view; [|lia|lia|by apply cview_length|exact Hdok]. by rewrite decide_True. }
  assert (blk_addr (cview s6) i' bn = 0) as H0.
  { rewrite HV. unfold inode_view. etrans; [apply (blk_addr_low layout sb mk_layout_ok (cview s5) (ino (cview s5) 1));
      [apply (h_ok _ _ _ _ Hh)|rewrite bmapstart_eq; pose proof (iblk_low 1 ltac:(lia)); lia]|].
    destruct (h_full _ _ _ _ Hh) as [Hf _]. destruct (decide (blk_addr (cview s5) (ino (cview s5) 1) bn = 0)) as [?|Hne]; [done|].
    apply Hf in Hne; [lia|unfold MAXFILE; lia]. }
  rewrite Hi'. cbn [isize i' set_isize]. split; [lia|]. split; [done|]. intros Hok. apply (fo_map _ _ _ Hok bn); [lia| |done].
  change (Z.of_nat BSIZE) with 512. cbn [isize i' set_isize]. lia.
Qed.

Module SampleImage.
Definition two : list source := [([95; 97], Some [[104; 105]; [10]]); ([98], Some [])].
Definition thirty : list source := replicate 30 ([98], Some []).

Lemma good_ok f : match snd f with Some cs => forallb (λ c, negb (bool_decide (c = [])) && forallb (λ x, (0 <=? x) && (x <? 256)) c) cs &&
    (Z.of_nat (length (concat cs)) <=? MAXFILE * 512) | None => false end && negb (bool_decide (47 ∈ fst f)) && forallb (λ x, (0 <=? x) && (x <? 256)) (fst f) = true → good f.
Proof.
  assert (∀ l, forallb (λ x, (0 <=? x) && (x <? 256)) l = true → bytes l) as Hb.
  { intros l Hl. rewrite forallb_forall in Hl. apply Forall_forall. intros x Hx. apply list_elem_of_In, Hl in Hx. apply andb_prop in Hx as [? ?]. lia. }
  destruct f as [name [cs|]]; cbn [fst snd]; [|done]. intros H. apply andb_prop in H as [H H4]. apply andb_prop in H as [H H3]. apply andb_prop in H as [H1 H2].
  exists cs. split; [done|]. split; [|split; [lia|split; [|by apply Hb]]].
  - rewrite forallb_forall in H1. apply Forall_forall. intros c Hc. apply list_elem_of_In, H1, andb_prop in Hc as [Hn Hc].
    split; [|by apply Hb]. by apply negb_true_iff, bool_decide_eq_false in Hn.
  - by apply negb_true_iff, bool_decide_eq_false in H3.
Qed.

Lemma mkfs_image_witness :
  Forall good two ∧ ∃ s, mkfs two = Some s ∧ file_data (img s) (ino (img s) 2) = [104; 105; 10] ∧
    ∃ m, entries (img s) (ino (img s) 1) = [dirent 1 [46]; dirent 1 [46; 46]; dirent 2 [97]; dirent 3 [98]] ++ replicate m (replicate 16 0).
Proof.
  assert (Forall good two) as Hg by (repeat (constructor; [apply good_ok; vm_compute; reflexivity|]); constructor).
  split; [exact Hg|]. destruct (mkfs_image two Hg) as (s & E & _ & _ & _ & _ & _ & _ & [_ Hdir] & Hf & _); [cbn; lia|by vm_compute|by vm_compute|].
  exists s. split; [exact E|]. split; [apply (Hf 0%nat _ eq_refl)|exact Hdir].
Defined.
Lemma mkfs_root_hole_witness :
  Forall good thirty ∧ ∃ s, mkfs thirty = Some s ∧ 512 < isize (ino (img s) 1) ∧ blk_addr (img s) (ino (img s) 1) 1 = 0.
Proof.
  assert (Forall good thirty) as Hg by (repeat (constructor; [apply good_ok; vm_compute; reflexivity|]); constructor).
  split; [exact Hg|]. destruct (mkfs_root_hole thirty Hg) as (s & E & H1 & H2 & _); [cbn; lia|by vm_compute|by vm_compute|].
  exists s. split; [exact E|]. split; [exact H1|exact H2].
Defined.
End SampleImage.
