(* ===== verification/Uprogs.v ===== *)
(** * Small user programs

    [cat.c], [wc.c], [echo.c], [rm.c], [mkdir.c], [ln.c], [kill.c], [ls.c],
    [encode.c] and [decode.c] over the calls of [Ulib].  The arguments of a program
    are those after its name. *)

From S2P Require Import Prelude Bytes Str Fs Ulib.

Section Programs.
Context {os : Type} `{Posix os}.

(** A message and the end of the program. *)
Definition fail_with (fd : Z) (fmt : string) (args : list uarg) : U os unit := printf fd fmt args;; exit.

(** ** cat *)

Fixpoint cat (fuel : nat) (fd : Z) : U os unit :=
  match fuel with
  | O => undefined
  | S fuel =>
      r ← read fd 512;
      if 0 <? fst r then
        w ← write 1 (snd r);
        if negb (w =? fst r) then fail_with 1 "cat: write error
" []
        else cat fuel fd
      else if fst r <? 0 then fail_with 1 "cat: read error
" []
      else mret tt
  end.
Fixpoint cat_files (fuel : nat) (files : list (list Z)) : U os unit :=
  match files with
  | [] => exit
  | f :: files =>
      fd ← open f 0;
      if fd <? 0 then fail_with 1 "cat: cannot open %s
" [AStr (Some f)]
      else
        cat fuel fd;;
        close fd;;
        cat_files fuel files
  end.
Definition cat_main (fuel : nat) (files : list (list Z)) : U os unit :=
  match files with
  | [] => cat fuel 0;; exit
  | _ => cat_files fuel files
  end.

(** ** wc *)

(** [l], [w], [c] and [inword]. *)
Record counts := Counts { cl : Z; cw : Z; cc : Z; inword : bool }.
Definition wc_spaces : list Z := [32; 13; 9; 10; 11].
Definition wc_byte (k : counts) (b : Z) : counts :=
  let c := i32 (cc k + 1) in
  let l := if b =? 10 then i32 (cl k + 1) else cl k in
  match strchr wc_spaces b with
  | Some _ => Counts l (cw k) c false
  | None => if inword k then Counts l (cw k) c true else Counts l (i32 (cw k + 1)) c true
  end.
Fixpoint wc_loop (fuel : nat) (fd : Z) (k : counts) : U os (Z * counts) :=
  match fuel with
  | O => undefined
  | S fuel =>
      r ← read fd 512;
      if 0 <? fst r then wc_loop fuel fd (foldl wc_byte k (take (Z.to_nat (fst r)) (snd r)))
      else mret (fst r, k)
  end.
Definition wc (fuel : nat) (fd : Z) (name : list Z) : U os unit :=
  r ← wc_loop fuel fd (Counts 0 0 0 false);
  if fst r <? 0 then fail_with 1 "wc: read error
" []
  else
    let k := snd r in
    printf 1 "%d %d %d %s
" [AWord (cl k); AWord (cw k); AWord (cc k); AStr (Some name)].
Fixpoint wc_files (fuel : nat) (files : list (list Z)) : U os unit :=
  match files with
  | [] => exit
  | f :: files =>
      fd ← open f 0;
      if fd <? 0 then fail_with 1 "wc: cannot open %s
" [AStr (Some f)]
      else
        wc fuel fd f;;
        close fd;;
        wc_files fuel files
  end.
Definition wc_main (fuel : nat) (files : list (list Z)) : U os unit :=
  match files with
  | [] => wc fuel 0 [];; exit
  | _ => wc_files fuel files
  end.

(** ** echo, rm, mkdir, ln and kill *)

Fixpoint echo_main (args : list (list Z)) : U os unit :=
  match args with
  | [] => exit
  | a :: args =>
      printf 1 "%s%s" [AStr (Some a); AStr (Some (match args with [] => [10] | _ => [32] end))];;
      echo_main args
  end.

(** The loop of [rm] and [mkdir]: the first failure ends it. *)
Fixpoint each_file (f : list Z → U os Z) (msg : string) (args : list (list Z)) : U os unit :=
  match args with
  | [] => exit
  | a :: args =>
      r ← f a;
      if r <? 0 then printf 2 msg [AStr (Some a)];; exit
      else each_file f msg args
  end.
Definition rm_main (args : list (list Z)) : U os unit :=
  match args with
  | [] => fail_with 2 "Usage: rm files...
" []
  | _ => each_file unlink "rm: %s failed to delete
" args
  end.
Definition mkdir_main (args : list (list Z)) : U os unit :=
  match args with
  | [] => fail_with 2 "Usage: mkdir files...
" []
  | _ => each_file mkdir "mkdir: %s failed to create
" args
  end.

Definition ln_main (args : list (list Z)) : U os unit :=
  match args with
  | [old; new] =>
      r ← link old new;
      if r <? 0 then
        printf 2 "link %s %s: failed
" [AStr (Some old); AStr (Some new)];; exit
      else exit
  | _ => fail_with 2 "Usage: ln old new
" []
  end.

Fixpoint kill_each (args : list (list Z)) : U os unit :=
  match args with
  | [] => exit
  | a :: args => kill (atoi a);; kill_each args
  end.
Definition kill_main (args : list (list Z)) : U os unit :=
  match args with
  | [] => fail_with 2 "usage: kill pid...
" []
  | _ => kill_each args
  end.

(** ** ls *)

(** The part of the path after its last slash. *)
Fixpoint base_name (path : list Z) : list Z :=
  match path with
  | [] => []
  | c :: path' => if decide (slash ∈ path') then base_name path' else if c =? slash then path' else path
  end.
Definition fmtname (path : list Z) : list Z :=
  let p := base_name path in
  if (DIRSIZ <=? length p)%nat then p else p ++ replicate (DIRSIZ - length p) 32.

Definition ls_line (name : list Z) (st : ustat) : U os unit :=
  printf 1 "%s %d %d %d
" [AStr (Some name); AWord (ust_type st); AWord (ust_ino st); AWord (ust_size st)].
(** The loop over the entries of directory [path]. *)
Fixpoint ls_entries (fuel : nat) (fd : Z) (path : list Z) : U os unit :=
  match fuel with
  | O => undefined
  | S fuel =>
      r ← read fd (Z.of_nat sizeof_dirent);
      if negb (fst r =? Z.of_nat sizeof_dirent) then mret tt
      else if de_inum (snd r) =? 0 then ls_entries fuel fd path
      else
        let buf := path ++ slash :: name_of (take DIRSIZ (de_name (snd r))) in
        st ← stat buf;
        (if fst st <? 0 then printf 1 "ls: cannot stat %s
" [AStr (Some buf)]
         else ls_line (fmtname buf) (snd st));;
        ls_entries fuel fd path
  end.
Definition ls (fuel : nat) (path : list Z) : U os unit :=
  fd ← open path 0;
  if fd <? 0 then printf 2 "ls: cannot open %s
" [AStr (Some path)]
  else
    st ← fstat fd;
    if fst st <? 0 then
      printf 2 "ls: cannot stat %s
" [AStr (Some path)];;
      close fd;;
      mret tt
    else
      (if ust_type (snd st) =? T_FILE then ls_line (fmtname path) (snd st)
       else if ust_type (snd st) =? T_DIR then
         if 512 <? Z.of_nat (length path) + 1 + Z.of_nat DIRSIZ + 1 then printf 1 "ls: path too long
" []
         else ls_entries fuel fd path
       else mret tt);;
      close fd;;
      mret tt.
Fixpoint ls_each (fuel : nat) (args : list (list Z)) : U os unit :=
  match args with
  | [] => exit
  | a :: args => ls fuel a;; ls_each fuel args
  end.
Definition ls_main (fuel : nat) (args : list (list Z)) : U os unit :=
  match args with
  | [] => ls fuel [46];; exit
  | _ => ls_each fuel args
  end.

(** ** encode and decode *)

Definition cipher_key : Z := (90 + 14 + 57) mod 26.
(** A letter moved [k] places in the alphabet; [c] is a [char]. *)
Definition shift_char (k c : Z) : Z :=
  if ((64 <? i8 c) && (i8 c <? 91))%bool then u8 (Z.rem (i8 c - 65 + k) 26 + 65)
  else if ((96 <? i8 c) && (i8 c <? 123))%bool then u8 (Z.rem (i8 c - 97 + k) 26 + 97)
  else c.
Definition encode_char : Z → Z := shift_char cipher_key.
Definition decode_char : Z → Z := shift_char (26 - cipher_key).

Fixpoint cipher_words (f : Z → Z) (fd : Z) (args : list (list Z)) : U os unit :=
  match args with
  | [] => mret tt
  | a :: args =>
      write fd (map f a);;
      write fd [32];;
      cipher_words f fd args
  end.
Definition O_CREATE_RDWR : Z := 514.
(** [main] of both programs, which differ in what they do to a letter. *)
Definition cipher_main (f : Z → Z) (args : list (list Z)) : U os unit :=
  unlink (lit "result.txt");;
  fd ← open (lit "result.txt") O_CREATE_RDWR;
  if fd <? 0 then fail_with 2 "strdiff: cannot open/create result.txt
" []
  else
    cipher_words f fd args;;
    write fd [10];;
    close fd;;
    exit.
Definition encode_main : list (list Z) → U os unit := cipher_main encode_char.
Definition decode_main : list (list Z) → U os unit := cipher_main decode_char.
End Programs.

(** ** Theorems *)

(** [cat] copies. Whatever the sizes of the reads, [cat] returns after it has
    written to its output the whole of what its input had, in order. *)
Theorem cat_spec {os} `{Posix os, Streams os, !WriteOk os, !ReadOk os} fd fuel (o : os) :
  (length (input fd o) < fuel)%nat →
  ∃ o', cat fuel fd o = Returns tt o' ∧ output 1 o' = output 1 o ++ input fd o ∧ input fd o' = [].
Proof.
  revert o; induction fuel as [|fuel IH]; intros o Hf; [lia|]. cbn [cat].
  destruct (read_spec fd 512 o) as (k & o1 & E & Hk & Hkn & Hpos & Hi & _ & Ho); [lia|].
  erewrite ubind_returns by (unfold read, call; rewrite E; reflexivity). cbn [fst snd].
  destruct (decide (input fd o = [])) as [Hd|Hd].
  { assert (k = 0%nat) as -> by (rewrite Hd in Hk; simpl in Hk; lia).
    change (0 <? Z.of_nat 0) with false. change (Z.of_nat 0 <? 0) with false. cbv iota. exists o1. split; [done|].
    rewrite Ho, Hi, Hd, app_nil_r. done. }
  specialize (Hpos Hd). rewrite (proj2 (Z.ltb_lt 0 (Z.of_nat k))) by lia.
  destruct (write_wrote 1 (take k (input fd o)) o1) as (o2 & E2 & W & _ & I2).
  rewrite (ubind_returns _ _ _ _ _ E2), length_take, Nat.min_l, Z.eqb_refl by lia. cbn [negb].
  destruct (IH o2) as (o3 & E3 & W3 & I3); [rewrite I2, Hi, length_drop; lia|].
  exists o3. split; [done|]. split; [|done]. by rewrite W3, W, Ho, I2, Hi, <- app_assoc, take_drop.
Qed.

(** The newlines and the words of a text; [sp] says that a space comes before it. *)
Definition newlines (d : list Z) : Z := Z.of_nat (length (filter (λ b, b = 10) d)).
Fixpoint words (sp : bool) (d : list Z) : Z :=
  match d with
  | [] => 0
  | b :: d => if decide (b ∈ wc_spaces) then words true d else (if sp then 1 else 0) + words false d
  end.

Lemma newlines_cons b d : newlines (b :: d) = (if b =? 10 then 1 else 0) + newlines d.
Proof.
  unfold newlines. destruct (Z.eqb_spec b 10); [rewrite filter_cons_True by done; cbn [length]; lia|by rewrite filter_cons_False by done].
Qed.
Lemma counts_bound d sp : 0 ≤ newlines d ≤ Z.of_nat (length d) ∧ 0 ≤ words sp d ≤ Z.of_nat (length d).
Proof.
  revert sp; induction d as [|b d IH]; intros sp; [done|]. rewrite newlines_cons. cbn [words length].
  pose proof (IH true). pose proof (IH false). split; [destruct (b =? 10); lia|]. case_decide; [lia|]. destruct sp; lia.
Qed.

Lemma wc_fold d : ∀ k, 0 ≤ cl k → 0 ≤ cw k → 0 ≤ cc k →
  cl k + Z.of_nat (length d) < 2147483648 → cw k + Z.of_nat (length d) < 2147483648 → cc k + Z.of_nat (length d) < 2147483648 →
  let k' := foldl wc_byte k d in
  cl k' = cl k + newlines d ∧ cw k' = cw k + words (negb (inword k)) d ∧ cc k' = cc k + Z.of_nat (length d) ∧
  ∀ d', words (negb (inword k)) (d ++ d') = words (negb (inword k)) d + words (negb (inword k')) d'.
Proof.
  induction d as [|b d IH]; intros k Hl Hw Hc Hl' Hw' Hc'; cbn [foldl].
  { unfold newlines. cbn. split_and!; try lia. }
  cbn [length] in *. rewrite newlines_cons. cbn [words app].
  set (k1 := wc_byte k b). pose proof (strchr_in wc_spaces b) as Hs.
  assert (cc k1 = cc k + 1 ∧ cl k1 = (if b =? 10 then 1 else 0) + cl k ∧
    (if decide (b ∈ wc_spaces) then cw k1 = cw k ∧ inword k1 = false
     else cw k1 = (if negb (inword k) then 1 else 0) + cw k ∧ inword k1 = true)) as (Ec & El & Ew).
  { unfold k1, wc_byte. destruct (strchr wc_spaces b).
    - rewrite decide_True by done. cbn. rewrite i32_small by lia. destruct (b =? 10); rewrite ?i32_small by lia; split_and!; try done; lia.
    - rewrite decide_False by done. destruct (inword k); cbn; rewrite !i32_small by lia; destruct (b =? 10); split_and!; try done; lia. }
  destruct (IH k1) as (I1 & I2 & I3 & I4); [destruct (b =? 10); lia|case_decide; destruct (inword k); cbn in Ew; lia|lia
    |destruct (b =? 10); lia|case_decide; destruct (inword k); cbn in Ew; lia|lia|].
  rewrite I1, I2, I3, El, Ec. case_decide.
  - destruct Ew as [Ew Ei]. rewrite Ei in I4 |- *. cbn [negb] in *. split_and!; [lia|lia|lia|]. intros d'. rewrite I4. lia.
  - destruct Ew as [Ew Ei]. rewrite Ei in I4 |- *. cbn [negb] in *. split_and!; [lia|lia|lia|]. intros d'. rewrite I4. lia.
Qed.

Lemma wc_loop_ok {os} `{Posix os, Streams os, !WriteOk os, !ReadOk os} fd fuel : ∀ k (o : os),
  let d := input fd o in
  (length d < fuel)%nat → 0 ≤ cl k → 0 ≤ cw k → 0 ≤ cc k →
  cl k + Z.of_nat (length d) < 2147483648 → cw k + Z.of_nat (length d) < 2147483648 → cc k + Z.of_nat (length d) < 2147483648 →
  ∃ o' k', wc_loop fuel fd k o = Returns (0, k') o' ∧ (∀ fd', output fd' o' = output fd' o) ∧
    cl k' = cl k + newlines d ∧ cw k' = cw k + words (negb (inword k)) d ∧ cc k' = cc k + Z.of_nat (length d).
Proof.
  induction fuel as [|fuel IH]; intros k o d Hf Hl Hw Hc Hl' Hw' Hc'; [lia|]. cbn [wc_loop].
  destruct (read_spec fd 512 o) as (j & o1 & E & Hj & Hjn & Hpos & Hi & _ & Ho); [lia|]. fold d in E, Hj, Hpos, Hi.
  erewrite ubind_returns by (unfold read, call; rewrite E; reflexivity). cbn [fst snd].
  destruct (decide (d = [])) as [Hd|Hd].
  { assert (j = 0%nat) as -> by (rewrite Hd in Hj; simpl in Hj; lia). change (0 <? Z.of_nat 0) with false. cbv iota.
    exists o1, k. rewrite Hd. split; [done|]. split; [done|]. unfold newlines. cbn. lia. }
  specialize (Hpos Hd). rewrite (proj2 (Z.ltb_lt 0 (Z.of_nat j))), Nat2Z.id, take_take, Nat.min_id by lia.
  assert (length (take j d) = j) as Hlen by (rewrite length_take; lia).
  pose proof (counts_bound (take j d) (negb (inword k))) as [Hb1 Hb2]. rewrite Hlen in Hb1, Hb2.
  destruct (wc_fold (take j d) k) as (F1 & F2 & F3 & F4); [lia..|]. rewrite Hlen in F3.
  destruct (IH (foldl wc_byte k (take j d)) o1) as (o2 & k2 & E2 & O2 & G1 & G2 & G3); rewrite ?Hi, ?length_drop; try lia.
  exists o2, k2. split; [done|]. split; [intros fd'; by rewrite O2, Ho|]. rewrite G1, G2, G3, F1, F2, F3, Hi, length_drop.
  assert (words (negb (inword k)) d = words (negb (inword k)) (take j d) + words (negb (inword (foldl wc_byte k (take j d)))) (drop j d))
    as -> by (by rewrite <- F4, take_drop).
  assert (newlines d = newlines (take j d) + newlines (drop j d)) as ->; [|lia].
  rewrite <- (take_drop j d) at 1. unfold newlines. rewrite filter_app, length_app. lia.
Qed.

(** [wc] counts. For an input of less than 2 GiB it prints the number of
    newlines, of words and of bytes, a word being a maximal run of bytes that are
    not spaces, and the name. *)
Theorem wc_spec {os} `{Posix os, Streams os, !WriteOk os, !ReadOk os} fd fuel name (o : os) :
  let d := input fd o in
  (length d < fuel)%nat → Z.of_nat (length d) < 2147483648 →
  ∃ o' l, wc fuel fd name o = Returns tt o' ∧ output 1 o' = output 1 o ++ l ∧
    format "%d %d %d %s
" [AWord (newlines d); AWord (words true d); AWord (Z.of_nat (length d)); AStr (Some name)] = Some l.
Proof.
  intros d Hf Hd. unfold wc.
  destruct (wc_loop_ok fd fuel (Counts 0 0 0 false) o) as (o1 & k & E & Ho & Hl & Hw & Hc); try done.
  rewrite (ubind_returns _ _ _ _ _ E). cbn [fst snd]. change (0 <? 0) with false. cbv iota. cbn [cl cw cc inword negb] in *.
  fold d in Hl, Hw, Hc. rewrite Hl, Hw, Hc, !Z.add_0_l.
  set (args := [AWord _; AWord _; AWord _; AStr _]).
  assert (∃ l, format "%d %d %d %s
" args = Some l) as [l Hfm] by (unfold format; simpl; eauto).
  destruct (printf_wrote 1 _ _ _ o1 Hfm) as (o2 & E2 & W & _). exists o2, l. split; [done|]. split; [|done]. by rewrite W, Ho.
Qed.

Lemma decode_encode c : 0 ≤ c < 256 → decode_char (encode_char c) = c ∧ 0 ≤ encode_char c < 256.
Proof.
  intros Hc. assert (forallb (λ c, (decode_char (encode_char c) =? c) && (0 <=? encode_char c) && (encode_char c <? 256))%bool
    (map Z.of_nat (seq 0 256)) = true) as Hall by (vm_compute; reflexivity).
  rewrite forallb_forall in Hall. specialize (Hall c). rewrite !andb_true_iff, Z.eqb_eq, Z.leb_le, Z.ltb_lt in Hall.
  destruct Hall as [[? ?] ?]; [|done]. apply in_map_iff. exists (Z.to_nat c). split; [lia|]. apply in_seq. lia.
Qed.

(** The file the two programs write. *)
Definition result_text (ws : list (list Z)) : list Z := concat (map (λ w, w ++ [32]) ws) ++ [10].

(** The file opens, and is then empty; closing it changes nothing. *)
Class ResultOk (os : Type) `{Posix os, Streams os} := {
  result_open o : ∃ fd o1, p_open (lit "result.txt") O_CREATE_RDWR (snd (p_unlink (lit "result.txt") o)) = (fd, o1) ∧
    0 ≤ fd ∧ output fd o1 = [];
  result_close fd fd' o : output fd' (snd (p_close fd o)) = output fd' o }.

Lemma cipher_words_wrote {os} `{Posix os, Streams os, !WriteOk os} f fd args : ∀ o : os,
  ∃ o', cipher_words f fd args o = Returns tt o' ∧ wrote fd (concat (map (λ w, map f w ++ [32]) args)) o o'.
Proof.
  induction args as [|a args IH]; intros o; cbn [cipher_words map concat]; [exists o; split; [done|apply wrote_nil]|].
  destruct (write_wrote fd (map f a) o) as (o1 & E1 & W1). destruct (write_wrote fd [32] o1) as (o2 & E2 & W2).
  destruct (IH o2) as (o3 & E3 & W3). exists o3. rewrite (ubind_returns _ _ _ _ _ E1), (ubind_returns _ _ _ _ _ E2).
  split; [done|]. rewrite <- app_assoc. eapply wrote_app; [exact W1|]. by eapply wrote_app.
Qed.

Lemma cipher_main_ok {os} `{Posix os, Streams os, !WriteOk os, !ResultOk os} f args (o : os) :
  ∃ fd o', cipher_main f args o = Exits o' ∧ output fd o' = result_text (map (map f) args).
Proof.
  destruct (result_open o) as (fd & o1 & E1 & Hfd & Ho1). unfold cipher_main.
  destruct (p_unlink (lit "result.txt") o) as [r o0] eqn:Eu. cbn [snd] in E1.
  erewrite ubind_returns by (unfold unlink, call; rewrite Eu; reflexivity).
  erewrite ubind_returns by (unfold open, call; rewrite E1; reflexivity). rewrite (proj2 (Z.ltb_ge fd 0)) by lia.
  destruct (cipher_words_wrote f fd args o1) as (o2 & E2 & W2). rewrite (ubind_returns _ _ _ _ _ E2).
  destruct (write_wrote fd [10] o2) as (o3 & E3 & W3). rewrite (ubind_returns _ _ _ _ _ E3).
  destruct (p_close fd o3) as [r' o4] eqn:Ec. erewrite ubind_returns by (unfold close, call; rewrite Ec; reflexivity).
  exists fd, o4. split; [done|]. pose proof (result_close fd fd o3) as Hcl. rewrite Ec in Hcl. cbn [snd] in Hcl.
  destruct W3 as [W3 _], W2 as [W2 _]. rewrite Hcl, W3, W2, Ho1. unfold result_text. cbn [app]. do 2 f_equal. by rewrite map_map.
Qed.

(** decoding undoes encoding. [encode] writes the encoded words to the file;
    [decode] of those words writes the words that [encode] was given. *)
Theorem encode_decode {os} `{Posix os, Streams os, !WriteOk os, !ResultOk os} args (o : os) :
  Forall bytes args →
  ∃ ws fd o1, encode_main args o = Exits o1 ∧ output fd o1 = result_text ws ∧
  ∃ fd' o2, decode_main ws o1 = Exits o2 ∧ output fd' o2 = result_text args.
Proof.
  intros Hb. destruct (cipher_main_ok encode_char args o) as (fd & o1 & E1 & W1).
  destruct (cipher_main_ok decode_char (map (map encode_char) args) o1) as (fd' & o2 & E2 & W2).
  exists (map (map encode_char) args), fd, o1. split; [done|]. split; [done|]. exists fd', o2. split; [done|].
  rewrite W2. f_equal. rewrite map_map. rewrite <- (map_id args) at 2. apply map_ext_in. intros w Hw%list_elem_of_In.
  rewrite Forall_forall in Hb. specialize (Hb w Hw). rewrite map_map. rewrite <- (map_id w) at 2. apply map_ext_in.
  intros c Hc%list_elem_of_In. unfold bytes in Hb. rewrite Forall_forall in Hb. by apply decode_encode, Hb.
Qed.

(** ** Samples *)

Module SamplePrograms.
Import SampleOs.

#[export] Instance files_result : ResultOk files.
Proof.
  split; [|done]. intros o. cbn [p_unlink p_open files_posix snd fnames]. rewrite lookup_delete_eq.
  change (O_CREATE_RDWR =? 0) with false. cbv iota. eexists _, _. split; [reflexivity|]. split; [lia|apply fd_of_insert].
Qed.

Definition file : files := Files ∅ {[0 := lit "one two
three"]} ∅ 3.

Lemma cat_spec_witness : ∃ o', cat 100 0 file = Returns tt o' ∧ output 1 o' = lit "one two
three".
Proof.
  destruct (cat_spec 0 100 file) as (o' & E & Ho & _); [vm_compute; lia|]. exists o'. split; [exact E|]. rewrite Ho. vm_compute. reflexivity.
Defined.

Lemma wc_spec_witness : ∃ o', wc 100 0 (lit "f") file = Returns tt o' ∧ output 1 o' = lit "1 3 13 f
".
Proof.
  destruct (wc_spec 0 100 (lit "f") file) as (o' & l & E & Ho & Hl); [vm_compute; lia|vm_compute; reflexivity|].
  exists o'. split; [exact E|]. rewrite Ho. revert Hl. vm_compute. congruence.
Defined.

Lemma encode_decode_witness :
  ∃ ws o1 o2, encode_main [lit "Attack"; lit "at dawn!"] file = Exits o1 ∧ decode_main ws o1 = Exits o2 ∧ ∃ fd, output fd o2 = lit "Attack at dawn! 
".
Proof.
  destruct (encode_decode [lit "Attack"; lit "at dawn!"] file) as (ws & fd & o1 & E1 & _ & fd' & o2 & E2 & W2).
  - unfold bytes. apply (bool_decide_unpack _). vm_compute. exact I.
  - exists ws, o1, o2. split; [exact E1|]. split; [exact E2|]. exists fd'. rewrite W2. vm_compute. reflexivity.
Defined.
End SamplePrograms.
