(* ===== verification/Console.v ===== *)
(** * The console

    [console.c]: formatted output, the screen, and the line editor of the
    keyboard's interrupt handler with its cursor, history, copy and paste and
    calculator.  A load or store outside an array and the other operations that C
    leaves undefined stop the model. *)

From stdpp Require Import list_numbers.
From Stdlib Require Import QArith Qround.
From S2P Require Import Prelude Bytes Bio Log Txn Fs.
Local Open Scope Z_scope.

Definition BACKSPACE : Z := 0x100.
Definition LEFTARROW : Z := 0xe4.
Definition RIGHTARROW : Z := 0xe5.
Definition UPARROW : Z := 0xe2.
Definition DOWNARROW : Z := 0xe3.
(** [C('P')] and the like. *)
Definition Ctl (x : Z) : Z := x - 64.
Definition INPUT_BUF : nat := 128.

(** Where the operators and the two numbers of [12+3=?] are in the line. *)
Record NON := Non { sign_n1 : Z; sign_n2 : Z; S_n1 : Z; E_n1 : Z; S_n2 : Z; E_n2 : Z; op : Z }.

(** [struct Input]: the line buffer and the marks of copied characters, as bytes. *)
Record Input := In { ibuf : list Z; ibuf_copy : list Z; ir : Z; iw : Z; ie : Z; flag_copy : Z; flag_paste : Z }.

Record History := Hist { hist : list Input; hindex : Z; hcount : Z; hlast : Z }.

(** The statics of [console.c], the CGA memory and cursor, and the bytes sent to
    the serial port. *)
Record cstate := CS {
  input : Input; history : History; non : NON; lefts : Z; locking : Z; panicked : Z;
  crt : gmap Z Z; cursor : Z; serial : list Z }.

Definition input0 : Input := In (replicate INPUT_BUF 0) (replicate INPUT_BUF 0) 0 0 0 0 0.
Definition history0 : History := Hist (replicate 10 input0) (-1) 0 (-1).

Definition set_input (x : Input) (s : cstate) : cstate :=
  CS x (history s) (non s) (lefts s) (locking s) (panicked s) (crt s) (cursor s) (serial s).
Definition set_history (x : History) (s : cstate) : cstate :=
  CS (input s) x (non s) (lefts s) (locking s) (panicked s) (crt s) (cursor s) (serial s).
Definition set_non (x : NON) (s : cstate) : cstate :=
  CS (input s) (history s) x (lefts s) (locking s) (panicked s) (crt s) (cursor s) (serial s).
Definition set_lefts (x : Z) (s : cstate) : cstate :=
  CS (input s) (history s) (non s) x (locking s) (panicked s) (crt s) (cursor s) (serial s).
Definition set_locking (x : Z) (s : cstate) : cstate :=
  CS (input s) (history s) (non s) (lefts s) x (panicked s) (crt s) (cursor s) (serial s).
Definition set_crt (x : gmap Z Z) (s : cstate) : cstate :=
  CS (input s) (history s) (non s) (lefts s) (locking s) (panicked s) x (cursor s) (serial s).
Definition set_cursor (x : Z) (s : cstate) : cstate :=
  CS (input s) (history s) (non s) (lefts s) (locking s) (panicked s) (crt s) x (serial s).
Definition set_serial (x : list Z) (s : cstate) : cstate :=
  CS (input s) (history s) (non s) (lefts s) (locking s) (panicked s) (crt s) (cursor s) x.

Definition set_ibuf (x : list Z) (i : Input) : Input := In x (ibuf_copy i) (ir i) (iw i) (ie i) (flag_copy i) (flag_paste i).
Definition set_ibuf_copy (x : list Z) (i : Input) : Input := In (ibuf i) x (ir i) (iw i) (ie i) (flag_copy i) (flag_paste i).
Definition set_r (x : Z) (i : Input) : Input := In (ibuf i) (ibuf_copy i) x (iw i) (ie i) (flag_copy i) (flag_paste i).
Definition set_w (x : Z) (i : Input) : Input := In (ibuf i) (ibuf_copy i) (ir i) x (ie i) (flag_copy i) (flag_paste i).
Definition set_e (x : Z) (i : Input) : Input := In (ibuf i) (ibuf_copy i) (ir i) (iw i) x (flag_copy i) (flag_paste i).
Definition set_copy (x : Z) (i : Input) : Input := In (ibuf i) (ibuf_copy i) (ir i) (iw i) (ie i) x (flag_paste i).
Definition set_paste (x : Z) (i : Input) : Input := In (ibuf i) (ibuf_copy i) (ir i) (iw i) (ie i) (flag_copy i) x.
Definition upd_input (f : Input → Input) : M cstate unit := modify (λ s, set_input (f (input s)) s).

(** Undefined in C. *)
Definition undefined {S A} : M S A := panic "undefined behaviour".

Fixpoint for_each {S A} (l : list A) (f : A → M S unit) : M S unit :=
  match l with
  | [] => mret tt
  | x :: l => f x;; for_each l f
  end.
(** The values of an [int i] that starts at [i], while [c i]; at most [fuel]. *)
Fixpoint up (fuel : nat) (i : Z) (c : Z → bool) : list Z :=
  match fuel with
  | O => []
  | S fuel => if c i then i :: up fuel (i32 (i + 1)) c else []
  end.
Fixpoint down (fuel : nat) (i : Z) (c : Z → bool) : list Z :=
  match fuel with
  | O => []
  | S fuel => if c i then i :: down fuel (i32 (i - 1)) c else []
  end.
(** A loop over the bytes of a buffer leaves the buffer before it makes this many
    turns. *)
Definition turns : nat := 130.

(** [input.buf[i]] and [input.buf_copy[i]]. *)
Definition inside (i : Z) : bool := ((0 <=? i) && (i <? Z.of_nat INPUT_BUF))%bool.
Definition rd_buf (i : Z) : M cstate Z :=
  if inside i then gets (λ s, nth (Z.to_nat i) (ibuf (input s)) 0) else undefined.
Definition wr_buf (i : Z) (c : Z) : M cstate unit :=
  if inside i then upd_input (λ x, set_ibuf (<[Z.to_nat i := u8 c]> (ibuf x)) x) else undefined.
Definition rd_copy (i : Z) : M cstate Z :=
  if inside i then gets (λ s, nth (Z.to_nat i) (ibuf_copy (input s)) 0) else undefined.
Definition wr_copy (i : Z) (c : Z) : M cstate unit :=
  if inside i then upd_input (λ x, set_ibuf_copy (<[Z.to_nat i := u8 c]> (ibuf_copy x)) x) else undefined.

(** [(input.e - lefts) % INPUT_BUF]. *)
Definition at_cursor (s : cstate) : Z := u32 (ie (input s) - lefts s) mod Z.of_nat INPUT_BUF.

Definition rd_crt (i : Z) (s : cstate) : Z := default 0 (crt s !! i).
Definition wr_crt (i c : Z) : M cstate unit := modify (λ s, set_crt (<[i := c]> (crt s)) s).

(** ** The screen *)

(** The cursor register has 16 bits, written a byte at a time. *)
Definition write_cursor (pos : Z) : M cstate unit := modify (set_cursor (pos mod 65536)).

Definition update_cursor (move : Z) : M cstate unit :=
  pos ← gets cursor;
  write_cursor (if move =? 0 then pos - 1 else if move =? 1 then pos + 1 else pos).

(** [a[i] = a[i + d]] for the line buffer and the marks. *)
Definition shift_byte (d i : Z) : M cstate unit :=
  c ← rd_buf (i + d);
  wr_buf i c;;
  c ← rd_copy (i + d);
  wr_copy i c.

Definition shift_left_next_chars (pos : Z) : M cstate unit :=
  l ← gets lefts;
  for_each (seqZ (pos - 1) (l + 1)) (λ i, c ← gets (rd_crt (i + 1)); wr_crt i c);;
  e ← gets (λ s, ie (input s));
  for_each (up turns (i32 (e - l)) (λ i, u32 i <? e)) (shift_byte 1).

Definition shift_right_next_chars (pos : Z) : M cstate unit :=
  l ← gets lefts;
  for_each (reverse (seqZ (pos + 1) l)) (λ i, c ← gets (rd_crt (i - 1)); wr_crt i c);;
  e ← gets (λ s, ie (input s));
  for_each (down turns (i32 (e + 1)) (λ i, u32 (e - l) <? u32 i)) (shift_byte (-1)).

(** The [memmove] of 23 rows and the [memset] of the rest up to row 24. *)
Definition scroll (pos : Z) (m : gmap Z Z) : gmap Z Z :=
  let moved := foldl (λ m' i, <[i := default 0 (m !! (i + 80))]> m') m (seqZ 0 (23 * 80)) in
  foldl (λ m' i, <[i := 0]> m') moved (seqZ pos (24 * 80 - pos)).

Definition cgaputc (c : Z) : M cstate unit :=
  pos ← gets cursor;
  pos ← (if c =? 10 then
           modify (set_lefts 0);;
           mret (pos + (80 - pos mod 80))
         else if c =? BACKSPACE then
           shift_left_next_chars pos;;
           mret (if 0 <? pos then pos - 1 else pos)
         else
           shift_right_next_chars pos;;
           wr_crt pos (Z.lor (Z.land c 0xff) 0x0700);;
           mret (pos + 1));
  if ((pos <? 0) || (25 * 80 <? pos))%bool then panic "pos under/overflow"
  else
    pos ← (if 24 <=? pos / 80 then
             modify (λ s, set_crt (scroll (pos - 80) (crt s)) s);;
             mret (pos - 80)
           else mret pos);
    write_cursor pos;;
    l ← gets lefts;
    wr_crt (pos + l) (Z.lor 32 0x0700).

(** [uartputc]. *)
Definition uartputc (c : Z) : M cstate unit := modify (λ s, set_serial (serial s ++ [u8 c]) s).

(** After a panic the CPU spins here. *)
Definition consputc (c : Z) : M cstate unit :=
  p ← gets panicked;
  if negb (p =? 0) then panic "spin"
  else
    (if c =? BACKSPACE then
       upd_input (λ x, set_e (u32 (ie x - 1)) x);;
       i ← gets at_cursor;
       wr_buf i 0;;
       wr_copy i 0;;
       uartputc 8;; uartputc 32;; uartputc 8
     else uartputc c);;
    cgaputc c.

(** ** Formatted output *)

Definition digits : list Z := map (λ c, Z.of_nat (Ascii.nat_of_ascii c)) (String.list_ascii_of_string "0123456789abcdef").
(** The [do] loop of [printint]: the digits of [x], the last one first. *)
Fixpoint print_digits (fuel : nat) (x base : Z) : list Z :=
  match fuel with
  | O => []
  | S fuel =>
      let d := nth (Z.to_nat (x mod base)) digits 0 in
      if x / base =? 0 then [d] else d :: print_digits fuel (x / base) base
  end.
(** What [printint] leaves in [buf], the last character to print first; [xx] is an
    [int], and a [uint] has at most 32 digits in any base. *)
Definition printint_buf (xx base : Z) (sign : bool) : list Z :=
  let neg := (sign && (xx <? 0))%bool in
  print_digits 32 (u32 (if neg then - xx else xx)) base ++ (if neg then [45] else []).
Definition printint (xx base : Z) (sign : bool) : M cstate unit :=
  for_each (reverse (printint_buf xx base sign)) consputc.

(** Arguments of [cprintf]: words, and strings with null for [None]. *)
Inductive arg := Word (z : Z) | Str (s : option (list Z)).

(** The loop over the format; an argument that is missing is undefined. *)
Fixpoint cprintf_loop (fmt : list Z) (args : list arg) : M cstate unit :=
  match fmt with
  | [] => mret tt
  | c :: fmt =>
      if negb (c =? 37) then consputc c;; cprintf_loop fmt args
      else
        match fmt with
        | [] => mret tt
        | c :: fmt =>
            if c =? 100 then
              match args with Word z :: args => printint (i32 z) 10 true;; cprintf_loop fmt args | _ => undefined end
            else if ((c =? 120) || (c =? 112))%bool then
              match args with Word z :: args => printint (i32 z) 16 false;; cprintf_loop fmt args | _ => undefined end
            else if c =? 115 then
              match args with
              | Str s :: args =>
                  for_each (default [40; 110; 117; 108; 108; 41] s) consputc;;
                  cprintf_loop fmt args
              | _ => undefined
              end
            else if c =? 37 then consputc 37;; cprintf_loop fmt args
            else consputc 37;; consputc c;; cprintf_loop fmt args
        end
  end.
Definition cprintf (fmt : list Z) (args : list arg) : M cstate unit :=
  l ← gets locking;
  (if negb (l =? 0) then acquire Lcons else mret tt);;
  cprintf_loop fmt args;;
  (if negb (l =? 0) then release Lcons else mret tt).

(** ** The line editor *)

Definition shift_left_previous_histories : M cstate unit :=
  modify (λ s, let h := history s in
    set_history (Hist (drop 1 (hist h) ++ drop 9 (hist h)) (hindex h) (hcount h) (hlast h)) s).

(** [input = history.hist[i]] and [history.hist[i] = input]. *)
Definition load_history (i : Z) : M cstate unit :=
  h ← gets history;
  match (if 0 <=? i then hist h !! Z.to_nat i else None) with
  | Some x => modify (set_input x)
  | None => undefined
  end.
Definition store_history (i : Z) : M cstate unit :=
  s ← get;
  let h := history s in
  if ((0 <=? i) && (i <? Z.of_nat (length (hist h))))%bool
  then put (set_history (Hist (<[Z.to_nat i := input s]> (hist h)) (hindex h) (hcount h) (hlast h)) s)
  else undefined.

Definition set_hindex (i : Z) : M cstate unit :=
  modify (λ s, let h := history s in set_history (Hist (hist h) i (hcount h) (hlast h)) s).

(** [input = history.hist[history.index]; input.e--; input.buf[input.e] = 0;]. *)
Definition recall : M cstate unit :=
  h ← gets history;
  load_history (hindex h);;
  upd_input (λ x, set_e (u32 (ie x - 1)) x);;
  e ← gets (λ s, ie (input s));
  wr_buf e 0.

Definition move_through_history (move : Z) : M cstate unit :=
  modify (set_lefts 0);;
  x ← gets input;
  for_each (down turns (i32 (ie x)) (λ i, iw x <? u32 i)) (λ i,
    c ← rd_buf (i - 1);
    if negb (c =? 10) then consputc BACKSPACE else mret tt);;
  (if move =? 0 then
     h ← gets history;
     set_hindex (i32 (hindex h - 1));;
     recall
   else mret tt);;
  (if move =? 1 then
     h ← gets history;
     (if hindex h =? -1 then set_hindex (i32 (hindex h + 1)) else mret tt);;
     h ← gets history;
     set_hindex (i32 (hindex h + 1));;
     recall
   else mret tt);;
  x ← gets input;
  for_each (up turns (i32 (ir x)) (λ i, u32 i <? ie x)) (λ i, c ← rd_buf i; consputc c).

(** The bytes of "history". *)
Definition history_word : list Z := [104; 105; 115; 116; 111; 114; 121].
Fixpoint is_command_history_loop (idx : list Z) (j : nat) : M cstate bool :=
  match idx with
  | [] => mret true
  | i :: idx =>
      c ← rd_buf i;
      match history_word !! j with
      | None => undefined
      | Some h => if negb (c =? h) then mret false else is_command_history_loop idx (S j)
      end
  end.
Definition is_command_history : M cstate bool :=
  x ← gets input;
  is_command_history_loop (up turns (i32 (ir x)) (λ i, u32 i <? u32 (ie x - 1))) 0.

(** The string at [&x.buf[i]], if it ends inside the buffer. *)
Fixpoint c_string (l : list Z) : option (list Z) :=
  match l with
  | [] => None
  | c :: l => if c =? 0 then Some [] else (λ s, c :: s) <$> c_string l
  end.
Fixpoint print_history_loop (n : nat) (i : nat) : M cstate unit :=
  match n with
  | O => mret tt
  | S n =>
      h ← gets history;
      release Lcons;;
      match hist h !! i with
      | Some x =>
          match (if inside (ir x) then c_string (drop (Z.to_nat (ir x)) (ibuf x)) else None) with
          | Some fmt => cprintf fmt []
          | None => undefined
          end
      | None => undefined
      end;;
      acquire Lcons;;
      print_history_loop n (S i)
  end.
Definition print_history : M cstate unit :=
  h ← gets history;
  print_history_loop (Z.to_nat (hcount h)) 0.

Definition clear_buf_copy : M cstate unit :=
  x ← gets input;
  for_each (up turns (i32 (ir x)) (λ i, u32 i <? ie x)) (λ i, wr_copy i 0).

(** The function ends without a result when there is no mark. *)
Fixpoint get_last_index_copy_loop (idx : list Z) : M cstate Z :=
  match idx with
  | [] => undefined
  | i :: idx =>
      c ← rd_copy i;
      if c =? 49 then mret i else get_last_index_copy_loop idx
  end.
Definition get_last_index_copy : M cstate Z :=
  x ← gets input;
  get_last_index_copy_loop (down turns (i32 (ie x)) (λ i, ir x <=? u32 i)).

(** Storing a character at the cursor; it is marked while copying. *)
Definition put_char (c : Z) : M cstate unit :=
  i ← gets at_cursor;
  wr_buf i c;;
  x ← gets input;
  (if negb (flag_paste x =? 0) then
     i ← gets at_cursor;
     wr_copy i 49
   else mret tt);;
  upd_input (λ x, set_e (u32 (ie x + 1)) x).

(** ** The calculator *)

Definition is_c_in_numbers (c : Z) : bool := existsb (Z.eqb c) [48; 49; 50; 51; 52; 53; 54; 55; 56; 57].
Definition is_c_in_operations (c : Z) : bool := existsb (Z.eqb c) [43; 45; 42; 47].

Section Calculator.
(** Rounding to [float] and to [double]. *)
Context (fl db : Q → Q).

(** Conversion of a non-negative number to [int]. *)
Definition to_int (x : Q) : M cstate Z :=
  let n := Qfloor x in
  if n <? 2147483648 then mret n else undefined.

(** [while(temp >= 1)]: the number of digits. *)
Fixpoint count_digits (fuel : nat) (temp : Q) : nat :=
  match fuel with
  | O => 0
  | S fuel => if Qle_bool 1 temp then S (count_digits fuel (fl (db (temp / 10)))) else 0
  end.
(** The last [n] digits of [result]. *)
Fixpoint decimal (n : nat) (result : Z) : list Z :=
  match n with
  | O => []
  | S n => decimal n (result / 10) ++ [result mod 10 + 48]
  end.
(** A [float] below 2^31 is below 1 after [turns] divisions. *)
Definition print_NON_result (result : Z) : M cstate unit :=
  let n := ((if (result =? 0)%Z then 1 else 0) + count_digits turns (fl (inject_Z result)))%nat in
  for_each (decimal n result) (λ c, consputc c;; put_char c).

Definition replacing_NON (result : Q) : M cstate unit :=
  n ← gets non;
  let flag_negative := negb (Qle_bool 0 result) in
  let result := if flag_negative then (- result)%Q else result in
  let i := i32 (if sign_n1 n =? 1 then S_n1 n - 1 else S_n1 n) in
  let j := i32 (E_n2 n + 2) in
  for_each (down (Z.to_nat (j - i + 1)) j (λ j, i <=? j)) (λ _, consputc BACKSPACE);;
  (if flag_negative then consputc 45;; put_char 45 else mret tt);;
  integer ← to_int result;
  fraction ← to_int (db (fl (result - fl (inject_Z integer)) * 10));
  print_NON_result integer;;
  if negb (fraction =? 0) then
    consputc 46;;
    put_char 46;;
    print_NON_result fraction
  else mret tt.

(** [num = (num * 10) + digit] over the bytes at [idx]. *)
Fixpoint number (idx : list Z) (num : Z) : M cstate Z :=
  match idx with
  | [] => mret num
  | i :: idx =>
      c ← rd_buf i;
      number idx (i32 (num * 10 + (c - 48)))
  end.

Definition getting_NON_values : M cstate unit :=
  n ← gets non;
  num1 ← number (up turns (i32 (S_n1 n)) (λ i, u32 i <=? E_n1 n)) 0;
  num2 ← number (up turns (i32 (S_n2 n)) (λ i, u32 i <=? E_n2 n)) 0;
  let num1 := if sign_n1 n =? 1 then i32 (- num1) else num1 in
  let num2 := if sign_n2 n =? 1 then i32 (- num2) else num2 in
  operator ← rd_buf (op n);
  let a := fl (inject_Z num1) in
  let b := fl (inject_Z num2) in
  if operator =? 43 then replacing_NON (fl (a + b))
  else if operator =? 45 then replacing_NON (fl (a - b))
  else if operator =? 42 then replacing_NON (fl (a * b))
  else if operator =? 47 then
    (if Qeq_bool b 0 then undefined else replacing_NON (fl (a / b)))
  else undefined.

(** The first loop of [check_NON_pattern]: [None] for [return 0], else
    [flag1]; it fills in the operator and the second number. *)
Fixpoint find_operator (idx : list Z) : M cstate (option bool) :=
  match idx with
  | [] => mret (Some false)
  | i :: idx =>
      c ← rd_buf i;
      if is_c_in_numbers c then find_operator idx
      else if is_c_in_operations c then
        c' ← rd_buf (i - 1);
        s ← get;
        let n := non s in
        let last := u32 (ie (input s) - lefts s - 3) in
        if is_c_in_operations c' then
          if c =? 45 then
            put (set_non (Non (sign_n1 n) 1 (S_n1 n) (E_n1 n) (u32 (i + 1)) last (u32 (i - 1))) s);;
            mret (Some true)
          else mret None
        else
          put (set_non (Non (sign_n1 n) 0 (S_n1 n) (E_n1 n) (u32 (i + 1)) last (u32 i)) s);;
          mret (Some true)
      else mret None
  end.

(** The second loop, which finds the start of the first number: [flag2]. *)
Fixpoint find_start (idx : list Z) : M cstate bool :=
  match idx with
  | [] => mret false
  | i :: idx =>
      c ← rd_buf i;
      if is_c_in_numbers c then find_start idx
      else
        modify (λ s, let n := non s in
          set_non (Non (if c =? 45 then 1 else 0) (sign_n2 n) (u32 (i + 1)) (u32 (op n - 1)) (S_n2 n) (E_n2 n) (op n)) s);;
        mret true
  end.

Definition check_NON_pattern : M cstate bool :=
  s ← get;
  let k := ie (input s) - lefts s in
  let r := ir (input s) in
  c ← rd_buf (u32 (k - 2));
  if negb (c =? 61) then mret false
  else
    c ← rd_buf (u32 (k - 3));
    if negb (is_c_in_numbers c) then mret false
    else
      f ← find_operator (down turns (i32 (k - 4)) (λ i, r <=? u32 i));
      match f with
      | None | Some false => mret false
      | Some true =>
          n ← gets non;
          c ← rd_buf (u32 (op n - 1));
          if negb (is_c_in_numbers c) then mret false
          else
            f ← find_start (down turns (i32 (op n - 2)) (λ i, r <=? u32 i));
            (if (f : bool) then mret tt
             else modify (λ s, let n := non s in
               set_non (Non (sign_n1 n) (sign_n2 n) r (u32 (op n - 1)) (S_n2 n) (E_n2 n) (op n)) s));;
            mret true
      end.

(** ** Input *)

(** The loop of paste, for index [i] up to [temp]. *)
Fixpoint paste_loop (fuel : nat) (i temp : Z) : M cstate unit :=
  if i <? temp then
    match fuel with
    | O => panic "out of fuel"
    | S fuel =>
        m ← rd_copy i;
        if negb (m =? 49) then paste_loop fuel (i32 (i + 1)) temp
        else
          c ← rd_buf i;
          consputc c;;
          k ← gets at_cursor;
          wr_buf k c;;
          wr_copy k 0;;
          s ← get;
          let k := u32 (ie (input s) - lefts s - 1) in
          let i := if k <? u32 i then i32 (i + 1) else i in
          last ← get_last_index_copy;
          let temp := if k <? u32 last then i32 (temp + 1) else temp in
          upd_input (λ x, set_e (u32 (ie x + 1)) x);;
          paste_loop fuel (i32 (i + 1)) temp
    end
  else mret tt.

(** The end of a line: the history, and the readers are woken. *)
Definition end_of_line : M cstate unit :=
  upd_input (set_copy 0);;
  b ← is_command_history;
  (if (b : bool) then print_history else mret tt);;
  h ← gets history;
  (if hcount h =? 10 then shift_left_previous_histories else mret tt);;
  (if hcount h <? 10 then
     modify (λ s, let h := history s in
       set_history (Hist (hist h) (i32 (hlast h + 2)) (i32 (hcount h + 1)) (i32 (hlast h + 1))) s)
   else set_hindex 10);;
  h ← gets history;
  store_history (hlast h);;
  upd_input (λ x, set_w (ie x) x);;
  emit (EWakeup ChInput).

(** [case C('U')]: the cursor goes to the end of the line, which is erased. *)
Fixpoint kill_line_loop (fuel : nat) : M cstate unit :=
  x ← gets input;
  if ie x =? iw x then mret tt
  else
    c ← rd_buf (u32 (ie x - 1) mod Z.of_nat INPUT_BUF);
    if c =? 10 then mret tt
    else
      match fuel with
      | O => panic "out of fuel"
      | S fuel => consputc BACKSPACE;; kill_line_loop fuel
      end.
Definition kill_line : M cstate unit :=
  s ← get;
  modify (set_lefts 0);;
  write_cursor (cursor s + lefts s);;
  x ← gets input;
  kill_line_loop (Z.to_nat (u32 (ie x - iw x))).

(** The [default] case. *)
Definition typed (c : Z) : M cstate unit :=
  x ← gets input;
  if (negb (c =? 0) && (u32 (ie x - ir x) <? Z.of_nat INPUT_BUF))%bool then
    let c := if c =? 13 then 10 else c in
    (if c =? Ctl 70 then
       (if negb (flag_copy x =? 0) then
          paste_loop turns (i32 (ir x)) (i32 (ie x));;
          upd_input (set_paste 0)
        else mret tt)
     else
       consputc c;;
       put_char c;;
       if c =? 63 then
         b ← check_NON_pattern;
         if (b : bool) then getting_NON_values else mret tt
       else mret tt);;
    x ← gets input;
    if ((c =? 10) || (c =? Ctl 68) || (ie x =? u32 (ir x + Z.of_nat INPUT_BUF)))%bool then end_of_line
    else mret tt
  else mret tt.

(** One turn of the loop of [consoleintr]; the result is [doprocdump]. *)
Definition key (c : Z) : M cstate bool :=
  s ← get;
  let x := input s in
  if c =? Ctl 80 then mret true
  else if c =? Ctl 85 then kill_line;; mret false
  else if ((c =? Ctl 72) || (c =? 0x7f))%bool then
    (if iw x <? u32 (ie x - lefts s) then consputc BACKSPACE else mret tt);; mret false
  else if c =? Ctl 83 then
    clear_buf_copy;;
    upd_input (λ x, set_paste 1 (set_copy 1 x));;
    mret false
  else if c =? LEFTARROW then
    (if iw x <? u32 (ie x - lefts s) then update_cursor 0;; modify (λ s, set_lefts (i32 (lefts s + 1)) s) else mret tt);;
    mret false
  else if c =? RIGHTARROW then
    (if 0 <? lefts s then update_cursor 1;; modify (λ s, set_lefts (i32 (lefts s - 1)) s) else mret tt);;
    mret false
  else if c =? UPARROW then
    let h := history s in
    (if ((0 <? hcount h) && (0 <? hindex h))%bool then move_through_history 0 else mret tt);;
    mret false
  else if c =? DOWNARROW then
    let h := history s in
    (if ((0 <? hcount h) && (hindex h <? hcount h - 1))%bool then move_through_history 1 else mret tt);;
    mret false
  else typed c;; mret false.

(** The characters [getc] returns before it returns a negative number. *)
Fixpoint consoleintr_loop (cs : list Z) (doprocdump : bool) : M cstate bool :=
  match cs with
  | [] => mret doprocdump
  | c :: cs =>
      d ← key c;
      consoleintr_loop cs (doprocdump || d)
  end.
(** The result says whether [procdump] is called last. *)
Definition consoleintr (cs : list Z) : M cstate bool :=
  acquire Lcons;;
  d ← consoleintr_loop cs false;
  release Lcons;;
  mret d.

End Calculator.

(** ** Reading and writing *)

(** The loop of [consoleread]: what is left of [n], and the bytes stored. *)
Fixpoint consoleread_loop (killed : bool) (target n : nat) (dst : list Z) : M cstate (option (nat * list Z)) :=
  match n with
  | O => mret (Some (O, dst))
  | S n' =>
      x ← gets input;
      if ir x =? iw x then
        if killed then mret None
        else sleep_on ChInput Lcons
      else
        c ← rd_buf (ir x mod Z.of_nat INPUT_BUF);
        upd_input (λ x, set_r (u32 (ir x + 1)) x);;
        if c =? Ctl 68 then
          (if (n <? target)%nat then upd_input (λ x, set_r (u32 (ir x - 1)) x) else mret tt);;
          mret (Some (n, dst))
        else if c =? 10 then mret (Some (n', dst ++ [c]))
        else consoleread_loop killed target n' (dst ++ [c])
  end.

(** The console with the inodes, which the driver unlocks while it waits. *)
Record cdev := CDev { con : cstate; cfs : fstate }.
Definition on_con {A} (m : M cstate A) : M cdev A := zoom con (λ x s, CDev x (cfs s)) m.
Definition on_inodes {A} (m : M fstate A) : M cdev A := zoom cfs (λ x s, CDev (con s) x) m.

Definition consoleread (mypid : Z) (killed : bool) (ip : nat) (n : nat) : M cdev (Z * list Z) :=
  on_inodes (iunlock mypid ip);;
  on_con (acquire Lcons);;
  r ← on_con (consoleread_loop killed n n []);
  on_con (release Lcons);;
  on_inodes (ilock mypid ip);;
  mret match r with
       | None => (-1, [])
       | Some (k, dst) => (Z.of_nat n - Z.of_nat k, dst)
       end.

Definition consolewrite (mypid : Z) (ip : nat) (l : list Z) : M cdev Z :=
  on_inodes (iunlock mypid ip);;
  on_con (acquire Lcons);;
  on_con (for_each l consputc);;
  on_con (release Lcons);;
  on_inodes (ilock mypid ip);;
  mret (Z.of_nat (length l)).

(** The console at boot, after [consoleinit], with the cursor at [pos]. *)
Definition console0 (pos : Z) : cstate :=
  CS input0 history0 (Non 0 0 0 0 0 0 0) 0 1 0 ∅ pos [].
