(* ===== verification/ConsoleSpec.v ===== *)
(** * Theorems on the console

    The line editor refines a line with a cursor in it, what is typed is what is
    read, numbers print as they read, and where the editor leaves its buffer. *)

From stdpp Require Import list_numbers.
From Stdlib Require QArith_base Qreduction.
From S2P Require Import Prelude Locks Bytes Bio Log Txn Fs FsBlocks FsInode FsSample Console.

(** ** Loops over the buffer *)

Fixpoint asc (n : nat) (i : Z) : list Z := match n with O => [] | S n => i :: asc n (i + 1) end.
Fixpoint desc (n : nat) (i : Z) : list Z := match n with O => [] | S n => i :: desc n (i - 1) end.

Lemma up_asc n : ∀ fuel i c, 0 ≤ i → i + Z.of_nat n < 2147483648 → (n < fuel)%nat →
  (∀ j, i ≤ j < i + Z.of_nat n → c j = true) → c (i + Z.of_nat n) = false → up fuel i c = asc n i.
Proof.
  induction n as [|n IH]; intros [|fuel] i c Hi Hb Hf Hc Hend; try lia; cbn [up asc].
  - rewrite Z.add_0_r in Hend. by rewrite Hend.
  - rewrite Hc by lia. rewrite i32_small by lia. f_equal. apply IH; [lia..| |].
    + intros j Hj. apply Hc. lia.
    + by replace (i + 1 + Z.of_nat n) with (i + Z.of_nat (S n)) by lia.
Qed.
Lemma down_desc n : ∀ fuel i c, 0 ≤ i - Z.of_nat n → i < 2147483648 → (n < fuel)%nat →
  (∀ j, i - Z.of_nat n < j ≤ i → c j = true) → c (i - Z.of_nat n) = false → down fuel i c = desc n i.
Proof.
  induction n as [|n IH]; intros [|fuel] i c Hi Hb Hf Hc Hend; try lia; cbn [down desc].
  - rewrite Z.sub_0_r in Hend. by rewrite Hend.
  - rewrite Hc by lia. rewrite i32_small by lia. f_equal. apply IH; [lia..| |].
    + intros j Hj. apply Hc. lia.
    + by replace (i - 1 - Z.of_nat n) with (i - Z.of_nat (S n)) by lia.
Qed.

(** [a[i] = a[i + d]] for each index. *)
Definition shifts (d : Z) (l : list Z) (b : list Z) : list Z :=
  foldl (λ b i, <[Z.to_nat i := u8 (nth (Z.to_nat (i + d)) b 0)]> b) b l.
Lemma length_shifts d l b : length (shifts d l b) = length b.
Proof. revert b; induction l as [|i l IH]; intros b; simpl; [done|]. by rewrite IH, length_insert. Qed.

Lemma nth_mid {A} (l k : list A) x d : nth (length l) (l ++ x :: k) d = x.
Proof. rewrite app_nth2 by lia. by rewrite Nat.sub_diag. Qed.
(** Shifting right by one the [length p + 1] bytes from [length a] on. *)
Lemma shifts_right a p x y t : bytes p → 0 ≤ x < 256 →
  shifts (-1) (desc (S (length p)) (Z.of_nat (length a + length p + 1))) (a ++ p ++ x :: y :: t) =
  a ++ (nth 0 (p ++ [x]) 0) :: p ++ x :: t.
Proof.
  revert x y t. induction p as [|z p IH] using rev_ind; intros x y t Hp Hx.
  - cbn [length desc shifts foldl app nth]. rewrite Nat.add_0_r.
    replace (Z.to_nat (Z.of_nat (length a + 1) + -1)) with (length a) by lia.
    replace (Z.to_nat (Z.of_nat (length a + 1))) with (length a + 1)%nat by lia.
    rewrite nth_mid, u8_byte, insert_app_r by done. done.
  - apply Forall_app in Hp as [Hp [Hz _]%Forall_cons].
    rewrite length_app. cbn [length]. rewrite Nat.add_1_r. set (n := S (length p)). cbn [desc shifts foldl].
    replace (Z.to_nat (Z.of_nat (length a + n + 1) + -1)) with (length (a ++ p ++ [z])) by (rewrite !length_app; simpl; lia).
    replace (Z.to_nat (Z.of_nat (length a + n + 1))) with (length (a ++ p ++ [z]) + 1)%nat by (rewrite !length_app; simpl; lia).
    replace (a ++ (p ++ [z]) ++ x :: y :: t) with ((a ++ p ++ [z]) ++ x :: y :: t) by (by rewrite !app_assoc).
    rewrite nth_mid, u8_byte, insert_app_r by done. cbn [list_insert insert].
    replace (Z.of_nat (length a + n + 1) - 1) with (Z.of_nat (length a + length p + 1)) by lia.
    change (<[1%nat:=x]> (x :: y :: t)) with (x :: x :: t).
    replace ((a ++ p ++ [z]) ++ x :: x :: t) with (a ++ p ++ z :: x :: x :: t) by (by rewrite <- !app_assoc).
    fold (shifts (-1) (desc n (Z.of_nat (length a + length p + 1))) (a ++ p ++ z :: x :: x :: t)). unfold n.
    rewrite IH by done. do 2 f_equal; [by destruct p|by rewrite <- app_assoc].
Qed.

(** Shifting left by one the bytes of [p]. *)
Lemma shifts_left p : ∀ a x t, bytes p → 0 ≤ x < 256 →
  ∃ z, 0 ≤ z < 256 ∧ shifts 1 (asc (length p) (Z.of_nat (length a))) (a ++ x :: p ++ t) = a ++ p ++ z :: t.
Proof.
  induction p as [|y p IH]; intros a x t Hp Hx; [by exists x|]. apply Forall_cons in Hp as [Hy Hp].
  cbn [length asc shifts foldl]. rewrite Nat2Z.id. replace (Z.to_nat (Z.of_nat (length a) + 1)) with (length (a ++ [x])) by (rewrite length_app; simpl; lia).
  replace (a ++ x :: (y :: p) ++ t) with ((a ++ [x]) ++ y :: p ++ t) by (by rewrite <- app_assoc).
  rewrite nth_mid, u8_byte by done. rewrite <- app_assoc. cbn [app].
  replace (<[length a:=y]> (a ++ x :: y :: p ++ t)) with ((a ++ [y]) ++ y :: p ++ t).
  2:{ rewrite <- app_assoc. cbn [app]. rewrite insert_app_r_alt by lia. by rewrite Nat.sub_diag. }
  destruct (IH (a ++ [y]) y t Hp Hy) as (z & Hz & E). exists z. split; [done|].
  replace (Z.of_nat (length a) + 1) with (Z.of_nat (length (a ++ [y]))) by (rewrite length_app; simpl; lia).
  unfold shifts in E. rewrite E. by rewrite <- app_assoc.
Qed.

(** ** The state of the editor *)

(** [a] is what the buffer holds up to the cursor, [p] the rest of the line. *)
Record text (a p t : list Z) (x : Input) : Prop := {
  t_buf : ibuf x = a ++ p ++ t;
  t_len : length (a ++ p ++ t) = INPUT_BUF;
  t_copy : length (ibuf_copy x) = INPUT_BUF;
  t_bytes : bytes (a ++ p ++ t);
  t_e : ie x = Z.of_nat (length a + length p) }.

(** The same indices and flags. *)
Definition marks (x x' : Input) : Prop :=
  ir x' = ir x ∧ iw x' = iw x ∧ flag_copy x' = flag_copy x ∧ flag_paste x' = flag_paste x.

(** The same console but for the input, the screen and the serial line. *)
Definition drawn (x : Input) (cur : Z) (s s' : cstate) : Prop :=
  ∃ m out, s' = CS x (history s) (non s) (lefts s) (locking s) (panicked s) m cur out.

Definition shift_in (d : Z) (l : list Z) (x : Input) : Input :=
  In (shifts d l (ibuf x)) (shifts d l (ibuf_copy x)) (ir x) (iw x) (ie x) (flag_copy x) (flag_paste x).

Lemma inside_iff i : inside i = true ↔ 0 ≤ i < 128.
Proof. unfold inside, INPUT_BUF. rewrite andb_true_iff, Z.leb_le, Z.ltb_lt. lia. Qed.

Lemma tot_rd_buf L i (Q : Z → cstate → Prop) s : 0 ≤ i < 128 → Q (nth (Z.to_nat i) (ibuf (input s)) 0) s → totl L (rd_buf i) Q s.
Proof. intros Hi HQ. unfold rd_buf. rewrite (proj2 (inside_iff i) Hi). by apply tot_gets. Qed.
Lemma tot_wr_buf L i c (Q : unit → cstate → Prop) s : 0 ≤ i < 128 →
  Q tt (set_input (set_ibuf (<[Z.to_nat i := u8 c]> (ibuf (input s))) (input s)) s) → totl L (wr_buf i c) Q s.
Proof. intros Hi HQ. unfold wr_buf. rewrite (proj2 (inside_iff i) Hi). by apply tot_modify. Qed.
Lemma tot_rd_copy L i (Q : Z → cstate → Prop) s : 0 ≤ i < 128 → Q (nth (Z.to_nat i) (ibuf_copy (input s)) 0) s → totl L (rd_copy i) Q s.
Proof. intros Hi HQ. unfold rd_copy. rewrite (proj2 (inside_iff i) Hi). by apply tot_gets. Qed.
Lemma tot_wr_copy L i c (Q : unit → cstate → Prop) s : 0 ≤ i < 128 →
  Q tt (set_input (set_ibuf_copy (<[Z.to_nat i := u8 c]> (ibuf_copy (input s))) (input s)) s) → totl L (wr_copy i c) Q s.
Proof. intros Hi HQ. unfold wr_copy. rewrite (proj2 (inside_iff i) Hi). by apply tot_modify. Qed.

Lemma tot_for_each_crt L g l : ∀ s (Q : unit → cstate → Prop), (∀ m, Q tt (set_crt m s)) →
  totl L (for_each l (λ i, c ← gets (rd_crt (g i)); wr_crt i c)) Q s.
Proof.
  induction l as [|i l IH]; intros s Q HQ; cbn [for_each].
  - apply tot_ret. specialize (HQ (crt s)). by destruct s.
  - apply tot_bind. tot_step. apply tot_modify. apply IH. intros m. apply (HQ m).
Qed.

Lemma tot_for_each_shift L d l : ∀ s (Q : unit → cstate → Prop),
  Forall (λ i, 0 ≤ i < 128 ∧ 0 ≤ i + d < 128) l →
  Q tt (set_input (shift_in d l (input s)) s) → totl L (for_each l (shift_byte d)) Q s.
Proof.
  induction l as [|i l IH]; intros s Q Hl HQ; cbn [for_each].
  - apply tot_ret. destruct s as [[]]. exact HQ.
  - apply Forall_cons in Hl as [[Hi Hd] Hl]. apply tot_bind. unfold shift_byte.
    apply tot_bind, tot_rd_buf; [done|]. apply tot_bind, tot_wr_buf; [done|].
    apply tot_bind, tot_rd_copy; [done|]. apply tot_wr_copy; [done|]. apply IH; [done|]. exact HQ.
Qed.

Lemma asc_inside n i : 0 ≤ i → i + Z.of_nat n < 128 → Forall (λ i, 0 ≤ i < 128 ∧ 0 ≤ i + 1 < 128) (asc n i).
Proof. revert i; induction n as [|n IH]; intros i Hi Hn; constructor; [lia|]. apply IH; lia. Qed.
Lemma desc_inside n i : i < 128 → 0 ≤ i - Z.of_nat n → Forall (λ i, 0 ≤ i < 128 ∧ 0 ≤ i + -1 < 128) (desc n i).
Proof. revert i; induction n as [|n IH]; intros i Hi Hn; constructor; [lia|]. apply IH; lia. Qed.

Lemma bytes_mid a x t : bytes (a ++ x :: t) → 0 ≤ x < 256.
Proof. intros [_ [H _]%Forall_cons]%Forall_app. done. Qed.

Lemma tot_shift_right L pos s a p x0 y0 t (Q : unit → cstate → Prop) :
  text a p (x0 :: y0 :: t) (input s) → lefts s = Z.of_nat (length p) →
  (∀ m cp z, length cp = INPUT_BUF → 0 ≤ z < 256 →
     Q tt (set_crt m (set_input (let x := input s in In (a ++ z :: p ++ x0 :: t) cp (ir x) (iw x) (ie x) (flag_copy x) (flag_paste x)) s))) →
  totl L (shift_right_next_chars pos) Q s.
Proof.
  intros T Hl HQ. destruct T as [Hb Hlen Hc Hby He]. unfold shift_right_next_chars. tot_step.
  apply tot_bind, (tot_for_each_crt L (λ i, i - 1)). intros m. tot_step.
  change (ie (input (set_crt m s))) with (ie (input s)). rewrite He, Hl.
  unfold INPUT_BUF in *. rewrite !length_app in Hlen. cbn [length] in Hlen.
  rewrite i32_small by lia.
  rewrite (down_desc (S (length p))); [|lia|lia|unfold turns; lia| |].
  2:{ intros j Hj. rewrite !u32_small by lia. apply Z.ltb_lt. lia. }
  2:{ rewrite !u32_small by lia. apply Z.ltb_ge. lia. }
  apply tot_for_each_shift; [apply desc_inside; lia|].
  assert (0 ≤ x0 < 256) as Hx.
  { rewrite app_assoc in Hby. by apply bytes_mid in Hby. }
  assert (bytes p) as Hp by (by apply Forall_app in Hby as [_ [? _]%Forall_app]).
  unfold shift_in. change (input (set_crt m s)) with (input s). rewrite Hb.
  replace (Z.of_nat (length a + length p) + 1) with (Z.of_nat (length a + length p + 1)) by lia.
  rewrite shifts_right by done.
  apply (HQ m (shifts (-1) (desc (S (length p)) (Z.of_nat (length a + length p + 1))) (ibuf_copy (input s))) _).
  - by rewrite length_shifts.
  - destruct p as [|y p]; [done|]. by apply Forall_cons in Hp as [? _].
Qed.

(** The cursor after a character, and after the end of a line. *)
Definition wrap (pos : Z) : Z := if 24 <=? pos / 80 then pos - 80 else pos.
Definition next_line (pos : Z) : Z := wrap (pos + (80 - pos mod 80)).

(** The end of [cgaputc], from the new position on. *)
Lemma tot_cga_end L pos s (Q : unit → cstate → Prop) : 0 ≤ pos ≤ 2000 →
  (∀ m, Q tt (set_cursor (wrap pos) (set_crt m s))) →
  totl L (if ((pos <? 0) || (25 * 80 <? pos))%bool then panic "pos under/overflow"
          else
            pos ← (if 24 <=? pos / 80 then
                     modify (λ s, set_crt (scroll (pos - 80) (crt s)) s);;
                     mret (pos - 80)
                   else mret pos);
            write_cursor pos;;
            l ← gets lefts;
            wr_crt (pos + l) (Z.lor 32 0x0700)) Q s.
Proof.
  intros Hp HQ. rewrite (proj2 (Z.ltb_ge _ _)) by lia. rewrite (proj2 (Z.ltb_ge _ _)) by lia. cbn [orb].
  assert (∀ s' p', 0 ≤ p' < 65536 → (∀ m, Q tt (set_cursor p' (set_crt m s'))) →
    totl L (write_cursor p';; l ← gets lefts; wr_crt (p' + l) (Z.lor 32 0x0700)) Q s') as Hend.
  { intros s' p' Hp' H. unfold write_cursor. tot_step. tot_step. apply tot_modify. rewrite Z.mod_small by lia. apply H. }
  unfold wrap in HQ. destruct (Z.leb_spec 24 (pos / 80)) as [Hs|Hs].
  - apply tot_bind. tot_step. tot_step. apply Hend; [Z.to_euclidean_division_equations; lia|]. intros m. apply (HQ m).
  - tot_step. apply Hend; [lia|done].
Qed.

Lemma text_insert a p x0 t x z c cp :
  text a p (x0 :: t) x → 0 ≤ c < 256 → length cp = INPUT_BUF → (2 ≤ length (x0 :: t))%nat →
  text (a ++ [c]) p (x0 :: drop 1 t)
    (In (<[length a := c]> (a ++ z :: p ++ x0 :: drop 1 t)) cp (ir x) (iw x) (u32 (ie x + 1)) (flag_copy x) (flag_paste x)).
Proof.
  intros [Hb Hl Hc Hby He] Hcb Hcp Ht. destruct t as [|y0 t]; [simpl in Ht; lia|]. cbn [drop].
  rewrite !length_app in Hl. cbn [length] in Hl. rewrite drop_0. unfold INPUT_BUF in *.
  rewrite insert_app_r_alt, Nat.sub_diag by lia. cbn [insert list_insert].
  assert (bytes ((a ++ [c]) ++ p ++ x0 :: t)) as Hby'.
  { rewrite <- app_assoc. apply Forall_app in Hby as [Ha [Hp [Hx [_ Ht']%Forall_cons]%Forall_cons]%Forall_app].
    apply Forall_app. split; [done|]. apply Forall_cons. split; [done|]. apply Forall_app. split; [done|].
    apply Forall_cons. by split. }
  split; cbn [ibuf ibuf_copy ie].
  - by rewrite <- app_assoc.
  - rewrite !length_app. unfold INPUT_BUF; simpl; lia.
  - done.
  - done.
  - rewrite He, length_app, u32_small by lia. simpl. lia.
Qed.

Lemma at_cursor_text a p t s : text a p t (input s) → lefts s = Z.of_nat (length p) → (length a < 128)%nat →
  at_cursor s = Z.of_nat (length a).
Proof.
  intros [_ _ _ _ He] Hl Ha. unfold at_cursor. rewrite He, Hl. unfold INPUT_BUF.
  replace (Z.of_nat (length a + length p) - Z.of_nat (length p)) with (Z.of_nat (length a)) by lia.
  rewrite u32_small by lia. apply Z.mod_small. lia.
Qed.

(** Storing a character over the byte at the cursor. *)
Lemma tot_put_char L c s (k : nat) (Q : unit → cstate → Prop) : 0 ≤ c < 256 → (k < 128)%nat → at_cursor s = Z.of_nat k →
  length (ibuf_copy (input s)) = INPUT_BUF →
  (∀ cp, length cp = INPUT_BUF →
     Q tt (set_input (let x := input s in In (<[k := c]> (ibuf x)) cp (ir x) (iw x) (u32 (ie x + 1)) (flag_copy x) (flag_paste x)) s)) →
  totl L (put_char c) Q s.
Proof.
  intros Hc Hk Hat Hcp HQ. unfold put_char. tot_step. rewrite Hat. apply tot_bind, tot_wr_buf; [lia|].
  rewrite Nat2Z.id, u8_byte by done. tot_step. set (s1 := set_input _ s).
  destruct (negb (flag_paste (input s1) =? 0)).
  - apply tot_bind. tot_step. change (at_cursor s1) with (at_cursor s). rewrite Hat. apply tot_wr_copy; [lia|].
    apply tot_modify. rewrite Nat2Z.id. apply (HQ (<[k := u8 49]> (ibuf_copy (input s)))). by rewrite length_insert.
  - tot_step. apply tot_modify. apply (HQ (ibuf_copy (input s))). done.
Qed.

Lemma tot_insert L c s a p x0 t (Q : unit → cstate → Prop) :
  text a p (x0 :: t) (input s) → lefts s = Z.of_nat (length p) → t ≠ [] → panicked s = 0 →
  0 ≤ cursor s < 2000 → 0 ≤ c < 256 → c ≠ 10 →
  (∀ x' s', text (a ++ [c]) p (x0 :: drop 1 t) x' → marks (input s) x' → drawn x' (wrap (cursor s + 1)) s s' → Q tt s') →
  totl L (consputc c;; put_char c) Q s.
Proof.
  intros T Hl Ht Hpan Hcur Hc Hn HQ. destruct t as [|y0 t]; [done|].
  pose proof (t_len _ _ _ _ T) as Hlen. rewrite !length_app in Hlen. cbn [length] in Hlen. unfold INPUT_BUF in Hlen.
  apply tot_bind. unfold consputc. tot_step. rewrite Hpan. change (negb (0 =? 0)) with false. cbv iota.
  rewrite (proj2 (Z.eqb_neq c BACKSPACE)) by (unfold BACKSPACE; lia). unfold uartputc. tot_step.
  unfold cgaputc. tot_step. cbn [cursor set_serial].
  rewrite (proj2 (Z.eqb_neq c 10)) by done. rewrite (proj2 (Z.eqb_neq c BACKSPACE)) by (unfold BACKSPACE; lia).
  apply tot_bind, tot_bind. eapply tot_shift_right; [done|done|]. intros m cp z Hcp Hz. apply tot_bind, tot_modify, tot_ret.
  apply tot_cga_end; [lia|]. intros m'.
  apply (tot_put_char L c _ (length a)); [done|lia| |exact Hcp|].
  { unfold at_cursor. cbn. rewrite (t_e _ _ _ _ T), Hl. unfold INPUT_BUF.
    replace (Z.of_nat (length a + length p) - Z.of_nat (length p)) with (Z.of_nat (length a)) by lia.
    rewrite u32_small by lia. apply Z.mod_small. lia. }
  intros cp' Hcp'. eapply HQ; [apply (text_insert _ _ _ _ (input s) z); [done|done|exact Hcp'|simpl; lia]|done|].
  eexists _, _. reflexivity.
Qed.

Lemma tot_newline L s a p x0 t (Q : unit → cstate → Prop) :
  text a p (x0 :: t) (input s) → panicked s = 0 → 0 ≤ cursor s < 2000 →
  (∀ x' s', text (a ++ p ++ [10]) [] t x' → marks (input s) x' →
     drawn x' (next_line (cursor s)) (set_lefts 0 s) s' → Q tt s') →
  totl L (consputc 10;; put_char 10) Q s.
Proof.
  intros T Hpan Hcur HQ. destruct T as [Hb Hlen Hcp Hby He].
  pose proof Hlen as Hlen'. rewrite !length_app in Hlen'. cbn [length] in Hlen'. unfold INPUT_BUF in Hlen'.
  apply tot_bind. unfold consputc. tot_step. rewrite Hpan. change (negb (0 =? 0)) with false. cbv iota.
  change (10 =? BACKSPACE) with false. cbv iota. unfold uartputc. tot_step.
  unfold cgaputc. tot_step. cbn [cursor set_serial]. change (10 =? 10) with true. cbv iota.
  apply tot_bind. tot_step. tot_step.
  apply tot_cga_end; [Z.to_euclidean_division_equations; lia|]. intros m'.
  apply (tot_put_char L 10 _ (length a + length p)%nat); [lia|lia| |exact Hcp|].
  { unfold at_cursor. cbn. rewrite He. rewrite Z.sub_0_r, u32_small by lia. apply Z.mod_small. unfold INPUT_BUF. lia. }
  intros cp' Hcp'. eapply HQ; [| |eexists _, _; reflexivity]; [|done].
  assert (<[(length a + length p)%nat := 10]> (a ++ p ++ x0 :: t) = (a ++ p ++ [10]) ++ t) as E.
  { rewrite !insert_app_r_alt by lia. replace (length a + length p - length a - length p)%nat with 0%nat by lia.
    cbn [insert list_insert]. by rewrite <- !app_assoc. }
  split; cbn [ibuf ibuf_copy ie].
  - cbn. rewrite Hb. exact E.
  - rewrite app_nil_l. rewrite <- E, length_insert. done.
  - done.
  - rewrite app_nil_l, <- E. apply Forall_insert; [done|lia].
  - cbn. rewrite He, u32_small by lia. rewrite !length_app. simpl. lia.
Qed.

Lemma tot_backspace L s a d p t (Q : unit → cstate → Prop) :
  text (a ++ [d]) p t (input s) → lefts s = Z.of_nat (length p) → panicked s = 0 → 1 ≤ cursor s ≤ 2000 →
  (∀ x' z s', text a p (z :: t) x' → marks (input s) x' → drawn x' (wrap (cursor s - 1)) s s' → Q tt s') →
  totl L (consputc BACKSPACE) Q s.
Proof.
  intros T Hl Hpan Hcur HQ. destruct T as [Hb Hlen Hcp Hby He].
  pose proof Hlen as Hlen'. rewrite !length_app in Hlen'. cbn [length] in Hlen'. unfold INPUT_BUF in Hlen'.
  rewrite length_app in He. cbn [length] in He.
  unfold consputc. tot_step. rewrite Hpan. change (negb (0 =? 0)) with false. cbv iota. change (BACKSPACE =? BACKSPACE) with true. cbv iota.
  apply tot_bind. apply tot_bind, tot_modify. tot_step.
  assert (at_cursor (set_input (set_e (u32 (ie (input s) - 1)) (input s)) s) = Z.of_nat (length a)) as Hat.
  { unfold at_cursor. cbn. rewrite He, Hl, (u32_small (Z.of_nat (length a + 1 + length p) - 1)) by lia.
    replace (Z.of_nat (length a + 1 + length p) - 1 - Z.of_nat (length p)) with (Z.of_nat (length a)) by lia.
    rewrite u32_small by lia. apply Z.mod_small. unfold INPUT_BUF. lia. }
  rewrite Hat. apply tot_bind, tot_wr_buf; [lia|]. apply tot_bind, tot_wr_copy; [lia|].
  apply tot_bind, tot_modify, tot_bind, tot_modify, tot_modify.
  unfold cgaputc. tot_step. cbn [cursor set_serial set_input]. change (BACKSPACE =? 10) with false.
  change (BACKSPACE =? BACKSPACE) with true. cbv iota. apply tot_bind, tot_bind. unfold shift_left_next_chars. tot_step.
  apply tot_bind, (tot_for_each_crt L (λ i, i + 1)). intros m. tot_step. cbn [lefts set_serial set_input set_crt input ie set_e set_ibuf set_ibuf_copy].
  rewrite He, Hl, !(u32_small (Z.of_nat (length a + 1 + length p) - 1)) by lia.
  replace (Z.of_nat (length a + 1 + length p) - 1) with (Z.of_nat (length a + length p)) by lia.
  replace (Z.of_nat (length a + length p) - Z.of_nat (length p)) with (Z.of_nat (length a)) by lia.
  rewrite i32_small by lia.
  rewrite (up_asc (length p)); [|lia|lia|unfold turns; lia| |].
  2:{ intros j Hj. rewrite u32_small by lia. apply Z.ltb_lt. lia. }
  2:{ rewrite u32_small by lia. apply Z.ltb_ge. lia. }
  apply tot_for_each_shift; [apply asc_inside; lia|]. tot_step.
  rewrite (proj2 (Z.ltb_lt 0 (cursor s))) by lia. apply tot_cga_end; [lia|]. intros m'.
  apply Forall_app in Hby as [[Ha Hd]%Forall_app [Hp Ht]%Forall_app].
  destruct (shifts_left p a 0 t Hp ltac:(lia)) as (z & Hz & E).
  eapply (HQ _ z); [| |eexists _, _; reflexivity]; [|done].
  split; cbn.
  - rewrite Nat2Z.id, Hb. rewrite <- app_assoc. cbn [app]. rewrite insert_app_r_alt, Nat.sub_diag by lia. exact E.
  - rewrite !length_app. unfold INPUT_BUF. simpl. lia.
  - by rewrite length_shifts, length_insert.
  - apply Forall_app. split; [done|]. apply Forall_app. split; [done|]. by constructor.
  - done.
Qed.

(** ** The line editor as it is meant

    The bytes that are complete and not read yet, and the line being typed, with
    the cursor between two parts of it. *)
Record line := Line { unread : list Z; before : list Z; after : list Z }.

(** The command is told from "history" by one of its first characters. *)
Fixpoint differs (l w : list Z) : bool :=
  match l, w with
  | x :: l, y :: w => if x =? y then differs l w else true
  | _, _ => false
  end.
Definition whole (l : line) : list Z := unread l ++ before l ++ after l.

(** A key, for those that only edit: [None] for the history, copy and paste, the
    calculator, the end of file, and a line that looks like the history command. *)
Definition edit (c : Z) (l : line) : option line :=
  if c =? Ctl 80 then Some l
  else if c =? Ctl 85 then Some (Line (unread l) [] [])
  else if ((c =? Ctl 72) || (c =? 0x7f))%bool then Some (Line (unread l) (removelast (before l)) (after l))
  else if c =? LEFTARROW then
    Some match last (before l) with
         | Some d => Line (unread l) (removelast (before l)) (d :: after l)
         | None => l
         end
  else if c =? RIGHTARROW then
    Some match after l with
         | d :: p => Line (unread l) (before l ++ [d]) p
         | [] => l
         end
  else if existsb (Z.eqb c) [Ctl 83; UPARROW; DOWNARROW; Ctl 70; Ctl 68; 63] then None
  else if c =? 0 then Some l
  else if ((c =? 10) || (c =? 13))%bool then
    if differs (whole l) history_word then Some (Line (whole l ++ [10]) [] []) else None
  else if ((0 <=? c) && (c <? 256))%bool then Some (Line (unread l) (before l ++ [c]) (after l))
  else None.
Fixpoint edits (cs : list Z) (l : line) : option line :=
  match cs with
  | [] => Some l
  | c :: cs => edit c l ≫= edits cs
  end.

(** The line fits on the screen: it starts at a place from which a full buffer
    does not leave it. *)
Definition on_screen (cur : Z) (l : line) : Prop :=
  let n := Z.of_nat (length (before l)) in
  n ≤ cur ∧ (cur - n ≤ 1872 ∨ before l = [] ∧ after l = [] ∧ cur = 1920).

Definition history_ok (h : History) : Prop :=
  length (hist h) = 10%nat ∧ 0 ≤ hcount h ≤ 10 ∧ hlast h = hcount h - 1.

(** The console holds the line. *)
Record editing (l : line) (s : cstate) : Prop := {
  ed_text : ∃ old t, text (old ++ unread l ++ before l) (after l) t (input s) ∧ ir (input s) = Z.of_nat (length old);
  ed_w : iw (input s) = ir (input s) + Z.of_nat (length (unread l));
  ed_lefts : lefts s = Z.of_nat (length (after l));
  ed_panic : panicked s = 0;
  ed_screen : on_screen (cursor s) l;
  ed_history : history_ok (history s);
  ed_line : Forall (.≠ 10) (before l ++ after l) }.

Lemma wrap_range pos : 0 ≤ pos ≤ 2000 → 0 ≤ wrap pos ≤ 1920 ∧ (wrap pos = pos ∧ pos < 1920 ∨ wrap pos = pos - 80 ∧ 1920 ≤ pos).
Proof. unfold wrap. intros H. destruct (Z.leb_spec 24 (pos / 80)); Z.to_euclidean_division_equations; lia. Qed.

Lemma next_line_range pos : 0 ≤ pos < 2000 → 0 ≤ next_line pos ∧ (next_line pos ≤ 1840 ∨ next_line pos = 1920).
Proof.
  unfold next_line, wrap. intros H. destruct (Z.leb_spec 24 ((pos + (80 - pos mod 80)) / 80)); Z.to_euclidean_division_equations; lia.
Qed.

Lemma screen_cursor cur l n : on_screen cur l → (length (before l) + length (after l) ≤ n)%nat → (n ≤ 127)%nat → 0 ≤ cur < 2000.
Proof. intros [H1 H2] Hn Hn'. destruct H2 as [H2|(E1 & E2 & H2)]; lia. Qed.

(** ** Each key *)

Lemma tot_seq {S A B C} L (m : M S A) (k : M S B) (r : M S C) Q s :
  totl L (m;; k) (λ _, totl L r Q) s → totl L (m;; k;; r) Q s.
Proof.
  intros H tr. destruct (H tr) as (a & t1 & s1 & E1 & H1). destruct (H1 t1) as (b & t2 & s2 & E2 & H2).
  exists b, t2, s2. split; [|done]. rewrite <- E2. rewrite <- (bind_assoc m (λ _, k) (λ _, r)). by rewrite (bind_Ret _ _ _ _ _ _ _ E1).
Qed.

Lemma editing_e l s : editing l s → ∃ n : nat, ie (input s) = Z.of_nat n ∧
  (length (unread l) + length (before l) + length (after l) ≤ n)%nat ∧ ir (input s) + Z.of_nat (length (whole l)) = Z.of_nat n ∧
  iw (input s) + Z.of_nat (length (before l) + length (after l)) = Z.of_nat n ∧ 0 ≤ ir (input s).
Proof.
  intros [(old & t & T & Hr) Hw _ _ _ _ _]. rewrite (t_e _ _ _ _ T). exists (length (old ++ unread l ++ before l) + length (after l))%nat.
  rewrite Hw, Hr. unfold whole. rewrite !length_app. lia.
Qed.

(** The tail of the buffer after the line. *)
Lemma editing_tail l s n : editing l s → ie (input s) = Z.of_nat n → (n ≤ 127)%nat →
  ∃ old x0 t, text (old ++ unread l ++ before l) (after l) (x0 :: t) (input s) ∧ ir (input s) = Z.of_nat (length old) ∧
    (n + S (length t))%nat = 128%nat.
Proof.
  intros [(old & t & T & Hr) _ _ _ _ _ _] He Hn. pose proof (t_len _ _ _ _ T) as Hl. pose proof (t_e _ _ _ _ T) as He'.
  rewrite !length_app in Hl. rewrite !length_app in He'. unfold INPUT_BUF in Hl. rewrite He in He'.
  destruct t as [|x0 t]; [cbn [length] in Hl; lia|]. exists old, x0, t. split; [done|]. split; [done|]. cbn [length] in Hl. lia.
Qed.

Definition grown (l' : line) (s s' : cstate) : Prop := editing l' s' ∧ ie (input s') ≤ ie (input s) + 1.

Lemma tot_key_insert fl db L c l s n :
  editing l s → ie (input s) = Z.of_nat n → (n ≤ 126)%nat → 0 < c < 256 → c ∉ [10; 13; Ctl 68; Ctl 70; 63] →
  totl L (typed fl db c) (λ _, grown (Line (unread l) (before l ++ [c]) (after l)) s) s.
Proof.
  intros E He Hn Hc Hx. destruct (editing_tail l s n E He ltac:(lia)) as (old & x0 & t & T & Hr & Hlen).
  destruct (editing_e l s E) as (n' & He' & Hle & Hr' & Hw' & Hr0). assert (n' = n) as -> by lia. clear He'.
  rewrite !not_elem_of_cons in Hx. destruct Hx as (X1 & X2 & X3 & X4 & X5 & _).
  unfold typed. tot_step. rewrite He.
  rewrite (proj2 (Z.eqb_neq c 0)) by lia. rewrite (u32_small (_ - _)) by lia.
  rewrite (proj2 (Z.ltb_lt (Z.of_nat n - ir (input s)) (Z.of_nat INPUT_BUF))) by (unfold INPUT_BUF; lia). cbn [negb andb]. cbv zeta.
  rewrite (proj2 (Z.eqb_neq c 13) X2). rewrite (proj2 (Z.eqb_neq c _) X4).
  apply tot_bind, tot_seq. destruct E as [_ Ew El Ep Es Eh En]. pose proof (screen_cursor _ _ n Es ltac:(lia) ltac:(lia)) as Hcur.
  eapply (tot_insert L c s _ _ x0 t); [exact T|done|intros ->; simpl in Hlen; lia|done|done|lia|done|].
  intros x' s' T' (Mr & Mw & _) (m & out & ->). rewrite (proj2 (Z.eqb_neq c 63) X5). tot_step. tot_step.
  cbn [input]. rewrite (proj2 (Z.eqb_neq c 10) X1), (proj2 (Z.eqb_neq c _) X3).
  pose proof (t_e _ _ _ _ T') as Te. pose proof (t_e _ _ _ _ T) as Te0. rewrite length_app in Te. cbn [length] in Te.
  rewrite (proj2 (Z.eqb_neq (ie x') _)).
  2:{ rewrite Te, Mr, u32_small by (unfold INPUT_BUF; lia). unfold INPUT_BUF. lia. }
  cbn [orb]. tot_step. split; cbn [input]; [|lia]. pose proof (wrap_range (cursor s + 1) ltac:(lia)) as Hw.
  destruct Es as [S1 S2]. split; cbn [input lefts panicked cursor history unread before after].
  - exists old, (x0 :: drop 1 t). rewrite Mr. split; [|done]. by rewrite <- !app_assoc in T'.
  - by rewrite Mw, Mr.
  - done.
  - done.
  - unfold on_screen. cbn [before after]. rewrite length_app. cbn [length].
    destruct S2 as [S2|(-> & _ & S2)]; [split; [lia|left; lia]|]. simpl in *. lia.
  - done.
  - rewrite <- app_assoc. apply Forall_app in En as [? ?]. apply Forall_app. split; [done|]. by constructor.
Qed.

Lemma tot_is_history_loop L l : ∀ i j (s : cstate), 0 ≤ i → i + Z.of_nat (length l) ≤ 128 →
  (∀ k x, l !! k = Some x → nth (Z.to_nat i + k) (ibuf (input s)) 0 = x) → differs l (drop j history_word) = true →
  totl L (is_command_history_loop (asc (length l) i) j) (λ b s', b = false ∧ s' = s) s.
Proof.
  induction l as [|x l IH]; intros i j s Hi Hl Hb Hd; [done|]. cbn [length] in Hl. cbn [length asc is_command_history_loop].
  apply tot_bind, tot_rd_buf; [lia|]. rewrite <- (Nat.add_0_r (Z.to_nat i)), (Hb 0%nat x) by done.
  destruct (history_word !! j) as [h|] eqn:Ej.
  - rewrite (drop_S _ h) in Hd by done. cbn [differs] in Hd. destruct (Z.eqb_spec x h) as [->|Hne]; cbn [negb].
    + apply IH; [lia|lia| |done]. intros k y Hk. rewrite <- (Hb (S k) y Hk). f_equal. lia.
    + by apply tot_ret.
  - rewrite drop_ge in Hd by (by apply lookup_ge_None). done.
Qed.

Lemma tot_end_of_line L s old w c t (Q : unit → cstate → Prop) :
  text (old ++ w ++ [c]) [] t (input s) → ir (input s) = Z.of_nat (length old) → differs w history_word = true →
  history_ok (history s) →
  (∀ x' h', text (old ++ w ++ [c]) [] t x' → ir x' = ir (input s) → iw x' = ie (input s) → history_ok h' →
     Q tt (set_history h' (set_input x' s))) →
  totl L end_of_line Q s.
Proof.
  intros T Hr Hd (Hh & Hc & Hla) HQ. pose proof (t_e _ _ _ _ T) as He. pose proof (t_len _ _ _ _ T) as Hl.
  rewrite !length_app in He. rewrite !length_app in Hl. cbn [length] in He, Hl. unfold INPUT_BUF in Hl.
  unfold end_of_line, upd_input. tot_step. apply tot_bind.
  eapply tot_mono.
  { unfold is_command_history. tot_step. cbn [input set_input ir ie set_copy]. rewrite Hr, He, i32_small by lia.
    rewrite (up_asc (length w)); [|lia|lia|unfold turns; lia| |].
    - apply tot_is_history_loop; [lia|lia| |by rewrite drop_0]. intros k x Hk. cbn. rewrite (t_buf _ _ _ _ T), Nat2Z.id.
      rewrite nth_lookup. rewrite <- !app_assoc, lookup_app_r by lia. replace (length old + k - length old)%nat with k by lia.
      by rewrite (lookup_app_l_Some _ _ _ _ Hk).
    - intros j Hj. rewrite !u32_small by lia. apply Z.ltb_lt. lia.
    - rewrite !u32_small by lia. apply Z.ltb_ge. lia. }
  intros b s' [-> ->]. cbv iota. tot_step. tot_step. set (s1 := set_input (set_copy 0 (input s)) s).
  change (history s1) with (history s).
  assert (∀ h', history_ok h' → 1 ≤ hcount h' → totl L (h ← gets history; store_history (hlast h);;
      modify (λ s, set_input (set_w (ie (input s)) (input s)) s);; emit (EWakeup ChInput)) Q (set_history h' s1)) as Hend.
  { intros h' (Hh' & Hc' & Hl') H1. tot_step. cbn [history set_history]. unfold store_history. apply tot_bind. tot_step.
    cbn [history set_history]. rewrite Hh'. rewrite (proj2 (Z.leb_le 0 _)) by lia. rewrite (proj2 (Z.ltb_lt (hlast h') _)) by lia.
    cbn [andb]. apply tot_modify. tot_step. apply tot_emit.
    apply (HQ (set_w (ie (input s)) (set_copy 0 (input s)))
      (Hist (<[Z.to_nat (hlast h') := set_copy 0 (input s)]> (hist h')) (hindex h') (hcount h') (hlast h'))).
    - destruct T. by split.
    - done.
    - done.
    - split; [|done]. cbn [hist]. by rewrite length_insert. }
  destruct (Z.eqb_spec (hcount (history s)) 10) as [E|E].
  - unfold shift_left_previous_histories, set_hindex. tot_step. rewrite (proj2 (Z.ltb_ge _ _)) by lia. tot_step.
    apply (Hend (let h := history s in Hist (drop 1 (hist h) ++ drop 9 (hist h)) 10 (hcount h) (hlast h))); [|simpl; lia].
    split; [|simpl; lia]. cbn [hist]. by rewrite length_app, !length_drop, Hh.
  - tot_step. rewrite (proj2 (Z.ltb_lt _ _)) by lia. tot_step.
    apply (Hend (let h := history s in Hist (hist h) (i32 (hlast h + 2)) (i32 (hcount h + 1)) (i32 (hlast h + 1))));
      unfold history_ok; cbn [hist hcount hlast]; rewrite !i32_small by lia; [|lia]. split; [exact Hh|lia].
Qed.

Lemma tot_key_newline fl db L c l s n :
  editing l s → ie (input s) = Z.of_nat n → (n ≤ 126)%nat → c = 10 ∨ c = 13 → differs (whole l) history_word = true →
  totl L (typed fl db c) (λ _, grown (Line (whole l ++ [10]) [] []) s) s.
Proof.
  intros E He Hn Hc Hd. destruct (editing_tail l s n E He ltac:(lia)) as (old & x0 & t & T & Hr & Hlen).
  destruct (editing_e l s E) as (n' & He' & Hle & Hr' & Hw' & Hr0). assert (n' = n) as -> by lia. clear He'.
  unfold typed. tot_step. rewrite He.
  rewrite (proj2 (Z.eqb_neq c 0)) by lia. rewrite (u32_small (_ - _)) by lia.
  rewrite (proj2 (Z.ltb_lt (Z.of_nat n - ir (input s)) (Z.of_nat INPUT_BUF))) by (unfold INPUT_BUF; lia). cbn [negb andb]. cbv zeta.
  replace (if c =? 13 then 10 else c) with 10 by (destruct Hc as [->| ->]; done).
  change (10 =? Ctl 70) with false. cbv iota.
  apply tot_bind, tot_seq. destruct E as [_ Ew El Ep Es Eh En]. pose proof (screen_cursor _ _ n Es ltac:(lia) ltac:(lia)) as Hcur.
  eapply (tot_newline L s _ _ x0 t); [exact T|done|done|].
  intros x' s' T' (Mr & Mw & _) (m & out & ->). change (10 =? 63) with false. cbv iota. tot_step. tot_step.
  change (10 =? 10) with true. cbn [orb].
  assert (text (old ++ whole l ++ [10]) [] t x') as T2 by (unfold whole; by rewrite <- !app_assoc in T' |- * ).
  pose proof (t_e _ _ _ _ T2) as Te. rewrite !length_app in Te. cbn [length] in Te.
  eapply (tot_end_of_line L _ old (whole l) 10 t); [exact T2|cbn [input]; by rewrite Mr|done|done|].
  intros x2 h2 T3 X1 X2 X3. cbn [input] in X1, X2. split.
  - split; cbn [input set_input set_history lefts panicked cursor history unread before after].
    + exists old, t. rewrite app_nil_r. split; [exact T3|]. by rewrite X1, Mr.
    + rewrite X2, X1, Te, Mr, Hr, length_app. simpl. lia.
    + done.
    + done.
    + unfold on_screen. cbn [before after length]. pose proof (next_line_range _ Hcur) as [? Hnl]. simpl. split; [lia|]. destruct Hnl; [left; lia|by right].
    + done.
    + done.
  - cbn [input set_input set_history]. rewrite (t_e _ _ _ _ T3), !length_app, He. cbn [length]. lia.
Qed.

Lemma text_move a d p t x : text (a ++ [d]) p t x ↔ text a (d :: p) t x.
Proof.
  split; intros [H1 H2 H3 H4 H5]; split; rewrite <- ?app_assoc in *; try done;
    rewrite H5, ?length_app; cbn [length]; lia.
Qed.

Lemma last_split (l : list Z) : l = [] ∨ ∃ k d, l = k ++ [d] ∧ removelast l = k ∧ last l = Some d.
Proof.
  destruct l as [|d k _] using rev_ind; [by left|right]. exists k, d. split; [done|]. by rewrite removelast_last, last_snoc.
Qed.

(** Erasing the character before the cursor. *)
Lemma tot_erase L u b d p s n (Q : unit → cstate → Prop) :
  editing (Line u (b ++ [d]) p) s → ie (input s) = Z.of_nat n → (n ≤ 127)%nat →
  (∀ s', editing (Line u b p) s' → ie (input s') = ie (input s) - 1 → Q tt s') →
  totl L (consputc BACKSPACE) Q s.
Proof.
  intros E He Hn HQ. destruct (editing_e _ s E) as (n' & He' & Hle & _). assert (n' = n) as -> by lia. clear He'.
  destruct E as [(old & t & T & Hr) Ew El Ep Es Eh En]. cbn [unread before after] in *.
  pose proof (screen_cursor _ _ n Es) as Hcur. cbn [before after] in Hcur. rewrite length_app in Hle, Hcur. cbn [length] in Hle, Hcur.
  specialize (Hcur ltac:(lia) ltac:(lia)). destruct Es as [S1 S2]. cbn [before after] in S1, S2. rewrite length_app in S1, S2. cbn [length] in S1, S2.
  eapply (tot_backspace L s (old ++ u ++ b) d p t); [by rewrite <- !app_assoc|done|done|lia|].
  intros x' z s' T' (Mr & Mw & _) (m & out & ->). pose proof (t_e _ _ _ _ T') as Te. pose proof (t_e _ _ _ _ T) as Te0.
  rewrite !length_app in Te. rewrite !length_app in Te0. cbn [length] in Te0. pose proof (wrap_range (cursor s - 1) ltac:(lia)) as Hw.
  apply HQ; [|cbn [input]; lia].
  split; cbn [input lefts panicked cursor history unread before after].
  - exists old, (z :: t). by rewrite Mr.
  - by rewrite Mw, Mr.
  - done.
  - done.
  - unfold on_screen. cbn [before after]. destruct S2 as [S2|(S2 & _)]; [split; [lia|left; lia]|by apply app_nil in S2 as [_ ?]].
  - done.
  - rewrite <- app_assoc in En. apply Forall_app in En as [? [_ ?]%Forall_cons]. by apply Forall_app.
Qed.

Lemma editing_left u b d p s : editing (Line u (b ++ [d]) p) s → (length b + length p ≤ 126)%nat →
  editing (Line u b (d :: p)) (set_lefts (i32 (lefts s + 1)) (set_cursor ((cursor s - 1) mod 65536) s)).
Proof.
  intros [(old & t & T & Hr) Ew El Ep [S1 S2] Eh En] Hn. cbn [unread before after] in *. rewrite length_app in S1, S2. cbn [length] in S1, S2.
  assert (S2' : cursor s - (Z.of_nat (length b + 1)) ≤ 1872) by (destruct S2 as [|(S2 & _)]; [done|by apply app_nil in S2 as [_ ?]]).
  split; cbn [input set_lefts set_cursor lefts panicked cursor history unread before after].
  - exists old, t. split; [|done]. apply text_move. by rewrite <- !app_assoc.
  - done.
  - rewrite El, i32_small by lia. simpl. lia.
  - done.
  - unfold on_screen. cbn [before after]. rewrite Z.mod_small by lia. split; [lia|left; lia].
  - done.
  - by rewrite <- app_assoc in En.
Qed.

Lemma editing_right u b d p s : editing (Line u b (d :: p)) s → (length b + length p ≤ 126)%nat →
  editing (Line u (b ++ [d]) p) (set_lefts (i32 (lefts s - 1)) (set_cursor ((cursor s + 1) mod 65536) s)).
Proof.
  intros [(old & t & T & Hr) Ew El Ep [S1 S2] Eh En] Hn. cbn [unread before after] in *. cbn [length] in El.
  assert (S2' : cursor s - Z.of_nat (length b) ≤ 1872) by (destruct S2 as [|(_ & S2 & _)]; done).
  split; cbn [input set_lefts set_cursor lefts panicked cursor history unread before after].
  - exists old, t. split; [|done]. apply text_move in T. by rewrite <- !app_assoc in T.
  - done.
  - rewrite El, i32_small by lia. lia.
  - done.
  - unfold on_screen. cbn [before after]. rewrite length_app, Z.mod_small by lia. cbn [length]. split; [lia|left; lia].
  - done.
  - by rewrite <- app_assoc.
Qed.

(** Erasing the whole line. *)
Lemma tot_kill_loop L u b : ∀ s n (Q : unit → cstate → Prop),
  editing (Line u b []) s → ie (input s) = Z.of_nat n → (n ≤ 127)%nat →
  (∀ s', editing (Line u [] []) s' → ie (input s') ≤ ie (input s) → Q tt s') →
  totl L (kill_line_loop (length b)) Q s.
Proof.
  induction b as [|d b IH] using rev_ind; intros s n Q E He Hn HQ; destruct (editing_e _ s E) as (n' & He' & Hle & Hwh & Hw & Hr0);
    assert (n' = n) as -> by lia; cbn [unread before after length] in *.
  - cbn [kill_line_loop length]. tot_step. rewrite (proj2 (Z.eqb_eq (ie (input s)) _)) by lia. apply tot_ret, HQ; [done|lia].
  - rewrite length_app in *. cbn [length] in *. rewrite Nat.add_1_r. cbn [kill_line_loop]. tot_step.
    rewrite (proj2 (Z.eqb_neq (ie (input s)) _)) by lia. rewrite He, u32_small, Z.mod_small by (unfold INPUT_BUF; lia).
    apply tot_bind, tot_rd_buf; [lia|].
    assert (nth (Z.to_nat (Z.of_nat n - 1)) (ibuf (input s)) 0 = d) as ->.
    { destruct E as [(old & t & T & _) _ _ _ _ _ _]. cbn [unread before after] in T. rewrite (t_buf _ _ _ _ T).
      pose proof (t_e _ _ _ _ T) as Te. rewrite !length_app in Te. cbn [length] in Te.
      replace (Z.to_nat (Z.of_nat n - 1)) with (length (old ++ u ++ b)) by (rewrite !length_app; lia).
      rewrite <- !app_assoc. cbn [app]. by rewrite !app_assoc, nth_mid. }
    assert (d ≠ 10) as Hd.
    { pose proof (ed_line _ _ E) as En. cbn [before after] in En. rewrite app_nil_r in En. by apply Forall_app in En as [_ [? _]%Forall_cons]. }
    rewrite (proj2 (Z.eqb_neq d 10) Hd). apply tot_bind. eapply tot_erase; [done|done|lia|]. intros s' E' He2.
    apply (IH s' (n - 1)%nat); [done|lia|lia|]. intros s2 E2 He3. apply HQ; [done|lia].
Qed.

Lemma editing_end u b p s : editing (Line u b p) s → (length b + length p ≤ 127)%nat →
  editing (Line u (b ++ p) []) (set_cursor ((cursor s + lefts s) mod 65536) (set_lefts 0 s)).
Proof.
  intros [(old & t & T & Hr) Ew El Ep [S1 S2] Eh En] Hn. cbn [unread before after] in *.
  split; cbn [input set_lefts set_cursor lefts panicked cursor history unread before after].
  - exists old, t. split; [|done]. destruct T as [T1 T2 T3 T4 T5]. split; rewrite ?app_nil_l, <- ?app_assoc in *; try done.
    rewrite T5, !length_app. simpl. lia.
  - done.
  - done.
  - done.
  - unfold on_screen. cbn [before after]. rewrite El, length_app, Z.mod_small by lia.
    destruct S2 as [S2|(-> & -> & S2)]; [split; [lia|left; lia]|]. simpl in *. split; [lia|right; split; [done|split; [done|lia]]].
  - done.
  - by rewrite app_nil_r.
Qed.

Lemma tot_key_kill L u b p s n :
  editing (Line u b p) s → ie (input s) = Z.of_nat n → (n ≤ 126)%nat →
  totl L kill_line (λ _, grown (Line u [] []) s) s.
Proof.
  intros E He Hn. pose proof (editing_e _ s E) as (n' & He' & Hle & _ & Hw & Hr0). assert (n' = n) as -> by lia.
  cbn [unread before after] in *. unfold kill_line, write_cursor. tot_step. tot_step. tot_step. tot_step.
  set (s1 := set_cursor _ _). change (input s1) with (input s).
  assert (editing (Line u (b ++ p) []) s1) as E1 by (apply editing_end; [done|lia]).
  pose proof (ed_w _ _ E) as Hw'. cbn [unread] in Hw'.
  replace (Z.to_nat (u32 (ie (input s) - iw (input s)))) with (length (b ++ p)) by (rewrite length_app, u32_small; lia).
  apply (tot_kill_loop L u (b ++ p) s1 n); [done|exact He|lia|]. intros s' E' Hs'. split; [done|].
  change (input s1) with (input s) in Hs'. lia.
Qed.

(** The test before the keys that act on the character before the cursor. *)
Lemma editing_pos l s n : editing l s → ie (input s) = Z.of_nat n → (n ≤ 127)%nat →
  (iw (input s) <? u32 (ie (input s) - lefts s)) = negb (bool_decide (before l = [])).
Proof.
  intros E He Hn. pose proof (editing_e l s E) as (n' & He' & Hle & Hwh & Hw & Hr0). pose proof (ed_lefts _ _ E) as El.
  pose proof (ed_w _ _ E) as Ew. rewrite u32_small by lia. case_bool_decide as Eb; cbn [negb].
  - rewrite Eb in *. cbn [length] in *. apply Z.ltb_ge. lia.
  - apply Z.ltb_lt. destruct (before l); [done|]. cbn [length] in *. lia.
Qed.

Lemma tot_key_erase L u b p s n :
  editing (Line u b p) s → ie (input s) = Z.of_nat n → (n ≤ 126)%nat →
  totl L (if iw (input s) <? u32 (ie (input s) - lefts s) then consputc BACKSPACE else mret tt)
    (λ _, grown (Line u (removelast b) p) s) s.
Proof.
  intros E He Hn. rewrite (editing_pos _ _ n E He) by lia. cbn [before].
  destruct (last_split b) as [->|(k & d & -> & -> & _)].
  - apply tot_ret. split; [done|lia].
  - rewrite bool_decide_false by (by intros [_ ?]%app_nil). eapply tot_erase; [done|done|lia|]. intros s' E' Hs'. split; [done|lia].
Qed.

Lemma tot_key_left L u b p s n :
  editing (Line u b p) s → ie (input s) = Z.of_nat n → (n ≤ 126)%nat →
  totl L (if iw (input s) <? u32 (ie (input s) - lefts s)
          then update_cursor 0;; modify (λ s, set_lefts (i32 (lefts s + 1)) s) else mret tt)
    (λ _, grown match last b with Some d => Line u (removelast b) (d :: p) | None => Line u b p end s) s.
Proof.
  intros E He Hn. pose proof (editing_e _ s E) as (n' & He' & Hle & _). cbn [unread before after] in Hle.
  rewrite (editing_pos _ _ n E He) by lia. cbn [before]. destruct (last_split b) as [->|(k & d & -> & -> & ->)].
  - apply tot_ret. split; [done|lia].
  - rewrite bool_decide_false by (by intros [_ ?]%app_nil). rewrite length_app in Hle. cbn [length] in Hle.
    unfold update_cursor, write_cursor. apply tot_bind, tot_bind, tot_gets, tot_modify, tot_modify.
    split; [|simpl; lia]. exact (editing_left u k d p s E ltac:(lia)).
Qed.

Lemma tot_key_right L u b p s n :
  editing (Line u b p) s → ie (input s) = Z.of_nat n → (n ≤ 126)%nat →
  totl L (if 0 <? lefts s then update_cursor 1;; modify (λ s, set_lefts (i32 (lefts s - 1)) s) else mret tt)
    (λ _, grown match p with d :: p' => Line u (b ++ [d]) p' | [] => Line u b p end s) s.
Proof.
  intros E He Hn. pose proof (editing_e _ s E) as (n' & He' & Hle & _). cbn [unread before after] in Hle.
  pose proof (ed_lefts _ _ E) as El. cbn [after] in El. rewrite El. destruct p as [|d p].
  - apply tot_ret. split; [done|lia].
  - rewrite (proj2 (Z.ltb_lt _ _)) by (simpl; lia). cbn [length] in Hle.
    unfold update_cursor, write_cursor. apply tot_bind, tot_bind, tot_gets, tot_modify, tot_modify.
    split; [|simpl; lia]. exact (editing_right u b d p s E ltac:(lia)).
Qed.

Lemma tot_then {S A B} L (m : M S A) (b : B) (Q : S → Prop) s :
  totl L m (λ _ s', Q s') s → totl L (m;; mret b) (λ _ s', Q s') s.
Proof. intros H. apply tot_bind. eapply tot_mono; [exact H|]. intros a s' Hs. by apply tot_ret. Qed.

Lemma tot_key fl db L c l l' s n :
  editing l s → edit c l = Some l' → ie (input s) = Z.of_nat n → (n ≤ 126)%nat →
  totl L (key fl db c) (λ _, grown l' s) s.
Proof.
  intros E Hed He Hn. assert (grown l s s) as Hsame by (split; [done|lia]).
  unfold key. tot_step. unfold edit in Hed. destruct l as [u b p]. cbn [unread before after] in Hed.
  destruct (c =? Ctl 80); [simplify_eq; by apply tot_ret|].
  destruct (c =? Ctl 85); [simplify_eq; by eapply tot_then, tot_key_kill|].
  destruct ((c =? Ctl 72) || (c =? 127))%bool; [simplify_eq; by eapply tot_then, tot_key_erase|].
  destruct (Z.eqb_spec c (Ctl 83)) as [->|N83]; [done|].
  destruct (c =? LEFTARROW); [simplify_eq; by eapply tot_then, tot_key_left|].
  destruct (c =? RIGHTARROW); [simplify_eq; by eapply tot_then, tot_key_right|].
  destruct (existsb _ _) eqn:Hex; [done|]. cbn [existsb] in Hex. rewrite !orb_false_iff, !Z.eqb_neq in Hex.
  destruct Hex as (_ & NU & ND & N70 & N68 & N63 & _).
  rewrite (proj2 (Z.eqb_neq c _) NU), (proj2 (Z.eqb_neq c _) ND). apply tot_then.
  destruct (Z.eqb_spec c 0) as [->|N0].
  { injection Hed as <-. unfold typed. tot_step. change (negb (0 =? 0)) with false. cbn [andb]. by apply tot_ret. }
  destruct ((c =? 10) || (c =? 13))%bool eqn:Enl.
  { destruct (differs _ _) eqn:Ed; [|done]. injection Hed as <-. rewrite orb_true_iff, !Z.eqb_eq in Enl.
    by eapply tot_key_newline. }
  destruct ((0 <=? c) && (c <? 256))%bool eqn:Eb; [|done]. injection Hed as <-.
  rewrite andb_true_iff, Z.leb_le, Z.ltb_lt in Eb. rewrite orb_false_iff, !Z.eqb_neq in Enl.
  apply (tot_key_insert fl db L c (Line u b p) s n); [done|done|done|lia|].
  rewrite !not_elem_of_cons. repeat split; try tauto. apply not_elem_of_nil.
Qed.

Lemma tot_keys fl db L cs : ∀ l l' s dump,
  editing l s → edits cs l = Some l' → ie (input s) + Z.of_nat (length cs) ≤ 127 →
  totl L (consoleintr_loop fl db cs dump) (λ _ s', editing l' s' ∧ ie (input s') ≤ ie (input s) + Z.of_nat (length cs)) s.
Proof.
  induction cs as [|c cs IH]; intros l l' s dump E Hed Hn; cbn [edits length] in *; cbn [consoleintr_loop].
  - simplify_eq. apply tot_ret. split; [done|lia].
  - apply bind_Some in Hed as (l1 & H1 & H2). destruct (editing_e l s E) as (n & He & _).
    apply tot_bind. eapply tot_mono; [eapply (tot_key fl db L c l l1 s n); [done|done|done|lia]|].
    intros d s1 [E1 He1]. eapply tot_mono; [apply (IH l1 l' s1); [done|done|lia]|]. intros r s2 [E2 He2]. split; [done|lia].
Qed.

(** ** Reading *)

(** What a read of [n] bytes takes from the complete bytes: up to the end of a
    line, or an end of file, which is left for the next read if there are bytes
    before it; [None] when it waits for more. *)
Fixpoint read_line (target n : nat) (u : list Z) : option (list Z * list Z) :=
  match n with
  | O => Some ([], u)
  | S n' =>
      match u with
      | [] => None
      | c :: u' =>
          if c =? Ctl 68 then Some ([], if (n <? target)%nat then u else u')
          else if c =? 10 then Some ([c], u')
          else (λ r, (c :: fst r, snd r)) <$> read_line target n' u'
      end
  end.

(** One byte taken. *)
Lemma editing_take c u b p s : editing (Line (c :: u) b p) s →
  editing (Line u b p) (set_input (set_r (u32 (ir (input s) + 1)) (input s)) s).
Proof.
  intros E. destruct (editing_e _ s E) as (n & He & Hle & _). destruct E as [(old & t & T & Hr) Ew El Ep Es Eh En].
  pose proof (t_len _ _ _ _ T) as Hl. cbn [unread before after] in *. rewrite !length_app in Hl. cbn [length] in *. unfold INPUT_BUF in Hl.
  split; cbn [input set_input ir iw set_r lefts panicked cursor history unread before after]; try done.
  - exists (old ++ [c]), t. rewrite Hr, u32_small, length_app by lia. split; [|simpl; lia].
    replace (old ++ (c :: u) ++ b) with ((old ++ [c]) ++ u ++ b) in T by (by rewrite <- app_assoc). by destruct T.
  - rewrite Hr, u32_small by lia. lia.
Qed.
Lemma editing_head c u b p s : editing (Line (c :: u) b p) s →
  0 ≤ ir (input s) < 128 ∧ ir (input s) ≠ iw (input s) ∧ nth (Z.to_nat (ir (input s))) (ibuf (input s)) 0 = c.
Proof.
  intros [(old & t & T & Hr) Ew _ _ _ _ _]. pose proof (t_len _ _ _ _ T) as Hl. cbn [unread before after] in *.
  rewrite !length_app in Hl. cbn [length] in *. unfold INPUT_BUF in Hl. split; [lia|]. split; [lia|].
  rewrite (t_buf _ _ _ _ T), Hr, Nat2Z.id, <- !app_assoc. cbn [app]. by rewrite nth_mid.
Qed.

Lemma tot_read_loop L killed target b p : ∀ n u dst out u' s, (n ≤ target)%nat →
  editing (Line u b p) s → read_line target n u = Some (out, u') →
  totl L (consoleread_loop killed target n dst)
    (λ r s', r = Some ((n - length out)%nat, dst ++ out) ∧ (length out ≤ n)%nat ∧ editing (Line u' b p) s') s.
Proof.
  induction n as [|n IH]; intros u dst out u' s Hn E Hr; cbn [consoleread_loop read_line] in *.
  - simplify_eq. apply tot_ret. rewrite app_nil_r. done.
  - destruct u as [|c u]; [done|]. destruct (editing_head _ _ _ _ _ E) as (Hr0 & Hne & Hc).
    tot_step. rewrite (proj2 (Z.eqb_neq _ _) Hne). rewrite Z.mod_small by (unfold INPUT_BUF; lia).
    apply tot_bind, tot_rd_buf; [done|]. rewrite Hc. apply tot_bind, tot_modify. pose proof (editing_take _ _ _ _ _ E) as E'.
    destruct (c =? Ctl 68).
    + injection Hr as <- <-. apply tot_bind. destruct (S n <? target)%nat.
      * apply tot_modify, tot_ret. rewrite app_nil_r, Nat.sub_0_r. split; [done|]. split; [simpl; lia|].
        cbn [set_input input ir set_r]. rewrite !u32_small by (rewrite ?u32_small; lia).
        destruct s as [[]]. cbn in *. by rewrite Z.add_simpl_r.
      * apply tot_ret, tot_ret. rewrite app_nil_r, Nat.sub_0_r. split; [done|]. split; [simpl; lia|done].
    + destruct (c =? 10).
      * injection Hr as <- <-. apply tot_ret. simpl. rewrite Nat.sub_0_r. split; [done|]. split; [lia|done].
      * destruct (read_line target n u) as [[o v]|] eqn:Er; [|done]. simpl in Hr. injection Hr as <- <-.
        eapply tot_mono; [apply (IH u (dst ++ [c]) o v _ ltac:(lia) E' Er)|]. intros r s' (-> & Hl & H).
        rewrite <- app_assoc. simpl. split; [done|]. split; [lia|done].
Qed.

(** The driver's inode is locked and in memory. *)
Definition inode_held (mypid : Z) (ip : nat) (f : fstate) : Prop :=
  ∃ i, inodes f !! ip = Some i ∧ ilk i = Sleeplock.SL 1 mypid ∧ 1 ≤ ref i ∧ valid i ≠ 0.
Definition unlocked (ip : nat) (f : fstate) : fstate := set_inodes (alter (set_ilk (Sleeplock.SL 0 0)) ip (inodes f)) f.

Lemma inode_at_alter f ip l i : inodes f !! ip = Some i → inode_at ip (set_inodes (alter (set_ilk l) ip (inodes f)) f) = set_ilk l i.
Proof. intros Hi. unfold inode_at. simpl. by rewrite list_lookup_alter_eq, Hi. Qed.

Lemma alter_ilk_twice l l' ip (I : list inode) : alter (set_ilk l') ip (alter (set_ilk l) ip I) = alter (set_ilk l') ip I.
Proof. apply list_eq. intros k. rewrite !list_lookup_alter. repeat case_decide; try done. by destruct (I !! ip). Qed.
Lemma alter_ilk_same ip (I : list inode) i : I !! ip = Some i → alter (set_ilk (ilk i)) ip I = I.
Proof. intros Hi. apply list_eq. intros k. rewrite list_lookup_alter. case_decide; [|done]. subst. rewrite Hi. by destruct i. Qed.

Lemma tot_iunlock mypid ip f : inode_held mypid ip f → tot (iunlock mypid ip) (λ _ f', f' = unlocked ip f) f.
Proof.
  intros (i & Hi & Hl & Hr & Hv). assert (inode_at ip f = i) as Ei by (unfold inode_at; by rewrite Hi).
  unfold iunlock. apply tot_bind, tot_zoom. rewrite Ei. eapply tot_mono; [by apply tot_holdingsleep|].
  intros h l [-> ->]. tot_step. rewrite (inode_at_alter _ _ _ _ Hi). cbn [ref set_ilk].
  rewrite (proj2 (Z.ltb_ge _ _)) by done. cbn [negb orb]. apply tot_zoom. eapply tot_mono; [apply tot_releasesleep|].
  intros [] l ->. unfold unlocked, set_inodes. cbn. by rewrite alter_ilk_twice.
Qed.
Lemma tot_ilock_back mypid ip f : inode_held mypid ip f → tot (ilock mypid ip) (λ _ f', f' = f) (unlocked ip f).
Proof.
  intros (i & Hi & Hl & Hr & Hv). unfold ilock. tot_step. unfold unlocked. rewrite (inode_at_alter _ _ _ _ Hi). cbn [ref set_ilk].
  rewrite (proj2 (Z.ltb_ge _ _)) by done. apply tot_bind, tot_zoom. rewrite (inode_at_alter _ _ _ _ Hi).
  eapply tot_mono; [by apply tot_acquiresleep|]. intros [] l ->.
  match goal with |- totl _ _ _ ?f2 => assert (f2 = f) as -> end.
  { destruct f as [a I b]. unfold set_inodes. cbn in *. by rewrite alter_ilk_twice, <- Hl, alter_ilk_same. }
  tot_step. assert (inode_at ip f = i) as -> by (unfold inode_at; by rewrite Hi).
  rewrite (proj2 (Z.eqb_neq _ _) Hv). by apply tot_ret.
Qed.

(** A section of code under [cons.lock]. *)
Lemma tot_critical {S A B} (m : M S A) (k : A → M S B) Q s l :
  totl [l] m (λ a, tot (k a) Q) s → tot (acquire l;; a ← m; release l;; k a) Q s.
Proof.
  intros H tr. rewrite bind_acquire by apply not_elem_of_nil. destruct (H tr) as (a & t1 & s1 & E1 & H1).
  rewrite (bind_Ret _ _ _ _ _ _ _ E1), bind_release by apply not_elem_of_nil. apply H1.
Qed.
Lemma tot_critical_con {A B} (m : M cstate A) (k : A → M cdev B) Q s :
  totl [Lcons] m (λ a c, tot (k a) Q (CDev c (cfs s))) (con s) →
  tot (on_con (acquire Lcons);; a ← on_con m; on_con (release Lcons);; k a) Q s.
Proof.
  intros H tr. destruct (H tr) as (a & t1 & c1 & E1 & H1). destruct s as [c f]. cbn [con cfs] in *.
  rewrite (bind_Ret _ _ _ _ tt (Ctx [Lcons] tr) (CDev c f)) by reflexivity.
  rewrite (bind_Ret _ _ _ _ a (Ctx [Lcons] t1) (CDev c1 f)) by (unfold on_con, zoom; cbn [con]; by rewrite E1).
  rewrite (bind_Ret _ _ _ _ tt (Ctx [] t1) (CDev c1 f)) by reflexivity. apply H1.
Qed.

(** ** The claims *)

(** C6: The keyboard handler is a line editor: for characters that only edit (text,
    backspace, kill line, the arrows to the left and right, the end of a line)
    the handler returns, and the buffer holds the line that the keys make of the
    line it held, with insertion and deletion at the cursor; the text of finished
    lines waits for the readers. The buffer is large enough while no more than 127
    characters have been typed since boot. *)
Theorem console_line_editor fl db cs l l' s :
  editing l s → edits cs l = Some l' → ie (input s) + Z.of_nat (length cs) ≤ 127 →
  tot (consoleintr fl db cs) (λ _ s', editing l' s') s.
Proof.
  intros E Hed Hn. unfold consoleintr. apply tot_critical. eapply tot_mono; [by apply (tot_keys fl db [Lcons] cs l l')|].
  intros d s' [E' _]. by apply tot_ret.
Qed.

(** C36: What is typed is what is read: [consoleread] returns the finished bytes up to
    the end of the line, the number asked for or an end of file, takes them from
    the buffer and leaves the line being typed as it is; it gives up the inode's
    lock meanwhile and has it again when it returns. *)
Theorem console_read mypid killed ip n l s out u :
  editing l (con s) → inode_held mypid ip (cfs s) → read_line n n (unread l) = Some (out, u) →
  tot (consoleread mypid killed ip n) (λ r s', r = (Z.of_nat (length out), out) ∧
    editing (Line u (before l) (after l)) (con s') ∧ cfs s' = cfs s) s.
Proof.
  destruct l as [v b p]. cbn [unread before after]. intros E Hi Hr. unfold consoleread. apply tot_bind, tot_zoom. eapply tot_mono; [by apply tot_iunlock|]. intros [] f ->.
  apply tot_critical_con. cbn [con cfs]. eapply tot_mono; [by eapply (tot_read_loop [Lcons] killed n b p n)|].
  intros r c (-> & Hl & Ec). apply tot_bind, tot_zoom. cbn [cfs]. eapply tot_mono; [by apply tot_ilock_back|]. intros [] f ->.
  apply tot_ret. split; [|done]. f_equal. lia.
Qed.

Lemma shift_right_overflow pos ctx s : 127 ≤ ie (input s) < 2147483647 → 0 ≤ lefts s ≤ ie (input s) →
  shift_right_next_chars pos ctx s = Panic "undefined behaviour".
Proof.
  intros He Hl. unfold shift_right_next_chars. rewrite (bind_Ret _ _ _ _ (lefts s) ctx s) by done. destruct ctx as [L tr].
  destruct (tot_for_each_crt L (λ i, i - 1) (reverse (seqZ (pos + 1) (lefts s))) s (λ _ s', input s' = input s) ltac:(done) tr)
    as (a & t & s' & E & Hi).
  rewrite (bind_Ret _ _ _ _ _ _ _ E). rewrite (bind_Ret _ _ _ _ (ie (input s)) (Ctx L t) s') by (unfold gets; by rewrite Hi).
  rewrite i32_small by lia. unfold turns. cbn [down]. rewrite !u32_small by lia. rewrite (proj2 (Z.ltb_lt _ _)) by lia.
  cbn [for_each]. apply bind_Panic. unfold shift_byte, rd_buf. destruct (inside (ie (input s) + 1 + -1)) eqn:Ei.
  - rewrite (bind_Ret _ _ _ _ (nth (Z.to_nat (ie (input s) + 1 + -1)) (ibuf (input s')) 0) (Ctx L t) s') by done.
    apply bind_Panic. unfold wr_buf. destruct (inside (ie (input s) + 1)) eqn:Ej; [|done]. apply inside_iff in Ej. lia.
  - by apply bind_Panic.
Qed.

(** After 127 characters the console leaves its buffer: then every character put
    on the screen, by the kernel, a process or the keyboard, moves the byte at the
    edit index one up with no bound on the index, outside [input.buf]. *)
Theorem console_overflow c ctx s :
  panicked s = 0 → 127 ≤ ie (input s) < 2147483647 → 0 ≤ lefts s ≤ ie (input s) → c ≠ 10 → c ≠ BACKSPACE →
  consputc c ctx s = Panic "undefined behaviour".
Proof.
  intros Hp He Hl Hn Hb. unfold consputc. rewrite (bind_Ret _ _ _ _ (panicked s) ctx s) by done. rewrite Hp.
  change (negb (0 =? 0)) with false. cbv iota. rewrite (proj2 (Z.eqb_neq c _) Hb).
  rewrite (bind_Ret _ _ _ _ tt ctx (set_serial (serial s ++ [u8 c]) s)) by done. unfold cgaputc.
  rewrite (bind_Ret _ _ _ _ (cursor s) ctx (set_serial (serial s ++ [u8 c]) s)) by done. apply bind_Panic.
  rewrite (proj2 (Z.eqb_neq c _) Hn), (proj2 (Z.eqb_neq c _) Hb). apply bind_Panic. by apply shift_right_overflow.
Qed.

(** ** Numbers *)

(** The number whose digits are [ds], the last digit first. *)
Fixpoint value_rev (base : Z) (ds : list Z) : Z := match ds with [] => 0 | d :: ds => d + base * value_rev base ds end.
Definition digit (d : Z) : Z := nth (Z.to_nat d) digits 0.

Lemma print_digits_spec base fuel : ∀ x, 2 ≤ base ≤ 16 → 0 ≤ x < base ^ Z.of_nat fuel → (1 ≤ fuel)%nat →
  ∃ ds, print_digits fuel x base = map digit ds ∧ Forall (λ d, 0 ≤ d < base) ds ∧ value_rev base ds = x ∧
    ds ≠ [] ∧ (last ds = Some 0 → ds = [0]) ∧ (length ds = 1%nat ∨ base ^ (Z.of_nat (length ds) - 1) ≤ x).
Proof.
  induction fuel as [|fuel IH]; intros x Hb Hx Hf; [lia|]. cbn [print_digits].
  pose proof (Z.mod_pos_bound x base ltac:(lia)) as Hm. pose proof (Z.div_mod x base ltac:(lia)) as Hd.
  destruct (Z.eqb_spec (x / base) 0) as [E|E].
  - exists [x mod base]. split; [done|]. split; [by apply Forall_singleton|]. simpl. split; [lia|]. split; [done|]. split; [by intros [= ->]|by left].
  - assert (0 < x / base) by (pose proof (Z.div_pos x base); lia).
    rewrite Nat2Z.inj_succ, Z.pow_succ_r in Hx by lia. assert (0 < base ^ Z.of_nat fuel) by (apply Z.pow_pos_nonneg; lia).
    assert (x / base < base ^ Z.of_nat fuel) by (apply Z.div_lt_upper_bound; lia).
    destruct (IH (x / base) Hb ltac:(lia)) as (ds & -> & Hds & Hv & Hne & Hl & Hp).
    { destruct fuel; [simpl in *; lia|lia]. }
    exists (x mod base :: ds). split; [done|]. split; [by constructor|]. cbn [value_rev]. split; [lia|]. split; [done|].
    split; [destruct ds; [done|]; intros Hz; specialize (Hl Hz); simplify_eq/=; lia|].
    right. cbn [length]. destruct Hp as [->|Hp]; [simpl; nia|]. rewrite Nat2Z.inj_succ.
    replace (Z.succ (Z.of_nat (length ds)) - 1) with (Z.succ (Z.of_nat (length ds) - 1)) by lia.
    rewrite Z.pow_succ_r by (destruct ds; [done|simpl; lia]). nia.
Qed.

(** Numbers print as they read: [printint] prints a minus sign for a negative
    number printed as signed, then the digits of the number in the base, with no
    leading zero; in the bases it is used with, what it stores fits in its buffer
    of 16 bytes. *)
Theorem printint_spec xx base sign :
  10 ≤ base ≤ 16 → -2147483648 ≤ xx < 2147483648 →
  let neg := (sign && (xx <? 0))%bool in
  ∃ ds, reverse (printint_buf xx base sign) = (if neg then [45] else []) ++ map digit (reverse ds) ∧
    Forall (λ d, 0 ≤ d < base) ds ∧ value_rev base ds = (if neg then - xx else u32 xx) ∧
    ds ≠ [] ∧ (last ds = Some 0 → ds = [0]) ∧ (length (printint_buf xx base sign) ≤ 16)%nat.
Proof.
  intros Hb Hx neg. unfold printint_buf. fold neg. set (x := u32 (if neg then - xx else xx)).
  assert (0 ≤ x < 2 ^ 32) as Hx32 by (unfold x, u32; apply Z.mod_pos_bound; lia).
  assert (2 ^ 32 ≤ base ^ 32) by (apply Z.pow_le_mono_l; lia).
  destruct (print_digits_spec base 32 x ltac:(lia) ltac:(simpl Z.of_nat; lia) ltac:(lia)) as (ds & E & Hds & Hv & Hne & Hl & Hp).
  exists ds. rewrite E, reverse_app. split; [|split; [done|split; [|split; [done|split; [done|]]]]].
  - change (map digit ds) with (digit <$> ds). rewrite <- fmap_reverse. by destruct neg.
  - rewrite Hv. unfold x, neg. destruct (sign && (xx <? 0))%bool eqn:En; [|done]. apply andb_prop in En as [_ En%Z.ltb_lt].
    apply u32_small. lia.
  - rewrite length_app, length_map. destruct (decide (length ds ≤ 10)%nat) as [|Hbig]; [destruct neg; simpl; lia|].
    exfalso. destruct Hp as [Hp|Hp]; [lia|]. assert (base ^ 10 ≤ base ^ (Z.of_nat (length ds) - 1)) by (apply Z.pow_le_mono_r; lia).
    assert (10 ^ 10 ≤ base ^ 10) by (apply Z.pow_le_mono_l; lia). lia.
Qed.

(** ** The calculator on a run *)

Module SampleConsole.

(** Exact arithmetic, which [float] is on small numbers. *)
Definition exact : QArith_base.Q → QArith_base.Q := Qreduction.Qred.
Definition type_keys (cs : list Z) (s : cstate) : cstate :=
  match consoleintr exact exact cs (Ctx [] []) s with Ret _ _ s' => s' | _ => s end.
Definition read_all (s : cstate) : cstate :=
  match consoleread_loop false 100 100 [] (Ctx [Lcons] []) s with Ret _ _ s' => s' | _ => s end.
Definition str (s : string) : list Z := map (λ c, Z.of_nat (Ascii.nat_of_ascii c)) (String.list_ascii_of_string s).
(** The line being typed. *)
Definition current (s : cstate) : list Z :=
  let x := input s in firstn (Z.to_nat (ie x - iw x)) (skipn (Z.to_nat (iw x)) (ibuf x)).

(** The shell has read one line; or two, the second a sum with a negative first
    number. *)
Definition one_line : cstate := read_all (type_keys (str "x" ++ [10]) (console0 0)).
Definition two_lines : cstate := read_all (type_keys (str "-2+1=?" ++ [10]) one_line).

End SampleConsole.

(** The calculator replaces "5+1=?" by "6", but after a calculation whose first
    number was negative it takes the next number at the start of a line for
    negative too: the sign is not cleared, "5+1=?" becomes "-4", and the end of the
    line before it is overwritten. *)
Theorem calculator_keeps_sign :
  SampleConsole.current (SampleConsole.type_keys (SampleConsole.str "5+1=?") SampleConsole.one_line) = SampleConsole.str "6" ∧
  SampleConsole.current (SampleConsole.type_keys (SampleConsole.str "5+1=?") SampleConsole.two_lines) = SampleConsole.str "4" ∧
  nth 4 (ibuf (input SampleConsole.two_lines)) 0 = 10 ∧
  nth 4 (ibuf (input (SampleConsole.type_keys (SampleConsole.str "5+1=?") SampleConsole.two_lines))) 0 = 45.
Proof. vm_compute. repeat split; reflexivity. Qed.

(** ** The machine satisfies the hypotheses *)

Module SampleEdit.
Import SampleConsole.

Definition ls_typed : cstate :=
  set_input (In ([108; 115; 10] ++ replicate 125 0) (replicate 128 0) 0 3 3 0 0) (console0 0).

Lemma bytes_zeros n : bytes (replicate n 0).
Proof. apply Forall_replicate. lia. Qed.
Lemma boot_editing : editing (Line [] [] []) (console0 0).
Proof.
  split; try done; try (vm_compute; lia).
  - exists [], (replicate 128 0). split; [|done]. split; try done. apply bytes_zeros.
  - split; [done|]. left. simpl. lia.
Qed.
Lemma ls_editing : editing (Line [108; 115; 10] [] []) ls_typed.
Proof.
  split; try done; try (vm_compute; lia).
  - exists [], (replicate 125 0). split; [|done]. split; try done. apply Forall_app. split; [|apply bytes_zeros]. repeat constructor; lia.
  - split; [done|]. left. simpl. lia.
Qed.

(** Typing "lxt", back over the "t", erasing the "x" before it, and "s" instead. *)
Lemma console_line_editor_witness :
  tot (consoleintr exact exact [108; 120; 116; LEFTARROW; 8; 115; 10])
    (λ _ s', editing (Line [108; 115; 116; 10] [] []) s') (console0 0).
Proof. apply (console_line_editor exact exact _ (Line [] [] [])); [apply boot_editing|reflexivity|simpl; lia]. Defined.

Lemma console_read_witness :
  tot (consoleread 5 false 0 100) (λ r _, r = (3, [108; 115; 10])) (CDev ls_typed SampleFs.state).
Proof.
  eapply tot_mono.
  - apply (console_read 5 false 0 100 (Line [108; 115; 10] [] []) (CDev ls_typed SampleFs.state) [108; 115; 10] []).
    + apply ls_editing.
    + exists SampleFs.root. by repeat split.
    + reflexivity.
  - intros r s' [-> _]. reflexivity.
Defined.

Lemma console_overflow_witness :
  consputc 65 (Ctx [] []) (set_input (set_e 127 input0) (console0 0)) = Panic "undefined behaviour".
Proof. apply console_overflow; [done|simpl; lia|simpl; lia|done|done]. Defined.

Lemma printint_spec_witness :
  ∃ ds, reverse (printint_buf (-42) 10 true) = [45] ++ map digit (reverse ds) ∧ value_rev 10 ds = 42.
Proof.
  destruct (printint_spec (-42) 10 true ltac:(lia) ltac:(lia)) as (ds & E & _ & Hv & _). exists ds. split; [exact E|exact Hv].
Defined.

End SampleEdit.
