(* ===== verification/Kbd.v ===== *)
(** * The keyboard

    [kbd.c] and [kbd.h]: scan codes to characters, and the keyboard's interrupt,
    which feeds them to the line editor of the console. *)

From S2P Require Import Prelude Locks Bytes Bio Log Txn Fs Console ConsoleSpec.

Definition KBS_DIB : Z := 0x01.
Definition SHIFT : Z := 1.
Definition CTL : Z := 2.
Definition ALT : Z := 4.
Definition CAPSLOCK : Z := 8.
Definition NUMLOCK : Z := 16.
Definition SCROLLLOCK : Z := 32.
Definition E0ESC : Z := 64.

(** An array of 256 bytes from its first elements and the designated ones. *)
Definition table (l : list Z) (d : list (Z * Z)) : list Z :=
  foldl (λ t p, <[Z.to_nat (fst p) := snd p]> t) (l ++ replicate (256 - length l) 0) d.
Definition entry (t : list Z) (i : Z) : Z := nth (Z.to_nat i) t 0.

Definition shiftcode : list Z :=
  table [] [(0x1D, CTL); (0x2A, SHIFT); (0x36, SHIFT); (0x38, ALT); (0x9D, CTL); (0xB8, ALT)].
Definition togglecode : list Z := table [] [(0x3A, CAPSLOCK); (0x45, NUMLOCK); (0x46, SCROLLLOCK)].
Definition normalmap : list Z :=
  table [
    0; 27; 49; 50; 51; 52; 53; 54; 55; 56; 57; 48; 45; 61; 8; 9;
    113; 119; 101; 114; 116; 121; 117; 105; 111; 112; 91; 93; 10; 0; 97; 115;
    100; 102; 103; 104; 106; 107; 108; 59; 39; 96; 0; 92; 122; 120; 99; 118;
    98; 110; 109; 44; 46; 47; 0; 42; 0; 32; 0; 0; 0; 0; 0; 0;
    0; 0; 0; 0; 0; 0; 0; 55; 56; 57; 45; 52; 53; 54; 43; 49;
    50; 51; 48; 46; 0; 0; 0; 0]
    [(0x9c, 10); (0xb5, 47); (0xc8, 0xe2); (0xd0, 0xe3); (0xc9, 0xe6); (0xd1, 0xe7);
     (0xcb, 0xe4); (0xcd, 0xe5); (0x97, 0xe0); (0xcf, 0xe1); (0xd2, 0xe8); (0xd3, 0xe9)].
Definition shiftmap : list Z :=
  table [
    0; 27; 33; 64; 35; 36; 37; 94; 38; 42; 40; 41; 95; 43; 8; 9;
    81; 87; 69; 82; 84; 89; 85; 73; 79; 80; 123; 125; 10; 0; 65; 83;
    68; 70; 71; 72; 74; 75; 76; 58; 34; 126; 0; 124; 90; 88; 67; 86;
    66; 78; 77; 60; 62; 63; 0; 42; 0; 32; 0; 0; 0; 0; 0; 0;
    0; 0; 0; 0; 0; 0; 0; 55; 56; 57; 45; 52; 53; 54; 43; 49;
    50; 51; 48; 46; 0; 0; 0; 0]
    [(0x9c, 10); (0xb5, 47); (0xc8, 0xe2); (0xd0, 0xe3); (0xc9, 0xe6); (0xd1, 0xe7);
     (0xcb, 0xe4); (0xcd, 0xe5); (0x97, 0xe0); (0xcf, 0xe1); (0xd2, 0xe8); (0xd3, 0xe9)].
Definition ctlmap : list Z :=
  table [
    0; 0; 0; 0; 0; 0; 0; 0; 0; 0; 0; 0; 0; 0; 0; 0;
    17; 23; 5; 18; 20; 25; 21; 9; 15; 16; 0; 0; 13; 0; 1; 19;
    4; 6; 7; 8; 10; 11; 12; 0; 0; 0; 0; 28; 26; 24; 3; 22;
    2; 14; 13; 0; 0; 239; 0; 0]
    [(0x9c, 13); (0xb5, 239); (0xc8, 0xe2); (0xd0, 0xe3); (0xc9, 0xe6); (0xd1, 0xe7);
     (0xcb, 0xe4); (0xcd, 0xe5); (0x97, 0xe0); (0xcf, 0xe1); (0xd2, 0xe8); (0xd3, 0xe9)].

Definition charcode (i : Z) : list Z := nth (Z.to_nat i) [normalmap; shiftmap; ctlmap; ctlmap] [].

(** [kbdgetc] with the status port reading [st] and the data port [data], and the
    static [shift]: the character and the new [shift]. *)
Definition kbdgetc (st data shift : Z) : Z * Z :=
  if Z.land st KBS_DIB =? 0 then (-1, shift)
  else if data =? 0xE0 then (0, Z.lor shift E0ESC)
  else if negb (Z.land data 0x80 =? 0) then
    let data := if negb (Z.land shift E0ESC =? 0) then data else Z.land data 0x7F in
    (0, Z.land shift (u32 (Z.lnot (Z.lor (entry shiftcode data) E0ESC))))
  else
    let esc := negb (Z.land shift E0ESC =? 0) in
    let data := if esc then Z.lor data 0x80 else data in
    let shift := if esc then Z.land shift (u32 (Z.lnot E0ESC)) else shift in
    let shift := Z.lor shift (entry shiftcode data) in
    let shift := Z.lxor shift (entry togglecode data) in
    let c := entry (charcode (Z.land shift (Z.lor CTL SHIFT))) data in
    let c := if negb (Z.land shift CAPSLOCK =? 0) then
               if ((97 <=? c) && (c <=? 122))%bool then c + (65 - 97)
               else if ((65 <=? c) && (c <=? 90))%bool then c + (97 - 65)
               else c
             else c in
    (c, shift).

(** The characters for the scan codes waiting in the controller. *)
Fixpoint kbd_chars (scan : list Z) (shift : Z) : list Z * Z :=
  match scan with
  | [] => ([], shift)
  | d :: scan =>
      let r := kbdgetc KBS_DIB d shift in
      let rest := kbd_chars scan (snd r) in
      (fst r :: fst rest, snd rest)
  end.
Definition kbdintr (fl db : QArith_base.Q → QArith_base.Q) (scan : list Z) (shift : Z) : M cstate bool * Z :=
  let r := kbd_chars scan shift in
  (consoleintr fl db (fst r), snd r).

(** ** Typing *)

(** The keys on an English keyboard for a character: the code of the key, with
    the left shift key held if need be. *)
Definition find_key (t : list Z) (c : Z) : option nat := fst <$> list_find (λ x, x = c) t.
Definition strokes (c : Z) : list Z :=
  match find_key (take 128 normalmap) c with
  | Some k => [Z.of_nat k; Z.of_nat k + 128]
  | None =>
      match find_key (take 128 shiftmap) c with
      | Some k => [0x2A; Z.of_nat k; Z.of_nat k + 128; 0xAA]
      | None => []
      end
  end.

Lemma kbd_chars_app a b shift :
  kbd_chars (a ++ b) shift =
  (fst (kbd_chars a shift) ++ fst (kbd_chars b (snd (kbd_chars a shift))), snd (kbd_chars b (snd (kbd_chars a shift)))).
Proof.
  revert shift; induction a as [|d a IH]; intros shift; cbn [kbd_chars app fst snd]; [by destruct (kbd_chars b shift)|].
  by rewrite IH.
Qed.

(** The characters other than 0, which the console ignores. *)
Definition text_of (cs : list Z) : list Z := filter (.≠ 0) cs.

Lemma strokes_ok c : 32 ≤ c ≤ 126 ∨ c = 10 →
  text_of (fst (kbd_chars (strokes c) 0)) = [c] ∧ snd (kbd_chars (strokes c) 0) = 0 ∧ (length (strokes c) ≤ 4)%nat.
Proof.
  intros Hc. assert (forallb (λ c, bool_decide (text_of (fst (kbd_chars (strokes c) 0)) = [c] ∧ snd (kbd_chars (strokes c) 0) = 0 ∧
    (length (strokes c) ≤ 4)%nat)) (10 :: seqZ 32 95) = true) as H by (vm_compute; reflexivity).
  rewrite forallb_forall in H. specialize (H c). rewrite bool_decide_eq_true in H. apply H, list_elem_of_In.
  destruct Hc as [Hc| ->]; [right|left]. apply elem_of_seqZ. lia.
Qed.

Definition typable (c : Z) : Prop := 32 ≤ c ≤ 126 ∨ c = 10.

Lemma kbd_text t : Forall typable t →
  text_of (fst (kbd_chars (concat (map strokes t)) 0)) = t ∧ snd (kbd_chars (concat (map strokes t)) 0) = 0.
Proof.
  induction 1 as [|c t Hc _ [IH1 IH2]]; [done|]. destruct (strokes_ok c Hc) as (H1 & H2 & _). cbn [map concat].
  rewrite kbd_chars_app. cbn [fst snd]. unfold text_of in *. by rewrite filter_app, H1, H2, IH1, IH2.
Qed.

(** A scan code that gives no character changes nothing on the console. *)
Lemma consoleintr_loop_text fl db cs : ∀ d c s,
  consoleintr_loop fl db cs d c s = consoleintr_loop fl db (text_of cs) d c s.
Proof.
  induction cs as [|x cs IH]; intros d c s; [done|]. unfold text_of. rewrite filter_cons. case_decide as Hx.
  - cbn [consoleintr_loop]. unfold mbind, M_bind. destruct (key fl db x c s); [apply IH|done..].
  - assert (x = 0) as -> by (destruct (decide (x = 0)); [done|by destruct Hx]). cbn [consoleintr_loop].
    rewrite (bind_Ret _ _ c s false c s) by reflexivity. rewrite orb_false_r. apply IH.
Qed.

(** From the keys to the line: pressing and releasing the keys for a text, with
    the shift key where it is needed, gives the text's characters to the line
    editor, leaves no modifier set, and edits the line as the text says. *)
Theorem keyboard_line fl db t l l' s :
  Forall typable t → editing l s → edits t l = Some l' → ie (input s) + Z.of_nat (length t) ≤ 127 →
  tot (fst (kbdintr fl db (concat (map strokes t)) 0)) (λ _ s', editing l' s') s ∧
  snd (kbdintr fl db (concat (map strokes t)) 0) = 0.
Proof.
  intros Ht E Hed Hn. destruct (kbd_text t Ht) as [H1 H2]. split; [|exact H2]. unfold kbdintr, consoleintr. cbn [fst].
  apply tot_critical. intros tr. rewrite consoleintr_loop_text, H1. revert tr. eapply tot_mono; [by eapply tot_keys|].
  intros d s' [E' _]. by apply tot_ret.
Qed.

(** Typing "Ls". *)
Lemma keyboard_line_witness :
  tot (fst (kbdintr SampleConsole.exact SampleConsole.exact [0x2A; 38; 166; 0xAA; 31; 159; 28; 156] 0))
    (λ _ s', editing (Line [76; 115; 10] [] []) s') (console0 0).
Proof.
  apply (keyboard_line SampleConsole.exact SampleConsole.exact [76; 115; 10] (Line [] [] [])).
  - repeat constructor; unfold typable; lia.
  - apply SampleEdit.boot_editing.
  - reflexivity.
  - simpl. lia.
Defined.
