(* ===== verification/File.v ===== *)
(** * Open files

    [file.c], and [pipealloc] of [pipe.c]: the table of open files over the file
    system, the pipes and the page allocator.  A [struct file*] is an index of
    the table, a [struct pipe*] the address of its page.  A call that goes to
    sleep ends the modelled part. *)

From S2P Require Import Prelude Mem Kalloc Str Bio Log Txn Fs.
From S2P Require Pipe.

Inductive fdtype := FD_NONE | FD_PIPE | FD_INODE.
Record file := File {
  f_type : fdtype; f_ref : Z; readable : Z; writable : Z; f_pipe : Z; f_ip : nat; f_off : Z }.
Definition file0 : file := File FD_NONE 0 0 0 0 0 0.
Definition set_f_ref (x : Z) (f : file) : file :=
  File (f_type f) x (readable f) (writable f) (f_pipe f) (f_ip f) (f_off f).
Definition set_f_off (x : Z) (f : file) : file :=
  File (f_type f) (f_ref f) (readable f) (writable f) (f_pipe f) (f_ip f) x.
Definition NFILE : nat := 100.

(** The file system, the table, the pipes by the address of their page, and
    memory. *)
Record world := World { wfs : fstate; ftable : list file; pipes : gmap Z Pipe.pipe; wmem : kmem }.
Definition set_wfs (x : fstate) (w : world) : world := World x (ftable w) (pipes w) (wmem w).
Definition set_ftable (x : list file) (w : world) : world := World (wfs w) x (pipes w) (wmem w).
Definition set_pipes (x : gmap Z Pipe.pipe) (w : world) : world := World (wfs w) (ftable w) x (wmem w).
Definition set_wmem (x : kmem) (w : world) : world := World (wfs w) (ftable w) (pipes w) x.

Definition file_at (f : nat) (w : world) : file := default file0 (ftable w !! f).
Definition upd_file (f : nat) (g : file → file) : M world unit :=
  modify (λ w, set_ftable (alter g f (ftable w)) w).
Definition on_fs {A} (m : M fstate A) : M world A := zoom wfs set_wfs m.
Definition on_kmem {A} (m : M kmem A) : M world A := zoom wmem set_wmem m.
Definition on_pipe {A} (p : Z) (m : M Pipe.pipe A) : M world A :=
  zoom (λ w, default (Pipe.Pipe [] 0 0 0 0) (pipes w !! p)) (λ x w, set_pipes (<[p := x]> (pipes w)) w) m.

(** The first entry with no references. *)
Fixpoint find_file (i : nat) (l : list file) : option nat :=
  match l with
  | [] => None
  | f :: l => if f_ref f =? 0 then Some i else find_file (S i) l
  end.

Section Ops.
(** The linker's [end], the caller's process id and whether it has been killed,
    and the device switch. *)
Context (kend mypid : Z) (killed : bool).
Context (dev_read : Z → option (nat → Z → M fstate (Z * list Z)))
        (dev_write : Z → option (nat → list Z → M fstate Z)).

Definition filealloc : M world (option nat) :=
  acquire Lftable;;
  w ← get;
  match find_file 0 (ftable w) with
  | Some f =>
      upd_file f (set_f_ref 1);;
      release Lftable;;
      mret (Some f)
  | None =>
      release Lftable;;
      mret None
  end.

Definition filedup (f : nat) : M world nat :=
  acquire Lftable;;
  w ← get;
  if f_ref (file_at f w) <? 1 then panic "filedup"
  else
    upd_file f (λ x, set_f_ref (i32 (f_ref x + 1)) x);;
    release Lftable;;
    mret f.

(** [pipeclose], which frees the page when both ends are closed. *)
Definition close_pipe (p : Z) (writable : bool) : M world unit :=
  last ← on_pipe p (Pipe.pipeclose p writable);
  if (last : bool) then on_kmem (kfree kend p) else mret tt.

Definition fileclose (f : nat) : M world unit :=
  acquire Lftable;;
  w ← get;
  if f_ref (file_at f w) <? 1 then panic "fileclose"
  else
    upd_file f (λ x, set_f_ref (i32 (f_ref x - 1)) x);;
    w ← get;
    if 0 <? f_ref (file_at f w) then release Lftable
    else
      let ff := file_at f w in
      upd_file f (λ x, File FD_NONE 0 (readable x) (writable x) (f_pipe x) (f_ip x) (f_off x));;
      release Lftable;;
      match f_type ff with
      | FD_PIPE => close_pipe (f_pipe ff) (negb (writable ff =? 0))
      | FD_INODE =>
          on_fs (disk begin_op;; iput mypid (f_ip ff);; disk (end_op mypid))
      | FD_NONE => mret tt
      end.

(** The result and what it stored in [*st]. *)
Definition filestat (f : nat) : M world (Z * option stat) :=
  w ← get;
  let x := file_at f w in
  match f_type x with
  | FD_INODE =>
      on_fs (ilock mypid (f_ip x));;
      st ← on_fs (stati (f_ip x));
      on_fs (iunlock mypid (f_ip x));;
      mret (0, Some st)
  | _ => mret (-1, None)
  end.

(** The result and the bytes stored at [addr]. *)
Definition fileread (f : nat) (n : Z) : M world (Z * list Z) :=
  w ← get;
  let x := file_at f w in
  if readable x =? 0 then mret (-1, [])
  else
    match f_type x with
    | FD_PIPE =>
        r ← on_pipe (f_pipe x) (Pipe.piperead (f_pipe x) killed n);
        mret match r with Some l => (Z.of_nat (length l), l) | None => (-1, []) end
    | FD_INODE =>
        on_fs (ilock mypid (f_ip x));;
        off ← gets (λ w, f_off (file_at f w));
        r ← on_fs (readi mypid dev_read (f_ip x) off (u32 n));
        (if 0 <? fst r then upd_file f (λ x, set_f_off (u32 (f_off x + fst r)) x) else mret tt);;
        on_fs (iunlock mypid (f_ip x));;
        mret r
    | FD_NONE => panic "fileread"
    end.

Definition max_write : nat := Z.to_nat ((MAXOPBLOCKS - 1 - 1 - 2) / 2 * 512).

(** The loop of [filewrite] on the bytes still to write; whether all were. *)
Fixpoint filewrite_loop (fuel : nat) (f : nat) (addr : list Z) : M world bool :=
  match addr with
  | [] => mret true
  | _ =>
    match fuel with
    | O => panic "out of fuel"
    | S fuel =>
        let n1 := Nat.min (length addr) max_write in
        ip ← gets (λ w, f_ip (file_at f w));
        on_fs (disk begin_op);;
        on_fs (ilock mypid ip);;
        off ← gets (λ w, f_off (file_at f w));
        r ← on_fs (writei mypid dev_write ip (take n1 addr) off);
        (if 0 <? r then upd_file f (λ x, set_f_off (u32 (f_off x + r)) x) else mret tt);;
        on_fs (iunlock mypid ip);;
        on_fs (disk (end_op mypid));;
        if r <? 0 then mret false
        else if negb (r =? Z.of_nat n1) then panic "short filewrite"
        else filewrite_loop fuel f (drop n1 addr)
    end
  end.

(** [addr] holds the [n] bytes. *)
Definition filewrite (f : nat) (addr : list Z) : M world Z :=
  w ← get;
  let x := file_at f w in
  if writable x =? 0 then mret (-1)
  else
    match f_type x with
    | FD_PIPE =>
        r ← on_pipe (f_pipe x) (Pipe.pipewrite (f_pipe x) killed addr);
        match r with
        | Pipe.Wrote => mret (Z.of_nat (length addr))
        | Pipe.Wfailed => mret (-1)
        | Pipe.Wsleep _ => asleep (ChNwrite (f_pipe x))
        end
    | FD_INODE =>
        ok ← filewrite_loop (length addr) f addr;
        mret (if ok : bool then Z.of_nat (length addr) else -1)
    | FD_NONE => panic "filewrite"
    end.

(** The label [bad] of [pipealloc], reached before the page is allocated or
    without one. *)
Definition pipealloc_bad (f0 f1 : option nat) : M world (option (nat * nat)) :=
  (match f0 with Some f => fileclose f | None => mret tt end);;
  (match f1 with Some f => fileclose f | None => mret tt end);;
  mret None.

(** The two ends, reading and writing; [junk] is what the page holds. *)
Definition pipealloc (junk : list Z) : M world (option (nat * nat)) :=
  f0 ← filealloc;
  match f0 with
  | None => pipealloc_bad None None
  | Some r =>
      f1 ← filealloc;
      match f1 with
      | None => pipealloc_bad (Some r) None
      | Some w =>
          p ← on_kmem kalloc;
          if p =? 0 then pipealloc_bad (Some r) (Some w)
          else
            modify (λ s, set_pipes (<[p := Pipe.pipe_init junk]> (pipes s)) s);;
            upd_file r (λ x, File FD_PIPE (f_ref x) 1 0 p (f_ip x) (f_off x));;
            upd_file w (λ x, File FD_PIPE (f_ref x) 0 1 p (f_ip x) (f_off x));;
            mret (Some (r, w))
      end
  end.

End Ops.
