(* ===== verification/Sysfile.v ===== *)
(** * System calls on files

    [sysfile.c]: the calls that run inside one transaction as operations on the
    file system, and all calls as operations of a process on the kernel's state,
    fetching their arguments from user memory. *)

From S2P Require Import Prelude Mem Kalloc Vm VmInv VmOut Bytes Str Bio Log Txn Fs File Locks Proc Syscall.
From S2P Require Pipe.

Definition O_RDONLY : Z := 0x000.
Definition O_WRONLY : Z := 0x001.
Definition O_RDWR : Z := 0x002.
Definition O_CREATE : Z := 0x200.
Definition MAXARG : nat := 32.

(** ** On the file system *)

Section OnFs.
Context (mypid : Z) (cwd : nat).
Context (dev_read : Z → option (nat → Z → M fstate (Z * list Z)))
        (dev_write : Z → option (nat → list Z → M fstate Z)).

Local Abbreviation namei := (namei mypid cwd dev_read).
Local Abbreviation nameiparent := (nameiparent mypid cwd dev_read).
Local Abbreviation dirlookup := (dirlookup mypid dev_read).
Local Abbreviation dirlink := (dirlink mypid dev_read dev_write).
Local Abbreviation readi := (readi mypid dev_read).
Local Abbreviation writei := (writei mypid dev_write).
Local Abbreviation ilock := (ilock mypid).
Local Abbreviation iunlock := (iunlock mypid).
Local Abbreviation iput := (iput mypid).
Local Abbreviation iunlockput := (iunlockput mypid).
Local Abbreviation iupdate := (iupdate mypid).

Definition op_begin : M fstate unit := disk begin_op.
Definition op_end : M fstate unit := disk (end_op mypid).
(** [end_op(); return -1;]. *)
Definition op_fail : M fstate Z := op_end;; mret (-1).

(** The label [bad] of [sys_link]. *)
Definition link_bad (ip : nat) : M fstate Z :=
  ilock ip;;
  upd_inode ip (λ i, set_nlink (i16 (nlink i - 1)) i);;
  iupdate ip;;
  iunlockput ip;;
  op_fail.

Definition link (old new : list Z) : M fstate Z :=
  op_begin;;
  r ← namei old;
  match r with
  | None => op_fail
  | Some ip =>
      ilock ip;;
      i ← gets (inode_at ip);
      if itype i =? T_DIR then iunlockput ip;; op_fail
      else
        upd_inode ip (λ i, set_nlink (i16 (nlink i + 1)) i);;
        iupdate ip;;
        iunlock ip;;
        r ← nameiparent new;
        match r with
        | (None, _) => link_bad ip
        | (Some dp, name) =>
            ilock dp;;
            d ← gets (inode_at dp);
            i ← gets (inode_at ip);
            r ← (if negb (idev d =? idev i) then mret (-1) else dirlink dp name (inum i));
            if r <? 0 then iunlockput dp;; link_bad ip
            else
              iunlockput dp;;
              iput ip;;
              op_end;;
              mret 0
        end
  end.

(** The loop of [isdirempty] over the offsets still to look at. *)
Fixpoint isdirempty_loop (dp : nat) (offs : list Z) : M fstate bool :=
  match offs with
  | [] => mret true
  | off :: offs =>
      r ← readi dp off (Z.of_nat sizeof_dirent);
      if negb (fst r =? Z.of_nat sizeof_dirent) then panic "isdirempty: readi"
      else if negb (de_inum (snd r) =? 0) then mret false
      else isdirempty_loop dp offs
  end.
Definition isdirempty (dp : nat) : M fstate bool :=
  i ← gets (inode_at dp);
  isdirempty_loop dp (drop 2 (dir_offs (isize i))).

Definition DOT : list Z := [46].
Definition DOTDOT : list Z := [46; 46].

Definition unlink (path : list Z) : M fstate Z :=
  op_begin;;
  r ← nameiparent path;
  match r with
  | (None, _) => op_fail
  | (Some dp, name) =>
      ilock dp;;
      if ((namecmp name DOT =? 0) || (namecmp name DOTDOT =? 0))%bool then iunlockput dp;; op_fail
      else
        r ← dirlookup dp name;
        match r with
        | None => iunlockput dp;; op_fail
        | Some (ip, off) =>
            ilock ip;;
            i ← gets (inode_at ip);
            if nlink i <? 1 then panic "unlink: nlink < 1"
            else
              e ← (if itype i =? T_DIR then isdirempty ip else mret true);
              if negb e then
                iunlockput ip;;
                iunlockput dp;;
                op_fail
              else
                n ← writei dp (replicate sizeof_dirent 0) off;
                if negb (n =? Z.of_nat sizeof_dirent) then panic "unlink: writei"
                else
                  (if itype i =? T_DIR then
                     upd_inode dp (λ d, set_nlink (i16 (nlink d - 1)) d);;
                     iupdate dp
                   else mret tt);;
                  iunlockput dp;;
                  upd_inode ip (λ i, set_nlink (i16 (nlink i - 1)) i);;
                  iupdate ip;;
                  iunlockput ip;;
                  op_end;;
                  mret 0
        end
  end.

(** The "." and ".." entries of a new directory. *)
Definition create_dots (dp ip : nat) : M fstate unit :=
  upd_inode dp (λ d, set_nlink (i16 (nlink d + 1)) d);;
  iupdate dp;;
  i ← gets (inode_at ip);
  d ← gets (inode_at dp);
  r ← dirlink ip DOT (inum i);
  if r <? 0 then panic "create dots"
  else
    r ← dirlink ip DOTDOT (inum d);
    if r <? 0 then panic "create dots" else mret tt.

Definition create (path : list Z) (type maj min : Z) : M fstate (option nat) :=
  r ← nameiparent path;
  match r with
  | (None, _) => mret None
  | (Some dp, name) =>
      ilock dp;;
      r ← dirlookup dp name;
      match r with
      | Some (ip, _) =>
          iunlockput dp;;
          ilock ip;;
          i ← gets (inode_at ip);
          if ((type =? T_FILE) && (itype i =? T_FILE))%bool then mret (Some ip)
          else iunlockput ip;; mret None
      | None =>
          d ← gets (inode_at dp);
          ip ← ialloc mypid (idev d) type;
          ilock ip;;
          upd_inode ip (set_dev_minor maj min);;
          upd_inode ip (set_nlink 1);;
          iupdate ip;;
          (if type =? T_DIR then create_dots dp ip else mret tt);;
          i ← gets (inode_at ip);
          r ← dirlink dp name (inum i);
          if r <? 0 then panic "create: dirlink"
          else
            iunlockput dp;;
            mret (Some ip)
      end
  end.

(** [sys_move_file]: [filename] is first the head of the path as given, and
    later the path's last element. *)
Definition move_file (src_file dest_dir : list Z) : M fstate Z :=
  op_begin;;
  r ← namei src_file;
  match r with
  | None => op_fail
  | Some src_inode =>
      ilock src_inode;;
      let filename := safestrcpy (Z.of_nat DIRSIZ) (str_of src_file) in
      r ← namei dest_dir;
      match r with
      | None => iunlockput src_inode;; op_fail
      | Some dest_inode =>
          ilock dest_inode;;
          i ← gets (inode_at src_inode);
          r ← dirlink dest_inode filename (inum i);
          if r <? 0 then
            iunlockput dest_inode;;
            iunlockput src_inode;;
            op_fail
          else
            r ← nameiparent src_file;
            match r with
            | (None, _) =>
                iunlockput src_inode;;
                iunlockput dest_inode;;
                op_fail
            | (Some dp_old, filename) =>
                r ← dirlookup dp_old filename;
                match r with
                | None =>
                    iunlockput src_inode;;
                    iunlockput dest_inode;;
                    op_fail
                | Some (_, offset) =>
                    ilock dp_old;;
                    n ← writei dp_old (replicate sizeof_dirent 0) offset;
                    if negb (n =? Z.of_nat sizeof_dirent) then
                      iunlockput dp_old;;
                      iunlockput src_inode;;
                      iunlockput dest_inode;;
                      op_fail
                    else
                      iunlockput dp_old;;
                      iunlockput dest_inode;;
                      iunlockput src_inode;;
                      op_end;;
                      mret 0
                end
            end
      end
  end.

End OnFs.

(** ** As process [me] *)

#[export] Instance world_mem : UserMem world := λ w d va, ubyte (kmm (wmem w)) d va.

(** The kernel's stores through the page table [d] it runs on. *)
Fixpoint wr_user (d va : Z) (l : list Z) (m : gmap Z page) : gmap Z page :=
  match l with
  | [] => m
  | b :: l => wr_user d (u32 (va + 1)) l (wr_byte (PTE_ADDR (pte m d (va / 4096)) + va mod 4096) b m)
  end.
Definition le32 (w : Z) : list Z :=
  [w mod 256; (w / 256) mod 256; (w / 65536) mod 256; (w / 16777216) mod 256].

Section Calls.
(** The linker's [end], the device switch, and what a fresh page holds. *)
Context (kend : Z) (junk_page : list Z).
Context (dev_read : Z → option (nat → Z → M fstate (Z * list Z)))
        (dev_write : Z → option (nat → list Z → M fstate Z)).

Local Abbreviation K := (kstate world).

(** An operation on the file system or the open files by process [me]; a process
    has a current directory. *)
Definition on_fs_as {A} (me : nat) (m : Z → nat → M fstate A) : M K A :=
  p ← gets (proc_at me);
  lift (on_fs (m (pid p) (default NINODE (cwd p)))).
Definition on_files_as {A} (me : nat) (m : Z → bool → M world A) : M K A :=
  p ← gets (proc_at me);
  lift (m (pid p) (negb (killed p =? 0))).

(** Arguments: numbers, pointers to [n] bytes, and strings. *)
Definition arg_ptr (me : nat) (n size : Z) : M K (option Z) :=
  gets (λ s, argptr (user_mem me s) (sz (proc_at me s)) (esp (tf (proc_at me s))) n size).
Definition user_bytes (me : nat) (va : Z) (n : nat) : M K (list Z) :=
  gets (λ s, map (λ k, user_mem me s (u32 (va + Z.of_nat k))) (seq 0 n)).
Definition arg_str (me : nat) (n : Z) : M K (option (list Z)) :=
  r ← gets (λ s, argstr (user_mem me s) (sz (proc_at me s)) (esp (tf (proc_at me s))) n);
  match r with
  | None => mret None
  | Some (a, len) => l ← user_bytes me a (Z.to_nat len); mret (Some l)
  end.
Definition put_user (me : nat) (va : Z) (l : list Z) : M K unit :=
  p ← gets (proc_at me);
  lift (on_kmem (on_mem (wr_user (pgdir p) va l))).

(** The descriptor and its file. *)
Definition argfd (me : nat) (n : Z) : M K (option (Z * nat)) :=
  v ← arg me n;
  p ← gets (proc_at me);
  mret match v with
       | None => None
       | Some fd =>
           if ((fd <? 0) || (Z.of_nat NOFILE <=? fd))%bool then None
           else match ofile p !! Z.to_nat fd with
                | Some (Some f) => Some (fd, f)
                | _ => None
                end
       end.

(** The first free descriptor. *)
Fixpoint find_fd (fd : nat) (l : list (option nat)) : option nat :=
  match l with
  | [] => None
  | None :: _ => Some fd
  | Some _ :: l => find_fd (S fd) l
  end.
Definition fdalloc (me : nat) (f : nat) : M K Z :=
  p ← gets (proc_at me);
  match find_fd 0 (ofile p) with
  | Some fd =>
      upd me (λ p, set_ofile (<[fd := Some f]> (ofile p)) p);;
      mret (Z.of_nat fd)
  | None => mret (-1)
  end.

Definition sys_dup (me : nat) : M K Z :=
  a ← argfd me 0;
  match a with
  | None => mret (-1)
  | Some (_, f) =>
      fd ← fdalloc me f;
      if fd <? 0 then mret (-1)
      else
        lift (filedup f);;
        mret fd
  end.

Definition sys_read (me : nat) : M K Z :=
  a ← argfd me 0;
  n ← arg me 2;
  match a, n with
  | Some (_, f), Some n =>
      p ← arg_ptr me 1 n;
      match p with
      | None => mret (-1)
      | Some p =>
          r ← on_files_as me (λ mypid killed, fileread mypid killed dev_read f n);
          put_user me p (snd r);;
          mret (fst r)
      end
  | _, _ => mret (-1)
  end.

Definition sys_write (me : nat) : M K Z :=
  a ← argfd me 0;
  n ← arg me 2;
  match a, n with
  | Some (_, f), Some n =>
      p ← arg_ptr me 1 n;
      match p with
      | None => mret (-1)
      | Some p =>
          bytes ← user_bytes me p (Z.to_nat n);
          on_files_as me (λ mypid killed, filewrite mypid killed dev_write f bytes)
      end
  | _, _ => mret (-1)
  end.

Definition sys_close (me : nat) : M K Z :=
  a ← argfd me 0;
  match a with
  | None => mret (-1)
  | Some (fd, f) =>
      upd me (λ p, set_ofile (<[Z.to_nat fd := None]> (ofile p)) p);;
      on_files_as me (λ mypid _, fileclose kend mypid f);;
      mret 0
  end.

(** The fields of [struct stat] at their offsets: [short type; int dev; uint ino;
    short nlink; uint size]. *)
Definition put_stat (me : nat) (p : Z) (st : stat) : M K unit :=
  put_user me (u32 (p + 4)) (le32 (st_dev st));;
  put_user me (u32 (p + 8)) (le32 (st_ino st));;
  put_user me p (take 2 (le32 (st_type st)));;
  put_user me (u32 (p + 12)) (take 2 (le32 (st_nlink st)));;
  put_user me (u32 (p + 16)) (le32 (st_size st)).

Definition sys_fstat (me : nat) : M K Z :=
  a ← argfd me 0;
  p ← arg_ptr me 1 20;
  match a, p with
  | Some (_, f), Some p =>
      r ← on_files_as me (λ mypid _, filestat mypid f);
      match snd r with
      | Some st => put_stat me p st;; mret (fst r)
      | None => mret (fst r)
      end
  | _, _ => mret (-1)
  end.

Definition sys_link (me : nat) : M K Z :=
  old ← arg_str me 0;
  new ← arg_str me 1;
  match old, new with
  | Some old, Some new => on_fs_as me (λ mypid cwd, link mypid cwd dev_read dev_write old new)
  | _, _ => mret (-1)
  end.

Definition sys_unlink (me : nat) : M K Z :=
  path ← arg_str me 0;
  match path with
  | Some path => on_fs_as me (λ mypid cwd, unlink mypid cwd dev_read dev_write path)
  | None => mret (-1)
  end.

Definition sys_move_file (me : nat) : M K Z :=
  src ← arg_str me 0;
  dest ← arg_str me 1;
  match src, dest with
  | Some src, Some dest => on_fs_as me (λ mypid cwd, move_file mypid cwd dev_read dev_write src dest)
  | _, _ => mret (-1)
  end.

(** The inode [sys_open] opens, locked; the transaction has been ended if there
    is none. *)
Definition open_inode (me : nat) (path : list Z) (omode : Z) : M K (option nat) :=
  on_fs_as me (λ mypid cwd,
    if negb (Z.land omode O_CREATE =? 0) then
      r ← create mypid cwd dev_read dev_write path T_FILE 0 0;
      match r with
      | None => op_end mypid;; mret None
      | Some ip => mret (Some ip)
      end
    else
      r ← namei mypid cwd dev_read path;
      match r with
      | None => op_end mypid;; mret None
      | Some ip =>
          ilock mypid ip;;
          i ← gets (inode_at ip);
          if ((itype i =? T_DIR) && negb (omode =? O_RDONLY))%bool then
            iunlockput mypid ip;;
            op_end mypid;;
            mret None
          else mret (Some ip)
      end).

Definition sys_open (me : nat) : M K Z :=
  path ← arg_str me 0;
  omode ← arg me 1;
  match path, omode with
  | Some path, Some omode =>
      on_fs_as me (λ _ _, op_begin);;
      r ← open_inode me path omode;
      match r with
      | None => mret (-1)
      | Some ip =>
          f ← lift filealloc;
          fd ← (match f with Some f => fdalloc me f | None => mret (-1) end);
          match f with
          | Some f =>
              if fd <? 0 then
                on_files_as me (λ mypid _, fileclose kend mypid f);;
                on_fs_as me (λ mypid _, iunlockput mypid ip;; op_fail mypid)
              else
                on_fs_as me (λ mypid _, iunlock mypid ip;; op_end mypid);;
                lift (upd_file f (λ x, File FD_INODE (f_ref x)
                  (Z.b2z (Z.land omode O_WRONLY =? 0))
                  (Z.b2z (negb (Z.land omode O_WRONLY =? 0) || negb (Z.land omode O_RDWR =? 0)))
                  (f_pipe x) ip 0));;
                mret fd
          | None => on_fs_as me (λ mypid _, iunlockput mypid ip;; op_fail mypid)
          end
      end
  | _, _ => mret (-1)
  end.

(** [sys_mkdir] and [sys_mknod] begin the transaction before they fetch their
    arguments. *)
Definition make_node (me : nat) (args : M K (option (list Z * Z * Z * Z))) : M K Z :=
  on_fs_as me (λ _ _, op_begin);;
  a ← args;
  on_fs_as me (λ mypid cwd,
    match a with
    | None => op_fail mypid
    | Some (path, type, maj, min) =>
        r ← create mypid cwd dev_read dev_write path type maj min;
        match r with
        | None => op_fail mypid
        | Some ip =>
            iunlockput mypid ip;;
            op_end mypid;;
            mret 0
        end
    end).
Definition sys_mkdir (me : nat) : M K Z :=
  make_node me
    (path ← arg_str me 0;
     mret match path with Some path => Some (path, T_DIR, 0, 0) | None => None end).
Definition sys_mknod (me : nat) : M K Z :=
  make_node me
    (path ← arg_str me 0;
     maj ← arg me 1;
     min ← arg me 2;
     mret match path, maj, min with
          | Some path, Some maj, Some min => Some (path, T_DEV, i16 maj, i16 min)
          | _, _, _ => None
          end).

Definition sys_chdir (me : nat) : M K Z :=
  on_fs_as me (λ _ _, op_begin);;
  path ← arg_str me 0;
  r ← on_fs_as me (λ mypid cwd,
    match path with
    | None => op_end mypid;; mret None
    | Some path =>
        r ← namei mypid cwd dev_read path;
        match r with
        | None => op_end mypid;; mret None
        | Some ip =>
            ilock mypid ip;;
            i ← gets (inode_at ip);
            if negb (itype i =? T_DIR) then
              iunlockput mypid ip;;
              op_end mypid;;
              mret None
            else
              iunlock mypid ip;;
              iput mypid cwd;;
              op_end mypid;;
              mret (Some ip)
        end
    end);
  match r with
  | None => mret (-1)
  | Some ip =>
      upd me (set_cwd (Some ip));;
      mret 0
  end.

Definition sys_pipe (me : nat) : M K Z :=
  fd ← arg_ptr me 0 8;
  match fd with
  | None => mret (-1)
  | Some fd =>
      r ← on_files_as me (λ mypid _, pipealloc kend mypid junk_page);
      match r with
      | None => mret (-1)
      | Some (rf, wf) =>
          fd0 ← fdalloc me rf;
          fd1 ← (if fd0 <? 0 then mret (-1) else fdalloc me wf);
          if ((fd0 <? 0) || (fd1 <? 0))%bool then
            (if 0 <=? fd0 then upd me (λ p, set_ofile (<[Z.to_nat fd0 := None]> (ofile p)) p) else mret tt);;
            on_files_as me (λ mypid _, fileclose kend mypid rf;; fileclose kend mypid wf);;
            mret (-1)
          else
            put_user me fd (le32 fd0);;
            put_user me (u32 (fd + 4)) (le32 fd1);;
            mret 0
      end
  end.

(** The loop of [sys_exec] that collects the argument strings. *)
Fixpoint exec_args (fuel : nat) (me : nat) (uargv : Z) (argv : list (list Z)) : M K (option (list (list Z))) :=
  match fuel with
  | O => mret None
  | S fuel =>
      s ← get;
      match fetchint (user_mem me s) (sz (proc_at me s)) (u32 (uargv + 4 * Z.of_nat (length argv))) with
      | None => mret None
      | Some uarg =>
          if uarg =? 0 then mret (Some argv)
          else
            match fetchstr (user_mem me s) (sz (proc_at me s)) (u32 uarg) with
            | None => mret None
            | Some (a, len) =>
                str ← user_bytes me a (Z.to_nat len);
                exec_args fuel me uargv (argv ++ [str])
            end
      end
  end.

End Calls.
