(* ===== verification/Shell.v ===== *)
(** * The shell: reading a command

    The parser of [sh.c].  A position in the line is the part of the line that is
    left, and the pointers a token gives are offsets in the line; the tree holds
    such offsets, and [nulterminate] ends the strings in the line itself.  Memory
    for the tree is always found. *)

From S2P Require Import Prelude Bytes Str Ulib Sysfile.

(** ** The tree *)

(** [struct cmd]: the constructors are the types [EXEC], [REDIR], [PIPE], [LIST]
    and [BACK].  A string is the offsets of its first byte and of the byte after
    it. *)
Definition span : Type := nat * nat.
Inductive cmd :=
  | EXEC (argv : list span)
  | REDIR (c : cmd) (file : span) (mode fd : Z)
  | PIPE (left right : cmd)
  | LIST (left right : cmd)
  | BACK (c : cmd).

Definition MAXARGS : nat := 10.
Definition whitespace : list Z := [32; 9; 13; 10; 11].
Definition symbols : list Z := lit "<|>&;()".

Definition is_space (c : Z) : bool := match strchr whitespace c with Some _ => true | None => false end.
Definition is_symbol (c : Z) : bool := match strchr symbols c with Some _ => true | None => false end.

(** ** The parser's results: a value and what is left of the line, or the message
    of [panic], which ends the shell's child. *)
Inductive pres (A : Type) :=
  | POk (a : A) (s : list Z)
  | PDie (msg : string)
  | PFuel.
Arguments POk {A}.
Arguments PDie {A}.
Arguments PFuel {A}.

Definition P (A : Type) : Type := list Z → pres A.
#[export] Instance P_ret : MRet P := λ A a s, POk a s.
#[export] Instance P_bind : MBind P := λ A B f m s,
  match m s with POk a s => f a s | PDie msg => PDie msg | PFuel => PFuel end.
Definition pdie {A} (msg : string) : P A := λ _, PDie msg.
Definition pfuel {A} : P A := λ _, PFuel.
(** A loop of at most as many turns as there are bytes left. *)
Definition looping {A} (m : nat → P A) : P A := λ s, m (length s) s.

(** ** Tokens *)

Section Parser.
(** The length of the line. *)
Context (total : nat).

Fixpoint skip (s : list Z) : list Z :=
  match s with
  | c :: s' => if is_space c then skip s' else s
  | [] => []
  end.
Fixpoint skip_word (s : list Z) : list Z :=
  match s with
  | c :: s' => if (is_space c || is_symbol c)%bool then s else skip_word s'
  | [] => []
  end.

Definition offset (s : list Z) : nat := total - length s.

(** The token, the string it is, and the rest. *)
Definition gettoken : P (Z * span) := λ s,
  let s := skip s in
  let q := offset s in
  let '(ret, s) :=
    match s with
    | [] => (0, s)
    | c :: s1 =>
        if bool_decide (c ∈ lit "|();&<") then (c, s1)
        else if c =? 62 then
          match s1 with
          | c2 :: s2 => if c2 =? 62 then (43, s2) else (c, s1)
          | [] => (c, s1)
          end
        else (97, skip_word s)
    end in
  POk (ret, (q, offset s)) (skip s).

Definition peek (toks : list Z) : P bool := λ s,
  let s := skip s in
  POk (match s with [] => false | c :: _ => match strchr toks c with Some _ => true | None => false end end) s.

(** ** Commands *)

(** The loop of [parseredirs] round the command [c]. *)
Fixpoint parseredirs_loop (fuel : nat) (c : cmd) : P cmd :=
  b ← peek (lit "<>");
  if (b : bool) then
    match fuel with
    | O => pfuel
    | S fuel =>
        t ← gettoken;
        f ← gettoken;
        if negb (fst f =? 97) then pdie "missing file for redirection"
        else
          parseredirs_loop fuel
            (if fst t =? 60 then REDIR c (snd f) O_RDONLY 0
             else if fst t =? 62 then REDIR c (snd f) (Z.lor O_WRONLY O_CREATE) 1
             else if fst t =? 43 then REDIR c (snd f) (Z.lor O_WRONLY O_CREATE) 1
             else c)
    end
  else mret c.
Definition parseredirs (c : cmd) : P cmd := looping (λ n, parseredirs_loop n c).

(** A store into the structure that [parseexec] has at the bottom of the tree
    [ret] it builds. *)
Fixpoint fill (argv : list span) (ret : cmd) : cmd :=
  match ret with
  | EXEC _ => EXEC argv
  | REDIR c file mode fd => REDIR (fill argv c) file mode fd
  | _ => ret
  end.

(** The loop of [parseexec]; [argv] are the arguments so far. *)
Fixpoint parseexec_loop (fuel : nat) (argv : list span) (ret : cmd) : P cmd :=
  b ← peek (lit "|)&;");
  if (b : bool) then mret ret
  else
    t ← gettoken;
    if fst t =? 0 then mret ret
    else if negb (fst t =? 97) then pdie "syntax"
    else
      let argv := argv ++ [snd t] in
      if (MAXARGS <=? length argv)%nat then pdie "too many args"
      else
        ret ← parseredirs (fill argv ret);
        match fuel with
        | O => pfuel
        | S fuel => parseexec_loop fuel argv ret
        end.
Definition parsesimple : P cmd :=
  ret ← parseredirs (EXEC []);
  looping (λ n, parseexec_loop n [] ret).

(** The loop of [parseline] over "&". *)
Fixpoint parseback_loop (fuel : nat) (c : cmd) : P cmd :=
  b ← peek (lit "&");
  if (b : bool) then
    match fuel with
    | O => pfuel
    | S fuel => gettoken;; parseback_loop fuel (BACK c)
    end
  else mret c.

Fixpoint parseline (fuel : nat) : P cmd :=
  match fuel with
  | O => pfuel
  | S fuel =>
      c ← parsepipe fuel;
      c ← looping (λ n, parseback_loop n c);
      b ← peek (lit ";");
      if (b : bool) then
        gettoken;;
        c2 ← parseline fuel;
        mret (LIST c c2)
      else mret c
  end
with parsepipe (fuel : nat) : P cmd :=
  match fuel with
  | O => pfuel
  | S fuel =>
      c ← parseexec fuel;
      b ← peek (lit "|");
      if (b : bool) then
        gettoken;;
        c2 ← parsepipe fuel;
        mret (PIPE c c2)
      else mret c
  end
with parseexec (fuel : nat) : P cmd :=
  match fuel with
  | O => pfuel
  | S fuel =>
      b ← peek (lit "(");
      if (b : bool) then parseblock fuel else parsesimple
  end
with parseblock (fuel : nat) : P cmd :=
  match fuel with
  | O => pfuel
  | S fuel =>
      b ← peek (lit "(");
      if negb b then pdie "parseblock"
      else
        gettoken;;
        c ← parseline fuel;
        b ← peek (lit ")");
        if negb b then pdie "syntax - missing )"
        else
          gettoken;;
          parseredirs c
  end.
End Parser.

(** ** The whole line *)

(** The fuel: each call on the same position is one of a chain of four. *)
Definition parse_fuel (s : list Z) : nat := 4 * (length s + 1).

(** [nulterminate]: the stores of zeros in the line. *)
Fixpoint nulterminate (c : cmd) (buf : list Z) : list Z :=
  match c with
  | EXEC argv => foldl (λ buf a, <[snd a := 0]> buf) buf argv
  | REDIR c file _ _ => <[snd file := 0]> (nulterminate c buf)
  | PIPE l r | LIST l r => nulterminate r (nulterminate l buf)
  | BACK c => nulterminate c buf
  end.

(** [panic]'s message, and what [parsecmd] says of what it cannot read. *)
Definition panic_text (msg : list Z) : list Z := default [] (format "%s
" [AStr (Some msg)]).
Definition leftovers (s : list Z) : list Z := default [] (format "leftovers: %s
" [AStr (Some s)]) ++ panic_text (lit "syntax").

(** The tree and the line as [parsecmd] leaves them, or what it writes before it
    ends the process; the line is followed by its nul.  [None]: no fuel. *)
Definition parsecmd (s : list Z) : option (list Z + cmd * list Z) :=
  match parseline (length s) (parse_fuel s) s with
  | POk c s' =>
      match peek [] s' with
      | POk _ [] => Some (inr (c, nulterminate c (s ++ [0])))
      | POk _ s' => Some (inl (leftovers s'))
      | _ => None
      end
  | PDie msg => Some (inl (panic_text (lit msg)))
  | PFuel => None
  end.
