(* ===== verification/ShellSpec.v ===== *)
(** * Properties of the shell's parser

    The parser returns on every line, with a tree whose strings are the words of
    the line, and it is the inverse of printing: every layout of the tokens of a
    command gives that command. *)

From S2P Require Import Prelude Bytes Str Ulib Sysfile Shell.

(** ** Results of parsers *)

(** The parser does not run out of fuel, and [Q] holds of what it returns. *)
Definition pspec {A} (m : P A) (Q : A → list Z → Prop) (s : list Z) : Prop :=
  match m s with POk a s' => Q a s' | PDie _ => True | PFuel => False end.

Lemma pspec_bind {A B} (m : P A) (f : A → P B) Q s : pspec m (λ a, pspec (f a) Q) s → pspec (m ≫= f) Q s.
Proof. unfold pspec, mbind, P_bind. by destruct (m s). Qed.
Lemma pspec_ret {A} (a : A) (Q : A → list Z → Prop) s : Q a s → pspec (mret a) Q s.
Proof. done. Qed.
Lemma pspec_mono {A} (m : P A) (Q Q' : A → list Z → Prop) s : pspec m Q s → (∀ a s', Q a s' → Q' a s') → pspec m Q' s.
Proof. unfold pspec. destruct (m s); naive_solver. Qed.
Lemma pspec_die {A} msg (Q : A → list Z → Prop) s : pspec (pdie msg) Q s.
Proof. done. Qed.

(** ** Characters and words *)

Definition word_char (c : Z) : Prop := is_space c = false ∧ is_symbol c = false.

Lemma skip_length s : (length (skip s) ≤ length s)%nat.
Proof. induction s as [|c s IH]; cbn [skip]; [done|]. destruct (is_space c); simpl; lia. Qed.
Lemma skip_head s c : head (skip s) = Some c → is_space c = false.
Proof. induction s as [|b s IH]; cbn [skip]; [done|]. destruct (is_space b) eqn:E; [done|]. by intros [= ->]. Qed.
Lemma skip_id s : (∀ c, head s = Some c → is_space c = false) → skip s = s.
Proof. destruct s as [|c s]; [done|]. intros Hc. cbn [skip]. by rewrite (Hc c). Qed.

(** [skip_word] ends a maximal word. *)
Lemma skip_word_spec s : ∃ w, s = w ++ skip_word s ∧ Forall word_char w ∧ ∀ c, head (skip_word s) = Some c → ¬ word_char c.
Proof.
  induction s as [|c s (w & Hs & Hw & Hn)]; cbn [skip_word]; [by exists []|]. unfold word_char in *.
  destruct (is_space c) eqn:E1; cbn [orb]; [exists []; split_and!; try done; intros ? [= <-] [? _]; congruence|].
  destruct (is_symbol c) eqn:E2; [exists []; split_and!; try done; intros ? [= <-] [_ ?]; congruence|].
  exists (c :: w). split; [by rewrite Hs at 1|]. split; [by constructor|done].
Qed.

Definition plain_symbols : list Z := lit "|();&<".
Lemma symbol_cases c : is_symbol c = true → c ∈ plain_symbols ∨ c = 62.
Proof.
  unfold is_symbol. pose proof (strchr_in symbols c) as Hs. destruct (strchr symbols c); [|done]. intros _.
  revert Hs. unfold symbols, plain_symbols. vm_compute lit. set_solver.
Qed.

(** The string the line holds. *)
Definition cstr (buf : list Z) (sp : span) : list Z := name_of (drop (fst sp) buf).
Lemma name_of_word w post : 0 ∉ w → name_of (w ++ 0 :: post) = w.
Proof.
  induction w as [|c w IH]; intros Hw; [done|]. apply not_elem_of_cons in Hw as [Hc Hw]. cbn [app name_of].
  rewrite (proj2 (Z.eqb_neq c 0)) by done. by rewrite IH.
Qed.

Section Total.
Context (line : list Z).
Hypothesis no_nul : 0 ∉ line.
Let total := length line.

(** A position in the line. *)
Definition suf (s : list Z) : Prop := ∃ pre, line = pre ++ s.

(** A string of the tree: a word of the line, with something else after it. *)
Definition proper (sp : span) : Prop :=
  ∃ pre w post, line = pre ++ w ++ post ∧ sp = (length pre, length pre + length w)%nat ∧ w ≠ [] ∧
    Forall word_char w ∧ (∀ c, head post = Some c → ¬ word_char c).

Fixpoint spans (c : cmd) : list span :=
  match c with
  | EXEC argv => argv
  | REDIR c file _ _ => spans c ++ [file]
  | PIPE l r | LIST l r => spans l ++ spans r
  | BACK c => spans c
  end.
(** A tree as the code means it: the argument vectors fit in their arrays, and
    the strings are words. *)
Fixpoint cmd_ok (c : cmd) : Prop :=
  match c with
  | EXEC argv => (length argv < MAXARGS)%nat ∧ Forall proper argv
  | REDIR c file _ _ => cmd_ok c ∧ proper file
  | PIPE l r | LIST l r => cmd_ok l ∧ cmd_ok r
  | BACK c => cmd_ok c
  end.

Lemma suf_skip s : suf s → suf (skip s).
Proof.
  revert s. fix IH 1. intros [|c s] [pre Hp]; cbn [skip]; [by exists pre|]. destruct (is_space c); [|by exists pre].
  apply IH. exists (pre ++ [c]). by rewrite <- app_assoc.
Qed.
Lemma suf_app a s : suf (a ++ s) → suf s.
Proof. intros [pre Hp]. exists (pre ++ a). by rewrite <- app_assoc. Qed.
Lemma offset_suf pre s : line = pre ++ s → offset total s = length pre.
Proof. intros Hl. unfold offset, total. rewrite Hl, length_app. lia. Qed.

Lemma gettoken_spec s :
  suf s → ∃ tok sp s', gettoken total s = POk (tok, sp) s' ∧ suf s' ∧ (length s' ≤ length s)%nat ∧
    (tok = 0 → skip s = []) ∧ (tok ≠ 0 → (length s' < length s)%nat) ∧ (tok = 97 → proper sp).
Proof.
  intros Hs. unfold gettoken. pose proof (suf_skip s Hs) as [pre Hp]. pose proof (skip_length s) as Hl.
  pose proof (skip_head s) as Hh. destruct (skip s) as [|c s1].
  { eexists _, _, _. split; [done|]. cbn [skip]. split; [by exists pre|]. split; [simpl; lia|]. split; done. }
  simpl in Hl. assert (c ≠ 0) as Hc0 by (intros ->; apply no_nul; rewrite Hp; set_solver). assert (∀ a s2, c :: s1 = a ++ s2 → suf (skip s2) ∧ (length (skip s2) ≤ length s2)%nat) as Hrest.
  { intros a s2 E. split; [|apply skip_length]. apply suf_skip, (suf_app a). exists pre. by rewrite <- E. }
  specialize (Hh c eq_refl).
  destruct (bool_decide (c ∈ lit "|();&<")) eqn:Ec.
  { destruct (Hrest [c] s1 eq_refl) as [H1 H2]. eexists _, _, _. split; [done|]. split; [done|]. split; [lia|]. split; [done|]. split; [lia|].
    intros ->. by vm_compute in Ec. }
  destruct (Z.eqb_spec c 62) as [->|Hc].
  { destruct s1 as [|c2 s2]; [|destruct (c2 =? 62)].
    - eexists _, _, _. split; [done|]. cbn [skip length]. split; [exists line; by rewrite app_nil_r|]. split; [lia|]. split; [done|]. split; [lia|done].
    - destruct (Hrest [62; c2] s2 eq_refl) as [H1 H2]. eexists _, _, _. split; [done|]. simpl in Hl. split; [done|]. split; [lia|]. split; [done|]. split; [lia|done].
    - destruct (Hrest [62] (c2 :: s2) eq_refl) as [H1 H2]. eexists _, _, _. split; [done|]. cbn [length] in H2, Hl. split; [done|].
      split; [lia|]. split; [done|]. split; [lia|done]. }
  assert (word_char c) as Hwc.
  { split; [done|]. destruct (is_symbol c) eqn:E; [|done]. apply symbol_cases in E as [E|E]; [|done].
    apply bool_decide_eq_false in Ec. done. }
  destruct (skip_word_spec (c :: s1)) as (w & Hw & HF & Hn). set (s2 := skip_word (c :: s1)) in *.
  assert (w ≠ []) as Hne by (intros ->; simpl in Hw; apply (Hn c); [by rewrite <- Hw|done]).
  destruct (Hrest w s2 Hw) as [H1 H2]. pose proof (f_equal length Hw) as Hlen. rewrite length_app in Hlen. simpl in Hlen.
  assert (0 < length w)%nat by (destruct w; [done|simpl; lia]).
  eexists _, _, _. split; [done|]. split; [done|]. split; [lia|]. split; [done|]. split; [lia|].
  intros _. exists pre, w, s2. split; [by rewrite <- Hw|]. rewrite (offset_suf pre _ Hp).
  rewrite (offset_suf (pre ++ w) s2) by (by rewrite <- app_assoc, <- Hw). by rewrite length_app.
Qed.

Lemma peek_spec toks s :
  suf s → ∃ b s', peek toks s = POk b s' ∧ suf s' ∧ (length s' ≤ length s)%nat ∧ (b = true → skip s' ≠ []).
Proof.
  intros Hs. eexists _, _. split; [done|]. split; [by apply suf_skip|]. split; [apply skip_length|].
  rewrite (skip_id (skip s)) by apply skip_head. by destruct (skip s).
Qed.

(** Step over the first token or look-ahead of a parser. *)
Ltac token := apply pspec_bind; cbv beta; lazymatch goal with Hs : suf ?x |- pspec _ _ ?x => let t := fresh "tok" in let sp := fresh "sp" in let s' := fresh "s" in let E := fresh in
  destruct (gettoken_spec _ Hs) as (t & sp & s' & E & ? & ? & ? & ? & ?); unfold pspec at 1; rewrite E; clear E; cbn [fst snd] end.
Ltac look := apply pspec_bind; cbv beta; lazymatch goal with Hs : suf ?x |- pspec (peek ?toks) _ ?x => let b := fresh "b" in let s' := fresh "s" in let E := fresh in
  destruct (peek_spec toks _ Hs) as (b & s' & E & ? & ? & ?); unfold pspec at 1; rewrite E; clear E end.

(** What every parser of commands guarantees on the line from [s] on. *)
Definition parses (m : P cmd) (s : list Z) : Prop :=
  pspec m (λ c s', cmd_ok c ∧ suf s' ∧ (length s' ≤ length s)%nat) s.

Lemma parses_ret c s : cmd_ok c → suf s → parses (mret c) s.
Proof. intros Hc Hs. by split. Qed.
(** Sequencing: the second part starts further on. *)
Lemma parses_from m (s s0 : list Z) : (length s ≤ length s0)%nat → parses m s →
  pspec m (λ c s', cmd_ok c ∧ suf s' ∧ (length s' ≤ length s0)%nat) s.
Proof. intros Hl Hm. eapply pspec_mono; [exact Hm|]. intros c s' (Hc & Hs & Hle). split_and!; try done. lia. Qed.
Lemma parses_bind m (f : cmd → P cmd) s :
  parses m s → (∀ c s', cmd_ok c → suf s' → (length s' ≤ length s)%nat → parses (f c) s') → parses (m ≫= f) s.
Proof.
  intros Hm Hf. apply pspec_bind. eapply pspec_mono; [exact Hm|]. intros c s' (Hc & Hs & Hle).
  apply parses_from; [done|]. by apply Hf.
Qed.

Lemma parseredirs_loop_ok fuel : ∀ c s, cmd_ok c → suf s → (length s ≤ fuel)%nat → parses (parseredirs_loop total fuel c) s.
Proof.
  induction fuel as [|fuel IH]; intros c s Hc Hs Hf; cbn [parseredirs_loop]; unfold parses; look.
  - assert (b = false) as -> by (destruct b, s0; [naive_solver|simpl in *; lia|done..]). apply pspec_ret. by split.
  - destruct b; [|by apply pspec_ret]. token.
    token. destruct (Z.eqb_spec tok0 97) as [->|]; cbn [negb]; [|apply pspec_die].
    apply parses_from; [lia|]. apply IH; [|done|].
    + repeat (match goal with |- context [if ?x then _ else _] => destruct x end); cbn [cmd_ok]; auto.
    + lia.
Qed.
Lemma parseredirs_ok c s : cmd_ok c → suf s → parses (parseredirs total c) s.
Proof. intros Hc Hs. by apply (parseredirs_loop_ok (length s)). Qed.

Lemma fill_ok argv ret : cmd_ok ret → (length argv < MAXARGS)%nat → Forall proper argv → cmd_ok (fill argv ret).
Proof. induction ret; cbn [fill cmd_ok]; naive_solver. Qed.

Lemma parseexec_loop_ok fuel : ∀ argv ret s,
  cmd_ok ret → Forall proper argv → suf s → (length s ≤ fuel)%nat → parses (parseexec_loop total fuel argv ret) s.
Proof.
  induction fuel as [|fuel IH]; intros argv ret s Hr Ha Hs Hf; cbn [parseexec_loop]; unfold parses; look;
    (destruct b; [by apply pspec_ret|]); token;
    (destruct (Z.eqb_spec tok 0) as [->|]; [apply pspec_ret; split_and!; try done; lia|]);
    (destruct (Z.eqb_spec tok 97) as [->|]; cbn [negb]; [|apply pspec_die]).
  - lia.
  - destruct (Nat.leb_spec MAXARGS (length (argv ++ [sp]))); [apply pspec_die|].
    assert (Forall proper (argv ++ [sp])) by (apply Forall_app; auto). apply pspec_bind.
    eapply pspec_mono; [apply parseredirs_ok; [by apply fill_ok|done]|]. intros ret' s2 (Hr' & Hs2 & Hl2). cbv beta.
    apply parses_from; [lia|]. apply IH; try done. lia.
Qed.
Lemma parsesimple_ok s : suf s → parses (parsesimple total) s.
Proof.
  intros Hs. apply parses_bind; [apply parseredirs_ok; [|done]|].
  - cbn. split; [unfold MAXARGS; lia|constructor].
  - intros c s' Hc Hs' _. by apply (parseexec_loop_ok (length s')).
Qed.

Lemma parseback_loop_ok fuel : ∀ c s, cmd_ok c → suf s → (length s ≤ fuel)%nat → parses (parseback_loop total fuel c) s.
Proof.
  induction fuel as [|fuel IH]; intros c s Hc Hs Hf; cbn [parseback_loop]; unfold parses; look.
  - assert (b = false) as -> by (destruct b, s0; [naive_solver|simpl in *; lia|done..]). apply pspec_ret. by split.
  - destruct b; [|by apply pspec_ret]. token.
    apply parses_from; [lia|]. apply IH; try done. destruct (decide (tok = 0)) as [->|]; [naive_solver|lia].
Qed.

(** The fuel that is enough for a line of which [n] bytes are left. *)
Lemma parser_ok fuel :
  (∀ s, suf s → (4 * length s + 4 ≤ fuel)%nat → parses (parseline total fuel) s) ∧
  (∀ s, suf s → (4 * length s + 3 ≤ fuel)%nat → parses (parsepipe total fuel) s) ∧
  (∀ s, suf s → (4 * length s + 2 ≤ fuel)%nat → parses (parseexec total fuel) s) ∧
  (∀ s, suf s → (4 * length s + 1 ≤ fuel)%nat → parses (parseblock total fuel) s).
Proof.
  induction fuel as [|fuel (IHl & IHp & IHe & IHb)]; [split_and!; intros; lia|].
  assert (∀ n s s' : list Z, (length s' ≤ length s)%nat → (length s ≤ length n)%nat → (length s' ≤ length n)%nat) as Htr by (intros; lia).
  split_and!; intros s Hs Hf; cbn [parseline parsepipe parseexec parseblock].
  - apply parses_bind; [apply IHp; [done|lia]|]. intros c s1 Hc Hs1 Hl1.
    apply parses_bind; [by apply (parseback_loop_ok (length s1))|]. intros c2 s2 Hc2 Hs2 Hl2. unfold parses. look.
    destruct b; [|by apply pspec_ret]. token. apply pspec_bind.
    assert (length s3 < length s0)%nat by (destruct (decide (tok = 0)) as [->|]; [naive_solver|lia]).
    eapply pspec_mono; [apply IHl; [done|lia]|]. intros c3 s4 (Hc3 & Hs4 & Hl4). apply pspec_ret. split_and!; try done. lia.
  - apply parses_bind; [apply IHe; [done|lia]|]. intros c s1 Hc Hs1 Hl1. unfold parses. look.
    destruct b; [|by apply pspec_ret]. token. apply pspec_bind.
    assert (length s2 < length s0)%nat by (destruct (decide (tok = 0)) as [->|]; [naive_solver|lia]).
    eapply pspec_mono; [apply IHp; [done|lia]|]. intros c3 s4 (Hc3 & Hs4 & Hl4). apply pspec_ret. split_and!; try done. lia.
  - unfold parses. look. apply parses_from; [done|]. destruct b; [apply IHb; [done|lia]|by apply parsesimple_ok].
  - unfold parses. look. destruct b; cbn [negb]; [|apply pspec_die]. token.
    assert (length s1 < length s0)%nat by (destruct (decide (tok = 0)) as [->|]; [naive_solver|lia]).
    apply pspec_bind. eapply pspec_mono; [apply IHl; [done|lia]|]. intros c s2 (Hc & Hs2 & Hl2). cbv beta. look.
    destruct b; cbn [negb]; [|apply pspec_die]. token. apply parses_from; [lia|]. by apply parseredirs_ok.
Qed.

(** ** The strings of the tree *)

Lemma spans_proper c : cmd_ok c → Forall proper (spans c).
Proof.
  induction c; cbn [cmd_ok spans]; rewrite ?Forall_app, ?Forall_singleton; naive_solver.
Qed.

(** The line after some of the zeros have been stored. *)
Definition ended (E : list nat) (buf : list Z) : Prop :=
  length buf = S (length line) ∧
  ∀ j c, (line ++ [0]) !! j = Some c → buf !! j = Some (if bool_decide (j ∈ E) then 0 else c).

Lemma ended_store E buf e : ended E buf → (e ≤ length line)%nat → ended (E ++ [e]) (<[e := 0]> buf).
Proof.
  intros [Hl Hb] He. split; [by rewrite length_insert|]. intros j c Hc. destruct (decide (j = e)) as [->|Hne].
  - rewrite list_lookup_insert_eq by lia. by rewrite bool_decide_eq_true_2 by set_solver.
  - rewrite list_lookup_insert_ne by done. rewrite (Hb j c Hc).
    by rewrite (bool_decide_ext (j ∈ E) (j ∈ E ++ [e])) by set_solver.
Qed.

Lemma proper_bound sp : proper sp → (fst sp < snd sp ≤ length line)%nat.
Proof.
  intros (pre & w & post & -> & -> & Hw & _). rewrite !length_app. cbn. destruct w; [done|simpl; lia].
Qed.

Lemma nulterminate_ended c : ∀ E buf, cmd_ok c → ended E buf → ended (E ++ map snd (spans c)) (nulterminate c buf).
Proof.
  induction c as [argv|c IH file m d|l IHl r IHr|l IHl r IHr|c IH]; intros E buf Hok He; cbn [spans nulterminate cmd_ok] in *.
  - destruct Hok as [_ Hok]. revert E buf He. induction argv as [|a argv IH]; intros E buf He; cbn [map foldl]; [by rewrite app_nil_r|].
    apply Forall_cons in Hok as [Ha Hok]. rewrite cons_middle, app_assoc. apply IH; [done|]. apply ended_store; [done|].
    by apply proper_bound.
  - destruct Hok as [Hc Hf]. rewrite map_app, app_assoc. apply ended_store; [by apply IH|by apply proper_bound].
  - destruct Hok. rewrite map_app, app_assoc. auto.
  - destruct Hok. rewrite map_app, app_assoc. auto.
  - auto.
Qed.

(** The word a string of the tree stands for. *)
Definition word_at (sp : span) : list Z := take (snd sp - fst sp) (drop (fst sp) line).
Lemma ended_string E buf sp :
  ended E buf → (∀ e, e ∈ E → ∃ sp', proper sp' ∧ e = snd sp') → snd sp ∈ E → proper sp → cstr buf sp = word_at sp.
Proof.
  intros [Hl Hb] HE Hin Hp. pose proof (proper_bound _ Hp) as [_ Hle]. pose proof Hp as (pre & w & post & Hline & -> & Hne & Hw & Hn).
  cbn [snd] in *. unfold cstr, word_at. cbn [fst snd]. replace (length pre + length w - length pre)%nat with (length w) by lia.
  assert (take (length w) (drop (length pre) line) = w) as -> by (by rewrite Hline, drop_app_length, take_app_length).
  assert (drop (length pre) buf = w ++ drop (length pre + length w) buf) as ->.
  { rewrite <- (take_drop (length w) (drop (length pre) buf)), drop_drop. f_equal. apply list_eq. intros k.
    destruct (decide (k < length w)%nat) as [Hk|Hk]; [|rewrite !lookup_ge_None_2; [done|lia|rewrite length_take; lia]].
    rewrite lookup_take_lt, lookup_drop by lia. destruct (lookup_lt_is_Some_2 w k Hk) as [c Hc]. rewrite Hc.
    assert (line !! (length pre + k)%nat = Some c) as Hlc.
    { by rewrite Hline, lookup_app_r, Nat.add_sub' , lookup_app_l by lia. }
    rewrite (Hb _ c) by (by apply lookup_app_l_Some). rewrite bool_decide_eq_false_2; [done|].
    intros (sp' & (pre' & w' & post' & Hline' & -> & _ & _ & Hn') & He)%HE. cbn [snd] in He. apply (Hn' c).
    - rewrite Hline', app_assoc, lookup_app_r, length_app in Hlc by (rewrite length_app; lia).
      replace (length pre + k - (length pre' + length w'))%nat with 0%nat in Hlc by lia. by destruct post'.
    - rewrite Forall_lookup in Hw. by apply (Hw k). }
  destruct (lookup_lt_is_Some_2 (line ++ [0]) (length pre + length w)) as [c Hc]; [rewrite length_app; simpl; lia|].
  pose proof (Hb _ _ Hc) as Hz. rewrite bool_decide_eq_true_2 in Hz by done. rewrite (drop_S _ _ _ Hz). apply name_of_word.
  intros H0. apply no_nul. rewrite Hline. set_solver.
Qed.

Lemma fresh_ended : ended [] (line ++ [0]).
Proof. split; [rewrite length_app; simpl; lia|]. intros j c Hc. by rewrite bool_decide_eq_false_2 by set_solver. Qed.

End Total.

Lemma parsecmd_ok line :
  0 ∉ line →
  match parsecmd line with
  | None => False
  | Some (inl _) => True
  | Some (inr (c, buf)) =>
      cmd_ok line c ∧ length buf = S (length line) ∧
      ∀ sp, sp ∈ spans c → proper line sp ∧ cstr buf sp = word_at line sp
  end.
Proof.
  intros Hnul. unfold parsecmd. destruct (parser_ok line Hnul (parse_fuel line)) as [Hp _].
  assert (parses line (parseline (length line) (parse_fuel line)) line) as Hp'.
  { apply Hp; [by exists []|]. unfold parse_fuel. lia. }
  unfold parses, pspec in Hp'. destruct (parseline _ _ line) as [c s'| |]; [|done..].
  destruct Hp' as (Hc & Hs & _). unfold peek. destruct (skip s'); [|done].
  pose proof (spans_proper line c Hc) as Hpr. rewrite Forall_forall in Hpr.
  pose proof (nulterminate_ended line Hnul c [] (line ++ [0]) Hc (fresh_ended line Hnul)) as He. cbn [app] in He.
  split; [done|]. split; [apply He|]. intros sp Hsp. split; [by apply Hpr|]. eapply ended_string; [done|exact He| | |by apply Hpr].
  - intros e (sp' & -> & Hin)%list_elem_of_fmap. exists sp'. split; [by apply Hpr|done].
  - by apply list_elem_of_fmap_2.
Qed.

(** C31: the shell reads every line. [parsecmd] comes to an end on every line
    without nul bytes: it reports an error, or gives a tree whose argument vectors
    fit in their arrays and whose strings are the words of the line they were
    read from, each ended by a nul that [nulterminate] stored inside the line. *)
Theorem parsecmd_total line :
  0 ∉ line →
  ∃ r, parsecmd line = Some r ∧
  match r with
  | inl msg => True
  | inr (c, buf) =>
      cmd_ok line c ∧ length buf = S (length line) ∧
      ∀ sp, sp ∈ spans c → proper line sp ∧ cstr buf sp = word_at line sp
  end.
Proof.
  intros Hnul. pose proof (parsecmd_ok line Hnul) as H. destruct (parsecmd line) as [r|]; [|done]. exists r. split; [done|].
  by destruct r as [msg|[c buf]].
Qed.

Module SampleLine.
(** [cat<a|(wc;ls -l)>>b &] *)
Definition line : list Z := lit "cat<a|(wc;ls -l)>>b &".
Definition tree : cmd :=
  BACK (PIPE (REDIR (EXEC [(0, 3)%nat]) (4, 5)%nat 0 0)
    (REDIR (LIST (EXEC [(7, 9)%nat]) (EXEC [(10, 12)%nat; (13, 15)%nat])) (18, 19)%nat 513 1)).

Lemma parsecmd_total_witness :
  0 ∉ line ∧ ∃ buf, parsecmd line = Some (inr (tree, buf)) ∧ cmd_ok line tree ∧
    ∀ sp, sp ∈ spans tree → cstr buf sp = word_at line sp.
Proof.
  assert (0 ∉ line) as Hn by (apply (bool_decide_eq_true_1 (0 ∉ line)); vm_compute; reflexivity).
  split; [exact Hn|]. destruct (parsecmd_total line Hn) as (r & Hr & H).
  destruct r as [msg|[c buf]]; [vm_compute in Hr; discriminate|].
  assert (c = tree) as -> by (vm_compute in Hr; injection Hr as <- _; reflexivity).
  exists buf. destruct H as (H1 & _ & H2). split; [exact Hr|]. split; [exact H1|]. intros sp Hsp. apply (H2 sp Hsp).
Defined.
End SampleLine.
