(* ===== verification/ShellGrammar.v ===== *)
(** * The grammar of the shell

    The language of command lines, as tokens with any white space between them,
    and the theorem that [parsecmd] accepts exactly the lines of that language and
    gives each its meaning. *)

From S2P Require Import Prelude Bytes Str Ulib Sysfile Shell ShellSpec.

(** ** Tokens and their layouts *)

Inductive token := Sym (c : Z) | Append | Word (w : list Z).

Definition token_bytes (t : token) : list Z := match t with Sym c => [c] | Append => [62; 62] | Word w => w end.
Definition token_code (t : token) : Z := match t with Sym c => c | Append => 43 | Word _ => 97 end.
(** The token is what is read at the start of its bytes when [s] follows. *)
Definition closed (t : token) (s : list Z) : Prop :=
  match t with
  | Sym c => is_symbol c = true ∧ (c = 62 → head s ≠ Some 62)
  | Append => True
  | Word w => w ≠ [] ∧ Forall word_char w ∧ ∀ c, head s = Some c → ¬ word_char c
  end.
Definition blank (s : list Z) : Prop := Forall (λ c, is_space c = true) s.
Fixpoint lay (ts : list token) (s : list Z) : Prop :=
  match ts with
  | [] => blank s
  | t :: ts => ∃ ws s', s = ws ++ token_bytes t ++ s' ∧ blank ws ∧ closed t s' ∧ lay ts s'
  end.

(** ** Commands *)

Inductive rop := In | Out | App.
Definition sredir : Type := rop * list Z.
Inductive sline :=
  | SLine (p : spipe) (amps : nat)
  | SSeq (p : spipe) (amps : nat) (rest : sline)
with spipe :=
  | SOne (e : sexec)
  | SPipe (e : sexec) (rest : spipe)
with sexec :=
  | Simple (rs : list sredir) (ws : list (list Z * list sredir))
  | Block (l : sline) (rs : list sredir).

Scheme sline_mind := Induction for sline Sort Prop
  with spipe_mind := Induction for spipe Sort Prop
  with sexec_mind := Induction for sexec Sort Prop.
Combined Scheme syntax_ind from sline_mind, spipe_mind, sexec_mind.

Definition redir_tokens (rs : list sredir) : list token :=
  concat (map (λ r, [match fst r with In => Sym 60 | Out => Sym 62 | App => Append end; Word (snd r)]) rs).
Definition word_tokens (ws : list (list Z * list sredir)) : list token :=
  concat (map (λ w, Word (fst w) :: redir_tokens (snd w)) ws).
Fixpoint line_tokens (l : sline) : list token :=
  match l with
  | SLine p n => pipe_tokens p ++ replicate n (Sym 38)
  | SSeq p n l => pipe_tokens p ++ replicate n (Sym 38) ++ Sym 59 :: line_tokens l
  end
with pipe_tokens (p : spipe) : list token :=
  match p with
  | SOne e => exec_tokens e
  | SPipe e p => exec_tokens e ++ Sym 124 :: pipe_tokens p
  end
with exec_tokens (e : sexec) : list token :=
  match e with
  | Simple rs ws => redir_tokens rs ++ word_tokens ws
  | Block l rs => Sym 40 :: line_tokens l ++ Sym 41 :: redir_tokens rs
  end.

(** No command has more words than [argv] has room for. *)
Fixpoint few_line (l : sline) : Prop :=
  match l with SLine p _ => few_pipe p | SSeq p _ l => few_pipe p ∧ few_line l end
with few_pipe (p : spipe) : Prop :=
  match p with SOne e => few_exec e | SPipe e p => few_exec e ∧ few_pipe p end
with few_exec (e : sexec) : Prop :=
  match e with Simple _ ws => (length ws < MAXARGS)%nat | Block l _ => few_line l end.

(** ** Meaning: the tree with strings for pointers *)

Inductive scmd :=
  | SEXEC (argv : list (list Z))
  | SREDIR (c : scmd) (file : list Z) (mode fd : Z)
  | SPIPE (left right : scmd)
  | SLIST (left right : scmd)
  | SBACK (c : scmd).

Fixpoint strings (f : span → list Z) (c : cmd) : scmd :=
  match c with
  | EXEC argv => SEXEC (map f argv)
  | REDIR c file mode fd => SREDIR (strings f c) (f file) mode fd
  | PIPE l r => SPIPE (strings f l) (strings f r)
  | LIST l r => SLIST (strings f l) (strings f r)
  | BACK c => SBACK (strings f c)
  end.

Definition redirect (c : scmd) (r : sredir) : scmd :=
  match fst r with
  | In => SREDIR c (snd r) O_RDONLY 0
  | Out | App => SREDIR c (snd r) (Z.lor O_WRONLY O_CREATE) 1
  end.
Definition simple (rs : list sredir) (ws : list (list Z * list sredir)) : scmd :=
  foldl redirect (SEXEC (map fst ws)) (rs ++ concat (map snd ws)).
Fixpoint line_meaning (l : sline) : scmd :=
  match l with
  | SLine p n => Nat.iter n SBACK (pipe_meaning p)
  | SSeq p n l => SLIST (Nat.iter n SBACK (pipe_meaning p)) (line_meaning l)
  end
with pipe_meaning (p : spipe) : scmd :=
  match p with
  | SOne e => exec_meaning e
  | SPipe e p => SPIPE (exec_meaning e) (pipe_meaning p)
  end
with exec_meaning (e : sexec) : scmd :=
  match e with
  | Simple rs ws => simple rs ws
  | Block l rs => foldl redirect (line_meaning l) rs
  end.

(** ** Reading a token *)

Definition take_word (s : list Z) : list Z := take (length s - length (skip_word s)) s.
(** The first token of the line and what follows it. *)
Definition scan (s : list Z) : option (token * list Z) :=
  match skip s with
  | [] => None
  | c :: s1 =>
      if is_symbol c then
        Some (if c =? 62 then match s1 with c2 :: s2 => if c2 =? 62 then (Append, s2) else (Sym c, s1) | [] => (Sym c, s1) end
              else (Sym c, s1))
      else Some (Word (take_word (c :: s1)), skip_word (c :: s1))
  end.

Lemma symbol_not_space c : is_symbol c = true → is_space c = false.
Proof.
  intros Hc. apply symbol_cases in Hc as [Hc| ->]; [|vm_compute; reflexivity].
  revert Hc. unfold plain_symbols. vm_compute lit. rewrite !elem_of_cons. intros Hc.
  repeat (destruct Hc as [->|Hc]; [vm_compute; reflexivity|]). by apply elem_of_nil in Hc.
Qed.
Lemma skip_blank ws s : blank ws → skip (ws ++ s) = skip s.
Proof. induction 1 as [|c ws Hc _ IH]; [done|]. cbn [app skip]. by rewrite Hc. Qed.
Lemma skip_split s : ∃ ws, s = ws ++ skip s ∧ blank ws.
Proof.
  induction s as [|c s (ws & Hs & Hb)]; cbn [skip]; [by exists []; split; [|constructor]|].
  destruct (is_space c) eqn:E; [|by exists []; split; [|constructor]].
  exists (c :: ws). split; [by rewrite Hs at 1|by constructor].
Qed.
Lemma skip_skip s : skip (skip s) = skip s.
Proof. apply skip_id, skip_head. Qed.
Lemma scan_skip s : scan (skip s) = scan s.
Proof. unfold scan. by rewrite skip_skip. Qed.

Lemma scan_None s : scan s = None ↔ blank s.
Proof.
  unfold scan. destruct (skip_split s) as (ws & Hs & Hb). split.
  - destruct (skip s) as [|c s1]; [intros _; rewrite Hs; by rewrite app_nil_r|]. by destruct (is_symbol c).
  - intros Hbl. replace (skip s) with (@nil Z); [done|]. rewrite <- (app_nil_r s). by rewrite skip_blank.
Qed.
Lemma take_word_app w r : Forall word_char w → (∀ c, head r = Some c → ¬ word_char c) → skip_word (w ++ r) = r ∧ take_word (w ++ r) = w.
Proof.
  intros Hw Hr. assert (skip_word (w ++ r) = r) as E.
  { induction Hw as [|c w [H1 H2] _ IH]; cbn [app skip_word]; [|by rewrite H1, H2].
    destruct r as [|c r]; [done|]. cbn [skip_word]. specialize (Hr c eq_refl). unfold word_char in Hr.
    destruct (is_space c), (is_symbol c); naive_solver. }
  split; [done|]. unfold take_word. rewrite E, length_app. apply take_app_length'. lia.
Qed.

Lemma scan_Some s t r : scan s = Some (t, r) ↔ ∃ ws, s = ws ++ token_bytes t ++ r ∧ blank ws ∧ closed t r.
Proof.
  split.
  - unfold scan. destruct (skip_split s) as (ws & Hs & Hb). pose proof (skip_head s) as Hh. destruct (skip s) as [|c s1]; [done|].
    specialize (Hh c eq_refl). intros Hsc. exists ws. rewrite Hs at 1. destruct (is_symbol c) eqn:Ec.
    + destruct (Z.eqb_spec c 62) as [->|Hc]; [|simplify_eq; by split_and!].
      destruct s1 as [|c2 s2]; [simplify_eq; by split_and!|]. destruct (Z.eqb_spec c2 62) as [->|]; simplify_eq; split_and!; try done.
      cbn. split; [done|]. congruence.
    + simplify_eq. destruct (skip_word_spec (c :: s1)) as (w & Hw & HF & Hn).
      destruct (take_word_app w _ HF Hn) as [_ E2]. rewrite <- Hw in E2. cbn [token_bytes closed]. rewrite E2, <- Hw.
      split_and!; try done. intros ->. cbn [app] in Hw. apply (Hn c); [by rewrite <- Hw|done].
  - intros (ws & -> & Hb & Hc). unfold scan. rewrite skip_blank by done. destruct t as [c| |w]; cbn [token_bytes app closed] in *.
    + destruct Hc as [Hc Hn]. cbn [skip]. rewrite symbol_not_space, Hc by done. destruct (Z.eqb_spec c 62) as [->|]; [|done].
      destruct r as [|c2 r]; [done|]. destruct (Z.eqb_spec c2 62) as [->|]; [naive_solver|done].
    + done.
    + destruct Hc as (Hne & HF & Hn). destruct (take_word_app w r HF Hn) as [E1 E2]. destruct w as [|c w]; [done|].
      apply Forall_cons in HF as [[H1 H2] _]. cbn [app skip] in *. rewrite H1, H2. by rewrite E1, E2.
Qed.
Lemma lay_cons t ts s : lay (t :: ts) s ↔ ∃ r, scan s = Some (t, r) ∧ lay ts r.
Proof.
  cbn [lay]. split.
  - intros (ws & r & Hs & Hb & Hc & Hl). exists r. split; [|done]. apply scan_Some. eauto.
  - intros (r & (ws & Hs & Hb & Hc)%scan_Some & Hl). eauto 10.
Qed.
Lemma lay_nil s : lay [] s ↔ scan s = None.
Proof. cbn [lay]. by rewrite scan_None. Qed.
Lemma lay_skip ts s : lay ts (skip s) ↔ lay ts s.
Proof. destruct ts; [rewrite !lay_nil|rewrite !lay_cons; setoid_rewrite scan_skip]; [by rewrite scan_skip|done]. Qed.

Lemma lay_empty ts : lay ts [] → ts = [].
Proof. destruct ts; [done|]. by intros (r & Hr & _)%lay_cons. Qed.

(** The first token is one of the symbols [toks]. *)
Definition starts (toks : list Z) (ts : list token) : bool :=
  match ts with Sym c :: _ => bool_decide (c ∈ toks) | Append :: _ => bool_decide (62 ∈ toks) | _ => false end.

Lemma peek_scan toks s :
  (∀ c, c ∈ toks → is_symbol c = true) →
  peek toks s = POk (match scan s with Some (t, _) => starts toks [t] | None => false end) (skip s).
Proof.
  intros Ht. unfold peek, scan. destruct (skip s) as [|c s1]; [done|]. f_equal.
  assert ((if strchr toks c then true else false) = bool_decide (c ∈ toks)) as ->.
  { pose proof (strchr_in toks c) as Hs. symmetry. destruct (strchr toks c); [by apply bool_decide_eq_true_2|by apply bool_decide_eq_false_2]. }
  destruct (is_symbol c) eqn:Ec; [|apply bool_decide_eq_false_2; intros Hc%Ht; congruence].
  destruct (Z.eqb_spec c 62) as [->|]; [|done]. destruct s1 as [|c2 s2]; [done|]. by destruct (c2 =? 62).
Qed.

Lemma symbol_iff c : is_symbol c = bool_decide (c ∈ plain_symbols) || (c =? 62).
Proof.
  destruct (is_symbol c) eqn:E.
  - apply symbol_cases in E as [E| ->]; [by rewrite bool_decide_eq_true_2|done].
  - symmetry. apply orb_false_iff. revert E. unfold is_symbol. pose proof (strchr_in symbols c) as Hs.
    destruct (strchr symbols c); [done|]. intros _. revert Hs. unfold symbols, plain_symbols. vm_compute lit. intros Hs.
    split; [apply bool_decide_eq_false_2|apply Z.eqb_neq]; set_solver.
Qed.

Lemma scan_word s t r : scan s = Some (t, r) → token_code t = 97 → ∃ w, t = Word w.
Proof. intros (ws & _ & _ & Hc)%scan_Some E. destruct t as [c| |w]; [|done|by eexists]. cbn in E. subst c. by destruct Hc. Qed.
Lemma scan_code s t r : scan s = Some (t, r) → token_code t ≠ 0.
Proof. intros (ws & _ & _ & Hc)%scan_Some E. destruct t as [c| |w]; [|done..]. cbn in E. subst c. by destruct Hc. Qed.

Section Reading.
Context (line : list Z).

(** The word a token gives, when it gives one. *)
Definition reads (t : token) (sp : span) : Prop := match t with Word w => word_at line sp = w | _ => True end.

Lemma gettoken_scan s :
  suf line s → ∃ sp s', gettoken (length line) s = POk (match scan s with Some (t, _) => token_code t | None => 0 end, sp) s' ∧
    suf line s' ∧ match scan s with Some (t, r) => s' = skip r ∧ reads t sp | None => s' = [] end.
Proof.
  intros Hs. apply suf_skip in Hs. assert (∀ a r, skip s = a ++ r → suf line (skip r)) as Hr.
  { intros a r E. rewrite E in Hs. by apply suf_skip, (suf_app line a). }
  unfold gettoken, scan. destruct Hs as [pre Hp]. destruct (skip s) as [|c s1].
  { eexists _, _. split; [done|]. split; [by apply (Hr [])|done]. }
  rewrite symbol_iff. unfold plain_symbols. destruct (bool_decide (c ∈ lit "|();&<")) eqn:Ec; cbn [orb].
  { eexists _, _. destruct (Z.eqb_spec c 62) as [->|]; [by vm_compute in Ec|]. split; [done|]. split; [by apply (Hr [c])|done]. }
  destruct (Z.eqb_spec c 62) as [->|].
  - destruct s1 as [|c2 s2]; [|destruct (Z.eqb_spec c2 62) as [->|]]; (eexists _, _; split; [done|]); (split; [|done]);
      [by apply (Hr [62])|by apply (Hr [62; 62])|by apply (Hr [62])].
  - eexists _, _. split; [done|]. destruct (skip_word_spec (c :: s1)) as (w & Hw & _). split; [by apply (Hr w)|]. split; [done|].
    cbn [reads]. unfold word_at, take_word, offset. cbn [fst snd]. pose proof (f_equal length Hp) as Hl. rewrite length_app in Hl.
    pose proof (f_equal length Hw) as Hlw. rewrite length_app in Hlw.
    rewrite (Nat.add_sub_eq_r (length line) (length pre) (length (c :: s1))) by lia. rewrite Hp at 2. rewrite drop_app_length. f_equal. lia.
Qed.

(** ** Outcomes: [D] says whether the parser may report an error *)

Definition out {A} (D : Prop) (m : P A) (Q : A → list Z → Prop) (s : list Z) : Prop :=
  match m s with POk a s' => suf line s' ∧ Q a s' | PDie _ => D | PFuel => True end.

Lemma out_bind {A B} D (m : P A) (f : A → P B) Q s : out D m (λ a s', suf line s' → out D (f a) Q s') s → out D (m ≫= f) Q s.
Proof. unfold out, mbind, P_bind. destruct (m s) as [a s'| |]; naive_solver. Qed.
Lemma out_ret {A} D (a : A) (Q : A → list Z → Prop) s : suf line s → Q a s → out D (mret a) Q s.
Proof. done. Qed.
Lemma out_mono {A} D (m : P A) (Q Q' : A → list Z → Prop) s : out D m Q s → (∀ a s', suf line s' → Q a s' → Q' a s') → out D m Q' s.
Proof. unfold out. destruct (m s); naive_solver. Qed.
Lemma out_die {A} msg (Q : A → list Z → Prop) s : out True (pdie msg) Q s.
Proof. done. Qed.
Lemma out_fuel {A} D (Q : A → list Z → Prop) s : out D pfuel Q s.
Proof. done. Qed.

Definition all_symbols (toks : list Z) : bool := forallb is_symbol toks.
Lemma all_symbols_in toks : all_symbols toks = true → ∀ c, c ∈ toks → is_symbol c = true.
Proof. unfold all_symbols. rewrite forallb_forall. intros Ht c Hc. apply Ht. by apply list_elem_of_In. Qed.

(** Reading forward: the tokens that are laid out come. *)
Lemma peek_lay D toks ts s (Q : bool → list Z → Prop) :
  all_symbols toks = true → suf line s → lay ts s → (∀ s', suf line s' → lay ts s' → Q (starts toks ts) s') → out D (peek toks) Q s.
Proof.
  intros Ht Hs Hl HQ. unfold out. rewrite peek_scan by (by apply all_symbols_in). split; [by apply suf_skip|].
  assert (match scan s with Some (t, _) => starts toks [t] | None => false end = starts toks ts) as ->.
  { destruct ts as [|t ts]; [apply lay_nil in Hl; by rewrite Hl|]. apply lay_cons in Hl as (r & -> & _). done. }
  apply HQ; [by apply suf_skip|by apply lay_skip].
Qed.
Lemma gettoken_lay D t ts s (Q : Z * span → list Z → Prop) :
  suf line s → lay (t :: ts) s → (∀ sp s', suf line s' → lay ts s' → reads t sp → Q (token_code t, sp) s') → out D (gettoken (length line)) Q s.
Proof.
  intros Hs (r & Hsc & Hl)%lay_cons HQ. unfold out. destruct (gettoken_scan s Hs) as (sp & s' & -> & Hs' & H). rewrite Hsc in *.
  destruct H as [-> Hr]. split; [done|]. apply HQ; [done|by apply lay_skip|done].
Qed.
Lemma gettoken_end D s (Q : Z * span → list Z → Prop) :
  suf line s → lay [] s → (∀ sp s', lay [] s' → Q (0, sp) s') → out D (gettoken (length line)) Q s.
Proof.
  intros Hs Hl%lay_nil HQ. unfold out. destruct (gettoken_scan s Hs) as (sp & s' & -> & Hs' & H). rewrite Hl in *. subst s'.
  split; [done|]. apply HQ. by constructor.
Qed.

(** Reading back: what was read is laid out in front of the rest. *)
Lemma peek_back D toks s (Q : bool → list Z → Prop) :
  all_symbols toks = true → suf line s →
  (∀ s', suf line s' → (∀ ts, lay ts s' → lay ts s) → Q false s') →
  (∀ s' t r, suf line s' → (∀ ts, lay ts s' → lay ts s) → scan s' = Some (t, r) → starts toks [t] = true → Q true s') →
  out D (peek toks) Q s.
Proof.
  intros Ht Hs HF HT. unfold out. rewrite peek_scan by (by apply all_symbols_in). split; [by apply suf_skip|].
  destruct (scan s) as [[t r]|] eqn:E; [destruct (starts toks [t]) eqn:Et|].
  - apply (HT _ t r); [by apply suf_skip|intros ts; apply lay_skip|by rewrite scan_skip|done].
  - apply HF; [by apply suf_skip|intros ts; apply lay_skip].
  - apply HF; [by apply suf_skip|intros ts; apply lay_skip].
Qed.
Lemma gettoken_back D s (Q : Z * span → list Z → Prop) :
  suf line s → (∀ sp, lay [] s → Q (0, sp) []) →
  (∀ t sp s', suf line s' → (∃ r, scan s = Some (t, r)) → (∀ ts, lay ts s' → lay (t :: ts) s) → reads t sp → Q (token_code t, sp) s') →
  out D (gettoken (length line)) Q s.
Proof.
  intros Hs H0 HQ. unfold out. destruct (gettoken_scan s Hs) as (sp & s' & -> & Hs' & H). destruct (scan s) as [[t r]|] eqn:E.
  - destruct H as [-> Hr]. split; [done|]. apply HQ; [done|by eexists| |done]. intros ts Hl. apply lay_cons. exists r. split; [done|]. by apply lay_skip.
  - subst s'. split; [done|]. apply H0. by apply lay_nil.
Qed.
Lemma gettoken_peeked D t r s (Q : Z * span → list Z → Prop) :
  suf line s → scan s = Some (t, r) →
  (∀ sp s', suf line s' → (∀ ts, lay ts s' → lay (t :: ts) s) → reads t sp → Q (token_code t, sp) s') →
  out D (gettoken (length line)) Q s.
Proof.
  intros Hs Hsc HQ. apply gettoken_back; [done|intros sp Hl%lay_nil; congruence|].
  intros t' sp s' Hs' [r' Hr'] Hl Hrd. assert (t' = t) as -> by congruence. by apply HQ.
Qed.

(** ** Redirections round a command *)

Definition wrap (c : cmd) (k : span * Z * Z) : cmd := REDIR c (fst (fst k)) (snd (fst k)) (snd k).
Definition word : span → list Z := word_at line.
(** The redirections of the tree are those of the command. *)
Definition wraps (k : list (span * Z * Z)) (rs : list sredir) : Prop :=
  ∀ c, strings word (foldl wrap c k) = foldl redirect (strings word c) rs.

Lemma wraps_nil : wraps [] [].
Proof. done. Qed.
Lemma wraps_app k rs k' rs' : wraps k rs → wraps k' rs' → wraps (k ++ k') (rs ++ rs').
Proof. intros H1 H2 c. by rewrite !foldl_app, H2, H1. Qed.
Lemma fill_wrap argv a k : fill argv (foldl wrap (EXEC a) k) = foldl wrap (EXEC argv) k.
Proof. induction k as [|x k IH] using rev_ind; [done|]. rewrite !foldl_app. cbn. by rewrite IH. Qed.

Definition op_token (o : rop) : token := match o with In => Sym 60 | Out => Sym 62 | App => Append end.
Definition op_mode (o : rop) : Z := match o with In => O_RDONLY | _ => Z.lor O_WRONLY O_CREATE end.
Definition op_fd (o : rop) : Z := match o with In => 0 | _ => 1 end.
Lemma redir_tokens_cons r rs : redir_tokens (r :: rs) = op_token (fst r) :: Word (snd r) :: redir_tokens rs.
Proof. by destruct r as [[] w]. Qed.
(** What [parseredirs] does with the token it reads. *)
Lemma switch_op c f o :
  (if token_code (op_token o) =? 60 then REDIR c f O_RDONLY 0
   else if token_code (op_token o) =? 62 then REDIR c f (Z.lor O_WRONLY O_CREATE) 1
   else if token_code (op_token o) =? 43 then REDIR c f (Z.lor O_WRONLY O_CREATE) 1 else c) = wrap c (f, op_mode o, op_fd o).
Proof. by destruct o. Qed.
Lemma wraps_one f o w k rs : word f = w → wraps k rs → wraps ((f, op_mode o, op_fd o) :: k) ((o, w) :: rs).
Proof. intros <- Hk c. cbn [foldl]. rewrite Hk. by destruct o. Qed.
Lemma starts_op o ts : starts (lit "<>") (op_token o :: ts) = true.
Proof. by destruct o. Qed.
Lemma starts_op_inv t : starts (lit "<>") [t] = true → ∃ o, t = op_token o.
Proof.
  destruct t as [c| |w]; cbn [starts]; [|by exists App|done]. rewrite bool_decide_eq_true. vm_compute lit. rewrite !elem_of_cons.
  intros [->|[->|H%elem_of_nil]]; [by exists In|by exists Out|done].
Qed.

Lemma redirs_lay rs : ∀ fuel c s ts,
  suf line s → lay (redir_tokens rs ++ ts) s → starts (lit "<>") ts = false →
  out False (parseredirs_loop (length line) fuel c) (λ c' s', lay ts s' ∧ ∃ k, c' = foldl wrap c k ∧ wraps k rs) s.
Proof.
  induction rs as [|[o w] rs IH]; intros fuel c s ts Hs Hl Hst.
  - cbn [redir_tokens map concat app] in Hl. destruct fuel; cbn [parseredirs_loop]; apply out_bind;
      (eapply peek_lay; [vm_compute; reflexivity|done|exact Hl|]); intros s' Hs' Hl' _; rewrite Hst; (apply out_ret; [done|]);
      (split; [done|]); exists []; (split; [done|apply wraps_nil]).
  - rewrite redir_tokens_cons in Hl. cbn [app] in Hl. destruct fuel; cbn [parseredirs_loop]; apply out_bind;
      (eapply peek_lay; [vm_compute; reflexivity|done|exact Hl|]); intros s1 Hs1 Hl1 _; rewrite starts_op; [apply out_fuel|].
    apply out_bind. eapply gettoken_lay; [done|exact Hl1|]. intros sp1 s2 Hs2 Hl2 _ _.
    apply out_bind. eapply gettoken_lay; [done|exact Hl2|]. intros sp s3 Hs3 Hl3 Hr _. cbn [fst snd token_code]. cbv iota.
    change (negb (97 =? 97)) with false. cbv iota. rewrite switch_op.
    eapply out_mono; [apply (IH fuel _ s3 ts); done|]. intros c' s' _ (Hl' & k & -> & Hk). split; [done|].
    exists ((sp, op_mode o, op_fd o) :: k). split; [done|]. by apply wraps_one.
Qed.
Lemma redirs_back fuel : ∀ c s, suf line s →
  out True (parseredirs_loop (length line) fuel c)
    (λ c' s', ∃ k rs, c' = foldl wrap c k ∧ wraps k rs ∧ ∀ ts, lay ts s' → lay (redir_tokens rs ++ ts) s) s.
Proof.
  induction fuel as [|fuel IH]; intros c s Hs; cbn [parseredirs_loop]; apply out_bind;
    (eapply peek_back; [vm_compute; reflexivity|done| |]).
  1,3: intros s' Hs' Hl _; (apply out_ret; [done|]); exists [], []; (split_and!; [done|apply wraps_nil|exact Hl]).
  - intros. apply out_fuel.
  - intros s1 t r Hs1 Hl1 Hsc [o ->]%starts_op_inv _. apply out_bind. eapply gettoken_peeked; [done|exact Hsc|].
    intros sp1 s2 Hs2 Hl2 _ _. apply out_bind. apply gettoken_back; [done|intros; apply out_die|].
    intros t sp s3 Hs3 [r' Hsc'] Hl3 Hr _. cbn [fst snd]. destruct (Z.eqb_spec (token_code t) 97) as [E|]; cbn [negb]; [|apply out_die].
    destruct (scan_word _ _ _ Hsc' E) as [w ->]. rewrite switch_op. eapply out_mono; [by apply IH|]. intros c' s' _ (k & rs & -> & Hk & Hl).
    exists ((sp, op_mode o, op_fd o) :: k), ((o, w) :: rs). split_and!; [done|by apply wraps_one|].
    intros ts Hts. rewrite redir_tokens_cons. cbn [app fst snd]. auto.
Qed.

(** ** The words of a command *)

(** The tokens that end a simple command. *)
Definition ends (ts : list token) : Prop := ts = [] ∨ starts (lit "|)&;") ts = true.
Lemma ends_redir ts : ends ts → starts (lit "<>") ts = false.
Proof.
  intros [->|H]; [done|]. destruct ts as [|[c| |w] ts]; [done| |by vm_compute in H|done]. cbn [starts] in *.
  apply bool_decide_eq_true in H. apply bool_decide_eq_false. revert H. vm_compute lit. set_solver.
Qed.
Lemma word_tokens_redir ws ts : ends ts → starts (lit "<>") (word_tokens ws ++ ts) = false.
Proof. destruct ws as [|[w rs] ws]; [apply ends_redir|done]. Qed.
Lemma word_tokens_cons w rs ws ts : word_tokens ((w, rs) :: ws) ++ ts = Word w :: redir_tokens rs ++ word_tokens ws ++ ts.
Proof. unfold word_tokens. cbn. by rewrite <- app_assoc. Qed.

Lemma parseexec_loop_eq total fuel argv ret : parseexec_loop total fuel argv ret =
  (b ← peek (lit "|)&;");
   if (b : bool) then mret ret
   else
     t ← gettoken total;
     if fst t =? 0 then mret ret
     else if negb (fst t =? 97) then pdie "syntax"
     else
       let argv := argv ++ [snd t] in
       if (MAXARGS <=? length argv)%nat then pdie "too many args"
       else
         ret ← parseredirs total (fill argv ret);
         match fuel with O => pfuel | S fuel => parseexec_loop total fuel argv ret end).
Proof. by destruct fuel. Qed.

Lemma words_lay ws : ∀ fuel argv k rs s ts,
  suf line s → lay (word_tokens ws ++ ts) s → ends ts → wraps k rs → (length argv + length ws < MAXARGS)%nat →
  out False (parseexec_loop (length line) fuel argv (foldl wrap (EXEC argv) k))
    (λ c s', lay ts s' ∧ strings word c = foldl redirect (SEXEC (map word argv ++ map fst ws)) (rs ++ concat (map snd ws))) s.
Proof.
  induction ws as [|[w r] ws IH]; intros fuel argv k rs s ts Hs Hl He Hk Hn; rewrite parseexec_loop_eq; apply out_bind;
    (eapply peek_lay; [vm_compute; reflexivity|done|exact Hl|]); intros s1 Hs1 Hl1 _.
  - cbn [word_tokens map concat app] in *. rewrite !app_nil_r.
    destruct He as [->|He]; [|rewrite He; apply out_ret; [done|]; by rewrite Hk].
    cbn [starts]. apply out_bind. eapply gettoken_end; [done|exact Hl1|]. intros sp s2 Hl2 Hs2.
    apply out_ret; [done|]. by rewrite Hk.
  - rewrite word_tokens_cons in Hl1 |- *. cbn [length starts] in *. apply out_bind. eapply gettoken_lay; [done|exact Hl1|].
    intros sp s2 Hs2 Hl2 Hr _. cbn [fst snd token_code]. change (97 =? 0) with false. change (negb (97 =? 97)) with false. cbv iota zeta.
    destruct (Nat.leb_spec MAXARGS (length (argv ++ [sp]))) as [Hle|_]; [rewrite length_app in Hle; simpl in Hle; lia|].
    rewrite fill_wrap. apply out_bind. unfold parseredirs, looping.
    eapply out_mono; [by apply redirs_lay, word_tokens_redir|]. intros c' s3 Hs3 (Hl3 & k' & -> & Hk') _.
    destruct fuel; [apply out_fuel|]. rewrite <- foldl_app. eapply out_mono.
    { apply (IH fuel (argv ++ [sp]) (k ++ k') (rs ++ r) s3 ts); try done; [by apply wraps_app|]. rewrite length_app. simpl. lia. }
    intros c s' _ [Hl' Hc]. split; [done|]. rewrite Hc. cbn [map concat fst snd]. rewrite map_app, <- !app_assoc. by rewrite <- Hr.
Qed.

Lemma words_back fuel : ∀ argv k rs s, suf line s → wraps k rs →
  out True (parseexec_loop (length line) fuel argv (foldl wrap (EXEC argv) k))
    (λ c s', ∃ ws, (ws = [] ∨ length argv + length ws < MAXARGS)%nat ∧
       strings word c = foldl redirect (SEXEC (map word argv ++ map fst ws)) (rs ++ concat (map snd ws)) ∧
       ∀ ts, lay ts s' → lay (word_tokens ws ++ ts) s) s.
Proof.
  induction fuel as [fuel IH] using lt_wf_ind; intros argv k rs s Hs Hk; rewrite parseexec_loop_eq; apply out_bind.
  assert (∀ s', (∀ ts, lay ts s' → lay ts s) → ∃ ws, (ws = [] ∨ length argv + length ws < MAXARGS)%nat ∧
    strings word (foldl wrap (EXEC argv) k) = foldl redirect (SEXEC (map word argv ++ map fst ws)) (rs ++ concat (map snd ws)) ∧
    ∀ ts, lay ts s' → lay (word_tokens ws ++ ts) s) as Hdone.
  { intros s' Hl. exists []. cbn [map concat word_tokens app]. rewrite !app_nil_r. split; [by left|]. by rewrite Hk. }
  eapply peek_back; [vm_compute; reflexivity|done| |]; [|intros; apply out_ret; auto].
  intros s1 Hs1 Hl1 _. apply out_bind. apply gettoken_back; [done| |].
  { intros sp Hn Hnil. apply out_ret; [done|]. apply Hdone. intros ts ->%lay_empty. auto. }
  intros t sp s2 Hs2 [r0 Hsc] Hl2 Hr _. cbn [fst snd]. pose proof (scan_code _ _ _ Hsc).
  destruct (Z.eqb_spec (token_code t) 0); [done|]. destruct (Z.eqb_spec (token_code t) 97) as [E|]; cbn [negb]; [|apply out_die].
  destruct (scan_word _ _ _ Hsc E) as [w ->]. cbv zeta.
  destruct (Nat.leb_spec MAXARGS (length (argv ++ [sp]))) as [|Hlt]; [apply out_die|].
  rewrite fill_wrap. apply out_bind. unfold parseredirs, looping. eapply out_mono; [by apply redirs_back|].
  intros c' s3 Hs3 (k' & r & -> & Hk' & Hl3) _. destruct fuel as [|fuel]; [apply out_fuel|]. rewrite <- foldl_app.
  eapply out_mono; [apply (IH fuel (Nat.lt_succ_diag_r fuel) (argv ++ [sp]) (k ++ k') (rs ++ r) s3 Hs3); by apply wraps_app|].
  intros c s' _ (ws & Hlen & Hc & Hl). exists ((w, r) :: ws). rewrite length_app in Hlen, Hlt. simpl in Hlen, Hlt. split.
  { right. destruct Hlen as [->|]; simpl; lia. }
  split; [|intros ts Hts; rewrite word_tokens_cons; auto].
  rewrite Hc. cbn [map concat fst snd]. rewrite map_app, <- !app_assoc. by rewrite <- Hr.
Qed.
Lemma simple_lay rs ws s ts :
  suf line s → lay (redir_tokens rs ++ word_tokens ws ++ ts) s → ends ts → (length ws < MAXARGS)%nat →
  out False (parsesimple (length line)) (λ c s', lay ts s' ∧ strings word c = simple rs ws) s.
Proof.
  intros Hs Hl He Hn. unfold parsesimple, parseredirs, looping. apply out_bind.
  eapply out_mono; [by apply redirs_lay, word_tokens_redir|]. intros c s1 Hs1 (Hl1 & k & -> & Hk) _.
  by apply (words_lay ws (length s1) [] k rs s1 ts).
Qed.
Lemma simple_back s :
  suf line s → out True (parsesimple (length line)) (λ c s', ∃ rs ws, (length ws < MAXARGS)%nat ∧ strings word c = simple rs ws ∧
    ∀ ts, lay ts s' → lay (redir_tokens rs ++ word_tokens ws ++ ts) s) s.
Proof.
  intros Hs. unfold parsesimple, parseredirs, looping. apply out_bind. eapply out_mono; [by apply redirs_back|].
  intros c s1 Hs1 (k & rs & -> & Hk & Hl) _. eapply out_mono; [by apply (words_back (length s1) [] k rs s1)|].
  intros c s' _ (ws & Hn & Hc & Hl'). exists rs, ws. split_and!; auto. destruct Hn as [->|]; [unfold MAXARGS; simpl; lia|done].
Qed.

(** ** Background commands *)

Lemma parseback_loop_eq total fuel c : parseback_loop total fuel c =
  (b ← peek (lit "&"); if (b : bool) then match fuel with O => pfuel | S fuel => gettoken total;; parseback_loop total fuel (BACK c) end else mret c).
Proof. by destruct fuel. Qed.
Lemma starts_sym c t : starts [c] [t] = true → c ≠ 62 → t = Sym c.
Proof. destruct t as [c'| |w]; cbn [starts]; [|rewrite bool_decide_eq_true; set_solver|done]. rewrite bool_decide_eq_true. set_solver. Qed.

Lemma amps_lay n : ∀ fuel c s ts, suf line s → lay (replicate n (Sym 38) ++ ts) s → starts [38] ts = false →
  out False (parseback_loop (length line) fuel c) (λ c' s', lay ts s' ∧ c' = Nat.iter n BACK c) s.
Proof.
  induction n as [|n IH]; intros fuel c s ts Hs Hl Hst; rewrite parseback_loop_eq; apply out_bind;
    (eapply peek_lay; [vm_compute; reflexivity|done|exact Hl|]); intros s1 Hs1 Hl1 _; change (lit "&") with [38]; cbn [replicate app].
  - rewrite Hst. by apply out_ret.
  - change (starts [38] (Sym 38 :: replicate n (Sym 38) ++ ts)) with true. cbv iota. destruct fuel as [|fuel]; [apply out_fuel|].
    apply out_bind. eapply gettoken_lay; [done|exact Hl1|]. intros sp s2 Hs2 Hl2 _ _. eapply out_mono; [by apply IH|].
    intros c' s' _ [Hl' ->]. split; [done|]. by rewrite Nat.iter_succ_r.
Qed.
Lemma amps_back fuel : ∀ c s, suf line s → out True (parseback_loop (length line) fuel c)
  (λ c' s', ∃ n, c' = Nat.iter n BACK c ∧ ∀ ts, lay ts s' → lay (replicate n (Sym 38) ++ ts) s) s.
Proof.
  induction fuel as [fuel IH] using lt_wf_ind; intros c s Hs; rewrite parseback_loop_eq; apply out_bind.
  eapply peek_back; [vm_compute; reflexivity|done|intros s' Hs' Hl _; apply out_ret; [done|]; by exists 0%nat|].
  intros s1 t r Hs1 Hl1 Hsc Ht _. destruct fuel as [|fuel]; [apply out_fuel|]. apply starts_sym in Ht as ->; [|done].
  apply out_bind. eapply gettoken_peeked; [done|exact Hsc|]. intros sp s2 Hs2 Hl2 _ _.
  eapply out_mono; [apply (IH fuel); [lia|done]|]. intros c' s' _ (n & -> & Hl). exists (S n). rewrite Nat.iter_succ_r. split; [done|].
  intros ts Hts. cbn [replicate app]. auto.
Qed.
Lemma strings_back n c : strings word (Nat.iter n BACK c) = Nat.iter n SBACK (strings word c).
Proof. induction n as [|n IH]; [done|]. rewrite !Nat.iter_succ. cbn [strings]. by rewrite IH. Qed.

(** ** Lines *)

(** The tokens that may follow a line and a pipeline. *)
Definition ends_line (ts : list token) : Prop := ts = [] ∨ starts [41] ts = true.
Definition ends_pipe (ts : list token) : Prop := ts = [] ∨ starts [38; 59; 41] ts = true.

(** The first token of [ts] is not [c], from what it is. *)
Ltac first_token := intros; repeat (match goal with H : ends_line _ |- _ => destruct H | H : ends_pipe _ |- _ => destruct H | H : ends _ |- _ => destruct H end);
  subst; try done; lazymatch goal with H : starts _ ?ts = true |- _ =>
    destruct ts as [|[?c| |?w] ?ts]; [done| |by vm_compute in H|done]; cbn [starts] in *;
    apply bool_decide_eq_true in H; revert H; change (lit "|)&;") with [124; 41; 38; 59] end.

Lemma ends_line_pipe ts : ends_line ts → ends_pipe ts.
Proof. intros [->|H]; [by left|]. right. revert H. destruct ts as [|[c| |w] ts]; cbn [starts]; rewrite ?bool_decide_eq_true; set_solver. Qed.
Lemma ends_pipe_exec ts : ends_pipe ts → ends ts.
Proof.
  intros [->|H]; [by left|]. right. revert H. change (lit "|)&;") with [124; 41; 38; 59].
  destruct ts as [|[c| |w] ts]; cbn [starts]; rewrite ?bool_decide_eq_true; set_solver.
Qed.
Lemma ends_pipe_no_pipe ts : ends_pipe ts → starts [124] ts = false.
Proof. first_token. rewrite bool_decide_eq_false. set_solver. Qed.
Lemma ends_line_no_more c ts : ends_line ts → c ≠ 41 → starts [c] ts = false.
Proof. first_token. rewrite bool_decide_eq_false. set_solver. Qed.
Lemma simple_no_block rs ws ts : ends ts → starts [40] (redir_tokens rs ++ word_tokens ws ++ ts) = false.
Proof.
  destruct rs as [|[o w] rs]; [|rewrite redir_tokens_cons; by destruct o]. destruct ws as [|[w r] ws]; [|done].
  cbn [redir_tokens word_tokens map concat app]. first_token. rewrite bool_decide_eq_false. set_solver.
Qed.
Lemma ends_amps n ts : ends_pipe ts → ends_pipe (replicate n (Sym 38) ++ ts).
Proof. destruct n; [done|]. intros _. by right. Qed.

Definition line_lay (l : sline) : Prop := ∀ fuel s ts,
  few_line l → suf line s → lay (line_tokens l ++ ts) s → ends_line ts →
  out False (parseline (length line) fuel) (λ c s', lay ts s' ∧ strings word c = line_meaning l) s.
Definition pipe_lay (p : spipe) : Prop := ∀ fuel s ts,
  few_pipe p → suf line s → lay (pipe_tokens p ++ ts) s → ends_pipe ts →
  out False (parsepipe (length line) fuel) (λ c s', lay ts s' ∧ strings word c = pipe_meaning p) s.
Definition exec_lay (e : sexec) : Prop := ∀ fuel s ts,
  few_exec e → suf line s → lay (exec_tokens e ++ ts) s → ends ts →
  out False (parseexec (length line) fuel) (λ c s', lay ts s' ∧ strings word c = exec_meaning e) s.

(** The first part of a line, up to its semicolon. *)
Lemma head_lay p n fuel s ts (k : cmd → P cmd) Q :
  pipe_lay p → few_pipe p → suf line s → lay (pipe_tokens p ++ replicate n (Sym 38) ++ ts) s → ends_pipe ts → starts [38] ts = false →
  (∀ c s', suf line s' → lay ts s' → strings word c = Nat.iter n SBACK (pipe_meaning p) → out False (k c) Q s') →
  out False (c ← parsepipe (length line) fuel; c ← looping (λ n, parseback_loop (length line) n c); k c) Q s.
Proof.
  intros IH Hf Hs Hl He Hst Hk. apply out_bind. eapply out_mono; [apply IH; [done|done|exact Hl|by apply ends_amps]|].
  intros c s1 Hs1 [Hl1 Hc] _. apply out_bind. unfold looping.
  eapply out_mono; [apply amps_lay; [done|exact Hl1|done]|]. intros c2 s2 Hs2 [Hl2 ->] _. apply Hk; [done..|]. by rewrite strings_back, Hc.
Qed.

Lemma block_lay l rs fuel s ts :
  line_lay l → few_line l → suf line s → lay (Sym 40 :: line_tokens l ++ Sym 41 :: redir_tokens rs ++ ts) s → ends ts →
  out False (parseblock (length line) fuel) (λ c s', lay ts s' ∧ strings word c = foldl redirect (line_meaning l) rs) s.
Proof.
  intros IH Hf Hs Hl He. destruct fuel as [|fuel]; [apply out_fuel|]. cbn [parseblock]. apply out_bind.
  eapply peek_lay; [vm_compute; reflexivity|done|exact Hl|]. intros s1 Hs1 Hl1 _.
  change (starts (lit "(") _) with true. cbn [negb]. apply out_bind. eapply gettoken_lay; [done|exact Hl1|]. intros sp s2 Hs2 Hl2 _ _.
  apply out_bind. eapply out_mono; [apply IH; [done|done|exact Hl2|by right]|]. intros c s3 Hs3 [Hl3 Hc] _.
  apply out_bind. eapply peek_lay; [vm_compute; reflexivity|done|exact Hl3|]. intros s4 Hs4 Hl4 _.
  change (starts (lit ")") _) with true. cbn [negb]. apply out_bind. eapply gettoken_lay; [done|exact Hl4|]. intros sp5 s5 Hs5 Hl5 _ _.
  unfold parseredirs, looping. eapply out_mono; [apply redirs_lay; [done|exact Hl5|by apply ends_redir]|].
  intros c' s' _ (Hl' & k & -> & Hk). by rewrite Hk, Hc.
Qed.

(** The parser reads the line that is laid out. *)
Lemma parser_lay : (∀ l, line_lay l) ∧ (∀ p, pipe_lay p) ∧ (∀ e, exec_lay e).
Proof.
  apply syntax_ind; unfold line_lay, pipe_lay, exec_lay;
    cbn [few_line few_pipe few_exec line_tokens pipe_tokens exec_tokens line_meaning pipe_meaning exec_meaning].
  - intros p IHp n [|fuel] s ts Hf Hs Hl He; [apply out_fuel|]. cbn [parseline]. rewrite <- app_assoc in Hl.
    eapply head_lay; [done|done|done|exact Hl|by apply ends_line_pipe|by apply ends_line_no_more|]. intros c s2 Hs2 Hl2 Hc. apply out_bind.
    eapply peek_lay; [vm_compute; reflexivity|done|exact Hl2|]. intros s3 Hs3 Hl3 _. change (lit ";") with [59].
    rewrite ends_line_no_more by done. by apply out_ret.
  - intros p IHp n l IHl [|fuel] s ts [Hf Hfl] Hs Hl He; [apply out_fuel|]. cbn [parseline]. rewrite <- !app_assoc in Hl.
    eapply head_lay; [done|done|done|exact Hl|by right|done|]. intros c s2 Hs2 Hl2 Hc. apply out_bind.
    eapply peek_lay; [vm_compute; reflexivity|done|exact Hl2|]. intros s3 Hs3 Hl3 _. change (starts (lit ";") _) with true. cbv iota.
    apply out_bind. eapply gettoken_lay; [done|exact Hl3|]. intros sp s4 Hs4 Hl4 _ _. apply out_bind.
    eapply out_mono; [apply IHl; [done|done|exact Hl4|done]|]. intros c2 s5 Hs5 [Hl5 Hc2] _. apply out_ret; [done|].
    split; [done|]. cbn [strings]. by rewrite Hc, Hc2.
  - intros e IHe [|fuel] s ts Hf Hs Hl He; [apply out_fuel|]. cbn [parsepipe]. apply out_bind.
    eapply out_mono; [apply IHe; [done|done|exact Hl|by apply ends_pipe_exec]|]. intros c s1 Hs1 [Hl1 Hc] _. apply out_bind.
    eapply peek_lay; [vm_compute; reflexivity|done|exact Hl1|]. intros s3 Hs3 Hl3 _. change (lit "|") with [124].
    rewrite ends_pipe_no_pipe by done. by apply out_ret.
  - intros e IHe p IHp [|fuel] s ts [Hf Hfp] Hs Hl He; [apply out_fuel|]. cbn [parsepipe]. rewrite <- app_assoc in Hl. apply out_bind.
    eapply out_mono; [apply IHe; [done|done|exact Hl|by right]|]. intros c s1 Hs1 [Hl1 Hc] _. apply out_bind.
    eapply peek_lay; [vm_compute; reflexivity|done|exact Hl1|]. intros s3 Hs3 Hl3 _. change (starts (lit "|") _) with true. cbv iota.
    apply out_bind. eapply gettoken_lay; [done|exact Hl3|]. intros sp s4 Hs4 Hl4 _ _. apply out_bind.
    eapply out_mono; [apply IHp; [done|done|exact Hl4|done]|]. intros c2 s5 Hs5 [Hl5 Hc2] _. apply out_ret; [done|].
    split; [done|]. cbn [strings]. by rewrite Hc, Hc2.
  - intros rs ws [|fuel] s ts Hf Hs Hl He; [apply out_fuel|]. cbn [parseexec]. rewrite <- app_assoc in Hl. apply out_bind.
    eapply peek_lay; [vm_compute; reflexivity|done|exact Hl|]. intros s3 Hs3 Hl3 _. change (lit "(") with [40].
    rewrite simple_no_block by done. by apply simple_lay.
  - intros l IHl rs [|fuel] s ts Hf Hs Hl He; [apply out_fuel|]. cbn [parseexec]. rewrite <- app_comm_cons, <- app_assoc in Hl. apply out_bind.
    eapply peek_lay; [vm_compute; reflexivity|done|exact Hl|]. intros s3 Hs3 Hl3 _. change (starts (lit "(") _) with true. cbv iota.
    by apply block_lay.
Qed.

(** What the parser reads is laid out in the line. *)
Definition back {A} (m : P cmd) (tokens : A → list token) (few : A → Prop) (meaning : A → scmd) : Prop :=
  ∀ s, suf line s → out True m (λ c s', ∃ x, few x ∧ strings word c = meaning x ∧ ∀ ts, lay ts s' → lay (tokens x ++ ts) s) s.

Lemma line_back fuel :
  back (parsepipe (length line) fuel) pipe_tokens few_pipe pipe_meaning →
  back (parseline (length line) fuel) line_tokens few_line line_meaning →
  back (parseline (length line) (S fuel)) line_tokens few_line line_meaning.
Proof.
  intros IHp IHl s Hs. cbn [parseline]. apply out_bind. eapply out_mono; [by apply IHp|].
  intros c s1 Hs1 (p & Hf & Hc & Hl1) _. apply out_bind. unfold looping. eapply out_mono; [by apply amps_back|].
  intros c2 s2 Hs2 (n & -> & Hl2) _. apply out_bind. eapply peek_back; [vm_compute; reflexivity|done| |].
  - intros s3 Hs3 Hl3 _. apply out_ret; [done|]. exists (SLine p n). cbn [line_meaning line_tokens]. rewrite strings_back, Hc.
    split_and!; [done..|]. intros ts Hts. rewrite <- app_assoc. auto.
  - intros s3 t r Hs3 Hl3 Hsc Ht _. apply (starts_sym 59) in Ht as ->; [|done]. apply out_bind. eapply gettoken_peeked; [done|exact Hsc|].
    intros sp s4 Hs4 Hl4 _ _. apply out_bind. eapply out_mono; [by apply IHl|]. intros c3 s5 Hs5 (l & Hfl & Hc3 & Hl5) _.
    apply out_ret; [done|]. exists (SSeq p n l). cbn [line_meaning line_tokens strings]. rewrite strings_back, Hc, Hc3.
    split_and!; [done..|]. intros ts Hts. rewrite <- !app_assoc, <- app_comm_cons. auto 10.
Qed.
Lemma pipe_back fuel :
  back (parseexec (length line) fuel) exec_tokens few_exec exec_meaning →
  back (parsepipe (length line) fuel) pipe_tokens few_pipe pipe_meaning →
  back (parsepipe (length line) (S fuel)) pipe_tokens few_pipe pipe_meaning.
Proof.
  intros IHe IHp s Hs. cbn [parsepipe]. apply out_bind. eapply out_mono; [by apply IHe|].
  intros c s1 Hs1 (e & Hf & Hc & Hl1) _. apply out_bind. eapply peek_back; [vm_compute; reflexivity|done| |].
  - intros s3 Hs3 Hl3 _. apply out_ret; [done|]. exists (SOne e). cbn [pipe_meaning pipe_tokens]. auto.
  - intros s3 t r Hs3 Hl3 Hsc Ht _. apply (starts_sym 124) in Ht as ->; [|done]. apply out_bind. eapply gettoken_peeked; [done|exact Hsc|].
    intros sp s4 Hs4 Hl4 _ _. apply out_bind. eapply out_mono; [by apply IHp|]. intros c3 s5 Hs5 (l & Hfl & Hc3 & Hl5) _.
    apply out_ret; [done|]. exists (SPipe e l). cbn [pipe_meaning pipe_tokens strings]. rewrite Hc, Hc3.
    split_and!; [done..|]. intros ts Hts. rewrite <- app_assoc, <- app_comm_cons. auto 10.
Qed.
Lemma exec_back fuel :
  back (parseblock (length line) fuel) exec_tokens few_exec exec_meaning →
  back (parseexec (length line) (S fuel)) exec_tokens few_exec exec_meaning.
Proof.
  intros IHb s Hs. cbn [parseexec]. apply out_bind. eapply peek_back; [vm_compute; reflexivity|done| |].
  - intros s1 Hs1 Hl1 _. eapply out_mono; [by apply simple_back|]. intros c s' _ (rs & ws & Hn & Hc & Hl). exists (Simple rs ws).
    split_and!; [done..|]. intros ts Hts. cbn [exec_tokens]. rewrite <- app_assoc. auto.
  - intros s1 t r Hs1 Hl1 _ _ _. eapply out_mono; [by apply IHb|]. intros c s' _ (e & Hf & Hc & Hl). exists e. auto.
Qed.
Lemma block_back fuel :
  back (parseline (length line) fuel) line_tokens few_line line_meaning →
  back (parseblock (length line) (S fuel)) exec_tokens few_exec exec_meaning.
Proof.
  intros IHl s Hs. cbn [parseblock]. apply out_bind. eapply peek_back; [vm_compute; reflexivity|done|intros; apply out_die|].
  intros s1 t r Hs1 Hl1 Hsc Ht _. apply (starts_sym 40) in Ht as ->; [|done]. cbn [negb]. apply out_bind. eapply gettoken_peeked; [done|exact Hsc|].
  intros sp s2 Hs2 Hl2 _ _. apply out_bind. eapply out_mono; [by apply IHl|]. intros c s3 Hs3 (l & Hf & Hc & Hl3) _.
  apply out_bind. eapply peek_back; [vm_compute; reflexivity|done|intros; apply out_die|].
  intros s4 t r' Hs4 Hl4 Hsc' Ht _. apply (starts_sym 41) in Ht as ->; [|done]. cbn [negb]. apply out_bind. eapply gettoken_peeked; [done|exact Hsc'|].
  intros sp5 s5 Hs5 Hl5 _ _. unfold parseredirs, looping. eapply out_mono; [by apply redirs_back|].
  intros c' s' _ (k & rs & -> & Hk & Hl). exists (Block l rs). cbn [exec_meaning exec_tokens]. rewrite Hk, Hc.
  split_and!; [done..|]. intros ts Hts. rewrite <- app_comm_cons, <- app_assoc, <- app_comm_cons. auto 10.
Qed.

Lemma parser_back fuel :
  back (parseline (length line) fuel) line_tokens few_line line_meaning ∧
  back (parsepipe (length line) fuel) pipe_tokens few_pipe pipe_meaning ∧
  back (parseexec (length line) fuel) exec_tokens few_exec exec_meaning ∧
  back (parseblock (length line) fuel) exec_tokens few_exec exec_meaning.
Proof.
  induction fuel as [|fuel (IHl & IHp & IHe & IHb)]; [split_and!; intros s _; apply out_fuel|].
  split_and!; [by apply line_back|by apply pipe_back|by apply exec_back|by apply block_back].
Qed.
End Reading.

(** [parsecmd]'s strings are the words it read. *)
Lemma strings_ext f g c : (∀ sp, sp ∈ spans c → f sp = g sp) → strings f c = strings g c.
Proof.
  induction c as [argv|c IH file m d|l IHl r IHr|l IHl r IHr|c IH]; cbn [spans strings]; intros H; f_equal;
    try (apply H; set_solver); try (match goal with IH : _ |- _ => apply IH end; intros; apply H; set_solver).
  apply map_ext_in. intros sp Hsp. apply H. by apply list_elem_of_In.
Qed.

Lemma parsecmd_words line c buf :
  0 ∉ line → parsecmd line = Some (inr (c, buf)) → strings (cstr buf) c = strings (word_at line) c.
Proof.
  intros Hnul E. pose proof (parsecmd_ok line Hnul) as Hok. rewrite E in Hok. apply strings_ext. intros sp Hsp. by apply Hok.
Qed.
Lemma parsecmd_back line c buf :
  0 ∉ line → parsecmd line = Some (inr (c, buf)) →
  ∃ l, few_line l ∧ lay (line_tokens l) line ∧ line_meaning l = strings (cstr buf) c.
Proof.
  intros Hnul E. rewrite (parsecmd_words line c buf Hnul E). unfold parsecmd in E. assert (suf line line) as Hs by (by exists []).
  destruct (parser_back line (parse_fuel line)) as [Hb _]. specialize (Hb line Hs). unfold out in Hb.
  destruct (parseline _ _ line) as [c' s'| |]; [|done..]. destruct Hb as (_ & l & Hf & Hm & Hl). unfold peek in E.
  destruct (skip s') eqn:Esk; [|done]. simplify_eq. exists l. split; [done|]. split; [|done].
  rewrite <- (app_nil_r (line_tokens l)). apply Hl. apply lay_skip. rewrite Esk. by constructor.
Qed.
Lemma parsecmd_lay line l :
  0 ∉ line → few_line l → lay (line_tokens l) line →
  ∃ c buf, parsecmd line = Some (inr (c, buf)) ∧ strings (cstr buf) c = line_meaning l.
Proof.
  intros Hnul Hf Hl. rewrite <- (app_nil_r (line_tokens l)) in Hl. assert (suf line line) as Hs by (by exists []).
  pose proof (parsecmd_ok line Hnul) as Hok. pose proof (λ c buf, parsecmd_words line c buf Hnul) as Hstr.
  pose proof (proj1 (parser_lay line) l (parse_fuel line) line [] Hf Hs Hl (or_introl eq_refl)) as H. unfold out in H.
  unfold parsecmd in *. destruct (parseline _ _ line) as [c s'| |]; [|done..]. destruct H as (_ & Hl' & Hm).
  apply lay_skip in Hl'. unfold peek in *. destruct (skip s') as [|c0 s0] eqn:Esk.
  - eexists _, _. split; [done|]. by rewrite Hstr.
  - exfalso. rewrite <- Esk in Hl'. apply lay_nil in Hl'. unfold scan in Hl'. rewrite skip_skip, Esk in Hl'. by destruct (is_symbol c0).
Qed.

(** C13: the shell's grammar. [parsecmd] gives the tree [t] for a line exactly
    when the line is a layout of the tokens of a command that means [t], with
    any white space between the tokens and at most nine words to a command:
    redirections bind to the command they follow, "|" binds closer than "&"
    and "&" closer than ";", "|" and ";" group to the right and ">>" is read
    as ">". *)
Theorem parsecmd_grammar line t :
  0 ∉ line →
  (∃ c buf, parsecmd line = Some (inr (c, buf)) ∧ strings (cstr buf) c = t) ↔
  (∃ l, few_line l ∧ lay (line_tokens l) line ∧ line_meaning l = t).
Proof.
  intros Hnul. split.
  - intros (c & buf & E & <-). by apply parsecmd_back.
  - intros (l & Hf & Hl & <-). by apply parsecmd_lay.
Qed.

Module SampleGrammar.
(** [cat<a|(wc;ls -l)>>b &] *)
Definition syntax : sline :=
  SLine (SPipe (Simple [] [(lit "cat", [(In, lit "a")])])
    (SOne (Block (SSeq (SOne (Simple [] [(lit "wc", [])])) 0 (SLine (SOne (Simple [] [(lit "ls", []); (lit "-l", [])])) 0)) [(App, lit "b")]))) 1.

Lemma parsecmd_grammar_witness :
  0 ∉ SampleLine.line ∧ lay (line_tokens syntax) SampleLine.line ∧
  ∃ c buf, parsecmd SampleLine.line = Some (inr (c, buf)) ∧ strings (cstr buf) c = line_meaning syntax.
Proof.
  assert (0 ∉ SampleLine.line) as Hn by (apply (bool_decide_eq_true_1 (0 ∉ SampleLine.line)); vm_compute; reflexivity).
  assert (lay (line_tokens syntax) SampleLine.line) as Hl.
  { repeat (eapply (proj2 (lay_cons _ _ _)); eexists; split; [vm_compute; reflexivity|]). apply lay_nil. vm_compute. reflexivity. }
  split; [exact Hn|]. split; [exact Hl|]. apply (proj2 (parsecmd_grammar SampleLine.line (line_meaning syntax) Hn)).
  exists syntax. split; [|split; [exact Hl|reflexivity]].
  cbn. unfold MAXARGS. split_and!; lia.
Defined.
End SampleGrammar.
