(* ===== verification/ShellRun.v ===== *)
(** * The shell: running a command

    [runcmd], [fork1], [getcmd] and the shell's [main] ([sh.c]).  A
    process is the tree of the system calls it makes, each with what follows for
    each result.  The processes it forks run at the same time; the world says
    which calls fail and how long everything takes, and the theorem is about
    every world. *)

From S2P Require Import Prelude Bytes Str Ulib Sysfile Shell ShellSpec ShellGrammar.

(** ** Programs as their system calls *)

Inductive prog :=
  | CExit
  | CExec (path : list Z) (argv : list (list Z)) (k : prog)
  | COpen (path : list Z) (mode : Z) (k : Z → prog)
  | CClose (fd : Z) (k : prog)
  | CDup (fd : Z) (k : prog)
  | CPipe (k : option (Z * Z) → prog)
  | CFork (k : Z → prog)
  | CWait (k : prog)
  | CWrite (fd : Z) (l : list Z) (k : prog).

(** [printf(2, ...)]: the bytes the format stands for. *)
Definition complain (fmt : string) (args : list uarg) (k : prog) : prog := CWrite 2 (default [] (format fmt args)) k.
Definition shell_panic (msg : string) : prog := CWrite 2 (panic_text (lit msg)) CExit.
Definition fork1 (k : Z → prog) : prog := CFork (λ pid, if pid =? -1 then shell_panic "fork" else k pid).

(** [runcmd]; [buf] holds the strings of the tree. *)
Fixpoint runcmd (buf : list Z) (c : cmd) : prog :=
  match c with
  | EXEC argv =>
      match map (cstr buf) argv with
      | [] => CExit
      | (a :: _) as args => CExec a args (complain "exec %s failed
" [AStr (Some a)] CExit)
      end
  | REDIR c file mode fd =>
      CClose fd (COpen (cstr buf file) mode (λ r,
        if r <? 0 then complain "open %s failed
" [AStr (Some (cstr buf file))] CExit
        else runcmd buf c))
  | LIST l r =>
      fork1 (λ pid, if pid =? 0 then runcmd buf l else CWait (runcmd buf r))
  | PIPE l r =>
      CPipe (λ p, match p with
        | None => shell_panic "pipe"
        | Some (p0, p1) =>
            fork1 (λ pid,
              if pid =? 0 then CClose 1 (CDup p1 (CClose p0 (CClose p1 (runcmd buf l))))
              else fork1 (λ pid,
                if pid =? 0 then CClose 0 (CDup p0 (CClose p0 (CClose p1 (runcmd buf r))))
                else CClose p0 (CClose p1 (CWait (CWait CExit)))))
        end)
  | BACK c => fork1 (λ pid, if pid =? 0 then runcmd buf c else CExit)
  end.

(** The child of the shell's [main] for a line: [runcmd(parsecmd(buf))]. *)
Definition child (s : list Z) : prog :=
  match parsecmd s with
  | Some (inr (c, buf)) => runcmd buf c
  | Some (inl msg) => CWrite 2 msg CExit
  | None => CExit
  end.

(** ** The shell's loop

    [fork] is given what the child goes on to do. *)
Class Jobs (os : Type) := {
  p_chdir : list Z → os → Z * os;
  p_fork : prog → os → Z * os;
  p_wait : os → Z * os }.

Section Main.
Context {os : Type} `{Posix os, !Jobs os}.

(** [getcmd] with the 100 bytes of [buf]: the string read, if any. *)
Definition getcmd : U os (option (list Z)) :=
  printf 2 "$ " [];;
  buf ← Ulib.gets 100;
  mret (if char_at buf 0 =? 0 then None else Some (name_of buf)).

Definition is_cd (s : list Z) : bool := (char_at s 0 =? 99) && (char_at s 1 =? 100) && (char_at s 2 =? 32).
(** One line: [cd] is done by the shell itself. *)
Definition sh_line (s : list Z) : U os unit :=
  if is_cd s then
    let dir := drop 3 (take (length s - 1) s) in
    r ← call (p_chdir dir);
    if r <? 0 then printf 2 "cannot cd %s
" [AStr (Some dir)] else mret tt
  else
    pid ← call (p_fork (child s));
    if pid =? -1 then (printf 2 "%s
" [AStr (Some (lit "fork"))];; Ulib.exit)
    else (call p_wait;; mret tt).

Fixpoint open_three (fuel : nat) : U os unit :=
  match fuel with
  | O => undefined
  | S fuel =>
      fd ← open (lit "console") O_RDWR;
      if fd <? 0 then mret tt
      else if 3 <=? fd then (close fd;; mret tt)
      else open_three fuel
  end.
Fixpoint sh_loop (fuel : nat) : U os unit :=
  match fuel with
  | O => undefined
  | S fuel =>
      s ← getcmd;
      match s with
      | None => Ulib.exit
      | Some s => sh_line s;; sh_loop fuel
      end
  end.
Definition sh_main (fuel : nat) : U os unit := open_three fuel;; sh_loop fuel.
End Main.

(** ** Processes *)

(** What a descriptor stands for.  A pipe is named by the process that made it and
    the number of the call that did; a process by its calls of [fork]. *)
Definition path : Type := list nat.
Inductive desc :=
  | Given (n : Z)
  | Opened (file : list Z) (mode : Z)
  | ReadEnd (p : path) (n : nat)
  | WriteEnd (p : path) (n : nat).
Definition fdtable : Type := list (option desc).

(** The lowest free descriptor, as [fdalloc] gives it. *)
Fixpoint alloc (d : desc) (t : fdtable) : option (nat * fdtable) :=
  match t with
  | [] => None
  | None :: t => Some (0%nat, Some d :: t)
  | x :: t => match alloc d t with Some (n, t) => Some (S n, x :: t) | None => None end
  end.

(** What the processes do not decide: the failures, the delay before each call,
    how long each program runs, and the numbers of the processes. *)
Record world := World {
  fails : path → nat → bool;
  delay : path → nat → nat;
  lasts : path → nat → nat;
  number : path → nat → positive }.

(** A program that was started: its arguments, its descriptors, and when it
    started and ended. *)
Record event := Event { ev_argv : list (list Z); ev_fds : fdtable; ev_start : nat; ev_end : nat }.

(** The children that are left when the one that exited at [m] is waited for. *)
Fixpoint reap (m : nat) (kids : list nat) : list nat :=
  match kids with
  | [] => []
  | x :: xs => if (x =? m)%nat then xs else x :: reap m xs
  end.

Section Runs.
Context (w : world).

(** The programs that the process [me] and its children start, and when [me]
    exits: at its call [n], at time [now], with the table [t] and children not
    waited for that exit at the times [kids].  [wait] returns when the first of
    these has exited. *)
Fixpoint runs (me : path) (n : nat) (t : fdtable) (now : nat) (kids : list nat) (p : prog) : list event * nat :=
  let now := (now + delay w me n)%nat in
  match p with
  | CExit => ([], now)
  | CExec _ argv k =>
      if fails w me n then runs me (S n) t now kids k
      else ([Event argv t now (now + lasts w me n)], (now + lasts w me n)%nat)
  | COpen file mode k =>
      match (if fails w me n then None else alloc (Opened file mode) t) with
      | None => runs me (S n) t now kids (k (-1))
      | Some (fd, t) => runs me (S n) t now kids (k (Z.of_nat fd))
      end
  | CClose fd k => runs me (S n) (if fd <? 0 then t else <[Z.to_nat fd := None]> t) now kids k
  | CDup fd k =>
      match (if fd <? 0 then None else match t !! Z.to_nat fd with Some (Some d) => alloc d t | _ => None end) with
      | None => runs me (S n) t now kids k
      | Some (_, t) => runs me (S n) t now kids k
      end
  | CPipe k =>
      match (if fails w me n then None else
        '(a, t) ← alloc (ReadEnd me n) t; '(b, t) ← alloc (WriteEnd me n) t; Some (a, b, t)) with
      | None => runs me (S n) t now kids (k None)
      | Some (a, b, t) => runs me (S n) t now kids (k (Some (Z.of_nat a, Z.of_nat b)))
      end
  | CFork k =>
      if fails w me n then runs me (S n) t now kids (k (-1))
      else
        let '(ec, xc) := runs (me ++ [n]) 0 t now [] (k 0) in
        let '(ep, xp) := runs me (S n) t now (xc :: kids) (k (Zpos (number w me n))) in
        (ec ++ ep, xp)
  | CWait k =>
      match kids with
      | [] => runs me (S n) t now [] k
      | x :: xs =>
          let m := foldr Nat.min x xs in
          runs me (S n) t (Nat.max now m) (reap m kids) k
      end
  | CWrite _ _ k => runs me (S n) t now kids k
  end.
End Runs.

(** ** What a command promises *)

(** The programs that running the command [c] from time [s] on starts, with their
    descriptors, and the time by which the process that runs it has exited.  A
    redirection replaces one descriptor; the two sides of a pipe get its two ends
    and nothing of the other side; the right side of a list starts when the
    process of the left side has exited; nothing waits for a command in the
    background.  When a call may have failed ([lossy]), the rest of a command
    may be missing. *)
Section Promise.
Context (lossy : Prop).

Inductive behaves : path → nat → fdtable → nat → scmd → list event → nat → Prop :=
  | b_nothing me n t s x : (s ≤ x)%nat → behaves me n t s (SEXEC []) [] x
  | b_exec me n t s argv a b : argv ≠ [] → (s ≤ a)%nat → (a ≤ b)%nat → behaves me n t s (SEXEC argv) [Event argv t a b] b
  | b_redir me n t s c file mode fd es x s' :
      (s ≤ s')%nat → behaves me (n + 2) (<[Z.to_nat fd := Some (Opened file mode)]> t) s' c es x →
      behaves me n t s (SREDIR c file mode fd) es x
  | b_list me n t s l r el er s1 xl s2 x :
      (s ≤ s1)%nat → behaves (me ++ [n]) 0 t s1 l el xl → (xl ≤ s2)%nat → behaves me (n + 2) t s2 r er x →
      behaves me n t s (SLIST l r) (el ++ er) x
  | b_pipe me n t s l r el er s1 s2 xl xr x :
      (s ≤ s1)%nat → behaves (me ++ [n + 1]%nat) 4 (<[1%nat := Some (WriteEnd me n)]> t) s1 l el xl →
      (s ≤ s2)%nat → behaves (me ++ [n + 2]%nat) 4 (<[0%nat := Some (ReadEnd me n)]> t) s2 r er xr →
      (xl ≤ x)%nat → (xr ≤ x)%nat → behaves me n t s (SPIPE l r) (el ++ er) x
  | b_back me n t s c es s1 xc x :
      (s ≤ s1)%nat → behaves (me ++ [n]) 0 t s1 c es xc → (s ≤ x)%nat → behaves me n t s (SBACK c) es x
  | b_lost me n t s c x : lossy → (s ≤ x)%nat → behaves me n t s c [] x
  | b_half me n t s l r el s1 xl x :
      lossy → (s ≤ s1)%nat → behaves (me ++ [n + 1]%nat) 4 (<[1%nat := Some (WriteEnd me n)]> t) s1 l el xl →
      (s ≤ x)%nat → behaves me n t s (SPIPE l r) el x.
End Promise.

(** Descriptors 0, 1 and 2 are open, and no others. *)
Definition usual (t : fdtable) : Prop := ∃ a b c, t = Some a :: Some b :: Some c :: replicate 13 None.
(** Redirections of descriptors 0 and 1. *)
Fixpoint std (c : scmd) : Prop :=
  match c with
  | SEXEC _ => True
  | SREDIR c _ _ fd => (fd = 0 ∨ fd = 1) ∧ std c
  | SPIPE l r | SLIST l r => std l ∧ std r
  | SBACK c => std c
  end.

Lemma usual_insert t n d : usual t → (n < 2)%nat → usual (<[n := Some d]> t).
Proof. intros (a & b & c & ->) Hn. destruct n as [|[|n]]; [..|lia]; cbn; unfold usual; eauto. Qed.

Section Proofs.
Context (w : world).
Definition lossy : Prop := ∃ p n, fails w p n = true.

Lemma runs_redir me n t now fd file mode k :
  usual t → fd = 0 ∨ fd = 1 →
  ∃ s, (now ≤ s)%nat ∧ runs w me n t now [] (CClose fd (COpen file mode k)) =
    if fails w me (S n) then runs w me (S (S n)) (<[Z.to_nat fd := None]> t) s [] (k (-1))
    else runs w me (S (S n)) (<[Z.to_nat fd := Some (Opened file mode)]> t) s [] (k fd).
Proof.
  intros (a & b & c & ->) Hfd. exists (now + delay w me n + delay w me (S n))%nat. split; [lia|].
  cbn [runs]. destruct Hfd as [->| ->]; by destruct (fails w me (S n)).
Qed.
(** A process that says something and exits starts nothing. *)
Lemma runs_complain me n t now kids fmt args : ∃ x, (now ≤ x)%nat ∧ runs w me n t now kids (complain fmt args CExit) = ([], x).
Proof. eexists. split; [|reflexivity]. lia. Qed.
Lemma runs_panic me n t now kids msg : ∃ x, (now ≤ x)%nat ∧ runs w me n t now kids (shell_panic msg) = ([], x).
Proof. eexists. split; [|reflexivity]. lia. Qed.
Lemma runs_fork me n t now kids (k : Z → prog) :
  ∃ s, (now ≤ s)%nat ∧
  ((fails w me n = true ∧ ∃ x, (now ≤ x)%nat ∧ runs w me n t now kids (fork1 k) = ([], x)) ∨
   (fails w me n = false ∧
    let '(ec, xc) := runs w (me ++ [n]) 0 t s [] (k 0) in
    runs w me n t now kids (fork1 k) =
      let '(ep, xp) := runs w me (S n) t s (xc :: kids) (k (Zpos (number w me n))) in (ec ++ ep, xp))).
Proof.
  exists (now + delay w me n)%nat. split; [lia|]. unfold fork1. cbn [runs]. destruct (fails w me n).
  - left. split; [done|]. destruct (runs_panic me (S n) t (now + delay w me n) kids "fork") as (x & Hx & E). exists x. split; [lia|exact E].
  - right. split; [done|]. by destruct (runs w (me ++ [n]) 0 t _ [] _).
Qed.
Lemma runs_wait me n t now x k :
  ∃ s, (now ≤ s)%nat ∧ (x ≤ s)%nat ∧ runs w me n t now [x] (CWait k) = runs w me (S n) t s [] k.
Proof.
  exists (Nat.max (now + delay w me n) x). cbn [runs foldr reap]. rewrite Nat.eqb_refl. split_and!; [lia|lia|done].
Qed.

(** ** [runcmd] keeps the promise *)

Definition keeps (buf : list Z) (c : cmd) : Prop := ∀ me n t now es x,
  usual t → runs w me n t now [] (runcmd buf c) = (es, x) → behaves lossy me n t now (strings (cstr buf) c) es x.

Lemma keeps_exec buf argv : keeps buf (EXEC argv).
Proof.
  intros me n t now es x Ht. cbn [runcmd strings]. destruct (map (cstr buf) argv) as [|a args].
  - cbn [runs]. intros [= <- <-]. constructor. lia.
  - cbn [runs]. destruct (fails w me n) eqn:Hf; [|intros [= <- <-]; constructor; [done|lia|lia]].
    destruct (runs_complain me (S n) t (now + delay w me n) [] "exec %s failed
" [AStr (Some a)]) as (x' & Hx & ->). intros [= <- <-]. apply b_lost; [by eexists _, _|lia].
Qed.
Lemma keeps_redir buf c file mode fd : fd = 0 ∨ fd = 1 → keeps buf c → keeps buf (REDIR c file mode fd).
Proof.
  intros Hfd IH me n t now es x Ht. cbn [runcmd strings].
  edestruct (runs_redir me n t now fd (cstr buf file) mode) as (s & Hs & ->); [done|done|]. destruct (fails w me (S n)) eqn:Hf.
  - change (-1 <? 0) with true. cbv iota. edestruct (runs_complain me (S (S n)) (<[Z.to_nat fd := None]> t) s []) as (x' & Hx & ->).
    intros [= <- <-]. apply b_lost; [by eexists _, _|lia].
  - rewrite (proj2 (Z.ltb_ge fd 0)) by (destruct Hfd; lia). intros E. eapply b_redir; [exact Hs|].
    replace (n + 2)%nat with (S (S n)) by lia. apply IH; [|done]. apply usual_insert; [done|]. destruct Hfd as [->| ->]; simpl; lia.
Qed.
Lemma keeps_list buf l r : keeps buf l → keeps buf r → keeps buf (LIST l r).
Proof.
  intros IHl IHr me n t now es x Ht. cbn [runcmd strings].
  edestruct (runs_fork me n t now []) as (s & Hs & [(Hf & x' & Hx & ->)|(Hf & E)]); [intros [= <- <-]; apply b_lost; [by eexists _, _|lia]|].
  cbv beta in E. change (0 =? 0) with true in E. cbv iota in E. destruct (runs w (me ++ [n]) 0 t s [] _) as [el xl] eqn:El. rewrite E. clear E.
  cbn [Z.eqb]. destruct (runs_wait me (S n) t s xl (runcmd buf r)) as (s2 & Hs2 & Hx2 & ->).
  destruct (runs w me _ t s2 [] _) as [er xr] eqn:Er. intros [= <- <-].
  eapply b_list; [exact Hs|by apply IHl|exact Hx2|]. replace (n + 2)%nat with (S (S n)) by lia. by apply IHr.
Qed.
Lemma keeps_back buf c : keeps buf c → keeps buf (BACK c).
Proof.
  intros IH me n t now es x Ht. cbn [runcmd strings].
  edestruct (runs_fork me n t now []) as (s & Hs & [(Hf & x' & Hx & ->)|(Hf & E)]); [intros [= <- <-]; apply b_lost; [by eexists _, _|lia]|].
  cbv beta in E. change (0 =? 0) with true in E. cbv iota in E. destruct (runs w (me ++ [n]) 0 t s [] _) as [el xl] eqn:El. rewrite E. clear E.
  cbn [Z.eqb runs]. intros [= <- <-]. rewrite app_nil_r. eapply b_back; [exact Hs|by apply IH|lia].
Qed.

(** The table after [pipe]. *)
Definition piped (me : path) (n : nat) (t : fdtable) : fdtable := <[3%nat := Some (ReadEnd me n)]> (<[4%nat := Some (WriteEnd me n)]> t).
Lemma runs_pipe me n t now k :
  usual t → ∃ s, (now ≤ s)%nat ∧ runs w me n t now [] (CPipe k) =
    if fails w me n then runs w me (S n) t s [] (k None) else runs w me (S n) (piped me n t) s [] (k (Some (3, 4))).
Proof.
  intros (a & b & c & ->). exists (now + delay w me n)%nat. split; [lia|]. cbn [runs]. by destruct (fails w me n).
Qed.
Lemma runs_left me n t now me' k :
  usual t → ∃ s, (now ≤ s)%nat ∧
    runs w me' 0 (piped me n t) now [] (CClose 1 (CDup 4 (CClose 3 (CClose 4 k)))) = runs w me' 4 (<[1%nat := Some (WriteEnd me n)]> t) s [] k.
Proof. intros (a & b & c & ->). eexists. split; [|reflexivity]. lia. Qed.
Lemma runs_right me n t now me' k :
  usual t → ∃ s, (now ≤ s)%nat ∧
    runs w me' 0 (piped me n t) now [] (CClose 0 (CDup 3 (CClose 3 (CClose 4 k)))) = runs w me' 4 (<[0%nat := Some (ReadEnd me n)]> t) s [] k.
Proof. intros (a & b & c & ->). eexists. split; [|reflexivity]. lia. Qed.
Lemma runs_both me n t now xl xr :
  ∃ x, (xl ≤ x)%nat ∧ (xr ≤ x)%nat ∧ runs w me n t now [xr; xl] (CClose 3 (CClose 4 (CWait (CWait CExit)))) = ([], x).
Proof.
  cbn [runs foldr reap]. destruct (Nat.eqb_spec xr (Nat.min xl xr)) as [E|E]; cbn [reap foldr].
  - eexists. split_and!; [| |reflexivity]; lia.
  - rewrite (proj2 (Nat.eqb_eq xl (Nat.min xl xr))) by lia. cbn [foldr]. eexists. split_and!; [| |reflexivity]; lia.
Qed.

Lemma keeps_pipe buf l r : keeps buf l → keeps buf r → keeps buf (PIPE l r).
Proof.
  intros IHl IHr me n t now es x Ht. cbn [runcmd strings].
  edestruct (runs_pipe me n t now) as (s & Hs & ->); [done|]. destruct (fails w me n) eqn:Hf.
  { edestruct (runs_panic me (S n) t s []) as (x' & Hx & ->). intros [= <- <-]. apply b_lost; [by eexists _, _|lia]. }
  cbv iota. edestruct (runs_fork me (S n) (piped me n t) s []) as (s1 & Hs1 & [(Hf1 & x' & Hx & ->)|(Hf1 & E)]); [intros [= <- <-]; apply b_lost; [by eexists _, _|lia]|].
  cbv beta in E. change (0 =? 0) with true in E. cbv iota in E.
  destruct (runs_left me n t s1 (me ++ [S n]) (runcmd buf l) Ht) as (sl & Hsl & El). rewrite El in E. clear El.
  destruct (runs w (me ++ [S n]) 4 _ sl [] _) as [el xl] eqn:El. rewrite E. clear E. cbn [Z.eqb].
  apply IHl in El; [|apply usual_insert; [done|lia]]. replace (S n) with (n + 1)%nat in El by lia.
  edestruct (runs_fork me (S (S n)) (piped me n t) s1 [xl]) as (s2 & Hs2 & [(Hf2 & x' & Hx & ->)|(Hf2 & E)]).
  { intros [= <- <-]. rewrite app_nil_r. eapply b_half; [by eexists _, _| |exact El|]; lia. }
  cbv beta in E. change (0 =? 0) with true in E. cbv iota in E.
  destruct (runs_right me n t s2 (me ++ [S (S n)]) (runcmd buf r) Ht) as (sr & Hsr & Er). rewrite Er in E. clear Er.
  destruct (runs w (me ++ [S (S n)]) 4 _ sr [] _) as [er xr] eqn:Er. rewrite E. clear E. cbn [Z.eqb].
  apply IHr in Er; [|apply usual_insert; [done|lia]]. replace (S (S n)) with (n + 2)%nat in Er by lia.
  destruct (runs_both me (S (S (S n))) (piped me n t) s2 xl xr) as (x' & H1 & H2 & ->). intros [= <- <-]. rewrite app_nil_r.
  eapply b_pipe; [|exact El| |exact Er|done|done]; lia.
Qed.

Lemma runcmd_keeps buf c : std (strings (cstr buf) c) → keeps buf c.
Proof.
  induction c as [argv|c IH file m fd|l IHl r IHr|l IHl r IHr|c IH]; cbn [strings std].
  - intros _. apply keeps_exec.
  - intros [Hfd Hc]. by apply keeps_redir; [|apply IH].
  - intros [Hl Hr]. by apply keeps_pipe; [apply IHl|apply IHr].
  - intros [Hl Hr]. by apply keeps_list; [apply IHl|apply IHr].
  - intros Hc. by apply keeps_back, IH.
Qed.
End Proofs.

Lemma redirect_std c rs : std c → std (foldl redirect c rs).
Proof.
  revert c. induction rs as [|[o f] rs IH]; intros c Hc; [done|]. cbn [foldl]. apply IH. destruct o; cbn; auto.
Qed.
Lemma meaning_std : (∀ l, std (line_meaning l)) ∧ (∀ p, std (pipe_meaning p)) ∧ (∀ e, std (exec_meaning e)).
Proof.
  assert (∀ n c, std c → std (Nat.iter n SBACK c)) as Hb by (intros n c Hc; by induction n).
  apply syntax_ind; cbn [line_meaning pipe_meaning exec_meaning std]; intros; auto; by apply redirect_std.
Qed.

Lemma behaves_usual lossy me n t s c es x :
  behaves lossy me n t s c es x → std c → usual t → Forall (λ e, usual (ev_fds e)) es.
Proof.
  induction 1; cbn [std]; intros Hc Ht; rewrite ?Forall_app; try (by constructor); try (by apply IHbehaves).
  - destruct Hc as [Hfd Hc]. apply IHbehaves; [done|]. apply usual_insert; [done|]. destruct Hfd as [->| ->]; simpl; lia.
  - naive_solver.
  - destruct Hc. split; [apply IHbehaves1|apply IHbehaves2]; try done; (apply usual_insert; [done|lia]).
  - destruct Hc. apply IHbehaves; [done|]. apply usual_insert; [done|lia].
Qed.

(** C8: the shell does what a command line means, whatever calls fail and however
    the processes it forks are timed.  It reads the line and starts the programs of the
    line and no others, each with its arguments and with exactly three open
    descriptors: the two ends of a pipe go to the two sides of "|", a
    redirection replaces one descriptor, and no end of a pipe is left open
    anywhere else.  After ";" nothing starts before the process of the command
    in front has exited, a pipeline exits when both its sides have, and nothing
    waits for a command with "&".  Programs are missing only when a call failed. *)
Theorem shell_runs_line w line l t now :
  0 ∉ line → few_line l → lay (line_tokens l) line → usual t →
  ∃ c buf es x, parsecmd line = Some (inr (c, buf)) ∧ runs w [] 0 t now [] (runcmd buf c) = (es, x) ∧
    behaves (lossy w) [] 0 t now (line_meaning l) es x ∧ Forall (λ e, usual (ev_fds e)) es.
Proof.
  intros Hnul Hf Hl Ht. destruct (parsecmd_lay line l Hnul Hf Hl) as (c & buf & E & Hc).
  destruct (runs w [] 0 t now [] (runcmd buf c)) as [es x] eqn:Er. exists c, buf, es, x. split; [done|]. split; [done|].
  pose proof (proj1 meaning_std l) as Hstd. apply runcmd_keeps in Er; [|by rewrite Hc|done]. rewrite Hc in Er.
  split; [done|]. by apply (behaves_usual _ _ _ _ _ _ _ _ Er).
Qed.

(** ** A session *)

(** [fork] makes a child, and the programs do not read what is typed at the
    shell; [jobs] are the children so far. *)
Class JobsOk (os : Type) `{Posix os, Streams os, Jobs os} := {
  jobs : os → list prog;
  fork_jobs p o : ∃ pid o', p_fork p o = (pid, o') ∧ 0 < pid ∧ jobs o' = jobs o ++ [p] ∧ input 0 o' = input 0 o;
  wait_jobs o : jobs (snd (p_wait o)) = jobs o ∧ input 0 (snd (p_wait o)) = input 0 o;
  write_jobs fd l o : jobs (snd (p_write fd l o)) = jobs o;
  read_jobs fd n o : jobs (snd (p_read fd n o)) = jobs o }.

Section Session.
Context {os : Type} `{Posix os, Streams os, !WriteOk os, !ReadOk os, !Jobs os, !JobsOk os}.

(** Nothing has happened but that input was taken or output written. *)
Definition quiet (o : os) (rest : list Z) (o' : os) : Prop := jobs o' = jobs o ∧ input 0 o' = rest.

Lemma putc_quiet c o : ∃ o', putc 2 c o = Returns tt o' ∧ quiet o (input 0 o) o'.
Proof.
  destruct (write_spec 2 [u8 c] o) as (o' & E & _ & _ & Hi). pose proof (write_jobs 2 [u8 c] o) as Hj. rewrite E in Hj.
  exists o'. split; [|done]. assert (write 2 [u8 c] o = Returns 1 o') as Ew by (unfold write, call; by rewrite E).
  unfold putc. by rewrite (ubind_returns _ _ _ _ _ Ew).
Qed.
Lemma read_quiet c l o : input 0 o = c :: l → ∃ o', read 0 1 o = Returns (1, [c]) o' ∧ quiet o l o'.
Proof.
  intros Hi. destruct (read_spec 0 1 o ltac:(lia)) as (k & o' & E & _ & Hk & Hpos & Hin & _). pose proof (read_jobs 0 1 o) as Hj. rewrite E in Hj.
  assert (k = 1%nat) as -> by (rewrite Hi in Hpos; specialize (Hpos ltac:(done)); lia). exists o'. rewrite Hi in *. split; [|done].
  unfold read, call. by rewrite E.
Qed.
Lemma gets_quiet l rest : ∀ room stored o,
  Forall (λ c, c ≠ 10 ∧ c ≠ 13) l → (length l < room)%nat → input 0 o = l ++ 10 :: rest →
  ∃ o', gets_loop room stored o = Returns (stored ++ l ++ [10]) o' ∧ quiet o rest o'.
Proof.
  induction l as [|c l IH]; intros [|room] stored o Hl Hr Hi; try (simpl in Hr; lia); cbn [gets_loop app] in *.
  - destruct (read_quiet _ _ _ Hi) as (o' & E & Hq). exists o'. by rewrite (ubind_returns _ _ _ _ _ E).
  - apply Forall_cons in Hl as [[H1 H2] Hl]. destruct (read_quiet _ _ _ Hi) as (o1 & E & Hj & Hi1).
    destruct (IH room (stored ++ [c]) o1 Hl ltac:(simpl in Hr; lia) Hi1) as (o' & E' & Hj' & Hi'). exists o'.
    rewrite (ubind_returns _ _ _ _ _ E). cbn [fst snd]. change (1 <? 1) with false. cbv iota. change (char_at [c] 0) with c.
    rewrite (proj2 (Z.eqb_neq c 10)), (proj2 (Z.eqb_neq c 13)) by done. cbn [orb]. rewrite E'. rewrite <- app_assoc. split; [done|]. split; congruence.
Qed.

(** A line that can be typed: it fits in [buf] and is not a [cd]. *)
Definition typed_line (l : list Z) : Prop :=
  Forall (λ c, c ≠ 10 ∧ c ≠ 13 ∧ c ≠ 0) l ∧ (length l < 99)%nat ∧ is_cd (l ++ [10]) = false.

Lemma prompt_quiet o : ∃ o', printf 2 "$ " [] o = Returns tt o' ∧ quiet o (input 0 o) o'.
Proof.
  destruct (putc_quiet 36 o) as (o1 & E1 & Hj1 & Hi1). destruct (putc_quiet 32 o1) as (o2 & E2 & Hj2 & Hi2).
  exists o2. split; [|split; congruence]. unfold printf.
  change (printf_loop 2 false (lit "$ ") []) with (putc 2 36;; putc 2 32;; mret (M := U os) tt).
  rewrite (ubind_returns _ _ _ _ _ E1). by rewrite (ubind_returns _ _ _ _ _ E2).
Qed.
Lemma getcmd_quiet l rest o :
  typed_line l → input 0 o = l ++ 10 :: rest → ∃ o', getcmd o = Returns (Some (l ++ [10])) o' ∧ quiet o rest o'.
Proof.
  intros (Hl & Hlen & _) Hi. destruct (prompt_quiet o) as (o2 & Ep & Hj2 & Hi2).
  destruct (gets_quiet l rest 99 [] o2) as (o3 & E3 & Hj3 & Hi3); [eapply Forall_impl; [exact Hl|naive_solver]|done|congruence|].
  exists o3. split; [|split; congruence]. unfold getcmd. rewrite (ubind_returns _ _ _ _ _ Ep).
  unfold Ulib.gets. change (Z.to_nat (100 - 1)) with 99%nat. rewrite (ubind_returns _ _ _ _ _ E3). cbn [app].
  assert (0 ∉ l ++ [10]) as H0s.
  { rewrite Forall_forall in Hl. rewrite elem_of_app, list_elem_of_singleton. intros [Hin|]; [|done]. by destruct (Hl 0 Hin) as (_ & _ & ?). }
  rewrite name_of_id by done. destruct l as [|c l]; [done|]. cbn [app] in *. apply not_elem_of_cons in H0s as [Hc _].
  change (char_at (c :: l ++ [10]) 0) with c. by rewrite (proj2 (Z.eqb_neq c 0)).
Qed.
Lemma getcmd_end o : input 0 o = [] → ∃ o', getcmd o = Returns None o' ∧ quiet o [] o'.
Proof.
  intros Hi. destruct (prompt_quiet o) as (o2 & Ep & Hj2 & Hi2).
  destruct (read_spec 0 1 o2 ltac:(lia)) as (k & o' & E & Hk & _ & _ & Hin & _). pose proof (read_jobs 0 1 o2) as Hj. rewrite E in Hj.
  rewrite Hi2, Hi in *. destruct k as [|k]; [|simpl in Hk; lia]. exists o'. split; [|split; [simpl in Hj; congruence|done]]. unfold getcmd.
  rewrite (ubind_returns _ _ _ _ _ Ep). unfold Ulib.gets. change (Z.to_nat (100 - 1)) with 99%nat. cbn [gets_loop].
  assert (read 0 1 o2 = Returns (0, []) o') as Er by (unfold read, call; by rewrite E).
  assert (gets_loop 99 [] o2 = Returns [] o') as Eg by (cbn [gets_loop]; by rewrite (ubind_returns _ _ _ _ _ Er)).
  by rewrite (ubind_returns _ _ _ _ _ Eg).
Qed.
Lemma sh_line_job l o : is_cd l = false → ∃ o', sh_line l o = Returns tt o' ∧ jobs o' = jobs o ++ [child l] ∧ input 0 o' = input 0 o.
Proof.
  intros Hc. unfold sh_line. rewrite Hc. destruct (fork_jobs (child l) o) as (pid & o1 & E & Hp & Hj & Hi).
  assert (call (p_fork (child l)) o = Returns pid o1) as Ef by (unfold call; by rewrite E). rewrite (ubind_returns _ _ _ _ _ Ef).
  rewrite (proj2 (Z.eqb_neq pid (-1))) by lia. destruct (wait_jobs o1) as [Hj2 Hi2]. destruct (p_wait o1) as [r o2] eqn:Ew.
  assert (call p_wait o1 = Returns r o2) as Ewc by (unfold call; by rewrite Ew). exists o2. rewrite (ubind_returns _ _ _ _ _ Ewc).
  split; [done|]. simpl in *. split; congruence.
Qed.

(** a session of the shell. When the lines that are typed fit in the shell's
    buffer and are not [cd] commands, the shell makes one child for each line, in order,
    with that line as its command, and exits at the end of the input. *)
Theorem shell_session lines o :
  Forall typed_line lines → input 0 o = concat (map (λ l, l ++ [10]) lines) →
  ∃ o', sh_loop (S (length lines)) o = Exits o' ∧ jobs o' = jobs o ++ map (λ l, child (l ++ [10])) lines.
Proof.
  intros Hl. revert o. induction Hl as [|l lines Hl _ IH]; intros o Hi; cbn [map concat length] in *.
  - destruct (getcmd_end o Hi) as (o' & E & Hj & _). exists o'. cbn [sh_loop]. rewrite (ubind_returns _ _ _ _ _ E), app_nil_r. done.
  - rewrite <- app_assoc in Hi. destruct (getcmd_quiet l _ o Hl Hi) as (o1 & E & Hj & Hi1).
    destruct (sh_line_job (l ++ [10]) o1) as (o2 & E2 & Hj2 & Hi2); [apply Hl|]. destruct (IH o2) as (o' & E' & Hj'); [congruence|].
    exists o'. cbn [sh_loop]. rewrite (ubind_returns _ _ _ _ _ E), (ubind_returns _ _ _ _ _ E2). split; [exact E'|].
    rewrite Hj', Hj2, Hj, <- app_assoc. done.
Qed.
End Session.

Module SampleRun.
Import SampleOs.
(** Nothing fails; every call takes one unit of time. *)
Definition calm : world := World (λ _ _, false) (λ _ _, 1%nat) (λ p n, (length p + 5)%nat) (λ _ _, 7%positive).
Definition console : fdtable := Some (Given 0) :: Some (Given 1) :: Some (Given 2) :: replicate 13 None.

Lemma shell_runs_line_witness :
  usual console ∧ ∃ es x, behaves (lossy calm) [] 0 console 0 (line_meaning SampleGrammar.syntax) es x ∧
    map (λ e, (ev_argv e, ev_fds e !! 0%nat, ev_fds e !! 1%nat)) es =
      [([lit "cat"], Some (Some (Opened (lit "a") 0)), Some (Some (WriteEnd [0%nat] 0)));
       ([lit "wc"], Some (Some (ReadEnd [0%nat] 0)), Some (Some (Opened (lit "b") 513)));
       ([lit "ls"; lit "-l"], Some (Some (ReadEnd [0%nat] 0)), Some (Some (Opened (lit "b") 513)))].
Proof.
  assert (usual console) as Hu by (eexists _, _, _; reflexivity). split; [exact Hu|].
  assert (0 ∉ SampleLine.line) as Hn by (apply (bool_decide_eq_true_1 (0 ∉ SampleLine.line)); vm_compute; reflexivity).
  destruct (shell_runs_line calm SampleLine.line SampleGrammar.syntax console 0 Hn) as (c & buf & es & x & E & Hr & Hb & _).
  - cbn. unfold MAXARGS. split_and!; lia.
  - repeat (eapply (proj2 (lay_cons _ _ _)); eexists; split; [vm_compute; reflexivity|]). apply lay_nil. vm_compute. reflexivity.
  - exact Hu.
  - exists es, x. split; [exact Hb|]. vm_compute in E. injection E as <- <-. vm_compute in Hr. injection Hr as <- _. reflexivity.
Defined.

(** A terminal, with the children that were made. *)
Record term := Term { tfiles : SampleOs.files; tjobs : list prog }.
Definition lift {A} (f : SampleOs.files → A * SampleOs.files) (o : term) : A * term :=
  let '(a, f') := f (tfiles o) in (a, Term f' (tjobs o)).
#[export] Instance term_posix : Posix term := {|
  p_read fd n := lift (p_read fd n); p_write fd l := lift (p_write fd l); p_open path mode := lift (p_open path mode);
  p_close fd := lift (p_close fd); p_unlink path := lift (p_unlink path); p_link old new := lift (p_link old new);
  p_mkdir path := lift (p_mkdir path); p_kill pid := lift (p_kill pid); p_fstat fd := lift (p_fstat fd) |}.
#[export] Instance term_streams : Streams term := {| input fd o := input fd (tfiles o); output fd o := output fd (tfiles o) |}.
#[export] Instance term_jobs : Jobs term := {|
  p_chdir _ o := (0, o); p_fork p o := (1, Term (tfiles o) (tjobs o ++ [p])); p_wait o := (1, o) |}.
#[export] Instance term_write : WriteOk term.
Proof.
  split. intros fd l o. destruct (write_spec fd l (tfiles o)) as (f & E & H). exists (Term f (tjobs o)). split; [|exact H].
  unfold p_write, term_posix, lift. by rewrite E.
Qed.
#[export] Instance term_read : ReadOk term.
Proof.
  split. intros fd n o Hn. destruct (read_spec fd n (tfiles o) Hn) as (k & f & E & H). exists k, (Term f (tjobs o)). split; [|exact H].
  unfold p_read, term_posix, lift. by rewrite E.
Qed.
#[export] Instance term_jobs_ok : JobsOk term.
Proof. refine {| jobs := tjobs |}; try done. intros p o. eexists _, _. split; [reflexivity|]. done. Defined.

Definition start : term := Term (SampleOs.Files ∅ {[0 := lit "ls
wc<a
"]} ∅ 3) [].
Lemma shell_session_witness :
  Forall typed_line [lit "ls"; lit "wc<a"] ∧
  ∃ o', sh_loop 3 start = Exits o' ∧ tjobs o' = [child (lit "ls" ++ [10]); child (lit "wc<a" ++ [10])].
Proof.
  assert (Forall typed_line [lit "ls"; lit "wc<a"]) as Hl.
  { repeat constructor; try done; vm_compute; lia. }
  split; [exact Hl|]. assert (input 0 start = concat (map (λ l, l ++ [10]) [lit "ls"; lit "wc<a"])) as Hi by (vm_compute; reflexivity).
  destruct (shell_session [lit "ls"; lit "wc<a"] start Hl Hi) as (o' & E & Hj). exists o'. split; [exact E|].
  change (tjobs o') with (jobs o'). rewrite Hj. reflexivity.
Defined.
End SampleRun.
