(* ===== verification/Init.v ===== *)
(** * The first process

    [init.c], after it has opened the console ([Usertests.init_console]): it
    starts a shell, waits until that shell has ended, taking in the orphans that
    end in the meantime, and starts the next. *)

From S2P Require Import Prelude Bytes Ulib ShellGrammar ShellRun.

(** The child: [exec("sh", argv)], and what follows if it fails. *)
Definition init_child : prog := CExec (lit "sh") [lit "sh"] (CWrite 1 (lit "init: exec sh failed" ++ [10]) CExit).

Definition line (s : string) : list Z := lit s ++ [10].
Definition group : list Z := line "Group members:" ++ line " Kasra Kashani" ++ line " Albroz Mahmoudian" ++ line " Narges Babalar".

Section Init.
Context {os : Type} `{Posix os, !Jobs os}.

(** [printf] of a format without arguments. *)
Definition say_text (l : list Z) : U os unit := printf_loop 1 false l [].
Definition say_line (s : string) : U os unit := say_text (line s).
(** [while((wpid=wait()) >= 0 && wpid != pid) printf(1, "zombie!\n");] *)
Fixpoint init_wait (fuel : nat) (pid : Z) : U os unit :=
  match fuel with
  | O => undefined
  | S fuel =>
      wpid ← call p_wait;
      if (0 <=? wpid) && negb (wpid =? pid) then say_line "zombie!";; init_wait fuel pid else mret tt
  end.
(** [for(;;)], with [fuel] turns of it and of the inner loop. *)
Fixpoint init_loop (fuel : nat) : U os unit :=
  match fuel with
  | O => undefined
  | S fuel =>
      say_line "init: starting sh";;
      say_text group;;
      pid ← call (p_fork init_child);
      if pid <? 0 then say_line "init: fork failed";; Ulib.exit
      else init_wait fuel pid;; init_loop fuel
  end.
End Init.

(** ** Sessions *)

(** The children made, and what the console shows; the pids [fork] will give, and the results of [wait], in order. *)
Class Reaper (os : Type) := { made : os → list prog; shown : os → list Z; pids : os → list Z; ends : os → list Z }.
Class ReaperOk (os : Type) `{Posix os, Jobs os, Reaper os} : Prop := {
  reap_fork p pid l o : pids o = pid :: l → ∃ o', p_fork p o = (pid, o') ∧ pids o' = l ∧ ends o' = ends o ∧ shown o' = shown o ∧
    made o' = if pid <? 0 then made o else made o ++ [p];
  reap_wait w l o : ends o = w :: l → ∃ o', p_wait o = (w, o') ∧ ends o' = l ∧ pids o' = pids o ∧ shown o' = shown o ∧ made o' = made o;
  reap_write l o : ∃ r o', p_write 1 l o = (r, o') ∧ made o' = made o ∧ pids o' = pids o ∧ ends o' = ends o ∧ shown o' = shown o ++ l }.

Section Sessions.
Context {os : Type} `{Posix os, !Jobs os, !Reaper os, !ReaperOk os}.

(** The text was written, and nothing else happened. *)
Definition wrote_text (l : list Z) (o o' : os) : Prop := made o' = made o ∧ pids o' = pids o ∧ ends o' = ends o ∧ shown o' = shown o ++ l.

Lemma say_text_wrote l : ∀ o, Forall (λ c, 0 ≤ c < 256 ∧ c ≠ 37) l → ∃ o', say_text l o = Returns tt o' ∧ wrote_text l o o'.
Proof.
  unfold say_text. induction l as [|c l IH]; intros o Hl; cbn [printf_loop negb]; [exists o; split; [done|]; unfold wrote_text; by rewrite app_nil_r|].
  apply Forall_cons in Hl as [[Hc H37] Hl]. rewrite (proj2 (Z.eqb_neq c 37)) by done. destruct (reap_write [u8 c] o) as (r & o1 & E & A & B & C & S).
  destruct (IH o1 Hl) as (o2 & E2 & A2 & B2 & C2 & S2). exists o2. split.
  - rewrite (ubind_returns _ _ _ tt o1); [done|]. unfold putc, write. rewrite (ubind_returns _ _ _ r o1); [done|]. unfold call. by rewrite E.
  - unfold wrote_text. rewrite A2, B2, C2, S2, A, B, C, S, u8_byte, <- app_assoc by done. done.
Qed.

Lemma text_ok l : forallb (λ c, (0 <=? c) && (c <? 256) && negb (c =? 37)) l = true → Forall (λ c, 0 ≤ c < 256 ∧ c ≠ 37) l.
Proof.
  intros Hl. rewrite forallb_forall in Hl. apply Forall_forall. intros c Hc. apply list_elem_of_In, Hl in Hc.
  apply andb_prop in Hc as [Hc1 Hc2]. apply andb_prop in Hc1 as [? ?]. apply negb_true_iff, Z.eqb_neq in Hc2. lia.
Qed.

(** The shell [pid] ends after the orphans [zs]. *)
Definition session : Type := Z * list Z.
Definition session_ok (s : session) : Prop := 0 ≤ fst s ∧ Forall (λ z, 0 ≤ z ∧ z ≠ fst s) (snd s).
Definition session_ends (s : session) : list Z := snd s ++ [fst s].
Definition greeting : list Z := line "init: starting sh" ++ group.
Definition session_text (s : session) : list Z := greeting ++ concat (replicate (length (snd s)) (line "zombie!")).

Lemma init_wait_ok pid rest zs : ∀ fuel o,
  Forall (λ z, 0 ≤ z ∧ z ≠ pid) zs → ends o = zs ++ pid :: rest → (length zs < fuel)%nat →
  ∃ o', init_wait fuel pid o = Returns tt o' ∧ ends o' = rest ∧ pids o' = pids o ∧ made o' = made o ∧
    shown o' = shown o ++ concat (replicate (length zs) (line "zombie!")).
Proof.
  induction zs as [|z zs IH]; intros [|fuel] o Hz He Hf; cbn [length app] in *; try lia; cbn [init_wait]; destruct (reap_wait _ _ o He) as (o1 & E & A & B & S & C).
  - rewrite (ubind_returns _ _ _ pid o1) by (unfold call; by rewrite E). rewrite Z.eqb_refl, andb_false_r. exists o1.
    split; [done|]. split_and!; try done. by rewrite S, app_nil_r.
  - apply Forall_cons in Hz as [[Hz0 Hne] Hz]. rewrite (ubind_returns _ _ _ z o1) by (unfold call; by rewrite E).
    rewrite (proj2 (Z.leb_le 0 z)), (proj2 (Z.eqb_neq z pid)) by done. cbn [negb andb].
    destruct (say_text_wrote (line "zombie!") o1) as (o2 & E2 & A2 & B2 & C2 & S2); [by apply text_ok|].
    destruct (IH fuel o2) as (o3 & E3 & A3 & B3 & C3 & S3); [done|by rewrite C2|lia|]. exists o3.
    split; [unfold say_line; by rewrite (ubind_returns _ _ _ _ _ E2)|]. split_and!; [done|congruence|congruence|].
    rewrite S3, S2, S, <- app_assoc. done.
Qed.

(** One shell after the other is started, each only when the one before has ended; the orphans that end in the
    meantime are taken in and reported; and only a [fork] that fails ends [init]. *)
Theorem init_serves ss : ∀ o fuel,
  Forall session_ok ss → pids o = map fst ss ++ [-1] → ends o = concat (map session_ends ss) → (length (ends o) < fuel)%nat →
  ∃ o', init_loop fuel o = Exits o' ∧ made o' = made o ++ replicate (length ss) init_child ∧
    shown o' = shown o ++ concat (map session_text ss) ++ greeting ++ line "init: fork failed".
Proof.
  induction ss as [|[pid zs] ss IH]; intros o [|fuel] Hs Hp He Hf; try lia; cbn [init_loop map app concat length replicate] in *.
  - destruct (say_text_wrote (line "init: starting sh") o) as (o1 & E1 & A1 & B1 & C1 & S1); [by apply text_ok|].
    destruct (say_text_wrote group o1) as (o2 & E2 & A2 & B2 & C2 & S2); [by apply text_ok|].
    destruct (reap_fork init_child (-1) [] o2) as (o3 & E3 & B3 & C3 & S3 & A3); [congruence|].
    destruct (say_text_wrote (line "init: fork failed") o3) as (o4 & E4 & A4 & B4 & C4 & S4); [by apply text_ok|].
    exists o4. unfold say_line. rewrite (ubind_returns _ _ _ _ _ E1), (ubind_returns _ _ _ _ _ E2), (ubind_returns _ _ _ (-1) o3) by (unfold call; by rewrite E3).
    change (-1 <? 0) with true in *. cbv iota in *. rewrite (ubind_returns _ _ _ _ _ E4). split; [done|]. split; [rewrite app_nil_r; congruence|].
    unfold greeting. rewrite S4, S3, S2, S1, <- !app_assoc. done.
  - apply Forall_cons in Hs as [[Hpid Hz] Hs]. cbn [fst snd] in *. rewrite He in Hf. unfold session_ends in Hf at 1. rewrite !length_app in Hf. cbn [fst snd length] in Hf.
    destruct (say_text_wrote (line "init: starting sh") o) as (o1 & E1 & A1 & B1 & C1 & S1); [by apply text_ok|].
    destruct (say_text_wrote group o1) as (o2 & E2 & A2 & B2 & C2 & S2); [by apply text_ok|].
    destruct (reap_fork init_child pid (map fst ss ++ [-1]) o2) as (o3 & E3 & B3 & C3 & S3 & A3); [congruence|].
    destruct (init_wait_ok pid (concat (map session_ends ss)) zs fuel o3) as (o4 & E4 & C4 & B4 & A4 & S4); [done| |lia|].
    { rewrite C3, C2, C1, He. unfold session_ends at 1. by rewrite <- app_assoc. }
    destruct (IH o4 fuel) as (o5 & E5 & A5 & S5); [done|congruence|done|rewrite C4; lia|].
    exists o5. unfold say_line. rewrite (ubind_returns _ _ _ _ _ E1), (ubind_returns _ _ _ _ _ E2), (ubind_returns _ _ _ pid o3) by (unfold call; by rewrite E3).
    rewrite (proj2 (Z.ltb_ge pid 0)) in * by done. rewrite (ubind_returns _ _ _ _ _ E4). split; [done|].
    split; [rewrite A5, A4, A3, A2, A1, <- app_assoc; done|].
    rewrite S5, S4, S3, S2, S1. unfold session_text at 2, greeting. cbn [snd]. rewrite <- !app_assoc. done.
Qed.
End Sessions.
