(* ===== verification/Exec.v ===== *)
(** * Loading a program

    [exec.c] and [loaduvm] of [vm.c], over the file system, the page tables and
    the process table; and the kernel put together: the operations below the
    process table ([Lower]) and the system calls on files ([FileCalls]) are those
    of the modelled components. *)

From S2P Require Import Prelude Mem Kalloc Vm VmInv VmOut Bytes Elf Str Bio Log Txn Fs File Locks Proc Syscall Sysfile.
From S2P Require Pipe.

Section Exec.
(** The linker's [end] and [data], and the device switch. *)
Context (kend data : Z).
Context (dev_read : Z → option (nat → Z → M fstate (Z * list Z)))
        (dev_write : Z → option (nat → list Z → M fstate Z)).

Section Load.
Context (mypid : Z).

(** The loop of [loaduvm] from byte [i] on, a page a turn. *)
Fixpoint loaduvm_loop (fuel : nat) (pgdir addr : Z) (ip : nat) (offset sz i : Z) : M world Z :=
  if i <? sz then
    match fuel with
    | O => panic "out of fuel"
    | S fuel =>
        pte ← on_kmem (walkpgdir pgdir (u32 (addr + i)) false);
        if pte =? 0 then panic "loaduvm: address should exist"
        else
          e ← on_kmem (load pte);
          let n := Z.min (sz - i) PGSIZE in
          r ← on_fs (readi mypid dev_read ip (u32 (offset + i)) n);
          on_kmem (on_mem (wr_bytes (PTE_ADDR e) (snd r)));;
          if negb (u32 (fst r) =? n) then mret (-1)
          else loaduvm_loop fuel pgdir addr ip offset sz (i + PGSIZE)
    end
  else mret 0.
Definition loaduvm (pgdir addr : Z) (ip : nat) (offset sz : Z) : M world Z :=
  if negb (addr mod PGSIZE =? 0) then panic "loaduvm: addr must be page aligned"
  else loaduvm_loop (Z.to_nat (sz / PGSIZE + 1)) pgdir addr ip offset sz 0.

(** The loop of [exec] over the program headers, [k] of them left; [None] for
    the jump to [bad], else the size. *)
Fixpoint load_segments (k : nat) (pgdir : Z) (ip : nat) (off sz : Z) : M world (option Z) :=
  match k with
  | O => mret (Some sz)
  | S k =>
      r ← on_fs (readi mypid dev_read ip (u32 off) sizeof_proghdr);
      let ph := snd r in
      if negb (fst r =? sizeof_proghdr) then mret None
      else if negb (ph_type ph =? ELF_PROG_LOAD) then load_segments k pgdir ip (i32 (off + sizeof_proghdr)) sz
      else if ph_memsz ph <? ph_filesz ph then mret None
      else if u32 (ph_vaddr ph + ph_memsz ph) <? ph_vaddr ph then mret None
      else
        sz ← on_kmem (allocuvm kend pgdir sz (u32 (ph_vaddr ph + ph_memsz ph)));
        if sz =? 0 then mret None
        else if negb (ph_vaddr ph mod PGSIZE =? 0) then mret None
        else
          r ← loaduvm pgdir (ph_vaddr ph) ip (ph_off ph) (ph_filesz ph);
          if r <? 0 then mret None
          else load_segments k pgdir ip (i32 (off + sizeof_proghdr)) (u32 sz)
  end.

(** The label [bad]. *)
Definition exec_bad (pgdir : Z) (ip : option nat) : M world Z :=
  (if negb (pgdir =? 0) then on_kmem (freevm kend pgdir) else mret tt);;
  (match ip with
   | Some ip => on_fs (iunlockput mypid ip;; op_end mypid)
   | None => mret tt
   end);;
  mret (-1).

Definition exec_fail (pgdir : Z) (ip : option nat) : M world (Z + Z * Z * Z) :=
  r ← exec_bad pgdir ip;
  mret (inl r).

(** From [begin_op] to [end_op]: the result -1, or the new directory, the size
    and the entry point. *)
Definition exec_load (cwd : nat) (path : list Z) : M world (Z + Z * Z * Z) :=
  on_fs op_begin;;
  r ← on_fs (namei mypid cwd dev_read path);
  match r with
  | None =>
      on_fs (op_end mypid);;
      emit (EPrint "exec: fail\n" []);;
      mret (inl (-1))
  | Some ip =>
      on_fs (ilock mypid ip);;
      r ← on_fs (readi mypid dev_read ip 0 sizeof_elfhdr);
      let elf := snd r in
      if negb (fst r =? sizeof_elfhdr) then exec_fail 0 (Some ip)
      else if negb (elf_magic elf =? ELF_MAGIC) then exec_fail 0 (Some ip)
      else
        pgdir ← on_kmem (setupkvm kend data);
        if pgdir =? 0 then exec_fail 0 (Some ip)
        else
          r ← load_segments (Z.to_nat (elf_phnum elf)) pgdir ip (i32 (elf_phoff elf)) 0;
          match r with
          | None => exec_fail pgdir (Some ip)
          | Some sz =>
              on_fs (iunlockput mypid ip;; op_end mypid);;
              mret (inr (pgdir, sz, elf_entry elf))
          end
  end.

(** The loop that pushes the argument strings: the stack pointer and the
    addresses of the strings, or [None] for the jump to [bad]. *)
Fixpoint push_args (pgdir sp : Z) (argv : list (list Z)) (ustack : list Z) : M world (option (Z * list Z)) :=
  match argv with
  | [] => mret (Some (sp, ustack))
  | s :: argv =>
      if (MAXARG <=? length ustack)%nat then mret None
      else
        let sp := Z.land (u32 (sp - (Z.of_nat (length s) + 1))) (u32 (Z.lnot 3)) in
        r ← on_kmem (copyout pgdir sp (s ++ [0]));
        if r <? 0 then mret None
        else push_args pgdir sp argv (ustack ++ [sp])
  end.

(** The user stack: the size, the stack pointer, or [None] for [bad]. *)
Definition exec_stack (pgdir sz : Z) (argv : list (list Z)) : M world (option (Z * Z)) :=
  let sz := PGROUNDUP sz in
  sz ← on_kmem (allocuvm kend pgdir sz (u32 (sz + 2 * PGSIZE)));
  if sz =? 0 then mret None
  else
    let sz := u32 sz in
    on_kmem (clearpteu pgdir (u32 (sz - 2 * PGSIZE)));;
    r ← push_args pgdir sz argv [];
    match r with
    | None => mret None
    | Some (sp, strings) =>
        let argc := Z.of_nat (length strings) in
        let ustack := [0xffffffff; argc; u32 (sp - (argc + 1) * 4)] ++ strings ++ [0] in
        let sp := u32 (sp - (3 + argc + 1) * 4) in
        r ← on_kmem (copyout pgdir sp (concat (map le32 ustack)));
        if r <? 0 then mret None
        else mret (Some (sz, sp))
    end.

End Load.

(** The path after its last slash. *)
Fixpoint last_elem (last s : list Z) : list Z :=
  match s with
  | [] => last
  | c :: s => last_elem (if c =? slash then s else last) s
  end.

Definition set_eip_esp (i e : Z) (f : trapframe) : trapframe :=
  TF (edi f) (esi f) (ebp f) (oesp f) (ebx f) (edx f) (ecx f) (eax f) (gs f) (fs f) (es f) (ds f)
     (trapno f) (err f) i (cs f) (eflags f) e (ss f).

(** [exec] by process [me] running on CPU [cpu]. *)
Definition exec (cpu me : nat) (path : list Z) (argv : list (list Z)) : M (kstate world) Z :=
  p ← gets (proc_at me);
  r ← lift (exec_load (pid p) (default NINODE (cwd p)) path);
  match r with
  | inl e => mret e
  | inr (d, sz, entry) =>
      r ← lift (exec_stack d sz argv);
      match r with
      | None => lift (exec_bad (pid p) d None)
      | Some (sz, sp) =>
          upd me (λ p, set_name (name15 (string_of (last_elem path path))) p);;
          upd me (set_pgdir d);;
          upd me (set_sz sz);;
          upd me (λ p, set_tf (set_eip_esp entry sp (tf p)) p);;
          switchuvm cpu me;;
          lift (on_kmem (freevm kend (pgdir p)));;
          mret 0
      end
  end.

Definition sys_exec (cpu me : nat) : M (kstate world) Z :=
  path ← arg_str me 0;
  uargv ← arg me 1;
  match path, uargv with
  | Some path, Some uargv =>
      argv ← exec_args MAXARG me uargv [];
      match argv with
      | None => mret (-1)
      | Some argv => exec cpu me path argv
      end
  | _, _ => mret (-1)
  end.

End Exec.

(** ** The kernel put together *)

Section Kernel.
Context (kend data : Z) (junk_page init : list Z).
Context (dev_read : Z → option (nat → Z → M fstate (Z * list Z)))
        (dev_write : Z → option (nat → list Z → M fstate Z)).

Definition bytes_of (s : string) : list Z :=
  map (λ c, Z.of_nat (Ascii.nat_of_ascii c)) (String.list_ascii_of_string s).

(** What the process code calls, run by a process with pid [mypid] and current
    directory [cwd]. *)
Definition world_lower (mypid : Z) (cwd : nat) : Lower world := {|
  l_kalloc := on_kmem kalloc;
  l_kfree v := on_kmem (kfree kend v);
  l_setupkvm := on_kmem (setupkvm kend data);
  l_inituvm d := on_kmem (inituvm d init);
  l_copyuvm d n := on_kmem (copyuvm kend data d n);
  l_freevm d := on_kmem (freevm kend d);
  l_allocuvm d o n := r ← on_kmem (allocuvm kend d o n); mret (u32 r);
  l_deallocuvm d o n := r ← on_kmem (deallocuvm kend d o n); mret (u32 r);
  l_filedup f := filedup f;; mret tt;
  l_fileclose f := fileclose kend mypid f;
  l_idup ip := on_fs (idup (default NINODE ip));; mret tt;
  l_iput ip := on_fs (iput mypid (default NINODE ip));
  l_namei path := on_fs (namei mypid cwd dev_read (bytes_of path));
  l_begin_op := on_fs op_begin;
  l_end_op := on_fs (op_end mypid);
  l_iinit := on_fs (iinit mypid ROOTDEV);
  l_initlog := on_fs (disk (initlog mypid ROOTDEV)) |}.

(** [sysfile.c] on CPU [cpu]. *)
Definition world_files (cpu : nat) : FileCalls world := {|
  Syscall.sys_pipe := Sysfile.sys_pipe kend junk_page;
  Syscall.sys_read := Sysfile.sys_read dev_read;
  Syscall.sys_exec := sys_exec kend data dev_read cpu;
  Syscall.sys_fstat := Sysfile.sys_fstat;
  Syscall.sys_chdir := Sysfile.sys_chdir dev_read;
  Syscall.sys_dup := Sysfile.sys_dup;
  Syscall.sys_open := Sysfile.sys_open kend dev_read dev_write;
  Syscall.sys_write := Sysfile.sys_write dev_write;
  Syscall.sys_mknod := Sysfile.sys_mknod dev_read dev_write;
  Syscall.sys_unlink := Sysfile.sys_unlink dev_read dev_write;
  Syscall.sys_link := Sysfile.sys_link dev_read dev_write;
  Syscall.sys_mkdir := Sysfile.sys_mkdir dev_read dev_write;
  Syscall.sys_close := Sysfile.sys_close kend;
  Syscall.sys_move_file := Sysfile.sys_move_file dev_read dev_write |}.

End Kernel.
