(* ===== verification/Boot.v ===== *)
(** * The boot loader

    [bootmain.c]: the kernel's executable is read from the disk, sector 1 on, and
    its segments are put where their headers say.  Memory is physical memory; the
    disk is behind the controller of [Ide]. *)

From S2P Require Import Prelude Bytes Elf Locks Bio Ide.

Definition SECTSIZE : Z := 512.
Definition write_bytes (a : Z) (l : list Z) (m : pmem) : pmem :=
  λ x, if (a <=? x) && (x <? a + Z.of_nat (length l)) then nth (Z.to_nat (x - a)) l 0 else m x.

Section Loader.
Context {H : Type} `{Controller H}.
Definition boot : Type := pmem * H.

(** [waitdisk] ends when the controller is ready, and changes nothing. *)
Definition readsect (dst offset : Z) (s : boot) : boot :=
  let h := outb 0x1f2 1 (snd s) in
  let h := outb 0x1f3 offset h in
  let h := outb 0x1f4 (Z.shiftr offset 8) h in
  let h := outb 0x1f5 (Z.shiftr offset 16) h in
  let h := outb 0x1f6 (Z.lor (Z.shiftr offset 24) 0xe0) h in
  let h := outb 0x1f7 0x20 h in
  (write_bytes dst (insl h) (fst s), h).

Fixpoint readseg_loop (fuel : nat) (pa epa offset : Z) (s : boot) : option boot :=
  if pa <? epa then
    match fuel with
    | O => None
    | S fuel => readseg_loop fuel (u32 (pa + SECTSIZE)) epa (u32 (offset + 1)) (readsect pa offset s)
    end
  else Some s.
Definition readseg (pa count offset : Z) (s : boot) : option boot :=
  readseg_loop (Z.to_nat (count / SECTSIZE + 2)) (u32 (pa - offset mod SECTSIZE)) (u32 (pa + count)) (u32 (offset / SECTSIZE + 1)) s.

(** The loop over the program headers from [ph] to [eph]. *)
Fixpoint load (fuel : nat) (ph eph : Z) (s : boot) : option boot :=
  if ph <? eph then
    match fuel with
    | O => None
    | S fuel =>
        let h := read_bytes ph 32 (fst s) in
        let pa := ph_paddr h in
        match readseg pa (ph_filesz h) (ph_off h) s with
        | None => None
        | Some s =>
            let h := read_bytes ph 32 (fst s) in
            let s := if ph_filesz h <? ph_memsz h
                     then (write_bytes (u32 (pa + ph_filesz h)) (replicate (Z.to_nat (ph_memsz h - ph_filesz h)) 0) (fst s), snd s)
                     else s in
            load fuel (u32 (ph + sizeof_proghdr)) eph s
        end
    end
  else Some s.

Definition scratch : Z := 0x10000.
(** The address of the kernel's entry when it jumps there; [None] in the pair when it
    returns to [bootasm.S]. *)
Definition bootmain (s : boot) : option (option Z * boot) :=
  match readseg scratch 4096 0 s with
  | None => None
  | Some s =>
      let elf := read_bytes scratch 52 (fst s) in
      if negb (elf_magic elf =? ELF_MAGIC) then Some (None, s)
      else
        let ph := u32 (scratch + elf_phoff elf) in
        match load (Z.to_nat (elf_phnum elf)) ph (u32 (ph + sizeof_proghdr * elf_phnum elf)) s with
        | None => None
        | Some s => Some (Some (elf_entry (read_bytes scratch 52 (fst s))), s)
        end
  end.
End Loader.

(** ** Sectors *)

Section Correct.
Context {H : Type} `{HC : ControllerOk H}.

(** A sector address of 28 bits goes through the registers. *)
Lemma boot_bits n : 0 ≤ n < 268435456 →
  Z.lor (n mod 256) (Z.lor (Z.shiftl (Z.shiftr n 8 mod 256) 8) (Z.lor (Z.shiftl (Z.shiftr n 16 mod 256) 16)
    (Z.shiftl (Z.land (Z.lor (Z.shiftr n 24) 0xe0 mod 256) 0x0f) 24))) = n ∧
  Z.land (Z.shiftr (Z.lor (Z.shiftr n 24) 0xe0 mod 256) 4) 1 = 0.
Proof.
  intros Hn. rewrite !Z.shiftr_div_pow2 by lia. change (2 ^ 8) with 256. change (2 ^ 16) with 65536. change (2 ^ 24) with 16777216.
  assert (0 ≤ n / 16777216 < 16) as H3 by (split; [apply Z.div_pos; lia|apply Z.div_lt_upper_bound; lia]).
  assert (Z.lor (n / 16777216) 0xe0 mod 256 = n / 16777216 + 224) as ->.
  { change (Z.lor (n / 16777216) 224) with (Z.lor (n / 16777216) (Z.shiftl 7 5)). rewrite lor_shift by (change (2 ^ 5) with 32; lia). change (7 * 2 ^ 5) with 224. rewrite Z.mod_small; lia. }
  assert (Z.land (n / 16777216 + 224) 0x0f = n / 16777216) as ->.
  { change 0x0f with (Z.ones 4). rewrite Z.land_ones by lia. change (2 ^ 4) with 16. Z.to_euclidean_division_equations; lia. }
  assert (∀ b, Z.shiftl b 24 = Z.shiftl (Z.shiftl b 8) 16) as E24 by (intros b; by rewrite Z.shiftl_shiftl).
  assert (∀ b, Z.shiftl b 16 = Z.shiftl (Z.shiftl b 8) 8) as E16 by (intros b; by rewrite Z.shiftl_shiftl).
  split.
  - rewrite E24, <- Z.shiftl_lor, E16, <- Z.shiftl_lor.
    rewrite !lor_shift by (done || (change (2 ^ 8) with 256; apply Z.mod_pos_bound; lia)). change (2 ^ 8) with 256. Z.to_euclidean_division_equations; lia.
  - change (2 ^ 4) with 16.
    assert ((n / 16777216 + 224) / 16 = 14) as -> by (Z.to_euclidean_division_equations; lia). reflexivity.
Qed.

(** Byte [k] of the kernel's executable on the disk. *)
Definition kernel (h : H) (k : Z) : Z := nth (Z.to_nat (k mod 512)) (sector 0 (k / 512 + 1) h) 0.

Lemma readsect_ok dst n m h : 0 ≤ n < 268435456 →
  ∃ h', readsect dst n (m, h) = (write_bytes dst (sector 0 n h) m, h') ∧ ∀ d k, sector d k h' = sector d k h.
Proof.
  intros Hn. destruct (boot_bits n Hn) as [H1 H2]. unfold readsect. cbn [fst snd]. set (h5 := outb 0x1f6 _ _). eexists.
  assert (reg 0x1f2 h5 = 1 ∧ reg 0x1f3 h5 = n mod 256 ∧ reg 0x1f4 h5 = Z.shiftr n 8 mod 256 ∧ reg 0x1f5 h5 = Z.shiftr n 16 mod 256 ∧
    reg 0x1f6 h5 = Z.lor (Z.shiftr n 24) 0xe0 mod 256) as (R2 & R3 & R4 & R5 & R6).
  { unfold h5. repeat split; repeat (rewrite ok_reg by lia; cbn [Z.eqb Pos.eqb]); done. }
  assert (∀ d k, sector d k h5 = sector d k h) as Hs by (intros d k; unfold h5; by rewrite !ok_sector_out by done).
  change 0x20 with IDE_CMD_READ. rewrite (ok_read h5 R2), Hs. unfold lba, drive. rewrite R3, R4, R5, R6, H1, H2.
  split; [reflexivity|]. intros d k. by rewrite ok_read_keeps, Hs.
Qed.

(** The sectors that cover the addresses from [pa] to [epa]. *)
Definition rounds (pa epa : Z) : Z := if pa <? epa then (epa - pa + 511) / 512 else 0.

Lemma readseg_loop_ok fuel : ∀ pa epa o m h,
  (∀ n, length (sector 0 n h) = 512%nat) → 0 ≤ pa → 0 ≤ epa < 4294966784 → 0 ≤ o → o + rounds pa epa < 268435456 →
  epa - pa ≤ 512 * Z.of_nat fuel →
  ∃ m' h', readseg_loop fuel pa epa o (m, h) = Some (m', h') ∧ (∀ d n, sector d n h' = sector d n h) ∧
    ∀ x, m' x = if (pa <=? x) && (x <? pa + 512 * rounds pa epa) then nth (Z.to_nat ((x - pa) mod 512)) (sector 0 (o + (x - pa) / 512) h) 0 else m x.
Proof.
  induction fuel as [|fuel IH]; intros pa epa o m h Hlen Hpa He Ho Hr Hf; cbn [readseg_loop]; unfold rounds in *; destruct (Z.ltb_spec pa epa) as [Hlt|Hge]; try lia;
    try (exists m, h; split; [done|]; split; [done|]; intros x; rewrite Z.mul_0_r, Z.add_0_r; destruct (Z.leb_spec pa x), (Z.ltb_spec x pa); lia || done).
  destruct (readsect_ok pa o m h) as (h1 & E & Hs1); [split; [lia|]; Z.to_euclidean_division_equations; lia|]. rewrite E.
  change SECTSIZE with 512. rewrite !u32_small by (Z.to_euclidean_division_equations; lia).
  destruct (IH (pa + 512) epa (o + 1) (write_bytes pa (sector 0 o h) m) h1) as (m' & h' & E' & Hs' & Hm'); try lia.
  { intros n. by rewrite Hs1. }
  { destruct (Z.ltb_spec (pa + 512) epa); Z.to_euclidean_division_equations; lia. }
  exists m', h'. split; [done|]. split; [intros d n; by rewrite Hs', Hs1|]. intros x. rewrite Hm', Hs1. unfold write_bytes. rewrite Hlen. change (Z.of_nat 512) with 512.
  set (r := if pa + 512 <? epa then _ else 0). assert ((epa - pa + 511) / 512 = r + 1) as ->.
  { unfold r. destruct (Z.ltb_spec (pa + 512) epa); Z.to_euclidean_division_equations; lia. }
  assert (0 ≤ r) by (unfold r; destruct (Z.ltb_spec (pa + 512) epa); Z.to_euclidean_division_equations; lia).
  destruct (Z.leb_spec (pa + 512) x); cbn [andb].
  - rewrite (proj2 (Z.leb_le pa x)), (proj2 (Z.ltb_ge x (pa + 512))) by lia. cbn [andb]. replace (x - pa) with (x - (pa + 512) + 1 * 512) by lia.
    rewrite Z_mod_plus, Z_div_plus by lia. replace (pa + 512 * (r + 1)) with (pa + 512 + 512 * r) by lia.
    destruct (x <? pa + 512 + 512 * r); [|done]. do 2 f_equal. lia.
  - rewrite (proj2 (Z.ltb_lt x (pa + 512))), (proj2 (Z.ltb_lt x (pa + 512 * (r + 1)))) by lia. destruct (Z.leb_spec pa x); cbn [andb]; [|done].
    rewrite Z.mod_small, Z.div_small, Z.add_0_r by lia. done.
Qed.

(** What [readseg] stores: whole sectors of the executable. *)
Definition seg_lo (pa off : Z) : Z := pa - off mod 512.
Definition seg_hi (pa count off : Z) : Z := seg_lo pa off + 512 * rounds (seg_lo pa off) (pa + count).

Lemma readseg_ok pa count off m h :
  (∀ n, length (sector 0 n h) = 512%nat) → off mod 512 ≤ pa → 0 ≤ count → 0 ≤ off → pa + count < 4294966784 → (off + count) / 512 + 2 < 268435456 →
  ∃ m' h', readseg pa count off (m, h) = Some (m', h') ∧ (∀ d n, sector d n h' = sector d n h) ∧
    ∀ x, m' x = if (seg_lo pa off <=? x) && (x <? seg_hi pa count off) then kernel h (off + (x - pa)) else m x.
Proof.
  intros Hlen Hpa Hc Ho He Hs. unfold readseg. change SECTSIZE with 512. pose proof (Z.mod_pos_bound off 512 ltac:(lia)) as Hm.
  rewrite !u32_small by (Z.to_euclidean_division_equations; lia). fold (seg_lo pa off).
  destruct (readseg_loop_ok (Z.to_nat (count / 512 + 2)) (seg_lo pa off) (pa + count) (off / 512 + 1) m h Hlen) as (m' & h' & E & Hs' & Hm').
  - unfold seg_lo. lia.
  - lia.
  - Z.to_euclidean_division_equations; lia.
  - unfold rounds, seg_lo. destruct (_ <? _); Z.to_euclidean_division_equations; lia.
  - unfold seg_lo. Z.to_euclidean_division_equations; lia.
  - exists m', h'. split; [done|]. split; [done|]. intros x. rewrite Hm'. fold (seg_hi pa count off). destruct (Z.leb_spec (seg_lo pa off) x); cbn [andb]; [|done].
    destruct (x <? seg_hi pa count off); [|done]. unfold kernel, seg_lo in *.
    replace (off + (x - pa)) with (x - (pa - off mod 512) + off / 512 * 512) by (Z.to_euclidean_division_equations; lia).
    rewrite Z_mod_plus, Z_div_plus by lia. do 2 f_equal. lia.
Qed.
(** ** The kernel in memory *)

(** The ELF header and program header [i] of the kernel's executable. *)
Definition elf_header (h : H) : list Z := read_bytes 0 52 (kernel h).
Definition prog_header (h : H) (i : nat) : list Z := read_bytes (elf_phoff (elf_header h) + 32 * Z.of_nat i) 32 (kernel h).

(** The segment of header [p] is in memory: its bytes of the file, and zeros after them. *)
Definition loaded (h : H) (p : list Z) (m : pmem) : Prop :=
  ∀ k, 0 ≤ k < ph_memsz p → m (ph_paddr p + k) = if k <? ph_filesz p then kernel h (ph_off p + k) else 0.

(** Its sectors go above the page the headers are read to, within the disk and the address space. *)
Definition placed (p : list Z) : Prop :=
  scratch + 4096 ≤ seg_lo (ph_paddr p) (ph_off p) ∧ ph_filesz p ≤ ph_memsz p ∧ ph_paddr p + ph_memsz p < 4294966784 ∧
  (ph_off p + ph_filesz p) / 512 + 2 < 268435456.

(** The disk's sectors are sectors. *)
Definition formatted (h : H) : Prop := ∀ n, length (sector 0 n h) = 512%nat ∧ bytes (sector 0 n h).

Lemma kernel_range h k : formatted h → 0 ≤ kernel h k < 256.
Proof. intros Hf. apply (get8_range (sector 0 (k / 512 + 1) h)), Hf. Qed.
Lemma kernel_same h h' : (∀ d n, sector d n h' = sector d n h) → ∀ k, kernel h' k = kernel h k.
Proof. intros E k. unfold kernel. by rewrite E. Qed.
Lemma bytes_read h a n : formatted h → bytes (read_bytes a n (kernel h)).
Proof. intros Hf. apply Forall_map, Forall_true. intros j. by apply kernel_range. Qed.

Lemma seg_hi_le pa count off : 0 ≤ count → 0 ≤ off → pa + count ≤ seg_hi pa count off ∨ count = 0.
Proof.
  intros Hc Ho. unfold seg_hi, rounds, seg_lo. destruct (Z.ltb_spec (pa - off mod 512) (pa + count)); Z.to_euclidean_division_equations; lia.
Qed.

(** One round of the loop: the segment is loaded, and nothing below it changes. *)
Lemma load_step fuel ph eph p m h :
  formatted h → bytes p → placed p → read_bytes ph 32 m = p → scratch ≤ ph → ph + 32 ≤ scratch + 4096 → ph < eph →
  ∃ m' h', load (S fuel) ph eph (m, h) = load fuel (ph + 32) eph (m', h') ∧ (∀ d n, sector d n h' = sector d n h) ∧
    loaded h p m' ∧ ∀ x, x < seg_lo (ph_paddr p) (ph_off p) → m' x = m x.
Proof.
  intros Hf Hb (Hlo & Hsz & Hhi & Hd) Hp H1 H2 Hlt. pose proof (get32_range p 4 Hb) as Ro. pose proof (get32_range p 12 Hb) as Rp. pose proof (get32_range p 16 Hb) as Rf.
  fold (ph_off p) in Ro. fold (ph_paddr p) in Rp. fold (ph_filesz p) in Rf. unfold scratch in *.
  destruct (readseg_ok (ph_paddr p) (ph_filesz p) (ph_off p) m h) as (m1 & h1 & E & Hs & Hm1); try lia; [intros n; apply Hf|unfold seg_lo in Hlo; lia|].
  cbn [load]. rewrite (proj2 (Z.ltb_lt ph eph)) by done. cbn [fst]. rewrite Hp, E. cbn [fst snd].
  assert (read_bytes ph 32 m1 = p) as ->.
  { rewrite <- Hp. apply read_bytes_ext. intros j Hj. rewrite Hm1. destruct (Z.leb_spec (seg_lo (ph_paddr p) (ph_off p)) (ph + j)); [lia|done]. }
  change sizeof_proghdr with 32. rewrite !u32_small by lia.
  set (m2 := if ph_filesz p <? ph_memsz p then write_bytes (ph_paddr p + ph_filesz p) (replicate (Z.to_nat (ph_memsz p - ph_filesz p)) 0) m1 else m1).
  exists m2, h1. split; [unfold m2; by destruct (_ <? _)|]. split; [done|].
  assert (∀ x, m2 x = if (ph_paddr p + ph_filesz p <=? x) && (x <? ph_paddr p + ph_memsz p) then 0 else m1 x) as Hm2.
  { intros x. unfold m2. destruct (Z.ltb_spec (ph_filesz p) (ph_memsz p)).
    - unfold write_bytes. rewrite length_replicate, Z2Nat.id by lia. replace (ph_paddr p + ph_filesz p + (ph_memsz p - ph_filesz p)) with (ph_paddr p + ph_memsz p) by lia.
      destruct (_ && _); [|done]. rewrite nth_lookup. by destruct (_ !! _) eqn:El; [apply lookup_replicate in El as [-> _]|].
    - destruct (Z.leb_spec (ph_paddr p + ph_filesz p) x), (Z.ltb_spec x (ph_paddr p + ph_memsz p)); lia || done. }
  pose proof (Z.mod_pos_bound (ph_off p) 512 ltac:(lia)) as Hmod. split.
  - intros k Hk. rewrite Hm2, Hm1. destruct (Z.ltb_spec k (ph_filesz p)).
    + rewrite (proj2 (Z.leb_gt _ (ph_paddr p + k))) by lia. cbn [andb].
      destruct (seg_hi_le (ph_paddr p) (ph_filesz p) (ph_off p)); [lia..| |lia].
      rewrite (proj2 (Z.leb_le _ (ph_paddr p + k))), (proj2 (Z.ltb_lt (ph_paddr p + k) _)) by (unfold seg_lo in *; lia). cbn [andb]. f_equal. lia.
    + rewrite (proj2 (Z.leb_le _ (ph_paddr p + k))), (proj2 (Z.ltb_lt (ph_paddr p + k) (ph_paddr p + ph_memsz p))) by lia. done.
  - intros x Hx. rewrite Hm2, Hm1. unfold seg_lo in Hx. rewrite (proj2 (Z.leb_gt _ x)) by lia. cbn [andb]. unfold seg_lo. rewrite (proj2 (Z.leb_gt _ x)) by lia. done.
Qed.
(** The kernel's executable: a magic number, headers in its first page, and segments in increasing order. *)
Record bootable (h : H) : Prop := {
  boot_formatted : formatted h;
  boot_magic : elf_magic (elf_header h) = ELF_MAGIC;
  boot_headers : elf_phoff (elf_header h) + 32 * elf_phnum (elf_header h) ≤ 4096;
  boot_placed : ∀ i, Z.of_nat i < elf_phnum (elf_header h) → placed (prog_header h i);
  boot_order : ∀ i j, (i < j)%nat → Z.of_nat j < elf_phnum (elf_header h) →
    ph_paddr (prog_header h i) + ph_memsz (prog_header h i) ≤ seg_lo (ph_paddr (prog_header h j)) (ph_off (prog_header h j)) }.

(** The first page of the executable is in the scratch space. *)
Definition first_page (h : H) (m : pmem) : Prop := ∀ x, 0 ≤ x < 4096 → m (scratch + x) = kernel h x.

Lemma load_ok h : bootable h → ∀ n i m h1,
  Z.of_nat (i + n) = elf_phnum (elf_header h) → (∀ d k, sector d k h1 = sector d k h) → first_page h m → (∀ j, (j < i)%nat → loaded h (prog_header h j) m) →
  ∃ m' h', load n (scratch + elf_phoff (elf_header h) + 32 * Z.of_nat i) (scratch + elf_phoff (elf_header h) + 32 * elf_phnum (elf_header h)) (m, h1) = Some (m', h') ∧
    first_page h m' ∧ ∀ j, (j < i + n)%nat → loaded h (prog_header h j) m'.
Proof.
  intros [Hf Hg Hh Hp Ho]. pose proof (get32_range (elf_header h) 28 (bytes_read h 0 52 Hf)) as Rp. fold (elf_phoff (elf_header h)) in Rp.
  induction n as [|n IH]; intros i m h1 Hi Hs Hm Hl.
  - exists m, h1. cbn [load]. rewrite (proj2 (Z.ltb_ge _ _)) by lia. rewrite Nat.add_0_r. done.
  - assert (formatted h1) as Hf1 by (intros k; rewrite Hs; apply Hf).
    destruct (load_step n (scratch + elf_phoff (elf_header h) + 32 * Z.of_nat i) (scratch + elf_phoff (elf_header h) + 32 * elf_phnum (elf_header h)) (prog_header h i) m h1)
      as (m1 & h2 & E & Hs2 & Hl1 & Hm1); try lia; [done|by apply bytes_read|apply Hp; lia| |].
    { apply read_bytes_ext. intros j Hj. rewrite <- !Z.add_assoc. rewrite Hm by lia. done. }
    rewrite E. replace (scratch + elf_phoff (elf_header h) + 32 * Z.of_nat i + 32) with (scratch + elf_phoff (elf_header h) + 32 * Z.of_nat (S i)) by lia.
    destruct (Hp i ltac:(lia)) as (Hlo & _). destruct (IH (S i) m1 h2) as (m' & h' & E' & Hpg & Hl').
    + lia.
    + intros d k. by rewrite Hs2, Hs.
    + intros x Hx. rewrite Hm1 by lia. by apply Hm.
    + intros j Hj. destruct (decide (j = i)) as [->|]; [intros k Hk; rewrite (Hl1 k Hk); by rewrite (kernel_same h h1)|].
      intros k Hk. specialize (Ho j i ltac:(lia) ltac:(lia)). rewrite Hm1 by lia. apply Hl; [lia|done].
    + exists m', h'. split; [done|]. split; [done|]. intros j Hj. apply Hl'. lia.
Qed.

(** C33: for a bootable disk the boot loader jumps to the kernel's entry point with every
    segment of its executable where its program header says: the bytes of the file, and zeros
    up to the size in memory. *)
Theorem bootmain_loads h m : bootable h →
  ∃ m' h', bootmain (m, h) = Some (Some (elf_entry (elf_header h)), (m', h')) ∧
    ∀ i, Z.of_nat i < elf_phnum (elf_header h) → loaded h (prog_header h i) m'.
Proof.
  intros Hb. destruct (Hb) as [Hf Hg Hh _ _]. pose proof (bytes_read h 0 52 Hf) as Hby. fold (elf_header h) in Hby.
  pose proof (get32_range (elf_header h) 28 Hby) as Rp. fold (elf_phoff (elf_header h)) in Rp.
  assert (0 ≤ elf_phnum (elf_header h)) as Rn by (pose proof (get8_range (elf_header h) 44 Hby); pose proof (get8_range (elf_header h) 45 Hby); unfold elf_phnum, get16; cbn [Nat.add]; lia).
  destruct (readseg_ok scratch 4096 0 m h) as (m1 & h1 & E & Hs & Hm); [intros n; apply Hf|by vm_compute..|].
  assert (first_page h m1) as Hpg.
  { intros x Hx. rewrite Hm. change (seg_lo scratch 0) with scratch. change (seg_hi scratch 4096 0) with (scratch + 4096).
    rewrite (proj2 (Z.leb_le _ (scratch + x))), (proj2 (Z.ltb_lt _ (scratch + 4096))) by lia. cbn [andb]. f_equal. lia. }
  assert (∀ m, first_page h m → read_bytes scratch 52 m = elf_header h) as Hel by (intros m0 Hm0; apply read_bytes_ext; intros j Hj; apply Hm0; lia).
  destruct (load_ok h Hb (Z.to_nat (elf_phnum (elf_header h))) 0 m1 h1) as (m' & h' & E' & Hpg' & Hl); [lia|done|done|lia|].
  exists m', h'. unfold bootmain. rewrite E. cbn [fst]. rewrite (Hel _ Hpg), Hg, Z.eqb_refl. cbn [negb]. change sizeof_proghdr with 32.
  rewrite !u32_small by (unfold scratch; lia). rewrite Z.mul_0_r, Z.add_0_r in E'. rewrite E'. cbn [fst]. rewrite (Hel _ Hpg').
  split; [done|]. intros i Hi. apply Hl. lia.
Qed.
End Correct.

(** ** A kernel of two segments *)

Module SampleBoot.
Import SampleIde.
Definition seg_header (off paddr filesz memsz : Z) (k : nat) (l : list Z) : list Z :=
  put32 (k + 20) memsz (put32 (k + 16) filesz (put32 (k + 12) paddr (put32 (k + 4) off l))).
(** Headers in the first sector; one byte 0x90 of text at 1 Mbyte from the second; then data with zeros after it. *)
Definition headers : list Z :=
  seg_header 1040 0x101010 1 100 84 (seg_header 512 0x100000 1 1 52
    (put16 44 2 (put32 28 52 (put32 24 0x10000c (put32 0 ELF_MAGIC (replicate 512 0)))))).
Definition text : list Z := put8 0 0x90 (replicate 512 0).
Definition data : list Z := put8 16 7 (replicate 512 0).
Definition disk : hw := Hw ∅ {[ (0, 1) := headers; (0, 2) := text; (0, 3) := data ]} (replicate 512 0).

Lemma disk_formatted : formatted disk.
Proof.
  assert (∀ l, bool_decide (length l = 512%nat ∧ bytes l) = true → length l = 512%nat ∧ bytes l) as Hd by (intros l; apply bool_decide_eq_true_1).
  intros n. destruct (decide (n = 1)) as [->|]; [apply Hd; vm_compute; reflexivity|]. destruct (decide (n = 2)) as [->|]; [apply Hd; vm_compute; reflexivity|].
  destruct (decide (n = 3)) as [->|]; [apply Hd; vm_compute; reflexivity|].
  cbn. unfold hsector, disk. cbn [hsec]. rewrite !lookup_insert_ne, lookup_singleton_ne by congruence. apply Hd. vm_compute. reflexivity.
Qed.

Lemma disk_bootable : bootable disk.
Proof.
  assert (elf_phnum (elf_header disk) = 2) as En by (vm_compute; reflexivity). split.
  - apply disk_formatted.
  - vm_compute. reflexivity.
  - vm_compute. discriminate.
  - rewrite En. intros [|[|i]] Hi; [..|lia]; (split; [vm_compute; discriminate|]; split; [vm_compute; discriminate|]; split; vm_compute; reflexivity).
  - rewrite En. intros [|i] [|[|j]] Hij Hj; try lia. vm_compute. discriminate.
Qed.

Lemma bootmain_loads_witness : ∃ m' h', bootmain (λ _, 0, disk) = Some (Some 0x10000c, (m', h')) ∧ m' 0x100000 = 0x90 ∧ m' 0x101010 = 7 ∧ m' 0x101011 = 0.
Proof.
  destruct (bootmain_loads disk (λ _, 0) disk_bootable) as (m' & h' & E & Hl). exists m', h'.
  split; [exact E|]. split; [exact (Hl 0%nat eq_refl 0 ltac:(split; [discriminate|reflexivity]))|].
  split; [exact (Hl 1%nat eq_refl 0 ltac:(split; [discriminate|reflexivity]))|exact (Hl 1%nat eq_refl 1 ltac:(split; [discriminate|reflexivity]))].
Defined.
End SampleBoot.
