(* ===== verification/Apic.v ===== *)
(** * Interrupt controllers, the clock and the serial port

    [lapic.c], [ioapic.c], [picirq.c] and [uart.c].  The devices are behind a
    bus: the registers of the local APIC and of the I/O APIC, the ports, and words
    of memory that the BIOS and other processors read.  What the drivers rely on is stated per
    device, as laws of the bus. *)

From S2P Require Import Prelude Mem Bytes Ulib Trap.

(** A register of the local APIC by its index, the two words of the I/O APIC, a
    port, and 8, 16 and 32 bits of memory that another processor or the BIOS reads. *)
Inductive io := Lapic (i : Z) | Ireg | Idata | Port (p : Z) | Byte (a : Z) | Word (a : Z) | Long (a : Z).
Class Bus (D : Type) := { rd : io → D → Z * D; wr : io → Z → D → D }.

(** ** Registers *)

Definition ID : Z := 0x20 / 4.
Definition VER : Z := 0x30 / 4.
Definition TPR : Z := 0x80 / 4.
Definition EOI : Z := 0xb0 / 4.
Definition SVR : Z := 0xf0 / 4.
Definition ENABLE : Z := 0x100.
Definition ESR : Z := 0x280 / 4.
Definition ICRLO : Z := 0x300 / 4.
Definition INIT : Z := 0x500.
Definition STARTUP : Z := 0x600.
Definition DELIVS : Z := 0x1000.
Definition ASSERT : Z := 0x4000.
Definition LEVEL : Z := 0x8000.
Definition BCAST : Z := 0x80000.
Definition ICRHI : Z := 0x310 / 4.
Definition TIMER : Z := 0x320 / 4.
Definition X1 : Z := 0xb.
Definition PERIODIC : Z := 0x20000.
Definition PCINT : Z := 0x340 / 4.
Definition LINT0 : Z := 0x350 / 4.
Definition LINT1 : Z := 0x360 / 4.
Definition ERROR : Z := 0x370 / 4.
Definition MASKED : Z := 0x10000.
Definition TICR : Z := 0x380 / 4.
Definition TDCR : Z := 0x3e0 / 4.
Definition IRQ_ERROR : Z := 19.

Section Drivers.
Context {D : Type} `{Bus D}.

Definition inb (p : Z) (d : D) : Z * D := let '(v, d) := rd (Port p) d in (u8 v, d).
Definition outb_ (p v : Z) (d : D) : D := wr (Port p) (u8 v) d.

(** ** The local APIC; [lapic] is its address, 0 before [mpinit] *)

Definition lapicw (index value : Z) (d : D) : D := snd (rd (Lapic ID) (wr (Lapic index) (u32 value) d)).

(** [while(lapic[ICRLO] & DELIVS)]. *)
Fixpoint delivered (fuel : nat) (d : D) : option D :=
  match fuel with
  | O => None
  | S fuel => let '(v, d) := rd (Lapic ICRLO) d in if negb (Z.land v DELIVS =? 0) then delivered fuel d else Some d
  end.

Definition lapicinit (fuel : nat) (lapic : Z) (d : D) : option D :=
  if lapic =? 0 then Some d
  else
    let d := lapicw SVR (Z.lor ENABLE (T_IRQ0 + IRQ_SPURIOUS)) d in
    let d := lapicw TDCR X1 d in
    let d := lapicw TIMER (Z.lor PERIODIC (T_IRQ0 + IRQ_TIMER)) d in
    let d := lapicw TICR 10000000 d in
    let d := lapicw LINT0 MASKED d in
    let d := lapicw LINT1 MASKED d in
    let '(v, d) := rd (Lapic VER) d in
    let d := if 4 <=? Z.land (Z.shiftr v 16) 0xff then lapicw PCINT MASKED d else d in
    let d := lapicw ERROR (T_IRQ0 + IRQ_ERROR) d in
    let d := lapicw ESR 0 d in
    let d := lapicw ESR 0 d in
    let d := lapicw EOI 0 d in
    let d := lapicw ICRHI 0 d in
    let d := lapicw ICRLO (Z.lor BCAST (Z.lor INIT LEVEL)) d in
    match delivered fuel d with
    | None => None
    | Some d => Some (lapicw TPR 0 d)
    end.

Definition lapicid (lapic : Z) (d : D) : Z * D :=
  if lapic =? 0 then (0, d) else let '(v, d) := rd (Lapic ID) d in (Z.shiftr v 24, d).

Definition lapiceoi (lapic : Z) (d : D) : D := if lapic =? 0 then d else lapicw EOI 0 d.

Definition CMOS_PORT : Z := 0x70.
Definition CMOS_RETURN : Z := 0x71.

(** The two turns of its loop are written out; [microdelay] is empty. *)
Definition lapicstartap (apicid addr : Z) (d : D) : D :=
  let d := outb_ CMOS_PORT 0xf d in
  let d := outb_ (CMOS_PORT + 1) 0x0a d in
  let wrv := P2V (Z.lor (Z.shiftl 0x40 4) 0x67) in
  let d := wr (Word wrv) 0 d in
  let d := wr (Word (wrv + 2)) (Z.shiftr addr 4 mod 65536) d in
  let d := lapicw ICRHI (Z.shiftl apicid 24) d in
  let d := lapicw ICRLO (Z.lor INIT (Z.lor LEVEL ASSERT)) d in
  let d := lapicw ICRLO (Z.lor INIT LEVEL) d in
  let d := lapicw ICRHI (Z.shiftl apicid 24) d in
  let d := lapicw ICRLO (Z.lor STARTUP (Z.shiftr addr 12)) d in
  let d := lapicw ICRHI (Z.shiftl apicid 24) d in
  lapicw ICRLO (Z.lor STARTUP (Z.shiftr addr 12)) d.

(** ** The clock *)

Definition CMOS_STATA : Z := 0x0a.
Definition CMOS_STATB : Z := 0x0b.
Definition CMOS_UIP : Z := Z.shiftl 1 7.
Definition SECS : Z := 0x00.
Definition MINS : Z := 0x02.
Definition HOURS : Z := 0x04.
Definition DAY : Z := 0x07.
Definition MONTH : Z := 0x08.
Definition YEAR : Z := 0x09.

Record rtcdate := Rtc { second : Z; minute : Z; hour : Z; day : Z; month : Z; year : Z }.
#[export] Instance rtcdate_eq : EqDecision rtcdate.
Proof. solve_decision. Defined.

Definition cmos_read (reg : Z) (d : D) : Z * D := inb CMOS_RETURN (outb_ CMOS_PORT reg d).

Definition fill_rtcdate (d : D) : rtcdate * D :=
  let '(s, d) := cmos_read SECS d in
  let '(mi, d) := cmos_read MINS d in
  let '(h, d) := cmos_read HOURS d in
  let '(da, d) := cmos_read DAY d in
  let '(mo, d) := cmos_read MONTH d in
  let '(y, d) := cmos_read YEAR d in
  (Rtc s mi h da mo y, d).

(** One turn of the loop of [cmostime]: the date when the two readings agree. *)
Definition cmos_round (d : D) : option rtcdate * D :=
  let '(t1, d) := fill_rtcdate d in
  let '(a, d) := cmos_read CMOS_STATA d in
  if negb (Z.land a CMOS_UIP =? 0) then (None, d)
  else
    let '(t2, d) := fill_rtcdate d in
    (if bool_decide (t1 = t2) then Some t1 else None, d).
Fixpoint cmos_loop (fuel : nat) (d : D) : option (rtcdate * D) :=
  match fuel with
  | O => None
  | S fuel => match cmos_round d with (Some t, d) => Some (t, d) | (None, d) => cmos_loop fuel d end
  end.

Definition CONV (x : Z) : Z := u32 (Z.shiftr x 4 * 10 + Z.land x 0xf).
Definition cmostime (fuel : nat) (d : D) : option (rtcdate * D) :=
  let '(sb, d) := cmos_read CMOS_STATB d in
  let bcd := Z.land sb (Z.shiftl 1 2) =? 0 in
  match cmos_loop fuel d with
  | None => None
  | Some (t, d) =>
      let t := if bcd then Rtc (CONV (second t)) (CONV (minute t)) (CONV (hour t)) (CONV (day t)) (CONV (month t)) (CONV (year t)) else t in
      Some (Rtc (second t) (minute t) (hour t) (day t) (month t) (u32 (year t + 2000)), d)
  end.

(** ** The I/O APIC and the old controllers *)

Definition REG_ID : Z := 0x00.
Definition REG_VER : Z := 0x01.
Definition REG_TABLE : Z := 0x10.
Definition INT_DISABLED : Z := 0x10000.

Definition ioapicread (reg : Z) (d : D) : Z * D := rd Idata (wr Ireg reg d).
Definition ioapicwrite (reg data : Z) (d : D) : D := wr Idata (u32 data) (wr Ireg reg d).

(** The loop of [ioapicinit] from [i] on, with [n] turns left. *)
Fixpoint mask_all (n : nat) (i : Z) (d : D) : D :=
  match n with
  | O => d
  | S n => mask_all n (i + 1) (ioapicwrite (REG_TABLE + 2 * i + 1) 0 (ioapicwrite (REG_TABLE + 2 * i) (Z.lor INT_DISABLED (T_IRQ0 + i)) d))
  end.
(** What it prints, and the device. *)
Definition ioapicinit (ioapicid : Z) (d : D) : list Z * D :=
  let '(v, d) := ioapicread REG_VER d in
  let maxintr := Z.land (Z.shiftr v 16) 0xff in
  let '(v, d) := ioapicread REG_ID d in
  let id := Z.shiftr v 24 in
  (if negb (id =? ioapicid) then lit "ioapicinit: id isn't equal to ioapicid; not a MP" ++ [10] else [],
   mask_all (Z.to_nat (maxintr + 1)) 0 d).
Definition ioapicenable (irq cpunum : Z) (d : D) : D :=
  ioapicwrite (REG_TABLE + 2 * irq + 1) (Z.shiftl cpunum 24) (ioapicwrite (REG_TABLE + 2 * irq) (T_IRQ0 + irq) d).

Definition picinit (d : D) : D := outb_ (0xa0 + 1) 0xff (outb_ (0x20 + 1) 0xff d).

(** ** The serial port *)

Definition COM1 : Z := 0x3f8.

(** [uartputc], with the tries left: it waits for the port to be ready, at most 128 times, and sends. *)
Fixpoint uart_wait (n : nat) (d : D) : D :=
  match n with
  | O => d
  | S n => let '(v, d) := inb (COM1 + 5) d in if Z.land v 0x20 =? 0 then uart_wait n d else d
  end.
Definition uartputc (uart : bool) (c : Z) (d : D) : D := if uart then outb_ COM1 c (uart_wait 128 d) else d.

Definition uartgetc (uart : bool) (d : D) : Z * D :=
  if uart then
    let '(v, d) := inb (COM1 + 5) d in
    if Z.land v 0x01 =? 0 then (-1, d) else inb COM1 d
  else (-1, d).

(** Whether there is a port, and the device. *)
Definition uartinit (d : D) : bool * D :=
  let d := outb_ (COM1 + 2) 0 d in
  let d := outb_ (COM1 + 3) 0x80 d in
  let d := outb_ COM1 (115200 / 9600) d in
  let d := outb_ (COM1 + 1) 0 d in
  let d := outb_ (COM1 + 3) 0x03 d in
  let d := outb_ (COM1 + 4) 0 d in
  let d := outb_ (COM1 + 1) 0x01 d in
  let '(v, d) := inb (COM1 + 5) d in
  if v =? 0xff then (false, d)
  else
    let d := snd (inb (COM1 + 2) d) in
    let d := snd (inb COM1 d) in
    let d := ioapicenable IRQ_COM1 0 d in
    (true, foldl (λ d c, uartputc true c d) d (lit "xv6..." ++ [10])).
End Drivers.

(** ** The clock gives the date of one instant *)

(** A clock: the register selected, the second it is in, the date of each second, and its encoding. *)
Class Clock (D : Type) := { rtc_sel : D → Z; rtc_now : D → Z; rtc_uip : D → bool; rtc_date : Z → rtcdate; rtc_bcd : bool }.
Definition bcd_of (n : Z) : Z := 16 * (n / 10) + n mod 10.
Definition enc {D} `{Clock D} (n : Z) : Z := if rtc_bcd then bcd_of n else n.
(** The date register [r] shows. *)
Definition field (r : Z) (t : rtcdate) : Z :=
  if r =? SECS then second t else if r =? MINS then minute t else if r =? HOURS then hour t
  else if r =? DAY then day t else if r =? MONTH then month t else year t.
Definition date_reg (r : Z) : Prop := r = SECS ∨ r = MINS ∨ r = HOURS ∨ r = DAY ∨ r = MONTH ∨ r = YEAR.

(** An access takes less than a second, and a register shows its part of the date of the current one. *)
Class ClockOk (D : Type) `{Bus D} `{Clock D} : Prop := {
  rtc_select v d : 0 ≤ v < 128 → rtc_sel (wr (Port CMOS_PORT) v d) = v;
  rtc_wr v d : rtc_now d ≤ rtc_now (wr (Port CMOS_PORT) v d) ≤ rtc_now d + 1;
  rtc_rd d : rtc_now d ≤ rtc_now (snd (rd (Port CMOS_RETURN) d)) ≤ rtc_now d + 1;
  rtc_field d : date_reg (rtc_sel d) → fst (rd (Port CMOS_RETURN) d) = enc (field (rtc_sel d) (rtc_date (rtc_now d)));
  rtc_stata d : rtc_sel d = CMOS_STATA → negb (Z.land (u8 (fst (rd (Port CMOS_RETURN) d))) CMOS_UIP =? 0) = rtc_uip d;
  rtc_statb d : rtc_sel d = CMOS_STATB → (Z.land (u8 (fst (rd (Port CMOS_RETURN) d))) (Z.shiftl 1 2) =? 0) = rtc_bcd;
  rtc_seconds t : second (rtc_date t) = t mod 60;
  rtc_range r t : 0 ≤ field r (rtc_date t) < 100 }.

Section Clocks.
Context {D : Type} `{HC : ClockOk D}.

Lemma enc_range n : 0 ≤ n < 100 → 0 ≤ enc n < 256.
Proof. unfold enc, bcd_of. destruct rtc_bcd; Z.to_euclidean_division_equations; lia. Qed.
Lemma enc_inj n k : 0 ≤ n < 100 → 0 ≤ k < 100 → enc n = enc k → n = k.
Proof. unfold enc, bcd_of. destruct rtc_bcd; Z.to_euclidean_division_equations; lia. Qed.
Lemma CONV_bcd n : 0 ≤ n < 100 → CONV (bcd_of n) = n.
Proof.
  intros Hn. unfold CONV, bcd_of. rewrite Z.shiftr_div_pow2 by lia. change 0xf with (Z.ones 4). rewrite Z.land_ones by lia. change (2 ^ 4) with 16.
  rewrite u32_small; Z.to_euclidean_division_equations; lia.
Qed.

(** A date as the registers encode it. *)
Definition enc_date (t : rtcdate) : rtcdate := Rtc (enc (second t)) (enc (minute t)) (enc (hour t)) (enc (day t)) (enc (month t)) (enc (year t)).

Lemma cmos_read_ok r d : date_reg r → ∃ τ,
  fst (cmos_read r d) = enc (field r (rtc_date τ)) ∧ rtc_now d ≤ τ ∧ τ ≤ rtc_now (snd (cmos_read r d)) ∧ rtc_now (snd (cmos_read r d)) ≤ rtc_now d + 2.
Proof.
  intros Hr. assert (0 ≤ r < 128) as Hb by (unfold date_reg, SECS, MINS, HOURS, DAY, MONTH, YEAR in Hr; lia).
  unfold cmos_read, inb, outb_, u8. rewrite (Z.mod_small r) by lia. set (d1 := wr (Port CMOS_PORT) r d).
  pose proof (rtc_wr r d) as Hw. fold d1 in Hw. pose proof (rtc_rd d1) as Hrd. pose proof (rtc_select r d Hb) as Hs. fold d1 in Hs.
  pose proof (rtc_field d1) as Hf. rewrite Hs in Hf. specialize (Hf Hr). destruct (rd (Port CMOS_RETURN) d1) as [v d2]. cbn [fst snd] in *.
  exists (rtc_now d1). rewrite Hf, Z.mod_small by (apply enc_range, rtc_range). lia || (split; [done|lia]).
Qed.

Lemma fill_rtcdate_ok d : ∃ a b c e f g,
  fst (fill_rtcdate d) = Rtc (enc (second (rtc_date a))) (enc (minute (rtc_date b))) (enc (hour (rtc_date c))) (enc (day (rtc_date e))) (enc (month (rtc_date f))) (enc (year (rtc_date g))) ∧
  rtc_now d ≤ a ≤ rtc_now d + 2 ∧ a ≤ b ∧ b ≤ c ∧ c ≤ e ∧ e ≤ f ∧ f ≤ g ∧ g ≤ rtc_now (snd (fill_rtcdate d)) ≤ rtc_now d + 12.
Proof.
  unfold fill_rtcdate.
  destruct (cmos_read_ok SECS d) as (a & Ea & ? & ? & ?); [by left|]. destruct (cmos_read SECS d) as [s d1].
  destruct (cmos_read_ok MINS d1) as (b & Eb & ? & ? & ?); [by right; left|]. destruct (cmos_read MINS d1) as [mi d2].
  destruct (cmos_read_ok HOURS d2) as (c & Ec & ? & ? & ?); [by do 2 right; left|]. destruct (cmos_read HOURS d2) as [h d3].
  destruct (cmos_read_ok DAY d3) as (e & Ee & ? & ? & ?); [by do 3 right; left|]. destruct (cmos_read DAY d3) as [da d4].
  destruct (cmos_read_ok MONTH d4) as (f & Ef & ? & ? & ?); [by do 4 right; left|]. destruct (cmos_read MONTH d4) as [mo d5].
  destruct (cmos_read_ok YEAR d5) as (g & Eg & ? & ? & ?); [by do 5 right|]. destruct (cmos_read YEAR d5) as [y d6].
  cbn [fst snd] in *. exists a, b, c, e, f, g. split; [subst; reflexivity|lia].
Qed.

Lemma cmos_read_time r d : rtc_now d ≤ rtc_now (snd (cmos_read r d)) ≤ rtc_now d + 2.
Proof.
  unfold cmos_read, inb, outb_. pose proof (rtc_wr (u8 r) d) as Hw. pose proof (rtc_rd (wr (Port CMOS_PORT) (u8 r) d)) as Hr.
  destruct (rd _ _) as [v d2]. cbn [fst snd] in *. lia.
Qed.

(** Seconds that agree less than a minute apart are the same second, so nothing moved in between. *)
Lemma cmos_round_ok d t : fst (cmos_round d) = Some t → ∃ τ, rtc_now d ≤ τ ≤ rtc_now (snd (cmos_round d)) ∧ t = enc_date (rtc_date τ).
Proof.
  unfold cmos_round. destruct (fill_rtcdate_ok d) as (a & b & c & e & f & g & Et & Ha & Hb & Hc & He & Hf & Hg & Hd). destruct (fill_rtcdate d) as [t1 d1]. cbn [fst snd] in *.
  pose proof (cmos_read_time CMOS_STATA d1) as Hs. destruct (cmos_read CMOS_STATA d1) as [v d2]. cbn [snd] in Hs. destruct (negb _); [done|].
  destruct (fill_rtcdate_ok d2) as (a' & b' & c' & e' & f' & g' & Et' & Ha' & Hb' & Hc' & He' & Hf' & Hg' & Hd'). destruct (fill_rtcdate d2) as [t2 d3]. cbn [fst snd] in *.
  destruct (decide (t1 = t2)) as [E|]; [rewrite bool_decide_eq_true_2 by done|by rewrite bool_decide_eq_false_2]. intros [= <-].
  assert (second (rtc_date a) = second (rtc_date a')) as Hsec.
  { pose proof (rtc_range SECS a). pose proof (rtc_range SECS a'). apply enc_inj; [done..|]. rewrite Et, Et' in E. by injection E. }
  rewrite !rtc_seconds in Hsec. assert (a = a') as Eaa by (Z.to_euclidean_division_equations; lia).
  exists a. split; [lia|]. assert (b = a ∧ c = a ∧ e = a ∧ f = a ∧ g = a) as (-> & -> & -> & -> & ->) by lia. done.
Qed.

Lemma cmos_round_time d : rtc_now d ≤ rtc_now (snd (cmos_round d)).
Proof.
  unfold cmos_round. destruct (fill_rtcdate_ok d) as (a & b & c & e & f & g & _ & Hd). destruct (fill_rtcdate d) as [t1 d1]. cbn [snd] in *.
  pose proof (cmos_read_time CMOS_STATA d1) as Hs. destruct (cmos_read CMOS_STATA d1) as [v d2]. cbn [snd] in Hs. destruct (negb _); cbn [snd]; [lia|].
  destruct (fill_rtcdate_ok d2) as (a' & b' & c' & e' & f' & g' & _ & Hd'). destruct (fill_rtcdate d2) as [t2 d3]. cbn [snd] in *. lia.
Qed.

Lemma cmos_loop_ok fuel : ∀ d t d', cmos_loop fuel d = Some (t, d') → ∃ τ, rtc_now d ≤ τ ≤ rtc_now d' ∧ t = enc_date (rtc_date τ).
Proof.
  induction fuel as [|fuel IH]; intros d t d' Hl; [done|]. cbn [cmos_loop] in Hl. pose proof (cmos_round_ok d) as Hr. pose proof (cmos_round_time d) as Ht.
  destruct (cmos_round d) as [[t1|] d1]; cbn [fst snd] in *.
  - injection Hl as -> ->. by apply Hr.
  - destruct (IH _ _ _ Hl) as (τ & Hτ & ->). exists τ. split; [lia|done].
Qed.

(** A turn in which the clock does not advance, outside an update, is the last. *)
Definition quiet (d : D) : Prop :=
  rtc_now (snd (cmos_round d)) = rtc_now d ∧ rtc_uip (wr (Port CMOS_PORT) CMOS_STATA (snd (fill_rtcdate d))) = false.

Lemma cmos_round_quiet d : quiet d → fst (cmos_round d) ≠ None.
Proof.
  intros [Hn Hu]. unfold cmos_round in *. destruct (fill_rtcdate_ok d) as (a & b & c & e & f & g & Et & Ha & Hb & Hc & He & Hf & Hg & Hd). destruct (fill_rtcdate d) as [t1 d1]. cbn [fst snd] in *.
  pose proof (cmos_read_time CMOS_STATA d1) as Hs. assert (negb (Z.land (fst (cmos_read CMOS_STATA d1)) CMOS_UIP =? 0) = false) as Hv.
  { rewrite <- Hu. unfold cmos_read, inb, outb_. change (u8 CMOS_STATA) with CMOS_STATA. rewrite <- rtc_stata by (by apply rtc_select). by destruct (rd _ _). }
  destruct (cmos_read CMOS_STATA d1) as [v d2]. cbn [fst snd] in *. rewrite Hv in *.
  destruct (fill_rtcdate_ok d2) as (a' & b' & c' & e' & f' & g' & Et' & Ha' & Hb' & Hc' & He' & Hf' & Hg' & Hd'). destruct (fill_rtcdate d2) as [t2 d3]. cbn [fst snd] in *.
  rewrite bool_decide_eq_true_2; [done|]. rewrite Et, Et'.
  assert (a = rtc_now d ∧ b = rtc_now d ∧ c = rtc_now d ∧ e = rtc_now d ∧ f = rtc_now d ∧ g = rtc_now d) as (-> & -> & -> & -> & -> & ->) by lia.
  assert (a' = rtc_now d ∧ b' = rtc_now d ∧ c' = rtc_now d ∧ e' = rtc_now d ∧ f' = rtc_now d ∧ g' = rtc_now d) as (-> & -> & -> & -> & -> & ->) by lia.
  done.
Qed.

Lemma cmos_loop_ends k : ∀ d, quiet (Nat.iter k (λ d, snd (cmos_round d)) d) → cmos_loop (S k) d ≠ None.
Proof.
  induction k as [|k IH]; intros d Hq; rewrite ?Nat.iter_succ_r in Hq.
  - change (quiet d) in Hq. apply cmos_round_quiet in Hq. cbn [cmos_loop]. by destruct (cmos_round d) as [[t|] d1].
  - specialize (IH _ Hq). cbn [cmos_loop]. destruct (cmos_round d) as [[t|] d1]; [done|]. exact IH.
Qed.

Lemma statb_ok d : (Z.land (fst (cmos_read CMOS_STATB d)) (Z.shiftl 1 2) =? 0) = rtc_bcd.
Proof.
  unfold cmos_read, inb, outb_. change (u8 CMOS_STATB) with CMOS_STATB. rewrite <- (rtc_statb (wr (Port CMOS_PORT) CMOS_STATB d)) by (by apply rtc_select).
  by destruct (rd _ _).
Qed.

End Clocks.

(** ** The I/O APIC routes the interrupts that were enabled *)

(** The register selected, and the registers. *)
Class Ioapic (D : Type) := { i_sel : D → Z; i_reg : Z → D → Z }.
Class IoapicOk (D : Type) `{Bus D} `{Ioapic D} : Prop := {
  ioapic_select v d : 0 ≤ v < 256 → i_sel (wr Ireg v d) = v;
  ioapic_select_keeps v r d : i_reg r (wr Ireg v d) = i_reg r d;
  ioapic_write v r d : REG_TABLE ≤ i_sel d → i_reg r (wr Idata v d) = if r =? i_sel d then v else i_reg r d;
  ioapic_read d : fst (rd Idata d) = i_reg (i_sel d) d;
  ioapic_read_keeps r d : i_reg r (snd (rd Idata d)) = i_reg r d }.

Section Ioapics.
Context {D : Type} `{HI : IoapicOk D}.

Lemma ioapicwrite_reg reg data r d : REG_TABLE ≤ reg < 256 → i_reg r (ioapicwrite reg data d) = if r =? reg then u32 data else i_reg r d.
Proof.
  intros Hr. unfold ioapicwrite, REG_TABLE in *. rewrite ioapic_write by (rewrite ioapic_select; unfold REG_TABLE; lia).
  rewrite ioapic_select by lia. by rewrite ioapic_select_keeps.
Qed.
Lemma ioapicread_reg reg d : 0 ≤ reg < 256 → fst (ioapicread reg d) = i_reg reg d ∧ ∀ r, i_reg r (snd (ioapicread reg d)) = i_reg r d.
Proof.
  intros Hr. unfold ioapicread. rewrite ioapic_read, ioapic_select, ioapic_select_keeps by done. split; [done|].
  intros r. by rewrite ioapic_read_keeps, ioapic_select_keeps.
Qed.

(** Entry [i] of the redirection table: its two registers. *)
Definition entry_of (i : Z) (d : D) : Z * Z := (i_reg (REG_TABLE + 2 * i) d, i_reg (REG_TABLE + 2 * i + 1) d).
Definition masked (i : Z) : Z * Z := (INT_DISABLED + T_IRQ0 + i, 0).
(** Edge triggered, active high, to the CPU with that APIC id. *)
Definition routed (i cpu : Z) : Z * Z := (T_IRQ0 + i, cpu * 0x1000000).

Lemma entry_write_pair i j a b d : 0 ≤ i < 120 → 0 ≤ j < 120 → 0 ≤ a < 4294967296 → 0 ≤ b < 4294967296 →
  entry_of j (ioapicwrite (REG_TABLE + 2 * i + 1) b (ioapicwrite (REG_TABLE + 2 * i) a d)) = if j =? i then (a, b) else entry_of j d.
Proof.
  intros Hi Hj Ha Hb. unfold entry_of. rewrite !ioapicwrite_reg, !u32_small by (unfold REG_TABLE; lia). unfold REG_TABLE.
  destruct (Z.eqb_spec j i) as [->|Hne]; [rewrite Z.eqb_refl, (proj2 (Z.eqb_neq _ (16 + 2 * i + 1))), Z.eqb_refl by lia; done|].
  by rewrite !(proj2 (Z.eqb_neq _ _)) by lia.
Qed.

Lemma irq_masked i : 0 ≤ i < 120 → Z.lor INT_DISABLED (T_IRQ0 + i) = INT_DISABLED + T_IRQ0 + i.
Proof.
  intros Hi. unfold INT_DISABLED, T_IRQ0. rewrite Z.lor_comm. change 0x10000 with (Z.shiftl 1 16).
  rewrite lor_shift by (change (2 ^ 16) with 65536; lia). change (Z.shiftl 1 16) with 65536. change (1 * 2 ^ 16) with 65536. lia.
Qed.

Lemma mask_all_ok n : ∀ i d, 0 ≤ i → i + Z.of_nat n ≤ 120 → ∀ j, 0 ≤ j < 120 →
  entry_of j (mask_all n i d) = if (i <=? j) && (j <? i + Z.of_nat n) then masked j else entry_of j d.
Proof.
  induction n as [|n IH]; intros i d Hi Hn j Hj; cbn [mask_all].
  - destruct (Z.leb_spec i j), (Z.ltb_spec j (i + Z.of_nat 0)); cbn [andb]; done || lia.
  - rewrite IH by lia. rewrite irq_masked by lia. rewrite entry_write_pair by (unfold INT_DISABLED, T_IRQ0; lia).
    destruct (Z.eqb_spec j i) as [Ej|]; destruct (Z.leb_spec (i + 1) j), (Z.leb_spec i j), (Z.ltb_spec j (i + 1 + Z.of_nat n)), (Z.ltb_spec j (i + Z.of_nat (S n))); cbn [andb]; try lia; try done; by subst j.
Qed.

(** The CPU the last of the calls gives interrupt [i]. *)
Definition last_route (i : Z) (calls : list (Z * Z)) : option Z :=
  last (omap (λ c, if fst c =? i then Some (snd c) else None) calls).

Lemma enable_all_ok calls : ∀ d j, Forall (λ c, 0 ≤ fst c < 120 ∧ 0 ≤ snd c < 256) calls → 0 ≤ j < 120 →
  entry_of j (foldl (λ d c, ioapicenable (fst c) (snd c) d) d calls) = match last_route j calls with Some cpu => routed j cpu | None => entry_of j d end.
Proof.
  induction calls as [|[irq cpu] calls IH] using rev_ind; intros d j Hc Hj; [done|].
  apply Forall_app in Hc as [Hc Hl]. apply Forall_cons in Hl as [Hl _]. cbn [fst snd] in Hl. rewrite foldl_app. cbn [foldl fst snd]. unfold ioapicenable at 1.
  rewrite Z.shiftl_mul_pow2 by lia. change (2 ^ 24) with 0x1000000. rewrite entry_write_pair by (unfold T_IRQ0; lia). rewrite IH by done. unfold last_route. rewrite omap_app, last_app. cbn.
  rewrite (Z.eqb_sym irq j). by destruct (Z.eqb_spec j irq) as [->|].
Qed.

(** after [ioapicinit] and any calls of [ioapicenable], each interrupt line of the controller goes to the CPU
    of the last call for it, with its vector, and the lines no call was made for are masked. *)
Theorem ioapic_routes ioapicid d calls :
  let maxintr := Z.land (Z.shiftr (i_reg REG_VER d) 16) 0xff in
  maxintr < 120 → Forall (λ c, 0 ≤ fst c ≤ maxintr ∧ 0 ≤ snd c < 256) calls →
  ∀ j, 0 ≤ j ≤ maxintr →
    entry_of j (foldl (λ d c, ioapicenable (fst c) (snd c) d) (snd (ioapicinit ioapicid d)) calls) =
    match last_route j calls with Some cpu => routed j cpu | None => masked j end.
Proof.
  intros maxintr Hmax Hc j Hj. rewrite enable_all_ok; [|eapply Forall_impl; [exact Hc|simpl; lia]|lia].
  destruct (last_route j calls); [done|]. unfold ioapicinit.
  destruct (ioapicread_reg REG_VER d) as [E1 K1]; [done|]. destruct (ioapicread REG_VER d) as [v1 d1]. cbn [fst snd] in *.
  destruct (ioapicread_reg REG_ID d1) as [E2 K2]; [done|]. destruct (ioapicread REG_ID d1) as [v2 d2]. cbn [fst snd] in *.
  rewrite E1. fold maxintr. rewrite mask_all_ok by lia. rewrite (proj2 (Z.leb_le 0 j)), (proj2 (Z.ltb_lt j _)) by lia. done.
Qed.
End Ioapics.

(** ** The serial port sends what it is given *)

(** The bytes sent so far. *)
Class Serial (D : Type) := { sent : D → list Z }.
Class SerialOk (D : Type) `{Bus D} `{Serial D} : Prop := {
  serial_send v d : sent (wr (Port COM1) v d) = sent d ++ [v];
  serial_poll d : sent (snd (rd (Port (COM1 + 5)) d)) = sent d }.

(** As the console has it. *)
Lemma uartputc_sends {D} `{SerialOk D} c (d : D) : sent (uartputc true c d) = sent d ++ [u8 c].
Proof.
  unfold uartputc, outb_. rewrite serial_send. f_equal. generalize 128%nat. intros n. revert d. induction n as [|n IH]; intros d; [done|].
  cbn [uart_wait]. unfold inb. pose proof (serial_poll d) as Hp. destruct (rd _ d) as [v d1]. cbn [snd] in Hp. destruct (_ =? 0); [rewrite IH|]; done.
Qed.

(** ** Devices *)

Module SampleDevices.
(** The clock's register and the accesses so far, forty a second; the I/O APIC; the bytes sent. *)
Record dev := Dev { csel : Z; ops : Z; isel : Z; iregs : gmap Z Z; out : list Z }.
Definition clock_date (t : Z) : rtcdate := Rtc (t mod 60) (t / 60 mod 60) (t / 3600 mod 24) 15 11 26.
#[export] Instance dev_clock : Clock dev := {|
  rtc_sel := csel; rtc_now d := ops d / 40; rtc_uip _ := false; rtc_date := clock_date; rtc_bcd := true |}.
#[export] Instance dev_ioapic : Ioapic dev := {| i_sel := isel; i_reg r d := default 0 (iregs d !! r) |}.
#[export] Instance dev_serial : Serial dev := {| sent := out |}.

Definition cmos_value (d : dev) : Z :=
  if (csel d =? CMOS_STATA) || (csel d =? CMOS_STATB) then 0 else bcd_of (field (csel d) (clock_date (ops d / 40))).
#[export] Instance dev_bus : Bus dev := {|
  rd a d := (match a with
             | Port p => if p =? CMOS_RETURN then cmos_value d else 0x20
             | Idata => default 0 (iregs d !! isel d)
             | _ => 0
             end, Dev (csel d) (ops d + 1) (isel d) (iregs d) (out d));
  wr a v d := match a with
              | Port p => if p =? CMOS_PORT then Dev v (ops d + 1) (isel d) (iregs d) (out d)
                          else if p =? COM1 then Dev (csel d) (ops d + 1) (isel d) (iregs d) (out d ++ [v])
                          else Dev (csel d) (ops d + 1) (isel d) (iregs d) (out d)
              | Ireg => Dev (csel d) (ops d + 1) v (iregs d) (out d)
              | Idata => Dev (csel d) (ops d + 1) (isel d) (<[isel d := v]> (iregs d)) (out d)
              | _ => Dev (csel d) (ops d + 1) (isel d) (iregs d) (out d)
              end |}.

#[export] Instance dev_clock_ok : ClockOk dev.
Proof.
  split.
  - done.
  - intros v d. cbn. Z.to_euclidean_division_equations; lia.
  - intros d. cbn. Z.to_euclidean_division_equations; lia.
  - intros d Hr. cbn in *. unfold cmos_value. unfold date_reg in Hr.
    rewrite (proj2 (Z.eqb_neq _ CMOS_STATA)), (proj2 (Z.eqb_neq _ CMOS_STATB)); [done|..]; destruct Hr as [->|[->|[->|[->|[->| ->]]]]]; done.
  - intros d E. cbn in *. unfold cmos_value. by rewrite E.
  - intros d E. cbn in *. unfold cmos_value. by rewrite E.
  - done.
  - intros r t. cbn. unfold field, clock_date. cbn [second minute hour day month year].
    repeat destruct (_ =? _); Z.to_euclidean_division_equations; lia.
Qed.
#[export] Instance dev_ioapic_ok : IoapicOk dev.
Proof.
  split; try done. intros v r d _. cbn. destruct (Z.eqb_spec r (isel d)) as [->|Hne]; [by rewrite lookup_insert_eq|by rewrite lookup_insert_ne].
Qed.
#[export] Instance dev_serial_ok : SerialOk dev.
Proof. by split. Qed.

(** The second changes from 59 to 0 inside the first turn of the loop. *)
Definition midnight : dev := Dev 0 (40 * (59 * 60 + 59) + 20) 0 {[ REG_VER := 0x170011 ]} [].


(** The keyboard, the serial port and the disk, as the drivers enable them on a machine of two CPUs. *)
Lemma ioapic_routes_witness :
  let d := foldl (λ d c, ioapicenable (fst c) (snd c) d) (snd (ioapicinit 0 midnight)) [(IRQ_KBD, 0); (IRQ_COM1, 0); (IRQ_IDE, 1)] in
  entry_of IRQ_IDE d = (46, 0x1000000) ∧ entry_of 2 d = (0x10022, 0).
Proof.
  assert (Forall (λ c, 0 ≤ fst c ≤ 23 ∧ 0 ≤ snd c < 256) [(IRQ_KBD, 0); (IRQ_COM1, 0); (IRQ_IDE, 1)]) as Hc
    by (unfold IRQ_KBD, IRQ_COM1, IRQ_IDE; repeat constructor; simpl; lia).
  split; [exact (ioapic_routes 0 midnight _ eq_refl Hc IRQ_IDE ltac:(vm_compute; split; discriminate))|
          exact (ioapic_routes 0 midnight _ eq_refl Hc 2 ltac:(vm_compute; split; discriminate))].
Defined.
End SampleDevices.
