(* ===== verification/Mp.v ===== *)
(** * Finding the processors

    [mp.c]: the kernel searches the memory the BIOS fills for the table of the
    machine's processors and interrupt controllers.  Memory gives the byte at
    each (virtual) address. *)

From S2P Require Import Prelude Mem Bytes Str Ulib Proc Sched.

(** [struct mp], [struct mpconf], [struct mpproc] and [struct mpioapic] as bytes. *)
(** The sizes are those of the fields in order, which leave no gaps. *)
Definition sizeof_mp : Z := 4 + 4 + 1 + 1 + 1 + 1 + 1 + 3.
Definition mp_physaddr (p : list Z) : Z := get32 p 4.
Definition mp_imcrp (p : list Z) : Z := get8 p 12.
Definition sizeof_mpconf : Z := 4 + 2 + 1 + 1 + 20 + 4 + 2 + 2 + 4 + 2 + 1 + 1.
Definition conf_length (c : list Z) : Z := get16 c 4.
Definition conf_version (c : list Z) : Z := get8 c 6.
Definition conf_lapicaddr (c : list Z) : Z := get32 c 36.
Definition sizeof_mpproc : Z := 1 + 1 + 1 + 1 + 4 + 4 + 8.
Definition sizeof_mpioapic : Z := 1 + 1 + 1 + 1 + 4.
Definition MPPROC : Z := 0.
Definition MPBUS : Z := 1.
Definition MPIOAPIC : Z := 2.
Definition MPIOINTR : Z := 3.
Definition MPLINTR : Z := 4.

(** The globals [mpinit] sets, each CPU with its APIC id, and the bytes it sends to ports. *)
Record mpstate := MP { cpus : list (Z * cpu); ncpu : nat; ioapicid : Z; lapic : Z; ports : list (Z * Z) }.
(** A panic has its message. *)
Inductive mpresult := MPdone (s : mpstate) | MPpanic (msg : list Z) | MPspins.

Section Mp.
(** The memory, and the byte port 0x23 gives. *)
Variable mem : pmem.
Variable imcr : Z.
Definition at_ (p : Z) : str := λ k, mem (p + Z.of_nat k).

Definition sum (addr len : Z) : Z := foldr Z.add 0 (read_bytes addr (Z.to_nat len) mem) mod 256.

(** [None] when the fuel does not reach the end. *)
Fixpoint mpsearch1_loop (fuel : nat) (p e : Z) : option (option Z) :=
  if p <? e then
    match fuel with
    | O => None
    | S fuel =>
        if (memcmp 4 (at_ p) (str_of (lit "_MP_")) =? 0) && (sum p sizeof_mp =? 0) then Some (Some p)
        else mpsearch1_loop fuel (u32 (p + sizeof_mp)) e
    end
  else Some None.
Definition mpsearch1 (a len : Z) : option (option Z) :=
  mpsearch1_loop (Z.to_nat (len / sizeof_mp)) (P2V a) (u32 (P2V a + len)).

Definition mpsearch : option (option Z) :=
  let bda := P2V 0x400 in
  let p := Z.shiftl (Z.lor (Z.shiftl (mem (bda + 0x0f)) 8) (mem (bda + 0x0e))) 4 in
  let first :=
    if negb (p =? 0) then mpsearch1 p 1024
    else mpsearch1 (u32 (Z.lor (Z.shiftl (mem (bda + 0x14)) 8) (mem (bda + 0x13)) * 1024 - 1024)) 1024 in
  match first with
  | Some None => mpsearch1 0xf0000 0x10000
  | r => r
  end.

(** The table and the structure that points to it. *)
Definition mpconfig : option (option (Z * Z)) :=
  match mpsearch with
  | None => None
  | Some None => Some None
  | Some (Some mp) =>
      let a := mp_physaddr (read_bytes mp 16 mem) in
      if a =? 0 then Some None
      else
        let conf := P2V a in
        let c := read_bytes conf 44 mem in
        if negb (memcmp 4 (at_ conf) (str_of (lit "PCMP")) =? 0) then Some None
        else if negb (conf_version c =? 1) && negb (conf_version c =? 4) then Some None
        else if negb (sum conf (conf_length c) =? 0) then Some None
        else Some (Some (conf, mp))
  end.

Definition add_cpu (apicid : Z) (s : mpstate) : mpstate :=
  if (ncpu s <? NCPU)%nat then
    MP (alter (λ c, (apicid, set_remain (RR_WEIGHT * TIME_SLICE_UNIT / SYS_TICK) (SJF_WEIGHT * TIME_SLICE_UNIT / SYS_TICK)
                               (FCFS_WEIGHT * TIME_SLICE_UNIT / SYS_TICK) (snd c))) (ncpu s) (cpus s))
       (S (ncpu s)) (ioapicid s) (lapic s) (ports s)
  else s.

(** The loop over the entries; the [break] of an unknown type leaves the [switch], not the loop. *)
Fixpoint entries (fuel : nat) (p e : Z) (ismp : bool) (s : mpstate) : option (bool * mpstate) :=
  if p <? e then
    match fuel with
    | O => None
    | S fuel =>
        let ty := mem p in
        if ty =? MPPROC then entries fuel (u32 (p + sizeof_mpproc)) e ismp (add_cpu (mem (p + 1)) s)
        else if ty =? MPIOAPIC then
          entries fuel (u32 (p + sizeof_mpioapic)) e ismp (MP (cpus s) (ncpu s) (mem (p + 1)) (lapic s) (ports s))
        else if (ty =? MPBUS) || (ty =? MPIOINTR) || (ty =? MPLINTR) then entries fuel (u32 (p + 8)) e ismp s
        else entries fuel p e false s
    end
  else Some (ismp, s).

Definition mpinit (fuel : nat) (s : mpstate) : mpresult :=
  match mpconfig with
  | None => MPspins
  | Some None => MPpanic (lit "Expect to run on an SMP")
  | Some (Some (conf, mp)) =>
      let c := read_bytes conf 44 mem in
      let s := MP (cpus s) (ncpu s) (ioapicid s) (conf_lapicaddr c) (ports s) in
      match entries fuel (u32 (conf + sizeof_mpconf)) (u32 (conf + conf_length c)) true s with
      | None => MPspins
      | Some (false, _) => MPpanic (lit "Didn't find a suitable machine")
      | Some (true, s) =>
          if negb (mp_imcrp (read_bytes mp 16 mem) =? 0)
          then MPdone (MP (cpus s) (ncpu s) (ioapicid s) (lapic s) (ports s ++ [(0x22, 0x70); (0x23, Z.lor imcr 1)]))
          else MPdone s
      end
  end.

(** ** The search *)

Definition is_mp (p : Z) : bool := (memcmp 4 (at_ p) (str_of (lit "_MP_")) =? 0) && (sum p sizeof_mp =? 0).
Definition candidates (a len : Z) : list Z := map (λ i, P2V a + 16 * Z.of_nat i) (seq 0 (Z.to_nat (len / 16))).
(** The addresses the specification has: the first Kbyte of the extended BIOS data area, or the last
    of base memory when there is none, and the BIOS. *)
Definition areas : list Z :=
  let bda := P2V 0x400 in
  let ebda := 16 * (256 * mem (bda + 0x0f) + mem (bda + 0x0e)) in
  let base := 1024 * (256 * mem (bda + 0x14) + mem (bda + 0x13)) in
  (if ebda =? 0 then candidates (u32 (base - 1024)) 1024 else candidates ebda 1024) ++ candidates 0xf0000 0x10000.
(** The table of the first structure found, if it is one the kernel accepts. *)
Definition table : option (Z * Z) :=
  match find is_mp areas with
  | None => None
  | Some mp =>
      let a := mp_physaddr (read_bytes mp 16 mem) in
      let c := read_bytes (P2V a) 44 mem in
      if negb (a =? 0) && (memcmp 4 (at_ (P2V a)) (str_of (lit "PCMP")) =? 0) && ((conf_version c =? 1) || (conf_version c =? 4)) &&
         (sum (P2V a) (conf_length c) =? 0)
      then Some (P2V a, mp) else None
  end.

Lemma mpsearch1_loop_find fuel : ∀ p k, 0 ≤ p → p + 16 * Z.of_nat k < 4294967296 → (k ≤ fuel)%nat →
  mpsearch1_loop fuel p (p + 16 * Z.of_nat k) = Some (find is_mp (map (λ i, p + 16 * Z.of_nat i) (seq 0 k))).
Proof.
  induction fuel as [|fuel IH]; intros p [|k] Hp He Hk; try lia; cbn [mpsearch1_loop]; try (rewrite (proj2 (Z.ltb_ge _ _)) by lia; done).
  rewrite (proj2 (Z.ltb_lt _ _)) by lia. fold (is_mp p). cbn [seq map find]. change (16 * Z.of_nat 0) with 0. rewrite Z.add_0_r.
  destruct (is_mp p); [done|]. change sizeof_mp with 16. rewrite u32_small by lia.
  replace (p + 16 * Z.of_nat (S k)) with (p + 16 + 16 * Z.of_nat k) by lia. rewrite IH by lia. do 2 f_equal.
  rewrite <- seq_shift, map_map. apply map_ext. intros i. lia.
Qed.

Lemma mpsearch1_find a len : 0 ≤ len → len mod 16 = 0 → P2V a + len < 4294967296 → mpsearch1 a len = Some (find is_mp (candidates a len)).
Proof.
  intros H0 Hm Hl. unfold mpsearch1, candidates. change sizeof_mp with 16. pose proof (u32_range (a + KERNBASE)) as Hr. fold (P2V a) in Hr.
  rewrite u32_small by lia. replace (P2V a + len) with (P2V a + 16 * Z.of_nat (Z.to_nat (len / 16))) by (Z.to_euclidean_division_equations; lia).
  apply mpsearch1_loop_find; Z.to_euclidean_division_equations; lia.
Qed.

Lemma P2V_low a : 0 ≤ a < 0x80000000 → P2V a = a + KERNBASE.
Proof. intros H. apply u32_small. unfold KERNBASE. lia. Qed.

Hypothesis Hmem : ∀ a, 0 ≤ mem a < 256.

Lemma two_bytes b c : Z.lor (Z.shiftl (mem b) 8) (mem c) = 256 * mem b + mem c.
Proof. rewrite Z.lor_comm, lor_shift by (done || apply Hmem). change (2 ^ 8) with 256. lia. Qed.

Lemma find_then (f : Z → bool) (l r : list Z) :
  match find f l with Some _ => Some (find f l) | None => Some (find f r) end = Some (find f (l ++ r)).
Proof. rewrite find_app. by destruct (find f l). Qed.

Lemma mpsearch_find : mpsearch = Some (find is_mp areas).
Proof.
  unfold mpsearch, areas. rewrite !two_bytes, Z.shiftl_mul_pow2 by lia. change (2 ^ 4) with 16. cbv zeta. set (b := P2V 0x400).
  pose proof (Hmem (b + 0x0f)). pose proof (Hmem (b + 0x0e)). pose proof (Hmem (b + 0x14)). pose proof (Hmem (b + 0x13)).
  rewrite (Z.mul_comm _ 16), (Z.mul_comm _ 1024).
  rewrite (mpsearch1_find 0xf0000 0x10000) by done. set (rom := candidates 0xf0000 0x10000).
  destruct (16 * (256 * mem (b + 15) + mem (b + 14)) =? 0); cbn [negb].
  - rewrite mpsearch1_find; [apply find_then|lia|done|].
    set (q := 1024 * _ - 1024). assert (u32 q = q ∨ u32 q = 0xfffffc00) as [E|E].
    { destruct (decide (0 ≤ q)); [left; apply u32_small; unfold q in *; lia|right; unfold q in *]. replace (1024 * _ - 1024) with (-1024) by lia. done. }
    + rewrite E, P2V_low; unfold KERNBASE, q in *; [lia|]. pose proof (u32_range (1024 * (256 * mem (b + 20) + mem (b + 19)) - 1024)). lia.
    + rewrite E. vm_compute. done.
  - rewrite mpsearch1_find; [apply find_then|lia|done|]. rewrite P2V_low; unfold KERNBASE; lia.
Qed.

Lemma mpconfig_table : mpconfig = Some table.
Proof.
  unfold mpconfig, table. rewrite mpsearch_find. destruct (find is_mp areas) as [mp|]; [|done]. cbv zeta.
  destruct (_ =? 0); [done|]. cbn [negb andb]. destruct (memcmp _ _ _ =? 0); [|done]. cbn [negb andb].
  destruct (conf_version _ =? 1), (conf_version _ =? 4); cbn [negb andb orb]; try done; by destruct (sum _ _ =? 0).
Qed.

(** ** The entries *)

(** The machine as the BIOS describes it: an entry's type and the byte after it matter, the others do not. *)
Inductive entry :=
  | Processor (apicid : Z) (rest : list Z)
  | IOApic (apicno : Z) (rest : list Z)
  | Other (ty : Z) (rest : list Z).
Definition entry_bytes (d : entry) : list Z :=
  match d with
  | Processor a r => MPPROC :: a :: r
  | IOApic a r => MPIOAPIC :: a :: r
  | Other ty r => ty :: r
  end.
Definition entry_ok (d : entry) : Prop :=
  match d with
  | Processor _ r => length r = 18%nat
  | IOApic _ r => length r = 6%nat
  | Other ty r => (ty = MPBUS ∨ ty = MPIOINTR ∨ ty = MPLINTR) ∧ length r = 7%nat
  end.
Definition table_bytes (l : list entry) : list Z := concat (map entry_bytes l).
Definition note (s : mpstate) (d : entry) : mpstate :=
  match d with
  | Processor a _ => add_cpu a s
  | IOApic a _ => MP (cpus s) (ncpu s) a (lapic s) (ports s)
  | Other _ _ => s
  end.
Definition processors (l : list entry) : list Z := omap (λ d, match d with Processor a _ => Some a | _ => None end) l.
Definition ioapics (l : list entry) : list Z := omap (λ d, match d with IOApic a _ => Some a | _ => None end) l.

(** The bytes [l] are in memory from [p] on. *)
Definition stores (p : Z) (l : list Z) : Prop := ∀ k, (k < length l)%nat → mem (p + Z.of_nat k) = nth k l 0.

Lemma stores_app p l l' : stores p (l ++ l') → stores p l ∧ stores (p + Z.of_nat (length l)) l'.
Proof.
  intros Hs. split; intros k Hk.
  - rewrite Hs by (rewrite length_app; lia). by apply app_nth1.
  - rewrite <- Z.add_assoc, <- Nat2Z.inj_add, Hs by (rewrite length_app; lia). rewrite app_nth2 by lia. f_equal. lia.
Qed.

(** One round of the loop passes one entry. *)
Lemma entries_step fuel p e ismp s d :
  entry_ok d → stores p (entry_bytes d) → 0 ≤ p → p + Z.of_nat (length (entry_bytes d)) ≤ e → e < 4294967296 →
  entries (S fuel) p e ismp s = entries fuel (p + Z.of_nat (length (entry_bytes d))) e ismp (note s d).
Proof.
  intros Hd Hs Hp He H32. assert (0 < length (entry_bytes d))%nat as Hlen by (destruct d; simpl; lia).
  pose proof (Hs 0%nat Hlen) as H0. rewrite Z.add_0_r in H0. cbn [entries]. rewrite (proj2 (Z.ltb_lt p e)) by lia. rewrite H0.
  destruct d as [a r|a r|ty r]; cbn [entry_ok entry_bytes length nth] in *.
  - pose proof (Hs 1%nat ltac:(simpl; lia)) as H1. change (Z.of_nat 1) with 1 in H1. cbn [nth] in H1. rewrite H1, Hd. cbn [Z.eqb MPPROC]. unfold sizeof_mpproc. by rewrite u32_small by lia.
  - pose proof (Hs 1%nat ltac:(simpl; lia)) as H1. change (Z.of_nat 1) with 1 in H1. cbn [nth] in H1. rewrite H1, Hd. cbn [Z.eqb MPPROC MPIOAPIC]. unfold sizeof_mpioapic. by rewrite u32_small by lia.
  - destruct Hd as [Hty Hr]. rewrite Hr. destruct Hty as [->|[->| ->]]; cbn [Z.eqb Pos.eqb orb MPPROC MPIOAPIC MPBUS MPIOINTR MPLINTR]; by rewrite u32_small by lia.
Qed.

Lemma entries_table l : ∀ fuel p e ismp s,
  Forall entry_ok l → stores p (table_bytes l) → 0 ≤ p → p + Z.of_nat (length (table_bytes l)) ≤ e → e < 4294967296 →
  entries (length l + fuel) p e ismp s = entries fuel (p + Z.of_nat (length (table_bytes l))) e ismp (foldl note s l).
Proof.
  induction l as [|d l IH]; intros fuel p e ismp s Hok Hs Hp He H32; [by rewrite Z.add_0_r|].
  apply Forall_cons in Hok as [Hd Hok]. unfold table_bytes in *. cbn [map concat foldl length Nat.add] in *. rewrite length_app in *.
  apply stores_app in Hs as [Hs1 Hs2]. rewrite (entries_step _ p e ismp s d) by (done || lia). rewrite IH by (done || lia). f_equal. lia.
Qed.

Lemma entries_end fuel p ismp s : entries fuel p p ismp s = Some (ismp, s).
Proof. destruct fuel; cbn [entries]; by rewrite Z.ltb_irrefl. Qed.

(** At an unknown type the loop stays. *)
Lemma entries_stuck fuel : ∀ p e ismp s, p < e → 4 < mem p → entries fuel p e ismp s = None.
Proof.
  induction fuel as [|fuel IH]; intros p e ismp s Hp Ht; cbn [entries]; rewrite (proj2 (Z.ltb_lt p e)) by done; [done|].
  unfold MPPROC, MPIOAPIC, MPBUS, MPIOINTR, MPLINTR. rewrite !(proj2 (Z.eqb_neq (mem p) _)) by lia. by apply IH.
Qed.
Lemma entries_short l : ∀ fuel p e ismp s,
  Forall entry_ok l → stores p (table_bytes l) → 0 ≤ p → p + Z.of_nat (length (table_bytes l)) < e → e < 4294967296 →
  4 < mem (p + Z.of_nat (length (table_bytes l))) → entries fuel p e ismp s = None.
Proof.
  induction l as [|d l IH]; intros fuel p e ismp s Hok Hs Hp He H32 Ht.
  - cbn [table_bytes map concat length] in *. rewrite Z.add_0_r in *. by apply entries_stuck.
  - apply Forall_cons in Hok as [Hd Hok]. unfold table_bytes in *. cbn [map concat] in *. rewrite length_app in *. apply stores_app in Hs as [Hs1 Hs2].
    destruct fuel as [|fuel]; [cbn [entries]; by rewrite (proj2 (Z.ltb_lt p e)) by lia|].
    rewrite (entries_step _ p e ismp s d) by (done || lia). apply IH; try done; try lia. rewrite <- Z.add_assoc, <- Nat2Z.inj_add. done.
Qed.

(** ** What is found *)

(** A CPU at the start: its time of each queue is what the scheduler gives it. *)
Definition fresh_cpu (a : Z) (c : cpu) : Z * cpu := (a, set_remain 30 20 10 c).

(** From [s] to [s']: the processors of [l] after the ones already there, up to [NCPU], and the last I/O APIC. *)
Record noted (l : list entry) (s s' : mpstate) : Prop := {
  noted_ncpu : ncpu s' = Nat.min NCPU (ncpu s + length (processors l));
  noted_cpus : length (cpus s') = length (cpus s);
  noted_new : ∀ i a, processors l !! i = Some a → (ncpu s + i < NCPU)%nat →
    ∃ c, cpus s !! (ncpu s + i)%nat = Some c ∧ cpus s' !! (ncpu s + i)%nat = Some (fresh_cpu a (snd c));
  noted_old : ∀ i, (i < ncpu s ∨ ncpu s' ≤ i)%nat → cpus s' !! i = cpus s !! i;
  noted_ioapic : ioapicid s' = default (ioapicid s) (last (ioapics l));
  noted_lapic : lapic s' = lapic s;
  noted_ports : ports s' = ports s }.

Lemma noted_processor a r s : length (cpus s) = NCPU → (ncpu s ≤ NCPU)%nat → noted [Processor a r] s (add_cpu a s).
Proof.
  intros Hl Hn. unfold add_cpu. destruct (Nat.ltb_spec (ncpu s) NCPU) as [Hlt|Hge].
  - split; cbn -[Nat.min NCPU]; try done; [lia|by rewrite length_alter| |].
    + intros [|i] a' Hi Hlt'; [|done]. cbn in Hi. injection Hi as ->. rewrite Nat.add_0_r. destruct (lookup_lt_is_Some_2 (cpus s) (ncpu s)) as [c Hc]; [lia|].
      exists c. split; [done|]. rewrite list_lookup_alter, decide_True by done. by rewrite Hc.
    + intros i Hi. rewrite list_lookup_alter, decide_False by lia. done.
  - split; cbn -[Nat.min NCPU]; try done; [lia|]. intros [|i] a' Hi Hlt'; lia.
Qed.

Lemma noted_app d l s s1 s2 : (ncpu s ≤ NCPU)%nat → noted [d] s s1 → noted l s1 s2 → noted (d :: l) s s2.
Proof.
  intros Hn H1 H2. destruct (H1) as [N1 C1 W1 O1 I1 L1 P1], (H2) as [N2 C2 W2 O2 I2 L2 P2].
  assert (processors (d :: l) = processors [d] ++ processors l) as Ep by (by destruct d). assert (ioapics (d :: l) = ioapics [d] ++ ioapics l) as Ei by (by destruct d).
  assert (length (processors [d]) ≤ 1)%nat as Hlen by (destruct d; simpl; lia).
  split; try congruence.
  - rewrite Ep, length_app. lia.
  - intros i a Hi Hlt. rewrite Ep in Hi. apply lookup_app_Some in Hi as [Hi|[Hge Hi]].
    + destruct (W1 i a Hi Hlt) as (c & Hc & Hc1). exists c. split; [done|]. apply lookup_lt_Some in Hi. rewrite O2 by lia. done.
    + replace (ncpu s + i)%nat with (ncpu s1 + (i - length (processors [d])))%nat in * by lia. destruct (W2 _ a Hi ltac:(lia)) as (c & Hc & Hc2).
      exists c. split; [|done]. rewrite O1 in Hc by lia. done.
  - intros i Hi. rewrite O2, O1 by lia. done.
  - rewrite I2, I1, Ei, last_app. by destruct (last (ioapics l)).
Qed.

Lemma noted_foldl l : ∀ s, length (cpus s) = NCPU → (ncpu s ≤ NCPU)%nat → noted l s (foldl note s l).
Proof.
  induction l as [|d l IH]; intros s Hl Hn; cbn [foldl].
  - split; cbn -[Nat.min NCPU]; try done. lia.
  - assert (noted [d] s (note s d)) as Hd.
    { destruct d as [a r|a r|ty r]; [by apply noted_processor|split; cbn -[Nat.min NCPU]; try done; lia..]. }
    apply (noted_app d l s (note s d)); [done|done|]. apply IH; [by rewrite (noted_cpus _ _ _ Hd)|rewrite (noted_ncpu _ _ _ Hd); lia].
Qed.

Lemma table_conf conf mp : table = Some (conf, mp) → 0 ≤ conf < 4294967296.
Proof. unfold table. destruct (find _ _); [|done]. cbv zeta. destruct (_ && _); [|done]. intros [= <- _]. apply u32_range. Qed.

End Mp.

(** ** A machine with two processors *)

Module SampleMp.
(** A block with the byte that makes its sum zero at [k]. *)
Definition checksum (k : nat) (l : list Z) : list Z := put8 k (- foldr Z.add 0 l) l.
Definition floating : list Z := checksum 10 (put8 12 128 (put32 4 0x1000 (lit "_MP_" ++ replicate 12 0))).
Definition config (body : list Z) : list Z :=
  checksum 7 (put32 36 0xfee00000 (put8 6 4 (put16 4 (44 + Z.of_nat (length body)) (lit "PCMP" ++ replicate 40 0))) ++ body).
Definition machine : list entry := [Processor 0 (replicate 18 1); Other MPBUS (replicate 7 0); Processor 4 (replicate 18 0); IOApic 2 (replicate 6 0)].
(** The BIOS's memory: the structure in its ROM, the table at 4 Kbytes. *)
Definition bios (body : list Z) : pmem := λ x,
  let pick a l := if (a <=? x) && (x <? a + Z.of_nat (length l)) then nth (Z.to_nat (x - a)) l 0 else 0 in
  (pick (P2V 0xf0020) floating + pick (P2V 0x1000) (config body)) mod 256.
Definition start : mpstate := MP (replicate NCPU (0, cpu0)) 0 0 0 [].

Lemma bios_range body a : 0 ≤ bios body a < 256.
Proof. apply Z.mod_pos_bound. lia. Qed.
Lemma machine_ok : Forall entry_ok machine.
Proof. repeat constructor. Qed.
Lemma bios_stores body body' : bool_decide (read_bytes (P2V 0x1000 + 44) (length body') (bios body) = body') = true → stores (bios body) (P2V 0x1000 + 44) body'.
Proof.
  intros E%bool_decide_eq_true_1 k Hk. transitivity (nth k (read_bytes (P2V 0x1000 + 44) (length body') (bios body)) 0); [|by rewrite E]. unfold read_bytes. rewrite nth_lookup, list_lookup_fmap, lookup_seq_lt by done. done.
Qed.

End SampleMp.
