(* ===== verification/Start.v ===== *)
(** * Starting the processors

    [mycpu] and [cpuid] of [proc.c] and [startothers] of [main.c]: the boot
    processor starts the others that [mpinit] found, one after the other, each
    with a stack of its own.  What an inter-processor interrupt does to the
    processor it is sent to is stated as a law of the bus. *)

From S2P Require Import Prelude Mem Bytes Ulib Kalloc Locks Proc Mp Apic.

(** ** Which processor is this? *)

Fixpoint find_apicid (apicid : Z) (i : nat) (l : list (Z * cpu)) : option nat :=
  match l with
  | [] => None
  | c :: l => if fst c =? apicid then Some i else find_apicid apicid (S i) l
  end.
(** [mycpu], with the interrupt flag and the id the local APIC gives: an index of [cpus]. *)
Definition mycpu (fl_if : bool) (apicid : Z) (s : mpstate) : nat + list Z :=
  if fl_if then inr (lit "mycpu called with interrupts enabled" ++ [10])
  else match find_apicid apicid 0 (take (ncpu s) (Mp.cpus s)) with
       | Some i => inl i
       | None => inr (lit "unknown apicid" ++ [10])
       end.
Definition cpuid (fl_if : bool) (apicid : Z) (s : mpstate) : nat + list Z := mycpu fl_if apicid s.

Lemma find_apicid_first a l : ∀ i k, (∀ j, (j < k)%nat → ∀ c, l !! j = Some c → fst c ≠ a) → (∃ c, l !! k = Some c ∧ fst c = a) → find_apicid a i l = Some (i + k)%nat.
Proof.
  induction l as [|x l IH]; intros i k Hj (c & Hk & Hc); [done|]. cbn [find_apicid]. destruct k as [|k].
  - cbn in Hk. injection Hk as ->. rewrite Hc, Z.eqb_refl. f_equal. lia.
  - rewrite (proj2 (Z.eqb_neq _ _)) by (apply (Hj 0%nat); [lia|done]). rewrite (IH (S i) k); [f_equal; lia| |by exists c].
    intros j Hlt. apply (Hj (S j)). lia.
Qed.

(** After [mpinit], a processor finds its own entry: the ids of the table tell the processors apart. *)
Lemma mycpu_finds l s s' i a :
  ncpu s = 0%nat → noted l s s' → NoDup (processors l) → processors l !! i = Some a → (i < NCPU)%nat → mycpu false a s' = inl i.
Proof.
  intros H0 Hn Hd Hi Hlt. unfold mycpu. destruct (Hn) as [N _ W _ _ _ _]. rewrite H0, Nat.add_0_l in N.
  assert (i < length (processors l))%nat as Hil by (by eapply lookup_lt_Some).
  assert (∀ k b, processors l !! k = Some b → (k < NCPU)%nat → ∃ c, take (ncpu s') (Mp.cpus s') !! k = Some c ∧ fst c = b) as Hc.
  { intros k b Hk Hk8. destruct (W k b Hk) as (c & _ & Hc); [lia|]. rewrite H0, Nat.add_0_l in Hc. exists (fresh_cpu b (snd c)). split; [|done].
    apply lookup_lt_Some in Hk. rewrite lookup_take_lt by lia. exact Hc. }
  rewrite (find_apicid_first a _ 0 i); [done| |by apply (Hc i a)].
  intros j Hj c Hjc E. destruct (lookup_lt_is_Some_2 (processors l) j) as [b Hb]; [lia|]. destruct (Hc j b Hb) as (c' & Hc' & Eb); [lia|].
  rewrite Hc' in Hjc. injection Hjc as ->. rewrite E in Eb. subst b. assert (j = i) by (eapply NoDup_lookup; done). lia.
Qed.

(** ** [startothers] *)

Section Start.
Context {D : Type} `{Bus D}.
(** The image of [entryother.S], the addresses of [mpenter] and [entrypgdir], and of [cpus[i].started]. *)
Context (image : list Z) (mpenter entrypgdir : Z) (started : nat → Z).

Definition code : Z := P2V 0x7000.
Definition on_dev (f : D → D) : M (kmem * D) unit := modify (λ s, (fst s, f (snd s))).

(** [memmove] into memory the started processor reads. *)
Fixpoint store_bytes (a : Z) (l : list Z) (d : D) : D :=
  match l with
  | [] => d
  | b :: l => store_bytes (a + 1) l (wr (Byte a) b d)
  end.

(** [while(c->started == 0)]. *)
Fixpoint wait_started (fuel : nat) (i : nat) : M (kmem * D) unit :=
  match fuel with
  | O => panic "out of fuel"
  | S fuel =>
      s ← get;
      let '(v, d) := rd (Long (started i)) (snd s) in
      put (fst s, d);;
      if v =? 0 then wait_started fuel i else mret tt
  end.

(** The turn for processor [i], with APIC id [apicid]. *)
Definition start_one (fuel : nat) (i : nat) (apicid : Z) : M (kmem * D) unit :=
  stack ← zoom fst (λ k s, (k, snd s)) kalloc;
  on_dev (wr (Long (code - 4)) (u32 (stack + KSTACKSIZE)));;
  on_dev (wr (Long (code - 8)) mpenter);;
  on_dev (wr (Long (code - 12)) (V2P entrypgdir));;
  on_dev (lapicstartap apicid (V2P code));;
  wait_started fuel i.
Fixpoint start_loop (fuel : nat) (me i : nat) (l : list Z) : M (kmem * D) unit :=
  match l with
  | [] => mret tt
  | a :: l => (if (i =? me)%nat then mret tt else start_one fuel i a);; start_loop fuel me (S i) l
  end.
(** By processor [me], over the APIC ids of [cpus] up to [ncpu]. *)
Definition startothers (fuel : nat) (me : nat) (s : mpstate) : M (kmem * D) unit :=
  on_dev (store_bytes code image);;
  start_loop fuel me 0 (map fst (take (ncpu s) (Mp.cpus s))).
End Start.

(** ** What the interrupts do *)

(** The processors started, each with the stack, the entry and the page table it was given; the destination of the next
    interrupt; the processors an INIT has reset; and the words of memory they read. *)
Record aps := Aps { booted : list (Z * (Z * Z * Z)); dest : Z; was_reset : gmap Z unit; long : gmap Z Z }.
Definition ap_long (a : Z) (v : aps) : Z := default 0 (long v !! a).
(** A reset processor starts at the page of the first STARTUP, takes its arguments from below it, and ignores the next. *)
Definition ap_command (c : Z) (v : aps) : aps :=
  if c =? Z.lor INIT (Z.lor LEVEL ASSERT) then Aps (booted v) (dest v) (<[dest v := tt]> (was_reset v)) (long v)
  else if Z.land c 0xfff00 =? STARTUP then
    match was_reset v !! dest v with
    | Some _ =>
        let a := P2V (Z.land c 0xff * 4096) in
        Aps (booted v ++ [(dest v, (ap_long (a - 4) v, ap_long (a - 8) v, ap_long (a - 12) v))]) (dest v) (delete (dest v) (was_reset v)) (long v)
    | None => v
    end
  else v.
Definition ap_write (a : io) (x : Z) (v : aps) : aps :=
  match a with
  | Lapic i => if i =? ICRHI then Aps (booted v) (x / 2 ^ 24) (was_reset v) (long v)
               else if i =? ICRLO then ap_command x v else v
  | Long a => Aps (booted v) (dest v) (was_reset v) (<[a := x]> (long v))
  | _ => v
  end.
Class Smp (D : Type) := { ap_view : D → aps }.
(** A processor that was started sets its flag. *)
Class SmpOk (D : Type) `{Bus D} `{Smp D} (started : nat → Z) (ids : list Z) : Prop := {
  smp_write a x d : ap_view (wr a x d) = ap_write a x (ap_view d);
  smp_read a d : ap_view (snd (rd a d)) = ap_view d;
  smp_started i a d : ids !! i = Some a → a ∈ map fst (booted (ap_view d)) → fst (rd (Long (started i)) d) ≠ 0 }.

Section Boots.
Context {D : Type} (started : nat → Z) (ids : list Z) `{HS : SmpOk D started ids}.
Context (kend mpenter entrypgdir : Z).

Lemma apicid_dest a : 0 ≤ a < 256 → u32 (Z.shiftl a 24) / 2 ^ 24 = a.
Proof. intros Ha. rewrite Z.shiftl_mul_pow2 by lia. change (2 ^ 24) with 16777216. rewrite u32_small by lia. by rewrite Z.div_mul. Qed.

Lemma lapicw_view i x d : ap_view (lapicw i x d) = ap_write (Lapic i) (u32 x) (ap_view d).
Proof. unfold lapicw. by rewrite smp_read, smp_write. Qed.

Lemma ap_reset v : ap_command (Z.lor INIT (Z.lor LEVEL ASSERT)) v = Aps (booted v) (dest v) (<[dest v := tt]> (was_reset v)) (long v).
Proof. unfold ap_command. by rewrite Z.eqb_refl. Qed.
Lemma ap_deassert v : ap_command 0x8500 v = v.
Proof. reflexivity. Qed.
Lemma ap_startup v : was_reset v !! dest v = Some tt →
  ap_command 0x607 v = Aps (booted v ++ [(dest v, (ap_long (code - 4) v, ap_long (code - 8) v, ap_long (code - 12) v))]) (dest v) (delete (dest v) (was_reset v)) (long v).
Proof.
  intros E. unfold ap_command. change (0x607 =? Z.lor INIT (Z.lor LEVEL ASSERT)) with false. change (Z.land 0x607 0xfff00 =? STARTUP) with true. cbv iota.
  by rewrite E.
Qed.
Lemma ap_startup_again v : was_reset v !! dest v = None → ap_command 0x607 v = v.
Proof.
  intros E. unfold ap_command. change (0x607 =? Z.lor INIT (Z.lor LEVEL ASSERT)) with false. change (Z.land 0x607 0xfff00 =? STARTUP) with true. cbv iota.
  by rewrite E.
Qed.

(** INIT, then STARTUP twice: the processor starts once. *)
Lemma lapicstartap_view a d (v := ap_view d) : 0 ≤ a < 256 →
  ap_view (lapicstartap a 0x7000 d) =
  Aps (booted v ++ [(a, (ap_long (code - 4) v, ap_long (code - 8) v, ap_long (code - 12) v))]) a (delete a (<[a := tt]> (was_reset v))) (long v).
Proof.
  intros Ha. unfold lapicstartap. rewrite !lapicw_view. unfold outb_. rewrite !smp_write. fold v. cbn [ap_write].
  change (ICRHI =? ICRHI) with true. change (ICRLO =? ICRHI) with false. change (ICRLO =? ICRLO) with true. cbv iota.
  rewrite !apicid_dest by done. destruct v as [bt de re lo].
  change (u32 (Z.lor INIT (Z.lor LEVEL ASSERT))) with (Z.lor INIT (Z.lor LEVEL ASSERT)). change (u32 (Z.lor INIT LEVEL)) with 0x8500.
  change (u32 (Z.lor STARTUP (Z.shiftr 0x7000 12))) with 0x607.
  rewrite ap_reset, ap_deassert. cbn [booted dest was_reset long]. rewrite (ap_startup (Aps bt a (<[a := tt]> re) lo)) by apply lookup_insert_eq. cbn [booted dest was_reset long].
  rewrite ap_startup_again by apply lookup_delete_eq. reflexivity.
Qed.

Lemma wait_started_ok fuel i a c k d :
  ids !! i = Some a → a ∈ map fst (booted (ap_view d)) →
  ∃ d', wait_started started (S fuel) i c (k, d) = Ret tt c (k, d') ∧ ap_view d' = ap_view d.
Proof.
  intros Hi Ha. cbn [wait_started]. unfold mbind, M_bind, get, put. cbn [snd fst]. pose proof (smp_started i a d Hi Ha) as Hs. pose proof (smp_read (Long (started i)) d) as Hr.
  destruct (rd (Long (started i)) d) as [v d1]. cbn [fst snd] in *. rewrite (proj2 (Z.eqb_neq v 0)) by done. by exists d1.
Qed.

(** A turn of the loop boots the processor with a fresh page as its stack. *)
Lemma start_one_ok fuel i a c k d stack F :
  Lkmem ∉ held c → kinv kend k (stack :: F) → ids !! i = Some a → 0 ≤ a < 256 →
  ∃ k' d', start_one mpenter entrypgdir started (S fuel) i a c (k, d) = Ret tt c (k', d') ∧ kinv kend k' F ∧
    booted (ap_view d') = booted (ap_view d) ++ [(a, (u32 (stack + KSTACKSIZE), mpenter, V2P entrypgdir))].
Proof.
  intros HL HF Hi Ha. destruct c as [L tr]. destruct (kalloc_cons kend L tr k stack F) as (k' & Ek & Hk & _); [done..|].
  unfold start_one, zoom, on_dev, modify, mbind, M_bind. cbn [fst snd]. rewrite Ek. cbn [fst snd]. change (V2P code) with 0x7000.
  set (d1 := wr (Long (code - 12)) _ _). pose proof (lapicstartap_view a d1 Ha) as Hv.
  assert (ap_long (code - 4) (ap_view d1) = u32 (stack + KSTACKSIZE) ∧ ap_long (code - 8) (ap_view d1) = mpenter ∧
    ap_long (code - 12) (ap_view d1) = V2P entrypgdir ∧ booted (ap_view d1) = booted (ap_view d)) as (E4 & E8 & E12 & Eb).
  { unfold d1. rewrite !smp_write. cbn [ap_write booted]. unfold ap_long. cbn [long]. change (code - 4) with 0x80006ffc. change (code - 8) with 0x80006ff8. change (code - 12) with 0x80006ff4.
    split_and!; [by rewrite !lookup_insert_ne, lookup_insert_eq by done|by rewrite lookup_insert_ne, lookup_insert_eq by done|by rewrite lookup_insert_eq|done]. }
  rewrite E4, E8, E12, Eb in Hv. destruct (wait_started_ok fuel i a (Ctx L tr) k' (lapicstartap a 0x7000 d1)) as (d2 & Ew & Ev); [done| |].
  { rewrite Hv. cbn [booted]. rewrite map_app. apply elem_of_app. right. by apply list_elem_of_singleton. }
  exists k', d2. split; [exact Ew|]. split; [done|]. by rewrite Ev, Hv.
Qed.

(** The ids from index [i] on, without that of [me]. *)
Fixpoint others (me i : nat) (l : list Z) : list Z :=
  match l with
  | [] => []
  | a :: l => if (i =? me)%nat then others me (S i) l else a :: others me (S i) l
  end.
Definition boot_record (a stack : Z) : Z * (Z * Z * Z) := (a, (u32 (stack + KSTACKSIZE), mpenter, V2P entrypgdir)).

Lemma start_loop_ok fuel me c F l : ∀ i stacks k d,
  Lkmem ∉ held c → kinv kend k (stacks ++ F) → (∀ j a, l !! j = Some a → ids !! (i + j)%nat = Some a ∧ 0 ≤ a < 256) → length stacks = length (others me i l) →
  ∃ k' d', start_loop mpenter entrypgdir started (S fuel) me i l c (k, d) = Ret tt c (k', d') ∧ kinv kend k' F ∧
    booted (ap_view d') = booted (ap_view d) ++ zip_with boot_record (others me i l) stacks.
Proof.
  induction l as [|a l IH]; intros i stacks k d HL HF Hl Hs; cbn [start_loop others] in *.
  - destruct stacks; [|done]. exists k, d. rewrite app_nil_r. done.
  - assert (∀ j b, l !! j = Some b → ids !! (S i + j)%nat = Some b ∧ 0 ≤ b < 256) as Hl' by (intros j b Hj; destruct (Hl (S j) b Hj); by rewrite <- plus_n_Sm in *).
    destruct (i =? me)%nat; [by apply IH|]. destruct stacks as [|stack stacks]; [done|]. destruct (Hl 0%nat a eq_refl) as [Hi Ha]. rewrite Nat.add_0_r in Hi.
    destruct (start_one_ok fuel i a c k d stack (stacks ++ F) HL HF Hi Ha) as (k1 & d1 & E1 & HF1 & B1).
    destruct (IH (S i) stacks k1 d1) as (k2 & d2 & E2 & HF2 & B2); [done|done|done|by injection Hs|].
    exists k2, d2. split; [unfold mbind, M_bind; by rewrite E1|]. split; [done|]. rewrite B2, B1, <- app_assoc. done.
Qed.

Lemma store_bytes_view l : ∀ a d, ap_view (store_bytes a l d) = ap_view d.
Proof. induction l as [|b l IH]; intros a d; [done|]. cbn [store_bytes]. by rewrite IH, smp_write. Qed.

End Boots.

(** ** A machine of three processors *)

Module SampleStart.
Definition ids : list Z := [0; 2; 4].
Definition started (i : nat) : Z := 0x80113000 + 176 * Z.of_nat i.
(** A processor that was started has set its flag. *)
#[export] Instance aps_bus : Bus aps := {|
  rd a v := (match a with
             | Long x => if existsb (λ i, (x =? started i) && bool_decide (ids !! i ∈ map (λ b, Some (fst b)) (booted v))) (seq 0 3) then 1 else 0
             | _ => 0
             end, v);
  wr := ap_write |}.
#[export] Instance aps_smp : Smp aps := {| ap_view v := v |}.
#[export] Instance aps_ok : SmpOk aps started ids.
Proof.
  split; [done|done|]. intros i a v Hi Ha.
  change (fst (rd (Long (started i)) v)) with (if existsb (λ j, (started i =? started j) && bool_decide (ids !! j ∈ map (λ b, Some (fst b)) (booted v))) (seq 0 3) then 1 else 0).
  assert (existsb (λ j, (started i =? started j) && bool_decide (ids !! j ∈ map (λ b, Some (fst b)) (booted v))) (seq 0 3) = true) as ->; [|done].
  apply existsb_exists. exists i. split; [apply in_seq; apply lookup_lt_Some in Hi; cbn in Hi; lia|]. rewrite Z.eqb_refl. cbn [andb].
  apply bool_decide_eq_true_2. rewrite Hi. apply list_elem_of_fmap in Ha as (b & -> & Hb). apply list_elem_of_fmap. by exists b.
Qed.
Definition found : mpstate := MP (map (λ a, (a, cpu0)) ids ++ replicate 5 (0, cpu0)) 3 0 0xfee00000 [].

End SampleStart.
