(* ===== verification/Seg.v ===== *)
(** * Segments and gates

    The descriptors of [mmu.h], the tables that [seginit] ([vm.c]) and [tvinit]
    ([trap.c]) fill, and the processor's own id ([mycpu] of [proc.c]).  A
    descriptor is a struct of bit-fields in C and 64 bits to the processor; both
    are here, and the theorems are about what the processor reads. *)

From S2P Require Import Prelude Bytes Mem Ulib Proc Trap.

(** ** Bit-fields *)

(** Fields with their widths, the first in the low bits: a value is cut to its width. *)
Fixpoint pack (l : list (Z * Z)) : Z :=
  match l with
  | [] => 0
  | (v, w) :: l => v mod 2 ^ w + 2 ^ w * pack l
  end.
Definition width (l : list (Z * Z)) : Z := foldr (λ f n, snd f + n) 0 l.
(** Bits [lo] to [lo + n - 1]. *)
Definition bits (v lo n : Z) : Z := Z.shiftr v lo mod 2 ^ n.

Lemma width_nonneg l : Forall (λ f, 0 ≤ snd f) l → 0 ≤ width l.
Proof. induction 1; simpl; lia. Qed.
Lemma bits_pack l1 v w l2 : Forall (λ f, 0 ≤ snd f) l1 → 0 ≤ w → bits (pack (l1 ++ (v, w) :: l2)) (width l1) w = v mod 2 ^ w.
Proof.
  intros Hl Hw. unfold bits. induction l1 as [|[u k] l1 IH]; cbn [app pack width foldr snd].
  - rewrite Z.shiftr_0_r, Z.mul_comm, Z_mod_plus_full, Z.mod_mod; [done|]. apply Z.pow_nonzero; lia.
  - apply Forall_cons in Hl as [Hk Hl]. cbn [snd] in Hk. rewrite <- Z.shiftr_shiftr by (by apply width_nonneg).
    rewrite (Z.shiftr_div_pow2 _ k) by done. assert (2 ^ k ≠ 0) by (apply Z.pow_nonzero; lia).
    rewrite Z.mul_comm, Z.div_add, Z.div_small, Z.add_0_l by (done || (apply Z.mod_pos_bound; lia)). by apply IH.
Qed.

Lemma bits_field l k f : Forall (λ f, 0 ≤ snd f) l → l !! k = Some f → bits (pack l) (width (take k l)) (snd f) = fst f mod 2 ^ snd f.
Proof.
  intros Hl Hk. rewrite <- (take_drop_middle l k f Hk) at 1. rewrite (surjective_pairing f). apply bits_pack.
  - by apply Forall_take.
  - by apply (Forall_lookup_1 _ _ _ _ Hl Hk).
Qed.

(** ** Segment descriptors *)

Record segdesc := SegDesc {
  lim_15_0 : Z; base_15_0 : Z; base_23_16 : Z; sd_type : Z; sd_s : Z; sd_dpl : Z; sd_p : Z;
  lim_19_16 : Z; avl : Z; sd_rsv1 : Z; db : Z; g : Z; base_31_24 : Z }.
Definition seg_fields (d : segdesc) : list (Z * Z) :=
  [(lim_15_0 d, 16); (base_15_0 d, 16); (base_23_16 d, 8); (sd_type d, 4); (sd_s d, 1); (sd_dpl d, 2); (sd_p d, 1);
   (lim_19_16 d, 4); (avl d, 1); (sd_rsv1 d, 1); (db d, 1); (g d, 1); (base_31_24 d, 8)].
Definition SEG (type base lim dpl : Z) : segdesc :=
  SegDesc (Z.land (Z.shiftr lim 12) 0xffff) (Z.land base 0xffff) (Z.land (Z.shiftr base 16) 0xff) type 1 dpl 1
          (Z.shiftr lim 28) 0 0 1 1 (Z.shiftr base 24).
Definition SEG16 (type base lim dpl : Z) : segdesc :=
  SegDesc (Z.land lim 0xffff) (Z.land base 0xffff) (Z.land (Z.shiftr base 16) 0xff) type 1 dpl 1
          (Z.shiftr lim 16) 0 0 1 0 (Z.shiftr base 24).

Definition SEG_KCODE : Z := 1.
Definition SEG_KDATA : Z := 2.
Definition SEG_UCODE : Z := 3.
Definition SEG_UDATA : Z := 4.
Definition SEG_TSS : Z := 5.
Definition NSEGS : nat := 6.
Definition STA_X : Z := 8.
Definition STA_W : Z := 2.
Definition STA_R : Z := 2.
Definition STS_T32A : Z := 9.
Definition STS_IG32 : Z := 0xe.
Definition STS_TG32 : Z := 0xf.

(** The table of a CPU, from the one it had. *)
Definition seginit (gdt : list segdesc) : list segdesc :=
  let gdt := <[Z.to_nat SEG_KCODE := SEG (Z.lor STA_X STA_R) 0 0xffffffff 0]> gdt in
  let gdt := <[Z.to_nat SEG_KDATA := SEG STA_W 0 0xffffffff 0]> gdt in
  let gdt := <[Z.to_nat SEG_UCODE := SEG (Z.lor STA_X STA_R) 0 0xffffffff DPL_USER]> gdt in
  <[Z.to_nat SEG_UDATA := SEG STA_W 0 0xffffffff DPL_USER]> gdt.
(** The task state segment [switchuvm] installs: the descriptor of the [n] bytes at [ts]. *)
Definition set_s (s : Z) (d : segdesc) : segdesc :=
  SegDesc (lim_15_0 d) (base_15_0 d) (base_23_16 d) (sd_type d) s (sd_dpl d) (sd_p d) (lim_19_16 d) (avl d) (sd_rsv1 d) (db d) (g d) (base_31_24 d).
(** The fields of [struct taskstate]: words, and selectors with two bytes after them. *)
Definition taskstate_fields : list (string * Z) :=
  [("link", 4); ("esp0", 4); ("ss0", 2); ("padding1", 2); ("esp1", 4); ("ss1", 2); ("padding2", 2); ("esp2", 4); ("ss2", 2); ("padding3", 2);
   ("cr3", 4); ("eip", 4); ("eflags", 4); ("eax", 4); ("ecx", 4); ("edx", 4); ("ebx", 4); ("esp", 4); ("ebp", 4); ("esi", 4); ("edi", 4);
   ("es", 2); ("padding4", 2); ("cs", 2); ("padding5", 2); ("ss", 2); ("padding6", 2); ("ds", 2); ("padding7", 2); ("fs", 2); ("padding8", 2);
   ("gs", 2); ("padding9", 2); ("ldt", 2); ("padding10", 2); ("t", 2); ("iomb", 2)]%string.
Definition sizeof_taskstate : Z := foldr (λ f n, snd f + n) 0 taskstate_fields.
Definition tss_segment (ts : Z) (gdt : list segdesc) : list segdesc :=
  <[Z.to_nat SEG_TSS := set_s 0 (SEG16 STS_T32A ts (sizeof_taskstate - 1) 0)]> gdt.

(** ** Gates *)

Record gatedesc := GateDesc {
  off_15_0 : Z; gd_cs : Z; gd_args : Z; gd_rsv1 : Z; gd_type : Z; gd_s : Z; gd_dpl : Z; gd_p : Z; off_31_16 : Z }.
Definition gate_fields (d : gatedesc) : list (Z * Z) :=
  [(off_15_0 d, 16); (gd_cs d, 16); (gd_args d, 5); (gd_rsv1 d, 3); (gd_type d, 4); (gd_s d, 1); (gd_dpl d, 2); (gd_p d, 1); (off_31_16 d, 16)].
Definition SETGATE (istrap : bool) (sel off d : Z) : gatedesc :=
  GateDesc (Z.land off 0xffff) sel 0 0 (if istrap then STS_TG32 else STS_IG32) 0 d 1 (Z.shiftr off 16).

(** [tvinit]: [vectors] is the table [vectors.S] holds. *)
Definition tvinit (vectors : list Z) (idt : list gatedesc) : list gatedesc :=
  let idt := foldl (λ t i, <[i := SETGATE false (Z.shiftl SEG_KCODE 3) (nth i vectors 0) 0]> t) idt (seq 0 256) in
  <[Z.to_nat T_SYSCALL := SETGATE true (Z.shiftl SEG_KCODE 3) (nth (Z.to_nat T_SYSCALL) vectors 0) DPL_USER]> idt.

(** ** What the processor reads *)

Definition seg_base (v : Z) : Z := bits v 16 16 + 2 ^ 16 * bits v 32 8 + 2 ^ 24 * bits v 56 8.
(** The last offset of the segment: the limit counts pages when the granularity bit is set. *)
Definition seg_limit (v : Z) : Z :=
  let l := bits v 0 16 + 2 ^ 16 * bits v 48 4 in if bits v 55 1 =? 1 then 4096 * l + 4095 else l.
Definition seg_type (v : Z) : Z := bits v 40 4.
Definition seg_app (v : Z) : bool := bits v 44 1 =? 1.
Definition seg_dpl (v : Z) : Z := bits v 45 2.
Definition seg_present (v : Z) : bool := bits v 47 1 =? 1.
Definition seg_32 (v : Z) : bool := bits v 54 1 =? 1.
Definition gate_off (v : Z) : Z := bits v 0 16 + 2 ^ 16 * bits v 48 16.
Definition gate_sel (v : Z) : Z := bits v 16 16.
Definition gate_type (v : Z) : Z := bits v 40 4.
Definition gate_dpl (v : Z) : Z := bits v 45 2.
Definition gate_present (v : Z) : bool := bits v 47 1 =? 1.

(** [INT n] by code of privilege [cpl], or an interrupt from a device: where the processor goes on, at which
    privilege, and whether it disables interrupts; a fault otherwise. *)
Inductive entered := Enters (eip cpl : Z) (clears_if : bool) | Fault.
Definition enter (gdt idt : list Z) (software : bool) (cpl n : Z) : entered :=
  let v := nth (Z.to_nat n) idt 0 in
  if negb ((0 <=? n) && (n <? Z.of_nat (length idt))) then Fault
  else if negb ((gate_type v =? STS_IG32) || (gate_type v =? STS_TG32)) then Fault
  else if software && (gate_dpl v <? cpl) then Fault
  else if negb (gate_present v) then Fault
  else
    let c := nth (Z.to_nat (gate_sel v / 8)) gdt 0 in
    if negb (seg_app c && seg_present c && Z.testbit (seg_type c) 3 && (seg_dpl c <=? cpl)) then Fault
    else if seg_limit c <? gate_off v then Fault
    else Enters (seg_base c + gate_off v) (seg_dpl c) (gate_type v =? STS_IG32).

Definition gdt_words (gdt : list segdesc) : list Z := map (λ d, pack (seg_fields d)) gdt.
Definition idt_words (idt : list gatedesc) : list Z := map (λ d, pack (gate_fields d)) idt.

(** ** Descriptors as the processor reads them *)

Lemma seg_widths d : Forall (λ f, 0 ≤ snd f) (seg_fields d).
Proof. repeat constructor; cbn [snd]; lia. Qed.
Lemma gate_widths d : Forall (λ f, 0 ≤ snd f) (gate_fields d).
Proof. repeat constructor; cbn [snd]; lia. Qed.

Lemma seg_read d (v := pack (seg_fields d)) :
  bits v 0 16 = lim_15_0 d mod 2 ^ 16 ∧ bits v 16 16 = base_15_0 d mod 2 ^ 16 ∧ bits v 32 8 = base_23_16 d mod 2 ^ 8 ∧
  bits v 40 4 = sd_type d mod 2 ^ 4 ∧ bits v 44 1 = sd_s d mod 2 ^ 1 ∧ bits v 45 2 = sd_dpl d mod 2 ^ 2 ∧ bits v 47 1 = sd_p d mod 2 ^ 1 ∧
  bits v 48 4 = lim_19_16 d mod 2 ^ 4 ∧ bits v 54 1 = db d mod 2 ^ 1 ∧ bits v 55 1 = g d mod 2 ^ 1 ∧ bits v 56 8 = base_31_24 d mod 2 ^ 8.
Proof.
  pose proof (λ k f, bits_field (seg_fields d) k f (seg_widths d)) as Hf.
  split_and!; [exact (Hf 0%nat _ eq_refl)|exact (Hf 1%nat _ eq_refl)|exact (Hf 2%nat _ eq_refl)|exact (Hf 3%nat _ eq_refl)|exact (Hf 4%nat _ eq_refl)|
    exact (Hf 5%nat _ eq_refl)|exact (Hf 6%nat _ eq_refl)|exact (Hf 7%nat _ eq_refl)|exact (Hf 10%nat _ eq_refl)|exact (Hf 11%nat _ eq_refl)|exact (Hf 12%nat _ eq_refl)].
Qed.

Lemma gate_read d (v := pack (gate_fields d)) :
  bits v 0 16 = off_15_0 d mod 2 ^ 16 ∧ bits v 16 16 = gd_cs d mod 2 ^ 16 ∧ bits v 40 4 = gd_type d mod 2 ^ 4 ∧
  bits v 45 2 = gd_dpl d mod 2 ^ 2 ∧ bits v 47 1 = gd_p d mod 2 ^ 1 ∧ bits v 48 16 = off_31_16 d mod 2 ^ 16.
Proof.
  pose proof (λ k f, bits_field (gate_fields d) k f (gate_widths d)) as Hf.
  split_and!; [exact (Hf 0%nat _ eq_refl)|exact (Hf 1%nat _ eq_refl)|exact (Hf 4%nat _ eq_refl)|
    exact (Hf 6%nat _ eq_refl)|exact (Hf 7%nat _ eq_refl)|exact (Hf 8%nat _ eq_refl)].
Qed.

Lemma low16 a : Z.land a 0xffff mod 2 ^ 16 = a mod 65536.
Proof. change 0xffff with (Z.ones 16). rewrite Z.land_ones by lia. rewrite Z.mod_mod by done. done. Qed.
Lemma low8 a : Z.land a 0xff mod 2 ^ 8 = a mod 256.
Proof. change 0xff with (Z.ones 8). rewrite Z.land_ones by lia. rewrite Z.mod_mod by done. done. Qed.

(** [SEG] gives the segment it is asked for, its limit up to the end of a page; [SEG16], whose limit counts bytes,
    gives limits under a megabyte exactly. *)
Lemma seg_bits big type base lim dpl (v := pack (seg_fields ((if big : bool then SEG else SEG16) type base lim dpl))) :
  0 ≤ base < 2 ^ 32 → 0 ≤ lim < (if big then 2 ^ 32 else 2 ^ 20) → 0 ≤ type < 16 → 0 ≤ dpl < 4 →
  seg_base v = base ∧ seg_limit v = (if big then 4096 * (lim / 4096) + 4095 else lim) ∧ seg_type v = type ∧ seg_dpl v = dpl ∧
  seg_app v = true ∧ seg_present v = true ∧ seg_32 v = true.
Proof.
  intros Hb Hl Ht Hd. unfold v, seg_base, seg_limit, seg_type, seg_dpl, seg_app, seg_present, seg_32. set (d := (if big then _ else _) _ _ _ _).
  destruct (seg_read d) as (-> & -> & -> & -> & -> & -> & -> & -> & -> & -> & ->). unfold d, SEG, SEG16. destruct big;
    cbn [lim_15_0 base_15_0 base_23_16 sd_type sd_s sd_dpl sd_p lim_19_16 db g base_31_24];
    rewrite !low16, low8, !Z.shiftr_div_pow2 by lia;
    change (2 ^ 32) with 4294967296 in *; change (2 ^ 20) with 1048576 in *; change (2 ^ 16) with 65536; change (2 ^ 24) with 16777216; change (2 ^ 12) with 4096;
    change (2 ^ 28) with 268435456; change (2 ^ 8) with 256; change (2 ^ 4) with 16; change (2 ^ 2) with 4; change (2 ^ 1) with 2;
    change (1 mod 2) with 1; change (0 mod 2) with 0; cbn [Z.eqb Pos.eqb]; split_and!; try reflexivity; try (apply Z.mod_small; lia); Z.to_euclidean_division_equations; lia.
Qed.

(** ** Entering the kernel *)

Lemma fill_lookup {A} (f : nat → A) (t : list A) n i : (n ≤ length t)%nat →
  foldl (λ t i, <[i := f i]> t) t (seq 0 n) !! i = if (i <? n)%nat then Some (f i) else t !! i.
Proof.
  intros Hn. assert (length (foldl (λ t i, <[i := f i]> t) t (seq 0 n)) = length t) as Hlen.
  { clear Hn. induction n as [|n IH]; [done|]. rewrite seq_S, foldl_app. cbn [foldl]. by rewrite length_insert. }
  induction n as [|n IH]; [done|]. rewrite seq_S, foldl_app in *. cbn [foldl] in *. rewrite length_insert in Hlen.
  destruct (decide (i = n)) as [->|Hne].
  - rewrite list_lookup_insert_eq by (cbn; lia). by rewrite (proj2 (Nat.ltb_lt n (S n))) by lia.
  - rewrite list_lookup_insert_ne by (cbn; lia). rewrite IH by (done || lia). destruct (Nat.ltb_spec i n), (Nat.ltb_spec i (S n)); done || lia.
Qed.

Lemma tvinit_gate vectors idt n : length idt = 256%nat → (n < 256)%nat →
  tvinit vectors idt !! n =
  Some (SETGATE (n =? 64)%nat (Z.shiftl SEG_KCODE 3) (nth n vectors 0) (if (n =? 64)%nat then DPL_USER else 0)).
Proof.
  intros Hl Hn. unfold tvinit. change (Z.to_nat T_SYSCALL) with 64%nat. destruct (Nat.eqb_spec n 64) as [->|Hne].
  - apply list_lookup_insert_eq. apply lookup_lt_is_Some_1. rewrite fill_lookup by lia. done.
  - rewrite list_lookup_insert_ne by done. rewrite fill_lookup by lia. by rewrite (proj2 (Nat.ltb_lt n 256)).
Qed.
Lemma tvinit_length vectors idt : length idt = 256%nat → length (tvinit vectors idt) = 256%nat.
Proof.
  intros Hl. unfold tvinit. rewrite length_insert. generalize (λ i, SETGATE false (Z.shiftl SEG_KCODE 3) (nth i vectors 0) 0). intros f.
  rewrite <- Hl at 2. generalize 256%nat. intros n. clear Hl. induction n as [|n IH]; [done|]. rewrite seq_S, foldl_app. cbn [foldl]. by rewrite length_insert.
Qed.

Lemma gate_bits istrap sel off dpl (v := pack (gate_fields (SETGATE istrap sel off dpl))) :
  0 ≤ off < 2 ^ 32 → 0 ≤ sel < 2 ^ 16 → 0 ≤ dpl < 4 →
  gate_off v = off ∧ gate_sel v = sel ∧ gate_type v = (if istrap then STS_TG32 else STS_IG32) ∧ gate_dpl v = dpl ∧ gate_present v = true.
Proof.
  intros Ho Hs Hd. unfold v, gate_off, gate_sel, gate_type, gate_dpl, gate_present. destruct (gate_read (SETGATE istrap sel off dpl)) as (-> & -> & -> & -> & -> & ->).
  cbn [SETGATE off_15_0 gd_cs gd_type gd_dpl gd_p off_31_16]. rewrite low16, Z.shiftr_div_pow2 by lia. change (2 ^ 32) with 4294967296 in *. change (2 ^ 16) with 65536 in *.
  split_and!; [Z.to_euclidean_division_equations; lia|by apply Z.mod_small|by destruct istrap|by apply Z.mod_small|reflexivity].
Qed.

(** The kernel's code segment in the table of a CPU that runs a process. *)
Lemma kcode_word ts gdt : length gdt = NSEGS →
  nth 1 (gdt_words (tss_segment ts (seginit gdt))) 0 = pack (seg_fields (SEG (Z.lor STA_X STA_R) 0 0xffffffff 0)).
Proof.
  intros Hl. destruct gdt as [|d0 [|d1 [|d2 [|d3 [|d4 [|d5 [|]]]]]]]; try done.
Qed.


Module SampleTables.
Definition vectors : list Z := map (λ i, 0x80105000 + 8 * Z.of_nat i) (seq 0 256).
Definition gdt0 : list segdesc := replicate NSEGS (SegDesc 0 0 0 0 0 0 0 0 0 0 0 0 0).
Definition idt0 : list gatedesc := replicate 256 (GateDesc 0 0 0 0 0 0 0 0 0).
Lemma vectors_ok : Forall (λ a, 0 ≤ a < 2 ^ 32) vectors.
Proof. apply (bool_decide_eq_true_1 (Forall (λ a, 0 ≤ a < 2 ^ 32) vectors)). vm_compute. reflexivity. Qed.

End SampleTables.
