(* ===== verification/Usertests.v ===== *)
(** * The tests of the file system

    The tests of [usertests.c] that run in one process, as programs of [Ulib]
    over the system calls.  [buf] is what the program's buffer holds where its
    contents do not matter.  A test that fails prints why and exits; it passes
    when it returns. *)

From S2P Require Import Prelude Bytes Ulib Sysfile Fs.

(** The calls of [user.h] that [Ulib] does not have. *)
Class Unix (os : Type) := {
  u_chdir : list Z → os → Z * os;
  u_sbrk : Z → os → Z * os;
  u_read_at : Z → Z → Z → os → Z * os;    (* read(fd, address, n) *)
  u_mknod : list Z → Z → Z → os → Z * os;
  u_dup : Z → os → Z * os;
  u_move_file : list Z → list Z → os → Z * os }.

Section Tests.
Context {os : Type} `{Posix os, !Unix os}.
Context (buf : list Z).

Local Abbreviation open := (Ulib.open (os := os)).
Local Abbreviation close := (Ulib.close (os := os)).
Local Abbreviation read := (Ulib.read (os := os)).
Local Abbreviation write := (Ulib.write (os := os)).
Local Abbreviation link := (Ulib.link (os := os)).
Local Abbreviation unlink := (Ulib.unlink (os := os)).
Local Abbreviation mkdir := (Ulib.mkdir (os := os)).
Definition chdir (d : list Z) : U os Z := call (u_chdir d).

(** [init.c]: the console becomes descriptors 0, 1 and 2. *)
Definition init_console : U os unit :=
  fd ← open (lit "console") O_RDWR;
  (if fd <? 0 then
     call (u_mknod (lit "console") 1 1);;
     open (lit "console") O_RDWR;;
     mret tt
   else mret tt);;
  call (u_dup 0);;
  call (u_dup 0);;
  mret tt.

(** [printf] to the standard output of a format that ends the line. *)
Definition say (fmt : string) (args : list uarg) : U os unit := printf_loop 1 false (lit fmt ++ [10]) args.
(** [if(b){ printf(1, ...); exit(); }]. *)
Definition fail_if (b : bool) (fmt : string) (args : list uarg) : U os unit :=
  if b then say fmt args;; Ulib.exit else mret tt.
(** The same for a call, on its result. *)
Definition refuse (m : U os Z) (bad : Z → bool) (fmt : string) : U os unit := r ← m; fail_if (bad r) fmt [].
Definition lt0 (r : Z) : bool := r <? 0.
Definition ge0 (r : Z) : bool := 0 <=? r.
Definition eq0 (r : Z) : bool := r =? 0.
Definition ne0 (r : Z) : bool := negb (r =? 0).
Definition O_CREATE_RDWR : Z := Z.lor O_CREATE O_RDWR.

Definition iputtest : U os unit :=
  say "iput test" [];;
  refuse (mkdir (lit "iputdir")) lt0 "mkdir failed";;
  refuse (chdir (lit "iputdir")) lt0 "chdir iputdir failed";;
  refuse (unlink (lit "../iputdir")) lt0 "unlink ../iputdir failed";;
  refuse (chdir (lit "/")) lt0 "chdir / failed";;
  say "iput test ok" [].

Definition opentest : U os unit :=
  say "open test" [];;
  fd ← open (lit "echo") 0;
  fail_if (fd <? 0) "open echo failed!" [];;
  close fd;;
  fd ← open (lit "doesnotexist") 0;
  fail_if (0 <=? fd) "open doesnotexist succeeded!" [];;
  say "open test ok" [].

(** The loop of [writetest], from turn [i] on. *)
Fixpoint writetest_loop (n : nat) (i fd : Z) : U os unit :=
  match n with
  | O => mret tt
  | S n =>
      r ← write fd (lit "aaaaaaaaaa");
      fail_if (negb (r =? 10)) "error: write aa %d new file failed" [AWord i];;
      r ← write fd (lit "bbbbbbbbbb");
      fail_if (negb (r =? 10)) "error: write bb %d new file failed" [AWord i];;
      writetest_loop n (i + 1) fd
  end.
Definition writetest : U os unit :=
  say "small file test" [];;
  fd ← open (lit "small") O_CREATE_RDWR;
  (if 0 <=? fd then say "creat small succeeded; ok" [] else say "error: creat small failed!" [];; Ulib.exit);;
  writetest_loop 100 0 fd;;
  say "writes ok" [];;
  close fd;;
  fd ← open (lit "small") O_RDONLY;
  (if 0 <=? fd then say "open small succeeded ok" [] else say "error: open small failed!" [];; Ulib.exit);;
  i ← read fd 2000;
  (if fst i =? 2000 then say "read succeeded ok" [] else say "read failed" [];; Ulib.exit);;
  close fd;;
  refuse (unlink (lit "small")) lt0 "unlink small failed";;
  say "small file test ok" [].

(** A block with the number [i] in its first word. *)
Definition numbered (i : Z) : list Z := put32 0 i (take 512 buf).
Fixpoint writetest1_write (n : nat) (i fd : Z) : U os unit :=
  match n with
  | O => mret tt
  | S n =>
      r ← write fd (numbered i);
      fail_if (negb (r =? 512)) "error: write big file failed" [AWord i];;
      writetest1_write n (i + 1) fd
  end.
Fixpoint writetest1_read (fuel : nat) (n fd : Z) : U os unit :=
  match fuel with
  | O => undefined
  | S fuel =>
      r ← read fd 512;
      let i := fst r in
      if i =? 0 then
        if n =? MAXFILE - 1 then printf 1 "read only %d blocks from big" [AWord n];; Ulib.exit else mret tt
      else
        fail_if (negb (i =? 512)) "read failed %d" [AWord i];;
        fail_if (negb (get32 (snd r) 0 =? n)) "read content of block %d is %d" [AWord n; AWord (get32 (snd r) 0)];;
        writetest1_read fuel (n + 1) fd
  end.
Definition writetest1 (fuel : nat) : U os unit :=
  say "big files test" [];;
  fd ← open (lit "big") O_CREATE_RDWR;
  fail_if (fd <? 0) "error: creat big failed!" [];;
  writetest1_write (Z.to_nat MAXFILE) 0 fd;;
  close fd;;
  fd ← open (lit "big") O_RDONLY;
  fail_if (fd <? 0) "error: open big failed!" [];;
  writetest1_read fuel 0 fd;;
  close fd;;
  refuse (unlink (lit "big")) lt0 "unlink big failed";;
  say "big files ok" [].

(** [name], with ['0' + i] after its first letter. *)
Definition name_at (c i : Z) : list Z := [c; 48 + i].
Fixpoint each (n : nat) (i : Z) (f : Z → U os unit) : U os unit :=
  match n with
  | O => mret tt
  | S n => f i;; each n (i + 1) f
  end.
Definition createtest : U os unit :=
  say "many creates, followed by unlink test" [];;
  each 52 0 (λ i, fd ← open (name_at 97 i) O_CREATE_RDWR; close fd;; mret tt);;
  each 52 0 (λ i, unlink (name_at 97 i);; mret tt);;
  say "many creates, followed by unlink; ok" [].

Definition dirtest : U os unit :=
  say "mkdir test" [];;
  refuse (mkdir (lit "dir0")) lt0 "mkdir failed";;
  refuse (chdir (lit "dir0")) lt0 "chdir dir0 failed";;
  refuse (chdir (lit "..")) lt0 "chdir .. failed";;
  refuse (unlink (lit "dir0")) lt0 "unlink dir0 failed";;
  say "mkdir test ok" [].

Definition unlinkread : U os unit :=
  say "unlinkread test" [];;
  fd ← open (lit "unlinkread") O_CREATE_RDWR;
  fail_if (fd <? 0) "create unlinkread failed" [];;
  write fd (lit "hello");;
  close fd;;
  fd ← open (lit "unlinkread") O_RDWR;
  fail_if (fd <? 0) "open unlinkread failed" [];;
  refuse (unlink (lit "unlinkread")) ne0 "unlink unlinkread failed";;
  fd1 ← open (lit "unlinkread") O_CREATE_RDWR;
  write fd1 (lit "yyy");;
  close fd1;;
  r ← read fd 8192;
  (if negb (fst r =? 5) then printf 1 "unlinkread read failed" [];; Ulib.exit else mret tt);;
  fail_if (negb (char_at (snd r) 0 =? 104)) "unlinkread wrong data" [];;
  w ← write fd (take 10 (snd r ++ drop 5 buf));
  fail_if (negb (w =? 10)) "unlinkread write failed" [];;
  close fd;;
  unlink (lit "unlinkread");;
  say "unlinkread ok" [].

Definition linktest : U os unit :=
  say "linktest" [];;
  unlink (lit "lf1");;
  unlink (lit "lf2");;
  fd ← open (lit "lf1") O_CREATE_RDWR;
  fail_if (fd <? 0) "create lf1 failed" [];;
  w ← write fd (lit "hello");
  fail_if (negb (w =? 5)) "write lf1 failed" [];;
  close fd;;
  refuse (link (lit "lf1") (lit "lf2")) lt0 "link lf1 lf2 failed";;
  unlink (lit "lf1");;
  refuse (open (lit "lf1") 0) ge0 "unlinked lf1 but it is still there!";;
  fd ← open (lit "lf2") 0;
  fail_if (fd <? 0) "open lf2 failed" [];;
  r ← read fd 8192;
  fail_if (negb (fst r =? 5)) "read lf2 failed" [];;
  close fd;;
  refuse (link (lit "lf2") (lit "lf2")) ge0 "link lf2 lf2 succeeded! oops";;
  unlink (lit "lf2");;
  refuse (link (lit "lf2") (lit "lf1")) ge0 "link non-existant succeeded! oops";;
  refuse (link (lit ".") (lit "lf1")) ge0 "link . lf1 succeeded! oops";;
  say "linktest ok" [].

Definition bigdir_name (i : Z) : list Z := [120; 48 + i / 64; 48 + i mod 64].
Definition bigdir : U os unit :=
  say "bigdir test" [];;
  unlink (lit "bd");;
  fd ← open (lit "bd") O_CREATE;
  fail_if (fd <? 0) "bigdir create failed" [];;
  close fd;;
  each 500 0 (λ i, refuse (link (lit "bd") (bigdir_name i)) ne0 "bigdir link failed");;
  unlink (lit "bd");;
  each 500 0 (λ i, r ← unlink (bigdir_name i); if negb (r =? 0) then printf 1 "bigdir unlink failed" [];; Ulib.exit else mret tt);;
  say "bigdir ok" [].

(** [subdir] in four parts, one after the other. *)
Definition subdir_make : U os unit :=
  unlink (lit "ff");;
  refuse (mkdir (lit "dd")) ne0 "subdir mkdir dd failed";;
  fd ← open (lit "dd/ff") O_CREATE_RDWR;
  fail_if (fd <? 0) "create dd/ff failed" [];;
  write fd (lit "ff");;
  close fd;;
  refuse (unlink (lit "dd")) ge0 "unlink dd (non-empty dir) succeeded!";;
  refuse (mkdir (lit "/dd/dd")) ne0 "subdir mkdir dd/dd failed";;
  fd ← open (lit "dd/dd/ff") O_CREATE_RDWR;
  fail_if (fd <? 0) "create dd/dd/ff failed" [];;
  write fd (lit "FF");;
  close fd;;
  fd ← open (lit "dd/dd/../ff") 0;
  fail_if (fd <? 0) "open dd/dd/../ff failed" [];;
  r ← read fd 8192;
  fail_if (negb (fst r =? 2) || negb (char_at (snd r) 0 =? 102)) "dd/dd/../ff wrong content" [];;
  close fd;;
  mret tt.
Definition subdir_walk : U os unit :=
  refuse (link (lit "dd/dd/ff") (lit "dd/dd/ffff")) ne0 "link dd/dd/ff dd/dd/ffff failed";;
  refuse (unlink (lit "dd/dd/ff")) ne0 "unlink dd/dd/ff failed";;
  refuse (open (lit "dd/dd/ff") O_RDONLY) ge0 "open (unlinked) dd/dd/ff succeeded";;
  refuse (chdir (lit "dd")) ne0 "chdir dd failed";;
  refuse (chdir (lit "dd/../../dd")) ne0 "chdir dd/../../dd failed";;
  refuse (chdir (lit "dd/../../../dd")) ne0 "chdir dd/../../dd failed";;
  refuse (chdir (lit "./..")) ne0 "chdir ./.. failed";;
  fd ← open (lit "dd/dd/ffff") 0;
  fail_if (fd <? 0) "open dd/dd/ffff failed" [];;
  r ← read fd 8192;
  fail_if (negb (fst r =? 2)) "read dd/dd/ffff wrong len" [];;
  close fd;;
  mret tt.
Definition subdir_refused : U os unit :=
  refuse (open (lit "dd/dd/ff") O_RDONLY) ge0 "open (unlinked) dd/dd/ff succeeded!";;
  refuse (open (lit "dd/ff/ff") O_CREATE_RDWR) ge0 "create dd/ff/ff succeeded!";;
  refuse (open (lit "dd/xx/ff") O_CREATE_RDWR) ge0 "create dd/xx/ff succeeded!";;
  refuse (open (lit "dd") O_CREATE) ge0 "create dd succeeded!";;
  refuse (open (lit "dd") O_RDWR) ge0 "open dd rdwr succeeded!";;
  refuse (open (lit "dd") O_WRONLY) ge0 "open dd wronly succeeded!";;
  refuse (link (lit "dd/ff/ff") (lit "dd/dd/xx")) eq0 "link dd/ff/ff dd/dd/xx succeeded!";;
  refuse (link (lit "dd/xx/ff") (lit "dd/dd/xx")) eq0 "link dd/xx/ff dd/dd/xx succeeded!";;
  refuse (link (lit "dd/ff") (lit "dd/dd/ffff")) eq0 "link dd/ff dd/dd/ffff succeeded!";;
  refuse (mkdir (lit "dd/ff/ff")) eq0 "mkdir dd/ff/ff succeeded!";;
  refuse (mkdir (lit "dd/xx/ff")) eq0 "mkdir dd/xx/ff succeeded!";;
  refuse (mkdir (lit "dd/dd/ffff")) eq0 "mkdir dd/dd/ffff succeeded!";;
  refuse (unlink (lit "dd/xx/ff")) eq0 "unlink dd/xx/ff succeeded!";;
  refuse (unlink (lit "dd/ff/ff")) eq0 "unlink dd/ff/ff succeeded!";;
  refuse (chdir (lit "dd/ff")) eq0 "chdir dd/ff succeeded!";;
  refuse (chdir (lit "dd/xx")) eq0 "chdir dd/xx succeeded!".
Definition subdir_remove : U os unit :=
  refuse (unlink (lit "dd/dd/ffff")) ne0 "unlink dd/dd/ff failed";;
  refuse (unlink (lit "dd/ff")) ne0 "unlink dd/ff failed";;
  refuse (unlink (lit "dd")) eq0 "unlink non-empty dd succeeded!";;
  refuse (unlink (lit "dd/dd")) lt0 "unlink dd/dd failed";;
  refuse (unlink (lit "dd")) lt0 "unlink dd failed".
Definition subdir : U os unit :=
  say "subdir test" [];;
  subdir_make;;
  subdir_walk;;
  subdir_refused;;
  subdir_remove;;
  say "subdir ok" [].

(** The loop of [bigwrite], from size [sz] on. *)
Fixpoint bigwrite_loop (fuel : nat) (sz : Z) : U os unit :=
  if sz <? 12 * 512 then
    match fuel with
    | O => undefined
    | S fuel =>
        fd ← open (lit "bigwrite") O_CREATE_RDWR;
        fail_if (fd <? 0) "cannot create bigwrite" [];;
        each 2 0 (λ _, cc ← write fd (take (Z.to_nat sz) buf); fail_if (negb (cc =? sz)) "write(%d) ret %d" [AWord sz; AWord cc]);;
        close fd;;
        unlink (lit "bigwrite");;
        bigwrite_loop fuel (sz + 471)
    end
  else mret tt.
Definition bigwrite : U os unit :=
  say "bigwrite test" [];;
  unlink (lit "bigwrite");;
  bigwrite_loop 12 499;;
  say "bigwrite ok" [].

(** The loop of [bigfile] that reads; its result is [total]. *)
Fixpoint bigfile_read (fuel : nat) (i total fd : Z) : U os Z :=
  match fuel with
  | O => undefined
  | S fuel =>
      r ← read fd 300;
      let cc := fst r in
      fail_if (cc <? 0) "read bigfile failed" [];;
      if cc =? 0 then mret total
      else
        fail_if (negb (cc =? 300)) "short read bigfile" [];;
        fail_if (negb (char_at (snd r) 0 =? i / 2) || negb (char_at (snd r) 299 =? i / 2)) "read bigfile wrong data" [];;
        bigfile_read fuel (i + 1) (total + cc) fd
  end.
Definition bigfile (fuel : nat) : U os unit :=
  say "bigfile test" [];;
  unlink (lit "bigfile");;
  fd ← open (lit "bigfile") O_CREATE_RDWR;
  (if fd <? 0 then printf 1 "cannot create bigfile" [];; Ulib.exit else mret tt);;
  each 20 0 (λ i, w ← write fd (replicate 600 i); fail_if (negb (w =? 600)) "write bigfile failed" []);;
  close fd;;
  fd ← open (lit "bigfile") 0;
  fail_if (fd <? 0) "cannot open bigfile" [];;
  total ← bigfile_read fuel 0 0 fd;
  close fd;;
  fail_if (negb (total =? 20 * 600)) "read bigfile wrong total" [];;
  unlink (lit "bigfile");;
  say "bigfile test ok" [].

Definition fourteen : U os unit :=
  say "fourteen test" [];;
  refuse (mkdir (lit "12345678901234")) ne0 "mkdir 12345678901234 failed";;
  refuse (mkdir (lit "12345678901234/123456789012345")) ne0 "mkdir 12345678901234/123456789012345 failed";;
  fd ← open (lit "123456789012345/123456789012345/123456789012345") O_CREATE;
  fail_if (fd <? 0) "create 123456789012345/123456789012345/123456789012345 failed" [];;
  close fd;;
  fd ← open (lit "12345678901234/12345678901234/12345678901234") 0;
  fail_if (fd <? 0) "open 12345678901234/12345678901234/12345678901234 failed" [];;
  close fd;;
  refuse (mkdir (lit "12345678901234/12345678901234")) eq0 "mkdir 12345678901234/12345678901234 succeeded!";;
  refuse (mkdir (lit "123456789012345/12345678901234")) eq0 "mkdir 12345678901234/123456789012345 succeeded!";;
  say "fourteen ok" [].

Definition rmdot : U os unit :=
  say "rmdot test" [];;
  refuse (mkdir (lit "dots")) ne0 "mkdir dots failed";;
  refuse (chdir (lit "dots")) ne0 "chdir dots failed";;
  refuse (unlink (lit ".")) eq0 "rm . worked!";;
  refuse (unlink (lit "..")) eq0 "rm .. worked!";;
  refuse (chdir (lit "/")) ne0 "chdir / failed";;
  refuse (unlink (lit "dots/.")) eq0 "unlink dots/. worked!";;
  refuse (unlink (lit "dots/..")) eq0 "unlink dots/.. worked!";;
  refuse (unlink (lit "dots")) ne0 "unlink dots failed!";;
  say "rmdot ok" [].

Definition dirfile : U os unit :=
  say "dir vs file" [];;
  fd ← open (lit "dirfile") O_CREATE;
  fail_if (fd <? 0) "create dirfile failed" [];;
  close fd;;
  refuse (chdir (lit "dirfile")) eq0 "chdir dirfile succeeded!";;
  refuse (open (lit "dirfile/xx") 0) ge0 "create dirfile/xx succeeded!";;
  refuse (open (lit "dirfile/xx") O_CREATE) ge0 "create dirfile/xx succeeded!";;
  refuse (mkdir (lit "dirfile/xx")) eq0 "mkdir dirfile/xx succeeded!";;
  refuse (unlink (lit "dirfile/xx")) eq0 "unlink dirfile/xx succeeded!";;
  refuse (link (lit "README") (lit "dirfile/xx")) eq0 "link to dirfile/xx succeeded!";;
  refuse (unlink (lit "dirfile")) ne0 "unlink dirfile failed!";;
  refuse (open (lit ".") O_RDWR) ge0 "open . for writing succeeded!";;
  fd ← open (lit ".") 0;
  w ← write fd (lit "x");
  fail_if (0 <? w) "write . succeeded!" [];;
  close fd;;
  say "dir vs file OK" [].

(** [n] turns; the source makes [NINODE + 1]. *)
Definition iref_turns (n : nat) : U os unit :=
  each n 0 (λ _,
    refuse (mkdir (lit "irefd")) ne0 "mkdir irefd failed";;
    refuse (chdir (lit "irefd")) ne0 "chdir irefd failed";;
    mkdir [];;
    link (lit "README") [];;
    fd ← open [] O_CREATE;
    (if 0 <=? fd then close fd;; mret tt else mret tt);;
    fd ← open (lit "xx") O_CREATE;
    (if 0 <=? fd then close fd;; mret tt else mret tt);;
    unlink (lit "xx");;
    mret tt).
Definition iref : U os unit :=
  say "empty file name" [];;
  iref_turns 51;;
  chdir (lit "/");;
  say "empty file name OK" [].

Definition argptest : U os unit :=
  fd ← open (lit "init") O_RDONLY;
  (if fd <? 0 then printf_loop 2 false (lit "open failed" ++ [10]) [];; Ulib.exit else mret tt);;
  b ← call (u_sbrk 0);
  call (u_read_at fd (u32 (b - 1)) (-1));;
  close fd;;
  say "arg test passed" [].

(** The lab's test of [move_file]; it is not called. *)
Definition test_move_file : U os unit :=
  fd ← open (lit "testfile.txt") O_CREATE_RDWR;
  if fd <? 0 then say "Error: Failed to create test file" []
  else
    write fd (lit "This is a test file." ++ [10]);;
    close fd;;
    r ← mkdir (lit "testdir");
    if r <? 0 then say "Error: Failed to create test directory" []
    else
      r ← call (u_move_file (lit "testfile.txt") (lit "testdir"));
      (if r <? 0 then say "Error: Failed to move file to directory" [] else say "Success: File moved to directory" []);;
      fd ← open (lit "testdir/testfile.txt") O_RDONLY;
      (if fd <? 0 then say "Error: File not found in new location" []
       else say "Success: File found in new location" [];; close fd;; mret tt);;
      unlink (lit "testdir/testfile.txt");;
      unlink (lit "testdir");;
      mret tt.
End Tests.
