(* ===== verification/System.v ===== *)
(** * The system, from the image to the tests

    The disk [mkfs] builds, the kernel booted on it, and a process whose calls go
    through the dispatcher to the file system, the log and the buffer cache: the
    tests of [usertests.c] run on it.  The process has four pages; its stack, the
    strings it passes and its buffer are at fixed addresses of them.  Descriptor
    1 is the console, whose driver is modelled apart ([Console]): what is written
    to it is collected here. *)

From S2P Require Import Prelude Mem Kalloc Vm VmInv VmSpec Bytes Str Bio Log Txn Fs FsBlocks FsFile Mkfs Ulib File Locks Proc Syscall Sysfile Exec Usertests.
From S2P Require Pipe.

Module System.

(** ** The disk *)

(** The programs the tests look for; their contents do not matter. *)
Definition files : list source :=
  [(lit "README", Some [lit "xv6"]); (lit "_cat", Some [[127; 69]]); (lit "_echo", Some [[127; 69]]); (lit "_init", Some [[127; 69]])].
Definition disk_of (im : Z → block) : gmap Z block :=
  list_to_map (filter (λ kb, kb.2 ≠ zero_block) (map (λ i, (i, im i)) (seqZ 0 FSSIZE))).
Definition image : option (gmap Z block) := (λ s, disk_of (img s)) <$> mkfs files.
Definition disk : gmap Z block := Eval vm_compute in default ∅ image.

(** ** The kernel *)

Definition run {S A} (m : M S A) (s : S) : option (A * S) := match m (Ctx [] []) s with Ret a _ s => Some (a, s) | _ => None end.

(** The file system after the first process has run [iinit] and [initlog], and the inode of the root. *)
Definition mounted : option (option nat * fstate) :=
  run (iinit 5 ROOTDEV;; Fs.disk (initlog 5 ROOTDEV);; namei 5 NINODE (λ _, None) (lit "/"))
      (FS (LS (binit (bcache0 disk FSSIZE)) (Log 0 0 0 0 0 0 (replicate 30 0))) (replicate NINODE inode0) (SB 0 0 0 0 0 0 0)).

(** Four pages of user memory. *)
Definition dir : Z := kend0 + 4096 * 7.
Definition memory : kmem :=
  let s := SampleVm.boot_mem 8 in
  let s := Kmem (use_lock s) (rd_word (kmm s) (V2P dir)) (memset_page (V2P dir) 0 (kmm s)) in
  match run (allocuvm kend0 dir 0 16384) s with Some (_, s) => s | None => s end.

Definition stack_top : Z := 512.
Definition str1 : Z := 1024.
Definition str2 : Z := 1536.
Definition buffer : Z := 4096.

Definition user (root : option nat) : proc :=
  set_cwd root (set_tf (set_eip_esp 0 stack_top tf0) (set_sz 16384 (set_pgdir dir
    (set_kstack 0x80300000 (set_state RUNNING (set_pid 5 proc0)))))).
Definition boot : option (kstate world) :=
  (λ rs, KS (user rs.1 :: replicate 63 proc0) 6 None 0 (replicate NCPU cpu0) false 0 0 Reentrant.rinit
            (World rs.2 (replicate NFILE file0) ∅ memory)) <$> mounted.

#[export] Instance lower : Lower world := world_lower kend0 SampleVm.data0 [] (λ _, None) 5 0.
#[export] Instance calls : FileCalls world := world_files kend0 SampleVm.data0 [] (λ _, None) (λ _, None) 0.

(** ** The process *)

(** The kernel, what the console shows, and whether every call came back. *)
Record sys := Sys { kern : kstate world; screen : list Z; alive : bool }.

Definition poke (va : Z) (l : list Z) (s : kstate world) : kstate world :=
  let w := low s in
  let k := wmem w in
  with_low (set_wmem (Kmem (use_lock k) (freelist k) (wr_user dir va l (kmm k))) w) s.
Definition peek (va : Z) (n : nat) (s : kstate world) : list Z := map (λ k, user_mem 0 s (va + Z.of_nat k)) (seq 0 n).

(** Call [num] with [args] on the stack, through [syscall]. *)
Definition do_call (num : Z) (args : list Z) (o : sys) : Z * sys :=
  let s := poke (stack_top + 4) (concat (map le32 args)) (kern o) in
  let s := with_ptable (alter (λ p, set_tf (set_eax num (tf p)) p) 0%nat (ptable s)) s in
  match syscall tf0 [] 0 100 0 0 (Ctx [] []) s with
  | Ret true _ s => (i32 (eax (tf (proc_at 0 s))), Sys s (screen o) (alive o))
  | _ => (-1, Sys (kern o) (screen o) false)
  end.
Definition put (va : Z) (l : list Z) (o : sys) : sys := Sys (poke va l (kern o)) (screen o) (alive o).
Definition put_str (va : Z) (path : list Z) (o : sys) : sys := put va (path ++ [0]) o.

#[export] Instance sys_posix : Posix sys := {|
  p_read fd n o := let '(r, o) := do_call 5 [fd; buffer; n] o in ((r, peek buffer (Z.to_nat r) (kern o)), o);
  p_write fd l o := if fd =? 1 then (Z.of_nat (length l), Sys (kern o) (screen o ++ l) (alive o))
                    else do_call 16 [fd; buffer; Z.of_nat (length l)] (put buffer l o);
  p_open path mode o := do_call 15 [str1; mode] (put_str str1 path o);
  p_close fd o := do_call 21 [fd] o;
  p_unlink path o := do_call 18 [str1] (put_str str1 path o);
  p_link old new o := do_call 19 [str1; str2] (put_str str2 new (put_str str1 old o));
  p_mkdir path o := do_call 20 [str1] (put_str str1 path o);
  p_kill pid o := do_call 6 [pid] o;
  p_fstat fd o := let '(r, o) := do_call 8 [fd; buffer] o in
                  let st := peek buffer 20 (kern o) in ((r, Ustat (get16 st 0) (get32 st 8) (get32 st 16)), o) |}.
#[export] Instance sys_unix : Unix sys := {|
  u_chdir path o := do_call 9 [str1] (put_str str1 path o);
  u_sbrk n o := do_call 12 [n] o;
  u_read_at fd a n o := do_call 5 [fd; a; n] o;
  u_mknod path maj min o := do_call 17 [str1; maj; min] (put_str str1 path o);
  u_dup fd o := do_call 10 [fd] o;
  u_move_file src dest o := do_call 23 [str1; str2] (put_str str2 dest (put_str str1 src o)) |}.

(** After [init] has opened the console. *)
Definition started : option sys :=
  match boot with
  | None => None
  | Some k => match init_console (Sys k [] true) with Returns _ o => Some o | _ => None end
  end.
(** The blocks that the bitmap on the disk has free. *)
Definition free_blocks (o : sys) : Z := Z.of_nat (nfree Mkfs.sb (λ b, disk_at b (bio (ls (wfs (low (kern o))))))).
(** A program that returns, with no call lost: what it shows, and how many blocks more are free. *)
Definition outcome (m : U sys unit) : option (list Z * Z) :=
  match started with
  | None => None
  | Some o => match m o with Returns _ o' => if alive o' then Some (screen o', free_blocks o' - free_blocks o) else None | _ => None end
  end.

(** The tests that run in one process and remove what they make, in the order of [usertests]. *)
Definition buf : list Z := replicate 512 7.
Definition tests : U sys unit :=
  argptest;; opentest;; dirtest;; iputtest;; rmdot;; subdir;; linktest;; unlinkread buf;; dirfile.
Definition lines (l : list string) : list Z := concat (map (λ s, lit s ++ [10]) l).
End System.
Import System.


(** The lab's test of [move_file] reports success and removes what it made, but the block of the file it moved is
    never free again: the reference [move_file] keeps holds the unlinked inode. *)
Theorem move_file_test_loses_block : outcome test_move_file = Some (lines [
  "Success: File moved to directory"; "Success: File found in new location"], -1).
Proof. vm_compute. reflexivity. Qed.
