(* ===== verification/FileRun.v ===== *)
(** * A machine that runs system calls

    One process of one page over the file system of [SampleFs] between two calls,
    with the whole dispatcher: the state the theorems on open files are applied
    to, and runs of calls that create, write, read and move files. *)

From S2P Require Import Prelude Mem Kalloc Vm VmInv VmSpec Bytes Str Bio Log Txn Fs FsSample File Locks Proc Syscall Sysfile Exec.
From S2P Require Pipe.

Module SampleRun.

Definition no_read : Z → option (nat → Z → M fstate (Z * list Z)) := λ _, None.
Definition no_write : Z → option (nat → list Z → M fstate Z) := λ _, None.

(** Nothing is locked and no call is running; the process is in the root. *)
Definition root : inode := set_ilk Sleeplock.initsleeplock SampleFs.root.
Definition fs0 : fstate :=
  FS (LS (binit (bcache0 SampleFs.disk 1000)) (Log 2 30 0 0 ROOTDEV 0 (replicate 30 0)))
     (root :: replicate 49 inode0) SampleFs.sb.
Definition low0 : world := World fs0 (replicate NFILE file0) ∅ SampleVm.one_page.

(** The stack pointer and the addresses of two strings and a buffer. *)
Definition stack_top : Z := 512.
Definition str1 : Z := 1024.
Definition str2 : Z := 1536.
Definition buffer : Z := 2048.

Definition user : proc :=
  set_cwd (Some 0%nat) (set_tf (set_eip_esp 0 stack_top tf0) (set_sz 4096 (set_pgdir SampleVm.dir
    (set_kstack 0x80300000 (set_state RUNNING (set_pid 5 proc0)))))).
Definition machine : kstate world :=
  KS (user :: replicate 63 proc0) 6 None 0 (replicate NCPU cpu0) false 0 0 Reentrant.rinit low0.

#[export] Instance lower : Lower world := world_lower kend0 SampleVm.data0 [] no_read 5 0.
#[export] Instance calls : FileCalls world := world_files kend0 SampleVm.data0 [] no_read no_write 0.

(** The user program stores [l] at [va], and makes call [num] with [args]; the
    result of the call, or [None] when it does not return. *)
Definition poke (va : Z) (l : list Z) (s : kstate world) : kstate world :=
  let w := low s in
  let k := wmem w in
  with_low (set_wmem (Kmem (use_lock k) (freelist k) (wr_user SampleVm.dir va l (kmm k))) w) s.
Definition user_call (num : Z) (args : list Z) (s : kstate world) : option Z * kstate world :=
  let s := poke (stack_top + 4) (concat (map le32 args)) s in
  let s := with_ptable (alter (λ p, set_tf (set_eax num (tf p)) p) 0%nat (ptable s)) s in
  match syscall tf0 [] 0 100 0 0 (Ctx [] []) s with
  | Ret true _ s => (Some (i32 (eax (tf (proc_at 0 s)))), s)
  | Ret false _ s | Sleep _ _ s => (None, s)
  | Panic _ => (None, s)
  end.
Definition peek (va : Z) (n : nat) (s : kstate world) : list Z :=
  map (λ k, user_mem 0 s (va + Z.of_nat k)) (seq 0 n).

(** The strings "a", "d", "." and "d/a". *)
Definition a_path : list Z := [97; 0].
Definition d_path : list Z := [100; 0].
Definition dot_path : list Z := [46; 0].
Definition da_path : list Z := [100; 47; 97; 0].
Definition hello : list Z := [104; 101; 108; 108; 111].

(** [open("a", O_CREATE|O_RDWR)]; then [write(0, "hello", 5)] and [close(0)];
    then [open("a", O_RDONLY)] and [read(0, buffer, 100)]. *)
Definition opened := user_call 15 [str1; O_CREATE + O_RDWR] (poke str1 a_path machine).
Definition written := user_call 16 [0; buffer; 5] (poke buffer hello (snd opened)).
Definition closed := user_call 21 [0] (snd written).
Definition reopened := user_call 15 [str1; O_RDONLY] (poke buffer (replicate 5 0) (snd closed)).
Definition read_back := user_call 5 [0; buffer; 100] (snd reopened).

(** After [close], [mkdir("d")]; then [move_file("a", "d")], or
    [move_file("a", ".")]. *)
Definition made := user_call 20 [str2] (poke str2 d_path (snd closed)).
Definition moved := user_call 23 [str1; str2] (snd made).
Definition moved_here := user_call 23 [str1; str2] (poke str2 dot_path (snd made)).

(** After [mkdir], [link("a", "d/.")]. *)
Definition ddot_path : list Z := [100; 47; 46; 0].
Definition linked_dot := user_call 19 [str1; str2] (poke str2 ddot_path (snd made)).

(** The cached inode of file "a". *)
Definition a_inode (s : kstate world) : inode := inode_at 1 (wfs (low s)).

End SampleRun.
