(* ===== verification/FileSpec.v ===== *)
(** * Theorems on open files

    Reference counts: the count of every entry of the file table is the number of
    descriptors that refer to it, over all processes, across the system calls
    on files and across [fork] and [exit].  Runs of calls on the small machine. *)

From S2P Require Import Prelude Mem Kalloc Vm VmInv VmOut Bytes Str Bio Log Txn Fs File Locks Proc ProcInv Syscall Sysfile Exec FileRun.
From S2P Require Pipe.

(** Descriptors of one process, and of a table of processes, that refer to [f]. *)
Definition fd_refs (f : nat) (l : list (option nat)) : Z := Z.of_nat (length (filter (λ x, x = Some f) l)).
Definition refs (f : nat) (ps : list proc) : Z := foldr (λ p z, fd_refs f (ofile p) + z) 0 ps.

(** A slot that is free or waits to be freed has no open files. *)
Definition dead (p : proc) : Prop := state p = UNUSED ∨ state p = ZOMBIE.
Definition slot_ok (p : proc) : Prop :=
  length (ofile p) = NOFILE ∧ (dead p → ofile p = replicate NOFILE None).

(** [X f] references to [f] are in the hands of running kernel code. *)
Record balanced (X : nat → Z) (s : kstate world) : Prop := {
  b_count f : f_ref (file_at f (low s)) = refs f (ptable s) + X f;
  b_table : length (ftable (low s)) = NFILE;
  b_procs : length (ptable s) = NPROC ∧ Forall slot_ok (ptable s) }.

Definition none : nat → Z := λ _, 0.
Definition plus1 (f : nat) (X : nat → Z) : nat → Z := λ g, X g + if decide (g = f) then 1 else 0.
Definition minus1 (f : nat) (X : nat → Z) : nat → Z := λ g, X g - if decide (g = f) then 1 else 0.

Lemma balanced_ext X Y s : (∀ f, X f = Y f) → balanced X s → balanced Y s.
Proof. intros HXY []. split; [|done|done]. intros f. by rewrite <- HXY. Qed.

(** ** Counting *)

Lemma fd_refs_nonneg f l : 0 ≤ fd_refs f l ≤ Z.of_nat (length l).
Proof. unfold fd_refs. pose proof (length_filter (λ x, x = Some f) l). lia. Qed.

Lemma refs_nonneg f ps : 0 ≤ refs f ps.
Proof. induction ps as [|p ps IH]; simpl; [lia|]. pose proof (fd_refs_nonneg f (ofile p)). lia. Qed.
Lemma refs_bound f ps : Forall slot_ok ps → 0 ≤ refs f ps ≤ 16 * Z.of_nat (length ps).
Proof.
  induction 1 as [|p ps [Hp _] _ IH]; simpl; [lia|]. pose proof (fd_refs_nonneg f (ofile p)) as Hf. rewrite Hp in Hf.
  unfold NOFILE in Hf. lia.
Qed.

Lemma refs_delete f i ps p : ps !! i = Some p → refs f ps = fd_refs f (ofile p) + refs f (delete i ps).
Proof.
  revert i; induction ps as [|q ps IH]; intros [|i] H; simplify_eq/=; [done|]. rewrite (IH i H).
  change (refs f (q :: delete i ps)) with (fd_refs f (ofile q) + refs f (delete i ps)). lia.
Qed.
Lemma fd_refs_pos f l fd : l !! fd = Some (Some f) → 1 ≤ fd_refs f l.
Proof.
  intros H. unfold fd_refs. destruct (filter (λ x, x = Some f) l) as [|y k] eqn:E; [|simpl; lia].
  apply list_elem_of_lookup_2 in H. exfalso. apply (not_elem_of_nil (Some f)). rewrite <- E. by apply list_elem_of_filter.
Qed.
Lemma fd_refs_insert f g l fd x : l !! fd = Some x →
  fd_refs f (<[fd := g]> l) = fd_refs f l + (if decide (g = Some f) then 1 else 0) - (if decide (x = Some f) then 1 else 0).
Proof.
  revert fd; induction l as [|y l IH]; intros [|fd] H; simplify_eq/=.
  - unfold fd_refs. rewrite !filter_cons. repeat case_decide; simpl; lia.
  - specialize (IH fd H). unfold fd_refs in *. rewrite !filter_cons. repeat case_decide; simpl; lia.
Qed.

Lemma alter_twice {A} (g h : A → A) i (l : list A) : alter g i (alter h i l) = alter (λ x, g (h x)) i l.
Proof. revert i; induction l as [|x l IH]; intros [|i]; simpl; [done..|]. f_equal. apply IH. Qed.

Lemma refs_alter f i g (ps : list proc) p : ps !! i = Some p →
  refs f (alter g i ps) = refs f ps + fd_refs f (ofile (g p)) - fd_refs f (ofile p).
Proof.
  revert i; induction ps as [|q ps IH]; intros [|i] H; simplify_eq/=; [lia|]. rewrite IH by done. lia.
Qed.
Lemma alter_none (i : nat) (g : proc → proc) (ps : list proc) : ps !! i = None → alter g i ps = ps.
Proof.
  revert i; induction ps as [|q ps IH]; intros [|i] H; simplify_eq/=; [done..|]. f_equal. by apply IH.
Qed.
Lemma refs_alter_same f i g (ps : list proc) : (∀ p, ofile (g p) = ofile p) → refs f (alter g i ps) = refs f ps.
Proof.
  intros Hg. destruct (ps !! i) as [p|] eqn:E; [|by rewrite alter_none].
  rewrite (refs_alter f i g ps p E), Hg. lia.
Qed.

Lemma procs_alter i g (ps : list proc) : (∀ p, ps !! i = Some p → slot_ok p → slot_ok (g p)) →
  length ps = NPROC ∧ Forall slot_ok ps → length (alter g i ps) = NPROC ∧ Forall slot_ok (alter g i ps).
Proof. intros Hg [Hl Hf]. split; [by rewrite length_alter|]. by apply Forall_alter. Qed.

(** ** Steps that keep the balance *)

(** The same counts. *)
Definition same_refs (w w' : world) : Prop :=
  length (ftable w') = length (ftable w) ∧ ∀ f, f_ref (file_at f w') = f_ref (file_at f w).
Lemma same_refs_ftable w w' : ftable w' = ftable w → same_refs w w'.
Proof. intros E. unfold same_refs, file_at. by rewrite E. Qed.
Lemma same_refs_trans w1 w2 w3 : same_refs w1 w2 → same_refs w2 w3 → same_refs w1 w3.
Proof. intros [A1 B1] [A2 B2]. split; [congruence|]. intros f. by rewrite B2. Qed.

Lemma balanced_low X s w : same_refs (low s) w → balanced X s → balanced X (with_low w s).
Proof.
  intros [Hl Hr] [B1 B2 B3]. split; simpl; [|congruence|done]. intros f. rewrite Hr. apply B1.
Qed.

Lemma balanced_upd X s i g : (∀ p, ofile (g p) = ofile p) →
  (dead (g (proc_at i s)) → dead (proc_at i s) ∨ ofile (proc_at i s) = replicate NOFILE None) →
  balanced X s → balanced X (with_ptable (alter g i (ptable s)) s).
Proof.
  intros Hg Hd [B1 B2 B3]. split; simpl.
  - intros f. by rewrite refs_alter_same.
  - done.
  - apply procs_alter; [|done]. intros p Hp [Hl Hc]. unfold proc_at in Hd. rewrite Hp in Hd. simpl in Hd.
    split; rewrite Hg; [done|]. intros Hdead. destruct (Hd Hdead); auto.
Qed.

(** The file table's counts as a whole. *)
Lemma balanced_file X Y s f g : balanced X s → (f < NFILE)%nat →
  (∀ h, f_ref (if decide (h = f) then g (file_at f (low s)) else file_at h (low s)) = refs h (ptable s) + Y h) →
  balanced Y (with_low (set_ftable (alter g f (ftable (low s))) (low s)) s).
Proof.
  intros [B1 B2 B3] Hf HY. split; simpl; [|by rewrite length_alter|done].
  intros h. rewrite <- HY. unfold file_at; simpl. destruct (decide (h = f)) as [->|Hne].
  - destruct (lookup_lt_is_Some_2 (ftable (low s)) f) as [x Hx]; [lia|].
    by rewrite list_lookup_alter_eq, Hx.
  - by rewrite list_lookup_alter_ne.
Qed.

(** ** A calculus for the balance

    [inv_at H m Q s]: run from [s], [m] sleeps in states in [H] and [Q] holds
    when it returns.  [inv]: while [m] sleeps every count is at least the number
    of descriptors. *)
Definition held_refs (s : kstate world) : Prop := ∃ Y, (∀ f, 0 ≤ Y f) ∧ balanced Y s.
Definition inv_at (H : kstate world → Prop) {A} (m : M (kstate world) A) (Q : A → kstate world → Prop)
    (s : kstate world) : Prop :=
  ∀ c, wlp m (λ a _ s', Q a s') (λ _ _ s', H s') c s.
Abbreviation inv := (inv_at held_refs).

Section Calculus.
Context {H : kstate world → Prop}.

Lemma inv_bind {A B} (m : M (kstate world) A) (f : A → M (kstate world) B) Q s :
  inv_at H m (λ a, inv_at H (f a) Q) s → inv_at H (m ≫= f) Q s.
Proof. intros Hm c. apply wlp_bind. eapply wlp_mono; [apply Hm| |done]. intros a c' s' Ha. apply Ha. Qed.
Lemma inv_mono {A} (m : M (kstate world) A) (Q Q' : A → kstate world → Prop) s :
  inv_at H m Q s → (∀ a s', Q a s' → Q' a s') → inv_at H m Q' s.
Proof. intros Hm HQ c. eapply wlp_mono; [apply Hm| |done]. auto. Qed.
Lemma inv_ret {A} (a : A) (Q : A → kstate world → Prop) s : Q a s → inv_at H (mret a) Q s.
Proof. by intros Hm c. Qed.
Lemma inv_get (Q : kstate world → kstate world → Prop) s : Q s s → inv_at H get Q s.
Proof. by intros Hm c. Qed.
Lemma inv_gets {A} (f : kstate world → A) (Q : A → kstate world → Prop) s : Q (f s) s → inv_at H (gets f) Q s.
Proof. by intros Hm c. Qed.
Lemma inv_modify f (Q : unit → kstate world → Prop) s : Q tt (f s) → inv_at H (modify f) Q s.
Proof. by intros Hm c. Qed.
Lemma inv_panic {A} msg (Q : A → kstate world → Prop) s : inv_at H (panic msg) Q s.
Proof. by intros c. Qed.
Lemma inv_emit e (Q : unit → kstate world → Prop) s : Q tt s → inv_at H (emit e) Q s.
Proof. by intros Hm c. Qed.
Lemma inv_acquire l (Q : unit → kstate world → Prop) s : Q tt s → inv_at H (acquire l) Q s.
Proof. intros Hm c. by apply wlp_acquire. Qed.
Lemma inv_release l (Q : unit → kstate world → Prop) s : Q tt s → inv_at H (release l) Q s.
Proof. intros Hm c. by apply wlp_release. Qed.

(** Operations below the process table. *)
Lemma inv_lift {A} (m : M world A) Q s :
  (∀ c, wlp m (λ a _ w, Q a (with_low w s)) (λ _ _ w, H (with_low w s)) c (low s)) → inv_at H (lift m) Q s.
Proof. intros Hm c. specialize (Hm c). unfold wlp, lift, zoom in *. by destruct (m c (low s)). Qed.

End Calculus.

(** Those that leave the counts alone. *)
Definition quiet {A} (m : M world A) : Prop :=
  ∀ c w, wlp m (λ _ _ w', same_refs w w') (λ _ _ w', same_refs w w') c w.
Lemma quiet_on_fs {A} (m : M fstate A) : quiet (on_fs m).
Proof. intros c w. unfold on_fs, zoom, wlp. by destruct (m c (wfs w)). Qed.
Lemma quiet_on_kmem {A} (m : M kmem A) : quiet (on_kmem m).
Proof. intros c w. unfold on_kmem, zoom, wlp. by destruct (m c (wmem w)). Qed.
Lemma quiet_on_pipe {A} p (m : M Pipe.pipe A) : quiet (on_pipe p m).
Proof. intros c w. unfold on_pipe, zoom, wlp. by destruct (m c _). Qed.
Lemma quiet_ret {A} (a : A) : quiet (mret a).
Proof. by intros c w. Qed.
Lemma quiet_emit e : quiet (emit e).
Proof. by intros c w. Qed.
Lemma quiet_panic {A} msg : quiet (panic (A := A) msg).
Proof. by intros c w. Qed.
Lemma quiet_asleep {A} ch : quiet (asleep (A := A) ch).
Proof. by intros c w. Qed.
Lemma quiet_get : quiet get.
Proof. by intros c w. Qed.
Lemma quiet_gets {A} (f : world → A) : quiet (gets f).
Proof. by intros c w. Qed.
Lemma quiet_upd_file f g : (∀ x, f_ref (g x) = f_ref x) → quiet (upd_file f g).
Proof.
  intros Hg c w. split; cbn [ftable set_ftable]; [by rewrite length_alter|]. intros h. unfold file_at.
  cbn [ftable set_ftable]. rewrite list_lookup_alter. case_decide; [|done]. subst.
  destruct (ftable w !! h) as [x|]; [apply Hg|done].
Qed.
Lemma quiet_bind {A B} (m : M world A) (f : A → M world B) : quiet m → (∀ a, quiet (f a)) → quiet (m ≫= f).
Proof.
  intros Hm Hf c w. apply wlp_bind. eapply wlp_mono; [apply Hm| |done].
  intros a c' w' E. eapply wlp_mono; [apply Hf| |]; intros x c2 w2 E2; exact (same_refs_trans _ _ _ E E2).
Qed.
Ltac quiet :=
  repeat lazymatch goal with
  | |- quiet (_ ≫= _) => apply quiet_bind; [|intros ?]
  | |- quiet (mret _) => apply quiet_ret
  | |- quiet get => apply quiet_get
  | |- quiet (gets _) => apply quiet_gets
  | |- quiet (on_fs _) => apply quiet_on_fs
  | |- quiet (on_kmem _) => apply quiet_on_kmem
  | |- quiet (on_pipe _ _) => apply quiet_on_pipe
  | |- quiet (emit _) => apply quiet_emit
  | |- quiet (panic _) => apply quiet_panic
  | |- quiet (asleep _) => apply quiet_asleep
  | |- quiet (upd_file _ _) => by apply quiet_upd_file
  | |- quiet (match ?x with _ => _ end) => destruct x
  | |- quiet (let _ := _ in _) => cbv zeta
  end.

Lemma inv_quiet_at {A} (H : kstate world → Prop) X (m : M world A) Q s :
  quiet m → balanced X s → (∀ w, balanced X (with_low w s) → H (with_low w s)) →
  (∀ a w, balanced X (with_low w s) → Q a (with_low w s)) → inv_at H (lift m) Q s.
Proof.
  intros Hq B HH HQ. apply inv_lift. intros c. eapply wlp_mono; [apply Hq| |].
  - intros a c' w E. apply HQ. by apply balanced_low.
  - intros ch c' w E. apply HH. by apply balanced_low.
Qed.
Lemma inv_quiet {A} X (m : M world A) Q s :
  quiet m → balanced X s → (∀ f, 0 ≤ X f) →
  (∀ a w, balanced X (with_low w s) → Q a (with_low w s)) → inv (lift m) Q s.
Proof. intros Hq B HX HQ. eapply inv_quiet_at; [done..| |done]. intros w Bw. by exists X. Qed.

Ltac inv_step :=
  lazymatch goal with
  | |- inv_at _ (_ ≫= _) _ _ => apply inv_bind
  | |- inv_at _ (mret _) _ _ => apply inv_ret
  | |- inv_at _ get _ _ => apply inv_get
  | |- inv_at _ (gets _) _ _ => apply inv_gets
  | |- inv_at _ (modify _) _ _ => apply inv_modify
  | |- inv_at _ (upd _ _) _ _ => apply inv_modify
  | |- inv_at _ (panic _) _ _ => apply inv_panic
  | |- inv_at _ (acquire _) _ _ => apply inv_acquire
  | |- inv_at _ (release _) _ _ => apply inv_release
  end; cbv beta.

(** ** The file table *)

Lemma find_file_spec l : ∀ i k, find_file i l = Some k → (i ≤ k)%nat ∧ ∃ x, l !! (k - i)%nat = Some x ∧ f_ref x = 0.
Proof.
  induction l as [|x l IH]; intros i k H; [done|]. cbn [find_file] in H.
  destruct (Z.eqb_spec (f_ref x) 0) as [E|E]; simplify_eq.
  - split; [lia|]. exists x. by rewrite Nat.sub_diag.
  - destruct (IH _ _ H) as [Hle Hx]. split; [lia|]. by replace (k - i)%nat with (S (k - S i)) by lia.
Qed.

Lemma with_low_low (s : kstate world) : with_low (low s) s = s.
Proof. by destruct s. Qed.

Lemma b_lt X s f : balanced X s → 0 < f_ref (file_at f (low s)) → (f < NFILE)%nat.
Proof.
  intros B Hf. rewrite <- (b_table _ _ B). unfold file_at in Hf. destruct (ftable (low s) !! f) eqn:E; [|simpl in Hf; lia].
  by eapply lookup_lt_Some.
Qed.
Lemma b_range X s f : balanced X s → 0 ≤ refs f (ptable s) ≤ 1024.
Proof.
  intros [_ _ [Hl Hf]]. pose proof (refs_bound f _ Hf) as H. rewrite Hl in H. unfold NPROC in H. lia.
Qed.

Lemma file_at_alter X s f g : balanced X s → (f < NFILE)%nat →
  file_at f (set_ftable (alter g f (ftable (low s))) (low s)) = g (file_at f (low s)).
Proof.
  intros B Hf. unfold file_at. cbn [ftable set_ftable]. destruct (lookup_lt_is_Some_2 (ftable (low s)) f) as [x Hx].
  { by rewrite (b_table _ _ B). }
  by rewrite list_lookup_alter_eq, Hx.
Qed.

Lemma inv_filealloc X s Q :
  balanced X s →
  (∀ w, balanced X (with_low w s) → Q None (with_low w s)) →
  (∀ f w, (f < NFILE)%nat → refs f (ptable s) + X f = 0 → balanced (plus1 f X) (with_low w s) →
     Q (Some f) (with_low w s)) →
  inv (lift filealloc) Q s.
Proof.
  intros B H0 H1. apply inv_lift. intros c. unfold filealloc.
  apply wlp_bind, wlp_acquire, wlp_bind, wlp_get. destruct (find_file 0 (ftable (low s))) as [f|] eqn:E.
  - apply find_file_spec in E as (_ & x & Hx & Hr). rewrite Nat.sub_0_r in Hx.
    assert ((f < NFILE)%nat) as Hf by (rewrite <- (b_table _ _ B); by eapply lookup_lt_Some).
    assert (refs f (ptable s) + X f = 0) as Hz.
    { rewrite <- (b_count _ _ B). unfold file_at. by rewrite Hx. }
    apply wlp_bind, wlp_modify, wlp_bind, wlp_release. intros c'. apply H1; [done|done|].
    apply (balanced_file X _ s f (set_f_ref 1)); [done|done|]. intros h. unfold plus1.
    case_decide as E; [subst; cbn [f_ref set_f_ref]; lia|]. rewrite (b_count _ _ B). lia.
  - apply wlp_bind, wlp_release. intros c'. apply H0. by rewrite with_low_low.
Qed.

Lemma inv_filedup X s f Q : balanced X s → X f ≤ 1024 →
  (∀ w, balanced (plus1 f X) (with_low w s) → Q f (with_low w s)) → inv (lift (filedup f)) Q s.
Proof.
  intros B HX HQ. apply inv_lift. intros c. unfold filedup. apply wlp_bind, wlp_acquire, wlp_bind, wlp_get.
  destruct (Z.ltb_spec (f_ref (file_at f (low s))) 1) as [|Hr]; [apply wlp_panic|].
  apply wlp_bind, wlp_modify, wlp_bind, wlp_release. intros c'. apply HQ.
  apply (balanced_file X _ s f); [done|eapply b_lt; [done|lia]|]. intros h. unfold plus1.
  pose proof (b_range _ _ f B). rewrite (b_count _ _ B) in Hr. case_decide as E.
  - subst. cbn [f_ref set_f_ref]. rewrite (b_count _ _ B), i32_small by lia. lia.
  - rewrite (b_count _ _ B). lia.
Qed.

Lemma inv_fileclose_at (H : kstate world → Prop) X s kend mypid f Q : balanced X s → X f ≤ 1024 →
  (∀ w, balanced (minus1 f X) (with_low w s) → H (with_low w s)) →
  (∀ w, balanced (minus1 f X) (with_low w s) → Q tt (with_low w s)) → inv_at H (lift (fileclose kend mypid f)) Q s.
Proof.
  intros B HXf HH HQ. apply inv_lift. intros c. unfold fileclose. apply wlp_bind, wlp_acquire, wlp_bind, wlp_get.
  pose proof (b_range _ _ f B) as Hrange. pose proof (b_count _ _ B f) as Hcount.
  destruct (Z.ltb_spec (f_ref (file_at f (low s))) 1) as [|Hr]; [apply wlp_panic|].
  assert ((f < NFILE)%nat) as Hf by (eapply b_lt; [done|lia]).
  assert (∀ w g, f_ref (g (file_at f (low s))) = f_ref (file_at f (low s)) - 1 →
    same_refs (set_ftable (alter g f (ftable (low s))) (low s)) w → balanced (minus1 f X) (with_low w s)) as Hend.
  { intros w g Hg Hw. eapply (balanced_low _ (with_low _ s)); [exact Hw|]. apply (balanced_file X); [done|done|].
    intros h. unfold minus1. case_decide as E; [subst; lia|]. rewrite (b_count _ _ B). lia. }
  apply wlp_bind, wlp_modify, wlp_bind, wlp_get.
  rewrite (file_at_alter _ _ _ _ B Hf). cbn [f_ref set_f_ref f_type f_pipe f_ip writable].
  rewrite i32_small by lia. destruct (Z.ltb_spec 0 (f_ref (file_at f (low s)) - 1)) as [Hpos|Hzero].
  { apply wlp_release. intros c'. apply HQ, (Hend _ (λ x, set_f_ref (i32 (f_ref x - 1)) x)); [|done].
    cbn [f_ref set_f_ref]. by rewrite i32_small by lia. }
  apply wlp_bind, wlp_modify, wlp_bind, wlp_release. intros c'. set (w := set_ftable _ _).
  assert (∀ w', same_refs w w' → balanced (minus1 f X) (with_low w' s)) as Hw'.
  { intros w' E. eapply (Hend w' (λ x, File FD_NONE 0 (readable x) (writable x) (f_pipe x) (f_ip x) (f_off x))).
    - simpl. lia.
    - eapply same_refs_trans; [|exact E]. apply same_refs_ftable. unfold w. cbn [ftable set_ftable]. by rewrite alter_twice. }
  assert (∀ (m : M world unit), quiet m → wlp m (λ a _ w', Q a (with_low w' s))
    (λ _ _ w', H (with_low w' s)) c' w) as Hq.
  { intros m Hm. eapply wlp_mono; [apply Hm| |].
    - intros [] c1 w' E. by apply HQ, Hw'.
    - intros ch c1 w' E. by apply HH, Hw'. }
  destruct (f_type (file_at f (low s))); apply Hq; unfold close_pipe; quiet.
Qed.
Lemma inv_fileclose X s kend mypid f Q : balanced X s → (∀ g, 0 ≤ X g) → 1 ≤ X f ≤ 1024 →
  (∀ w, balanced (minus1 f X) (with_low w s) → Q tt (with_low w s)) → inv (lift (fileclose kend mypid f)) Q s.
Proof.
  intros B HX HXf HQ. eapply inv_fileclose_at; [done|lia| |done]. intros w Bw. exists (minus1 f X). split; [|done].
  intros g. unfold minus1. specialize (HX g). case_decide; subst; lia.
Qed.

(** ** Descriptors *)

Lemma find_fd_spec l : ∀ i k, find_fd i l = Some k → (i ≤ k)%nat ∧ l !! (k - i)%nat = Some None.
Proof.
  induction l as [|[x|] l IH]; intros i k H; simplify_eq/=; [|by rewrite Nat.sub_diag].
  destruct (IH _ _ H) as [Hle Hx]. split; [lia|]. by replace (k - i)%nat with (S (k - S i)) by lia.
Qed.

(** Storing [x] over [y] in descriptor [fd] of process [me]. *)
Definition swap_fd (x y : option nat) (X : nat → Z) : nat → Z :=
  λ f, X f - (if decide (x = Some f) then 1 else 0) + (if decide (y = Some f) then 1 else 0).
Lemma balanced_ofile X s me fd x y : balanced X s → (me < NPROC)%nat → ofile (proc_at me s) !! fd = Some y →
  x = None ∨ ¬ dead (proc_at me s) →
  balanced (swap_fd x y X) (with_ptable (alter (λ p, set_ofile (<[fd := x]> (ofile p)) p) me (ptable s)) s).
Proof.
  intros [B1 B2 B3] Hme Hy Hx. unfold proc_at in Hy, Hx. destruct (lookup_lt_is_Some_2 (ptable s) me) as [p Ep].
  { by rewrite (proj1 B3). }
  rewrite Ep in Hy, Hx. simpl in Hy, Hx. split; simpl; [|done|].
  - intros f. rewrite (refs_alter f me _ _ p Ep). cbn [ofile set_ofile]. rewrite (fd_refs_insert f x _ _ y Hy), B1.
    unfold swap_fd. lia.
  - apply procs_alter; [|done]. intros q Hq [Hl Hc]. simplify_eq. split; cbn [ofile set_ofile]; [by rewrite length_insert|].
    intros Hd. change (dead p) in Hd. destruct Hx as [->|[]]; [|done]. rewrite (Hc Hd). apply insert_replicate.
Qed.

Lemma inv_fdalloc X s me f Q : balanced X s → (me < NPROC)%nat → ¬ dead (proc_at me s) →
  Q (-1) s →
  (∀ fd s', 0 ≤ fd → ofile (proc_at me s') !! Z.to_nat fd = Some (Some f) → ¬ dead (proc_at me s') →
     balanced (minus1 f X) s' → Q fd s') →
  inv (fdalloc me f) Q s.
Proof.
  intros B Hme Hd H0 H1. unfold fdalloc. do 2 inv_step. destruct (find_fd 0 (ofile (proc_at me s))) as [fd|] eqn:E.
  2:{ by inv_step. }
  apply find_fd_spec in E as [_ E]. rewrite Nat.sub_0_r in E. inv_step. apply inv_modify. inv_step.
  apply H1; [lia| | |].
  - rewrite Nat2Z.id. unfold proc_at in *. simpl. destruct (lookup_lt_is_Some_2 (ptable s) me) as [p Ep].
    { by rewrite (proj1 (b_procs _ _ B)). }
    rewrite Ep in E. rewrite list_lookup_alter_eq, Ep. simpl in *. apply list_lookup_insert_eq. by eapply lookup_lt_Some.
  - unfold proc_at in *. simpl. rewrite list_lookup_alter_eq. by destruct (ptable s !! me).
  - eapply balanced_ext; [|apply (balanced_ofile X s me fd (Some f) None); auto]. intros g. unfold swap_fd, minus1.
    repeat case_decide; simplify_eq; lia.
Qed.

(** Fetching arguments changes nothing. *)
Lemma inv_argfd me n Q s : (∀ a, (∀ fd f, a = Some (fd, f) → 0 ≤ fd ∧ ofile (proc_at me s) !! Z.to_nat fd = Some (Some f)) → Q a s) →
  inv (argfd me n) Q s.
Proof.
  intros H. unfold argfd, arg. repeat inv_step. apply H. intros fd f E. repeat case_match; simplify_eq.
  bool_props. split; [lia|done].
Qed.
Lemma inv_arg_str me n Q s : (∀ a, Q a s) → inv (arg_str me n) Q s.
Proof. intros H. unfold arg_str, user_bytes. do 2 inv_step. repeat case_match; repeat inv_step; apply H. Qed.
Lemma inv_arg_ptr me n k Q s : (∀ a, Q a s) → inv (arg_ptr me n k) Q s.
Proof. intros H. unfold arg_ptr. inv_step. apply H. Qed.
Lemma inv_arg me n Q s : (∀ a, Q a s) → inv (arg me n) Q s.
Proof. intros H. unfold arg. inv_step. apply H. Qed.

Lemma inv_files_quiet {A} X me (m : Z → bool → M world A) Q s :
  (∀ p k, quiet (m p k)) → balanced X s → (∀ f, 0 ≤ X f) →
  (∀ a w, balanced X (with_low w s) → Q a (with_low w s)) → inv (on_files_as me m) Q s.
Proof. intros Hq B HX HQ. unfold on_files_as. do 2 inv_step. by eapply inv_quiet. Qed.
Lemma inv_fs {A} X me (m : Z → nat → M fstate A) Q s : balanced X s → (∀ f, 0 ≤ X f) →
  (∀ a w, balanced X (with_low w s) → Q a (with_low w s)) → inv (on_fs_as me m) Q s.
Proof. intros B HX HQ. unfold on_fs_as. do 2 inv_step. eapply inv_quiet; [apply quiet_on_fs|done..]. Qed.
Lemma inv_put_user X me va l Q s : balanced X s → (∀ f, 0 ≤ X f) →
  (∀ w, balanced X (with_low w s) → Q tt (with_low w s)) → inv (put_user me va l) Q s.
Proof.
  intros B HX HQ. unfold put_user. do 2 inv_step. eapply inv_quiet; [apply quiet_on_kmem|done..|].
  intros [] w. apply HQ.
Qed.

(** ** The calls *)

Section Calls.
Context (kend data : Z) (junk_page : list Z).
Context (dev_read : Z → option (nat → Z → M fstate (Z * list Z)))
        (dev_write : Z → option (nat → list Z → M fstate Z)).
Context (me : nat) (Hme : (me < NPROC)%nat).

Definition bal {A} : A → kstate world → Prop := λ _ s, balanced none s.

Lemma none_nonneg f : 0 ≤ none f.
Proof. done. Qed.
Lemma plus1_nonneg f g : 0 ≤ plus1 f none g.
Proof. unfold plus1, none. case_decide; lia. Qed.
Lemma plus1_at f : plus1 f none f = 1.
Proof. unfold plus1, none. by rewrite decide_True. Qed.
Lemma minus1_plus1 f X s : balanced (minus1 f (plus1 f X)) s → balanced X s.
Proof. apply balanced_ext. intros g. unfold minus1, plus1. lia. Qed.
Hint Resolve none_nonneg plus1_nonneg : core.

Lemma sys_dup_inv s : balanced none s → ¬ dead (proc_at me s) → inv (sys_dup me) bal s.
Proof.
  intros B Hd. unfold sys_dup. inv_step. apply inv_argfd. intros [[fd f]|] _; [|by inv_step].
  inv_step. apply (inv_fdalloc none); [done|done|done|change (-1 <? 0) with true; cbv iota beta; by inv_step|]. intros fd' s' Hfd _ _ B'.
  destruct (Z.ltb_spec fd' 0); [lia|]. inv_step. apply (inv_filedup (minus1 f none)); [done| |].
  { unfold minus1, none. rewrite decide_True by done. lia. }
  intros w Bw. inv_step. eapply balanced_ext; [|exact Bw]. intros g. unfold plus1, minus1. lia.
Qed.

Lemma sys_close_inv s : balanced none s → inv (sys_close kend me) bal s.
Proof.
  intros B. unfold sys_close. inv_step. apply inv_argfd. intros [[fd f]|] Ha; [|by inv_step].
  destruct (Ha fd f eq_refl) as [Hfd Hf]. do 2 inv_step. unfold on_files_as. do 3 inv_step.
  apply (inv_fileclose (plus1 f none)).
  - eapply balanced_ext; [|eapply (balanced_ofile none s me _ None); eauto]. intros g. unfold swap_fd, plus1.
    repeat case_decide; simplify_eq; lia.
  - auto.
  - rewrite plus1_at. lia.
  - intros w Bw. inv_step. by apply minus1_plus1 in Bw.
Qed.

Lemma inv_done {A} (a : A) w s : balanced none (with_low w s) → inv (mret a) bal (with_low w s).
Proof. intros B. by inv_step. Qed.

Lemma quiet_fileread mypid killed f n : quiet (fileread mypid killed dev_read f n).
Proof. unfold fileread. quiet. Qed.
Lemma quiet_filestat mypid f : quiet (filestat mypid f).
Proof. unfold filestat. quiet. Qed.
Lemma quiet_filewrite_loop mypid f fuel addr : quiet (filewrite_loop mypid dev_write fuel f addr).
Proof. revert addr; induction fuel as [|fuel IH]; intros [|b addr]; cbn [filewrite_loop]; quiet; apply IH. Qed.
Lemma quiet_filewrite mypid killed f addr : quiet (filewrite mypid killed dev_write f addr).
Proof. unfold filewrite. quiet. apply quiet_filewrite_loop. Qed.

Lemma sys_read_inv s : balanced none s → inv (sys_read dev_read me) bal s.
Proof.
  intros B. unfold sys_read. inv_step. apply inv_argfd. intros a _. inv_step. apply inv_arg. intros n.
  destruct a as [[fd f]|], n as [n|]; try by inv_step. inv_step. apply inv_arg_ptr. intros [p|]; [|by inv_step].
  inv_step. apply (inv_files_quiet none); [intros; apply quiet_fileread|done|auto|]. intros r w Bw.
  inv_step. apply (inv_put_user none); [done|auto|]. intros w' Bw'. by inv_step.
Qed.
Lemma sys_write_inv s : balanced none s → inv (sys_write dev_write me) bal s.
Proof.
  intros B. unfold sys_write. inv_step. apply inv_argfd. intros a _. inv_step. apply inv_arg. intros n.
  destruct a as [[fd f]|], n as [n|]; try by inv_step. inv_step. apply inv_arg_ptr. intros [p|]; [|by inv_step].
  unfold user_bytes. do 2 inv_step. by apply (inv_files_quiet none); [intros; apply quiet_filewrite|done|auto|].
Qed.
Lemma sys_fstat_inv s : balanced none s → inv (sys_fstat me) bal s.
Proof.
  intros B. unfold sys_fstat. inv_step. apply inv_argfd. intros a _. inv_step. apply inv_arg_ptr. intros p.
  destruct a as [[fd f]|], p as [p|]; try by inv_step.
  inv_step. apply (inv_files_quiet none); [intros; apply quiet_filestat|done|auto|]. intros [r [st|]] w Bw; cbn [fst snd].
  - inv_step. unfold put_stat. do 4 (inv_step; apply (inv_put_user none); [done|auto|intros ? ?]).
    apply (inv_put_user none); [done|auto|intros ? ?]. by inv_step.
  - by inv_step.
Qed.

Lemma sys_link_inv s : balanced none s → inv (sys_link dev_read dev_write me) bal s.
Proof.
  intros B. unfold sys_link. inv_step. apply inv_arg_str. intros a. inv_step. apply inv_arg_str. intros b.
  destruct a, b; try by inv_step. by apply (inv_fs none); [done|auto|].
Qed.
Lemma sys_move_file_inv s : balanced none s → inv (sys_move_file dev_read dev_write me) bal s.
Proof.
  intros B. unfold sys_move_file. inv_step. apply inv_arg_str. intros a. inv_step. apply inv_arg_str. intros b.
  destruct a, b; try by inv_step. by apply (inv_fs none); [done|auto|].
Qed.
Lemma sys_unlink_inv s : balanced none s → inv (sys_unlink dev_read dev_write me) bal s.
Proof.
  intros B. unfold sys_unlink. inv_step. apply inv_arg_str. intros [a|]; [|by inv_step].
  by apply (inv_fs none); [done|auto|].
Qed.
Lemma make_node_inv args s : balanced none s → (∀ Q s, (∀ a, Q a s) → inv args Q s) →
  inv (make_node dev_read dev_write me args) bal s.
Proof.
  intros B Ha. unfold make_node. inv_step. apply (inv_fs none); [done|auto|]. intros u w Bw. inv_step. apply Ha.
  intros a. by apply (inv_fs none); [done|auto|].
Qed.
Lemma sys_mkdir_inv s : balanced none s → inv (sys_mkdir dev_read dev_write me) bal s.
Proof.
  intros B. apply make_node_inv; [done|]. intros Q s' HQ. inv_step. apply inv_arg_str. intros a. inv_step. apply HQ.
Qed.
Lemma sys_mknod_inv s : balanced none s → inv (sys_mknod dev_read dev_write me) bal s.
Proof.
  intros B. apply make_node_inv; [done|]. intros Q s' HQ. inv_step. apply inv_arg_str. intros a.
  inv_step. apply inv_arg. intros b. inv_step. apply inv_arg. intros c. inv_step. apply HQ.
Qed.
Lemma sys_chdir_inv s : balanced none s → inv (sys_chdir dev_read me) bal s.
Proof.
  intros B. unfold sys_chdir. inv_step. apply (inv_fs none); [done|auto|]. intros u w Bw. inv_step. apply inv_arg_str.
  intros a. inv_step. apply (inv_fs none); [done|auto|]. intros [ip|] w' Bw'; [|by inv_step].
  do 3 inv_step. apply balanced_upd; auto.
Qed.

Lemma sys_open_inv s : balanced none s → ¬ dead (proc_at me s) → inv (sys_open kend dev_read dev_write me) bal s.
Proof.
  intros B Hd. unfold sys_open, open_inode. inv_step. apply inv_arg_str. intros a. inv_step. apply inv_arg. intros b.
  destruct a as [path|], b as [omode|]; try by inv_step.
  inv_step. apply (inv_fs none); [done|auto|]. intros u0 w0 B0. inv_step. apply (inv_fs none); [done|auto|].
  intros [ip|] w1 B1; [|by inv_step]. inv_step. apply (inv_filealloc none); [done| |].
  - intros w2 B2. do 2 inv_step. by apply (inv_fs none); [done|auto|].
  - intros f w2 Hf Hz B2. inv_step. apply (inv_fdalloc (plus1 f none)); [done|done|done| |].
    + change (-1 <? 0) with true. cbv iota beta. unfold on_files_as. do 3 inv_step.
      apply (inv_fileclose (plus1 f none)); [done|auto|rewrite plus1_at; lia|]. intros w3 B3%minus1_plus1.
      by apply (inv_fs none); [done|auto|].
    + intros fd s3 Hfd _ _ B3%minus1_plus1. destruct (Z.ltb_spec fd 0); [lia|].
      inv_step. apply (inv_fs none); [done|auto|]. intros u4 w4 B4. inv_step.
      apply (inv_quiet none); [by apply quiet_upd_file|done|auto|]. intros u5 w5 B5. by inv_step.
Qed.

Lemma inv_lift_bind {A B} (m : M world A) (f : A → M world B) Q s :
  inv (lift m) (λ a, inv (lift (f a)) Q) s → inv (lift (m ≫= f)) Q s.
Proof.
  intros H c. specialize (H c). unfold wlp, lift, zoom, mbind, M_bind in *. destruct (m c (low s)) as [a c' w| |]; try done.
  specialize (H c'). unfold wlp, lift, zoom in H. change (low (with_low w s)) with w in H. by destruct (f a c' w).
Qed.
Lemma inv_lift_ret {A} (a : A) Q s : Q a s → inv (lift (mret a)) Q s.
Proof. intros H c. change (Q a (with_low (low s) s)). by rewrite with_low_low. Qed.

(** One reference to each of [r] and [w] in hand. *)
Definition both (r w : nat) : nat → Z := plus1 w (plus1 r none).
Lemma both_nonneg r w f : 0 ≤ both r w f.
Proof. unfold both, plus1, none. repeat case_decide; lia. Qed.
Hint Resolve both_nonneg : core.

Lemma inv_close_both r w s Q : r ≠ w → balanced (both r w) s →
  (∀ x, balanced none (with_low x s) → Q tt (with_low x s)) →
  inv (lift (fileclose kend (pid (proc_at me s)) r;; fileclose kend (pid (proc_at me s)) w)) Q s.
Proof.
  intros Hne B HQ. apply inv_lift_bind, (inv_fileclose (both r w)); [done|auto| |].
  { unfold both, plus1, none. repeat case_decide; done || lia. }
  intros x Bx. apply (inv_fileclose (plus1 w none)).
  - eapply balanced_ext; [|exact Bx]. intros g. unfold both, minus1, plus1. lia.
  - auto.
  - rewrite plus1_at. lia.
  - intros y By%minus1_plus1. by apply HQ.
Qed.

Lemma inv_pipealloc s Q : balanced none s →
  (∀ w, balanced none (with_low w s) → Q None (with_low w s)) →
  (∀ r w x, r ≠ w → balanced (both r w) (with_low x s) → Q (Some (r, w)) (with_low x s)) →
  inv (lift (pipealloc kend (pid (proc_at me s)) junk_page)) Q s.
Proof.
  intros B H0 H1. unfold pipealloc. apply inv_lift_bind, (inv_filealloc none); [done| |].
  { intros w Bw. repeat apply inv_lift_bind, inv_lift_ret. by apply inv_lift_ret, H0. }
  intros r w1 Hr _ B1. apply inv_lift_bind, (inv_filealloc (plus1 r none)); [done| |].
  { intros w2 B2. apply inv_lift_bind, (inv_fileclose (plus1 r none)); [done|auto|rewrite plus1_at; lia|].
    intros w3 B3%minus1_plus1. apply inv_lift_bind, inv_lift_ret, inv_lift_ret. by apply H0. }
  intros w w2 Hw Hz B2. fold (both r w) in B2.
  assert (r ≠ w) as Hne.
  { intros ->. rewrite plus1_at in Hz. pose proof (b_range _ _ w B1). simpl in *. lia. }
  apply inv_lift_bind, (inv_quiet (both r w)); [apply quiet_on_kmem|done|auto|]. intros p w3 B3.
  destruct (p =? 0).
  - unfold pipealloc_bad. apply inv_lift_bind. cbv beta.
    apply (inv_fileclose (both r w)); [done|auto| |].
    { unfold both, plus1, none. repeat case_decide; done || lia. }
    intros w4 B4. apply inv_lift_bind, (inv_fileclose (plus1 w none)).
    + eapply balanced_ext; [|exact B4]. intros g. unfold both, minus1, plus1. lia.
    + auto.
    + rewrite plus1_at. lia.
    + intros w5 B5%minus1_plus1. by apply inv_lift_ret, H0.
  - apply inv_lift_bind, (inv_quiet (both r w)); [by intros c0 w0|done|auto|]. intros u4 w4 B4.
    do 2 (apply inv_lift_bind, (inv_quiet (both r w)); [by apply quiet_upd_file|done|auto|]; intros ? ? ?).
    by apply inv_lift_ret, H1.
Qed.

Lemma sys_pipe_inv s : balanced none s → ¬ dead (proc_at me s) → inv (sys_pipe kend junk_page me) bal s.
Proof.
  intros B Hd. unfold sys_pipe. inv_step. apply inv_arg_ptr. intros [p|]; [|by inv_step].
  inv_step. unfold on_files_as at 1. do 2 inv_step. apply inv_pipealloc; [done|intros w Bw; by inv_step|].
  intros r w x Hne Bx. inv_step. apply (inv_fdalloc (both r w)); [done|done|done| |].
  - change (-1 <? 0) with true. cbv iota beta. do 2 inv_step. change (0 <=? -1) with false. cbn [orb]. cbv iota.
    do 2 inv_step. unfold on_files_as. do 3 inv_step. apply inv_close_both; [done|done|]. intros y By. by inv_step.
  - intros fd0 s1 Hfd0 Hof Hd1 B1. destruct (Z.ltb_spec fd0 0); [lia|]. inv_step.
    assert (balanced (plus1 w none) s1) as B1'.
    { eapply balanced_ext; [|exact B1]. intros g. unfold both, minus1, plus1. lia. }
    apply (inv_fdalloc (plus1 w none)); [done|done|done| |].
    + change (-1 <? 0) with true. destruct (Z.leb_spec 0 fd0); [|lia]. cbn [orb]. cbv iota beta. do 2 inv_step.
      unfold on_files_as. do 3 inv_step. apply inv_close_both; [done| |intros y By; by inv_step].
      eapply balanced_ext; [|eapply (balanced_ofile (plus1 w none) s1 me _ None); eauto]. intros g. unfold swap_fd, both, plus1, none.
      repeat case_decide; simplify_eq; lia.
    + intros fd1 s2 Hfd1 _ _ B2%minus1_plus1. destruct (Z.ltb_spec fd1 0); [lia|]. cbn [orb]. cbv iota.
      do 2 (inv_step; apply (inv_put_user none); [done|auto|intros ? ?]). by inv_step.
Qed.

(** *** [exec] *)

Lemma quiet_loaduvm_loop mypid fuel d a ip o n i : quiet (loaduvm_loop dev_read mypid fuel d a ip o n i).
Proof. revert i; induction fuel as [|fuel IH]; intros i; cbn [loaduvm_loop]; quiet; apply IH. Qed.
Lemma quiet_load_segments mypid k d ip o n : quiet (load_segments kend dev_read mypid k d ip o n).
Proof.
  revert o n; induction k as [|k IH]; intros o n; cbn [load_segments]; [quiet|]. unfold loaduvm.
  quiet; first [apply IH|apply quiet_loaduvm_loop].
Qed.
Lemma quiet_exec_load mypid d path : quiet (exec_load kend data dev_read mypid d path).
Proof. unfold exec_load, exec_fail, exec_bad. quiet; apply quiet_load_segments. Qed.
Lemma quiet_push_args d sp argv us : quiet (push_args d sp argv us).
Proof. revert sp us; induction argv as [|a argv IH]; intros sp us; cbn [push_args]; quiet; apply IH. Qed.
Lemma quiet_exec_stack d n argv : quiet (exec_stack kend d n argv).
Proof. unfold exec_stack. quiet; apply quiet_push_args. Qed.

Lemma inv_exec_args fuel uargv Q s : (∀ a, Q a s) → ∀ argv, inv (exec_args fuel me uargv argv) Q s.
Proof.
  intros HQ. induction fuel as [|fuel IH]; intros argv; cbn [exec_args]; [by inv_step|]. do 2 inv_step.
  repeat case_match; try by inv_step. unfold user_bytes. do 2 inv_step. apply IH.
Qed.

Lemma balanced_cpus X c s : balanced X s → balanced X (with_cpus c s).
Proof. by intros []. Qed.

Lemma sys_exec_inv cpu s : balanced none s → inv (sys_exec kend data dev_read cpu me) bal s.
Proof.
  intros B. unfold sys_exec, exec. inv_step. apply inv_arg_str. intros a. inv_step. apply inv_arg. intros b.
  destruct a, b; try by inv_step. inv_step. apply inv_exec_args. intros [argv|]; [|by inv_step].
  do 3 inv_step. apply (inv_quiet none); [apply quiet_exec_load|done|auto|]. intros [e|[[d n] entry]] w1 B1; [by inv_step|].
  inv_step. apply (inv_quiet none); [apply quiet_exec_stack|done|auto|]. intros [[n' sp]|] w2 B2.
  - do 4 (inv_step; apply inv_modify). unfold switchuvm. do 3 inv_step.
    repeat case_match; [apply inv_panic..|]. apply inv_modify. inv_step.
    apply (inv_quiet none); [apply quiet_on_kmem| |auto|intros u w3 B3; by inv_step].
    apply balanced_cpus. repeat (apply balanced_upd; [done|by left|]). done.
  - unfold exec_bad. apply (inv_quiet none); [quiet|done|auto|]. intros r w3 B3. exact B3.
Qed.

End Calls.

(** ** [fork] and [exit] *)

Section Processes.
Context (kend data : Z) (init : list Z).
Context (dev_read : Z → option (nat → Z → M fstate (Z * list Z))).
Context (mypid : Z) (dir : nat) (junk_tf : trapframe).
Context (me : nat) (Hme : (me < NPROC)%nat).
#[local] Instance lower : Lower world := world_lower kend data init dev_read mypid dir.

Lemma proc_at_upd X i g s : balanced X s → (i < NPROC)%nat →
  proc_at i (with_ptable (alter g i (ptable s)) s) = g (proc_at i s).
Proof.
  intros B Hi. unfold proc_at. simpl. destruct (lookup_lt_is_Some_2 (ptable s) i) as [p Ep].
  { by rewrite (proj1 (b_procs _ _ B)). }
  by rewrite list_lookup_alter_eq, Ep.
Qed.
Lemma balanced_slot X s i : balanced X s → slot_ok (proc_at i s).
Proof.
  intros B. unfold proc_at. destruct (ptable s !! i) as [p|] eqn:E; [|by split].
  exact (proj1 (Forall_lookup _ _) (proj2 (b_procs _ _ B)) _ _ E).
Qed.

(** A slot that [fork] is filling. *)
Definition embryo (np : nat) (s : kstate world) : Prop :=
  state (proc_at np s) = EMBRYO ∧ ofile (proc_at np s) = replicate NOFILE None ∧ balanced none s.

Lemma inv_upd_embryo np g (Q : unit → kstate world → Prop) s : (np < NPROC)%nat → embryo np s →
  (∀ p, state (g p) = state p) → (∀ p, ofile (g p) = ofile p) →
  (∀ s', embryo np s' → Q tt s') → inv (upd np g) Q s.
Proof.
  intros Hnp (Hs & Ho & B) H1 H2 HQ. apply inv_modify, HQ. unfold embryo. rewrite (proc_at_upd _ _ _ _ B Hnp), H1, H2.
  split; [done|]. split; [done|]. apply balanced_upd; auto.
Qed.

Lemma inv_allocproc (Q : option nat → kstate world → Prop) s : balanced none s →
  (∀ s', balanced none s' → Q None s') →
  (∀ np s', (np < NPROC)%nat → embryo np s' → Q (Some np) s') →
  inv (allocproc junk_tf) Q s.
Proof.
  intros B H0 H1. unfold allocproc. do 4 inv_step.
  destruct (find_proc _ (ptable s)) as [np|] eqn:E; [|do 3 inv_step; by apply H0].
  apply find_proc_Some in E as (p & Hp & Hst & _). apply bool_decide_eq_true in Hst.
  assert (np < NPROC)%nat as Hnp by (rewrite <- (proj1 (b_procs _ _ B)); by eapply lookup_lt_Some).
  assert (proc_at np s = p) as Eat by (unfold proc_at; by rewrite Hp).
  do 2 inv_step. set (s1 := with_ptable _ s).
  assert (embryo np s1) as H.
  { unfold embryo, s1. rewrite (proc_at_upd _ _ _ _ B Hnp), Eat. split; [done|]. split.
    - change (ofile p = replicate NOFILE None). rewrite <- Eat. apply (balanced_slot _ _ _ B). left. by rewrite Eat.
    - apply balanced_upd; [done|intros [|]; done|done]. }
  clearbody s1. clear Eat Hst.
  inv_step. apply inv_upd_embryo; [done..|]. clear s1 H; intros s1 H. do 2 inv_step.
  assert (embryo np (with_nextpid (i32 (nextpid s + 1)) s1)) as H2 by (destruct H as (? & ? & []); done).
  clear H. inv_step. apply inv_upd_embryo; [done..|]. intros s2 H. do 3 inv_step.
  destruct H as (Hs & Ho & B3). apply (inv_quiet none); [apply quiet_on_kmem|done|done|]. intros k w B4.
  inv_step. apply inv_upd_embryo; [done|done|done..|]. intros s5 H5. destruct (k =? 0).
  - do 3 inv_step. apply H0. destruct H5 as (? & ? & ?). apply balanced_upd; auto.
  - do 2 (inv_step; apply inv_upd_embryo; [done..|]; clear dependent s5; intros s5 H5). do 2 inv_step.
    inv_step. apply inv_upd_embryo; [done..|]. intros s6 H6. inv_step. by apply H1.
Qed.

(** The child's descriptors from [fd] on are still closed. *)
Lemma inv_dup_files np Q l : ∀ fd s, (np < NPROC)%nat → balanced none s → ¬ dead (proc_at np s) →
  (∀ k, (k < length l)%nat → ofile (proc_at np s) !! (fd + k)%nat = Some None) →
  (∀ s', balanced none s' → Q tt s') → inv (dup_files np fd l) Q s.
Proof.
  induction l as [|[f|] l IH]; intros fd s Hnp B Hd Hc HQ; cbn [dup_files].
  - inv_step. by apply HQ.
  - inv_step. cbn [l_filedup lower world_lower]. apply inv_lift_bind, (inv_filedup none); [done|done|].
    intros w Bw. apply inv_lift_ret. do 2 inv_step.
    assert (ofile (proc_at np (with_low w s)) !! fd = Some None) as Hfd.
    { specialize (Hc 0%nat). rewrite Nat.add_0_r in Hc. apply Hc. simpl. lia. }
    set (s' := with_ptable _ _). assert (balanced none s') as B'.
    { eapply balanced_ext; [|eapply (balanced_ofile _ _ np fd (Some f) None Bw); auto]. intros g.
      unfold swap_fd, plus1, none. repeat case_decide; simplify_eq; lia. }
    apply IH; [done|done| | |done]; unfold s'; rewrite (proc_at_upd _ _ _ _ Bw Hnp); [done|].
    intros k Hk. cbn [ofile set_ofile]. rewrite list_lookup_insert_ne by lia.
    replace (S fd + k)%nat with (fd + S k)%nat by lia. apply Hc. simpl. lia.
  - apply IH; [done..| |done]. intros k Hk. replace (S fd + k)%nat with (fd + S k)%nat by lia. apply Hc. simpl. lia.
Qed.

Lemma inv_upd_bal i g (Q : unit → kstate world → Prop) s : balanced none s → (∀ p, ofile (g p) = ofile p) →
  (∀ p, dead (g p) → dead p) → (∀ s', balanced none s' → Q tt s') → inv (upd i g) Q s.
Proof. intros B Hg Hd HQ. apply inv_modify, HQ, balanced_upd; auto. Qed.

Lemma fork_publish_inv np s : balanced none s → inv (fork_publish np) bal s.
Proof.
  intros B. unfold fork_publish. do 5 inv_step. apply inv_upd_bal; [done|done|intros p [|]; done|].
  intros s' B'. do 3 inv_step. destruct (_ =? 2); [|by repeat inv_step].
  unfold change_queue, get_proc_by_pid, null_dereference. repeat inv_step. case_match; repeat inv_step.
  apply balanced_upd; auto.
Qed.

Lemma fork_fill_inv np cur s : (np < NPROC)%nat → embryo np s → length (ofile cur) = NOFILE →
  inv (fork_fill me np cur) bal s.
Proof.
  intros Hnp H Hl. unfold fork_fill.
  do 4 (inv_step; apply inv_upd_embryo; [done..|]; clear dependent s; intros s H).
  destruct H as (Hs & Ho & B). inv_step. apply inv_dup_files; [done|done| | |].
  - by intros [|]; rewrite Hs in *.
  - intros k Hk. rewrite Ho. apply lookup_replicate. split; [done|lia].
  - clear dependent s. intros s B. inv_step. cbn [l_idup lower world_lower].
    apply (inv_quiet none); [quiet|done|done|]. intros u w Bw.
    inv_step. apply inv_upd_bal; [done|done|done|]. intros s' B'. by apply inv_upd_bal.
Qed.

Lemma fork_inv s : balanced none s → inv (fork junk_tf me) bal s.
Proof.
  intros B. unfold fork. inv_step. apply inv_allocproc; [done|intros s' B'; by inv_step|]. intros np s1 Hnp H1.
  destruct H1 as (Hs & Ho & B1). do 3 inv_step. apply (inv_quiet none); [apply quiet_on_kmem|done|done|]. intros d w Bw.
  inv_step. apply inv_upd_embryo; [done|done|done..|]. intros s2 H2. destruct (d =? 0).
  - do 3 inv_step. destruct H2 as (Hs2 & Ho2 & B2). apply (inv_quiet none); [apply quiet_on_kmem|done|done|].
    intros u w3 B3. inv_step. apply inv_upd_embryo; [done|done|done..|]. intros s4 (Hs4 & Ho4 & B4).
    do 2 inv_step. inv_step. apply balanced_upd; auto.
  - inv_step. eapply inv_mono; [apply fork_fill_inv; [done|done|]|].
    + apply (balanced_slot _ _ me B1).
    + intros u s3 B3. by apply fork_publish_inv.
Qed.

(** While [exit] closes a file its own descriptor still refers to it, and the
    count covers the descriptors of the other processes. *)
Definition held_others (s : kstate world) : Prop :=
  ∃ Y, (∀ f, 0 ≤ Y f) ∧ ∀ f, f_ref (file_at f (low s)) = refs f (delete me (ptable s)) + Y f.

Lemma balanced_others X s : balanced X s → (∀ f, 0 ≤ fd_refs f (ofile (proc_at me s)) + X f) → held_others s.
Proof.
  intros B HX. exists (λ f, fd_refs f (ofile (proc_at me s)) + X f). split; [done|]. intros f. rewrite (b_count _ _ B).
  unfold proc_at. destruct (lookup_lt_is_Some_2 (ptable s) me) as [p Ep].
  { by rewrite (proj1 (b_procs _ _ B)). }
  rewrite Ep, (refs_delete f me _ p Ep). simpl. lia.
Qed.
Lemma balanced_none_others s : balanced none s → held_others s.
Proof. intros B. apply (balanced_others none); [done|]. intros f. pose proof (fd_refs_nonneg f (ofile (proc_at me s))). unfold none. lia. Qed.

(** The process has no open files. *)
Definition gone (s : kstate world) : Prop := balanced none s ∧ ofile (proc_at me s) = replicate NOFILE None.

Lemma inv_close_files Q l : ∀ fd s, balanced none s → (fd + length l)%nat = NOFILE →
  (∀ k, (k < fd)%nat → ofile (proc_at me s) !! k = Some None) →
  (∀ k x, l !! k = Some x → ofile (proc_at me s) !! (fd + k)%nat = Some x) →
  (∀ s', gone s' → Q tt s') → inv_at held_others (close_files me fd l) Q s.
Proof.
  induction l as [|x l IH]; intros fd s B Hlen Hc Ho HQ; cbn [close_files].
  { inv_step. apply HQ. split; [done|]. apply list_eq_same_length with NOFILE; [by rewrite length_replicate|apply (balanced_slot _ _ me B)|].
    intros k y z Hk Hy Hz. apply lookup_replicate in Hz as [-> _]. rewrite Hc in Hy by (simpl in *; lia). by simplify_eq. }
  simpl in Hlen. assert (ofile (proc_at me s) !! fd = Some x) as Hfd by (rewrite <- (Nat.add_0_r fd); by apply Ho).
  destruct x as [f|].
  - inv_step. cbn [l_fileclose lower world_lower]. apply (inv_fileclose_at _ none); [done|done| |]; intros w Bw.
    { apply (balanced_others _ _ Bw). intros g. change (proc_at me (with_low w s)) with (proc_at me s). unfold minus1, none.
      pose proof (fd_refs_nonneg g (ofile (proc_at me s))). case_decide; [subst|lia]. pose proof (fd_refs_pos f _ _ Hfd). lia. }
    do 2 inv_step. set (s' := with_ptable _ _). assert (balanced none s') as B'.
    { eapply balanced_ext; [|eapply (balanced_ofile _ _ me fd None (Some f) Bw); auto]. intros g.
      unfold swap_fd, minus1, none. repeat case_decide; simplify_eq; lia. }
    apply IH; [done|lia| | |done]; unfold s'; rewrite (proc_at_upd _ _ _ _ Bw Hme); cbn [ofile set_ofile].
    + intros k Hk. destruct (decide (k = fd)) as [->|Hne].
      * apply list_lookup_insert_eq. by eapply lookup_lt_Some.
      * rewrite list_lookup_insert_ne by done. apply Hc. lia.
    + intros k y Hy. rewrite list_lookup_insert_ne by lia. replace (S fd + k)%nat with (fd + S k)%nat by lia. by apply Ho.
  - apply IH; [done|lia| | |done].
    + intros k Hk. destruct (decide (k = fd)) as [->|]; [done|]. apply Hc. lia.
    + intros k y Hy. replace (S fd + k)%nat with (fd + S k)%nat by lia. by apply Ho.
Qed.

Lemma inv_gone_upd {H} i g (Q : unit → kstate world → Prop) s : gone s → (∀ p, ofile (g p) = ofile p) →
  (∀ p, dead (g p) → dead p ∨ i = me) → (∀ s', gone s' → Q tt s') → inv_at H (upd i g) Q s.
Proof.
  intros [B Ho] Hg Hd HQ. apply inv_modify, HQ. split.
  - apply balanced_upd; [done| |done]. intros H1. destruct (Hd _ H1) as [|Hi]; [by left|right]. by rewrite Hi.
  - destruct (decide (i = me)) as [Hi|Hne].
    + rewrite Hi. by rewrite (proc_at_upd _ _ _ _ B Hme), Hg.
    + unfold proc_at in *. simpl. by rewrite list_lookup_alter_ne.
Qed.

Lemma inv_gone_wake {H} ch (Q : unit → kstate world → Prop) s : gone s → (∀ s', gone s' → Q tt s') →
  inv_at H (wakeup1 ch) Q s.
Proof.
  assert (∀ p, ofile (wake ch p) = ofile p) as Hw by (intros p; unfold wake; by case_match).
  assert (∀ p, dead (wake ch p) → dead p) as Hd by (intros p; unfold wake; case_match; [by intros [|]|done]).
  intros [[B1 B2 [B3 B4]] Ho] HQ. apply inv_modify, HQ. split.
  - split; simpl; [|done|].
    + intros f. rewrite B1. f_equal. clear -Hw. induction (ptable s) as [|p l IH]; [done|]. simpl. rewrite Hw.
      fold (refs f l). fold (refs f (wake ch <$> l)). by rewrite IH.
    + rewrite length_fmap. split; [done|]. apply Forall_fmap. eapply Forall_impl; [exact B4|]. intros p [Hl Hc].
      split; rewrite Hw; auto.
  - unfold proc_at in *. simpl. rewrite list_lookup_fmap. destruct (ptable s !! me); simpl in *; [by rewrite Hw|done].
Qed.

Lemma inv_gone_reparent {H} ini fuel (Q : unit → kstate world → Prop) : (∀ s, gone s → Q tt s) →
  ∀ k s, gone s → inv_at H (reparent me ini k fuel) Q s.
Proof.
  intros HQ. induction fuel as [|fuel IH]; intros k s G; cbn [reparent]; [inv_step; by apply HQ|].
  do 3 inv_step. case_bool_decide.
  - inv_step. apply inv_gone_upd; [done|done|by left|]. intros s' G'. do 2 inv_step. unfold when. case_bool_decide.
    + apply inv_gone_wake; [done|]. intros s2 G2. by apply IH.
    + inv_step. by apply IH.
  - inv_step. by apply IH.
Qed.

Lemma exit_inv s : balanced none s → inv_at held_others (exit me) (λ _, gone) s.
Proof.
  intros B. unfold exit. do 2 inv_step. case_bool_decide; [apply inv_panic|]. inv_step.
  apply inv_close_files; [done|apply (balanced_slot _ _ me B)|lia|done|]. intros s1 [B1 Ho1].
  inv_step. apply (inv_quiet_at _ none); [apply quiet_on_fs|done|intros w Bw; by apply balanced_none_others|]. intros u2 w2 B2.
  do 3 inv_step. apply (inv_quiet_at _ none); [apply quiet_on_fs|done|intros w Bw; by apply balanced_none_others|]. intros u3 w3 B3.
  inv_step. apply (inv_quiet_at _ none); [apply quiet_on_fs|done|intros w Bw; by apply balanced_none_others|]. intros u4 w4 B4.
  inv_step. apply inv_gone_upd; [done|done|by left|]. intros s5 G5. do 4 inv_step.
  inv_step. apply inv_gone_wake; [done|]. intros s6 G6. inv_step. apply inv_gone_reparent; [|done]. intros s7 G7.
  inv_step. apply inv_gone_upd; [done|done|by right|]. intros s8 G8. intros c.
  assert (inv_at held_others (upd me (set_context Csched)) (λ _, gone) s8) as Hu.
  { by apply inv_gone_upd; [|done|by left|]. }
  specialize (Hu c). unfold wlp, sched in *. destruct (negb _); [done|]. destruct (negb _); [done|]. by case_bool_decide.
Qed.

End Processes.

(** ** The claims *)

(** The calls of [sysfile.c] as the dispatcher reaches them. *)
Definition file_calls {F : FileCalls world} (me : nat) : list (M (kstate world) Z) :=
  [Syscall.sys_pipe me; Syscall.sys_read me; Syscall.sys_exec me; Syscall.sys_fstat me; Syscall.sys_chdir me;
   Syscall.sys_dup me; Syscall.sys_open me; Syscall.sys_write me; Syscall.sys_mknod me; Syscall.sys_unlink me;
   Syscall.sys_link me; Syscall.sys_mkdir me; Syscall.sys_close me; Syscall.sys_move_file me].

(** C4: The reference count of every open file is the number of descriptors that
    refer to it, over all processes, and free process slots have no descriptors:
    every system call on files, made by a process that runs, keeps this when it
    returns, whatever it returns, and while it sleeps every count is at least the
    number of descriptors. *)
Theorem file_refs_invariant kend data junk_page dev_read dev_write cpu me s :
  (me < NPROC)%nat → state (proc_at me s) = RUNNING → balanced none s →
  Forall (λ call, ∀ c, match call c s with
                       | Ret _ _ s' => balanced none s'
                       | Sleep _ _ s' => held_refs s'
                       | Panic _ => True
                       end)
    (file_calls (F := world_files kend data junk_page dev_read dev_write cpu) me).
Proof.
  intros Hme Hr B. assert (¬ dead (proc_at me s)) as Hd by (unfold dead; rewrite Hr; by intros [|]).
  unfold file_calls. repeat apply Forall_cons_2; [..|apply Forall_nil_2].
  - by apply sys_pipe_inv.
  - by apply sys_read_inv.
  - by apply sys_exec_inv.
  - by apply sys_fstat_inv.
  - by apply sys_chdir_inv.
  - by apply sys_dup_inv.
  - by apply sys_open_inv.
  - by apply sys_write_inv.
  - by apply sys_mknod_inv.
  - by apply sys_unlink_inv.
  - by apply sys_link_inv.
  - by apply sys_mkdir_inv.
  - by apply sys_close_inv.
  - by apply sys_move_file_inv.
Qed.

(** [fork] gives the child a reference of its own to each of the parent's open
    files, and gives none when it fails; [exit] gives back every reference of the
    process and leaves it without descriptors. While [exit] sleeps the counts
    cover the descriptors of the other processes. *)
Theorem fork_exit_refs kend data init dev_read mypid dir junk_tf me s c :
  (me < NPROC)%nat → balanced none s →
  (match fork (H := world_lower kend data init dev_read mypid dir) junk_tf me c s with
   | Ret _ _ s' => balanced none s'
   | Sleep _ _ s' => held_refs s'
   | Panic _ => True
   end) ∧
  match exit (H := world_lower kend data init dev_read mypid dir) me c s with
  | Ret _ _ s' => balanced none s' ∧ ofile (proc_at me s') = replicate NOFILE None
  | Sleep _ _ s' => held_others me s'
  | Panic _ => True
  end.
Proof. intros Hme B. split; [by apply fork_inv|by apply exit_inv]. Qed.

(** Total behaviour of [filedup] and of the descriptor search. *)
Lemma filedup_runs f tr w : 1 ≤ f_ref (file_at f w) →
  filedup f (Ctx [] tr) w = Ret f (Ctx [] tr) (set_ftable (alter (λ x, set_f_ref (i32 (f_ref x + 1)) x) f (ftable w)) w).
Proof.
  intros Hr. unfold filedup. rewrite bind_acquire by apply not_elem_of_nil. cbn [held trace].
  unfold mbind at 1, M_bind, get. destruct (Z.ltb_spec (f_ref (file_at f w)) 1); [lia|]. reflexivity.
Qed.
Lemma find_fd_first l : ∀ i k, find_fd i l = Some k → ∀ j, (i ≤ j < k)%nat → l !! (j - i)%nat ≠ Some None.
Proof.
  induction l as [|[x|] l IH]; intros i k H j Hj; simplify_eq/=; [|lia].
  destruct (decide (j = i)) as [->|Hne]; [by rewrite Nat.sub_diag|].
  replace (j - i)%nat with (S (j - S i)) by lia. simpl. apply (IH _ _ H). lia.
Qed.

Lemma refs_member f me (s : kstate world) fd : ofile (proc_at me s) !! Z.to_nat fd = Some (Some f) → 1 ≤ refs f (ptable s).
Proof.
  unfold proc_at. destruct (ptable s !! me) as [p|] eqn:E; simpl; intros H.
  - rewrite (refs_delete f me _ p E). pose proof (fd_refs_pos f _ _ H). pose proof (refs_nonneg f (delete me (ptable s))). lia.
  - change (replicate NOFILE (@None nat) !! Z.to_nat fd = Some (Some f)) in H. by apply lookup_replicate in H as [? _].
Qed.

(** [dup] always returns: -1 with nothing changed when the argument is not an open
    descriptor or all descriptors are taken, else the lowest free descriptor, now
    open on the same file, whose count has grown by one; no other descriptor and
    no other file changes. *)
Theorem sys_dup_spec me s tr :
  (me < NPROC)%nat → state (proc_at me s) = RUNNING → balanced none s →
  ∃ r s', Sysfile.sys_dup me (Ctx [] tr) s = Ret r (Ctx [] tr) s' ∧
    (r = -1 ∧ s' = s ∨
     ∃ fd f k, argint (user_mem me s) (sz (proc_at me s)) (esp (tf (proc_at me s))) 0 = Some fd ∧
       ofile (proc_at me s) !! Z.to_nat fd = Some (Some f) ∧ r = Z.of_nat k ∧
       ofile (proc_at me s) !! k = Some None ∧ (∀ j, (j < k)%nat → ofile (proc_at me s) !! j ≠ Some None) ∧
       ofile (proc_at me s') = <[k := Some f]> (ofile (proc_at me s)) ∧
       (∀ i, i ≠ me → proc_at i s' = proc_at i s) ∧
       f_ref (file_at f (low s')) = f_ref (file_at f (low s)) + 1 ∧
       (∀ g, g ≠ f → file_at g (low s') = file_at g (low s))).
Proof.
  intros Hme Hr B. unfold Sysfile.sys_dup, argfd, arg, fdalloc, mbind, M_bind, gets, mret, M_ret.
  destruct (argint _ _ _ 0) as [fd|] eqn:Ea; [|eexists _, _; split; [done|by left]].
  destruct ((fd <? 0) || _)%bool eqn:Eb; [eexists _, _; split; [done|by left]|].
  destruct (ofile (proc_at me s) !! Z.to_nat fd) as [[f|]|] eqn:Ef; [|eexists _, _; split; [done|by left]..].
  destruct (find_fd 0 (ofile (proc_at me s))) as [k|] eqn:Ek; [|eexists _, _; split; [done|by left]].
  set (s1 := with_ptable (alter (λ p, set_ofile (<[k := Some f]> (ofile p)) p) me (ptable s)) s).
  pose proof (find_fd_first _ _ _ Ek) as Hfirst. apply find_fd_spec in Ek as [_ Ek]. rewrite Nat.sub_0_r in Ek.
  assert (1 ≤ f_ref (file_at f (low s)) ≤ 1024) as Hc.
  { rewrite (b_count _ _ B). unfold none. pose proof (b_range _ _ f B). pose proof (refs_member f me s fd) as Hm.
    rewrite Z.add_0_r. split; [|lia]. by apply Hm. }
  change (upd me _ _ s) with (Ret tt (Ctx [] tr) s1). cbn iota. destruct (Z.ltb_spec (Z.of_nat k) 0); [lia|].
  unfold lift, zoom. change (low s1) with (low s). rewrite filedup_runs by lia.
  eexists _, _. split; [reflexivity|]. right. exists fd, f, k. repeat (split; [done|]). split; [|split; [|split; [|split]]].
  - intros j Hj. specialize (Hfirst j). rewrite Nat.sub_0_r in Hfirst. apply Hfirst. lia.
  - change (ofile (proc_at me s1) = <[k := Some f]> (ofile (proc_at me s))). unfold s1. by rewrite (proc_at_upd _ _ _ _ B Hme).
  - intros i Hi. unfold proc_at. simpl. by rewrite list_lookup_alter_ne.
  - cbn [low with_low]. rewrite (file_at_alter none s f _ B) by (eapply b_lt; [done|lia]). cbn [f_ref set_f_ref].
    apply i32_small. lia.
  - intros g Hg. unfold file_at. simpl. by rewrite list_lookup_alter_ne.
Qed.

(** A file reads back as it was written: creating "a" and writing five bytes to
    it, closing it, opening it again and reading up to 100 bytes gives the five
    bytes, each call going through the dispatcher, the descriptors, the inode
    layer, the log and the buffer cache. *)
Theorem open_write_read_run :
  (fst SampleRun.opened, fst SampleRun.written, fst SampleRun.closed, fst SampleRun.reopened, fst SampleRun.read_back,
   SampleRun.peek SampleRun.buffer 6 (snd SampleRun.read_back)) =
  (Some 0, Some 5, Some 0, Some 0, Some 5, SampleRun.hello ++ [0]).
Proof. vm_compute. reflexivity. Qed.

(** [move_file] takes a reference to the file that it never gives back: after a
    move of a file that nobody has open, the file is found under its new name and
    not under its old one, and its cached inode still has a reference, so that its
    entry of the inode cache is never free again. *)
Theorem move_file_leaks_reference :
  let old := SampleRun.user_call 15 [SampleRun.str1; O_RDONLY] (snd SampleRun.moved) in
  let new := SampleRun.user_call 15 [SampleRun.str1; O_RDONLY] (SampleRun.poke SampleRun.str1 SampleRun.da_path (snd SampleRun.moved)) in
  fst SampleRun.made = Some 0 ∧ Fs.ref (SampleRun.a_inode (snd SampleRun.made)) = 0 ∧
  fst SampleRun.moved = Some 0 ∧ fst old = Some (-1) ∧ fst new = Some 0 ∧
  Fs.ref (SampleRun.a_inode (snd SampleRun.moved)) = 1.
Proof. vm_compute. repeat split; reflexivity. Qed.

(** [move_file] of a file into the directory it is in does not return: the call
    holds the directory's lock and sleeps on it when it looks the parent up. *)
Theorem move_file_same_directory_sleeps :
  fst SampleRun.moved_here = None ∧
  ilk (inode_at 0 (wfs (low (snd SampleRun.moved_here)))) = Sleeplock.SL 1 (pid (proc_at 0 (snd SampleRun.moved_here))).
Proof. vm_compute. split; reflexivity. Qed.

(** [link] to a name that ends in "." does not return: [dirlink] finds the entry
    ".", which is the directory itself, and its [iput] sleeps on the lock of the
    directory, which the call holds.  The call stays inside its transaction. *)
Theorem link_dot_sleeps :
  fst SampleRun.linked_dot = None ∧
  ∃ dp, ilk (inode_at dp (wfs (low (snd SampleRun.linked_dot)))) =
        Sleeplock.SL 1 (pid (proc_at 0 (snd SampleRun.linked_dot))) ∧
    outstanding (lg (ls (wfs (low (snd SampleRun.linked_dot))))) = 1.
Proof. split; [vm_compute; reflexivity|]. exists 2%nat. vm_compute. split; reflexivity. Qed.

(** ** The machine satisfies the hypotheses *)

Module SampleRefs.
Import SampleRun.

Lemma refs_none f ps : Forall (λ p, ofile p = replicate NOFILE None) ps → refs f ps = 0.
Proof.
  induction 1 as [|p ps Hp _ IH]; [done|]. change (refs f (p :: ps)) with (fd_refs f (ofile p) + refs f ps).
  rewrite IH, Hp. reflexivity.
Qed.
Lemma balanced_fresh s : length (ptable s) = NPROC → Forall (λ p, ofile p = replicate NOFILE None) (ptable s) →
  ftable (low s) = replicate NFILE file0 → balanced none s.
Proof.
  intros Hl Hp Hf. split.
  - intros f. rewrite refs_none by done. unfold file_at. rewrite Hf.
    destruct (replicate NFILE file0 !! f) eqn:E; [|done]. by apply lookup_replicate in E as [-> _].
  - by rewrite Hf, length_replicate.
  - split; [done|]. eapply Forall_impl; [exact Hp|]. intros p E. split; [by rewrite E|done].
Qed.

(** About to call [open("a", O_CREATE|O_RDWR)]. *)
Definition start : kstate world := poke (stack_top + 4) (le32 str1 ++ le32 (O_CREATE + O_RDWR)) (poke str1 a_path machine).
Lemma start_balanced : balanced none start.
Proof.
  apply balanced_fresh; [done| |done]. change (ptable start) with (user :: replicate 63 proc0).
  apply Forall_cons. split; [done|]. by apply Forall_replicate.
Qed.

Lemma file_refs_invariant_witness :
  match Syscall.sys_open 0 (Ctx [] []) start with
  | Ret r _ s' => r = 0 ∧ balanced none s' ∧ f_ref (file_at 0 (low s')) = 1
  | _ => False
  end.
Proof.
  pose proof (file_refs_invariant kend0 VmSpec.SampleVm.data0 [] no_read no_write 0 0 start ltac:(vm_compute; lia) eq_refl start_balanced) as H.
  assert (match Syscall.sys_open 0 (Ctx [] []) start with
          | Ret r _ s' => r = 0 ∧ f_ref (file_at 0 (low s')) = 1
          | _ => False
          end) as E by (vm_compute; split; reflexivity).
  rewrite Forall_lookup in H. specialize (H 6%nat _ eq_refl (Ctx [] [])).
  change (world_files _ _ _ _ _ _) with calls in H.
  revert E H. destruct (Syscall.sys_open 0 (Ctx [] []) start); [|done..]. intros [-> E] H. by split.
Defined.

(** The file is open, and the process is about to call [dup(0)]. *)
Definition one_open : kstate world :=
  match Syscall.sys_open 0 (Ctx [] []) start with Ret _ _ s => poke (stack_top + 4) (le32 0) s | _ => start end.
Lemma after_balanced {A} (m : M (kstate world) A) va l s : inv m bal s → balanced none s →
  balanced none (match m (Ctx [] []) s with Ret _ _ s' => poke va l s' | _ => s end).
Proof.
  intros H B. specialize (H (Ctx [] [])). unfold wlp in H. destruct (m (Ctx [] []) s) as [r c s'| |]; [|done..].
  apply balanced_low; [by apply same_refs_ftable|exact H].
Qed.
Lemma start_runs : ¬ dead (proc_at 0 start).
Proof. unfold dead. change (proc_at 0 start) with user. by intros [|]. Qed.
Lemma one_open_balanced : balanced none one_open.
Proof.
  unfold one_open. apply (after_balanced (Syscall.sys_open 0) (stack_top + 4) (le32 0) start); [|apply start_balanced].
  apply (sys_open_inv kend0 no_read no_write 0); [unfold NPROC; lia|apply start_balanced|apply start_runs].
Qed.

Lemma sys_dup_spec_witness :
  ∃ s', Sysfile.sys_dup 0 (Ctx [] []) one_open = Ret 1 (Ctx [] []) s' ∧ f_ref (file_at 0 (low s')) = 2 ∧
    take 2 (ofile (proc_at 0 s')) = [Some 0%nat; Some 0%nat].
Proof.
  destruct (sys_dup_spec 0 one_open [] ltac:(vm_compute; lia) ltac:(vm_compute; reflexivity) one_open_balanced)
    as (r & s' & E & _).
  assert (match Sysfile.sys_dup 0 (Ctx [] []) one_open with
          | Ret r _ s' => r = 1 ∧ f_ref (file_at 0 (low s')) = 2 ∧ take 2 (ofile (proc_at 0 s')) = [Some 0%nat; Some 0%nat]
          | _ => False
          end) as H by (vm_compute; repeat split; reflexivity).
  exists s'. rewrite E in H. destruct H as (Hr & H1 & H2). rewrite Hr in E. exact (conj E (conj H1 H2)).
Defined.

Lemma fork_exit_refs_witness :
  match exit 0 (Ctx [] []) one_open with
  | Ret _ _ s' => balanced none s' ∧ ofile (proc_at 0 s') = replicate NOFILE None ∧ f_ref (file_at 0 (low s')) = 0
  | _ => False
  end.
Proof.
  destruct (fork_exit_refs kend0 VmSpec.SampleVm.data0 [] no_read 5 0 tf0 0 one_open (Ctx [] []) ltac:(vm_compute; lia)
    one_open_balanced) as [_ H].
  change (world_lower _ _ _ _ _ _) with SampleRun.lower in H.
  assert (match exit 0 (Ctx [] []) one_open with Ret _ _ s' => f_ref (file_at 0 (low s')) = 0 | _ => False end) as E
    by (vm_compute; reflexivity).
  revert E H. destruct (exit 0 (Ctx [] []) one_open); [|done..]. intros E [H1 H2]. exact (conj H1 (conj H2 E)).
Defined.

End SampleRefs.
